(* ===== verification/_CoqProject ===== *)
-Q . S2P
Prelude.v
Effects.v
Json.v
Sha256.v
TransactionModel.v
EcpaModel.v
ExposureGate.v
GateInvariant.v
GateRecovery.v
GateOracle.v
DurableCoordinator.v
CoordinatorProofs.v
CoordinatorRuns.v
ContractParser.v
ParserProofs.v
ContractCompiler.v
ContractOrder.v
CompilerProofs.v
CompilerTheorems.v
JsonText.v
JsonFacts.v
PlanArtifact.v
ArtifactProofs.v
SemanticObligations.v
SemanticProofs.v
Manifest.v
ManifestProofs.v
ProviderPlans.v
PlanConflicts.v
LifecycleProofs.v
RuntimeEvidence.v
VllmProvider.v
StateaxisProvider.v
Catalog.v
CatalogProofs.v
Discovery.v
DiscoveryProofs.v
Config.v
Commands.v
CommandLine.v
VllmProofs.v
CommandProofs.v
IntentProofs.v
LaunchProofs.v
StateaxisProofs.v
EvidenceProofs.v
Supervisor.v
SupervisorProofs.v
SupervisorEnds.v
Base64.v
HostEvidence.v
AttestationProfile.v
AttestationProofs.v
SignedCommit.v
SignedRuns.v
JournalFs.v
HostEventSink.v
Quarantine.v
QuarantineRecovery.v
JournalProofs.v
SinkProofs.v
RecordProofs.v
QuarantineState.v
RecordBounds.v
QuarantineSteps.v
QuarantinePaths.v
QuarantineSettle.v
QuarantineClean.v
QuarantineReconcile.v
QuarantineTheorems.v
QuarantineOperations.v
QuarantineLife.v
JournalTheorems.v
QuarantineRuns.v
JournalRuns.v
ManagerController.v
ManagerProofs.v
SinkCustody.v
