(* ===== verification/Prelude.v ===== *)
(** * Verification of the vLLM-HUST Extension Manager

    The repository's package [vllm_hust_ext] (src/src/vllm_hust_ext) plans, activates and rolls
    back extensions of a serving runtime under the ECPA transaction: contracts are compiled to a
    plan, the plan is activated by a durable coordinator, traffic moves to the candidate through
    an exposure gate, and every step leaves durable records from which a restarted manager
    recovers.  This library models the deciding code and proves it correct; the models are
    executable, and each file's examples evaluate them.

    ** Parts and files

    - Prelude.v: strings in code-point order, Python's stable [sorted] ([sort_by]), duplicate
      tests, the [reflect] tactic and the hint database [py_db].
    - Effects.v: the exception classes, [result] for pure code that may raise, the monad [M W]
      for code that mutates a world [W] and may raise (a raised exception keeps the mutations
      made before it; [transaction] undoes those of a database), lenses, and the
      weakest-precondition rules the proofs use.
    - Json.v: JSON values, dictionaries in insertion order, [int()], [==], and the two printers
      ([canonical_bytes] of ecpa_model.py, the ASCII printer of exposure_gate.py).
    - Sha256.v: the digest as a class, with FIPS 180-4's algorithm as its instance; theorems hold
      for any digest function, examples run the real one.
    - TransactionModel.v: experiments/transaction_model/explore.py.  [transition],
      [invariant_errors] and the breadth-first [explore] as written, the loop with fuel; the
      state space has 39 states and fuel 39 is proved to be enough.
    - EcpaModel.v: ecpa_model.py.  The data classes, content identifiers and every method of
      [ReferenceModel]; an [execution] is any sequence of calls, failing ones included.
    - ExposureGate.v: exposure_gate.py without the oracle.  The SQLite tables are the record
      [GateDb] (modules [GateRow], [Transition], [Admission], [AdmissionEvent] hold the rows),
      the traffic authority is the class [TrafficAuthorityAdapter] with the deterministic
      adapter as instance, and [World] adds clock, lease authority and armed fault points.
      [stage], [close], [open], [drain], [observe], [reconcile], [rollback] and [fail_close]
      are the methods; long methods are split into named parts ([open_guards],
      [reconcile_route], ...), each a range of the method's lines.
    - GateInvariant.v, GateRecovery.v: the gate's theorems.  GateOracle.v: [evaluate_trace] and
      [export_trace] and how far the offline oracle agrees with the gate.
    - DurableCoordinator.v: durable_coordinator.py.  The tables are the record [Store], host,
      verifier, traffic and lease service are the class [Adapters] (the module [Fake] models the
      repository's fakes), and a coordinator may own a [ReferenceExposureGate], whose calls run
      in the model of ExposureGate.v ([on_gate]).  CoordinatorProofs.v and CoordinatorRuns.v hold
      its theorems and runs.
    - ContractParser.v, ContractCompiler.v: contract_compiler.py.  The parsers return a contract
      or a [ContractPlanningError]; [compile_contracts] resolves capabilities, orders the
      extensions, settles resource ownership and binds obligations.  The third-party
      [packaging] library (versions and specifier sets) is the parameter [Packaging], with the
      laws that a printed version or specifier parses back.  ParserProofs.v, ContractOrder.v,
      CompilerProofs.v and CompilerTheorems.v hold the theorems.
    - PlanArtifact.v: plan_artifact.py.  [plan_artifact_bytes] prints a plan, and
      [parse_plan_artifact] accepts canonical text only and checks every field;
      ArtifactProofs.v.  SemanticObligations.v: semantic_obligations.py.
      [compile_native_semantic_plan] turns the semantic obligations of a compiled contract plan
      into obligations of an execution plan; SemanticProofs.v.
    - Manifest.v: manifest.py.  [parse_manifest] of both manifest formats, [activation_blocker];
      ManifestProofs.v.
    - ProviderPlans.v: core.py, providers/base.py and providers/__init__.py.  A provider is a
      record of operations ([HostProvider]); [status_for], [plan_for] and
      [reject_conflicting_plans] compose them.  PlanConflicts.v and LifecycleProofs.v.
    - RuntimeEvidence.v: runtime_evidence.py, with the process table, the decoder of a journal
      line and the reader of manifests as parameters; [status_for] quotes it.  EvidenceProofs.v.
    - VllmProvider.v: capabilities.py and providers/vllm.py.  [detect_vllm_capabilities] over what
      importing the host's modules gives, [vllm_plan] and [vllm_check], put together as the
      [HostProvider] of vLLM; VllmProofs.v.
    - StateaxisProvider.v: providers/stateaxis.py, the provider of research mods, whose plans
      [compose_binding] of Commands.v puts into one host configuration; StateaxisProofs.v.
    - Catalog.v: catalog.py and the catalog command of cli.py over a JSON value; CatalogProofs.v.
    - Discovery.v: discovery.py and [load_manifest].  Installed entry points and distributions are
      data, the file system is a few parameters; [discover_bundles] is the strict discovery of
      the names asked for, [discover_bundle_inventory] the tolerant one; DiscoveryProofs.v.
    - Config.v: config.py.  The saved intent is an association list in the dictionary's order, its
      file a [Disk] whose script says which system calls fail or are cut off.
    - Commands.v: cli.py.  The checks of a selection, the composition of a launch
      ([compose_launch], [_run_command]) from the plans of its bundles, and the commands that
      change the intent ([_extension_command]).  CommandLine.v: the edits that composition makes
      to a command line.  CommandProofs.v: dependencies.  IntentProofs.v: the saved intent over
      any history of commands; [Discovers] is what it asks of discovery.  LaunchProofs.v: what a
      composed launch promises.
    - Supervisor.v: process_supervisor.py on a POSIX system.  [step] is one instruction of the
      program or of a signal handler that interrupts it, or an event of the operating system;
      [run] is any interleaving.  [patience] bounds how many polls a killed process survives.
      SupervisorProofs.v holds the invariant and its consequences, SupervisorEnds.v the
      termination measure and the runs.
    - JsonText.v, JsonFacts.v, Base64.v: the standard library's [json.loads] and [base64] as the durable
      records use them, with the round trips of the printers.
    - AttestationProfile.v: attestation/profile.py and model.py.  [sign], [verify] and the verifier
      that the coordinator calls ([verify_receipt]); Ed25519 and the JCS canonicalisation are the
      classes [Ed25519] and [Jcs].  AttestationProofs.v; SignedCommit.v runs the
      coordinator over that verifier; SignedRuns.v holds the witnesses.
    - HostEvidence.v: host_evidence.py with the strict reader of attestation/profile.py:
      [parse_host_event] and [translate_invocation].
    - JournalFs.v: the file system under the journals.  A [World] holds directories, locks and a
      script that decides for every system call whether it is done, fails, is short or is the
      last before a SIGKILL.  HostEventSink.v: host_event_sink.py over it.
    - Quarantine.v, QuarantineRecovery.v: quarantine_transaction.py.  Records, lease, writer
      fence and the runner's operations; the reconciliation after a crash.
    - JournalProofs.v (specifications under faults: [runs], [reads]), SinkProofs.v,
      RecordProofs.v, RecordBounds.v, JournalTheorems.v: the theorems of the journal layer.
    - QuarantineState.v: the abstract transaction ([state], [step], the invariant [inv]) and when
      a file system is in an abstract state ([holds]).  QuarantineSteps.v, QuarantinePaths.v,
      QuarantineSettle.v, QuarantineClean.v, QuarantineReconcile.v prove that the code follows
      the machine; QuarantineTheorems.v, QuarantineOperations.v and QuarantineLife.v hold the
      theorems; QuarantineRuns.v and JournalRuns.v the witnesses and concrete runs.
    - ManagerController.v: manager_controller.py, [read_plan_artifact] of plan_artifact.py and
      [formal-run] of cli.py, over the same file system; what [launch_managed] hands to
      [supervise] is its result.  ManagerProofs.v holds its theorem, and SinkCustody.v follows the
      environment it makes to the host's sink.

    ** What is shown

    - Transaction model: every reachable state satisfies the invariants, the exploration is
      complete and exact, its distances are shortest, its printed result is the checked-in
      artifact, and the candidate is reached only through the whole protocol.
    - Reference model: Effective is reached only with every obligation covered by current
      evidence; nonces are never replayed; the log is a write-ahead log; commit is an atomic
      compare-and-swap.
    - Exposure gate: one invariant over everything stored, for every interleaving of calls,
      injected crashes and misbehaving traffic adapters; history is append-only; requests are
      admitted only where the durable log allows; [open] and [reconcile] have the promised
      postconditions; the oracle accepts the gate's admissions.
    - Coordinator: one invariant over the whole store and any calls, faults and restarts; state
      changes follow [TRANSITIONS]; commit requires fresh evidence for every obligation; a stale
      plan never commits; observe is all or nothing; rollback is accounted for; recovery leaves
      nothing in flight.
    - Contracts: what the parser accepts is well formed; the compiler fails only with planning
      errors, does not depend on the order of its input, binds every requirement to its only
      provider, computes the least topological order or reports a cycle exactly when there is
      one, settles resources without conflict and binds every obligation to a matching grant.
    - Plans and manifests: a plan artifact is accepted exactly when it is the text of a valid
      plan, whose identifier it carries; the semantic compilation keeps the base plan, adds one
      obligation for each semantic binding, and succeeds whenever its inputs agree; an accepted
      manifest is well formed, and refusals are manifest errors up to the exceptions recorded.
    - Providers: plans are refused exactly when two of them conflict, whatever their order; a
      plan that is accepted mutates nothing and claims what its manifest claims; a status claims
      no more than was observed, and "runtime effective" rests on live processes of one intact
      launch that observed every declared component.
    - Intent and launches: whatever commands ran, failed or were cut off, the saved intent can be
      read and its enabled extensions can be launched together; the dependency check accepts
      exactly the closed, acyclic selections with versions in range; a discovered bundle is the
      one asked for, its manifest valid and its entry points installed and packaged; a launch
      is composed only of cleared bundles, and its command line and environment say what every
      accepted plan set, which for the vLLM provider is what the manifest's components declare; a mod of StateAxis
      is launched only on evidence, and several of them in one host configuration keep their
      bindings.
    - Attestation: a verifier accepts exactly the canonical envelopes of well-formed, fresh
      statements signed by a key that is trusted for them, what is signed is accepted as it was
      signed, and a commit over that verifier rests on such signatures.
    - Catalog: an accepted feed obeys the admission policy entry by entry, and what is refused is
      refused with a [CatalogError].
    - Supervision: for every interleaving of signals, handlers and process events, [supervise]
      returns the code of the child or 128 and the first signal, the child waited for and the
      handlers restored; a launch is killed only for a reason; and it ends, under a scheduler
      that lets the program run, once a killed child is gone.
    - Journals: canonical JSON and base64 are read back as written; a record is published
      completely or not at all; moving a journal is all or nothing; an accepted host event is
      well formed, and an invocation receipt is bound to its plan, launch, process and bytes.
    - Quarantine: the operations and the reconciliation refine the abstract machine under any
      faults; after any number of crashes an undisturbed reconciliation settles everything; what
      is settled stays so; and whatever operations, reconciliations, writers and foreign files
      interleave, no journal loses a byte, a withheld one is fenced and a finalized one is never
      restored.
    - Managed launches: a launch happens exactly when its plan, evidence directory, environment
      and executable are what its arguments say, and its host writes evidence into that
      directory or nowhere.

    Some theorems record defects: a claim conflict that depends on the order of claims, a
    FAILED_SAFE state recorded without looking at the route, a recovered rollback that leaves the
    candidate's route stored, a rollback that wedges an opening gate, an oracle that rejects a legal rollback, two recoveries that can never commit, a
    journal that can be quarantined only once, a lock that leaks, errors of the wrong type, a
    signal delivered twice, a signal to a foreign process group, two kinds of journal line
    that stop every status, a manager-internal key that reaches the host, a launch flag that
    lands behind the separator and another that stays in force in a second spelling, and a mod's manifest that binds other mods.  Each runs the
    model on a concrete history.

    ** Conventions and bounds

    Integers are [Z], as Python's; no code modelled here relies on machine width.  Strings are
    sequences of code points below U+0100, JSON has no floats.  SQLite is modelled by its tables:
    an AUTOINCREMENT key is one more than the largest key ever used, constraints raise
    [IntegrityError], and a transaction that raises changes nothing.  Recursion that is not
    structural carries fuel: [explore_loop] (one unit per state, 39 are proved enough) and
    [order_loop] (one unit per contract, proved enough for any input), the JSON reader (proved
    enough), the write loop (one unit per byte) and the search for dependency cycles (one unit
    per selected bundle and one more, enough by [dependencies_iff]).  Times of the supervisor are milliseconds;
    a test of a child and the wait for it are one instruction.  Fault modes: [Healthy] scripts let every call
    succeed, perhaps after short writes; [Calm] ones also kill; [Wild] ones also fail.  A lock
    that is waited for for ever ends in a kill.  Writers and manager interleave by whole calls,
    as the lock they share makes them.

    ** Not modelled

    Opening and closing database connections and migrating old ones, argument parsing and
    printing; the cryptography of signatures and the canonicalisation library (parameters); the
    providers of Mooncake and the production stack, and of the command line the options that hand
    a semantic plan or a socket to [run]; the supervisor's branches for
    systems other than POSIX; the modules that observe hosts, snapshot processes and talk to
    sockets; the experiment drivers.  Losing the machine, as opposed to the process: a
    write that was acknowledged is there.  Floats, surrogates and characters from U+0100 on,
    and CPython's limits on the digits of an integer and on nesting. *)

From stdpp Require Export base tactics option list strings pretty gmap sorting.
From Stdlib Require Export Ascii String.
From Stdlib Require Export ZArith Lia.
From stdpp Require Export strings.

#[global] Set Default Goal Selector "!".

Declare Scope py_scope.
Delimit Scope py_scope with py.

Create HintDb py_db.

(** ** Booleans and decisions *)

(** Split boolean conjunctions and disjunctions, and turn the boolean tests the models use
    ([bool_decide], [Z.ltb], [String.eqb], ...) into propositions. *)
Ltac reflect_step :=
  match goal with
  | H : _ && _ = true |- _ => apply andb_true_iff in H; destruct H
  | H : _ || _ = false |- _ => apply orb_false_iff in H; destruct H
  | H : negb _ = true |- _ => apply negb_true_iff in H
  | H : negb _ = false |- _ => apply negb_false_iff in H
  | H : bool_decide _ = true |- _ => apply bool_decide_eq_true in H
  | H : bool_decide _ = false |- _ => apply bool_decide_eq_false in H
  | H : Is_true _ |- _ => apply Is_true_eq_true in H
  | H : (_ =? _)%Z = true |- _ => apply Z.eqb_eq in H
  | H : (_ =? _)%Z = false |- _ => apply Z.eqb_neq in H
  | H : (_ <? _)%Z = true |- _ => apply Z.ltb_lt in H
  | H : (_ <? _)%Z = false |- _ => apply Z.ltb_ge in H
  | H : (_ <=? _)%Z = true |- _ => apply Z.leb_le in H
  | H : (_ <=? _)%Z = false |- _ => apply Z.leb_gt in H
  | H : (_ =? _)%string = true |- _ => apply String.eqb_eq in H
  | H : (_ =? _)%string = false |- _ => apply String.eqb_neq in H
  end.

Ltac reflect := repeat reflect_step.

(** ** Strings: Python's code-point order *)

Abbreviation str_leb := String.leb.

(** An f-string hole holding an integer. *)
Definition z_str (z : Z) : string := pretty z.

Lemma z_str_inj x y : z_str x = z_str y → x = y.
Proof. apply (inj pretty). Qed.

Lemma str_app_cons x a b : String x a +:+ b = String x (a +:+ b).
Proof. done. Qed.

Lemma str_app_assoc a b c : a +:+ (b +:+ c) = (a +:+ b) +:+ c.
Proof. induction a as [|x a IH]; [done|]. by rewrite !str_app_cons, IH. Qed.

Lemma str_app_nil_r a : a +:+ "" = a.
Proof. induction a as [|x a IH]; [done|]. by rewrite str_app_cons, IH. Qed.

Lemma str_length_app a b :
  String.length (a +:+ b) = (String.length a + String.length b)%nat.
Proof. induction a as [|x a IH]; [done|]. rewrite str_app_cons. simpl. by rewrite IH. Qed.

Lemma str_app_inv_l a b c : a +:+ b = a +:+ c → b = c.
Proof. induction a as [|x a IH]; [done|]. rewrite !str_app_cons. intros [= H]. auto. Qed.

Lemma string_compare_refl s : String.compare s s = Eq.
Proof.
  destruct (String.compare s s) eqn:E; [done| |];
    pose proof (String.compare_antisym s s) as A; rewrite E in A; done.
Qed.

Lemma str_leb_refl s : str_leb s s = true.
Proof. unfold String.leb. by rewrite string_compare_refl. Qed.

Lemma ascii_compare_lt a b :
  Ascii.compare a b = Lt ↔ (Ascii.N_of_ascii a < Ascii.N_of_ascii b)%N.
Proof. unfold Ascii.compare. apply N.compare_lt_iff. Qed.

Lemma ascii_compare_eq a b : Ascii.compare a b = Eq ↔ a = b.
Proof.
  split; [apply Ascii.compare_eq_iff|]. intros ->. unfold Ascii.compare. apply N.compare_refl.
Qed.

Lemma string_compare_lt_trans a b c :
  String.compare a b = Lt → String.compare b c = Lt → String.compare a c = Lt.
Proof.
  revert b c. induction a as [|x a IH]; intros [|y b] [|z c]; simpl; try done.
  destruct (Ascii.compare x y) eqn:Exy; try done;
    destruct (Ascii.compare y z) eqn:Eyz; try done; intros H1 H2.
  - apply ascii_compare_eq in Exy, Eyz. subst.
    rewrite (proj2 (ascii_compare_eq z z)) by done. eauto.
  - apply ascii_compare_eq in Exy. subst. by rewrite Eyz.
  - apply ascii_compare_eq in Eyz. subst. by rewrite Exy.
  - apply ascii_compare_lt in Exy, Eyz.
    rewrite (proj2 (ascii_compare_lt x z)); [done|]. by eapply N.lt_trans.
Qed.

Lemma str_leb_trans a b c : str_leb a b = true → str_leb b c = true → str_leb a c = true.
Proof.
  unfold String.leb.
  destruct (String.compare a b) eqn:E1; try done;
    destruct (String.compare b c) eqn:E2; try done; intros _ _.
  - apply String.compare_eq_iff in E1, E2. subst. by rewrite string_compare_refl.
  - apply String.compare_eq_iff in E1. subst. by rewrite E2.
  - apply String.compare_eq_iff in E2. subst. by rewrite E1.
  - by rewrite (string_compare_lt_trans a b c).
Qed.

(** ["['a', 'b']"], Python's [repr] of a list of plain names. *)
Definition list_repr (l : list string) : string :=
  "[" +:+ String.concat ", " ((λ s, "'" +:+ s +:+ "'") <$> l) +:+ "]".

(** Lexicographic order on tuples of strings, Python's tuple comparison. *)
Fixpoint strs_leb (xs ys : list string) : bool :=
  match xs, ys with
  | [], _ => true
  | _ :: _, [] => false
  | x :: xs', y :: ys' =>
      if (x =? y)%string then strs_leb xs' ys' else str_leb x y
  end.

Lemma strs_leb_refl xs : strs_leb xs xs = true.
Proof. induction xs as [|x xs IH]; simpl; [done|]. by rewrite String.eqb_refl. Qed.

Lemma strs_leb_total xs ys : strs_leb xs ys = true ∨ strs_leb ys xs = true.
Proof.
  revert ys. induction xs as [|x xs IH]; intros [|y ys]; simpl; auto.
  rewrite (String.eqb_sym y x). destruct (String.eqb x y) eqn:E; [apply IH|].
  apply String.leb_total.
Qed.

Lemma strs_leb_antisym xs ys :
  strs_leb xs ys = true → strs_leb ys xs = true → xs = ys.
Proof.
  revert ys. induction xs as [|x xs IH]; intros [|y ys]; simpl; try done.
  rewrite (String.eqb_sym y x). destruct (String.eqb x y) eqn:E; reflect.
  - subst. intros. f_equal. by apply IH.
  - intros H1 H2. destruct E. by apply String.leb_antisym.
Qed.

Lemma strs_leb_trans xs ys zs :
  strs_leb xs ys = true → strs_leb ys zs = true → strs_leb xs zs = true.
Proof.
  revert ys zs. induction xs as [|x xs IH]; intros [|y ys] [|z zs]; simpl; try done.
  destruct (String.eqb x y) eqn:E1; destruct (String.eqb y z) eqn:E2; reflect; subst.
  - rewrite String.eqb_refl. apply IH.
  - by rewrite (proj2 (String.eqb_neq y z)).
  - by rewrite (proj2 (String.eqb_neq x z)).
  - intros H1 H2. destruct (String.eqb x z) eqn:E3; reflect.
    + subst. destruct E1. by apply String.leb_antisym.
    + by eapply str_leb_trans.
Qed.

(** ** Sorting: Python's [sorted(..., key=...)], a stable sort by key *)

Section SortBy.
Context {A K : Type} (key : A → K) (leb : K → K → bool).

Fixpoint insert_by (x : A) (l : list A) : list A :=
  match l with
  | [] => [x]
  | y :: l' => if leb (key x) (key y) then x :: l else y :: insert_by x l'
  end.

Definition sort_by (l : list A) : list A := foldr insert_by [] l.

Definition key_le (x y : A) : Prop := leb (key x) (key y) = true.

Lemma insert_by_perm x l : insert_by x l ≡ₚ x :: l.
Proof.
  induction l as [|y l IH]; simpl; [done|]. destruct (leb _ _); [done|].
  rewrite IH. apply Permutation_swap.
Qed.

Lemma sort_by_perm l : sort_by l ≡ₚ l.
Proof. induction l as [|x l IH]; simpl; [done|]. by rewrite insert_by_perm, IH. Qed.

Lemma elem_of_sort_by x l : x ∈ sort_by l ↔ x ∈ l.
Proof. by rewrite sort_by_perm. Qed.

Context (Htot : ∀ a b, leb a b = true ∨ leb b a = true).
Context (Htrans : ∀ a b c, leb a b = true → leb b c = true → leb a c = true).

Lemma insert_by_sorted x l :
  StronglySorted key_le l → StronglySorted key_le (insert_by x l).
Proof.
  induction 1 as [|y l Hl IH Hy]; simpl; [by repeat constructor|].
  destruct (leb (key x) (key y)) eqn:E.
  - constructor; [by constructor|]. constructor; [done|].
    eapply Forall_impl; [done|]. intros z Hz. by eapply Htrans.
  - constructor; [done|]. rewrite insert_by_perm. constructor; [|done].
    destruct (Htot (key x) (key y)); [congruence|done].
Qed.

Lemma sort_by_sorted l : StronglySorted key_le (sort_by l).
Proof. induction l as [|x l IH]; simpl; [constructor|]. by apply insert_by_sorted. Qed.

Context (Hanti : ∀ a b, leb a b = true → leb b a = true → a = b).

(** Sorting by a key that identifies the elements forgets the input order. *)
Lemma sort_by_unique l1 l2 :
  (∀ x y, x ∈ l1 → y ∈ l1 → key x = key y → x = y) →
  l1 ≡ₚ l2 → sort_by l1 = sort_by l2.
Proof.
  intros Hinj Hp. apply (StronglySorted_unique_strong key_le).
  - intros x y Hx Hy Hxy Hyx. rewrite elem_of_sort_by in Hx, Hy. rewrite <-Hp in Hy.
    apply Hinj; [done..|]. by apply Hanti.
  - apply sort_by_sorted.
  - apply sort_by_sorted.
  - by rewrite !sort_by_perm.
Qed.

Lemma sort_by_id l : StronglySorted key_le l → sort_by l = l.
Proof.
  induction 1 as [|y l Hl IH Hy]; simpl; [done|]. rewrite IH.
  destruct l as [|z l]; simpl; [done|]. inversion Hy as [|? ? Hz]. subst.
  unfold key_le in Hz. by rewrite Hz.
Qed.
End SortBy.

Lemma key_inj_of_nodup {A K} (key : A → K) (l : list A) :
  NoDup (key <$> l) → ∀ x y, x ∈ l → y ∈ l → key x = key y → x = y.
Proof.
  induction l as [|z l IH]; intros Hnd x y Hx Hy Heq; [by apply elem_of_nil in Hx|].
  rewrite fmap_cons in Hnd. apply NoDup_cons in Hnd as [Hz Hnd].
  apply elem_of_cons in Hx as [->|Hx]; apply elem_of_cons in Hy as [->|Hy]; [done| | |eauto].
  - destruct Hz. rewrite Heq. by apply list_elem_of_fmap_2.
  - destruct Hz. rewrite <-Heq. by apply list_elem_of_fmap_2.
Qed.

#[export] Hint Resolve String.leb_total str_leb_trans String.leb_antisym
  strs_leb_total strs_leb_trans strs_leb_antisym : py_db.

(** [len(xs) != len(set(xs))]: the duplicate test of the parsers. *)
Definition has_dups {A} `{EqDecision A} (l : list A) : bool := negb (bool_decide (NoDup l)).

Lemma has_dups_false {A} `{EqDecision A} (l : list A) : has_dups l = false ↔ NoDup l.
Proof. unfold has_dups. by rewrite negb_false_iff, bool_decide_eq_true. Qed.

(** The last element satisfying a test: [ORDER BY seq DESC LIMIT 1]. *)
Definition find_last {A} (f : A → bool) (l : list A) : option A := find f (rev l).

Lemma find_last_Some {A} (f : A → bool) (l : list A) x :
  find_last f l = Some x → x ∈ l ∧ f x = true.
Proof.
  unfold find_last. intros H. apply find_some in H as [H1 H2].
  split; [|done]. apply in_rev in H1. by apply list_elem_of_In.
Qed.
