(* ===== verification/Effects.v ===== *)
(** * Effects: Python exceptions and stateful code

    The exception classes the modelled code raises, the [result] of a pure function that may
    raise, and the monad [M W] of code that mutates a world [W] and may raise.  As in Python a
    raised exception keeps the mutations made before it; only a database transaction
    ([with connection as db:]) undoes its own writes.  [wp] is the weakest-precondition
    transformer the components' proofs are written with. *)

From S2P Require Import Prelude.

(** ** Exceptions *)

(** The codes of [ContractError] (ecpa_model.py). *)
Variant ErrorCode :=
  | UNKNOWN_RESOURCE | AMBIGUOUS_RESOURCE | RESOURCE_CONFLICT | INCOMPATIBLE_HOST
  | MISSING_PROCESS_EVIDENCE | STALE_EVIDENCE | REPLAYED_NONCE | CAS_MISMATCH
  | EXTERNAL_LEASE_INVALID | AUTHORITY_VIOLATION | INVALID_TRANSITION | ROLLBACK_FAILED.

Definition ErrorCode_value (c : ErrorCode) : string :=
  match c with
  | UNKNOWN_RESOURCE => "UNKNOWN_RESOURCE"
  | AMBIGUOUS_RESOURCE => "AMBIGUOUS_RESOURCE"
  | RESOURCE_CONFLICT => "RESOURCE_CONFLICT"
  | INCOMPATIBLE_HOST => "INCOMPATIBLE_HOST"
  | MISSING_PROCESS_EVIDENCE => "MISSING_PROCESS_EVIDENCE"
  | STALE_EVIDENCE => "STALE_EVIDENCE"
  | REPLAYED_NONCE => "REPLAYED_NONCE"
  | CAS_MISMATCH => "CAS_MISMATCH"
  | EXTERNAL_LEASE_INVALID => "EXTERNAL_LEASE_INVALID"
  | AUTHORITY_VIOLATION => "AUTHORITY_VIOLATION"
  | INVALID_TRANSITION => "INVALID_TRANSITION"
  | ROLLBACK_FAILED => "ROLLBACK_FAILED"
  end.

(** The codes of [ContractPlanningError] (contract_compiler.py). *)
Module PlanningErrorCode.
Variant t :=
  | INVALID_CONTRACT | DUPLICATE_PLUGIN | INCOMPATIBLE_HOST | MISSING_CAPABILITY
  | INCOMPATIBLE_CAPABILITY | AMBIGUOUS_CAPABILITY | DEPENDENCY_CYCLE | RESOURCE_CONFLICT
  | AUTHORITY_VIOLATION | UNKNOWN_RESOURCE | INVALID_RESOURCE_MODE.

Definition value (c : t) : string :=
  match c with
  | INVALID_CONTRACT => "INVALID_CONTRACT"
  | DUPLICATE_PLUGIN => "DUPLICATE_PLUGIN"
  | INCOMPATIBLE_HOST => "INCOMPATIBLE_HOST"
  | MISSING_CAPABILITY => "MISSING_CAPABILITY"
  | INCOMPATIBLE_CAPABILITY => "INCOMPATIBLE_CAPABILITY"
  | AMBIGUOUS_CAPABILITY => "AMBIGUOUS_CAPABILITY"
  | DEPENDENCY_CYCLE => "DEPENDENCY_CYCLE"
  | RESOURCE_CONFLICT => "RESOURCE_CONFLICT"
  | AUTHORITY_VIOLATION => "AUTHORITY_VIOLATION"
  | UNKNOWN_RESOURCE => "UNKNOWN_RESOURCE"
  | INVALID_RESOURCE_MODE => "INVALID_RESOURCE_MODE"
  end.
End PlanningErrorCode.

#[global] Instance ErrorCode_eq_dec : EqDecision ErrorCode.
Proof. solve_decision. Defined.

#[global] Instance PlanningErrorCode_eq_dec : EqDecision PlanningErrorCode.t.
Proof. solve_decision. Defined.

Inductive exn :=
  | ContractError (code : ErrorCode) (detail : string)
  | ContractPlanningError (code : PlanningErrorCode.t) (detail : string)
  | GateError (msg : string)
  | InjectedCrash (point : string)
  | RejectedTransition (msg : string)
  | RuntimeError (msg : string)
  | ValueError (msg : string)
  | TypeError (msg : string)
  | KeyError (key : string)
  | IndexError (msg : string)
  | AttributeError (msg : string)
  | AssertionError
  | IntegrityError (msg : string)
  | HostEventSinkError (msg : string)
  | QuarantineTransactionError (msg : string)
  | FileNotFoundError (msg : string)
  | FileExistsError (msg : string)
  | OSError (msg : string)
  | AttestationError (code detail : string)
  | CatalogError (msg : string)
  | ManifestError (msg : string)
  | PlanArtifactError (msg : string)
  | DiscoveryError (msg : string)
  | Killed.

#[global] Instance exn_eq_dec : EqDecision exn.
Proof. solve_decision. Defined.

(** [except OSError]: the class and its subclasses. *)
Definition is_oserror (e : exn) : bool :=
  match e with FileNotFoundError _ | FileExistsError _ | OSError _ => true | _ => false end.

(** [str(exc)]. *)
Definition exn_str (e : exn) : string :=
  match e with
  | ContractError c d => ErrorCode_value c +:+ ": " +:+ d
  | ContractPlanningError c d => PlanningErrorCode.value c +:+ ": " +:+ d
  | GateError m | InjectedCrash m | RejectedTransition m | RuntimeError m
  | ValueError m | TypeError m | AttributeError m | IndexError m | IntegrityError m
  | HostEventSinkError m | QuarantineTransactionError m | FileNotFoundError m
  | FileExistsError m | OSError m | CatalogError m | ManifestError m | PlanArtifactError m
  | DiscoveryError m => m
  | AttestationError c d => c +:+ ": " +:+ d
  | KeyError k => "'" +:+ k +:+ "'"
  | AssertionError | Killed => ""
  end.

(** ** Pure code that may raise *)

Inductive result (A : Type) := Ok (a : A) | Err (e : exn).
Arguments Ok {A} a.
Arguments Err {A} e.

#[global] Instance result_ret : MRet result := @Ok.
#[global] Instance result_bind : MBind result := λ A B f r,
  match r with Ok a => f a | Err e => Err e end.

#[global] Instance result_eq_dec {A} `{EqDecision A} : EqDecision (result A).
Proof. solve_decision. Defined.

Lemma result_bind_ok {A B} (f : A → result B) (r : result A) b :
  r ≫= f = Ok b ↔ ∃ a, r = Ok a ∧ f a = Ok b.
Proof. destruct r as [a|e]; simpl; split; intros H; [by eexists|by destruct H as (? & [= ->] & ?)|done|by destruct H as (? & ? & ?)]. Qed.

(** A guard: [if not b: raise e]. *)
Definition check (b : bool) (e : exn) : result unit := if b then Ok tt else Err e.

Lemma check_ok b e : check b e = Ok tt ↔ b = true.
Proof. destruct b; naive_solver. Qed.

Lemma check_bind {A} b e (k : unit → result A) a :
  check b e ≫= k = Ok a ↔ b = true ∧ k tt = Ok a.
Proof. destruct b; simpl; split; [done|by intros []|done|by intros []]. Qed.

(** [for x in xs: ...] collecting one result per element, stopping at the first exception. *)
Fixpoint map_result {A B} (f : A → result B) (l : list A) : result (list B) :=
  match l with
  | [] => Ok []
  | x :: l' => y ← f x; ys ← map_result f l'; Ok (y :: ys)
  end.

Lemma map_result_ok {A B} (f : A → result B) l ys :
  map_result f l = Ok ys ↔ Forall2 (λ x y, f x = Ok y) l ys.
Proof.
  revert ys. induction l as [|x l IH]; intros ys; simpl.
  { split; [intros [= <-]; constructor|]. by inversion 1. }
  split.
  - intros (y & Hy & (ys' & Hys & [= <-])%result_bind_ok)%result_bind_ok.
    constructor; [done|]. by apply IH.
  - inversion 1 as [|? y ? ys' Hy Hys]; subst. rewrite Hy. simpl.
    apply IH in Hys. by rewrite Hys.
Qed.

(** Same with the element's index, for [enumerate]. *)
Definition map_result_i {A B} (f : nat → A → result B) (l : list A) : result (list B) :=
  map_result (λ '(i, x), f i x) (imap pair l).

Lemma map_result_i_ok {A B} (f : nat → A → result B) l ys :
  map_result_i f l = Ok ys ↔
  length ys = length l ∧ ∀ i x y, l !! i = Some x → ys !! i = Some y → f i x = Ok y.
Proof.
  unfold map_result_i. rewrite map_result_ok, Forall2_lookup. split.
  - intros H. split.
    + apply Nat.le_antisymm; apply Nat.le_ngt; intros Hlt.
      * apply lookup_lt_is_Some in Hlt as [y Hy]. specialize (H (length l)).
        rewrite list_lookup_imap, Hy, (lookup_ge_None_2 l) in H by done. inversion H.
      * apply lookup_lt_is_Some in Hlt as [x Hx]. specialize (H (length ys)).
        rewrite list_lookup_imap, Hx, (lookup_ge_None_2 ys) in H by done. inversion H.
    + intros i x y Hx Hy. specialize (H i). rewrite list_lookup_imap, Hx, Hy in H.
      by inversion H.
  - intros [Hlen H] i. rewrite list_lookup_imap.
    destruct (l !! i) as [x|] eqn:Hx; simpl.
    + destruct (ys !! i) as [y|] eqn:Hy.
      * constructor. by apply H.
      * apply lookup_ge_None in Hy. apply lookup_lt_Some in Hx. lia.
    + apply lookup_ge_None in Hx. rewrite lookup_ge_None_2 by lia. constructor.
Qed.

Lemma map_result_i_Forall {A B} (f : nat → A → result B) (P : B → Prop) l ys :
  (∀ i x y, f i x = Ok y → P y) → map_result_i f l = Ok ys → Forall P ys.
Proof.
  intros Hf [Hlen Hm]%map_result_i_ok. apply Forall_lookup. intros i y Hy.
  destruct (lookup_lt_is_Some_2 l i) as [x Hx]; [rewrite <-Hlen; by eapply lookup_lt_Some|].
  by eapply Hf, Hm.
Qed.

(** [raises P r]: whatever [r] raises satisfies [P]. *)
Definition raises {A} (P : exn → Prop) (r : result A) : Prop :=
  match r with Ok _ => True | Err e => P e end.

Section Raises.
Context (P : exn → Prop).

Lemma raises_bind {A B} (r : result A) (f : A → result B) :
  raises P r → (∀ a, r = Ok a → raises P (f a)) → raises P (r ≫= f).
Proof. destruct r as [a|e]; simpl; auto. Qed.

Lemma raises_check b e : (b = false → P e) → raises P (check b e).
Proof. destruct b; simpl; auto. Qed.

Lemma raises_map_result {A B} (f : A → result B) l :
  (∀ x, x ∈ l → raises P (f x)) → raises P (map_result f l).
Proof.
  induction l as [|x l IH]; intros H; [done|]. cbn [map_result].
  apply raises_bind; [apply H; constructor|]. intros y _.
  apply raises_bind; [|done]. apply IH. intros z Hz. apply H. by constructor.
Qed.

Lemma raises_map_result_i {A B} (f : nat → A → result B) l :
  (∀ i x, x ∈ l → raises P (f i x)) → raises P (map_result_i f l).
Proof.
  intros H. apply raises_map_result. intros [i x] Hx. apply H.
  apply elem_of_lookup_imap in Hx as (j & y & [= -> ->] & Hy). by eapply list_elem_of_lookup_2.
Qed.
End Raises.

(** ** Stateful code *)

Definition M (W A : Type) : Type := W → result A * W.

#[global] Instance M_ret W : MRet (M W) := λ A a w, (Ok a, w).
#[global] Instance M_bind W : MBind (M W) := λ A B f m w,
  match m w with
  | (Ok a, w') => f a w'
  | (Err e, w') => (Err e, w')
  end.

Section Operations.
Context {W : Type}.

Definition raise {A} (e : exn) : M W A := λ w, (Err e, w).
Definition gets {A} (f : W → A) : M W A := λ w, (Ok (f w), w).
Definition modify (f : W → W) : M W unit := λ w, (Ok tt, f w).
Definition lift_result {A} (r : result A) : M W A := λ w, (r, w).

(** [try: m except Exception as exc: h exc]. *)
Definition catch {A} (m : M W A) (h : exn → M W A) : M W A := λ w,
  match m w with
  | (Ok a, w') => (Ok a, w')
  | (Err e, w') => h e w'
  end.

(** [try: m except Exception as exc: h exc else: k]; an exception of [k] is not caught. *)
Definition try_else {A B} (m : M W A) (h : exn → M W B) (k : A → M W B) : M W B := λ w,
  match m w with
  | (Ok a, w') => k a w'
  | (Err e, w') => h e w'
  end.

(** [with suppress(Exception): m]. *)
Definition suppress {A} (m : M W A) : M W unit := try_else m (λ _, mret tt) (λ _, mret tt).

(** [if b: raise e]. *)
Definition raise_if (b : bool) (e : exn) : M W unit := if b then raise e else mret tt.

(** [if b: m]. *)
Definition when (b : bool) (m : M W unit) : M W unit := if b then m else mret tt.
End Operations.

(** A part [V] of a world [W]. *)
Class Lens (W V : Type) := {
  lget : W → V;
  lset : V → W → W;
}.

Class LensLaws (W V : Type) `{!Lens W V} : Prop := {
  lget_lset v w : lget (lset v w) = v;
  lset_lget w : lset (lget w) w = w;
  lset_lset u v w : lset u (lset v w) = lset u w;
}.

(** Run code of a part inside the whole. *)
Definition zoom {W V A} `{!Lens W V} (m : M V A) : M W A := λ w,
  let '(r, v') := m (lget w) in (r, lset v' w).

(** [with connection as db: m]: commit on success, roll the database back on an exception. *)
Definition transaction {W} (D : Type) `{!Lens W D} {A} (m : M W A) : M W A := λ w,
  match m w with
  | (Ok a, w') => (Ok a, w')
  | (Err e, w') => (Err e, lset (lget w : D) w')
  end.

(** ** Weakest preconditions *)

Definition wp {W A} (m : M W A) (Q : A → W → Prop) (R : exn → W → Prop) (w : W) : Prop :=
  match m w with
  | (Ok a, w') => Q a w'
  | (Err e, w') => R e w'
  end.

Section WP.
Context {W : Type}.
Implicit Types w : W.

Lemma wp_mono {A} (m : M W A) (Q Q' : A → W → Prop) (R R' : exn → W → Prop) w :
  wp m Q R w → (∀ a w', Q a w' → Q' a w') → (∀ e w', R e w' → R' e w') → wp m Q' R' w.
Proof. unfold wp. destruct (m w) as [[a|e] w']; auto. Qed.

Lemma wp_ret {A} (a : A) (Q : A → W → Prop) R w : Q a w → wp (mret a) Q R w.
Proof. done. Qed.

Lemma wp_bind {A B} (m : M W A) (f : A → M W B) Q R w :
  wp m (λ a w', wp (f a) Q R w') R w → wp (m ≫= f) Q R w.
Proof. unfold wp, mbind, M_bind. by destruct (m w) as [[a|e] w']. Qed.

Lemma wp_raise {A} e (Q : A → W → Prop) R w : R e w → wp (raise e) Q R w.
Proof. done. Qed.

Lemma wp_gets {A} (f : W → A) Q R w : Q (f w) w → wp (gets f) Q R w.
Proof. done. Qed.

Lemma wp_modify f Q R w : Q tt (f w) → wp (modify f) Q R w.
Proof. done. Qed.

Lemma wp_lift_result {A} (r : result A) (Q : A → W → Prop) R w :
  (∀ a, r = Ok a → Q a w) → (∀ e, r = Err e → R e w) → wp (lift_result r) Q R w.
Proof. unfold wp, lift_result. destruct r; auto. Qed.

Lemma wp_catch {A} (m : M W A) h Q R w :
  wp m Q (λ e w', wp (h e) Q R w') w → wp (catch m h) Q R w.
Proof. unfold wp, catch. by destruct (m w) as [[a|e] w']. Qed.

Lemma wp_try_else {A B} (m : M W A) (h : exn → M W B) k Q R w :
  wp m (λ a w', wp (k a) Q R w') (λ e w', wp (h e) Q R w') w → wp (try_else m h k) Q R w.
Proof. unfold wp, try_else. by destruct (m w) as [[a|e] w']. Qed.

Lemma wp_suppress {A} (m : M W A) Q R w :
  wp m (λ _, Q tt) (λ _, Q tt) w → wp (suppress m) Q R w.
Proof. unfold wp, suppress, try_else. by destruct (m w) as [[a|e] w']. Qed.

Lemma wp_raise_if b e (Q : unit → W → Prop) R w :
  (b = true → R e w) → (b = false → Q tt w) → wp (raise_if b e) Q R w.
Proof. unfold wp, raise_if. destruct b; intros H1 H2; simpl; auto. Qed.

Lemma wp_when b m (Q : unit → W → Prop) R w :
  (b = true → wp m Q R w) → (b = false → Q tt w) → wp (when b m) Q R w.
Proof. unfold when. destruct b; intros H1 H2; [auto|]. apply wp_ret. auto. Qed.

Lemma wp_zoom {V A} `{!Lens W V} (m : M V A) Q R w :
  wp m (λ a v, Q a (lset v w)) (λ e v, R e (lset v w)) (lget w) → wp (zoom m) Q R w.
Proof. unfold wp, zoom. by destruct (m (lget w)) as [[a|e] v]. Qed.

(** A transaction either commits what its body did, or leaves the database as it was. *)
Lemma wp_transaction (D : Type) `{!Lens W D} {A} (m : M W A) Q R w :
  wp m Q (λ e w', R e (lset (lget w : D) w')) w → wp (transaction D m) Q R w.
Proof. unfold wp, transaction. by destruct (m w) as [[a|e] w']. Qed.

(** A run that returned, read off a [wp]. *)
Lemma wp_run_ok {A} (m : M W A) Q R w a w' : wp m Q R w → m w = (Ok a, w') → Q a w'.
Proof. unfold wp. by intros H E; rewrite E in H. Qed.

Lemma wp_run_err {A} (m : M W A) Q R w e w' : wp m Q R w → m w = (Err e, w') → R e w'.
Proof. unfold wp. by intros H E; rewrite E in H. Qed.

Lemma wp_run_any {A} (m : M W A) (P : W → Prop) w :
  wp m (λ _, P) (λ _, P) w → P (m w).2.
Proof. unfold wp. by destruct (m w) as [[a|e] w']. Qed.
End WP.

(** One step of symbolic execution of the effectful code in the goal. *)
Ltac wp_step :=
  match goal with
  | |- wp (mret _) _ _ _ => apply wp_ret
  | |- wp (_ ≫= _) _ _ _ => apply wp_bind
  | |- wp (raise _) _ _ _ => apply wp_raise
  | |- wp (gets _) _ _ _ => apply wp_gets
  | |- wp (modify _) _ _ _ => apply wp_modify
  | |- wp (lift_result _) _ _ _ => apply wp_lift_result; intros ? ?
  | |- wp (catch _ _) _ _ _ => apply wp_catch
  | |- wp (try_else _ _ _) _ _ _ => apply wp_try_else
  | |- wp (suppress _) _ _ _ => apply wp_suppress
  | |- wp (raise_if _ _) _ _ _ => apply wp_raise_if; intros ?
  | |- wp (when _ _) _ _ _ => apply wp_when; intros ?
  | |- wp (zoom _) _ _ _ => apply wp_zoom
  | |- wp (transaction _ _) _ _ _ => apply wp_transaction
  end.

Ltac wp_steps := repeat (wp_step; cbn beta).
