(* ===== verification/Json.v ===== *)
(** * Json: the JSON values the program stores and hashes

    Python values that reach [json.dumps]: [None], [bool], [int], [str], [list]/[tuple] and
    [dict] with string keys, in insertion order.  Floats are not modelled: no field of the
    modelled code holds one.  A [str] is a sequence of code points U+0000..U+00FF.
    [canonical_bytes] is the printer of ecpa_model.py ([sort_keys], no blanks, UTF-8) and
    [ascii_dumps] the printer of exposure_gate.py ([ensure_ascii]). *)

From S2P Require Import Prelude Effects.

Inductive json :=
  | JNull
  | JBool (b : bool)
  | JInt (z : Z)
  | JStr (s : string)
  | JArr (l : list json)
  | JObj (kvs : list (string * json)).

Section json_ind.
Context (P : json → Prop).
Context (Hnull : P JNull) (Hbool : ∀ b, P (JBool b)) (Hint : ∀ z, P (JInt z))
  (Hstr : ∀ s, P (JStr s)) (Harr : ∀ l, Forall P l → P (JArr l))
  (Hobj : ∀ kvs, Forall (λ kv, P kv.2) kvs → P (JObj kvs)).

Fixpoint json_ind' (j : json) : P j :=
  match j with
  | JNull => Hnull
  | JBool b => Hbool b
  | JInt z => Hint z
  | JStr s => Hstr s
  | JArr l => Harr l ((fix go l := match l return Forall P l with
      | [] => Forall_nil_2 _
      | x :: l' => Forall_cons_2 _ _ _ (json_ind' x) (go l')
      end) l)
  | JObj kvs => Hobj kvs ((fix go l := match l return Forall (λ kv, P kv.2) l with
      | [] => Forall_nil_2 _
      | x :: l' => Forall_cons_2 _ _ _ (json_ind' x.2) (go l')
      end) kvs)
  end.
End json_ind.

(** Structural equality, deciding [=]. *)
Fixpoint json_eqb (x y : json) {struct x} : bool :=
  match x, y with
  | JNull, JNull => true
  | JBool b, JBool c => Bool.eqb b c
  | JInt b, JInt c => (b =? c)%Z
  | JStr b, JStr c => (b =? c)%string
  | JArr l, JArr k =>
      (fix arr l k := match l, k with
       | [], [] => true
       | a :: l', b :: k' => json_eqb a b && arr l' k'
       | _, _ => false
       end) l k
  | JObj l, JObj k =>
      (fix obj l k := match l, k with
       | [], [] => true
       | (s, a) :: l', (t, b) :: k' => (s =? t)%string && json_eqb a b && obj l' k'
       | _, _ => false
       end) l k
  | _, _ => false
  end.

Lemma json_eqb_eq x y : json_eqb x y = true ↔ x = y.
Proof.
  revert y. induction x as [|b|z|s|l IH|kvs IH] using json_ind'; intros [|c|z'|t|k|k];
    simpl; try (split; congruence).
  - rewrite Bool.eqb_true_iff. split; congruence.
  - rewrite Z.eqb_eq. split; congruence.
  - rewrite String.eqb_eq. split; congruence.
  - revert k. induction IH as [|a l Ha Hl IHl]; intros [|b k]; simpl; try (split; congruence).
    rewrite andb_true_iff, Ha, IHl. split; [by intros [-> [= ->]]|by intros [= -> ->]].
  - revert k. induction IH as [|[u a] l Ha Hl IHl]; intros [|[t b] k]; simpl;
      try (split; congruence).
    rewrite !andb_true_iff, Ha, IHl, String.eqb_eq. simpl.
    split; [by intros [[-> ->] [= ->]]|by intros [= -> -> ->]].
Qed.

#[global] Instance json_eq_dec : EqDecision json.
Proof.
  refine (λ x y, cast_if (decide (json_eqb x y = true))); by rewrite <-json_eqb_eq.
Defined.

(** ** Dictionaries *)

(** [d.get(key)], as an option. *)
Fixpoint assoc {A} (k : string) (kvs : list (string * A)) : option A :=
  match kvs with
  | [] => None
  | (k', v) :: kvs' => if (k' =? k)%string then Some v else assoc k kvs'
  end.

Definition keys {A} (kvs : list (string * A)) : list string := kvs.*1.

(** [d[key] = v]: a new key goes last, an old one keeps its place. *)
Fixpoint dict_set {A} (k : string) (v : A) (kvs : list (string * A)) : list (string * A) :=
  match kvs with
  | [] => [(k, v)]
  | (k', v') :: kvs' =>
      if (k' =? k)%string then (k', v) :: kvs' else (k', v') :: dict_set k v kvs'
  end.

(** [d[key]]. *)
Definition getitem (k : string) (j : json) : result json :=
  match j with
  | JObj kvs => match assoc k kvs with Some v => Ok v | None => Err (KeyError k) end
  | _ => Err (TypeError "indices must be integers or slices, not str")
  end.

(** [set(d) == fields], both without duplicates. *)
Definition same_keys (fields : list string) {A} (kvs : list (string * A)) : bool :=
  bool_decide (length (keys kvs) = length fields)
  && forallb (λ k, bool_decide (k ∈ keys kvs)) fields
  && forallb (λ k, bool_decide (k ∈ fields)) (keys kvs).

(** The whitespace [int] strips, on code points below U+0100. *)
Definition is_space (c : Ascii.ascii) : bool :=
  let n := Ascii.N_of_ascii c in
  (9 <=? n)%N && (n <=? 13)%N || (28 <=? n)%N && (n <=? 32)%N || (n =? 133)%N || (n =? 160)%N.

Fixpoint lstrip (l : list Ascii.ascii) : list Ascii.ascii :=
  match l with
  | c :: l' => if is_space c then lstrip l' else l
  | [] => []
  end.

Definition strip (l : list Ascii.ascii) : list Ascii.ascii := rev (lstrip (rev (lstrip l))).

(** Digits with single underscores between them; [last] tells that the previous character was
    a digit. *)
Fixpoint digits (acc : Z) (last : bool) (l : list Ascii.ascii) : option Z :=
  match l with
  | [] => if last then Some acc else None
  | c :: l' =>
      let n := Ascii.N_of_ascii c in
      if (48 <=? n)%N && (n <=? 57)%N then digits (10 * acc + Z.of_N (n - 48)) true l'
      else if (n =? 95)%N && last then digits acc false l'
      else None
  end.

(** [int(s)] of a string in base 10. *)
Definition int_of_string (s : string) : option Z :=
  match strip (String.list_ascii_of_string s) with
  | "+"%char :: l => digits 0 false l
  | "-"%char :: l => Z.opp <$> digits 0 false l
  | l => digits 0 false l
  end.

(** [int(value)]. *)
Definition py_int (j : json) : result Z :=
  match j with
  | JInt z => Ok z
  | JBool b => Ok (Z.b2z b)
  | JStr s =>
      match int_of_string s with
      | Some z => Ok z
      | None => Err (ValueError "invalid literal for int() with base 10")
      end
  | _ => Err (TypeError "int() argument must be a string, a bytes-like object or a real number")
  end.

(** Python's [==] on JSON values: [True == 1], and dictionaries ignore the key order. *)
Fixpoint py_eqb (x y : json) {struct x} : bool :=
  match x, y with
  | JNull, JNull => true
  | JBool b, JBool c => Bool.eqb b c
  | JBool b, JInt z | JInt z, JBool b => (z =? Z.b2z b)%Z
  | JInt a, JInt b => (a =? b)%Z
  | JStr a, JStr b => (a =? b)%string
  | JArr l, JArr k =>
      (fix arr l k := match l, k with
       | [], [] => true
       | a :: l', b :: k' => py_eqb a b && arr l' k'
       | _, _ => false
       end) l k
  | JObj l, JObj k =>
      bool_decide (length l = length k)
      && (fix obj l := match l with
          | [] => true
          | (s, a) :: l' =>
              match assoc s k with Some b => py_eqb a b | None => false end && obj l'
          end) l
  | _, _ => false
  end.

(** ** Printing *)

Local Open Scope string_scope.

Definition quote_char : Ascii.ascii := "034"%char.
Definition backslash : Ascii.ascii := "092"%char.

Definition hex_digit (n : N) : Ascii.ascii :=
  Ascii.ascii_of_N (if (n <? 10)%N then 48 + n else 87 + n).

Definition escape_u (n : N) : string :=
  String backslash (String "u" (String "0" (String "0"
    (String (hex_digit (n / 16)) (String (hex_digit (n mod 16)) ""))))).

Definition escape_pair (c : Ascii.ascii) : string := String backslash (String c "").

(** One character of a JSON string literal; [ascii] is [ensure_ascii]. *)
Definition escape_char (ascii : bool) (c : Ascii.ascii) : string :=
  let n := Ascii.N_of_ascii c in
  if (n =? 34)%N then escape_pair quote_char
  else if (n =? 92)%N then escape_pair backslash
  else if (n =? 8)%N then escape_pair "b"
  else if (n =? 12)%N then escape_pair "f"
  else if (n =? 10)%N then escape_pair "n"
  else if (n =? 13)%N then escape_pair "r"
  else if (n =? 9)%N then escape_pair "t"
  else if (n <? 32)%N then escape_u n
  else if ascii && (126 <? n)%N then escape_u n
  else String c "".

Fixpoint escape (ascii : bool) (s : string) : string :=
  match s with
  | "" => ""
  | String c s' => escape_char ascii c +:+ escape ascii s'
  end.

Definition print_str (ascii : bool) (s : string) : string :=
  String quote_char (escape ascii s +:+ String quote_char "").

(** [json.dumps(j, sort_keys=True, separators=(",", ":"), ensure_ascii=ascii)]. *)
Fixpoint dumps (ascii : bool) (j : json) : string :=
  match j with
  | JNull => "null"
  | JBool true => "true"
  | JBool false => "false"
  | JInt z => z_str z
  | JStr s => print_str ascii s
  | JArr l => "[" +:+ String.concat "," (map (dumps ascii) l) +:+ "]"
  | JObj kvs =>
      "{" +:+ String.concat "," (map (λ kv, print_str ascii kv.1 +:+ ":" +:+ kv.2)
        (sort_by fst str_leb (map (λ kv, (kv.1, dumps ascii kv.2)) kvs))) +:+ "}"
  end.

(** [str.encode()]: the UTF-8 bytes of code points below U+0100. *)
Fixpoint utf8 (s : string) : string :=
  match s with
  | "" => ""
  | String c s' =>
      let n := Ascii.N_of_ascii c in
      if (n <? 128)%N then String c (utf8 s')
      else String (Ascii.ascii_of_N (192 + n / 64))
             (String (Ascii.ascii_of_N (128 + n mod 64)) (utf8 s'))
  end.

Definition canonical_bytes (value : json) : string := utf8 (dumps false value).

(** [ReferenceExposureGate._json]. *)
Definition ascii_dumps (value : json) : string := utf8 (dumps true value).

(** ** Values of Python data in JSON *)

Class ToJson (A : Type) := to_json : A → json.

#[global] Instance string_json : ToJson string := JStr.
#[global] Instance Z_json : ToJson Z := JInt.
#[global] Instance bool_json : ToJson bool := JBool.
#[global] Instance option_json {A} `{ToJson A} : ToJson (option A) := λ o,
  match o with Some a => to_json a | None => JNull end.
#[global] Instance list_json {A} `{ToJson A} : ToJson (list A) := λ l,
  JArr (to_json <$> l).
#[global] Instance json_json : ToJson json := λ j, j.

(** ** Facts *)

Lemma assoc_elem_of {A} k (kvs : list (string * A)) v : assoc k kvs = Some v → (k, v) ∈ kvs.
Proof.
  induction kvs as [|[k' v'] kvs IH]; simpl; [done|].
  destruct (k' =? k)%string eqn:E; reflect; subst.
  - intros [= ->]. constructor.
  - intros H. constructor. auto.
Qed.

Lemma assoc_is_Some {A} k (kvs : list (string * A)) : k ∈ keys kvs ↔ is_Some (assoc k kvs).
Proof.
  unfold keys. induction kvs as [|[k' v'] kvs IH]; simpl.
  { rewrite elem_of_nil. split; [done|by intros []]. }
  rewrite elem_of_cons. destruct (k' =? k)%string eqn:E; reflect; subst; [naive_solver|].
  rewrite IH. naive_solver.
Qed.

Lemma assoc_dict_set {A} k k' (v : A) kvs :
  assoc k' (dict_set k v kvs) = if (k =? k')%string then Some v else assoc k' kvs.
Proof.
  induction kvs as [|[k0 v0] kvs IH]; simpl; [done|].
  destruct (k0 =? k)%string eqn:E0; simpl; reflect; subst.
  - by destruct (k =? k')%string.
  - rewrite IH. destruct (k0 =? k')%string eqn:E1, (k =? k')%string eqn:E2; reflect;
      congruence.
Qed.

Lemma keys_dict_set {A} k (v : A) d :
  keys (dict_set k v d) = if decide (k ∈ keys d) then keys d else (keys d ++ [k])%list.
Proof.
  unfold keys. induction d as [|[k' v'] d IH]; simpl; [done|].
  destruct (k' =? k)%string eqn:E; reflect; csimpl.
  - subst. by rewrite decide_True by (by left).
  - rewrite IH. destruct (decide (k ∈ d.*1)); [by rewrite decide_True by (by right)|].
    rewrite decide_False; [done|]. rewrite elem_of_cons. naive_solver.
Qed.

Lemma dict_set_nodup {A} k (v : A) d : NoDup (keys d) → NoDup (keys (dict_set k v d)).
Proof.
  intros Hd. rewrite keys_dict_set. destruct (decide _); [done|].
  apply NoDup_app. split_and!; [done| |apply NoDup_singleton].
  by intros x Hx ->%list_elem_of_singleton.
Qed.

Lemma py_eqb_refl_scalar s : py_eqb (JStr s) (JStr s) = true.
Proof. apply String.eqb_refl. Qed.

Example int_of_string_ex :
  (int_of_string " +1_0 ", int_of_string "-7", int_of_string "1__0", int_of_string "")
  = (Some 10%Z, Some (-7)%Z, None, None).
Proof. reflexivity. Qed.
