(* ===== verification/Sha256.v ===== *)
(** * Sha256: the digest behind content identifiers

    [hashlib.sha256(data).hexdigest()] as an interface, [Sha256], so that every theorem holds
    for any digest function, and FIPS 180-4's algorithm as its instance.  Bytes are a [string]
    of 8-bit characters and words are [Z] reduced modulo 2^32. *)

From S2P Require Import Prelude.

Local Open Scope Z_scope.

(** [hashlib.sha256(data).hexdigest()]: 64 lower-case hexadecimal digits. *)
Class Sha256 := sha256_hexdigest : string → string.

Definition is_hex (c : ascii) : bool :=
  let n := N_of_ascii c in
  ((48 <=? n) && (n <=? 57) || (97 <=? n) && (n <=? 102))%N.

Fixpoint string_forall (f : ascii → bool) (s : string) : bool :=
  match s with
  | EmptyString => true
  | String c s' => f c && string_forall f s'
  end.

Lemma string_forall_impl f g s :
  (∀ c, f c = true → g c = true) → string_forall f s = true → string_forall g s = true.
Proof. intros Hfg. induction s as [|c s IH]; cbn; [done|]. intros. reflect. by rewrite Hfg, IH. Qed.

Lemma string_forall_app f a b :
  string_forall f (a +:+ b) = string_forall f a && string_forall f b.
Proof.
  induction a as [|c a IH]; [done|]. rewrite str_app_cons. cbn. by rewrite IH, andb_assoc.
Qed.

(** What the code relies on: the shape of the digest. *)
Class Sha256Laws `{Sha256} : Prop := {
  sha256_length data : String.length (sha256_hexdigest data) = 64%nat;
  sha256_is_hex data : string_forall is_hex (sha256_hexdigest data) = true;
}.

Module Fips.

Definition w32 (x : Z) : Z := Z.land x 4294967295.
Definition add (x y : Z) : Z := w32 (x + y).
Definition rotr (n x : Z) : Z := Z.lor (Z.shiftr x n) (w32 (Z.shiftl x (32 - n))).
Definition ch (x y z : Z) : Z := Z.lxor (Z.land x y) (Z.land (Z.lxor x 4294967295) z).
Definition maj (x y z : Z) : Z :=
  Z.lxor (Z.lxor (Z.land x y) (Z.land x z)) (Z.land y z).
Definition bsig0 x := Z.lxor (Z.lxor (rotr 2 x) (rotr 13 x)) (rotr 22 x).
Definition bsig1 x := Z.lxor (Z.lxor (rotr 6 x) (rotr 11 x)) (rotr 25 x).
Definition ssig0 x := Z.lxor (Z.lxor (rotr 7 x) (rotr 18 x)) (Z.shiftr x 3).
Definition ssig1 x := Z.lxor (Z.lxor (rotr 17 x) (rotr 19 x)) (Z.shiftr x 10).

(** The round constants are the fractional parts of cube roots of the first 64 primes, the
    initial state those of square roots of the first eight, 32 bits of each. *)
Definition is_prime (n : Z) : bool :=
  forallb (λ d, negb (n mod (Z.of_nat d) =? 0)) (seq 2 (Z.to_nat n - 2)).

Definition primes (count bound : nat) : list Z :=
  take count (List.filter is_prime (map Z.of_nat (seq 2 bound))).

(** The largest [r] below [acc + 2^bits] with [r^3 <= n]. *)
Fixpoint cube_root (bits : nat) (acc n : Z) : Z :=
  match bits with
  | O => acc
  | S b =>
      let r := acc + Z.shiftl 1 (Z.of_nat b) in
      cube_root b (if r * r * r <=? n then r else acc) n
  end.

Definition K : list Z :=
  Eval vm_compute in map (λ p, w32 (cube_root 36 0 (Z.shiftl p 96))) (primes 64 320).

Record regs := Regs { ra : Z; rb : Z; rc : Z; rd : Z; re : Z; rf : Z; rg : Z; rh : Z }.

Definition regs_of (l : list Z) : regs :=
  let x i := nth i l 0 in
  Regs (x 0%nat) (x 1%nat) (x 2%nat) (x 3%nat) (x 4%nat) (x 5%nat) (x 6%nat) (x 7%nat).

Definition H0 : regs :=
  Eval vm_compute in regs_of (map (λ p, w32 (Z.sqrt (Z.shiftl p 64))) (primes 8 20)).

(** The message schedule, newest word first. *)
Fixpoint schedule (n : nat) (ws : list Z) : list Z :=
  match n with
  | O => ws
  | S n' =>
      let w i := nth i ws 0 in
      schedule n'
        (add (add (ssig1 (w 1%nat)) (w 6%nat)) (add (ssig0 (w 14%nat)) (w 15%nat)) :: ws)
  end.

Definition round (s : regs) (kw : Z * Z) : regs :=
  let t1 := add (add (rh s) (bsig1 (re s)))
                (add (ch (re s) (rf s) (rg s)) (add kw.1 kw.2)) in
  let t2 := add (bsig0 (ra s)) (maj (ra s) (rb s) (rc s)) in
  Regs (add t1 t2) (ra s) (rb s) (rc s) (add (rd s) t1) (re s) (rf s) (rg s).

Definition compress (h : regs) (block : list Z) : regs :=
  let ws := rev (schedule 48 (rev block)) in
  let s := fold_left round (combine K ws) h in
  Regs (add (ra h) (ra s)) (add (rb h) (rb s)) (add (rc h) (rc s)) (add (rd h) (rd s))
       (add (re h) (re s)) (add (rf h) (rf s)) (add (rg h) (rg s)) (add (rh h) (rh s)).

Definition bytes_of (s : string) : list Z :=
  map (λ c, Z.of_N (N_of_ascii c)) (list_ascii_of_string s).

(** [n] big-endian bytes of [x]. *)
Fixpoint be_bytes (n : nat) (x : Z) : list Z :=
  match n with
  | O => []
  | S n' => Z.land (Z.shiftr x (8 * Z.of_nat n')) 255 :: be_bytes n' x
  end.

Definition pad (bs : list Z) : list Z :=
  let len := Z.of_nat (List.length bs) in
  bs ++ 128 :: repeat 0 (Z.to_nat ((55 - len) mod 64)) ++ be_bytes 8 (8 * len).

Fixpoint words (bs : list Z) : list Z :=
  match bs with
  | a :: b :: c :: d :: bs' =>
      Z.lor (Z.lor (Z.shiftl a 24) (Z.shiftl b 16)) (Z.lor (Z.shiftl c 8) d) :: words bs'
  | _ => []
  end.

(** [n] blocks of sixteen words. *)
Fixpoint blocks (n : nat) (ws : list Z) (h : regs) : regs :=
  match n with
  | O => h
  | S n' => blocks n' (drop 16 ws) (compress h (take 16 ws))
  end.

Definition hex_digit (x : Z) : ascii :=
  ascii_of_N (Z.to_N (if x <? 10 then 48 + x else 87 + x)).

(** [n] hexadecimal digits of [x], most significant first. *)
Fixpoint hex (n : nat) (x : Z) (rest : string) : string :=
  match n with
  | O => rest
  | S n' => String (hex_digit (Z.land (Z.shiftr x (4 * Z.of_nat n')) 15)) (hex n' x rest)
  end.

Definition digest (data : string) : regs :=
  let ws := words (pad (bytes_of data)) in
  blocks (List.length ws / 16) ws H0.

Definition hexdigest (data : string) : string :=
  let s := digest data in
  hex 8 (ra s) (hex 8 (rb s) (hex 8 (rc s) (hex 8 (rd s)
    (hex 8 (re s) (hex 8 (rf s) (hex 8 (rg s) (hex 8 (rh s) ""))))))).

Lemma hex_digit_is_hex x : is_hex (hex_digit (Z.land x 15)) = true.
Proof.
  change 15 with (Z.ones 4). rewrite Z.land_ones by lia.
  pose proof (Z.mod_pos_bound x (2 ^ 4) ltac:(lia)) as B. change (2 ^ 4) with 16 in *.
  remember (x mod 16) as d. clear Heqd x.
  assert (d = 0 ∨ d = 1 ∨ d = 2 ∨ d = 3 ∨ d = 4 ∨ d = 5 ∨ d = 6 ∨ d = 7 ∨ d = 8 ∨ d = 9
    ∨ d = 10 ∨ d = 11 ∨ d = 12 ∨ d = 13 ∨ d = 14 ∨ d = 15) as C by lia.
  by repeat (destruct C as [->|C]; [reflexivity|]); subst.
Qed.

Lemma hex_shape n x rest :
  String.length (hex n x rest) = (n + String.length rest)%nat
  ∧ string_forall is_hex (hex n x rest) = string_forall is_hex rest.
Proof.
  induction n as [|n [IH1 IH2]]; cbn [hex]; [done|].
  split; [simpl; by rewrite IH1|]. cbn [string_forall]. by rewrite hex_digit_is_hex, IH2.
Qed.

End Fips.

#[export] Instance sha256_fips : Sha256 := Fips.hexdigest.

#[export] Instance sha256_fips_laws : @Sha256Laws sha256_fips.
Proof.
  constructor; intros data; unfold sha256_hexdigest, sha256_fips, Fips.hexdigest.
  - by rewrite !(proj1 (Fips.hex_shape _ _ _)).
  - by rewrite !(proj2 (Fips.hex_shape _ _ _)).
Qed.

(** The FIPS 180-4 test vectors. *)
Example sha256_abc :
  Fips.hexdigest "abc" = "ba7816bf8f01cfea414140de5dae2223b00361a396177a9cb410ff61f20015ad".
Proof. vm_compute. reflexivity. Qed.

Example sha256_two_blocks :
  Fips.hexdigest "abcdbcdecdefdefgefghfghighijhijkijkljklmklmnlmnomnopnopq"
  = "248d6a61d20638b8e5c026930c3e6039a33ce45964ff2167f6ecedd419db06c1".
Proof. vm_compute. reflexivity. Qed.
