(* ===== verification/TransactionModel.v ===== *)
(** * TransactionModel: the finite exposure-transaction model

    experiments/transaction_model/explore.py: the abstract states of an exposure transaction,
    its guarded transition function, the invariants checked on every state, and the
    breadth-first exploration that exhausts the reachable states.  The theorems show that
    every reachable state satisfies the invariants, that the exploration is complete, and
    that its result is the checked-in artifact. *)

From S2P Require Import Prelude Effects Json Sha256.

Local Open Scope string_scope.
Local Open Scope list_scope.

(** ** States *)

Module Phase.
Variant t :=
  | PREDECESSOR_OPEN | CANDIDATE_STAGED | CANDIDATE_CLOSED | OPENING | CANDIDATE_OPEN
  | DRAINING | RECOVERING | ROLLED_BACK | FAILED_SAFE | SAFETY_UNKNOWN.

Definition value (p : t) : string :=
  match p with
  | PREDECESSOR_OPEN => "predecessor-open"
  | CANDIDATE_STAGED => "candidate-staged"
  | CANDIDATE_CLOSED => "candidate-closed"
  | OPENING => "opening"
  | CANDIDATE_OPEN => "candidate-open"
  | DRAINING => "draining"
  | RECOVERING => "recovering"
  | ROLLED_BACK => "rolled-back"
  | FAILED_SAFE => "failed-safe"
  | SAFETY_UNKNOWN => "safety-unknown"
  end.
End Phase.

Module Route.
Variant t := PREDECESSOR | CANDIDATE | CLOSED | UNKNOWN.

Definition value (r : t) : string :=
  match r with
  | PREDECESSOR => "predecessor"
  | CANDIDATE => "candidate"
  | CLOSED => "closed"
  | UNKNOWN => "unknown"
  end.
End Route.

#[export] Instance Phase_eq_dec : EqDecision Phase.t.
Proof. solve_decision. Defined.

#[export] Instance Route_eq_dec : EqDecision Route.t.
Proof. solve_decision. Defined.

Record State := mkState {
  phase : Phase.t;
  route : Route.t;
  proof_complete : bool;
  lease_valid : bool;
  generation : Z;
  open_intent : bool;
  open_receipt : bool;
}.

#[export] Instance State_eq_dec : EqDecision State.
Proof. solve_decision. Defined.

(** [replace(state, field=value)], one field at a time. *)
Definition with_phase (p : Phase.t) (s : State) : State :=
  mkState p (route s) (proof_complete s) (lease_valid s) (generation s) (open_intent s)
    (open_receipt s).
Definition with_route (r : Route.t) (s : State) : State :=
  mkState (phase s) r (proof_complete s) (lease_valid s) (generation s) (open_intent s)
    (open_receipt s).
Definition with_proof_complete (b : bool) (s : State) : State :=
  mkState (phase s) (route s) b (lease_valid s) (generation s) (open_intent s)
    (open_receipt s).
Definition with_lease_valid (b : bool) (s : State) : State :=
  mkState (phase s) (route s) (proof_complete s) b (generation s) (open_intent s)
    (open_receipt s).
Definition with_generation (g : Z) (s : State) : State :=
  mkState (phase s) (route s) (proof_complete s) (lease_valid s) g (open_intent s)
    (open_receipt s).
Definition with_open_intent (b : bool) (s : State) : State :=
  mkState (phase s) (route s) (proof_complete s) (lease_valid s) (generation s) b
    (open_receipt s).
Definition with_open_receipt (b : bool) (s : State) : State :=
  mkState (phase s) (route s) (proof_complete s) (lease_valid s) (generation s)
    (open_intent s) b.

Definition ACTIONS : list string :=
  ["stage"; "observe-complete"; "close-candidate"; "open-intent"; "open-effect";
   "open-receipt"; "admit-request"; "start-drain"; "finish-drain"; "lose-lease";
   "renew-lease"; "crash"; "reconcile"; "rollback-strong"; "rollback-failed-closed";
   "rollback-failed-unknown"].

Definition initial_state : State :=
  mkState Phase.PREDECESSOR_OPEN Route.PREDECESSOR false true 0 false false.

Definition phase_in (s : State) (ps : list Phase.t) : bool := bool_decide (phase s ∈ ps).
Definition route_is (s : State) (r : Route.t) : bool := bool_decide (route s = r).

Definition can_admit (s : State) : bool :=
  if route_is s Route.PREDECESSOR then
    phase_in s [Phase.PREDECESSOR_OPEN; Phase.CANDIDATE_STAGED; Phase.CANDIDATE_CLOSED]
  else
    route_is s Route.CANDIDATE
    && phase_in s [Phase.CANDIDATE_OPEN; Phase.DRAINING]
    && proof_complete s && lease_valid s && (generation s =? 1)%Z && open_receipt s.

(** ** Transitions *)

Definition rollback_phases : list Phase.t :=
  [Phase.CANDIDATE_STAGED; Phase.CANDIDATE_CLOSED; Phase.OPENING; Phase.CANDIDATE_OPEN;
   Phase.DRAINING].

Definition transition (s : State) (action : string) : result State :=
  if (action =? "stage") && phase_in s [Phase.PREDECESSOR_OPEN] then
    Ok (with_phase Phase.CANDIDATE_STAGED s)
  else if (action =? "observe-complete")
      && phase_in s [Phase.CANDIDATE_STAGED; Phase.CANDIDATE_CLOSED] && lease_valid s then
    Ok (with_proof_complete true s)
  else if (action =? "close-candidate") && phase_in s [Phase.CANDIDATE_STAGED] then
    Ok (with_phase Phase.CANDIDATE_CLOSED s)
  else if (action =? "open-intent") && phase_in s [Phase.CANDIDATE_CLOSED]
      && proof_complete s && lease_valid s then
    Ok (with_open_intent true (with_phase Phase.OPENING s))
  else if (action =? "open-effect") && phase_in s [Phase.OPENING]
      && route_is s Route.PREDECESSOR && open_intent s && proof_complete s
      && lease_valid s then
    Ok (with_route Route.CANDIDATE s)
  else if (action =? "open-receipt") && phase_in s [Phase.OPENING]
      && route_is s Route.CANDIDATE && proof_complete s && lease_valid s
      && open_intent s then
    Ok (with_open_receipt true (with_generation 1 (with_phase Phase.CANDIDATE_OPEN s)))
  else if (action =? "admit-request") && can_admit s then Ok s
  else if (action =? "start-drain") && phase_in s [Phase.CANDIDATE_OPEN] then
    Ok (with_phase Phase.DRAINING s)
  else if (action =? "finish-drain") && phase_in s [Phase.DRAINING] then
    Ok (with_phase Phase.CANDIDATE_OPEN s)
  else if (action =? "lose-lease") && lease_valid s then
    if route_is s Route.CANDIDATE then
      Ok (with_lease_valid false
        (with_route Route.UNKNOWN (with_phase Phase.SAFETY_UNKNOWN s)))
    else Ok (with_lease_valid false s)
  else if (action =? "renew-lease") && negb (lease_valid s)
      && phase_in s [Phase.PREDECESSOR_OPEN; Phase.CANDIDATE_STAGED;
           Phase.CANDIDATE_CLOSED] then
    Ok (with_proof_complete false (with_lease_valid true s))
  else if (action =? "crash")
      && phase_in s [Phase.OPENING; Phase.CANDIDATE_OPEN; Phase.DRAINING] then
    Ok (with_phase Phase.RECOVERING s)
  else if (action =? "reconcile") && phase_in s [Phase.RECOVERING] then
    if route_is s Route.UNKNOWN then Ok (with_phase Phase.SAFETY_UNKNOWN s)
    else if route_is s Route.CANDIDATE && proof_complete s && lease_valid s then
      Ok (with_open_receipt true (with_generation 1 (with_phase Phase.CANDIDATE_OPEN s)))
    else Ok (with_route Route.CLOSED (with_phase Phase.FAILED_SAFE s))
  else if (action =? "rollback-strong") && phase_in s rollback_phases then
    Ok (mkState Phase.ROLLED_BACK Route.PREDECESSOR (proof_complete s) (lease_valid s) 0
          false false)
  else if (action =? "rollback-failed-closed") && phase_in s rollback_phases then
    Ok (with_route Route.CLOSED (with_phase Phase.FAILED_SAFE s))
  else if (action =? "rollback-failed-unknown") && phase_in s rollback_phases then
    Ok (with_route Route.UNKNOWN (with_phase Phase.SAFETY_UNKNOWN s))
  else Err (RejectedTransition (action +:+ " is invalid from " +:+ Phase.value (phase s))).

(** ** Invariants *)

Definition error_if (b : bool) (msg : string) : list string := if b then [msg] else [].

Definition invariant_errors (s : State) : list string :=
  error_if (route_is s Route.CANDIDATE && open_receipt s
      && negb (proof_complete s && (generation s =? 1)%Z && open_intent s))
    "candidate receipt lacks proof, generation, or intent"
  ++ error_if (route_is s Route.CANDIDATE && negb (open_receipt s)
      && (negb (proof_complete s) || negb (lease_valid s)
          || negb (phase_in s [Phase.OPENING; Phase.RECOVERING]) || can_admit s))
    "candidate side effect before receipt enables admission"
  ++ error_if (phase_in s [Phase.PREDECESSOR_OPEN; Phase.CANDIDATE_STAGED;
          Phase.CANDIDATE_CLOSED]
      && (negb (route_is s Route.PREDECESSOR) || negb (generation s =? 0)%Z))
    "pre-exposure phase lost predecessor route"
  ++ error_if (phase_in s [Phase.FAILED_SAFE]
      && (negb (route_is s Route.CLOSED) || can_admit s))
    "failed-safe state did not close admissions"
  ++ error_if (phase_in s [Phase.SAFETY_UNKNOWN] && can_admit s)
    "safety-unknown state admitted a request"
  ++ error_if (phase_in s [Phase.ROLLED_BACK]
      && (negb (route_is s Route.PREDECESSOR) || negb (generation s =? 0)%Z
          || open_intent s || open_receipt s))
    "strong rollback did not restore predecessor identity"
  ++ error_if (can_admit s && route_is s Route.CANDIDATE
      && negb (proof_complete s && lease_valid s && open_receipt s))
    "candidate admission lacks current authority".

Definition state_object (s : State) : json :=
  JObj [("phase", JStr (Phase.value (phase s)));
        ("route", JStr (Route.value (route s)));
        ("proof_complete", JBool (proof_complete s));
        ("lease_valid", JBool (lease_valid s));
        ("generation", JInt (generation s));
        ("open_intent", JBool (open_intent s));
        ("open_receipt", JBool (open_receipt s))].

(** ** Exploration *)

(** The sets and the dictionary of [explore] as duplicate-free lists in insertion order. *)
Record exploration := Exploration {
  queue : list (State * nat);
  distances : list (State * nat);
  edges : list (State * string * State);
  rejected : list (State * string);
  counterexamples : list json;
}.

Definition set_add {A} `{EqDecision A} (x : A) (l : list A) : list A :=
  if decide (x ∈ l) then l else l ++ [x].

Definition known (s : State) (x : exploration) : bool :=
  bool_decide (s ∈ (distances x).*1).

(** The body of [for action in ACTIONS]. *)
Definition explore_action (s : State) (depth : nat) (x : exploration) (action : string)
    : exploration :=
  match transition s action with
  | Err _ =>
      Exploration (queue x) (distances x) (edges x) (set_add (s, action) (rejected x))
        (counterexamples x)
  | Ok target =>
      let errors := invariant_errors target in
      let cexs :=
        if decide (errors = []) then counterexamples x
        else counterexamples x ++
          [JObj [("action", JStr action); ("errors", to_json errors);
                 ("source", state_object s); ("target", state_object target)]] in
      let new := negb (known target x) in
      Exploration
        (if new then queue x ++ [(target, S depth)] else queue x)
        (if new then distances x ++ [(target, S depth)] else distances x)
        (set_add (s, action, target) (edges x)) (rejected x) cexs
  end.

(** [while queue: ...]; [fuel] bounds the number of states taken off the queue. *)
Fixpoint explore_loop (fuel : nat) (x : exploration) : exploration :=
  match fuel, queue x with
  | S fuel', (s, depth) :: rest =>
      explore_loop fuel'
        (fold_left (explore_action s depth) ACTIONS
           (Exploration rest (distances x) (edges x) (rejected x) (counterexamples x)))
  | _, _ => x
  end.

Definition explore_start : exploration :=
  Exploration [(initial_state, O)] [(initial_state, O)] [] [] [].

Definition explore_run (fuel : nat) : exploration := explore_loop fuel explore_start.

Definition canonical (value : json) : string :=
  dumps true value +:+ String "010"%char "".

Definition state_rows (x : exploration) : json :=
  JArr (sort_by (dumps true) str_leb (state_object <$> (distances x).*1)).

Definition edge_object (e : State * string * State) : json :=
  let '(source, action, target) := e in
  JObj [("action", JStr action); ("source", state_object source);
        ("target", state_object target)].

Definition edge_rows (x : exploration) : json :=
  JArr (sort_by (dumps true) str_leb (edge_object <$> edges x)).

Definition max_distance (x : exploration) : nat := foldr Nat.max O (distances x).*2.

Definition INVARIANTS : list string :=
  ["candidate-admission-requires-proof-lease-generation-and-receipt";
   "candidate-side-effect-before-receipt-never-enables-admission";
   "pre-exposure-phases-preserve-the-predecessor-route";
   "failed-safe-closes-all-routes";
   "safety-unknown-enables-no-admission";
   "strong-rollback-restores-only-the-predecessor";
   "one-route-per-state"].

Definition ASSUMPTIONS : list string :=
  ["one controller serializes durable state transitions";
   "route observations distinguish predecessor, candidate, closed, and unknown";
   "proof completeness and lease validity are evaluated by their declared authorities";
   "rollback-strong requires an independently verified predecessor restore"].

(** The result of [explore]; the digest of the script's own file is an argument. *)
Definition explore `{Sha256} (implementation_sha256 : string) (fuel : nat) : json :=
  let x := explore_run fuel in
  JObj [("schema", JStr "ecpa-bounded-transaction-model/v1");
        ("implementation_sha256", JStr implementation_sha256);
        ("classification", JStr "exhaustive-finite-abstract-model");
        ("formal_real_result", JBool false);
        ("fixed_point_reached", JBool true);
        ("actions", JInt (Z.of_nat (length ACTIONS)));
        ("reachable_states", JInt (Z.of_nat (length (distances x))));
        ("reachable_states_sha256",
          JStr (sha256_hexdigest (utf8 (canonical (state_rows x)))));
        ("valid_edges", JInt (Z.of_nat (length (edges x))));
        ("valid_edges_sha256",
          JStr (sha256_hexdigest (utf8 (canonical (edge_rows x)))));
        ("rejected_state_action_pairs", JInt (Z.of_nat (length (rejected x))));
        ("maximum_shortest_trace_length", JInt (Z.of_nat (max_distance x)));
        ("invariants", to_json INVARIANTS);
        ("assumptions", to_json ASSUMPTIONS);
        ("counterexamples", JArr (counterexamples x))].

(** ** Executions *)

(** [trace l s]: the actions [l], in order, lead from the initial state to [s]. *)
Inductive trace : list string → State → Prop :=
  | trace_nil : trace [] initial_state
  | trace_snoc l s a t : trace l s → transition s a = Ok t → trace (l ++ [a]) t.

Definition reachable (s : State) : Prop := ∃ l, trace l s.

Lemma reachable_step s a t : reachable s → transition s a = Ok t → reachable t.
Proof. intros [l Hl] Ht. exists (l ++ [a]). by econstructor. Qed.

Lemma phase_in_spec s ps : phase_in s ps = true ↔ phase s ∈ ps.
Proof. apply bool_decide_eq_true. Qed.

Lemma route_is_spec s r : route_is s r = true ↔ route s = r.
Proof. apply bool_decide_eq_true. Qed.

(** Case analysis on which guarded branch a transition took. *)
Ltac transition_cases H :=
  unfold transition in H;
  repeat match type of H with
  | (if ?b then _ else _) = Ok _ => destruct b eqn:?
  end; try discriminate H; injection H as <-; reflect.

Lemma transition_action s a t : transition s a = Ok t → a ∈ ACTIONS.
Proof.
  intros H. apply list_elem_of_In. transition_cases H; subst; cbn; tauto.
Qed.

(** ** The exploration as a fixed point *)

Lemma explore_loop_done n x : queue x = [] → explore_loop n x = x.
Proof. intros E. destruct n; cbn [explore_loop]; by rewrite ?E. Qed.

Lemma explore_loop_add n m x : explore_loop (n + m) x = explore_loop m (explore_loop n x).
Proof.
  revert x. induction n as [|n IH]; intros x; cbn [explore_loop Nat.add]; [done|].
  destruct (queue x) as [|[s d] rest] eqn:E; [by rewrite explore_loop_done|].
  apply IH.
Qed.

Lemma elem_of_set_add {A} `{EqDecision A} (x y : A) l : y ∈ set_add x l ↔ y = x ∨ y ∈ l.
Proof. unfold set_add. case_decide; set_solver. Qed.

(** Everything the exploration records comes from executions of the model. *)
Record explore_sound (x : exploration) : Prop := {
  sound_queue : ∀ s d, (s, d) ∈ queue x → (s, d) ∈ distances x;
  sound_distances : ∀ s d, (s, d) ∈ distances x → ∃ l, trace l s ∧ length l = d;
  sound_edges : ∀ s a t, (s, a, t) ∈ edges x → reachable s ∧ transition s a = Ok t;
  sound_rejected : ∀ s a, (s, a) ∈ rejected x →
    reachable s ∧ a ∈ ACTIONS ∧ ∃ e, transition s a = Err e;
}.

Lemma explore_action_sound s l x a :
  trace l s → a ∈ ACTIONS → explore_sound x →
  explore_sound (explore_action s (length l) x a).
Proof.
  intros Hl Ha [Hq Hd He Hr]. unfold explore_action.
  destruct (transition s a) as [t|e] eqn:Ht.
  - assert (trace (l ++ [a]) t) as Hlt by (by econstructor).
    assert (length (l ++ [a]) = S (length l)) as Hlen by (rewrite length_app; simpl; lia).
    assert (∀ s' d', (s', d') ∈ (if negb (known t x) then distances x ++ [(t, S (length l))]
        else distances x) → (s', d') = (t, S (length l)) ∨ (s', d') ∈ distances x) as Hin.
    { intros s' d'. destruct (negb _); rewrite ?elem_of_app, ?list_elem_of_singleton; tauto. }
    split; cbn.
    + intros s' d'. destruct (negb _); [|by apply Hq].
      rewrite !elem_of_app, !list_elem_of_singleton. intros [?|?]; [left; by apply Hq|by right].
    + intros s' d' [[= -> ->]|?]%Hin; [eauto|by apply Hd].
    + intros s' a' t'. rewrite elem_of_set_add. intros [[= -> -> ->]|?]; [|by apply He].
      split; [by exists l|done].
    + done.
  - split; cbn; [done..|]. intros s' a'. rewrite elem_of_set_add.
    intros [[= -> ->]|?]; [|by apply Hr]. split; [by exists l|eauto].
Qed.

Lemma explore_actions_sound s l x actions :
  trace l s → (∀ a, a ∈ actions → a ∈ ACTIONS) → explore_sound x →
  explore_sound (fold_left (explore_action s (length l)) actions x).
Proof.
  intros Hl. revert x. induction actions as [|a actions IH]; intros x Ha Hx; simpl; [done|].
  apply IH; [set_solver|]. apply explore_action_sound; [done| |done]. apply Ha. set_solver.
Qed.

Lemma explore_loop_sound n x : explore_sound x → explore_sound (explore_loop n x).
Proof.
  revert x. induction n as [|n IH]; intros x Hx; cbn [explore_loop]; [done|].
  destruct (queue x) as [|[s d] rest] eqn:Eq; [done|]. apply IH.
  destruct Hx as [Hq Hd He Hr].
  destruct (Hd s d) as (l & Hl & <-); [apply Hq; rewrite Eq; set_solver|].
  apply explore_actions_sound; [done..|]. split; simpl; try done.
  intros s' d' Hin. apply Hq. rewrite Eq. set_solver.
Qed.

Lemma explore_start_sound : explore_sound explore_start.
Proof.
  split; cbn; [done| |by intros * ?%elem_of_nil..].
  intros s d [= -> ->]%list_elem_of_singleton. exists []. split; [constructor|done].
Qed.

(** The loop takes 39 states off the queue and stops. *)
Definition explored : exploration := Eval vm_compute in explore_run 39.

Lemma explored_run : explore_loop 39 explore_start = explored.
Proof. vm_cast_no_check (eq_refl explored). Qed.

Lemma explored_eq n : (39 ≤ n)%nat → explore_run n = explored.
Proof.
  intros Hn. unfold explore_run. replace n with (39 + (n - 39))%nat by lia.
  by rewrite explore_loop_add, explored_run, explore_loop_done.
Qed.

Lemma explored_sound : explore_sound explored.
Proof.
  rewrite <-(explored_eq 39) by lia. apply explore_loop_sound, explore_start_sound.
Qed.

(** Every explored state has every action's outcome recorded, at no larger a distance. *)
Definition closed_check (x : exploration) : bool :=
  forallb (λ '(s, d), forallb (λ a,
    match transition s a with
    | Ok t =>
        bool_decide ((s, a, t) ∈ edges x)
        && existsb (λ '(t', d'), bool_decide (t' = t) && (d' <=? S d)%nat) (distances x)
    | Err _ => bool_decide ((s, a) ∈ rejected x)
    end) ACTIONS) (distances x).

Lemma closed_check_spec x s d a :
  closed_check x = true → (s, d) ∈ distances x → a ∈ ACTIONS →
  match transition s a with
  | Ok t => (s, a, t) ∈ edges x ∧ ∃ d', (t, d') ∈ distances x ∧ (d' ≤ S d)%nat
  | Err _ => (s, a) ∈ rejected x
  end.
Proof.
  intros H Hs Ha. unfold closed_check in H. rewrite forallb_forall in H.
  specialize (H _ (proj1 (list_elem_of_In _ _) Hs)). cbn beta iota in H.
  rewrite forallb_forall in H.
  specialize (H _ (proj1 (list_elem_of_In _ _) Ha)). cbn beta iota in H.
  destruct (transition s a) as [t|e]; reflect; [|done]. split; [done|].
  apply existsb_exists in H0 as ([t' d'] & Hin & H1). reflect. subst.
  exists d'. apply list_elem_of_In in Hin. apply Nat.leb_le in H1. done.
Qed.

Lemma explored_closed : closed_check explored = true.
Proof. vm_compute. reflexivity. Qed.

Lemma explored_nodup : NoDup (distances explored).*1.
Proof. apply (proj1 (bool_decide_eq_true _)). vm_compute. reflexivity. Qed.

Lemma trace_explored l s :
  trace l s → ∃ d, (s, d) ∈ distances explored ∧ (d ≤ length l)%nat.
Proof.
  induction 1 as [|l s a t Hl (d & Hd & Hle) Ht].
  { exists O. split; [|done]. apply list_elem_of_In. vm_compute. auto. }
  pose proof (closed_check_spec _ s d a explored_closed Hd (transition_action _ _ _ Ht)) as H.
  rewrite Ht in H. destruct H as (_ & d' & Hd' & Hle').
  exists d'. split; [done|]. rewrite length_app. simpl. lia.
Qed.

Lemma reachable_explored s : reachable s ↔ s ∈ (distances explored).*1.
Proof.
  rewrite list_elem_of_fmap. split.
  - intros [l Hl]. destruct (trace_explored l s Hl) as (d & Hd & _). by exists (s, d).
  - intros ([s' d] & -> & Hd). destruct (sound_distances _ explored_sound _ _ Hd) as (l & ? & _).
    by exists l.
Qed.

(** ** Properties *)

(** C39. Every reachable state of the exposure-transaction model satisfies every invariant
    [invariant_errors] checks: admission authority, receipts, the predecessor route before
    exposure, closed routes in failed-safe, no admission in safety-unknown, and the restored
    predecessor after a strong rollback. *)
Theorem reachable_invariants : ∀ l s, trace l s → invariant_errors s = [].
Proof.
  assert (Forall (λ s, invariant_errors s = []) (distances explored).*1) as H.
  { apply (proj1 (bool_decide_eq_true _)). vm_compute. reflexivity. }
  rewrite Forall_forall in H. intros l s Hl. apply H, reachable_explored. by exists l.
Qed.

Definition admitted_trace : list string :=
  ["stage"; "observe-complete"; "close-candidate"; "open-intent"; "open-effect";
   "open-receipt"; "admit-request"].

(** Running a list of actions from a state. *)
Fixpoint run (s : State) (l : list string) : result State :=
  match l with [] => Ok s | a :: l' => t ← transition s a; run t l' end.

Lemma run_trace l s l' t : trace l s → run s l' = Ok t → trace (l ++ l') t.
Proof.
  revert l s. induction l' as [|a l' IH]; cbn; intros l s Hl H.
  - injection H as <-. by rewrite app_nil_r.
  - apply result_bind_ok in H as (u & Hu & H).
    replace (l ++ a :: l') with ((l ++ [a]) ++ l') by by rewrite <-app_assoc.
    eapply IH; [|done]. by econstructor.
Qed.

Definition candidate_open_state : State :=
  mkState Phase.CANDIDATE_OPEN Route.CANDIDATE true true 1 true true.

Lemma admitted_trace_runs : trace admitted_trace candidate_open_state.
Proof. apply (run_trace [] initial_state); [constructor|reflexivity]. Qed.

Lemma reachable_invariants_witness :
  trace admitted_trace candidate_open_state ∧ invariant_errors candidate_open_state = [].
Proof.
  split; [apply admitted_trace_runs|].
  apply (reachable_invariants admitted_trace). apply admitted_trace_runs.
Defined.

(** With fuel for 39 states or more the exploration empties its queue, has found exactly
    the reachable states, recorded exactly the valid edges and exactly the rejected
    state-action pairs, and found no counterexample. *)
Theorem explore_complete : ∀ n, (39 ≤ n)%nat →
  let x := explore_run n in
  queue x = [] ∧ counterexamples x = []
  ∧ (∀ s, s ∈ (distances x).*1 ↔ reachable s)
  ∧ (∀ s a t, (s, a, t) ∈ edges x ↔ reachable s ∧ transition s a = Ok t)
  ∧ (∀ s a, (s, a) ∈ rejected x ↔
       reachable s ∧ a ∈ ACTIONS ∧ ∃ e, transition s a = Err e).
Proof.
  intros n Hn x. subst x. rewrite explored_eq by done.
  assert (∀ s, reachable s → ∃ d, (s, d) ∈ distances explored) as Hdist.
  { intros s Hs. apply reachable_explored, list_elem_of_fmap in Hs as ([s' d] & -> & Hd).
    by exists d. }
  split; [reflexivity|]. split; [reflexivity|]. split; [|split].
  - intros s. by rewrite reachable_explored.
  - intros s a t. split; [apply (sound_edges _ explored_sound)|]. intros [Hs Ht].
    destruct (Hdist s Hs) as [d Hd].
    pose proof (closed_check_spec _ s d a explored_closed Hd (transition_action _ _ _ Ht)) as H.
    rewrite Ht in H. apply H.
  - intros s a. split; [apply (sound_rejected _ explored_sound)|]. intros (Hs & Ha & e & He).
    destruct (Hdist s Hs) as [d Hd].
    pose proof (closed_check_spec _ s d a explored_closed Hd Ha) as H. by rewrite He in H.
Qed.

Lemma explore_complete_witness : (39 ≤ 40)%nat ∧ queue (explore_run 40) = [].
Proof. split; [lia|]. apply (explore_complete 40). lia. Defined.

(** The distance the exploration records for a state is the length of a shortest action
    sequence that reaches it. *)
Theorem distances_shortest : ∀ n s d, (39 ≤ n)%nat → (s, d) ∈ distances (explore_run n) →
  (∃ l, trace l s ∧ length l = d) ∧ ∀ l, trace l s → (d ≤ length l)%nat.
Proof.
  intros n s d Hn. rewrite explored_eq by done. intros Hd.
  split; [by apply (sound_distances _ explored_sound)|]. intros l Hl.
  destruct (trace_explored l s Hl) as (d' & Hd' & Hle).
  assert (d' = d); [|lia].
  pose proof (key_inj_of_nodup fst _ explored_nodup _ _ Hd Hd' eq_refl). congruence.
Qed.

Lemma distances_shortest_witness :
  (candidate_open_state, 6%nat) ∈ distances (explore_run 39)
  ∧ ∀ l, trace l candidate_open_state → (6 ≤ length l)%nat.
Proof.
  assert ((candidate_open_state, 6%nat) ∈ distances (explore_run 39)) as H.
  { apply (proj1 (bool_decide_eq_true _)). vm_compute. reflexivity. }
  split; [exact H|]. apply (distances_shortest 39 candidate_open_state 6); [lia|exact H].
Defined.

(** The exploration's result object, printed canonically, is byte for byte the checked-in
    artifact experiments/transaction_model/artifacts/result-summary.json: the two have the
    same SHA-256 digest (39 states, 102 edges, 522 rejected pairs, longest shortest trace 8,
    and the digests of the state and edge rows). *)
Theorem explore_matches_artifact :
  sha256_hexdigest (utf8 (canonical (explore
    "4dfbec5108e092dfd086cad86e6e04a462e9b2fa1eec2c0ab09547aeeccd74f6" 39)))
  = "8a616f7ef434b3a720fb15320b8e37a9fd68ca2dfe9a67eecbda0f455c0c9efb".
Proof. vm_compute. reflexivity. Qed.

(** What the trace must contain by the time a phase is reached. *)
Definition opening_sequence (s : State) : list string :=
  match phase s with
  | Phase.PREDECESSOR_OPEN => []
  | Phase.CANDIDATE_STAGED => ["stage"]
  | Phase.CANDIDATE_CLOSED => ["stage"; "close-candidate"]
  | _ => []
  end.

(** The history a state carries: proof, intent and candidate route each come from the action
    that sets them, after the actions that must precede it. *)
Definition history (l : list string) (s : State) : Prop :=
  opening_sequence s `sublist_of` l
  ∧ (proof_complete s = true → "observe-complete" ∈ l)
  ∧ (phase s = Phase.OPENING → open_intent s = true)
  ∧ (open_intent s = true →
       "observe-complete" ∈ l ∧ ["stage"; "close-candidate"; "open-intent"] `sublist_of` l)
  ∧ (route s = Route.CANDIDATE →
       "observe-complete" ∈ l
       ∧ ["stage"; "close-candidate"; "open-intent"; "open-effect"] `sublist_of` l).

Lemma sublist_snoc {A} (k l : list A) x : k `sublist_of` l → (k ++ [x]) `sublist_of` (l ++ [x]).
Proof. intros H. by apply sublist_app. Qed.

Lemma sublist_grow {A} (k l : list A) x : k `sublist_of` l → k `sublist_of` (l ++ [x]).
Proof. intros H. by apply sublist_inserts_r. Qed.

Lemma history_trace l s : trace l s → history l s.
Proof.
  induction 1 as [|l s a t Hl IH Ht]; [by repeat split|].
  destruct IH as (Hseq & Hproof & Hint & Hintent & Hroute).
  assert (∀ x, x ∈ l → x ∈ l ++ [a]) as Hin by (intros; apply elem_of_app; by left).
  assert (a ∈ l ++ [a]) as Hlast by (apply elem_of_app; right; by left).
  destruct s as [p r pf lv g oi rc]. unfold history, opening_sequence in *. cbn in *.
  transition_cases Ht; cbn in *; subst;
    repeat match goal with
    | H : phase_in _ _ = true |- _ => apply phase_in_spec in H; cbn in H
    | H : route_is _ _ = true |- _ => apply route_is_spec in H; cbn in H
    | H : ?p ∈ _ :: _ |- _ => apply elem_of_cons in H as [?|H]
    | H : ?p ∈ [] |- _ => by apply elem_of_nil in H
    end; subst; cbn in *;
    repeat split; intros; try discriminate; subst; cbn in *;
    repeat match goal with
    | H : ?x = ?x → _ |- _ => specialize (H eq_refl)
    | H : _ ∧ _ |- _ => destruct H
    end;
    try solve [eauto using sublist_grow, sublist_nil_l
      | by apply (sublist_snoc []), sublist_nil_l
      | by apply (sublist_snoc ["stage"])
      | by apply (sublist_snoc ["stage"; "close-candidate"])
      | by apply (sublist_snoc ["stage"; "close-candidate"; "open-intent"])].
Qed.

(** Traffic reaches the candidate only at the end of the protocol: in every execution that
    ends with the candidate routed, the candidate was staged, closed, its opening recorded as
    an intent and then effected, in this order, and its evidence was observed complete. *)
Theorem candidate_requires_protocol : ∀ l s, trace l s → route s = Route.CANDIDATE →
  ["stage"; "close-candidate"; "open-intent"; "open-effect"] `sublist_of` l
  ∧ "observe-complete" ∈ l.
Proof. intros l s Hl Hr. destruct (history_trace l s Hl) as (_ & _ & _ & _ & H). by split; apply H. Qed.

Lemma candidate_requires_protocol_witness :
  trace admitted_trace candidate_open_state ∧ "observe-complete" ∈ admitted_trace.
Proof.
  split; [apply admitted_trace_runs|].
  apply (candidate_requires_protocol admitted_trace candidate_open_state);
    [apply admitted_trace_runs|reflexivity].
Defined.

Definition terminal_phases : list Phase.t :=
  [Phase.ROLLED_BACK; Phase.FAILED_SAFE; Phase.SAFETY_UNKNOWN].

Lemma terminal_step s a t :
  phase s ∈ terminal_phases → transition s a = Ok t → phase t ∈ terminal_phases.
Proof.
  rewrite !list_elem_of_In. intros Hs Ht. destruct s as [p r pf lv g oi rc].
  transition_cases Ht;
    repeat match goal with
    | H : phase_in _ _ = true |- _ => apply phase_in_spec, list_elem_of_In in H
    end; cbn in *; intuition congruence.
Qed.

Lemma terminal_no_admit s : phase s ∈ terminal_phases → can_admit s = false.
Proof.
  destruct s as [p r pf lv g oi rc]. intros H. apply list_elem_of_In in H. cbn in H.
  destruct H as [<-|[<-|[<-|[]]]]; by destruct r.
Qed.

(** Rolled-back, failed-safe and safety-unknown are final: whatever actions follow, the
    transaction stays in one of the three phases and admits no request. *)
Theorem terminal_absorbing : ∀ s l t,
  phase s ∈ terminal_phases → run s l = Ok t →
  phase t ∈ terminal_phases ∧ can_admit t = false ∧ ∀ u, transition t "admit-request" ≠ Ok u.
Proof.
  intros s l. revert s. induction l as [|a l IH]; intros s t Hs H; cbn in H.
  - injection H as <-. pose proof (terminal_no_admit s Hs) as Hn. split; [done|]. split; [done|].
    intros u. unfold transition. by rewrite Hn.
  - apply result_bind_ok in H as (u & Hu & H). apply (IH u t); [|done].
    by eapply terminal_step.
Qed.

Lemma terminal_absorbing_witness :
  let s := with_phase Phase.FAILED_SAFE (with_route Route.CLOSED initial_state) in
  run s ["lose-lease"] = Ok (with_lease_valid false s)
  ∧ can_admit (with_lease_valid false s) = false.
Proof.
  cbn zeta. split; [reflexivity|].
  apply (terminal_absorbing (with_phase Phase.FAILED_SAFE (with_route Route.CLOSED initial_state))
    ["lose-lease"]); [|reflexivity].
  apply (proj1 (bool_decide_eq_true _)). vm_compute. reflexivity.
Defined.
