(* ===== verification/EcpaModel.v ===== *)
(** * EcpaModel: the ECPA 0.1 reference model

    src/vllm_hust_ext/ecpa_model.py: the contract's data (plans, processes, attestations), the
    content identifiers, and [ReferenceModel], the single-manager state machine from intent to
    effectiveness.  The theorems are about every execution of the model: what a commit
    requires and does, that evidence cannot be replayed, that the write-ahead log is
    append-only and records intents before receipts. *)

From S2P Require Import Prelude Effects Json Sha256.

Local Open Scope string_scope.
Local Open Scope list_scope.

(** ** Data *)

Module State.
Variant t :=
  | INTENT | RESOLVED | PLANNED | PREPARING | PREPARED | LAUNCHING | OBSERVING
  | COMMIT_READY | EFFECTIVE | DEGRADED | RECONCILE | ROLLBACK | ROLLED_BACK | FAILED_SAFE
  | SAFETY_UNKNOWN.

Definition value (s : t) : string :=
  match s with
  | INTENT => "Intent"
  | RESOLVED => "Resolved"
  | PLANNED => "Planned"
  | PREPARING => "Preparing"
  | PREPARED => "Prepared"
  | LAUNCHING => "Launching"
  | OBSERVING => "Observing"
  | COMMIT_READY => "CommitReady"
  | EFFECTIVE => "Effective"
  | DEGRADED => "Degraded"
  | RECONCILE => "Reconcile"
  | ROLLBACK => "Rollback"
  | ROLLED_BACK => "RolledBack"
  | FAILED_SAFE => "FailedSafe"
  | SAFETY_UNKNOWN => "SafetyUnknown"
  end.
End State.

#[export] Instance ecpa_State_eq_dec : EqDecision State.t.
Proof. solve_decision. Defined.

Record PluginIdentity := mkPluginIdentity {
  pl_namespace : string; pl_name : string; pl_version : string; artifact_sha256 : string;
}.

Record HostCompatibility := mkHostCompatibility {
  runtime : string; host_version : string; provider : string; abi : string;
}.

Record ProcessIdentity := mkProcessIdentity {
  host : string; role : string; ordinal : Z; start_id : string; epoch : Z;
}.

Record ResourceClaim := mkResourceClaim {
  uri : string; owner : string; mode : string;
}.

Record EvidenceObligation := mkEvidenceObligation {
  obligation_id : string; ob_role : string; event : string; required_ordinals : list Z;
}.

Record Attestation := mkAttestation {
  att_plan_id : string; att_launch_id : string; process : ProcessIdentity;
  att_obligation_id : string; att_event : string; nonce : string;
  issued_at : Z; expires_at : Z; artifact_id : string; authority : string;
  issuer : string; kid : string; observed_at : Z; evidence_digest : string;
  artifact_digest : string;
}.

Record PredecessorSnapshot := mkPredecessorSnapshot {
  pred_generation : Z; pred_plan_id : option string; rendered_inputs : list (string * json);
}.

Record Plan := mkPlan {
  plugins : list PluginIdentity; plan_host : HostCompatibility;
  claims : list ResourceClaim; obligations : list EvidenceObligation;
  predecessor : PredecessorSnapshot; fallback_proven : bool;
}.

#[export] Instance ProcessIdentity_eq_dec : EqDecision ProcessIdentity.
Proof. solve_decision. Defined.
#[export] Instance PluginIdentity_eq_dec : EqDecision PluginIdentity.
Proof. solve_decision. Defined.
#[export] Instance ResourceClaim_eq_dec : EqDecision ResourceClaim.
Proof. solve_decision. Defined.
#[export] Instance EvidenceObligation_eq_dec : EqDecision EvidenceObligation.
Proof. solve_decision. Defined.
#[export] Instance Attestation_eq_dec : EqDecision Attestation.
Proof. solve_decision. Defined.
#[export] Instance PredecessorSnapshot_eq_dec : EqDecision PredecessorSnapshot.
Proof. solve_decision. Defined.
#[export] Instance HostCompatibility_eq_dec : EqDecision HostCompatibility.
Proof. solve_decision. Defined.
#[export] Instance Plan_eq_dec : EqDecision Plan.
Proof. solve_decision. Defined.

(** [dataclasses.asdict]. *)
#[export] Instance PluginIdentity_json : ToJson PluginIdentity := λ p,
  JObj [("namespace", JStr (pl_namespace p)); ("name", JStr (pl_name p));
        ("version", JStr (pl_version p)); ("artifact_sha256", JStr (artifact_sha256 p))].
#[export] Instance HostCompatibility_json : ToJson HostCompatibility := λ h,
  JObj [("runtime", JStr (runtime h)); ("version", JStr (host_version h));
        ("provider", JStr (provider h)); ("abi", JStr (abi h))].
#[export] Instance ProcessIdentity_json : ToJson ProcessIdentity := λ p,
  JObj [("host", JStr (host p)); ("role", JStr (role p)); ("ordinal", JInt (ordinal p));
        ("start_id", JStr (start_id p)); ("epoch", JInt (epoch p))].
#[export] Instance ResourceClaim_json : ToJson ResourceClaim := λ c,
  JObj [("uri", JStr (uri c)); ("owner", JStr (owner c)); ("mode", JStr (mode c))].
#[export] Instance EvidenceObligation_json : ToJson EvidenceObligation := λ o,
  JObj [("obligation_id", JStr (obligation_id o)); ("role", JStr (ob_role o));
        ("event", JStr (event o)); ("required_ordinals", to_json (required_ordinals o))].
#[export] Instance Attestation_json : ToJson Attestation := λ a,
  JObj [("plan_id", JStr (att_plan_id a)); ("launch_id", JStr (att_launch_id a));
        ("process", to_json (process a)); ("obligation_id", JStr (att_obligation_id a));
        ("event", JStr (att_event a)); ("nonce", JStr (nonce a));
        ("issued_at", JInt (issued_at a)); ("expires_at", JInt (expires_at a));
        ("artifact_id", JStr (artifact_id a)); ("authority", JStr (authority a));
        ("issuer", JStr (issuer a)); ("kid", JStr (kid a));
        ("observed_at", JInt (observed_at a)); ("evidence_digest", JStr (evidence_digest a));
        ("artifact_digest", JStr (artifact_digest a))].
#[export] Instance PredecessorSnapshot_json : ToJson PredecessorSnapshot := λ p,
  JObj [("generation", JInt (pred_generation p)); ("plan_id", to_json (pred_plan_id p));
        ("rendered_inputs", JObj (rendered_inputs p))].
#[export] Instance Plan_json : ToJson Plan := λ p,
  JObj [("plugins", to_json (plugins p)); ("host", to_json (plan_host p));
        ("claims", to_json (claims p)); ("obligations", to_json (obligations p));
        ("predecessor", to_json (predecessor p));
        ("fallback_proven", JBool (fallback_proven p))].

(** ** Identifiers *)

(** [str.lower] on code points below U+0100. *)
Definition lower_char (c : ascii) : ascii :=
  let n := N_of_ascii c in
  if (65 <=? n)%N && (n <=? 90)%N
     || (192 <=? n)%N && (n <=? 222)%N && negb (n =? 215)%N
  then ascii_of_N (n + 32) else c.

Fixpoint lower (s : string) : string :=
  match s with EmptyString => EmptyString | String c s' => String (lower_char c) (lower s') end.

Fixpoint has_char (c : ascii) (s : string) : bool :=
  match s with
  | EmptyString => false
  | String c' s' => bool_decide (c' = c) || has_char c s'
  end.

Definition canonical_uri (value kind : string) : result string :=
  let prefix := "urn:ecpa:" +:+ kind +:+ ":" in
  if negb (String.prefix prefix value) || negb (lower value =? value)%string
     || has_char " "%char value
  then Err (ContractError UNKNOWN_RESOURCE value) else Ok value.

Definition process_key (p : ProcessIdentity) : string :=
  host p +:+ "/" +:+ role p +:+ "/" +:+ z_str (ordinal p) +:+ "/" +:+ start_id p +:+ "/"
    +:+ z_str (epoch p).

Section WithSha256.
Context `{Sha256}.

Definition content_id (prefix : string) (value : json) : string :=
  prefix +:+ ":sha256:" +:+ sha256_hexdigest (canonical_bytes value).

Definition plugin_id (p : PluginIdentity) : string := content_id "plugin" (to_json p).

Definition plan_id (p : Plan) : string := content_id "plan" (to_json p).

End WithSha256.

(** ** The reference model *)

Record store_record := mkRecord { sequence : Z; kind : string; payload : json }.

Record ReferenceModel := mkModel {
  state : State.t;
  generation : Z;
  store : list store_record;
  plan : option Plan;
  launch_id : option string;
  inventory : list ProcessIdentity;
  nonces : gset string;
  accepted : list Attestation;
}.

Definition new_model (g : Z) : ReferenceModel :=
  mkModel State.INTENT g [] None None [] ∅ [].

Definition set_state (s : State.t) (m : ReferenceModel) : ReferenceModel :=
  mkModel s (generation m) (store m) (plan m) (launch_id m) (inventory m) (nonces m)
    (accepted m).
Definition set_generation (g : Z) (m : ReferenceModel) : ReferenceModel :=
  mkModel (state m) g (store m) (plan m) (launch_id m) (inventory m) (nonces m) (accepted m).
Definition set_plan (p : Plan) (m : ReferenceModel) : ReferenceModel :=
  mkModel (state m) (generation m) (store m) (Some p) (launch_id m) (inventory m) (nonces m)
    (accepted m).
Definition set_launch (l : string) (inv : list ProcessIdentity) (m : ReferenceModel)
    : ReferenceModel :=
  mkModel (state m) (generation m) (store m) (plan m) (Some l) inv (nonces m) (accepted m).
Definition set_accepted (ns : gset string) (acc : list Attestation) (m : ReferenceModel)
    : ReferenceModel :=
  mkModel (state m) (generation m) (store m) (plan m) (launch_id m) (inventory m) ns acc.

(** [self.store.append(kind, payload)]. *)
Definition store_append (k : string) (p : json) (m : ReferenceModel) : ReferenceModel :=
  mkModel (state m) (generation m)
    (store m ++ [mkRecord (Z.of_nat (length (store m))) k p])
    (plan m) (launch_id m) (inventory m) (nonces m) (accepted m).

#[local] Abbreviation R := (M ReferenceModel).

Definition append (k : string) (p : json) : R unit := modify (store_append k p).

Definition require (states : list State.t) : R unit :=
  s ← gets state;
  raise_if (bool_decide (s ∉ states))
    (ContractError INVALID_TRANSITION
       (State.value s +:+ " not in " +:+ list_repr (State.value <$> states))).

(** [assert self.plan]. *)
Definition assert_plan : R Plan :=
  p ← gets plan;
  match p with Some p => mret p | None => raise AssertionError end.

Section Methods.
Context `{Sha256}.

Definition resolve (registrations : list string) (expected_namespace : string) : R unit :=
  require [State.INTENT];;
  let matches := filter (λ x, x = expected_namespace) registrations in
  raise_if (bool_decide (length matches = 0%nat))
    (ContractError UNKNOWN_RESOURCE expected_namespace);;
  raise_if (negb (bool_decide (length matches = 1%nat)))
    (ContractError AMBIGUOUS_RESOURCE expected_namespace);;
  modify (set_state State.RESOLVED).

(** The loop of [make_plan] over the claims; [normalized] is the dictionary so far. *)
Fixpoint normalize_claims (normalized : list (string * ResourceClaim))
    (cs : list ResourceClaim) : result (list (string * ResourceClaim)) :=
  match cs with
  | [] => Ok normalized
  | claim :: cs' =>
      u ← canonical_uri (uri claim) "resource";
      match assoc u normalized with
      | Some prior =>
          if ((mode prior =? "exclusive") || (mode claim =? "exclusive"))%string
             && negb (owner prior =? owner claim)%string
          then Err (ContractError RESOURCE_CONFLICT
                 (u +:+ ": " +:+ owner prior +:+ " vs " +:+ owner claim))
          else normalize_claims (dict_set u claim normalized) cs'
      | None => normalize_claims (dict_set u claim normalized) cs'
      end
  end.

Definition make_plan (plugins : list PluginIdentity) (host : HostCompatibility)
    (claims : list ResourceClaim) (obligations : list EvidenceObligation)
    (predecessor : PredecessorSnapshot) (fallback_proven : bool) : R Plan :=
  require [State.RESOLVED];;
  normalized ← lift_result (normalize_claims [] claims);
  let p := mkPlan plugins host (normalized.*2) obligations predecessor fallback_proven in
  modify (set_plan p);;
  append "plan" (JObj [("plan_id", JStr (plan_id p))]);;
  modify (set_state State.PLANNED);;
  mret p.

Definition prepare : R unit :=
  require [State.PLANNED];;
  p ← assert_plan;
  modify (set_state State.PREPARING);;
  append "wal" (JObj [("operation", JStr "prepare"); ("plan_id", JStr (plan_id p))]);;
  append "receipt" (JObj [("operation", JStr "prepare"); ("plan_id", JStr (plan_id p))]);;
  modify (set_state State.PREPARED).

Definition launch (l : string) (inv : list ProcessIdentity) : R unit :=
  require [State.PREPARED];;
  _ ← assert_plan;
  modify (set_state State.LAUNCHING);;
  modify (set_launch l inv);;
  append "wal" (JObj [("operation", JStr "launch"); ("launch_id", JStr l)]);;
  append "receipt" (JObj [("operation", JStr "launch"); ("launch_id", JStr l)]);;
  modify (set_state State.OBSERVING).

(** [self.launch_id] compared with a string. *)
Definition launch_is (o : option string) (l : string) : bool := bool_decide (o = Some l).

Definition attest (item : Attestation) (now : Z) : R unit :=
  require [State.OBSERVING; State.RECONCILE];;
  p ← assert_plan;
  raise_if (negb (authority item =? "host-runtime")%string)
    (ContractError AUTHORITY_VIOLATION (authority item));;
  current_launch ← gets launch_id;
  raise_if
    (negb (att_plan_id item =? plan_id p)%string
     || bool_decide (artifact_id item ∉ (plugin_id <$> plugins p))
     || negb (launch_is current_launch (att_launch_id item))
     || (expires_at item <? now)%Z || (now <? issued_at item)%Z)
    (ContractError STALE_EVIDENCE (nonce item));;
  used ← gets nonces;
  raise_if (bool_decide (nonce item ∈ used)) (ContractError REPLAYED_NONCE (nonce item));;
  inv ← gets inventory;
  raise_if (bool_decide (process_key (process item) ∉ (process_key <$> inv)))
    (ContractError STALE_EVIDENCE (process_key (process item)));;
  acc ← gets accepted;
  modify (set_accepted ({[nonce item]} ∪ used) (acc ++ [item]));;
  append "attestation" (to_json item).

(** [{p.ordinal: p for p in inventory if p.role == role}]: the last process wins. *)
Definition process_at (inv : list ProcessIdentity) (r : string) (o : Z)
    : option ProcessIdentity :=
  find_last (λ p, (role p =? r)%string && (ordinal p =? o)%Z) inv.

(** The check of one obligation in [evidence_complete]. *)
Definition obligation_covered (inv : list ProcessIdentity) (acc : list Attestation)
    (o : EvidenceObligation) : bool :=
  match mapM (process_at inv (ob_role o)) (required_ordinals o) with
  | None => false
  | Some ps =>
      let expected : gset (string * Z * Z) :=
        list_to_set ((λ p, (ob_role o, ordinal p, epoch p)) <$> ps) in
      let observed : gset (string * Z * Z) :=
        list_to_set ((λ a, (role (process a), ordinal (process a), epoch (process a))) <$>
          filter (λ a, att_obligation_id a = obligation_id o ∧ att_event a = event o) acc) in
      bool_decide (expected = observed)
  end.

Definition evidence_complete : R bool :=
  p ← assert_plan;
  inv ← gets inventory;
  acc ← gets accepted;
  mret (forallb (obligation_covered inv acc) (obligations p)).

Definition commit (expected_generation : Z) : R Z :=
  require [State.OBSERVING];;
  p ← assert_plan;
  g ← gets generation;
  raise_if (negb (expected_generation =? g)%Z
            || negb (pred_generation (predecessor p) =? g)%Z)
    (ContractError CAS_MISMATCH
       ("expected " +:+ z_str expected_generation +:+ ", current " +:+ z_str g));;
  complete ← evidence_complete;
  raise_if (negb complete)
    (ContractError MISSING_PROCESS_EVIDENCE "all-required-process coverage failed");;
  modify (set_state State.COMMIT_READY);;
  append "wal" (JObj [("operation", JStr "commit"); ("from", JInt g)]);;
  modify (set_generation (g + 1));;
  append "receipt" (JObj [("operation", JStr "commit"); ("generation", JInt (g + 1))]);;
  modify (set_state State.EFFECTIVE);;
  mret (g + 1)%Z.

Definition rollback (reason : string) (succeeds : bool) : R unit :=
  p ← assert_plan;
  modify (set_state State.ROLLBACK);;
  append "wal" (JObj [("operation", JStr "rollback"); ("reason", JStr reason);
                      ("predecessor", to_json (predecessor p))]);;
  if succeeds then
    append "receipt" (JObj [("operation", JStr "rollback"); ("conditional", JBool true)]);;
    modify (set_state State.ROLLED_BACK)
  else
    append "receipt" (JObj [("operation", JStr "rollback"); ("success", JBool false)]);;
    modify (set_state State.FAILED_SAFE);;
    raise (ContractError ROLLBACK_FAILED reason).

Definition external_lease_lost : R unit :=
  p ← assert_plan;
  modify (set_state State.DEGRADED);;
  if fallback_proven p then modify (set_state State.RECONCILE)
  else rollback "external lease invalid" true.

Definition recover_after_crash : R unit :=
  ns ← gets nonces;
  modify (set_accepted ns []);;
  modify (set_state State.RECONCILE);;
  l ← gets launch_id;
  append "reobserve-required" (JObj [("launch_id", to_json l)]).
End Methods.

(** ** Executions *)

Variant call :=
  | CResolve (registrations : list string) (expected_namespace : string)
  | CMakePlan (pls : list PluginIdentity) (h : HostCompatibility) (cs : list ResourceClaim)
      (obs : list EvidenceObligation) (pred : PredecessorSnapshot) (fallback : bool)
  | CPrepare
  | CLaunch (l : string) (inv : list ProcessIdentity)
  | CAttest (item : Attestation) (now : Z)
  | CCommit (expected_generation : Z)
  | CLeaseLost
  | CRollback (reason : string) (succeeds : bool)
  | CRecover.

Section Executions.
Context `{Sha256}.

Definition exec (c : call) : R unit :=
  match c with
  | CResolve rs ns => resolve rs ns
  | CMakePlan pls h cs obs pred fb => _ ← make_plan pls h cs obs pred fb; mret tt
  | CPrepare => prepare
  | CLaunch l inv => launch l inv
  | CAttest item now => attest item now
  | CCommit g => _ ← commit g; mret tt
  | CLeaseLost => external_lease_lost
  | CRollback reason ok => rollback reason ok
  | CRecover => recover_after_crash
  end.

(** Any calls, whether they return or raise. *)
Inductive execution (g0 : Z) : list call → ReferenceModel → Prop :=
  | exec_nil : execution g0 [] (new_model g0)
  | exec_snoc cs m c : execution g0 cs m → execution g0 (cs ++ [c]) (exec c m).2.

(** *** Proof rules of the model's primitives *)

Lemma wp_require states Q S m :
  (state m ∈ states → Q tt m) →
  (∀ d, state m ∉ states → S (ContractError INVALID_TRANSITION d) m) →
  wp (require states) Q S m.
Proof.
  intros H1 H2. unfold require. wp_steps.
  - apply H2. by reflect.
  - apply H1. reflect. by apply dec_stable.
Qed.

Lemma wp_assert_plan (Q : Plan → ReferenceModel → Prop) S m :
  (∀ p, plan m = Some p → Q p m) → (plan m = None → S AssertionError m) →
  wp assert_plan Q S m.
Proof. intros H1 H2. unfold assert_plan. wp_steps. destruct (plan m); wp_steps; auto. Qed.

Lemma wp_append k p Q S m : Q tt (store_append k p m) → wp (append k p) Q S m.
Proof. done. Qed.

Lemma wp_evidence_complete (Q : bool → ReferenceModel → Prop) S m :
  (∀ p, plan m = Some p →
    Q (forallb (obligation_covered (inventory m) (accepted m)) (obligations p)) m) →
  (plan m = None → S AssertionError m) →
  wp evidence_complete Q S m.
Proof.
  intros H1 H2. unfold evidence_complete. apply wp_bind, wp_assert_plan; [|done].
  intros p Hp. wp_steps. by apply H1.
Qed.
End Executions.

Ltac model_step :=
  match goal with
  | |- wp (require _) _ _ _ => apply wp_require; [intros ?|intros ? ?]
  | |- wp assert_plan _ _ _ => apply wp_assert_plan; [intros ? ?|intros ?]
  | |- wp (append _ _) _ _ _ => apply wp_append
  | |- wp evidence_complete _ _ _ => apply wp_evidence_complete; [intros ? ?|intros ?]
  | |- wp (if ?b then _ else _) _ _ _ => destruct b eqn:?
  | _ => wp_step
  end.

Ltac model_steps := repeat (model_step; cbn beta).

(** *** The write-ahead log *)

Definition field (k : string) (j : json) : option json :=
  match j with JObj kvs => assoc k kvs | _ => None end.

Record wal_ok (l : list store_record) : Prop := {
  wal_sequence : ∀ i r, l !! i = Some r → sequence r = Z.of_nat i;
  wal_intent : ∀ i r, l !! i = Some r → kind r = "receipt" →
    ∃ i' w, i = S i' ∧ l !! i' = Some w ∧ kind w = "wal"
      ∧ field "operation" (payload w) = field "operation" (payload r);
}.

Lemma wal_ok_snoc l k p :
  wal_ok l → k ≠ "receipt" → wal_ok (l ++ [mkRecord (Z.of_nat (length l)) k p]).
Proof.
  intros [Hs Hi] Hk. split.
  - intros i r [Hr|[Hle Hr]]%lookup_app_Some; [by apply Hs|].
    apply list_lookup_singleton_Some in Hr as [E <-]. cbn. lia.
  - intros i r [Hr|[Hle Hr]]%lookup_app_Some Hrec.
    + destruct (Hi i r Hr Hrec) as (i' & w & -> & Hw & ?). exists i', w.
      split; [done|]. split; [by apply lookup_app_l_Some|done].
    + apply list_lookup_singleton_Some in Hr as [E <-]. cbn in *. done.
Qed.

(** An operation's two records: its intent, then its receipt. *)
Lemma wal_ok_pair l w r :
  wal_ok l → kind w = "wal" → sequence w = Z.of_nat (length l) →
  sequence r = Z.of_nat (S (length l)) →
  field "operation" (payload w) = field "operation" (payload r) →
  wal_ok ((l ++ [w]) ++ [r]).
Proof.
  intros [Hs Hi] Hk Hw Hr Hop. rewrite <-app_assoc. cbn. split.
  - intros i q [Hq|[Hle Hq]]%lookup_app_Some; [by apply Hs|].
    destruct (i - length l)%nat as [|[|n]] eqn:E; cbn in Hq; [| |done];
      injection Hq as <-; lia.
  - intros i q [Hq|[Hle Hq]]%lookup_app_Some Hrec.
    + destruct (Hi i q Hq Hrec) as (i' & v & -> & Hv & ?). exists i', v.
      split; [done|]. split; [by apply lookup_app_l_Some|done].
    + destruct (i - length l)%nat as [|[|n]] eqn:E; cbn in Hq; [| |done]; injection Hq as <-.
      { congruence. }
      exists (length l), w. split; [lia|]. split; [|by rewrite Hop].
      rewrite lookup_app_r, Nat.sub_diag by lia. done.
Qed.

(** *** Evidence coverage *)

(** What a complete obligation means: every required ordinal has a launched process of the
    role and an accepted attestation of the event from that very process epoch, and there is
    no attestation of the event from anything else. *)
Definition covers (inv : list ProcessIdentity) (acc : list Attestation)
    (o : EvidenceObligation) : Prop :=
  (∀ n, n ∈ required_ordinals o → ∃ p a, process_at inv (ob_role o) n = Some p
    ∧ a ∈ acc ∧ att_obligation_id a = obligation_id o ∧ att_event a = event o
    ∧ role (process a) = ob_role o ∧ ordinal (process a) = n
    ∧ epoch (process a) = epoch p)
  ∧ (∀ a, a ∈ acc → att_obligation_id a = obligation_id o → att_event a = event o →
      role (process a) = ob_role o ∧ ordinal (process a) ∈ required_ordinals o).

Lemma process_at_Some inv r n p :
  process_at inv r n = Some p → p ∈ inv ∧ role p = r ∧ ordinal p = n.
Proof. unfold process_at. intros [Hp Hb]%find_last_Some. by reflect. Qed.

Lemma obligation_covered_covers inv acc o :
  obligation_covered inv acc o = true → covers inv acc o.
Proof.
  unfold obligation_covered.
  destruct (mapM (process_at inv (ob_role o)) (required_ordinals o)) as [ps|] eqn:Hps; [|done].
  intros Heq. apply bool_decide_eq_true in Heq.
  apply mapM_Some in Hps.
  assert (Hset : ∀ x, x ∈ ((λ p, (ob_role o, ordinal p, epoch p)) <$> ps) ↔
    x ∈ ((λ a, (role (process a), ordinal (process a), epoch (process a))) <$>
          filter (λ a, att_obligation_id a = obligation_id o ∧ att_event a = event o) acc)).
  { intros x. rewrite <-!(elem_of_list_to_set (C := gset (string * Z * Z))). by rewrite Heq. }
  split.
  - intros n Hn. apply list_elem_of_lookup_1 in Hn as [i Hi].
    destruct (Forall2_lookup_l _ _ _ _ _ Hps Hi) as (p & Hp & Hat).
    assert (Hin : (ob_role o, ordinal p, epoch p)
      ∈ ((λ p, (ob_role o, ordinal p, epoch p)) <$> ps)).
    { apply list_elem_of_fmap. exists p. split; [done|]. by eapply list_elem_of_lookup_2. }
    apply Hset, list_elem_of_fmap in Hin as (a & Ha & [[Hid Hev] Hacc]%list_elem_of_filter).
    injection Ha as Hr Ho He. apply process_at_Some in Hat as Hat'.
    destruct Hat' as (_ & _ & <-). by exists p, a.
  - intros a Ha Hid Hev.
    assert (Hin : (role (process a), ordinal (process a), epoch (process a))
      ∈ ((λ a, (role (process a), ordinal (process a), epoch (process a))) <$>
          filter (λ a, att_obligation_id a = obligation_id o ∧ att_event a = event o) acc)).
    { apply list_elem_of_fmap. exists a. split; [done|]. by apply list_elem_of_filter. }
    apply Hset, list_elem_of_fmap in Hin as (p & [= -> -> _] & Hp).
    split; [done|]. apply list_elem_of_lookup_1 in Hp as [i Hi].
    destruct (Forall2_lookup_r _ _ _ _ _ Hps Hi) as (n & Hn & Hat).
    apply process_at_Some in Hat as (_ & _ & ->). by eapply list_elem_of_lookup_2.
Qed.

(** *** The invariant of the model *)

(** The nonces of the attestations in the log. *)
Definition attested (l : list store_record) : list json :=
  omap (λ r, if (kind r =? "attestation")%string then field "nonce" (payload r) else None) l.

Lemma attested_snoc l r :
  attested (l ++ [r]) = attested l
    ++ (if (kind r =? "attestation")%string
        then option_list (field "nonce" (payload r)) else []).
Proof.
  unfold attested. rewrite omap_app. simpl.
  destruct (kind r =? "attestation")%string; [|done]. by destruct (field _ _).
Qed.

Section Invariant.
Context `{Sha256}.

(** An accepted attestation belongs to the current plan, launch and inventory. *)
Record valid_evidence (m : ReferenceModel) (a : Attestation) : Prop := {
  ve_authority : authority a = "host-runtime";
  ve_launch : launch_id m = Some (att_launch_id a);
  ve_process : process_key (process a) ∈ process_key <$> inventory m;
  ve_plan : ∃ p, plan m = Some p ∧ att_plan_id a = plan_id p
    ∧ artifact_id a ∈ plugin_id <$> plugins p;
}.

Record model_inv (m : ReferenceModel) : Prop := {
  mi_early : state m ∈ [State.INTENT; State.RESOLVED] → plan m = None;
  mi_fresh : state m ∈ [State.INTENT; State.RESOLVED; State.PLANNED; State.PREPARED] →
    accepted m = [];
  mi_evidence : Forall (valid_evidence m) (accepted m);
  mi_nodup : NoDup (nonce <$> accepted m);
  mi_used : ∀ a, a ∈ accepted m → nonce a ∈ nonces m;
  mi_effective : state m = State.EFFECTIVE → ∃ p, plan m = Some p
    ∧ generation m = (pred_generation (predecessor p) + 1)%Z
    ∧ forallb (obligation_covered (inventory m) (accepted m)) (obligations p) = true;
  mi_wal : wal_ok (store m);
  mi_attested : NoDup (attested (store m));
  mi_attested_used : ∀ s, JStr s ∈ attested (store m) → s ∈ nonces m;
}.

Lemma model_inv_new g : model_inv (new_model g).
Proof.
  split; cbn; [done|done|done|constructor| |done| |constructor|].
  - intros a Ha. by apply elem_of_nil in Ha.
  - split; cbn; intros i r Hi; by rewrite lookup_nil in Hi.
  - intros s Hs. by apply elem_of_nil in Hs.
Qed.

(** A step that accepts no evidence: it drops what there is, or keeps it with its plan,
    launch and inventory. *)
Lemma model_inv_quiet m m' :
  model_inv m →
  nonces m' = nonces m →
  accepted m' = [] ∨ (accepted m' = accepted m ∧ plan m' = plan m
    ∧ launch_id m' = launch_id m ∧ inventory m' = inventory m) →
  (state m' ∈ [State.INTENT; State.RESOLVED] → plan m' = None) →
  (state m' ∈ [State.INTENT; State.RESOLVED; State.PLANNED; State.PREPARED] →
    accepted m' = []) →
  (state m' = State.EFFECTIVE → ∃ p, plan m' = Some p
    ∧ generation m' = (pred_generation (predecessor p) + 1)%Z
    ∧ forallb (obligation_covered (inventory m') (accepted m')) (obligations p) = true) →
  wal_ok (store m') → attested (store m') = attested (store m) →
  model_inv m'.
Proof.
  intros [_ _ Hev Hnd Hu _ _ Hat Hatu] Hn Hacc He Hf Heff Hw Ha.
  destruct Hacc as [Hacc|(Hacc & Hp & Hl & Hi)]; split; rewrite ?Hacc, ?Ha, ?Hn; auto.
  - constructor.
  - intros a Hin. by apply elem_of_nil in Hin.
  - rewrite <-Hacc. exact Heff.
  - rewrite <-Hacc. exact Hf.
  - eapply Forall_impl; [exact Hev|]. intros a [? ? ? ?].
    split; [done|by rewrite Hl|by rewrite Hi|by rewrite Hp].
  - rewrite <-Hacc. exact Heff.
Qed.

Lemma wal_ok_append m k p :
  wal_ok (store m) → k ≠ "receipt" → wal_ok (store (store_append k p m)).
Proof. intros. by apply wal_ok_snoc. Qed.

Lemma wal_ok_intent_receipt m (f : ReferenceModel → ReferenceModel) p q :
  wal_ok (store m) → store (f (store_append "wal" p m)) = store (store_append "wal" p m) →
  field "operation" p = field "operation" q →
  wal_ok (store (store_append "receipt" q (f (store_append "wal" p m)))).
Proof.
  intros Hm Hf Hop. unfold store_append at 1. cbn [store]. rewrite Hf.
  apply wal_ok_pair; cbn; auto. rewrite length_app. cbn. lia.
Qed.

Lemma attested_append m k p :
  k ≠ "attestation" → attested (store (store_append k p m)) = attested (store m).
Proof.
  intros Hk. cbn. rewrite attested_snoc. cbn.
  destruct (String.eqb_spec k "attestation"); [done|]. apply app_nil_r.
Qed.

Ltac in_states := first
  [ intros Hst; cbn in Hst; repeat (apply elem_of_cons in Hst as [Hst|Hst]; [discriminate|]);
    by apply elem_of_nil in Hst
  | intros Hst; discriminate Hst ].

(** The state of a step that has passed its guard. *)
Ltac at_state := match goal with Hs : state ?m ∈ _ |- _ =>
  repeat (apply elem_of_cons in Hs as [Hs|Hs]; [|]);
  try (by apply elem_of_nil in Hs) end.

Lemma resolve_inv rs ns m :
  model_inv m → wp (resolve rs ns) (λ _, model_inv) (λ _, model_inv) m.
Proof.
  intros Hm. unfold resolve. model_steps; auto. at_state.
  apply (model_inv_quiet m); cbn; auto using mi_wal; try in_states.
  - intros _. apply (mi_early m Hm). rewrite H0. constructor.
  - intros _. apply (mi_fresh m Hm). rewrite H0. constructor.
Qed.

Lemma make_plan_inv pls h cs obs pred fb m :
  model_inv m →
  wp (make_plan pls h cs obs pred fb) (λ _, model_inv) (λ _, model_inv) m.
Proof.
  intros Hm. unfold make_plan. model_steps; auto. at_state.
  assert (Hacc : accepted m = []).
  { apply (mi_fresh m Hm). rewrite H0. do 1 constructor. constructor. }
  apply (model_inv_quiet m); cbn -[attested]; auto; try in_states.
  - by apply wal_ok_snoc; [apply (mi_wal m Hm)|].
  - rewrite attested_snoc. cbn. by rewrite app_nil_r.
Qed.

Lemma prepare_inv m : model_inv m → wp prepare (λ _, model_inv) (λ _, model_inv) m.
Proof.
  intros Hm. unfold prepare. model_steps; auto. at_state.
  assert (Hacc : accepted m = []).
  { apply (mi_fresh m Hm). rewrite H0. do 2 constructor. constructor. }
  apply (model_inv_quiet m); cbn -[attested store_append]; auto; try in_states.
  - apply (wal_ok_intent_receipt (set_state State.PREPARING m) id); [exact (mi_wal m Hm)|done..].
  - by rewrite !attested_append.
Qed.

Lemma launch_inv l inv m :
  model_inv m → wp (launch l inv) (λ _, model_inv) (λ _, model_inv) m.
Proof.
  intros Hm. unfold launch. model_steps; auto. at_state.
  assert (Hacc : accepted m = []).
  { apply (mi_fresh m Hm). rewrite H0. do 3 constructor. constructor. }
  apply (model_inv_quiet m); cbn -[attested store_append]; auto; try in_states.
  - apply (wal_ok_intent_receipt (set_launch l inv (set_state State.LAUNCHING m)) id);
      [exact (mi_wal m Hm)|done..].
  - by rewrite !attested_append.
Qed.

Lemma attest_inv item now m :
  model_inv m → wp (attest item now) (λ _, model_inv) (λ _, model_inv) m.
Proof.
  intros Hm. unfold attest. model_steps; auto. reflect.
  apply dec_stable in H5, H9.
  assert (Hve : valid_evidence m item).
  { split; [done| |done|by eexists]. unfold launch_is in *. by reflect. }
  destruct Hm as [Hearly Hfresh Hev Hnd Hu Heff Hw Hat Hatu].
  split; cbn -[attested].
  - exact Hearly.
  - intros Hst. exfalso. apply elem_of_cons in H0 as [E|H0].
    + rewrite E in Hst. revert Hst. in_states.
    + apply list_elem_of_singleton in H0. rewrite H0 in Hst. revert Hst. in_states.
  - apply Forall_app. split; [|constructor; [|constructor]].
    + eapply Forall_impl; [exact Hev|]. by intros a [? ? ? ?].
    + by destruct Hve.
  - rewrite fmap_app. apply NoDup_app. split; [done|]. split; [|apply NoDup_singleton].
    intros n (a & -> & Ha)%list_elem_of_fmap Hn%list_elem_of_singleton.
    apply Hu in Ha. rewrite Hn in Ha. done.
  - intros a [Ha|Ha%list_elem_of_singleton]%elem_of_app; apply elem_of_union.
    + right. by apply Hu.
    + left. subst. by apply elem_of_singleton.
  - intros E. rewrite E in H0. revert H0. in_states.
  - by apply wal_ok_snoc.
  - rewrite attested_snoc. cbn. apply NoDup_app. split; [done|].
    split; [|apply NoDup_singleton].
    intros j Hj Hn%list_elem_of_singleton. subst j. by apply Hatu in Hj.
  - intros n. rewrite attested_snoc. cbn.
    intros [Hn|Hn%list_elem_of_singleton]%elem_of_app; apply elem_of_union.
    + right. by apply Hatu.
    + left. injection Hn as ->. by apply elem_of_singleton.
Qed.

Lemma commit_inv g m : model_inv m → wp (commit g) (λ _, model_inv) (λ _, model_inv) m.
Proof.
  intros Hm. unfold commit. model_steps; auto. at_state. reflect.
  apply (model_inv_quiet m); cbn -[attested store_append]; auto; try in_states.
  - intros _. exists p. split; [done|]. split; [cbn; lia|]. cbn -[forallb].
    match goal with Hp : plan m = Some ?q |- _ => assert (q = p) as <- by congruence end.
    done.
  - apply (wal_ok_intent_receipt (set_state State.COMMIT_READY m)
      (set_generation (generation m + 1))); [exact (mi_wal m Hm)|done..].
  - cbn -[attested store_append]. rewrite attested_append by done. cbn.
    by rewrite attested_snoc, app_nil_r.
Qed.

Lemma rollback_inv reason ok m :
  model_inv m → wp (rollback reason ok) (λ _, model_inv) (λ _, model_inv) m.
Proof.
  intros Hm. unfold rollback. model_steps; auto.
  all: apply (model_inv_quiet m); cbn -[attested store_append]; auto; try in_states.
  all: try (by rewrite !attested_append).
  all: apply (wal_ok_intent_receipt (set_state State.ROLLBACK m) id);
    [exact (mi_wal m Hm)|done..].
Qed.

Lemma lease_lost_inv m :
  model_inv m → wp external_lease_lost (λ _, model_inv) (λ _, model_inv) m.
Proof.
  intros Hm. unfold external_lease_lost. model_steps; auto.
  all: assert (Hd : model_inv (set_state State.DEGRADED m))
    by (apply (model_inv_quiet m); cbn; auto using mi_wal; in_states).
  - apply (model_inv_quiet m); cbn; auto using mi_wal; in_states.
  - by apply rollback_inv.
Qed.

Lemma recover_inv m :
  model_inv m → wp recover_after_crash (λ _, model_inv) (λ _, model_inv) m.
Proof.
  intros Hm. unfold recover_after_crash. model_steps; auto.
  apply (model_inv_quiet m); cbn -[attested]; auto; try in_states.
  - by apply wal_ok_snoc; [apply (mi_wal m Hm)|].
  - rewrite attested_snoc. cbn. by rewrite app_nil_r.
Qed.

Lemma exec_inv c m : model_inv m → model_inv (exec c m).2.
Proof.
  intros Hm. apply (wp_run_any _ model_inv). destruct c; cbn [exec].
  - by apply resolve_inv.
  - apply wp_bind. eapply wp_mono; [by apply make_plan_inv|done..].
  - by apply prepare_inv.
  - by apply launch_inv.
  - by apply attest_inv.
  - apply wp_bind. eapply wp_mono; [by apply commit_inv|done..].
  - by apply lease_lost_inv.
  - by apply rollback_inv.
  - by apply recover_inv.
Qed.

Lemma execution_inv g0 cs m : execution g0 cs m → model_inv m.
Proof. induction 1; [apply model_inv_new|by apply exec_inv]. Qed.
End Invariant.

(** ** Properties *)

Section Properties.
Context `{Sha256}.

(** Effectiveness is earned: whenever an execution of the model, including failing calls,
    crashes and lease losses, is in state Effective, the generation is the successor of the
    plan's predecessor generation, every obligation of the plan is covered (each required
    ordinal by an attestation of the launched process epoch, no attestation of the event from
    any other process), and every accepted attestation comes from the host runtime and names
    the current plan, launch, inventory and a planned artifact. *)
Theorem effective_covered g0 cs m :
  execution g0 cs m → state m = State.EFFECTIVE →
  ∃ p, plan m = Some p ∧ generation m = (pred_generation (predecessor p) + 1)%Z
    ∧ (∀ o, o ∈ obligations p → covers (inventory m) (accepted m) o)
    ∧ Forall (valid_evidence m) (accepted m).
Proof.
  intros Hm%execution_inv Hs. destruct (mi_effective m Hm Hs) as (p & Hp & Hg & Hc).
  exists p. split; [done|]. split; [done|]. split; [|by apply mi_evidence].
  intros o Ho. apply obligation_covered_covers.
  rewrite forallb_forall in Hc. apply Hc. by apply list_elem_of_In.
Qed.

(** No nonce is accepted twice over the whole life of a model, not even across a crash
    recovery, which forgets the accepted evidence: the attestation records of the log carry
    pairwise different nonces. *)
Theorem evidence_not_replayed g0 cs m : execution g0 cs m → NoDup (attested (store m)).
Proof. intros Hm%execution_inv. by apply mi_attested. Qed.

(** The durable log is a write-ahead log: in every execution its records are numbered
    0, 1, ... and every receipt directly follows the intent of the same operation. *)
Theorem log_intent_before_receipt g0 cs m : execution g0 cs m → wal_ok (store m).
Proof. intros Hm%execution_inv. by apply mi_wal. Qed.

Definition commit_enabled (g : Z) (m : ReferenceModel) : Prop :=
  state m = State.OBSERVING ∧ ∃ p, plan m = Some p ∧ g = generation m
    ∧ pred_generation (predecessor p) = generation m
    ∧ ∀ o, o ∈ obligations p → obligation_covered (inventory m) (accepted m) o = true.

(** Commit is an atomic compare-and-swap: it succeeds exactly when the model observes a
    plan whose predecessor generation and the caller's expected generation both are the
    current one and every obligation is covered; then it logs intent and receipt, increments
    the generation and becomes Effective. In every other case it raises and changes nothing. *)
Theorem commit_spec g m :
  match commit g m with
  | (Ok g', m') => commit_enabled g m ∧ g' = (g + 1)%Z
      ∧ m' = mkModel State.EFFECTIVE g'
          (store m ++
            [mkRecord (Z.of_nat (length (store m))) "wal"
               (JObj [("operation", JStr "commit"); ("from", JInt g)]);
             mkRecord (Z.of_nat (S (length (store m)))) "receipt"
               (JObj [("operation", JStr "commit"); ("generation", JInt g')])])
          (plan m) (launch_id m) (inventory m) (nonces m) (accepted m)
  | (Err _, m') => ¬ commit_enabled g m ∧ m' = m
  end.
Proof.
  assert (Hw : wp (commit g)
    (λ g' m', commit_enabled g m ∧ g' = (g + 1)%Z
      ∧ m' = mkModel State.EFFECTIVE g'
          (store m ++
            [mkRecord (Z.of_nat (length (store m))) "wal"
               (JObj [("operation", JStr "commit"); ("from", JInt g)]);
             mkRecord (Z.of_nat (S (length (store m)))) "receipt"
               (JObj [("operation", JStr "commit"); ("generation", JInt g')])])
          (plan m) (launch_id m) (inventory m) (nonces m) (accepted m))
    (λ _ m', ¬ commit_enabled g m ∧ m' = m) m); [|exact Hw].
  unfold commit, commit_enabled. model_steps; reflect.
  - split; [|done]. intros (_ & q & Hq & -> & Hg & _).
    assert (q = p) as -> by congruence. rewrite Hg, Z.eqb_refl in *. done.
  - split; [|done]. intros (_ & q & Hq & _ & _ & Hc).
    match goal with Hf : forallb _ (obligations ?p') = false |- _ =>
      assert (q = p') as -> by congruence; apply not_true_iff_false in Hf; apply Hf end.
    apply forallb_forall.
    intros o Ho. apply Hc. by apply list_elem_of_In.
  - apply list_elem_of_singleton in H0. assert (g = generation m) as -> by lia.
    match goal with Hp : plan m = Some ?q, Hq : plan m = Some p |- _ =>
      assert (q = p) as -> by congruence end.
    split; [|split; [done|]].
    + split; [done|]. exists p. split; [done|]. split; [done|]. split; [lia|].
      intros o Ho. match goal with Hc : forallb _ _ = true |- _ =>
        rewrite forallb_forall in Hc; apply Hc end. by apply list_elem_of_In.
    + unfold store_append; cbn. rewrite <-app_assoc, length_app. cbn.
      by rewrite Nat.add_1_r.
  - split; [|done]. intros (_ & q & Hq & _). congruence.
  - split; [|done]. intros (_ & q & Hq & _). congruence.
  - split; [|done]. intros (Hs & _). apply H0. rewrite Hs. constructor.
Qed.
End Properties.

(** ** Concrete runs *)

Module Demo.
Definition plugin := mkPluginIdentity "vllm-hust" "ascend" "0.1.0" "aa".
Definition the_host := mkHostCompatibility "vllm" "0.11.0" "ascend" "1".
Definition worker := mkProcessIdentity "node0" "worker" 0 "boot-1" 7.
Definition obligation := mkEvidenceObligation "ob-1" "worker" "patch-applied" [0%Z].
Definition pred := mkPredecessorSnapshot 3 None [].
Definition claim (o m : string) := mkResourceClaim "urn:ecpa:resource:attention" o m.
Definition the_plan := mkPlan [plugin] the_host [claim "ascend" "exclusive"] [obligation] pred false.
Definition evidence := mkAttestation (plan_id the_plan) "launch-1" worker "ob-1" "patch-applied"
  "n1" 0 100 (plugin_id plugin) "host-runtime" "issuer" "k1" 10 "ed" "ad".
Definition calls : list call :=
  [CResolve ["vllm-hust"] "vllm-hust";
   CMakePlan [plugin] the_host [claim "ascend" "exclusive"] [obligation] pred false;
   CCommit 3; CPrepare; CLaunch "launch-1" [worker]; CAttest evidence 50;
   CAttest evidence 51; CCommit 3].
Definition run (g0 : Z) (cs : list call) : ReferenceModel :=
  foldl (λ m c, (exec c m).2) (new_model g0) cs.

Lemma run_execution g0 cs : execution g0 cs (run g0 cs).
Proof.
  unfold run. induction cs as [|c cs IH] using rev_ind; [constructor|].
  rewrite foldl_app. by constructor.
Qed.
End Demo.

Lemma effective_covered_witness :
  ∃ p, plan (Demo.run 3 Demo.calls) = Some p
    ∧ generation (Demo.run 3 Demo.calls) = (pred_generation (predecessor p) + 1)%Z
    ∧ (∀ o, o ∈ obligations p → covers (inventory (Demo.run 3 Demo.calls))
         (accepted (Demo.run 3 Demo.calls)) o)
    ∧ Forall (valid_evidence (Demo.run 3 Demo.calls)) (accepted (Demo.run 3 Demo.calls)).
Proof.
  apply (effective_covered 3 Demo.calls); [apply Demo.run_execution|vm_compute; reflexivity].
Defined.

Lemma evidence_not_replayed_witness :
  attested (store (Demo.run 3 Demo.calls)) = [JStr "n1"]
  ∧ NoDup (attested (store (Demo.run 3 Demo.calls))).
Proof.
  split; [vm_compute; reflexivity|].
  apply (evidence_not_replayed 3 Demo.calls), Demo.run_execution.
Defined.

Lemma log_intent_before_receipt_witness :
  length (store (Demo.run 3 Demo.calls)) = 8%nat ∧ wal_ok (store (Demo.run 3 Demo.calls)).
Proof.
  split; [vm_compute; reflexivity|].
  apply (log_intent_before_receipt 3 Demo.calls), Demo.run_execution.
Defined.

(** Finding: the conflict check of [make_plan] depends on the order of the claims.  An
    exclusive claim and a shared claim of another owner on one resource are refused in one
    order and accepted in another, because a later claim of the same owner overwrites the
    exclusive one before the other owner's claim is compared. *)
Theorem claim_conflicts_order_dependent :
  let x := Demo.claim "a" "exclusive" in
  let y := Demo.claim "a" "shared" in
  let z := Demo.claim "b" "shared" in
  [x; y; z] ≡ₚ [y; x; z]
  ∧ normalize_claims [] [x; y; z] = Ok [(uri z, z)]
  ∧ normalize_claims [] [y; x; z]
    = Err (ContractError RESOURCE_CONFLICT "urn:ecpa:resource:attention: a vs b").
Proof. cbn zeta. split; [constructor|]. split; vm_compute; reflexivity. Qed.
