(* ===== verification/ExposureGate.v ===== *)
(** * ExposureGate: the durable reference ExposureGate

    src/vllm_hust_ext/exposure_gate.py: the gate's SQLite tables as a record of lists, its
    methods as programs over a world that also holds the armed fault points, the clock and
    the traffic authority, and the traffic authority as a type class with the in-process
    [DeterministicTrafficAdapter] as an instance.  A gate database is only changed inside
    [transaction], which undoes the database writes, and nothing else, of a body that
    raises.  The theorems are in GateInvariant.v, GateRecovery.v and GateOracle.v. *)

From S2P Require Import Prelude Effects Json Sha256.

Local Open Scope string_scope.
Local Open Scope list_scope.

(** ** Data *)

Module GateState.
Variant t :=
  | PREDECESSOR_OPEN | CANDIDATE_STAGED | CANDIDATE_CLOSED | OPENING | CANDIDATE_OPEN
  | DRAINING | ROLLED_BACK | FAILED_SAFE | SAFETY_UNKNOWN.

Definition value (s : t) : string :=
  match s with
  | PREDECESSOR_OPEN => "PREDECESSOR_OPEN"
  | CANDIDATE_STAGED => "CANDIDATE_STAGED"
  | CANDIDATE_CLOSED => "CANDIDATE_CLOSED"
  | OPENING => "OPENING"
  | CANDIDATE_OPEN => "CANDIDATE_OPEN"
  | DRAINING => "DRAINING"
  | ROLLED_BACK => "ROLLED_BACK"
  | FAILED_SAFE => "FAILED_SAFE"
  | SAFETY_UNKNOWN => "SAFETY_UNKNOWN"
  end.

#[export] Instance eq_dec : EqDecision t.
Proof. solve_decision. Defined.
End GateState.
Export (hints) GateState.

Module RollbackClass.
Variant t := RESTORED_STRONG | BEHAVIORAL | FAILED_SAFE | SAFETY_UNKNOWN.

Definition value (c : t) : string :=
  match c with
  | RESTORED_STRONG => "RESTORED_STRONG"
  | BEHAVIORAL => "BEHAVIORAL"
  | FAILED_SAFE => "FAILED_SAFE"
  | SAFETY_UNKNOWN => "SAFETY_UNKNOWN"
  end.

#[export] Instance eq_dec : EqDecision t.
Proof. solve_decision. Defined.
End RollbackClass.
Export (hints) RollbackClass.

Record AdmissionRequest := mkRequest { request_id : string; admitted_at : Z }.

Record AdmissionResult := mkAdmissionResult {
  finished_at : Z; res_result : option string; res_abort : option string;
}.

(** A snapshot is a JSON value, [None] is [JNull]. *)
Record RouteState := mkRoute {
  route_generation : option Z; fence : string; snapshot : json;
}.

Record LeaseGrant := mkGrant { holder : string; fencing_token : Z; expires_at : Z }.

Record OpenProof := mkProof {
  proof_plan_id : string; proof_generation : Z; evidence_count : Z;
  evidence_digest : string; coverage_digest : string; lease : LeaseGrant;
  candidate_digest : string;
}.

Record BehavioralOracleResult := mkOracleResult {
  equivalent : bool; observations_digest : string; oracle : string;
}.

Record FailCloseResult := mkFailClose {
  classification : RollbackClass.t; fc_actual_route : option RouteState;
  fc_error : option string;
}.

#[export] Instance RouteState_eq_dec : EqDecision RouteState.
Proof. solve_decision. Defined.
#[export] Instance LeaseGrant_eq_dec : EqDecision LeaseGrant.
Proof. solve_decision. Defined.
#[export] Instance OpenProof_eq_dec : EqDecision OpenProof.
Proof. solve_decision. Defined.

(** [dataclasses.asdict]. *)
#[export] Instance RouteState_json : ToJson RouteState := λ r,
  JObj [("generation", to_json (route_generation r)); ("fence", JStr (fence r));
        ("snapshot", snapshot r)].
#[export] Instance LeaseGrant_json : ToJson LeaseGrant := λ g,
  JObj [("holder", JStr (holder g)); ("fencing_token", JInt (fencing_token g));
        ("expires_at", JInt (expires_at g))].
Definition proof_fields (p : OpenProof) : list (string * json) :=
  [("plan_id", JStr (proof_plan_id p)); ("generation", JInt (proof_generation p));
   ("evidence_count", JInt (evidence_count p)); ("evidence_digest", JStr (evidence_digest p));
   ("coverage_digest", JStr (coverage_digest p)); ("lease", to_json (lease p));
   ("candidate_digest", JStr (candidate_digest p))].
#[export] Instance OpenProof_json : ToJson OpenProof := λ p, JObj (proof_fields p).
#[export] Instance BehavioralOracleResult_json : ToJson BehavioralOracleResult := λ o,
  JObj [("equivalent", JBool (equivalent o));
        ("observations_digest", JStr (observations_digest o)); ("oracle", JStr (oracle o))].

(** [cls( **fields )] of stored fields; the type of a field is checked where Python would
    carry a value of another type along. *)
Definition as_str (j : json) : result string :=
  match j with JStr s => Ok s | _ => Err (TypeError "expected str") end.
Definition as_int (j : json) : result Z :=
  match j with JInt z => Ok z | _ => Err (TypeError "expected int") end.

Definition LeaseGrant_of_json (j : json) : result LeaseGrant :=
  h ← getitem "holder" j ≫= as_str;
  t ← getitem "fencing_token" j ≫= as_int;
  e ← getitem "expires_at" j ≫= as_int;
  Ok (mkGrant h t e).

Definition OpenProof_of_json (detail : json) : result OpenProof :=
  p ← getitem "plan_id" detail ≫= as_str;
  g ← getitem "generation" detail ≫= as_int;
  n ← getitem "evidence_count" detail ≫= as_int;
  e ← getitem "evidence_digest" detail ≫= as_str;
  c ← getitem "coverage_digest" detail ≫= as_str;
  l ← getitem "lease" detail ≫= LeaseGrant_of_json;
  d ← getitem "candidate_digest" detail ≫= as_str;
  Ok (mkProof p g n e c l d).

Lemma LeaseGrant_roundtrip g : LeaseGrant_of_json (to_json g) = Ok g.
Proof. by destruct g. Qed.

Lemma OpenProof_roundtrip p extra :
  OpenProof_of_json (JObj (proof_fields p ++ extra)) = Ok p.
Proof. by destruct p as [? ? ? ? ? [? ? ?] ?]. Qed.

(** *** Tables *)

Module GateRow.
Record t := mk {
  state : GateState.t;
  predecessor_generation : Z;
  candidate_generation : Z;
  predecessor_json : json;
  candidate_json : json;
  route_generation : option Z;
  route_fence : string;
  lease_json : json;
  transition_seq : Z;
  revision : Z;
  schema_version : Z;
  proof_digest : option string;
  candidate_digest : string;
  observed_candidate_digest : option string;
  predecessor_digest : string;
  observed_predecessor_digest : option string;
}.
End GateRow.

Variant record_kind := intent | receipt.

Definition kind_value (k : record_kind) : string :=
  match k with intent => "intent" | receipt => "receipt" end.

#[export] Instance record_kind_eq_dec : EqDecision record_kind.
Proof. solve_decision. Defined.

Module Transition.
Record t := mk {
  seq : Z;
  generation : Z;
  kind : record_kind;
  operation : string;
  operation_id : string;
  from_state : option GateState.t;
  to_state : option GateState.t;
  fence : option string;
  at_ : Z;
  detail_json : json;
}.
End Transition.

Module Admission.
Record t := mk {
  request_id : string;
  route_epoch : string;
  chosen_generation : Z;
  admitted_at : Z;
  finished_at : option Z;
  result : option string;
  abort : option string;
  transition_seq : Z;
}.
End Admission.

Variant event_kind := admit_event | finish_event.

Definition event_kind_value (k : event_kind) : string :=
  match k with admit_event => "admit" | finish_event => "finish" end.

Module AdmissionEvent.
Record t := mk {
  seq : Z;
  request_id : string;
  kind : event_kind;
  chosen_generation : Z;
  route_epoch : string;
  at_ : Z;
  transition_seq : Z;
  detail_json : json;
}.
End AdmissionEvent.

Record GateDb := mkDb {
  gate_state : option GateRow.t;
  gate_transition : list Transition.t;
  admission : list Admission.t;
  admission_event : list AdmissionEvent.t;
}.

(** The tables [_schema] creates. *)
Definition empty_db : GateDb := mkDb None [] [] [].

(** ** The traffic authority *)

(** [TrafficAuthorityAdapter], with a state [T] of its own; every method may raise. *)
Class TrafficAuthorityAdapter (T : Type) := {
  traffic_authority : T → LeaseGrant;
  behavioral_restore : T → bool;
  traffic_close : Z → M T unit;
  traffic_open : Z → string → json → LeaseGrant → Z → M T unit;
  traffic_close_all : M T unit;
  traffic_restore : Z → string → json → M T RouteState;
  traffic_lease_valid : LeaseGrant → Z → M T bool;
  traffic_query_route : M T RouteState;
}.

Module DeterministicTrafficAdapter.
Record t := mk {
  route : RouteState;
  authority : LeaseGrant;
  faults : gset string;
  behavioral : bool;
  rollback_fails : bool;
}.

Definition init (predecessor_generation : Z) (predecessor_snapshot : json)
    (authority : option LeaseGrant) (faults : gset string)
    (behavioral_restore rollback_fails : bool) : t :=
  mk (mkRoute (Some predecessor_generation)
        ("fence-" +:+ z_str predecessor_generation) predecessor_snapshot)
     (default (mkGrant "manager" 1 (2 ^ 62)) authority) faults behavioral_restore
     rollback_fails.

Definition set_route (r : RouteState) (s : t) : t :=
  mk r (authority s) (faults s) (behavioral s) (rollback_fails s).
Definition disarm (point : string) (s : t) : t :=
  mk (route s) (authority s) (faults s ∖ {[point]}) (behavioral s) (rollback_fails s).

Definition _hit (point : string) : M t unit :=
  armed ← gets faults;
  when (bool_decide (point ∈ armed)) (modify (disarm point);; raise (InjectedCrash point)).

Definition close (generation : Z) : M t unit := _hit "close".

Definition open (generation : Z) (fence : string) (snapshot : json) (grant : LeaseGrant)
    (now : Z) : M t unit :=
  _hit "open.before";;
  current ← gets authority;
  raise_if (negb (bool_decide (current = grant)) || (expires_at grant <? now)%Z)
    (GateError "lease changed or expired before traffic open");;
  modify (set_route (mkRoute (Some generation) fence snapshot));;
  _hit "open.after".

Definition close_all : M t unit :=
  _hit "close_all";;
  modify (set_route (mkRoute None "closed" JNull)).

(** [dict(snapshot)]; the gate only restores mappings. *)
Definition dict_copy (j : json) : result json :=
  match j with JObj _ => Ok j | _ => Err (TypeError "object is not a mapping") end.

Definition restore (generation : Z) (fence : string) (snapshot : json) : M t RouteState :=
  fails ← gets rollback_fails;
  raise_if fails (GateError "rollback failed");;
  copy ← lift_result (dict_copy snapshot);
  b ← gets behavioral;
  let restored := if b : bool then JObj [("behaviorally_equivalent", JBool true)] else copy in
  let r := mkRoute (Some generation) fence restored in
  modify (set_route r);;
  mret r.

Definition lease_valid (grant : LeaseGrant) (now : Z) : M t bool :=
  current ← gets authority;
  mret (bool_decide (current = grant) && (now <=? expires_at grant)%Z).

Definition query_route : M t RouteState :=
  _hit "route.query";;
  gets route.
End DeterministicTrafficAdapter.

#[export] Instance deterministic_adapter :
    TrafficAuthorityAdapter DeterministicTrafficAdapter.t := {
  traffic_authority := DeterministicTrafficAdapter.authority;
  behavioral_restore := DeterministicTrafficAdapter.behavioral;
  traffic_close := DeterministicTrafficAdapter.close;
  traffic_open := DeterministicTrafficAdapter.open;
  traffic_close_all := DeterministicTrafficAdapter.close_all;
  traffic_restore := DeterministicTrafficAdapter.restore;
  traffic_lease_valid := DeterministicTrafficAdapter.lease_valid;
  traffic_query_route := DeterministicTrafficAdapter.query_route;
}.

(** ** The gate's world *)

Record World (T : Type) := mkWorld {
  db : GateDb;
  faults : gset string;
  ticks : nat;
  own_authority : option LeaseGrant;
  traffic : T;
}.
Arguments mkWorld {T}.
Arguments db {T}. Arguments faults {T}. Arguments ticks {T}.
Arguments own_authority {T}. Arguments traffic {T}.

#[export] Instance World_db {T} : Lens (World T) GateDb := {
  lget := db;
  lset d w := mkWorld d (faults w) (ticks w) (own_authority w) (traffic w);
}.
#[export] Instance World_traffic {T} : Lens (World T) T := {
  lget := traffic;
  lset t w := mkWorld (db w) (faults w) (ticks w) (own_authority w) t;
}.

Definition set_faults {T} (f : gset string) (w : World T) : World T :=
  mkWorld (db w) f (ticks w) (own_authority w) (traffic w).
Definition tick {T} (w : World T) : World T :=
  mkWorld (db w) (faults w) (S (ticks w)) (own_authority w) (traffic w).

Definition set_transitions (l : list Transition.t) (d : GateDb) : GateDb :=
  mkDb (gate_state d) l (admission d) (admission_event d).
Definition set_gate_state (r : option GateRow.t) (d : GateDb) : GateDb :=
  mkDb r (gate_transition d) (admission d) (admission_event d).
Definition set_admissions (l : list Admission.t) (d : GateDb) : GateDb :=
  mkDb (gate_state d) (gate_transition d) l (admission_event d).
Definition set_events (l : list AdmissionEvent.t) (d : GateDb) : GateDb :=
  mkDb (gate_state d) (gate_transition d) (admission d) l.

(** *** Updates of columns *)

Definition row_transition (s : GateState.t) (seq : Z) (r : GateRow.t) : GateRow.t :=
  GateRow.mk s (GateRow.predecessor_generation r) (GateRow.candidate_generation r)
    (GateRow.predecessor_json r) (GateRow.candidate_json r) (GateRow.route_generation r)
    (GateRow.route_fence r) (GateRow.lease_json r) seq (GateRow.revision r + 1)
    (GateRow.schema_version r) (GateRow.proof_digest r) (GateRow.candidate_digest r)
    (GateRow.observed_candidate_digest r) (GateRow.predecessor_digest r)
    (GateRow.observed_predecessor_digest r).
Definition row_route (g : option Z) (f : string) (r : GateRow.t) : GateRow.t :=
  GateRow.mk (GateRow.state r) (GateRow.predecessor_generation r)
    (GateRow.candidate_generation r) (GateRow.predecessor_json r) (GateRow.candidate_json r)
    g f (GateRow.lease_json r) (GateRow.transition_seq r) (GateRow.revision r)
    (GateRow.schema_version r) (GateRow.proof_digest r) (GateRow.candidate_digest r)
    (GateRow.observed_candidate_digest r) (GateRow.predecessor_digest r)
    (GateRow.observed_predecessor_digest r).
Definition row_opened (g : Z) (f : string) (seq : Z) (digest : string) (r : GateRow.t)
    : GateRow.t :=
  GateRow.mk (GateRow.state r) (GateRow.predecessor_generation r)
    (GateRow.candidate_generation r) (GateRow.predecessor_json r) (GateRow.candidate_json r)
    (Some g) f (GateRow.lease_json r) seq (GateRow.revision r)
    (GateRow.schema_version r) (GateRow.proof_digest r) (GateRow.candidate_digest r)
    (Some digest) (GateRow.predecessor_digest r) (GateRow.observed_predecessor_digest r).
Definition row_proof (digest : string) (r : GateRow.t) : GateRow.t :=
  GateRow.mk (GateRow.state r) (GateRow.predecessor_generation r)
    (GateRow.candidate_generation r) (GateRow.predecessor_json r) (GateRow.candidate_json r)
    (GateRow.route_generation r) (GateRow.route_fence r) (GateRow.lease_json r)
    (GateRow.transition_seq r) (GateRow.revision r)
    (GateRow.schema_version r) (Some digest) (GateRow.candidate_digest r)
    (GateRow.observed_candidate_digest r) (GateRow.predecessor_digest r)
    (GateRow.observed_predecessor_digest r).
Definition row_closed (digest : string) (r : GateRow.t) : GateRow.t :=
  GateRow.mk (GateRow.state r) (GateRow.predecessor_generation r)
    (GateRow.candidate_generation r) (GateRow.predecessor_json r) (GateRow.candidate_json r)
    (GateRow.route_generation r) (GateRow.route_fence r) (GateRow.lease_json r)
    (GateRow.transition_seq r) (GateRow.revision r)
    (GateRow.schema_version r) (GateRow.proof_digest r) (GateRow.candidate_digest r)
    (GateRow.observed_candidate_digest r) (GateRow.predecessor_digest r) (Some digest).

(** ** The gate *)

Definition schema_version : Z := 2.

(** [ReferenceExposureGate._ALLOWED]. *)
Definition allowed (s : GateState.t) : list GateState.t :=
  match s with
  | GateState.PREDECESSOR_OPEN =>
      [GateState.CANDIDATE_STAGED; GateState.FAILED_SAFE; GateState.SAFETY_UNKNOWN]
  | GateState.CANDIDATE_STAGED =>
      [GateState.CANDIDATE_CLOSED; GateState.ROLLED_BACK; GateState.FAILED_SAFE;
       GateState.SAFETY_UNKNOWN]
  | GateState.CANDIDATE_CLOSED =>
      [GateState.OPENING; GateState.ROLLED_BACK; GateState.FAILED_SAFE;
       GateState.SAFETY_UNKNOWN]
  | GateState.OPENING =>
      [GateState.CANDIDATE_OPEN; GateState.FAILED_SAFE; GateState.SAFETY_UNKNOWN]
  | GateState.CANDIDATE_OPEN =>
      [GateState.DRAINING; GateState.ROLLED_BACK; GateState.FAILED_SAFE;
       GateState.SAFETY_UNKNOWN]
  | GateState.DRAINING =>
      [GateState.CANDIDATE_OPEN; GateState.ROLLED_BACK; GateState.FAILED_SAFE;
       GateState.SAFETY_UNKNOWN]
  | GateState.ROLLED_BACK | GateState.FAILED_SAFE | GateState.SAFETY_UNKNOWN => []
  end.

(** [re.compile(r"sha256:[0-9a-f]{64}\Z").fullmatch(s)]. *)
Definition is_hex (c : ascii) : bool :=
  let n := N_of_ascii c in
  (48 <=? n)%N && (n <=? 57)%N || (97 <=? n)%N && (n <=? 102)%N.

Definition sha256_fullmatch (s : string) : bool :=
  String.prefix "sha256:" s
  && (String.length s =? 71)%nat
  && forallb is_hex (list_ascii_of_string (substring 7 64 s)).

(** [operation.split('.')[0]]. *)
Fixpoint before_dot (s : string) : string :=
  match s with
  | EmptyString => EmptyString
  | String c s' => if bool_decide (c = "."%char) then EmptyString else String c (before_dot s')
  end.

Definition fence_of (g : Z) : string := "fence-" +:+ z_str g.

(** [operation_id or f"{operation.split('.')[0]}:{generation}"]. *)
Definition correlation (operation_id : option string) (operation : string) (generation : Z)
    : string :=
  match operation_id with
  | Some (String _ _ as o) => o
  | _ => before_dot operation +:+ ":" +:+ z_str generation
  end.

(** [actual is not None and actual.generation is None and actual.fence == "closed"]. *)
Definition is_closed (actual : option RouteState) : bool :=
  match actual with
  | Some r => bool_decide (route_generation r = None) && (fence r =? "closed")%string
  | None => false
  end.

Definition closed_class (actual : option RouteState) : RollbackClass.t :=
  if is_closed actual then RollbackClass.FAILED_SAFE else RollbackClass.SAFETY_UNKNOWN.

Definition closed_target (actual : option RouteState) : GateState.t :=
  if is_closed actual then GateState.FAILED_SAFE else GateState.SAFETY_UNKNOWN.

(** [f"{error}{sep}{exc}" if error else str(exc)]. *)
Definition join_error (error : option string) (sep exc : string) : option string :=
  match error with
  | Some (String _ _ as e) => Some (e +:+ sep +:+ exc)
  | _ => Some exc
  end.

Section ReferenceExposureGate.
Context `{Sha256} {T : Type} `{!TrafficAuthorityAdapter T} (clock : nat → Z).

#[local] Abbreviation G := (M (World T)).

Definition _digest (value : json) : string := "sha256:" +:+ sha256_hexdigest (ascii_dumps value).

Definition OpenProof_digest (p : OpenProof) : string := _digest (to_json p).

Definition get_db : G GateDb := gets db.
Definition update_db (f : GateDb → GateDb) : G unit := modify (λ w, lset (f (db w)) w).

(** [UPDATE gate_state SET ... WHERE singleton=1]. *)
Definition update_row (f : GateRow.t → GateRow.t) : G unit :=
  update_db (λ d, set_gate_state (f <$> gate_state d) d).

Definition read_clock : G Z :=
  n ← gets ticks; modify tick;; mret (clock n).

Definition gate_authority : G LeaseGrant :=
  gets (λ w, default (traffic_authority (traffic w)) (own_authority w)).

Definition _row : G GateRow.t :=
  d ← get_db;
  match gate_state d with
  | None => raise (GateError "gate is not initialized")
  | Some row =>
      raise_if (negb (GateRow.schema_version row =? schema_version)%Z)
        (GateError "unknown gate schema version");;
      mret row
  end.

Definition _hit (point : string) : G unit :=
  armed ← gets faults;
  when (bool_decide (point ∈ armed))
    (modify (λ w, set_faults (faults w ∖ {[point]}) w);; raise (InjectedCrash point)).

Definition query_route : G RouteState := zoom (traffic_query_route (T := T)).

Definition _query_route_or_none : G (option RouteState) :=
  try_else query_route (λ _, mret None) (λ r, mret (Some r)).

Definition _append (generation : Z) (kind : record_kind) (operation : string)
    (from_state to_state : option GateState.t) (fence : option string) (detail : json)
    (operation_id : option string) : G Z :=
  now ← read_clock;
  d ← get_db;
  let seq := Z.of_nat (S (length (gate_transition d))) in
  update_db (λ d, set_transitions (gate_transition d ++
    [Transition.mk seq generation kind operation (correlation operation_id operation generation)
       from_state to_state fence now detail]) d);;
  mret seq.

(** [UPDATE gate_state ... WHERE singleton=1 AND revision=?], with its row count. *)
Definition cas_row (revision : Z) (f : GateRow.t → GateRow.t) : G Z :=
  d ← get_db;
  match gate_state d with
  | Some row =>
      if (GateRow.revision row =? revision)%Z
      then update_row f;; mret 1%Z else mret 0%Z
  | None => mret 0%Z
  end.

Definition _transition (generation : Z) (target : GateState.t) (operation : string)
    (kind : record_kind) (detail : json) (fence : option string)
    (operation_id : option string) : G Z :=
  row ← _row;
  let current := GateRow.state row in
  raise_if (negb (bool_decide (target = current)) && bool_decide (target ∉ allowed current))
    (GateError ("invalid gate transition " +:+ GateState.value current +:+ "->"
                +:+ GateState.value target));;
  seq ← _append generation kind operation (Some current) (Some target) fence detail
          operation_id;
  changed ← cas_row (GateRow.revision row) (row_transition target seq);
  raise_if (negb (changed =? 1)%Z) (GateError "gate revision CAS mismatch");;
  mret seq.

Definition stage (candidate_value predecessor_value : json) : G Z :=
  predecessor_generation ← lift_result (getitem "generation" predecessor_value ≫= py_int);
  let candidate_generation := (predecessor_generation + 1)%Z in
  let candidate_digest := _digest candidate_value in
  let predecessor_digest := _digest predecessor_value in
  d ← get_db;
  match gate_state d with
  | Some existing =>
      if (GateRow.candidate_generation existing =? candidate_generation)%Z
         && py_eqb (GateRow.candidate_json existing) candidate_value
         && py_eqb (GateRow.predecessor_json existing) predecessor_value
         && (GateRow.route_fence existing =? fence_of predecessor_generation)%string
      then mret candidate_generation
      else raise (GateError "another candidate is already staged")
  | None =>
      route ← query_route;
      raise_if (negb (bool_decide (route_generation route = Some predecessor_generation))
                || negb (fence route =? fence_of predecessor_generation)%string
                || negb (ascii_dumps (snapshot route) =? ascii_dumps predecessor_value)%string)
        (GateError "actual predecessor generation/fence/snapshot mismatch");;
      transaction GateDb (
        grant ← gate_authority;
        update_db (set_gate_state (Some (GateRow.mk GateState.PREDECESSOR_OPEN
          predecessor_generation candidate_generation predecessor_value candidate_value
          (route_generation route) (fence route) (to_json grant) 0 0 schema_version None
          candidate_digest None predecessor_digest (Some predecessor_digest))));;
        _transition candidate_generation GateState.CANDIDATE_STAGED "stage" receipt
          (JObj [("candidate", candidate_value); ("candidate_digest", JStr candidate_digest);
                 ("predecessor_digest", JStr predecessor_digest)]) None None);;
      mret candidate_generation
  end.

(** The last transaction of [fail_close], [rollback] and of the reconciled fail-close: the
    receipt with the terminal state, and the route as it was observed. *)
Definition record_outcome (generation : Z) (target : GateState.t) (operation : string)
    (detail : json) (operation_id : option string) (actual : option RouteState) : G unit :=
  transaction GateDb (
    _transition generation target operation receipt detail None operation_id;;
    update_row (row_route (actual ≫= route_generation)
      (match actual with Some r => fence r | None => "unknown" end))).

Definition fail_close (generation : Z) (reason : string) : G FailCloseResult :=
  row ← _row;
  raise_if (negb (GateRow.candidate_generation row =? generation)%Z)
    (GateError "stale generation fail-close");;
  transaction GateDb (_append generation intent "fail_close" (Some (GateRow.state row)) None
    (Some "closed") (JObj [("reason", JStr reason)]) None);;
  _hit "fail_close.before_effect";;
  error ← try_else (zoom (traffic_close_all (T := T)))
            (λ exc, mret (Some (exn_str exc))) (λ _, mret None);
  _hit "fail_close.after_effect";;
  '(actual, error) ← try_else query_route
     (λ exc, mret (None, join_error error "; route query: " (exn_str exc)))
     (λ r, mret (Some r, error));
  record_outcome generation (closed_target actual) "fail_close"
    (JObj [("classification", JStr (RollbackClass.value (closed_class actual)));
           ("actual_route", to_json actual); ("error", to_json error)]) None actual;;
  mret (mkFailClose (closed_class actual) actual error).

(** The pending test of [close]: an intent of the operation and no receipt of it. *)
Definition intent_pending (operation_id : string) (l : list Transition.t) : bool :=
  existsb (λ t, (Transition.operation_id t =? operation_id)%string
                && bool_decide (Transition.kind t = intent)) l
  && negb (existsb (λ t, (Transition.operation_id t =? operation_id)%string
                && bool_decide (Transition.kind t = receipt)) l).

(** [close] from the traffic authority's effect on. *)
Definition close_effect (row : GateRow.t) (generation : Z) : G unit :=
  let state := GateRow.state row in
  let operation_id := "close:" +:+ z_str generation in
  _hit "close.before_effect";;
  zoom (traffic_close (T := T) generation);;
  _hit "close.after_effect";;
  actual ← query_route;
  _hit "close.after_query";;
  let observed_digest := _digest (snapshot actual) in
  if negb (bool_decide (route_generation actual = Some (GateRow.predecessor_generation row)))
     || negb (fence actual =? GateRow.route_fence row)%string
     || negb (observed_digest =? GateRow.predecessor_digest row)%string
  then
    transaction GateDb (_append generation receipt "close" (Some state) None
      (Some (fence actual))
      (JObj [("cancelled", JStr "predecessor continuity mismatch");
             ("observed_predecessor_digest", JStr observed_digest)]) (Some operation_id));;
    fail_close generation "predecessor continuity mismatch";;
    raise (GateError "close changed predecessor route identity")
  else
    transaction GateDb (
      _transition generation GateState.CANDIDATE_CLOSED "close" receipt
        (JObj [("actual_route", to_json actual);
               ("observed_predecessor_digest", JStr observed_digest)]) None
        (Some operation_id);;
      update_row (row_closed observed_digest)).

Definition close (generation : Z) : G unit :=
  row ← _row;
  let state := GateRow.state row in
  raise_if (negb (GateRow.candidate_generation row =? generation)%Z)
    (GateError "stale generation close");;
  if bool_decide (state = GateState.CANDIDATE_CLOSED) then mret tt else
  let operation_id := "close:" +:+ z_str generation in
  d ← get_db;
  when (negb (intent_pending operation_id (gate_transition d)))
    (transaction GateDb (
      _append generation intent "close" (Some state) None None (JObj []) (Some operation_id);;
      mret tt));;
  close_effect row generation.

(** The checks of [open] before it looks at the state: the proof is for this generation, plan
    and candidate, names durable evidence, and carries the staged lease, which is valid. *)
Definition open_guards (row : GateRow.t) (generation : Z) (proof : OpenProof) : G unit :=
  raise_if (negb (proof_generation proof =? generation)%Z
            || negb (GateRow.candidate_generation row =? generation)%Z)
    (GateError "stale generation open");;
  let candidate := GateRow.candidate_json row in
  expected_plan ← lift_result (match candidate with
    | JStr _ => Ok candidate
    | _ => getitem "plan_id" candidate
    end);
  raise_if (negb (py_eqb (JStr (proof_plan_id proof)) expected_plan))
    (GateError "open proof plan mismatch");;
  raise_if (negb (candidate_digest proof =? GateRow.candidate_digest row)%string)
    (GateError "open proof candidate snapshot mismatch");;
  raise_if ((evidence_count proof <? 1)%Z || negb (sha256_fullmatch (evidence_digest proof))
            || negb (sha256_fullmatch (coverage_digest proof)))
    (GateError "open proof has no durable evidence coverage");;
  staged_lease ← lift_result (LeaseGrant_of_json (GateRow.lease_json row));
  if bool_decide (lease proof = staged_lease) then
    now ← read_clock;
    valid ← zoom (traffic_lease_valid (T := T) (lease proof) now);
    raise_if (negb valid) (GateError "lease lost")
  else raise (GateError "lease lost").

Definition open_fence (generation : Z) (proof : OpenProof) (row : GateRow.t) : string :=
  "gate-" +:+ z_str generation +:+ "-lease-" +:+ z_str (fencing_token (lease proof)) +:+ "-"
    +:+ substring 7 12 (candidate_digest proof) +:+ "-"
    +:+ z_str (GateRow.transition_seq row + 1).

(** [open] from its intent on. *)
Definition open_effect (row : GateRow.t) (generation : Z) (proof : OpenProof)
    (fence0 : string) : G string :=
  transaction GateDb (
    _transition generation GateState.OPENING "open" intent
      (JObj (proof_fields proof ++ [("proof_digest", JStr (OpenProof_digest proof))]))
      (Some fence0) None;;
    update_row (row_proof (OpenProof_digest proof)));;
  _hit "open.after_intent";;
  now ← read_clock;
  zoom (traffic_open (T := T) generation fence0 (GateRow.candidate_json row) (lease proof) now);;
  _hit "open.after_side_effect";;
  actual ← query_route;
  _hit "open.after_query";;
  let actual_digest := _digest (snapshot actual) in
  if negb (bool_decide (route_generation actual = Some generation))
     || negb (fence actual =? fence0)%string
     || negb (actual_digest =? candidate_digest proof)%string
  then
    transaction GateDb (_append generation receipt "open" (Some GateState.OPENING) None
      (Some fence0) (JObj [("cancelled", JStr "actual candidate route mismatch")])
      (Some ("open:" +:+ z_str generation)));;
    fail_close generation "actual candidate route mismatch";;
    raise (GateError "actual candidate route mismatch")
  else
    transaction GateDb (
      seq ← _transition generation GateState.CANDIDATE_OPEN "open" receipt
        (JObj [("actual_route", JInt generation);
               ("lease_fencing_token", JInt (fencing_token (lease proof)));
               ("proof_digest", JStr (OpenProof_digest proof));
               ("observed_candidate_digest", JStr actual_digest)]) (Some fence0) None;
      update_row (row_opened generation fence0 seq actual_digest));;
    mret fence0.

Definition open (generation : Z) (proof : OpenProof) : G string :=
  row ← _row;
  open_guards row generation proof;;
  let state := GateRow.state row in
  if bool_decide (state = GateState.CANDIDATE_OPEN) then
    raise_if (negb (bool_decide (GateRow.proof_digest row = Some (OpenProof_digest proof))))
      (GateError "idempotent open proof mismatch");;
    mret (GateRow.route_fence row)
  else
    raise_if (bool_decide (state = GateState.OPENING))
      (GateError "opening outcome requires reconcile");;
    _hit "open.before_intent";;
    open_effect row generation proof (open_fence generation proof row).

Definition drain (generation : Z) : G bool :=
  row ← _row;
  raise_if (negb (GateRow.candidate_generation row =? generation)%Z)
    (GateError "stale generation drain");;
  when (negb (bool_decide (GateRow.state row = GateState.DRAINING)))
    (transaction GateDb (
      _transition generation GateState.DRAINING "drain" intent (JObj []) None None;;
      mret tt));;
  d ← get_db;
  let unfinished := length (filter (λ a,
    Admission.chosen_generation a = GateRow.predecessor_generation row
    ∧ Admission.finished_at a = None) (admission d)) in
  if bool_decide (unfinished ≠ 0%nat) then mret false else
  transaction GateDb (
    _transition generation GateState.CANDIDATE_OPEN "drain" receipt
      (JObj [("unfinished_predecessor", JInt 0)]) None None);;
  mret true.

Definition find_admission (rid : string) (l : list Admission.t) : option Admission.t :=
  find (λ a, (Admission.request_id a =? rid)%string) l.

(** [INSERT INTO admission VALUES(...)]: the request id is the primary key. *)
Definition insert_admission (a : Admission.t) : G unit :=
  d ← get_db;
  match find_admission (Admission.request_id a) (admission d) with
  | Some _ => raise (IntegrityError "UNIQUE constraint failed: admission.request_id")
  | None => update_db (λ d, set_admissions (admission d ++ [a]) d)
  end.

(** [INSERT INTO admission_event(...)]. *)
Definition insert_event (rid : string) (kind : event_kind) (chosen : Z) (epoch : string)
    (at_ tseq : Z) (detail : json) : G unit :=
  update_db (λ d, set_events (admission_event d ++
    [AdmissionEvent.mk (Z.of_nat (S (length (admission_event d)))) rid kind chosen epoch at_
       tseq detail]) d).

Definition blocked (s : GateState.t) : bool :=
  bool_decide (s ∈ [GateState.OPENING; GateState.ROLLED_BACK; GateState.FAILED_SAFE;
                    GateState.SAFETY_UNKNOWN]).

Definition pre_open (s : GateState.t) : bool :=
  bool_decide (s ∈ [GateState.PREDECESSOR_OPEN; GateState.CANDIDATE_STAGED;
                    GateState.CANDIDATE_CLOSED]).

(** The first half of [observe]: admit a new request on the route in force. *)
Definition observe_admit (request : AdmissionRequest) : G Admission.t :=
  row0 ← _row;
  let gate_state := GateRow.state row0 in
  raise_if (blocked gate_state)
    (GateError ("admission blocked in " +:+ GateState.value gate_state));;
  actual ← query_route;
  row ← _row;
  match route_generation actual with
  | None => raise (GateError "traffic is failed safe")
  | Some g =>
      raise_if (fence actual =? "closed")%string (GateError "traffic is failed safe");;
      when (pre_open gate_state
            && (negb (g =? GateRow.predecessor_generation row)%Z
                || negb (fence actual =? fence_of (GateRow.predecessor_generation row))%string
                || negb (_digest (snapshot actual) =? GateRow.predecessor_digest row)%string))
        (fail_close (GateRow.candidate_generation row)
           "pre-open predecessor continuity mismatch";;
         raise (GateError "predecessor route identity changed"));;
      raise_if (negb (bool_decide (GateRow.route_generation row = Some g))
                || negb (fence actual =? GateRow.route_fence row)%string
                || ((g =? GateRow.candidate_generation row)%Z
                    && negb (bool_decide (GateRow.observed_candidate_digest row
                                          = Some (_digest (snapshot actual))))))
        (GateError "unknown route state");;
      let a := Admission.mk (request_id request) (fence actual) g (admitted_at request)
                 None None None (GateRow.transition_seq row) in
      transaction GateDb (
        insert_admission a;;
        insert_event (request_id request) admit_event g (fence actual) (admitted_at request)
          (GateRow.transition_seq row) (JObj []));;
      mret a
  end.

(** [UPDATE admission SET ... WHERE request_id=? AND finished_at IS NULL]. *)
Definition finish_row (result : AdmissionResult) (a : Admission.t) : Admission.t :=
  Admission.mk (Admission.request_id a) (Admission.route_epoch a)
    (Admission.chosen_generation a) (Admission.admitted_at a)
    (Some (finished_at result)) (res_result result) (res_abort result)
    (Admission.transition_seq a).

Definition open_request (rid : string) (a : Admission.t) : bool :=
  (Admission.request_id a =? rid)%string && bool_decide (Admission.finished_at a = None).

Definition update_finished (rid : string) (result : AdmissionResult) : G Z :=
  d ← get_db;
  let matching := List.filter (open_request rid) (admission d) in
  update_db (λ d, set_admissions
    ((λ a, if open_request rid a then finish_row result a else a) <$> admission d) d);;
  mret (Z.of_nat (length matching)).

(** The second half of [observe]: record the end of a request. *)
Definition observe_finish (request : AdmissionRequest) (existing : Admission.t)
    (result : AdmissionResult) : G unit :=
  raise_if (Bool.eqb (bool_decide (res_result result = None))
              (bool_decide (res_abort result = None)))
    (GateError "finish requires exactly one of result or abort");;
  raise_if (finished_at result <? Admission.admitted_at existing)%Z
    (GateError "finish precedes admission");;
  raise_if (negb (bool_decide (Admission.finished_at existing = None)))
    (GateError "request finish is immutable");;
  transaction GateDb (
    changed ← update_finished (request_id request) result;
    raise_if (negb (changed =? 1)%Z) (GateError "concurrent request finish");;
    insert_event (request_id request) finish_event (Admission.chosen_generation existing)
      (Admission.route_epoch existing) (finished_at result) (Admission.transition_seq existing)
      (JObj [("result", to_json (res_result result)); ("abort", to_json (res_abort result))])).

Definition observe (request : AdmissionRequest) (result : option AdmissionResult) : G Z :=
  d ← get_db;
  existing ← match find_admission (request_id request) (admission d) with
    | Some a => mret a
    | None => observe_admit request
    end;
  match result with
  | Some r => observe_finish request existing r
  | None => mret tt
  end;;
  mret (Admission.chosen_generation existing).

(** *** Recovery *)

(** [... WHERE operation=? AND kind=? ORDER BY seq DESC LIMIT 1]. *)
Definition is_record (operation : string) (kind : record_kind) (t : Transition.t) : bool :=
  (Transition.operation t =? operation)%string && bool_decide (Transition.kind t = kind).

Definition last_record (operation : string) (kind : record_kind) (l : list Transition.t)
    : option Transition.t := find_last (is_record operation kind) l.

(** The last intent of an operation, when no receipt of the operation follows it. *)
Definition unanswered (operation : string) (l : list Transition.t) : option Transition.t :=
  match last_record operation intent l with
  | None => None
  | Some i =>
      match last_record operation receipt l with
      | None => Some i
      | Some r => if (Transition.seq r <? Transition.seq i)%Z then Some i else None
      end
  end.

(** The last recovery-close intent whose operation id has no receipt. *)
Definition recovery_close_pending (l : list Transition.t) : option Transition.t :=
  find_last (λ t, is_record "open.reconcile.close_all" intent t
    && negb (existsb (λ r, (Transition.operation_id r =? Transition.operation_id t)%string
                           && bool_decide (Transition.kind r = receipt)) l)) l.

Definition reconcile_fail_close (row : GateRow.t) (intent_row : Transition.t)
    : G GateState.t :=
  '(actual, error) ← try_else query_route
     (λ exc, mret (None, Some (exn_str exc))) (λ r, mret (Some r, None));
  record_outcome (GateRow.candidate_generation row) (closed_target actual) "fail_close"
    (JObj [("classification", JStr (RollbackClass.value (closed_class actual)));
           ("reconciled", JBool true); ("actual_route", to_json actual);
           ("error", to_json error)]) (Some (Transition.operation_id intent_row)) actual;;
  mret (closed_target actual).

Definition reconcile_recovery_close (row : GateRow.t) (intent_row : Transition.t)
    : G GateState.t :=
  let generation := GateRow.candidate_generation row in
  _hit "open_recovery_close.before_effect";;
  suppress (zoom (traffic_close_all (T := T)));;
  _hit "open_recovery_close.after_effect";;
  actual ← _query_route_or_none;
  _hit "open_recovery_close.after_query";;
  let target := closed_target actual in
  d ← get_db;
  let open_intent := last_record "open" intent (gate_transition d) in
  transaction GateDb (
    _append generation receipt "open.reconcile.close_all" (Some GateState.OPENING) None
      (Some "closed") (JObj [("actual_route", to_json actual)])
      (Some (Transition.operation_id intent_row));;
    match open_intent with
    | None => raise (TypeError "'NoneType' object is not subscriptable")
    | Some i =>
        _transition generation target "open" receipt
          (JObj [("cancelled", JStr "recovery close"); ("closed", JBool (is_closed actual))]) None
          (Some (Transition.operation_id i));;
        mret tt
    end);;
  mret target.

Definition reconcile_rollback (row : GateRow.t) (intent_row : Transition.t)
    : G GateState.t :=
  let predecessor := GateRow.predecessor_json row in
  let expected_fence := fence_of (GateRow.predecessor_generation row) in
  actual ← _query_route_or_none;
  let restored := match actual with
    | Some r => bool_decide (route_generation r = Some (GateRow.predecessor_generation row))
        && (fence r =? expected_fence)%string
        && (ascii_dumps (snapshot r) =? ascii_dumps predecessor)%string
    | None => false
    end in
  let '(target, class) :=
    if restored then (GateState.ROLLED_BACK, RollbackClass.RESTORED_STRONG)
    else if is_closed actual then (GateState.FAILED_SAFE, RollbackClass.FAILED_SAFE)
    else (GateState.SAFETY_UNKNOWN, RollbackClass.SAFETY_UNKNOWN) in
  transaction GateDb (
    _transition (GateRow.candidate_generation row) target "rollback" receipt
      (JObj [("classification", JStr (RollbackClass.value class)); ("reconciled", JBool true);
             ("actual_route", to_json actual)]) None
      (Some (Transition.operation_id intent_row)));;
  mret target.

(** The receipt that cancels a pending open, the fail-close, and the state reported: the last
    lines of three branches of [reconcile]. *)
Definition cancel_open (generation : Z) (intent_row : Transition.t) (reason : string)
    : G GateState.t :=
  transaction GateDb (
    _append generation receipt "open" (Some GateState.OPENING) None
      (Transition.fence intent_row) (JObj [("cancelled", JStr reason)])
      (Some (Transition.operation_id intent_row)));;
  outcome ← fail_close generation reason;
  mret (if bool_decide (classification outcome = RollbackClass.FAILED_SAFE)
        then GateState.FAILED_SAFE else GateState.SAFETY_UNKNOWN).

(** The receipt of a recovery close and its outcome. *)
Definition finish_close_all (generation : Z) (intent_row : Transition.t) (actual : RouteState)
    (closed_route : option RouteState) (close_error : option string) : G GateState.t :=
  transaction GateDb (
    _append generation receipt "open.reconcile.close_all" (Some GateState.OPENING) None
      (Some "closed")
      (JObj [("actual_generation", to_json (route_generation actual));
             ("actual_route", to_json closed_route); ("error", to_json close_error)])
      (Some ("open-reconcile-close:" +:+ z_str generation)));;
  match close_error with
  | Some _ => cancel_open generation intent_row "open recovery close failed"
  | None =>
      transaction GateDb (
        _transition generation GateState.FAILED_SAFE "open" receipt
          (JObj [("actual_generation", to_json (route_generation actual));
                 ("action", JStr "close_all")]) None
          (Some (Transition.operation_id intent_row));;
        update_row (row_route None "closed"));;
      mret GateState.FAILED_SAFE
  end.

(** The observed route is not the intended candidate: close all routes. *)
Definition reconcile_close_all (generation : Z) (intent_row : Transition.t)
    (actual : RouteState) : G GateState.t :=
  transaction GateDb (
    _append generation intent "open.reconcile.close_all" (Some GateState.OPENING) None
      (Some "closed")
      (JObj [("queried_actual_generation", to_json (route_generation actual))])
      (Some ("open-reconcile-close:" +:+ z_str generation)));;
  _hit "open_recovery_close.before_effect";;
  close_error ← try_else (zoom (traffic_close_all (T := T)))
    (λ exc, mret (Some (exn_str exc))) (λ _, mret None);
  _hit "open_recovery_close.after_effect";;
  '(closed_route, close_error) ← try_else query_route
     (λ exc, mret (None, join_error close_error "; " (exn_str exc)))
     (λ r, mret (Some r, close_error));
  _hit "open_recovery_close.after_query";;
  finish_close_all generation intent_row actual closed_route close_error.

(** Ratify the open whose side effect is observed, or close. *)
Definition reconcile_route (generation : Z) (intent_row : Transition.t) (proof : OpenProof)
    (actual : RouteState) : G GateState.t :=
  let actual_digest := _digest (snapshot actual) in
  if bool_decide (route_generation actual = Some generation)
     && bool_decide (Some (fence actual) = Transition.fence intent_row)
     && (actual_digest =? candidate_digest proof)%string
  then
    transaction GateDb (
      seq ← _transition generation GateState.CANDIDATE_OPEN "open.reconcile" receipt
        (JObj [("queried_actual_route", JInt generation);
               ("observed_candidate_digest", JStr actual_digest)])
        (Some (fence actual)) (Some (Transition.operation_id intent_row));
      update_row (row_opened generation (fence actual) seq actual_digest));;
    mret GateState.CANDIDATE_OPEN
  else reconcile_close_all generation intent_row actual.

(** Whether the persisted proof's digest, lease or authority no longer hold. *)
Definition open_stale (proof : OpenProof) (stored_digest : json) (staged_lease : LeaseGrant)
    : G bool :=
  if negb (py_eqb (JStr (OpenProof_digest proof)) stored_digest)
     || negb (bool_decide (lease proof = staged_lease))
  then mret true
  else
    now ← read_clock;
    valid ← zoom (traffic_lease_valid (T := T) (lease proof) now);
    mret (negb valid).

Definition reconcile_opening (row : GateRow.t) : G GateState.t :=
  let generation := GateRow.candidate_generation row in
  d ← get_db;
  match last_record "open" intent (gate_transition d) with
  | None => raise (TypeError "'NoneType' object is not subscriptable")
  | Some i =>
      let detail := Transition.detail_json i in
      proof ← lift_result (OpenProof_of_json detail);
      stored_digest ← lift_result (getitem "proof_digest" detail);
      staged_lease ← lift_result (LeaseGrant_of_json (GateRow.lease_json row));
      stale ← open_stale proof stored_digest staged_lease;
      if stale : bool then cancel_open generation i "persisted open lease is stale" else
      try_else query_route
        (λ _, cancel_open generation i "open recovery route query failed")
        (reconcile_route generation i proof)
  end.

Definition reconcile : G GateState.t :=
  row ← _row;
  d ← get_db;
  match unanswered "fail_close" (gate_transition d) with
  | Some i => reconcile_fail_close row i
  | None =>
  match recovery_close_pending (gate_transition d) with
  | Some i => reconcile_recovery_close row i
  | None =>
  match unanswered "rollback" (gate_transition d) with
  | Some i => reconcile_rollback row i
  | None =>
      if bool_decide (GateRow.state row = GateState.OPENING) then reconcile_opening row
      else mret (GateRow.state row)
  end end end.

(** *** Rollback *)

(** Close every route and classify what is then observed. *)
Definition close_and_classify : G (RollbackClass.t * option RouteState) :=
  suppress (zoom (traffic_close_all (T := T)));;
  actual ← _query_route_or_none;
  mret (closed_class actual, actual).

(** [behavioral_oracle is not None and ... and self.traffic.behavioral_restore]. *)
Definition oracle_accepts (o : option BehavioralOracleResult) (restores : bool) : bool :=
  match o with
  | Some o => equivalent o && String.prefix "sha256:" (observations_digest o)
              && negb (oracle o =? EmptyString)%string && restores
  | None => false
  end.

(** Restore the predecessor and classify the outcome. *)
Definition rollback_effect (row : GateRow.t) (behavioral_oracle : option BehavioralOracleResult)
    : G (RollbackClass.t * option RouteState) :=
  let predecessor := GateRow.predecessor_json row in
  let predecessor_generation := GateRow.predecessor_generation row in
  let predecessor_fence := fence_of predecessor_generation in
  try_else (zoom (traffic_restore (T := T) predecessor_generation predecessor_fence predecessor))
    (λ _, close_and_classify)
    (λ _,
      actual ← _query_route_or_none;
      restores ← gets (λ w, behavioral_restore (traffic w));
      if match actual with
         | Some r => bool_decide (route_generation r = Some predecessor_generation)
             && py_eqb (snapshot r) predecessor && (fence r =? predecessor_fence)%string
         | None => false
         end
      then mret (RollbackClass.RESTORED_STRONG, actual)
      else if oracle_accepts behavioral_oracle restores
      then mret (RollbackClass.BEHAVIORAL, actual)
      else close_and_classify).

Definition rollback_target (c : RollbackClass.t) : GateState.t :=
  match c with
  | RollbackClass.RESTORED_STRONG | RollbackClass.BEHAVIORAL => GateState.ROLLED_BACK
  | RollbackClass.FAILED_SAFE => GateState.FAILED_SAFE
  | RollbackClass.SAFETY_UNKNOWN => GateState.SAFETY_UNKNOWN
  end.

Definition rollback (generation : Z) (behavioral_oracle : option BehavioralOracleResult)
    : G RollbackClass.t :=
  row ← _row;
  raise_if (negb (GateRow.candidate_generation row =? generation)%Z)
    (GateError "stale generation rollback");;
  transaction GateDb (
    _append generation intent "rollback" (Some (GateRow.state row)) None
      (Some (fence_of (GateRow.predecessor_generation row)))
      (JObj [("behavioral_oracle", to_json behavioral_oracle)]) None);;
  _hit "rollback.after_intent";;
  '(outcome, actual) ← rollback_effect row behavioral_oracle;
  _hit "rollback.after_effect";;
  record_outcome generation (rollback_target outcome) "rollback"
    (JObj [("classification", JStr (RollbackClass.value outcome));
           ("behavioral_oracle", to_json behavioral_oracle);
           ("actual_route", to_json actual)]) None actual;;
  mret outcome.
End ReferenceExposureGate.
