(* ===== verification/GateInvariant.v ===== *)
(** * GateInvariant: what the gate's database always satisfies

    Every gate operation, however it ends (a returned value, an error, an injected crash) and
    whatever the traffic authority does, leaves a well-formed database ([db_ok]) that extends
    the one it started from ([db_le]).  [dwp] is the weakest precondition over the database
    alone: the traffic authority, the clock and the fault points are arbitrary. *)

From S2P Require Import Prelude Effects Json Sha256 ExposureGate.

Local Open Scope string_scope.
Local Open Scope list_scope.

(** ** Weakest preconditions over the database *)

Section Dwp.
Context `{Sha256} {T : Type} `{!TrafficAuthorityAdapter T} (clock : nat → Z).

Definition dwp {A} (m : M (World T) A) (Q : A → GateDb → Prop) (S : exn → GateDb → Prop)
    (d : GateDb) : Prop :=
  ∀ w, db w = d → wp m (λ a w', Q a (db w')) (λ e w', S e (db w')) w.

Lemma dwp_mono {A} (m : M (World T) A) (Q Q' : A → GateDb → Prop) (S S' : exn → GateDb → Prop) d :
  dwp m Q S d → (∀ a d', Q a d' → Q' a d') → (∀ e d', S e d' → S' e d') → dwp m Q' S' d.
Proof. intros Hm HQ HS w Hw. eapply wp_mono; [by apply Hm|intros; auto..]. Qed.

Lemma dwp_ret {A} (a : A) (Q : A → GateDb → Prop) S d : Q a d → dwp (mret a) Q S d.
Proof. by intros HQ w <-. Qed.

Lemma dwp_bind {A B} (m : M (World T) A) (f : A → M (World T) B) Q S d :
  dwp m (λ a, dwp (f a) Q S) S d → dwp (m ≫= f) Q S d.
Proof.
  intros Hm w Hw. apply wp_bind. eapply wp_mono; [by apply Hm| |done].
  intros a w' Ha. by apply Ha.
Qed.

Lemma dwp_raise {A} e (Q : A → GateDb → Prop) (S : exn → GateDb → Prop) d :
  S e d → dwp (raise e) Q S d.
Proof. by intros HS w <-. Qed.

Lemma dwp_raise_if b e (Q : unit → GateDb → Prop) (S : exn → GateDb → Prop) d :
  (b = true → S e d) → (b = false → Q tt d) → dwp (raise_if b e) Q S d.
Proof. intros H1 H2 w <-. apply wp_raise_if; auto. Qed.

Lemma dwp_when b m (Q : unit → GateDb → Prop) (S : exn → GateDb → Prop) d :
  (b = true → dwp m Q S d) → (b = false → Q tt d) → dwp (when b m) Q S d.
Proof. intros H1 H2 w <-. apply wp_when; [intros Hb; by apply H1|auto]. Qed.

Lemma dwp_lift {A} (r : result A) (Q : A → GateDb → Prop) (S : exn → GateDb → Prop) d :
  (∀ a, r = Ok a → Q a d) → (∀ e, r = Err e → S e d) → dwp (lift_result r) Q S d.
Proof. intros H1 H2 w <-. apply wp_lift_result; auto. Qed.

Lemma dwp_try_else {A B} (m : M (World T) A) (h : exn → M (World T) B) k Q S d :
  dwp m (λ a, dwp (k a) Q S) (λ e, dwp (h e) Q S) d → dwp (try_else m h k) Q S d.
Proof.
  intros Hm w Hw. apply wp_try_else. eapply wp_mono; [by apply Hm| |].
  - intros a w' Ha. by apply Ha.
  - intros e w' He. by apply He.
Qed.

Lemma dwp_suppress {A} (m : M (World T) A) (Q : unit → GateDb → Prop) S d :
  dwp m (λ _, Q tt) (λ _, Q tt) d → dwp (suppress m) Q S d.
Proof. intros Hm w Hw. apply wp_suppress. by apply Hm. Qed.

(** The traffic authority cannot touch the gate's database. *)
Lemma dwp_traffic {A} (m : M T A) (Q : A → GateDb → Prop) (S : exn → GateDb → Prop) d :
  (∀ a, Q a d) → (∀ e, S e d) → dwp (zoom m) Q S d.
Proof.
  intros H1 H2 w <-. apply wp_zoom. unfold wp.
  destruct (m (lget w)) as [[a|e] t]; [apply H1|apply H2].
Qed.

Lemma dwp_query (Q : RouteState → GateDb → Prop) (S : exn → GateDb → Prop) d :
  (∀ r, Q r d) → (∀ e, S e d) → dwp query_route Q S d.
Proof. apply dwp_traffic. Qed.

Lemma dwp_query_or_none (Q : option RouteState → GateDb → Prop) S d :
  (∀ r, Q r d) → dwp _query_route_or_none Q S d.
Proof.
  intros HQ. apply dwp_try_else, dwp_query; intros x; by apply dwp_ret.
Qed.

Lemma dwp_hit point (Q : unit → GateDb → Prop) (S : exn → GateDb → Prop) d :
  Q tt d → S (InjectedCrash point) d → dwp (_hit point) Q S d.
Proof.
  intros HQ HS w <-. unfold _hit. wp_steps; [exact HS|exact HQ].
Qed.

Lemma dwp_clock (Q : Z → GateDb → Prop) S d : (∀ n, Q n d) → dwp (read_clock clock) Q S d.
Proof. intros HQ w <-. unfold read_clock. wp_steps. apply HQ. Qed.

Lemma dwp_authority (Q : LeaseGrant → GateDb → Prop) S d :
  (∀ g, Q g d) → dwp gate_authority Q S d.
Proof. intros HQ w <-. apply wp_gets. apply HQ. Qed.

Lemma dwp_restores (Q : bool → GateDb → Prop) S d :
  (∀ b, Q b d) → dwp (gets (λ w : World T, behavioral_restore (traffic w))) Q S d.
Proof. intros HQ w <-. apply wp_gets. apply HQ. Qed.

Lemma dwp_get_db (Q : GateDb → GateDb → Prop) S d : Q d d → dwp get_db Q S d.
Proof. by intros HQ w <-. Qed.

Lemma dwp_update_db f (Q : unit → GateDb → Prop) S d : Q tt (f d) → dwp (update_db f) Q S d.
Proof. by intros HQ w <-. Qed.

Lemma dwp_update_row f (Q : unit → GateDb → Prop) S d :
  Q tt (set_gate_state (f <$> gate_state d) d) → dwp (update_row f) Q S d.
Proof. intros HQ. by apply dwp_update_db. Qed.

(** A database transaction that raises leaves the database it started from. *)
Lemma dwp_transaction {A} (m : M (World T) A) (Q : A → GateDb → Prop)
    (S : exn → GateDb → Prop) d :
  dwp m Q (λ e _, S e d) d → dwp (transaction GateDb m) Q S d.
Proof.
  intros Hm w Hw. apply wp_transaction. eapply wp_mono; [by apply Hm|done|].
  intros e w' He. cbn. by rewrite Hw.
Qed.

Lemma dwp_row (Q : GateRow.t → GateDb → Prop) (S : exn → GateDb → Prop) d :
  (∀ row, gate_state d = Some row → GateRow.schema_version row = schema_version → Q row d) →
  (∀ e, S e d) → dwp _row Q S d.
Proof.
  intros HQ HS. apply dwp_bind, dwp_get_db. destruct (gate_state d) as [row|] eqn:Hr.
  - apply dwp_bind, dwp_raise_if; [intros _; apply HS|]. intros Hb. apply dwp_ret.
    apply HQ; [done|]. by reflect.
  - apply dwp_raise, HS.
Qed.

(** The record an [_append] writes at the end of the log. *)
Definition logged (d : GateDb) (t : Transition.t) : GateDb :=
  set_transitions (gate_transition d ++ [t]) d.

Definition next_seq (d : GateDb) : Z := Z.of_nat (S (length (gate_transition d))).

Lemma dwp_append g k op from to fence detail oid (Q : Z → GateDb → Prop) S d :
  (∀ now, Q (next_seq d) (logged d
    (Transition.mk (next_seq d) g k op (correlation oid op g) from to fence now detail))) →
  dwp (_append clock g k op from to fence detail oid) Q S d.
Proof.
  intros HQ. apply dwp_bind, dwp_clock. intros now.
  apply dwp_bind, dwp_get_db, dwp_bind, dwp_update_db, dwp_ret, HQ.
Qed.

Lemma dwp_transition g target op k detail fence oid (Q : Z → GateDb → Prop)
    (S : exn → GateDb → Prop) d :
  (∀ row now, gate_state d = Some row → GateRow.schema_version row = schema_version →
    target = GateRow.state row ∨ target ∈ allowed (GateRow.state row) →
    Q (next_seq d) (set_gate_state (Some (row_transition target (next_seq d) row)) (logged d
      (Transition.mk (next_seq d) g k op (correlation oid op g) (Some (GateRow.state row))
         (Some target) fence now detail)))) →
  (∀ e d', S e d') →
  dwp (_transition clock g target op k detail fence oid) Q S d.
Proof.
  intros HQ HS. apply dwp_bind, dwp_row; [|intros; apply HS]. intros row Hrow Hver.
  apply dwp_bind, dwp_raise_if; [intros _; apply HS|]. intros Hguard.
  apply dwp_bind, dwp_append. intros now. apply dwp_bind, dwp_bind, dwp_get_db. cbn.
  rewrite Hrow, Z.eqb_refl. apply dwp_bind, dwp_update_row. cbn. rewrite Hrow. cbn.
  apply dwp_ret, dwp_bind, dwp_raise_if; [done|]. intros _. apply dwp_ret.
  apply HQ; [done..|].
  apply andb_false_iff in Hguard as [Hg|Hg]; reflect; [by left|right]. by apply dec_stable.
Qed.
End Dwp.

(** Symbolic execution over the database. *)
Ltac dwp_step :=
  match goal with
  | |- dwp (mret _) _ _ _ => apply dwp_ret
  | |- dwp (_ ≫= _) _ _ _ => apply dwp_bind
  | |- dwp (raise _) _ _ _ => apply dwp_raise
  | |- dwp (raise_if _ _) _ _ _ => apply dwp_raise_if; intros ?
  | |- dwp (when _ _) _ _ _ => apply dwp_when; intros ?
  | |- dwp (lift_result _) _ _ _ => apply dwp_lift; intros ? ?
  | |- dwp (try_else _ _ _) _ _ _ => apply dwp_try_else
  | |- dwp (suppress _) _ _ _ => apply dwp_suppress
  | |- dwp query_route _ _ _ => apply dwp_query; intros ?
  | |- dwp _query_route_or_none _ _ _ => apply dwp_query_or_none; intros ?
  | |- dwp (zoom _) _ _ _ => apply dwp_traffic; intros ?
  | |- dwp (_hit _) _ _ _ => apply dwp_hit
  | |- dwp (read_clock _) _ _ _ => apply dwp_clock; intros ?
  | |- dwp gate_authority _ _ _ => apply dwp_authority; intros ?
  | |- dwp (gets (λ w, behavioral_restore _)) _ _ _ => apply dwp_restores; intros ?
  | |- dwp get_db _ _ _ => apply dwp_get_db
  | |- dwp (update_db _) _ _ _ => apply dwp_update_db
  | |- dwp (update_row _) _ _ _ => apply dwp_update_row
  | |- dwp (transaction GateDb _) _ _ _ => apply dwp_transaction
  | |- dwp _row _ _ _ => apply dwp_row; [intros ? ? ?|intros ?]
  | |- dwp (_append _ _ _ _ _ _ _ _ _) _ _ _ => apply dwp_append; intros ?
  | |- dwp (_transition _ _ _ _ _ _ _ _) _ _ _ =>
      apply dwp_transition; [intros ? ? ? ? ?|intros ? ?]
  | |- dwp (if ?b then _ else _) _ _ _ => destruct b eqn:?
  | |- dwp (match ?x with _ => _ end) _ _ _ => destruct x eqn:?
  end.

Ltac dwp_steps := repeat (dwp_step; cbn beta iota).

(** ** The invariant *)

Definition terminal (s : GateState.t) : bool :=
  bool_decide (s ∈ [GateState.ROLLED_BACK; GateState.FAILED_SAFE; GateState.SAFETY_UNKNOWN]).

(** Replaying one record: a record with a target is a legal transition from the state so
    far; a record without one leaves the state, and names it as its source.  Only the receipt
    of a recovery close may name OPENING after the gate has left it. *)
Definition replay_step (s : option GateState.t) (t : Transition.t) : option GateState.t :=
  s ← s;
  match Transition.to_state t with
  | Some target =>
      if bool_decide (Transition.from_state t = Some s)
         && bool_decide (target = s ∨ target ∈ allowed s)
      then Some target else None
  | None =>
      if bool_decide (Transition.from_state t = Some s)
         || (Transition.operation t =? "open.reconcile.close_all")%string
      then Some s else None
  end.

Definition replay (l : list Transition.t) : option GateState.t :=
  foldl replay_step (Some GateState.PREDECESSOR_OPEN) l.

(** The receipts that record the candidate's admission to the route. *)
Definition is_open_receipt (t : Transition.t) : bool :=
  bool_decide (Transition.kind t = receipt)
  && bool_decide (Transition.to_state t = Some GateState.CANDIDATE_OPEN)
  && String.prefix "open" (Transition.operation t).

Definition open_receipts (l : list Transition.t) : list Transition.t :=
  List.filter is_open_receipt l.

(** Which route the gate believes in, before the end; [end_ok] is about the end. *)
Definition route_ok (row : GateRow.t) (opens : list Transition.t) : Prop :=
  match GateRow.state row with
  | GateState.PREDECESSOR_OPEN | GateState.CANDIDATE_STAGED | GateState.CANDIDATE_CLOSED
  | GateState.OPENING =>
      opens = [] ∧ GateRow.route_generation row = Some (GateRow.predecessor_generation row)
      ∧ GateRow.route_fence row = fence_of (GateRow.predecessor_generation row)
  | GateState.CANDIDATE_OPEN | GateState.DRAINING =>
      GateRow.route_generation row = Some (GateRow.candidate_generation row)
      ∧ GateRow.observed_candidate_digest row = Some (GateRow.candidate_digest row)
      ∧ ∃ e, opens = [e] ∧ Transition.fence e = Some (GateRow.route_fence row)
          ∧ (Transition.seq e ≤ GateRow.transition_seq row)%Z
          ∧ GateRow.route_fence row ≠ EmptyString
  | _ => (length opens ≤ 1)%nat
  end.

(** Records after which a terminal state may keep a route that was not observed with it: the
    recovery close and the recovered rollback write their outcome but not the route columns,
    and a behavioural rollback stores whatever route was observed. *)
Definition detail_is (key : string) (v : json) (t : Transition.t) : Prop :=
  getitem key (Transition.detail_json t) = Ok v.
Definition recovered (t : Transition.t) : Prop :=
  Transition.operation t = "open.reconcile.close_all"
  ∨ Transition.operation t = "rollback" ∧ Transition.kind t = receipt
    ∧ detail_is "reconciled" (JBool true) t.
Definition behavioural (t : Transition.t) : Prop :=
  Transition.operation t = "rollback" ∧ Transition.kind t = receipt
  ∧ detail_is "classification" (JStr (RollbackClass.value RollbackClass.BEHAVIORAL)) t.

(** The stored route at the end: closed after a fail-close, the predecessor's after a rollback. *)
Definition end_ok (st : GateState.t) (predecessor : Z) (g : option Z) (f : string)
    (l : list Transition.t) : Prop :=
  match st with
  | GateState.FAILED_SAFE => (g = None ∧ f = "closed") ∨ ∃ t, t ∈ l ∧ recovered t
  | GateState.ROLLED_BACK =>
      (g = Some predecessor ∧ f = fence_of predecessor)
      ∨ ∃ t, t ∈ l ∧ (recovered t ∨ behavioural t)
  | _ => True
  end.

Lemma end_ok_more st p g f l l' :
  (∀ t, t ∈ l → t ∈ l') → end_ok st p g f l → end_ok st p g f l'.
Proof. intros Hl. destruct st; cbn; naive_solver. Qed.

Lemma end_ok_recovered st p g f l t : t ∈ l → recovered t → end_ok st p g f l.
Proof. intros Hin Ht. destruct st; cbn; try done; right; exists t; auto. Qed.

(** Which route a request was admitted to: the predecessor before the open receipt, or the
    candidate, with the receipt's fence, after it. *)
Definition admission_ok (row : GateRow.t) (l : list Transition.t) (a : Admission.t) : Prop :=
  (0 ≤ Admission.transition_seq a ≤ Z.of_nat (length l))%Z ∧
  ((Admission.chosen_generation a = GateRow.predecessor_generation row
    ∧ Admission.route_epoch a = fence_of (GateRow.predecessor_generation row)
    ∧ ∀ e, e ∈ open_receipts l → (Admission.transition_seq a < Transition.seq e)%Z)
   ∨ (Admission.chosen_generation a = GateRow.candidate_generation row
    ∧ ∃ e, open_receipts l = [e] ∧ Transition.fence e = Some (Admission.route_epoch a)
        ∧ (Transition.seq e ≤ Admission.transition_seq a)%Z
        ∧ Admission.route_epoch a ≠ EmptyString)).

(** The CHECK constraint of the admission table. *)
Definition finish_ok (a : Admission.t) : Prop :=
  match Admission.finished_at a with
  | None => Admission.result a = None ∧ Admission.abort a = None
  | Some f => (Admission.admitted_at a ≤ f)%Z
      ∧ bool_decide (Admission.result a = None) ≠ bool_decide (Admission.abort a = None)
  end.

Definition event_ok (adms : list Admission.t) (e : AdmissionEvent.t) : Prop :=
  ∃ a, a ∈ adms ∧ AdmissionEvent.request_id e = Admission.request_id a
    ∧ AdmissionEvent.chosen_generation e = Admission.chosen_generation a
    ∧ AdmissionEvent.route_epoch e = Admission.route_epoch a
    ∧ AdmissionEvent.transition_seq e = Admission.transition_seq a.

Section Invariant.
Context `{Sha256}.

(** The intent of an open carries the proof it was made with, for the staged candidate. *)
Definition open_intent_ok (digest : string) (t : Transition.t) : Prop :=
  is_record "open" intent t = true →
  ∃ proof, Transition.detail_json t
      = JObj (proof_fields proof ++ [("proof_digest", JStr (OpenProof_digest proof))])
    ∧ candidate_digest proof = digest ∧ Transition.fence t ≠ Some EmptyString.

Record row_ok (row : GateRow.t) (d : GateDb) : Prop := {
  ok_version : GateRow.schema_version row = schema_version;
  ok_successor : GateRow.candidate_generation row = (GateRow.predecessor_generation row + 1)%Z;
  ok_candidate : GateRow.candidate_digest row = _digest (GateRow.candidate_json row);
  ok_predecessor : GateRow.predecessor_digest row = _digest (GateRow.predecessor_json row);
  ok_seq : ∀ i t, gate_transition d !! i = Some t → Transition.seq t = Z.of_nat (S i);
  ok_generation : ∀ t, t ∈ gate_transition d →
    Transition.generation t = GateRow.candidate_generation row;
  ok_replay : replay (gate_transition d) = Some (GateRow.state row);
  ok_lease : ∃ g : LeaseGrant, GateRow.lease_json row = to_json g;
  ok_opening : GateRow.state row = GateState.OPENING →
    ∃ t, t ∈ gate_transition d ∧ is_record "open" intent t = true;
  ok_tseq : (0 ≤ GateRow.transition_seq row ≤ Z.of_nat (length (gate_transition d)))%Z;
  ok_route : route_ok row (open_receipts (gate_transition d));
  ok_end : end_ok (GateRow.state row) (GateRow.predecessor_generation row)
    (GateRow.route_generation row) (GateRow.route_fence row) (gate_transition d);
  ok_intents : ∀ t, t ∈ gate_transition d → open_intent_ok (GateRow.candidate_digest row) t;
  ok_admissions : ∀ a, a ∈ admission d → admission_ok row (gate_transition d) a;
  ok_finish : ∀ a, a ∈ admission d → finish_ok a;
  ok_requests : NoDup (Admission.request_id <$> admission d);
  ok_event_seq : ∀ i e, admission_event d !! i = Some e →
    AdmissionEvent.seq e = Z.of_nat (S i);
  ok_events : ∀ e, e ∈ admission_event d → event_ok (admission d) e;
}.

Definition db_ok (d : GateDb) : Prop :=
  match gate_state d with
  | None => d = empty_db
  | Some row => row_ok row d
  end.

(** ** The order on databases *)

(** The columns no operation changes. *)
Definition same_identity (r r' : GateRow.t) : Prop :=
  GateRow.predecessor_generation r' = GateRow.predecessor_generation r
  ∧ GateRow.candidate_generation r' = GateRow.candidate_generation r
  ∧ GateRow.predecessor_json r' = GateRow.predecessor_json r
  ∧ GateRow.candidate_json r' = GateRow.candidate_json r
  ∧ GateRow.lease_json r' = GateRow.lease_json r
  ∧ GateRow.schema_version r' = GateRow.schema_version r
  ∧ GateRow.candidate_digest r' = GateRow.candidate_digest r
  ∧ GateRow.predecessor_digest r' = GateRow.predecessor_digest r.

(** An admission only ever changes from unfinished to finished. *)
Definition admission_le (a a' : Admission.t) : Prop :=
  a' = a ∨ (Admission.finished_at a = None ∧ ∃ r, a' = finish_row r a).

Record db_le (d d' : GateDb) : Prop := {
  le_row : ∀ r, gate_state d = Some r → ∃ r', gate_state d' = Some r' ∧ same_identity r r'
    ∧ (terminal (GateRow.state r) = true → GateRow.state r' = GateRow.state r)
    ∧ (GateRow.transition_seq r ≤ GateRow.transition_seq r')%Z
    ∧ (GateRow.revision r ≤ GateRow.revision r')%Z;
  le_log : gate_transition d `prefix_of` gate_transition d';
  le_admissions : ∃ old new, admission d' = old ++ new
    ∧ Forall2 admission_le (admission d) old;
  le_events : admission_event d `prefix_of` admission_event d';
}.

Lemma admission_le_trans a b c : admission_le a b → admission_le b c → admission_le a c.
Proof.
  intros [->|[Hn [r ->]]]; [done|]. intros [->|[Hn' _]]; [right; by eauto|done].
Qed.

#[export] Instance db_le_preorder : PreOrder db_le.
Proof.
  split.
  - intros d. split; [|done| |done].
    + intros r Hr. exists r. unfold same_identity. repeat split; try done; lia.
    + exists (admission d), []. rewrite app_nil_r. split; [done|].
      apply Reflexive_instance_0. intros a. by left.
  - intros x y z [R1 L1 (o1 & n1 & A1 & F1) E1] [R2 L2 (o2 & n2 & A2 & F2) E2].
    split; [|by etrans| |by etrans].
    + intros r Hr. destruct (R1 r Hr) as (r1 & Hr1 & I1 & T1 & S1 & V1).
      destruct (R2 r1 Hr1) as (r2 & Hr2 & I2 & T2 & S2 & V2). exists r2.
      split; [done|]. split.
      { unfold same_identity in *. intuition congruence. }
      split; [|lia]. intros Ht. rewrite T2; rewrite T1 by done; done.
    + rewrite A1 in F2. apply Forall2_app_inv_l in F2 as (p & q & Fp & Fq & ->).
      exists p, (q ++ n2). rewrite app_assoc. split; [done|].
      clear -F1 Fp. revert p Fp. induction F1; intros p Fp; inversion Fp; subst; constructor.
      * by eapply admission_le_trans.
      * auto.
Qed.

(** ** The two kinds of writes to the log *)

Lemma replay_snoc l t : replay (l ++ [t]) = replay_step (replay l) t.
Proof. unfold replay. by rewrite foldl_app. Qed.

Lemma open_receipts_snoc l t :
  open_receipts (l ++ [t]) = open_receipts l ++ if is_open_receipt t then [t] else [].
Proof. unfold open_receipts. rewrite List.filter_app. cbn. by destruct (is_open_receipt t). Qed.

Lemma elem_of_open_receipts t l :
  t ∈ open_receipts l ↔ t ∈ l ∧ is_open_receipt t = true.
Proof. unfold open_receipts. by rewrite list_elem_of_In, List.filter_In, <-list_elem_of_In. Qed.

Lemma log_seq_lt row d t :
  row_ok row d → t ∈ gate_transition d → (0 < Transition.seq t < next_seq d)%Z.
Proof.
  intros Hok [i Hi]%list_elem_of_lookup_1. rewrite (ok_seq _ _ Hok i t Hi).
  apply lookup_lt_Some in Hi. unfold next_seq. lia.
Qed.

Lemma replay_step_terminal s t s' :
  terminal s = true → replay_step (Some s) t = Some s' → s' = s.
Proof.
  intros Ht. unfold replay_step. cbn. destruct (Transition.to_state t) as [g|].
  - destruct (_ && _) eqn:Hb; [|done]. intros [= <-]. reflect.
    destruct s; try discriminate Ht; cbn in *;
      match goal with Hd : _ ∨ _ |- _ => destruct Hd as [?|Hn]; [done|] end;
      by apply elem_of_nil in Hn.
  - destruct (_ || _); [|done]. by intros [= <-].
Qed.

Lemma open_intent_ok_receipt digest seq g op oid from to f now detail :
  open_intent_ok digest (Transition.mk seq g receipt op oid from to f now detail).
Proof. unfold open_intent_ok, is_record. cbn. by rewrite andb_false_r. Qed.

Lemma open_intent_ok_other digest seq g k op oid from to f now detail :
  (op =? "open")%string = false →
  open_intent_ok digest (Transition.mk seq g k op oid from to f now detail).
Proof. unfold open_intent_ok, is_record. cbn. by intros ->. Qed.

#[local] Hint Resolve open_intent_ok_receipt open_intent_ok_other : core.

(** The conditions under which a record may be appended and the row replaced. *)
Record log_step (d : GateDb) (row row' : GateRow.t) (t : Transition.t) : Prop := {
  ls_identity : same_identity row row';
  ls_seq : Transition.seq t = next_seq d;
  ls_generation : Transition.generation t = GateRow.candidate_generation row;
  ls_replay : replay_step (Some (GateRow.state row)) t = Some (GateRow.state row');
  ls_opening : GateRow.state row' = GateState.OPENING →
    GateRow.state row = GateState.OPENING ∨ is_record "open" intent t = true;
  ls_tseq : (GateRow.transition_seq row ≤ GateRow.transition_seq row' ≤ next_seq d)%Z;
  ls_revision : (GateRow.revision row ≤ GateRow.revision row')%Z;
  ls_route : route_ok row' (open_receipts (gate_transition d ++ [t]));
  ls_end : end_ok (GateRow.state row') (GateRow.predecessor_generation row')
    (GateRow.route_generation row') (GateRow.route_fence row') (gate_transition d ++ [t]);
  ls_intent : open_intent_ok (GateRow.candidate_digest row) t;
  ls_once : is_open_receipt t = true → open_receipts (gate_transition d) = [];
}.

Definition db_logged (d : GateDb) (row' : GateRow.t) (t : Transition.t) : GateDb :=
  mkDb (Some row') (gate_transition d ++ [t]) (admission d) (admission_event d).

Lemma admission_ok_log d row row' t a :
  row_ok row d → log_step d row row' t → admission_ok row (gate_transition d) a →
  admission_ok row' (gate_transition d ++ [t]) a.
Proof.
  intros Hok [(Hp & Hc & _) Hseq _ _ _ _ _ _ _ _ Honce] [Hb Ha].
  unfold admission_ok. rewrite Hp, Hc, open_receipts_snoc, length_app. cbn.
  split; [lia|]. destruct Ha as [(Hg & He & Hlt)|(Hg & e & He & Hf & Hle)].
  - left. split; [done|]. split; [done|]. intros e [Hin|Hin]%elem_of_app; [by apply Hlt|].
    destruct (is_open_receipt t); [|by apply elem_of_nil in Hin].
    apply list_elem_of_singleton in Hin as ->. unfold next_seq in *. lia.
  - right. split; [done|]. exists e. destruct (is_open_receipt t) eqn:Ht.
    + rewrite Honce in He; done.
    + rewrite app_nil_r. done.
Qed.

Lemma row_ok_log d row row' t :
  row_ok row d → log_step d row row' t → row_ok row' (db_logged d row' t).
Proof.
  intros Hok Hls. pose proof Hls as [(Hp & Hc & Hpj & Hcj & Hl & Hv & Hcd & Hpd) Hseq Hgen Hrep Hopn Hts Hrev Hroute Hend Hint Honce].
  pose proof (log_seq_lt row d) as Hlt. destruct Hok as [? ? ? ? Hs Hg Hr ? Hop ? ? ? Hints Hadm ? ? ? ?] eqn:E.
  split; cbn [db_logged gate_transition admission admission_event]; try congruence; auto.
  - intros i t' [Hi|[Hi Ht]]%lookup_app_Some; [by apply Hs|].
    apply list_lookup_singleton_Some in Ht as [? <-]. rewrite Hseq. unfold next_seq. lia.
  - intros t' [Ht|Ht%list_elem_of_singleton]%elem_of_app; [rewrite Hc; by apply Hg|].
    subst. congruence.
  - rewrite replay_snoc, Hr. done.
  - by rewrite Hl.
  - intros Ho. destruct (Hopn Ho) as [Ho'|Ho'].
    + destruct (Hop Ho') as (t' & Ht' & ?). exists t'. split; [|done].
      apply elem_of_app. by left.
    + exists t. split; [|done]. apply elem_of_app. right. by apply list_elem_of_singleton.
  - rewrite length_app. unfold next_seq in *. cbn. lia.
  - intros t' [Ht|Ht%list_elem_of_singleton]%elem_of_app; rewrite Hcd; [by apply Hints|].
    by subst.
  - intros a Ha. by eapply admission_ok_log; [..|by apply Hadm].
Qed.

Lemma db_le_log d row row' t :
  gate_state d = Some row → log_step d row row' t → db_le d (db_logged d row' t).
Proof.
  intros Hrow [Hid _ _ Hrep _ Hts Hrev _ _ _ _]. split; cbn.
  - intros r Hr. exists row'. assert (r = row) as -> by congruence.
    split; [done|]. split; [done|]. split; [|lia].
    intros Ht. by eapply replay_step_terminal.
  - by apply prefix_app_r.
  - exists (admission d), []. rewrite app_nil_r. split; [done|].
    apply Reflexive_instance_0. intros a. by left.
  - done.
Qed.

Definition evolves (d0 d : GateDb) : Prop := db_ok d ∧ db_le d0 d.

Lemma evolves_refl d : db_ok d → evolves d d.
Proof. by split. Qed.

Lemma evolves_row d0 d row : evolves d0 d → gate_state d = Some row → row_ok row d.
Proof. intros [Hok _] Hr. unfold db_ok in Hok. by rewrite Hr in Hok. Qed.

Lemma evolves_log d0 d row row' t :
  evolves d0 d → gate_state d = Some row → log_step d row row' t →
  evolves d0 (db_logged d row' t).
Proof.
  intros Hev Hr Hls. split.
  - cbn. eapply row_ok_log; [by eapply evolves_row|done].
  - destruct Hev as [_ Hle]. etrans; [exact Hle|]. by eapply db_le_log.
Qed.


(** A record without a target, written for the current row. *)
Lemma evolves_append d0 d row g k op oid fence now detail from :
  evolves d0 d → gate_state d = Some row → g = GateRow.candidate_generation row →
  from = GateRow.state row ∨ op = "open.reconcile.close_all" →
  k = receipt ∨ (op =? "open")%string = false →
  evolves d0 (logged d
    (Transition.mk (next_seq d) g k op (correlation oid op g) (Some from) None fence now detail)).
Proof.
  intros Hev Hr Hg Hfrom Hno.
  assert (Hok : row_ok row d) by by eapply evolves_row.
  set (t := Transition.mk _ _ _ _ _ _ _ _ _ _).
  assert (Hnot : is_open_receipt t = false).
  { unfold is_open_receipt. cbn. by rewrite andb_false_r. }
  replace (logged d t) with (db_logged d row t).
  2: { unfold db_logged, logged, set_transitions. by rewrite Hr. }
  apply (evolves_log d0 d row row); [done..|].
  split; cbn [t Transition.seq Transition.generation]; try done; try lia.
  - unfold replay_step. cbn. destruct (bool_decide (Some from = Some (GateRow.state row))) eqn:E;
      [done|]. reflect. destruct Hfrom as [->| ->]; [done|]. done.
  - by left.
  - pose proof (ok_tseq _ _ Hok). unfold next_seq. lia.
  - rewrite open_receipts_snoc, Hnot, app_nil_r. apply (ok_route _ _ Hok).
  - eapply end_ok_more; [|apply (ok_end _ _ Hok)]. intros ? ?. apply elem_of_app. by left.
  - unfold open_intent_ok, is_record. cbn. destruct Hno as [-> | ->]; [|done].
    by rewrite andb_false_r.
  - by rewrite Hnot.
Qed.

Lemma route_ok_length row l : route_ok row l → (length l ≤ 1)%nat.
Proof.
  unfold route_ok. destruct (GateRow.state row); try done.
  all: try (intros (-> & _); cbn; lia).
  all: intros (_ & _ & e & -> & _); cbn; lia.
Qed.

(** A transition, with what the same transaction does to the row. *)
Lemma evolves_transition d0 d row row' target g k op oid fence now detail :
  let t := Transition.mk (next_seq d) g k op (correlation oid op g)
    (Some (GateRow.state row)) (Some target) fence now detail in
  evolves d0 d → gate_state d = Some row → g = GateRow.candidate_generation row →
  target = GateRow.state row ∨ target ∈ allowed (GateRow.state row) →
  same_identity row row' → GateRow.state row' = target →
  GateRow.transition_seq row' = next_seq d →
  GateRow.revision row' = (GateRow.revision row + 1)%Z →
  route_ok row' (open_receipts (gate_transition d ++ [t])) →
  end_ok target (GateRow.predecessor_generation row') (GateRow.route_generation row')
    (GateRow.route_fence row') (gate_transition d ++ [t]) →
  open_intent_ok (GateRow.candidate_digest row) t →
  (target = GateState.OPENING → is_record "open" intent t = true) →
  (is_open_receipt t = true → open_receipts (gate_transition d) = []) →
  evolves d0 (db_logged d row' t).
Proof.
  intros t Hev Hr Hg Hall Hid Hst Hts Hrev Hroute Hend Hint Hopn Honce.
  assert (Hok : row_ok row d) by by eapply evolves_row.
  pose proof (ok_tseq _ _ Hok).
  apply (evolves_log d0 d row row'); [done..|].
  split; cbn [t Transition.seq Transition.generation]; try done; unfold next_seq in *; try lia.
  2: { intros Ho. right. apply Hopn. congruence. }
  2: { by rewrite Hst. }
  unfold replay_step. cbn. rewrite !bool_decide_true by done. cbn. by rewrite Hst.
Qed.

Lemma not_open_receipt seq g k op oid from target fence now detail :
  target ≠ GateState.CANDIDATE_OPEN ∨ k = intent ∨ String.prefix "open" op = false →
  is_open_receipt (Transition.mk seq g k op oid from (Some target) fence now detail) = false.
Proof.
  unfold is_open_receipt. cbn [Transition.kind Transition.to_state Transition.operation].
  intros [Ht|[-> | ->]]; [|done|by rewrite andb_false_r].
  rewrite (bool_decide_false (Some target = _)) by congruence. by rewrite andb_false_r.
Qed.

(** The transition to a terminal state, with any update of the route columns. *)
Lemma evolves_terminal d0 d row row' target g op oid fence now detail :
  evolves d0 d → gate_state d = Some row → g = GateRow.candidate_generation row →
  terminal target = true →
  target = GateRow.state row ∨ target ∈ allowed (GateRow.state row) →
  row' = row_transition target (next_seq d) row
    ∨ (∃ rg rf, row' = row_route rg rf (row_transition target (next_seq d) row)) →
  let t := Transition.mk (next_seq d) g receipt op (correlation oid op g)
    (Some (GateRow.state row)) (Some target) fence now detail in
  end_ok target (GateRow.predecessor_generation row) (GateRow.route_generation row')
    (GateRow.route_fence row') (gate_transition d ++ [t]) →
  evolves d0 (db_logged d row' t).
Proof.
  intros Hev Hr Hg Hterm Hall Hrow' t Hend. subst t.
  assert (Hok : row_ok row d) by by eapply evolves_row.
  assert (Hid : same_identity row row' ∧ GateRow.state row' = target
    ∧ GateRow.transition_seq row' = next_seq d
    ∧ GateRow.revision row' = (GateRow.revision row + 1)%Z).
  { destruct Hrow' as [->|(? & ? & ->)]; by repeat split. }
  destruct Hid as (Hid & Hst & Hts & Hrev).
  assert (Hnot : target ≠ GateState.CANDIDATE_OPEN) by by intros ->.
  assert (Hnot' : target ≠ GateState.OPENING) by by intros ->.
  apply (evolves_transition d0 d row row'); try done.
  - rewrite open_receipts_snoc, not_open_receipt, app_nil_r by auto.
    pose proof (route_ok_length _ _ (ok_route _ _ Hok)) as Hlen.
    unfold route_ok. rewrite Hst. clear -Hterm Hlen. by destruct target.
  - destruct Hid as [-> _]. exact Hend.
  - by rewrite not_open_receipt by auto.
Qed.

(** ** Every operation evolves the database *)

Context {T : Type} `{!TrafficAuthorityAdapter T} (clock : nat → Z).

#[local] Abbreviation evolve m d0 d := (dwp m (λ _, evolves d0) (λ _, evolves d0) d).

Lemma dwp_append_tx d0 d row g k op oid fence detail from Q S :
  evolves d0 d → gate_state d = Some row → g = GateRow.candidate_generation row →
  from = GateRow.state row ∨ op = "open.reconcile.close_all" →
  k = receipt ∨ (op =? "open")%string = false →
  (∀ n d', evolves d0 d' → gate_state d' = Some row → Q n d') →
  dwp (T := T) (transaction GateDb (_append clock g k op (Some from) None fence detail oid))
    Q S d.
Proof.
  intros Hev Hr Hg Hfrom Hno HQ. dwp_steps. apply HQ; [|done]. by eapply evolves_append.
Qed.

(** What an outcome rests on: the route that was observed, or a behavioural oracle. *)
Definition outcome_ok (predecessor : Z) (target : GateState.t) (op : string) (detail : json)
    (actual : option RouteState) : Prop :=
  match target with
  | GateState.FAILED_SAFE => is_closed actual = true
  | GateState.ROLLED_BACK =>
      (∃ r, actual = Some r ∧ route_generation r = Some predecessor
         ∧ fence r = fence_of predecessor)
      ∨ op = "rollback" ∧ getitem "classification" detail
          = Ok (JStr (RollbackClass.value RollbackClass.BEHAVIORAL))
  | _ => True
  end.

Lemma outcome_end d target g op oid detail actual from now predecessor :
  outcome_ok predecessor target op detail actual →
  end_ok target predecessor (actual ≫= route_generation)
    (match actual with Some r => fence r | None => "unknown" end)
    (gate_transition d ++ [Transition.mk (next_seq d) g receipt op (correlation oid op g) from
       (Some target) None now detail]).
Proof.
  destruct target; cbn; try done.
  - intros [(r & -> & Hg & Hf)|(-> & Hc)]; [by left|]. right. eexists.
    split; [apply elem_of_app; right; by apply list_elem_of_singleton|]. by right.
  - unfold is_closed. destruct actual as [r|]; [|done]. intros Hc. reflect. by left.
Qed.

(** The transactions that record a terminal state. *)
Lemma dwp_record_outcome d0 d target g op oid detail actual Q S :
  evolves d0 d → (∀ row, gate_state d = Some row → g = GateRow.candidate_generation row) →
  terminal target = true →
  (∀ row, gate_state d = Some row →
     outcome_ok (GateRow.predecessor_generation row) target op detail actual) →
  (∀ d', evolves d0 d' → Q tt d') → (∀ e, S e d) →
  dwp (T := T) (record_outcome clock g target op detail oid actual) Q S d.
Proof.
  intros Hev Hg Ht Hout HQ HS. unfold record_outcome. apply dwp_transaction, dwp_bind.
  dwp_step; [|done]. apply dwp_update_row, HQ. eapply (evolves_terminal d0 d); eauto.
  by apply outcome_end, Hout.
Qed.

Lemma dwp_terminal d0 d target g op oid fence detail Q S :
  evolves d0 d → (∀ row, gate_state d = Some row → g = GateRow.candidate_generation row) →
  terminal target = true →
  (∃ t, t ∈ gate_transition d ∧ recovered t)
    ∨ (op = "rollback" ∧ getitem "reconciled" detail = Ok (JBool true)) →
  (∀ n d', evolves d0 d' → Q n d') → (∀ e d', S e d') →
  dwp (T := T) (_transition clock g target op receipt detail fence oid) Q S d.
Proof.
  intros Hev Hg Ht Hrec HQ HS. dwp_steps; [|done]. apply HQ.
  eapply (evolves_terminal d0 d); eauto.
  destruct Hrec as [(t & Hin & Hrec)|[-> Hk]].
  - eapply end_ok_recovered; [apply elem_of_app; by left|done].
  - eapply end_ok_recovered; [apply elem_of_app; right; by apply list_elem_of_singleton|].
    by right.
Qed.

Lemma terminal_closed_target actual : terminal (closed_target actual) = true.
Proof. unfold closed_target. by destruct (is_closed actual). Qed.

#[local] Hint Resolve terminal_closed_target : core.

Lemma outcome_closed p op detail actual : outcome_ok p (closed_target actual) op detail actual.
Proof. unfold closed_target. by destruct (is_closed actual) eqn:E. Qed.

#[local] Hint Resolve outcome_closed : core.

Lemma fail_close_evolves d0 d g reason :
  evolves d0 d → evolve (fail_close clock g reason) d0 d.
Proof.
  intros Hev. unfold fail_close. dwp_step. dwp_step; [|done]. dwp_step. dwp_step; [done|]. reflect.
  apply dwp_bind, (dwp_append_tx d0 d row); auto. intros _ d1 Hev1 Hr1.
  apply dwp_bind, dwp_hit; [|done]. apply dwp_bind, dwp_try_else, dwp_traffic; intros x;
    apply dwp_ret; (apply dwp_bind, dwp_hit; [|done]);
    apply dwp_bind, dwp_try_else, dwp_query; intros y; apply dwp_ret, dwp_bind.
  all: apply (dwp_record_outcome d0); auto; [congruence|].
  all: intros d2 Hd2; by apply dwp_ret.
Qed.

(** The route columns before the candidate is open, in the states [close] and [open] start
    their transitions from. *)
Definition route_pred (row : GateRow.t) (l : list Transition.t) : Prop :=
  open_receipts l = [] ∧ GateRow.route_generation row = Some (GateRow.predecessor_generation row)
  ∧ GateRow.route_fence row = fence_of (GateRow.predecessor_generation row).

Definition pre_receipt (s : GateState.t) : bool :=
  bool_decide (s ∈ [GateState.PREDECESSOR_OPEN; GateState.CANDIDATE_STAGED;
                    GateState.CANDIDATE_CLOSED; GateState.OPENING]).

Lemma route_ok_pre row l :
  pre_receipt (GateRow.state row) = true → (route_ok row (open_receipts l) ↔ route_pred row l).
Proof. unfold route_ok, route_pred. by destruct (GateRow.state row). Qed.

(** The row [stage] inserts. *)
Lemma inserted_ok pg cand pred (grant : LeaseGrant) :
  let lease := to_json grant in
  row_ok (GateRow.mk GateState.PREDECESSOR_OPEN pg (pg + 1) pred cand (Some pg) (fence_of pg)
    lease 0 0 schema_version None (_digest cand) None (_digest pred) (Some (_digest pred)))
    (set_gate_state (Some (GateRow.mk GateState.PREDECESSOR_OPEN pg (pg + 1) pred cand
      (Some pg) (fence_of pg) lease 0 0 schema_version None (_digest cand) None (_digest pred)
      (Some (_digest pred)))) empty_db).
Proof.
  split; cbn; try done; try (intros ? Hin; by apply elem_of_nil in Hin); [by eexists|].
  constructor.
Qed.

Lemma db_le_insert d0 row : db_le d0 empty_db → db_le d0 (set_gate_state (Some row) empty_db).
Proof.
  intros [R L A E]. split; [|done..]. intros r Hr. by destruct (R r Hr) as (? & ? & _).
Qed.

Lemma stage_evolves d0 d cand pred : evolves d0 d → evolve (stage clock cand pred) d0 d.
Proof.
  intros Hev. unfold stage. apply dwp_bind, dwp_lift; [intros pg Hpg|done].
  apply dwp_bind, dwp_get_db. destruct (gate_state d) as [row|] eqn:Hr.
  { dwp_steps; done. }
  assert (d = empty_db) as ->.
  { destruct Hev as [Hok _]; unfold db_ok in Hok; by rewrite Hr in Hok. }
  apply dwp_bind, dwp_query; [intros r|done].
  apply dwp_bind, dwp_raise_if; [done|]. intros Hroute. reflect.
  apply dwp_bind, dwp_transaction, dwp_bind, dwp_authority. intros grant.
  apply dwp_bind, dwp_update_db.
  match goal with H1 : route_generation r = _, H2 : fence r = _ |- _ => rewrite H1, H2 end.
  set (row := GateRow.mk _ _ _ _ _ _ _ _ _ _ _ _ _ _ _ _).
  assert (Hev1 : evolves d0 (set_gate_state (Some row) empty_db)).
  { split; [apply inserted_ok|]. apply db_le_insert, Hev. }
  apply dwp_transition; [|done]. intros row' now Hrow' _ Hall. injection Hrow' as <-.
  apply dwp_ret. by apply (evolves_transition d0 (set_gate_state (Some row) empty_db) row).
Qed.

Lemma close_effect_evolves d0 d row g :
  evolves d0 d → gate_state d = Some row → GateRow.candidate_generation row = g →
  GateRow.state row ≠ GateState.CANDIDATE_CLOSED → evolve (close_effect clock row g) d0 d.
Proof.
  intros Hev Hr Hg Hst. unfold close_effect. apply dwp_bind, dwp_hit; [|done].
  apply dwp_bind, dwp_traffic; [intros _|done]. apply dwp_bind, dwp_hit; [|done].
  apply dwp_bind, dwp_query; [intros actual|done]. apply dwp_bind, dwp_hit; [|done].
  cbv zeta. destruct (_ || _ : bool).
  - apply dwp_bind, (dwp_append_tx d0 d row); auto. intros _ d2 Hev2 Hr2.
    apply dwp_bind. eapply dwp_mono; [by apply fail_close_evolves| |done].
    intros ? d3 Hd3. by apply dwp_raise.
  - apply dwp_transaction, dwp_bind, dwp_transition; [|done].
    intros row1 now Hr1' _ Hall. assert (row1 = row) as -> by congruence.
    apply dwp_update_row.
    assert (Hs : GateRow.state row = GateState.CANDIDATE_STAGED).
    { destruct Hall as [?|Hall]; [congruence|]. clear -Hall.
      destruct (GateRow.state row); cbn in Hall; try done;
        repeat (apply elem_of_cons in Hall as [?|Hall]; [discriminate|]);
        by apply elem_of_nil in Hall. }
    apply (evolves_transition d0 d row); auto; try done.
    rewrite open_receipts_snoc, not_open_receipt, app_nil_r by auto.
    pose proof (ok_route _ _ (evolves_row _ _ _ Hev Hr)) as Hroute.
    unfold route_ok in *. cbn. rewrite Hs in Hroute. done.
Qed.

Lemma close_evolves d0 d g : evolves d0 d → evolve (close clock g) d0 d.
Proof.
  intros Hev. unfold close. apply dwp_bind, dwp_row; [intros row Hr Hv|done].
  apply dwp_bind, dwp_raise_if; [done|]. intros Hg. reflect.
  destruct (bool_decide (GateRow.state row = _)) eqn:Hst; [by apply dwp_ret|]. reflect.
  apply dwp_bind, dwp_get_db, dwp_bind, dwp_when; intros _; [|by apply close_effect_evolves].
  apply dwp_transaction, dwp_bind, dwp_append. intros now.
  apply dwp_ret, close_effect_evolves; auto. apply (evolves_append d0 d row); auto.
Qed.

(** The only ways into a state, read off the transition table. *)
Lemma to_opening s : GateState.OPENING = s ∨ GateState.OPENING ∈ allowed s →
  s = GateState.OPENING ∨ s = GateState.CANDIDATE_CLOSED.
Proof.
  intros [<-|Hall]; [by left|]. destruct s; cbn in Hall; try (by right); exfalso;
    repeat (apply elem_of_cons in Hall as [?|Hall]; [discriminate|]); by apply elem_of_nil in Hall.
Qed.

Lemma to_draining s : GateState.DRAINING = s ∨ GateState.DRAINING ∈ allowed s →
  s = GateState.DRAINING ∨ s = GateState.CANDIDATE_OPEN.
Proof.
  intros [<-|Hall]; [by left|]. destruct s; cbn in Hall; try (by right); exfalso;
    repeat (apply elem_of_cons in Hall as [?|Hall]; [discriminate|]); by apply elem_of_nil in Hall.
Qed.

(** The receipt of an open, written while the gate is opening. *)
Lemma evolves_opened d0 d row row' fence0 digest op oid now detail :
  evolves d0 d → gate_state d = Some row → GateRow.state row = GateState.OPENING →
  String.prefix "open" op = true → digest = GateRow.candidate_digest row →
  fence0 ≠ EmptyString →
  let g := GateRow.candidate_generation row in
  row' = row_opened g fence0 (next_seq d) digest
    (row_transition GateState.CANDIDATE_OPEN (next_seq d) row) →
  evolves d0 (db_logged d row' (Transition.mk (next_seq d) g receipt op (correlation oid op g)
    (Some (GateRow.state row)) (Some GateState.CANDIDATE_OPEN) (Some fence0) now detail)).
Proof.
  intros Hev Hr Hs Hop Hd Hne g ->.
  assert (Hok : row_ok row d) by by eapply evolves_row.
  pose proof (ok_route _ _ Hok) as Hroute. unfold route_ok in Hroute. rewrite Hs in Hroute.
  destruct Hroute as (Hopens & _).
  apply (evolves_transition d0 d row); try done.
  - rewrite Hs. right. repeat constructor.
  - rewrite open_receipts_snoc, Hopens. unfold is_open_receipt.
    cbn [Transition.kind Transition.to_state Transition.operation]. rewrite Hop.
    unfold route_ok. cbn. split; [done|]. split; [by rewrite Hd|].
    eexists. split; [done|]. by split_and!; cbn.
Qed.

Lemma open_guards_evolves d0 d row g proof Q :
  evolves d0 d → (candidate_digest proof = GateRow.candidate_digest row →
    GateRow.candidate_generation row = g → Q tt d) →
  dwp (open_guards clock row g proof) Q (λ _, evolves d0) d.
Proof.
  intros Hev HQ. unfold open_guards. apply dwp_bind, dwp_raise_if; [done|]. intros Hg.
  apply dwp_bind, dwp_lift; [intros plan _|done]. apply dwp_bind, dwp_raise_if; [done|].
  intros _. apply dwp_bind, dwp_raise_if; [done|]. intros Hd. reflect.
  dwp_steps; try done; by apply HQ.
Qed.

Lemma open_effect_evolves d0 d row g proof fence0 :
  evolves d0 d → gate_state d = Some row → GateRow.candidate_generation row = g →
  candidate_digest proof = GateRow.candidate_digest row →
  fence0 ≠ EmptyString → GateRow.state row ≠ GateState.OPENING → evolve (open_effect clock row g proof fence0) d0 d.
Proof.
  intros Hev Hr Hg Hd Hne Hst. unfold open_effect.
  apply dwp_bind, dwp_transaction, dwp_bind, dwp_transition; [|done].
  intros row1 now Hr1 _ Hall. assert (row1 = row) as -> by congruence.
  apply to_opening in Hall as [?|Hs]; [done|]. apply dwp_update_row.
  match goal with |- dwp _ _ _ ?d' => set (d1 := d') end.
  set (row1 := row_proof (OpenProof_digest proof)
    (row_transition GateState.OPENING (next_seq d) row)).
  assert (Hr' : gate_state d1 = Some row1) by done.
  assert (Hev1 : evolves d0 d1).
  { apply (evolves_transition d0 d row row1); auto; try done.
    - rewrite Hs. right. constructor.
    - rewrite open_receipts_snoc, not_open_receipt, app_nil_r by auto.
      pose proof (ok_route _ _ (evolves_row _ _ _ Hev Hr)) as Hroute.
      unfold route_ok in *. cbn. rewrite Hs in Hroute. done.
    - intros _. exists proof. split_and!; try done. by intros [=]. }
  clearbody d1. apply dwp_bind, dwp_hit; [|done]. apply dwp_bind, dwp_clock. intros n.
  apply dwp_bind, dwp_traffic; [intros _|done]. apply dwp_bind, dwp_hit; [|done].
  apply dwp_bind, dwp_query; [intros actual|done]. apply dwp_bind, dwp_hit; [|done].
  cbv zeta. destruct (_ || _ : bool) eqn:Hmatch; reflect.
  - apply dwp_bind, (dwp_append_tx d0 d1 row1); auto. intros ? d2 Hev2 Hr2.
    apply dwp_bind. eapply dwp_mono; [by apply fail_close_evolves| |done].
    intros ? d3 Hd3. by apply dwp_raise.
  - apply dwp_bind, dwp_transaction, dwp_bind, dwp_transition; [|done].
    intros row2 now2 Hr2 _ _. assert (row2 = row1) as -> by congruence.
    apply dwp_update_row, dwp_ret. rewrite <-Hg.
    eapply (evolves_opened d0 d1 row1); [done..| |done|done]. by etrans.
Qed.

Lemma open_evolves d0 d g proof : evolves d0 d → evolve (open clock g proof) d0 d.
Proof.
  intros Hev. unfold open. apply dwp_bind, dwp_row; [intros row Hr Hv|done].
  apply dwp_bind, open_guards_evolves; [done|]. intros Hd Hg.
  destruct (bool_decide (GateRow.state row = _)).
  { dwp_steps; done. }
  apply dwp_bind, dwp_raise_if; [done|]. intros Ho. reflect.
  apply dwp_bind, dwp_hit; [|done]. by apply open_effect_evolves.
Qed.

(** Draining keeps the candidate's route. *)
Lemma route_ok_drain d row target :
  row_ok row d →
  GateRow.state row = GateState.CANDIDATE_OPEN ∨ GateRow.state row = GateState.DRAINING →
  target = GateState.CANDIDATE_OPEN ∨ target = GateState.DRAINING →
  route_ok (row_transition target (next_seq d) row) (open_receipts (gate_transition d)).
Proof.
  intros Hok Hs Ht. pose proof (ok_route _ _ Hok) as Hroute. pose proof (ok_tseq _ _ Hok).
  unfold route_ok in *.
  assert (Hcand : GateRow.route_generation row = Some (GateRow.candidate_generation row)
      ∧ GateRow.observed_candidate_digest row = Some (GateRow.candidate_digest row)
      ∧ ∃ e, open_receipts (gate_transition d) = [e]
        ∧ Transition.fence e = Some (GateRow.route_fence row)
        ∧ (Transition.seq e ≤ next_seq d)%Z ∧ GateRow.route_fence row ≠ EmptyString).
  { destruct Hs as [Hs|Hs]; rewrite Hs in Hroute;
      destruct Hroute as (? & ? & e & He & Hf & Hle & ?); split_and!; try done;
      exists e; split_and!; try done; unfold next_seq; lia. }
  cbn. by destruct Ht as [->| ->].
Qed.

Lemma drain_evolves d0 d g : evolves d0 d → evolve (drain (T := T) clock g) d0 d.
Proof.
  intros Hev. unfold drain. apply dwp_bind, dwp_row; [intros row Hr Hv|done].
  apply dwp_bind, dwp_raise_if; [done|]. intros Hg. reflect.
  assert (Hrest : ∀ d1 row1, evolves d0 d1 → gate_state d1 = Some row1 →
    GateRow.state row1 = GateState.DRAINING → GateRow.candidate_generation row1 = g →
    dwp (T := T) (transaction GateDb (
      _transition clock g GateState.CANDIDATE_OPEN "drain" receipt
        (JObj [("unfinished_predecessor", JInt 0)]) None None);; mret true)
      (λ _, evolves d0) (λ _, evolves d0) d1).
  { intros d1 row1 Hev1 Hr1 Hs1 Hg1. apply dwp_bind, dwp_transaction, dwp_transition; [|done].
    intros row2 now Hr2 _ Hall. assert (row2 = row1) as -> by congruence. apply dwp_ret.
    apply (evolves_transition d0 d1 row1); auto; try done.
    rewrite open_receipts_snoc, not_open_receipt, app_nil_r by auto.
    apply route_ok_drain; auto. by eapply evolves_row. }
  apply dwp_bind, dwp_when; intros Hst; reflect.
  - apply dwp_transaction, dwp_bind, dwp_transition; [|done].
    intros row1 now Hr1 _ Hall. assert (row1 = row) as -> by congruence.
    apply to_draining in Hall as [?|Hs]; [done|]. apply dwp_ret.
    match goal with |- dwp _ _ _ ?d' => set (d1 := d') end.
    set (row1 := row_transition GateState.DRAINING (next_seq d) row).
    assert (Hev1 : evolves d0 d1).
    { apply (evolves_transition d0 d row row1); auto; try done.
      - rewrite Hs. right. constructor.
      - rewrite open_receipts_snoc, not_open_receipt, app_nil_r by auto.
        apply route_ok_drain; auto. by eapply evolves_row. }
    apply dwp_bind, dwp_get_db. cbv zeta. case_bool_decide; [by apply dwp_ret|].
    by apply (Hrest d1 row1).
  - apply dwp_bind, dwp_get_db. cbv zeta. case_bool_decide; [by apply dwp_ret|].
    by apply (Hrest d row).
Qed.

(** *** Admissions *)

Lemma find_admission_Some rid l a :
  find_admission rid l = Some a → a ∈ l ∧ Admission.request_id a = rid.
Proof.
  unfold find_admission. intros Hf. apply find_some in Hf as [Hin Hb]. reflect.
  split; [by apply list_elem_of_In|done].
Qed.

Lemma find_admission_None rid l :
  find_admission rid l = None → rid ∉ (Admission.request_id <$> l).
Proof.
  unfold find_admission. intros Hf (a & -> & Ha)%list_elem_of_fmap.
  apply list_elem_of_In in Ha. pose proof (find_none _ _ Hf a Ha) as Hb. cbn in Hb. by reflect.
Qed.

(** The route in force admits to the predecessor before the open receipt and to the candidate
    after it. *)
Lemma admission_ok_new d row rid g at_ :
  row_ok row d → blocked (GateRow.state row) = false → GateRow.route_generation row = Some g →
  admission_ok row (gate_transition d) (Admission.mk rid (GateRow.route_fence row) g at_
    None None None (GateRow.transition_seq row)).
Proof.
  intros Hok Hb Hg. pose proof (ok_tseq _ _ Hok) as Hts. split; [exact Hts|]. cbn.
  pose proof (ok_route _ _ Hok) as Hroute. unfold route_ok in Hroute.
  destruct (GateRow.state row); try discriminate Hb.
  1-3: left; destruct Hroute as (He & Hrg & Hf); split_and!; [congruence|done|];
    intros e Hin; rewrite He in Hin; by apply elem_of_nil in Hin.
  all: right; destruct Hroute as (Hrg & _ & e & He & Hf & Hle & Hne); split; [congruence|];
    by exists e.
Qed.

Definition db_admitted (d : GateDb) (a : Admission.t) (e : AdmissionEvent.t) : GateDb :=
  mkDb (gate_state d) (gate_transition d) (admission d ++ [a]) (admission_event d ++ [e]).

Lemma evolves_admit d0 d row rid g at_ :
  evolves d0 d → gate_state d = Some row → blocked (GateRow.state row) = false →
  GateRow.route_generation row = Some g → find_admission rid (admission d) = None →
  let a := Admission.mk rid (GateRow.route_fence row) g at_ None None None
    (GateRow.transition_seq row) in
  evolves d0 (db_admitted d a (AdmissionEvent.mk (Z.of_nat (S (length (admission_event d)))) rid
    admit_event g (GateRow.route_fence row) at_ (GateRow.transition_seq row) (JObj []))).
Proof.
  intros Hev Hr Hb Hg Hnew a.
  pose proof (evolves_row _ _ _ Hev Hr) as Hok. split.
  - unfold db_ok. cbn. rewrite Hr. pose proof (admission_ok_new d row rid g at_ Hok Hb Hg).
    destruct Hok as [? ? ? ? ? ? ? ? ? ? ? ? ? Hadm Hfin Hreq Hes Hevs].
    split; cbn; auto.
    + intros b [Hin| ->%list_elem_of_singleton]%elem_of_app; [by apply Hadm|done].
    + intros b [Hin| ->%list_elem_of_singleton]%elem_of_app; [by apply Hfin|done].
    + rewrite fmap_app. apply NoDup_app. split; [done|]. split; [|apply NoDup_singleton].
      intros x Hx ->%list_elem_of_singleton. by apply find_admission_None in Hnew.
    + intros i e [Hi|[Hi He]]%lookup_app_Some; [by apply Hes|].
      apply list_lookup_singleton_Some in He as [? <-]. cbn. lia.
    + intros e [Hin| ->%list_elem_of_singleton]%elem_of_app.
      * destruct (Hevs e Hin) as (b & Hb' & ?). exists b. split; [|done].
        apply elem_of_app. by left.
      * exists a. split; [|done]. apply elem_of_app. right. by apply list_elem_of_singleton.
  - destruct Hev as [_ Hle]. etrans; [exact Hle|]. split; cbn.
    + intros r Hr'. exists r. unfold same_identity. repeat split; try done; lia.
    + done.
    + exists (admission d), [a]. split; [done|]. apply Reflexive_instance_0. intros b. by left.
    + by apply prefix_app_r.
Qed.

Lemma observe_admit_evolves d0 d request :
  evolves d0 d → find_admission (request_id request) (admission d) = None →
  dwp (observe_admit clock request) (λ a d', evolves d0 d' ∧ a ∈ admission d'
    ∧ Admission.request_id a = request_id request) (λ _, evolves d0) d.
Proof.
  intros Hev Hnew. unfold observe_admit. apply dwp_bind, dwp_row; [intros row Hr Hv|done].
  apply dwp_bind, dwp_raise_if; [done|]. intros Hb.
  apply dwp_bind, dwp_query; [intros actual|done].
  apply dwp_bind, dwp_row; [intros row' Hr' _|done].
  assert (row' = row) as -> by congruence.
  destruct (route_generation actual) as [g|]; [|by apply dwp_raise].
  apply dwp_bind, dwp_raise_if; [done|]. intros _. apply dwp_bind, dwp_when; intros _.
  { apply dwp_bind. eapply dwp_mono; [by apply fail_close_evolves| |done].
    intros ? d3 Hd3. by apply dwp_raise. }
  apply dwp_bind, dwp_raise_if; [done|]. intros Hroute. reflect.
  apply dwp_bind, dwp_transaction, dwp_bind, dwp_bind, dwp_get_db.
  cbn [Admission.request_id]. rewrite Hnew. apply dwp_update_db, dwp_update_db, dwp_ret.
  match goal with Hf : fence actual = _ |- _ => rewrite Hf end.
  split; [by apply (evolves_admit d0 d row)|]. split; [|done].
  cbn. apply elem_of_app. right. by apply list_elem_of_singleton.
Qed.

Definition finish_in (rid : string) (r : AdmissionResult) (a : Admission.t) : Admission.t :=
  if open_request rid a then finish_row r a else a.

Lemma finish_in_keeps rid r a :
  Admission.request_id (finish_in rid r a) = Admission.request_id a
  ∧ Admission.chosen_generation (finish_in rid r a) = Admission.chosen_generation a
  ∧ Admission.route_epoch (finish_in rid r a) = Admission.route_epoch a
  ∧ Admission.transition_seq (finish_in rid r a) = Admission.transition_seq a.
Proof. unfold finish_in. by destruct (open_request rid a). Qed.

Lemma finish_in_ok rid r a :
  finish_ok a → res_result r = None ↔ res_abort r ≠ None →
  (open_request rid a = true → (Admission.admitted_at a ≤ finished_at r)%Z) →
  finish_ok (finish_in rid r a).
Proof.
  intros Hok Hone Hat. unfold finish_in. destruct (open_request rid a); [|done].
  unfold finish_ok, finish_row. cbn. split; [by apply Hat|].
  destruct (res_result r), (res_abort r); cbn; try done; exfalso; naive_solver.
Qed.

Lemma evolves_finish d0 d row rid r existing now detail :
  evolves d0 d → gate_state d = Some row → existing ∈ admission d →
  Admission.request_id existing = rid → res_result r = None ↔ res_abort r ≠ None →
  (Admission.admitted_at existing ≤ finished_at r)%Z →
  evolves d0 (mkDb (gate_state d) (gate_transition d) (finish_in rid r <$> admission d)
    (admission_event d ++ [AdmissionEvent.mk (Z.of_nat (S (length (admission_event d)))) rid
       finish_event (Admission.chosen_generation existing) (Admission.route_epoch existing) now
       (Admission.transition_seq existing) detail])).
Proof.
  intros Hev Hr Hin Hid Hone Hat. pose proof (evolves_row _ _ _ Hev Hr) as Hok. split.
  - unfold db_ok. cbn. rewrite Hr. destruct Hok as [? ? ? ? ? ? ? ? ? ? ? ? ? Hadm Hfin Hreq Hes Hevs].
    assert (Hmem : ∀ a, a ∈ admission d → finish_in rid r a ∈ finish_in rid r <$> admission d)
      by (intros; by apply list_elem_of_fmap_2).
    split; cbn; auto.
    + intros b (a & -> & Ha)%list_elem_of_fmap. specialize (Hadm a Ha).
      unfold admission_ok in *. destruct (finish_in_keeps rid r a) as (_ & -> & -> & ->).
      exact Hadm.
    + intros b (a & -> & Ha)%list_elem_of_fmap. apply finish_in_ok; [by apply Hfin|done|].
      unfold open_request. intros Ho. reflect.
      assert (a = existing) as -> by (eapply key_inj_of_nodup; [exact Hreq|..]; congruence).
      done.
    + rewrite <-list_fmap_compose.
      rewrite (list_fmap_ext _ Admission.request_id); [done|]. intros i a _.
      apply finish_in_keeps.
    + intros i e [Hi|[Hi He]]%lookup_app_Some; [by apply Hes|].
      apply list_lookup_singleton_Some in He as [? <-]. cbn. lia.
    + intros e [He| ->%list_elem_of_singleton]%elem_of_app.
      * destruct (Hevs e He) as (b & Hb & ?). exists (finish_in rid r b).
        split; [by apply Hmem|]. by destruct (finish_in_keeps rid r b) as (-> & -> & -> & ->).
      * exists (finish_in rid r existing). split; [by apply Hmem|].
        by destruct (finish_in_keeps rid r existing) as (-> & -> & -> & ->).
  - destruct Hev as [_ Hle]. etrans; [exact Hle|]. split; cbn.
    + intros s Hs. exists s. unfold same_identity. repeat split; try done; lia.
    + done.
    + eexists _, []. rewrite app_nil_r. split; [done|]. apply Forall2_fmap_r, Forall_Forall2_diag.
      apply Forall_forall. intros a _. cbv [compose finish_in admission_le].
      destruct (open_request rid a) eqn:Ho; [|by left]. unfold open_request in Ho. reflect.
      right. eauto.
    + by apply prefix_app_r.
Qed.

Lemma observe_finish_evolves d0 d request existing r :
  evolves d0 d → existing ∈ admission d → Admission.request_id existing = request_id request →
  dwp (T := T) (observe_finish request existing r) (λ _, evolves d0) (λ _, evolves d0) d.
Proof.
  intros Hev Hin Hid. unfold observe_finish. apply dwp_bind, dwp_raise_if; [done|].
  intros Hone. apply dwp_bind, dwp_raise_if; [done|]. intros Hat.
  apply dwp_bind, dwp_raise_if; [done|]. intros _. reflect.
  apply dwp_transaction, dwp_bind, dwp_bind, dwp_get_db.
  apply dwp_bind, dwp_update_db, dwp_ret, dwp_bind, dwp_raise_if; [done|]. intros _.
  apply dwp_update_db. destruct (gate_state d) as [row|] eqn:Hr.
  - change (λ a, if open_request (request_id request) a then finish_row r a else a)
      with (finish_in (request_id request) r).
    apply (evolves_finish d0 d row); try done.
    destruct (res_result r), (res_abort r); cbn in Hone; try done; naive_solver.
  - destruct Hev as [Hok _]. unfold db_ok in Hok. rewrite Hr in Hok. subst d.
    by apply elem_of_nil in Hin.
Qed.

Lemma observe_evolves d0 d request r : evolves d0 d → evolve (observe clock request r) d0 d.
Proof.
  intros Hev. unfold observe. apply dwp_bind, dwp_get_db, dwp_bind.
  eapply (dwp_mono _ (λ a d', evolves d0 d' ∧ a ∈ admission d'
    ∧ Admission.request_id a = request_id request) _ (λ _, evolves d0)); [| |done].
  - destruct (find_admission _ _) as [a|] eqn:Ha.
    + apply dwp_ret. apply find_admission_Some in Ha as [? ?]. done.
    + by apply observe_admit_evolves.
  - intros a d' (Hev' & Hin & Hid). apply dwp_bind. destruct r as [r|].
    + eapply dwp_mono; [by apply observe_finish_evolves| |done].
      intros ? d2 Hd2. by apply dwp_ret.
    + by apply dwp_ret, dwp_ret.
Qed.

(** *** Recovery and rollback *)

Lemma last_record_Some op k l t :
  last_record op k l = Some t → t ∈ l ∧ is_record op k t = true.
Proof. apply find_last_Some. Qed.

Lemma cancel_open_evolves d0 d row g i reason :
  evolves d0 d → gate_state d = Some row → GateRow.candidate_generation row = g →
  GateRow.state row = GateState.OPENING → evolve (cancel_open clock g i reason) d0 d.
Proof.
  intros Hev Hr Hg Hs. unfold cancel_open.
  apply dwp_bind, (dwp_append_tx d0 d row); auto. intros ? d1 Hev1 Hr1.
  apply dwp_bind. eapply dwp_mono; [by apply fail_close_evolves| |done].
  intros ? d2 Hd2. by apply dwp_ret.
Qed.

Lemma finish_close_all_evolves d0 d row g i actual closed_route error :
  evolves d0 d → gate_state d = Some row → GateRow.candidate_generation row = g →
  GateRow.state row = GateState.OPENING →
  evolve (finish_close_all clock g i actual closed_route error) d0 d.
Proof.
  intros Hev Hr Hg Hs. unfold finish_close_all.
  apply dwp_bind, (dwp_append_tx d0 d row); auto. intros ? d2 Hev2 Hr2.
  destruct error; [by eapply cancel_open_evolves|].
  apply dwp_bind, dwp_transaction, dwp_bind, dwp_transition; [|done].
  intros row0 now Hr0 _ Hall. apply dwp_update_row, dwp_ret.
  assert (row0 = row) as -> by congruence. eapply (evolves_terminal d0 d2); eauto. by left.
Qed.

Lemma reconcile_close_all_evolves d0 d row g i actual :
  evolves d0 d → gate_state d = Some row → GateRow.candidate_generation row = g →
  GateRow.state row = GateState.OPENING →
  evolve (reconcile_close_all clock g i actual) d0 d.
Proof.
  intros Hev Hr Hg Hs. unfold reconcile_close_all.
  apply dwp_bind, (dwp_append_tx d0 d row); auto. intros ? d1 Hev1 Hr1.
  apply dwp_bind, dwp_hit; [|done].
  apply dwp_bind, dwp_try_else, dwp_traffic; intros x; apply dwp_ret;
    (apply dwp_bind, dwp_hit; [|done]); apply dwp_bind, dwp_try_else, dwp_query; intros y;
    apply dwp_ret; (apply dwp_bind, dwp_hit; [|done]); by eapply finish_close_all_evolves.
Qed.

Lemma reconcile_route_evolves d0 d row i proof actual :
  evolves d0 d → gate_state d = Some row → GateRow.state row = GateState.OPENING →
  candidate_digest proof = GateRow.candidate_digest row →
  Transition.fence i ≠ Some EmptyString →
  evolve (reconcile_route clock (GateRow.candidate_generation row) i proof actual) d0 d.
Proof.
  intros Hev Hr Hs Hcd Hfe. unfold reconcile_route. destruct (_ && _ : bool) eqn:Hm;
    [|by eapply reconcile_close_all_evolves]. reflect.
  apply dwp_bind, dwp_transaction, dwp_bind, dwp_transition; [|done].
  intros row1 now Hr1 _ _. assert (row1 = row) as -> by congruence.
  apply dwp_update_row, dwp_ret.
  eapply (evolves_opened d0 d row); [done..| | |done]; [by etrans|congruence].
Qed.

Lemma dwp_open_stale proof stored staged (Q : bool → GateDb → Prop) (S : exn → GateDb → Prop) d :
  (∀ b, Q b d) → (∀ e, S e d) → dwp (open_stale clock proof stored staged) Q S d.
Proof. intros HQ HS. unfold open_stale. dwp_steps; auto. Qed.

Lemma reconcile_opening_evolves d0 d row :
  evolves d0 d → gate_state d = Some row → GateRow.state row = GateState.OPENING →
  evolve (reconcile_opening clock row) d0 d.
Proof.
  intros Hev Hr Hs. unfold reconcile_opening. apply dwp_bind, dwp_get_db.
  destruct (last_record "open" intent _) as [i|] eqn:Hi; [|by apply dwp_raise].
  apply last_record_Some in Hi as [Hin Hrec].
  destruct (ok_intents _ _ (evolves_row _ _ _ Hev Hr) i Hin Hrec) as (proof & Hd & Hcd & Hfe).
  rewrite Hd, OpenProof_roundtrip. apply dwp_bind, dwp_lift; [|done]. intros ? [= <-].
  apply dwp_bind, dwp_lift; [intros stored _|done].
  apply dwp_bind, dwp_lift; [intros staged _|done].
  apply dwp_bind, dwp_open_stale; [|done]. intros [|]; [by eapply cancel_open_evolves|].
  apply dwp_try_else, dwp_query; [|intros _; by eapply cancel_open_evolves].
  intros actual. by apply reconcile_route_evolves.
Qed.

Lemma reconcile_recovery_close_evolves d0 d row i :
  evolves d0 d → gate_state d = Some row →
  evolve (reconcile_recovery_close clock row i) d0 d.
Proof.
  intros Hev Hr. unfold reconcile_recovery_close. apply dwp_bind, dwp_hit; [|done].
  apply dwp_bind, dwp_suppress, dwp_traffic; intros ?;
    (apply dwp_bind, dwp_hit; [|done]); apply dwp_bind, dwp_query_or_none; intros actual;
    (apply dwp_bind, dwp_hit; [|done]); apply dwp_bind, dwp_get_db;
    apply dwp_bind, dwp_transaction, dwp_bind, dwp_append; intros now;
    (destruct (last_record _ _ _); [|by apply dwp_raise]); apply dwp_bind.
  all: eapply (dwp_terminal d0); auto; [by apply (evolves_append d0 d row); auto|..].
  all: try by (intros row' Hr'; cbn in Hr'; congruence).
  all: try by (left; eexists; split;
    [apply elem_of_app; right; by apply list_elem_of_singleton|by left]).
  all: intros ? d' Hd'; by apply dwp_ret, dwp_ret.
Qed.

Lemma reconcile_evolves d0 d : evolves d0 d → evolve (reconcile clock) d0 d.
Proof.
  intros Hev. unfold reconcile. apply dwp_bind, dwp_row; [intros row Hr Hv|done].
  apply dwp_bind, dwp_get_db.
  destruct (unanswered "fail_close" _) as [i|].
  { unfold reconcile_fail_close.
    apply dwp_bind, dwp_try_else, dwp_query; intros x; apply dwp_ret, dwp_bind.
    all: apply (dwp_record_outcome d0); auto; try congruence.
    all: intros ? ?; by apply dwp_ret. }
  destruct (recovery_close_pending _) as [i|]; [by apply reconcile_recovery_close_evolves|].
  destruct (unanswered "rollback" _) as [i|].
  { unfold reconcile_rollback. apply dwp_bind, dwp_query_or_none. intros actual.
    cbv zeta. destruct (match actual with Some _ => _ | None => _ end);
      [|destruct (is_closed actual)].
    all: apply dwp_bind, dwp_transaction, (dwp_terminal d0); auto; try congruence.
    all: intros ? ? ?; by apply dwp_ret. }
  case_bool_decide; [by apply reconcile_opening_evolves|by apply dwp_ret].
Qed.

(** What the classification of a rollback rests on. *)
Definition classified (row : GateRow.t) (c : RollbackClass.t) (actual : option RouteState) : Prop :=
  match c with
  | RollbackClass.RESTORED_STRONG =>
      ∃ r, actual = Some r ∧ route_generation r = Some (GateRow.predecessor_generation row)
        ∧ fence r = fence_of (GateRow.predecessor_generation row)
  | RollbackClass.BEHAVIORAL => True
  | RollbackClass.FAILED_SAFE => is_closed actual = true
  | RollbackClass.SAFETY_UNKNOWN => True
  end.

Lemma closed_classified row actual : classified row (closed_class actual) actual.
Proof. unfold closed_class. by destruct (is_closed actual) eqn:E. Qed.

Lemma rollback_effect_evolves d0 d row o :
  evolves d0 d → dwp (T := T) (rollback_effect row o)
    (λ c, λ d', (evolves d0 d' ∧ d' = d) ∧ classified row c.1 c.2) (λ _, evolves d0) d.
Proof.
  intros Hev. unfold rollback_effect, close_and_classify.
  assert (∀ actual, (evolves d0 d ∧ d = d) ∧ classified row (closed_class actual) actual) as Hc.
  { intros actual. split; [done|apply closed_classified]. }
  apply dwp_try_else, dwp_traffic; intros ?; dwp_steps; try apply Hc;
    (split; [done|]); cbn; try done.
  all: match goal with Hr : match ?r with Some _ => _ | None => _ end = true |- _ =>
    destruct r as [actual|]; [|done]; reflect; by exists actual end.
Qed.

Lemma classified_outcome row c actual rest :
  classified row c actual →
  outcome_ok (GateRow.predecessor_generation row) (rollback_target c) "rollback"
    (JObj (("classification", JStr (RollbackClass.value c)) :: rest)) actual.
Proof. destruct c; cbn; [by left|by right|done|done]. Qed.

Lemma rollback_evolves d0 d g o : evolves d0 d → evolve (rollback clock g o) d0 d.
Proof.
  intros Hev. unfold rollback. apply dwp_bind, dwp_row; [intros row Hr Hv|done].
  apply dwp_bind, dwp_raise_if; [done|]. intros Hg. reflect.
  apply dwp_bind, (dwp_append_tx d0 d row); auto. intros ? d1 Hev1 Hr1.
  apply dwp_bind, dwp_hit; [|done]. apply dwp_bind.
  eapply dwp_mono; [by apply rollback_effect_evolves| |done].
  intros [outcome actual] d2 [[Hev2 ->] Hc]. apply dwp_bind, dwp_hit; [|done].
  apply dwp_bind, (dwp_record_outcome d0); auto; [congruence|by destruct outcome| |].
  { intros row' Hr'. assert (row' = row) as -> by congruence. by apply classified_outcome. }
  intros ? ?. by apply dwp_ret.
Qed.
End Invariant.

(** ** Reachable databases *)

Variant gate_call :=
  | GStage (candidate predecessor : json)
  | GClose (g : Z)
  | GOpen (g : Z) (proof : OpenProof)
  | GDrain (g : Z)
  | GObserve (request : AdmissionRequest) (result : option AdmissionResult)
  | GReconcile
  | GRollback (g : Z) (o : option BehavioralOracleResult)
  | GFailClose (g : Z) (reason : string).

Section Reachable.
Context `{Sha256} {T : Type} `{!TrafficAuthorityAdapter T} (clock : nat → Z).

Definition gate_exec (c : gate_call) : M (World T) unit :=
  match c with
  | GStage cand pred => stage clock cand pred;; mret tt
  | GClose g => close clock g
  | GOpen g proof => open clock g proof;; mret tt
  | GDrain g => drain clock g;; mret tt
  | GObserve request r => observe clock request r;; mret tt
  | GReconcile => reconcile clock;; mret tt
  | GRollback g o => rollback clock g o;; mret tt
  | GFailClose g reason => fail_close clock g reason;; mret tt
  end.

(** Calls of the gate, each of which may return, raise or crash, interleaved with arbitrary
    changes of everything but the gate's own database: the traffic route, the lease, the
    armed faults, the process that holds the gate. *)
Inductive gate_reachable : World T → Prop :=
  | gr_new w : db w = empty_db → gate_reachable w
  | gr_call w c : gate_reachable w → gate_reachable (gate_exec c w).2
  | gr_world w w' : gate_reachable w → db w' = db w → gate_reachable w'.

Lemma evolves_unit {A} (m : M (World T) A) d0 d :
  dwp m (λ _, evolves d0) (λ _, evolves d0) d →
  dwp (m;; mret tt) (λ _, evolves d0) (λ _, evolves d0) d.
Proof. intros Hm. apply dwp_bind. eapply dwp_mono; [exact Hm|intros ? ? Hd; by apply dwp_ret|done]. Qed.

Lemma gate_exec_evolves c d :
  db_ok d → dwp (gate_exec c) (λ _, evolves d) (λ _, evolves d) d.
Proof.
  intros Hok%evolves_refl. destruct c; cbn [gate_exec]; try apply evolves_unit.
  - by apply stage_evolves.
  - by apply close_evolves.
  - by apply open_evolves.
  - by apply drain_evolves.
  - by apply observe_evolves.
  - by apply reconcile_evolves.
  - by apply rollback_evolves.
  - by apply fail_close_evolves.
Qed.

Lemma gate_exec_step c w : db_ok (db w) → evolves (db w) (db (gate_exec c w).2).
Proof.
  intros Hok. pose proof (gate_exec_evolves c (db w) Hok w eq_refl) as Hw.
  unfold wp in Hw. by destruct (gate_exec c w) as [[[]|e] w'].
Qed.

Lemma reachable_ok w : gate_reachable w → db_ok (db w).
Proof.
  induction 1 as [w Hw|w c Hw IH|w w' Hw IH Heq].
  - by rewrite Hw.
  - by apply gate_exec_step.
  - by rewrite Heq.
Qed.

(** C10. The gate's database is always well formed: after any calls, errors, injected crashes
    and traffic misbehaviour, the transition log is numbered 1, 2, ..., every record is for
    the one staged generation, the log replays through legal transitions to the stored
    state, the digests are those of the stored snapshots, and admissions and events satisfy
    their table constraints.  The stored route is the predecessor's, under its fence, until the
    candidate is open, and then the candidate's, as observed, under the fence of the one open
    receipt; at the end it is closed in FAILED_SAFE and the predecessor's in ROLLED_BACK,
    unless the log has a recovery close, a recovered rollback (neither writes the route) or,
    in ROLLED_BACK, a rollback on the word of a behavioural oracle.  Nothing is claimed of the
    route in SAFETY_UNKNOWN. *)
Theorem gate_database_ok w row :
  gate_reachable w → gate_state (db w) = Some row → row_ok row (db w).
Proof. intros Hok%reachable_ok Hr. unfold db_ok in Hok. by rewrite Hr in Hok. Qed.

(** History is never rewritten: every call, however it ends, only appends to the
    transition and event logs, keeps the generations, snapshots, digests and lease staged at
    the start, lets an admission change only from unfinished to finished, and leaves a
    terminal state (rolled back, failed safe, safety unknown) as it is. *)
Theorem gate_history_monotone w c :
  gate_reachable w → db_le (db w) (db (gate_exec c w).2).
Proof. intros Hok%reachable_ok. by apply gate_exec_step. Qed.

(** C11. Traffic follows the durable route: a request is admitted to the candidate only with
    the fence of the one open receipt and no earlier than that receipt, to the predecessor
    only with the predecessor's fence and before it, and to no other generation. *)
Theorem admissions_follow_route w row a :
  gate_reachable w → gate_state (db w) = Some row → a ∈ admission (db w) →
  (Admission.chosen_generation a = GateRow.candidate_generation row
    ∧ ∃ e, open_receipts (gate_transition (db w)) = [e]
        ∧ Transition.fence e = Some (Admission.route_epoch a)
        ∧ (Transition.seq e ≤ Admission.transition_seq a)%Z)
  ∨ (Admission.chosen_generation a = GateRow.predecessor_generation row
    ∧ Admission.chosen_generation a ≠ GateRow.candidate_generation row
    ∧ Admission.route_epoch a = fence_of (GateRow.predecessor_generation row)
    ∧ ∀ e, e ∈ open_receipts (gate_transition (db w)) →
        (Admission.transition_seq a < Transition.seq e)%Z).
Proof.
  intros Hok%reachable_ok Hr Ha. unfold db_ok in Hok. rewrite Hr in Hok.
  destruct (ok_admissions _ _ Hok a Ha) as [_ [(Hg & He & Hlt)|(Hg & e & ? & ? & ? & _)]];
    [right|left; split; [done|by exists e]].
  split_and!; try done. rewrite (ok_successor _ _ Hok). lia.
Qed.

(** A terminal gate admits nobody: in a terminal state observing a new request raises
    and leaves the database unchanged. *)
Theorem terminal_blocks_admission w row request r :
  gate_state (db w) = Some row → terminal (GateRow.state row) = true →
  find_admission (request_id request) (admission (db w)) = None →
  ∃ e w', observe clock request r w = (Err e, w') ∧ db w' = db w.
Proof.
  intros Hr Ht Hnew.
  assert (Hd : dwp (observe clock request r) (λ _ _, False) (λ _ d', d' = db w) (db w)).
  { unfold observe. apply dwp_bind, dwp_get_db. rewrite Hnew. apply dwp_bind, dwp_bind.
    apply dwp_row; [|done]. intros row' Hr' _. assert (row' = row) as -> by congruence.
    apply dwp_bind, dwp_raise_if; [done|]. intros Hb. exfalso.
    unfold terminal, blocked in *. by destruct (GateRow.state row). }
  specialize (Hd w eq_refl). unfold wp in Hd.
  destruct (observe clock request r w) as [[a|e] w']; [done|]. by exists e, w'.
Qed.
End Reachable.
