(* ===== verification/GateRecovery.v ===== *)
(** * GateRecovery: what the gate's operations achieve

    The postcondition of [open], the measured outcomes of [fail_close] and [rollback], and
    recovery: with the in-process [DeterministicTrafficAdapter] and no further fault,
    [reconcile] settles every interrupted open.  Concrete runs serve as witnesses and show
    two places where recovery falls short of the design text. *)

From S2P Require Import Prelude Effects Json Sha256 ExposureGate GateInvariant.

Local Open Scope string_scope.
Local Open Scope list_scope.

Section Open.
Context `{Sha256} {T : Type} `{!TrafficAuthorityAdapter T} (clock : nat → Z).

(** What [open] checks of a proof against the staged row. *)
Record proof_ok (row : GateRow.t) (g : Z) (proof : OpenProof) : Prop := {
  po_generation : proof_generation proof = g;
  po_staged : GateRow.candidate_generation row = g;
  po_plan : ∃ plan, py_eqb (JStr (proof_plan_id proof)) plan = true
    ∧ (GateRow.candidate_json row = plan ∨ getitem "plan_id" (GateRow.candidate_json row) = Ok plan);
  po_candidate : candidate_digest proof = GateRow.candidate_digest row;
  po_evidence : (1 ≤ evidence_count proof)%Z;
  po_digests : sha256_fullmatch (evidence_digest proof) = true
    ∧ sha256_fullmatch (coverage_digest proof) = true;
  po_lease : LeaseGrant_of_json (GateRow.lease_json row) = Ok (lease proof);
}.

Lemma dwp_open_guards row g proof (Q : unit → GateDb → Prop) (S : exn → GateDb → Prop) d :
  (proof_ok row g proof → Q tt d) → (∀ e, S e d) → dwp (open_guards clock row g proof) Q S d.
Proof.
  intros HQ HS. unfold open_guards. apply dwp_bind, dwp_raise_if; [auto|]. intros Hg.
  apply dwp_bind, dwp_lift; [intros plan Hplan|auto].
  apply dwp_bind, dwp_raise_if; [auto|]. intros Hp.
  apply dwp_bind, dwp_raise_if; [auto|]. intros Hc.
  apply dwp_bind, dwp_raise_if; [auto|]. intros He.
  apply dwp_bind, dwp_lift; [intros staged Hl|auto].
  case_bool_decide as Hs; [|by apply dwp_raise]. subst staged. dwp_steps; auto.
  apply HQ. reflect. split; try done; try lia.
  exists plan. split; [done|]. destruct (GateRow.candidate_json row); try (by right).
  left. congruence.
Qed.

(** [open] returns only when the candidate is durably open: it returns a fence for which
    the proof was complete (generation, plan, candidate digest, at least one piece of
    evidence, well-formed digests, the staged lease), the stored state is CANDIDATE_OPEN, and
    the stored route is the proof's generation with the returned fence, observed with the
    proof's candidate digest. *)
Theorem open_postcondition w g proof f w' :
  gate_reachable clock w → open clock g proof w = (Ok f, w') →
  ∃ row row', gate_state (db w) = Some row ∧ gate_state (db w') = Some row'
    ∧ proof_ok row g proof
    ∧ GateRow.state row' = GateState.CANDIDATE_OPEN
    ∧ GateRow.route_generation row' = Some g ∧ GateRow.route_fence row' = f
    ∧ GateRow.proof_digest row' = Some (OpenProof_digest proof)
    ∧ GateRow.observed_candidate_digest row' = Some (candidate_digest proof).
Proof.
  intros Hok%reachable_ok Hrun.
  assert (Hd : dwp (open clock g proof)
    (λ f d', ∃ row row', gate_state (db w) = Some row ∧ gate_state d' = Some row'
      ∧ proof_ok row g proof
      ∧ GateRow.state row' = GateState.CANDIDATE_OPEN
      ∧ GateRow.route_generation row' = Some g ∧ GateRow.route_fence row' = f
      ∧ GateRow.proof_digest row' = Some (OpenProof_digest proof)
      ∧ GateRow.observed_candidate_digest row' = Some (candidate_digest proof))
    (λ _ _, True) (db w)).
  2: { specialize (Hd w eq_refl). unfold wp in Hd. by rewrite Hrun in Hd. }
  unfold open. apply dwp_bind, dwp_row; [intros row Hr Hv|done].
  apply dwp_bind, dwp_open_guards; [intros Hproof|done].
  destruct (bool_decide (GateRow.state row = _)) eqn:Hst; reflect.
  - apply dwp_bind, dwp_raise_if; [done|]. intros Hpd. reflect. apply dwp_ret.
    exists row, row. unfold db_ok in Hok. rewrite Hr in Hok.
    pose proof (ok_route _ _ Hok) as Hroute. unfold route_ok in Hroute. rewrite Hst in Hroute.
    destruct Hroute as (Hg & Ho & _). rewrite (po_staged _ _ _ Hproof) in Hg.
    rewrite <-(po_candidate _ _ _ Hproof) in Ho. done.
  - apply dwp_bind, dwp_raise_if; [done|]. intros _. apply dwp_bind, dwp_hit; [|done].
    unfold open_effect. apply dwp_bind, dwp_transaction, dwp_bind, dwp_transition; [|done].
    intros row1 now Hr1 _ _. assert (row1 = row) as -> by congruence. apply dwp_update_row.
    apply dwp_bind, dwp_hit; [|done]. apply dwp_bind, dwp_clock. intros n.
    apply dwp_bind, dwp_traffic; [intros _|done]. apply dwp_bind, dwp_hit; [|done].
    apply dwp_bind, dwp_query; [intros actual|done]. apply dwp_bind, dwp_hit; [|done].
    cbv zeta. destruct (_ || _ : bool) eqn:Hm.
    { apply dwp_bind. eapply (dwp_mono _ (λ _ _, True) _ (λ _ _, True)); [|intros ? d2 _|done].
      - dwp_steps; done.
      - apply dwp_bind. eapply (dwp_mono _ (λ _ _, True) _ (λ _ _, True)); [|intros ? d3 _|done].
        + unfold fail_close, record_outcome. dwp_steps; done.
        + by apply dwp_raise. }
    reflect. apply dwp_bind, dwp_transaction, dwp_bind, dwp_transition; [|done].
    intros row2 now2 Hr2 _ _. injection Hr2 as <-. apply dwp_update_row, dwp_ret.
    eexists row, _. split; [done|]. split; [done|]. split; [done|]. cbn.
    split_and!; try done. by f_equal.
Qed.
End Open.

(** ** Rules over the whole world *)

Section WorldRules.
Context `{Sha256} {T : Type} `{!TrafficAuthorityAdapter T} (clock : nat → Z).

(** Everything but the database and the clock is as before. *)
Definition same_env (w w' : World T) : Prop :=
  traffic w' = traffic w ∧ faults w' = faults w ∧ own_authority w' = own_authority w.

#[export] Instance same_env_preorder : PreOrder same_env.
Proof. split; [done|]. intros x y z (?&?&?) (?&?&?). unfold same_env. intuition congruence. Qed.

Lemma wp_row w row (Q : GateRow.t → World T → Prop) S :
  gate_state (db w) = Some row → GateRow.schema_version row = schema_version →
  Q row w → wp _row Q S w.
Proof.
  intros Hr Hv HQ. unfold _row, get_db. wp_steps. rewrite Hr. wp_steps; [|done].
  rewrite Hv in *. done.
Qed.

Lemma wp_hit_unarmed w point (Q : unit → World T → Prop) S :
  faults w = ∅ → Q tt w → wp (_hit point) Q S w.
Proof.
  intros Hf HQ. unfold _hit. wp_steps; [|done]. rewrite Hf in *. reflect. set_solver.
Qed.

Lemma wp_gate_append w g k op from to fence detail oid (Q : Z → World T → Prop) S :
  (∀ w' now, same_env w w' → db w' = logged (db w)
    (Transition.mk (next_seq (db w)) g k op (correlation oid op g) from to fence now detail) →
    Q (next_seq (db w)) w') →
  wp (_append clock g k op from to fence detail oid) Q S w.
Proof.
  intros HQ. unfold _append, read_clock, get_db, update_db. wp_steps. by eapply HQ.
Qed.

Lemma wp_transition w row g target op k detail fence oid (Q : Z → World T → Prop) S :
  gate_state (db w) = Some row → GateRow.schema_version row = schema_version →
  target = GateRow.state row ∨ target ∈ allowed (GateRow.state row) →
  (∀ w' now, same_env w w' →
    db w' = set_gate_state (Some (row_transition target (next_seq (db w)) row))
      (logged (db w) (Transition.mk (next_seq (db w)) g k op (correlation oid op g)
        (Some (GateRow.state row)) (Some target) fence now detail)) →
    Q (next_seq (db w)) w') →
  wp (_transition clock g target op k detail fence oid) Q S w.
Proof.
  intros Hr Hv Hall HQ. unfold _transition. apply wp_bind, (wp_row w row); [done..|].
  apply wp_bind, wp_raise_if.
  { intros Hb. exfalso. reflect. destruct Hall as [?|Hall]; [done|]. done. }
  intros _. apply wp_bind, wp_gate_append. intros w1 now He1 Hdb1. unfold cas_row, update_row, update_db, get_db.
  wp_steps. rewrite Hdb1. cbn. rewrite Hr, Z.eqb_refl. wp_steps; [done|].
  apply (HQ _ now); [done|]. cbn. rewrite Hdb1. cbn. by rewrite Hr.
Qed.

Lemma wp_update_row f w (Q : unit → World T → Prop) S :
  (∀ w', same_env w w' → db w' = set_gate_state (f <$> gate_state (db w)) (db w) → Q tt w') →
  wp (update_row f) Q S w.
Proof. intros HQ. unfold update_row, update_db. wp_steps. by apply HQ. Qed.

(** A transaction whose body cannot raise. *)
Lemma wp_transaction_ok {A} (m : M (World T) A) (Q : A → World T → Prop) S w :
  wp m Q (λ _ _, False) w → wp (transaction GateDb m) Q S w.
Proof. intros Hm. apply wp_transaction. eapply wp_mono; [exact Hm|done|done]. Qed.
End WorldRules.

(** ** The in-process adapter *)

Module D := DeterministicTrafficAdapter.

Definition closed_route : RouteState := mkRoute None "closed" JNull.

Section Deterministic.
Context `{Sha256} (clock : nat → Z).
#[local] Abbreviation DW := (World D.t).

(** The route all traffic takes. *)
Definition live_route (w : DW) : RouteState := D.route (traffic w).

(** No fault point is armed, in the gate or in the adapter. *)
Definition calm (w : DW) : Prop := faults w = ∅ ∧ D.faults (traffic w) = ∅.

Lemma same_env_calm w w' : same_env w w' → calm w → calm w'.
Proof. intros (Ht & Hf & _) [? ?]. split; congruence. Qed.

Lemma same_env_route w w' : same_env w w' → live_route w' = live_route w.
Proof. intros (Ht & _). unfold live_route. congruence. Qed.

Lemma det_query w : calm w → query_route w = (Ok (live_route w), w).
Proof.
  intros [_ Hf]. unfold query_route, zoom. cbn. unfold D.query_route, D._hit. cbn.
  unfold mbind, M_bind, gets, when. rewrite Hf, bool_decide_false by set_solver. by destruct w.
Qed.

Lemma wp_det_query w (Q : RouteState → DW → Prop) S :
  calm w → Q (live_route w) w → wp query_route Q S w.
Proof. intros Hc HQ. unfold wp. by rewrite det_query. Qed.

Definition with_route (r : RouteState) (w : DW) : DW := lset (D.set_route r (traffic w)) w.

Lemma wp_det_close_all w (Q : unit → DW → Prop) S :
  calm w → Q tt (with_route closed_route w) → wp (zoom (traffic_close_all (T := D.t))) Q S w.
Proof.
  intros [_ Hf] HQ. unfold wp, zoom. cbn. unfold D.close_all, D._hit. cbn.
  unfold mbind, M_bind, gets, when. by rewrite Hf, bool_decide_false by set_solver.
Qed.

Lemma calm_with_route r w : calm w → calm (with_route r w).
Proof. done. Qed.

Lemma wp_det_lease_valid w g now (Q : bool → DW → Prop) S :
  (∀ b, Q b w) → wp (zoom (traffic_lease_valid (T := D.t) g now)) Q S w.
Proof. intros HQ. unfold wp, zoom. cbn. destruct w. apply HQ. Qed.

Definition settled (s : GateState.t) (w : DW) : Prop :=
  ∃ row, gate_state (db w) = Some row ∧ GateRow.state row = s.

Lemma wp_record_outcome w row g target op detail oid actual (Q : unit → DW → Prop) S :
  gate_state (db w) = Some row → GateRow.schema_version row = schema_version →
  target = GateRow.state row ∨ target ∈ allowed (GateRow.state row) →
  (∀ w', same_env w w' → settled target w' → Q tt w') →
  wp (record_outcome clock g target op detail oid actual) Q S w.
Proof.
  intros Hr Hv Hall HQ. unfold record_outcome. apply wp_transaction_ok.
  apply wp_bind, (wp_transition clock w row); [done..|]. intros w1 now He1 Hdb1.
  apply wp_update_row. intros w2 He2 Hdb2. apply HQ; [by etrans|].
  eexists. rewrite Hdb2, Hdb1. split; [done|]. done.
Qed.

Definition opening_row (row : GateRow.t) : Prop :=
  GateRow.schema_version row = schema_version ∧ GateRow.state row = GateState.OPENING.

(** With no fault armed [fail_close] of an opening gate closes the route and says so. *)
Lemma wp_fail_close_calm w row g reason (Q : FailCloseResult → DW → Prop) S :
  calm w → gate_state (db w) = Some row → opening_row row →
  GateRow.candidate_generation row = g →
  (∀ r w', classification r = RollbackClass.FAILED_SAFE → live_route w' = closed_route →
    settled GateState.FAILED_SAFE w' → Q r w') →
  wp (fail_close clock g reason) Q S w.
Proof.
  intros Hc Hr [Hv Hs] Hg HQ. unfold fail_close. apply wp_bind, (wp_row w row); [done..|].
  apply wp_bind, wp_raise_if; [intros Hb; reflect; done|]. intros _.
  apply wp_bind, wp_transaction_ok, wp_gate_append. intros w1 now He1 Hdb1.
  assert (Hc1 : calm w1) by by eapply same_env_calm.
  apply wp_bind, wp_hit_unarmed; [apply Hc1|].
  apply wp_bind, wp_try_else, wp_det_close_all; [done|].
  apply wp_ret, wp_bind, wp_hit_unarmed; [apply Hc1|].
  apply wp_bind, wp_try_else, wp_det_query; [by apply calm_with_route|]. apply wp_ret, wp_bind.
  change (live_route (with_route closed_route w1)) with closed_route.
  apply (wp_record_outcome _ row); [|done| |].
  - cbn. by rewrite Hdb1.
  - right. rewrite Hs. cbn. do 1 constructor. constructor.
  - intros w2 He2 Hset. apply wp_ret, HQ; [done| |done].
    by rewrite (same_env_route _ _ He2).
Qed.

Definition settled_safe (s : GateState.t) (w : DW) : Prop :=
  s = GateState.FAILED_SAFE ∧ live_route w = closed_route ∧ settled s w.

Lemma wp_cancel_open_calm w row i reason S :
  calm w → gate_state (db w) = Some row → opening_row row →
  wp (cancel_open clock (GateRow.candidate_generation row) i reason) settled_safe S w.
Proof.
  intros Hc Hr Ho. unfold cancel_open. apply wp_bind, wp_transaction_ok, wp_gate_append.
  intros w1 now He1 Hdb1. apply wp_bind, (wp_fail_close_calm w1 row); try done.
  - by eapply same_env_calm.
  - by rewrite Hdb1.
  - intros r w2 Hr2 Hl2 Hs2. apply wp_ret. rewrite Hr2. done.
Qed.

Lemma wp_reconcile_close_all_calm w row i actual S :
  calm w → gate_state (db w) = Some row → opening_row row →
  wp (reconcile_close_all clock (GateRow.candidate_generation row) i actual) settled_safe S w.
Proof.
  intros Hc Hr [Hv Hs]. unfold reconcile_close_all. apply wp_bind, wp_transaction_ok, wp_gate_append.
  intros w1 now He1 Hdb1. assert (Hc1 : calm w1) by by eapply same_env_calm.
  apply wp_bind, wp_hit_unarmed; [apply Hc1|].
  apply wp_bind, wp_try_else, wp_det_close_all; [done|].
  apply wp_ret, wp_bind, wp_hit_unarmed; [apply Hc1|].
  apply wp_bind, wp_try_else, wp_det_query; [by apply calm_with_route|].
  apply wp_ret, wp_bind, wp_hit_unarmed; [apply Hc1|].
  unfold finish_close_all. apply wp_bind, wp_transaction_ok, wp_gate_append.
  intros w2 now2 He2 Hdb2. apply wp_bind, wp_transaction_ok, wp_bind, (wp_transition clock w2 row).
  - rewrite Hdb2. cbn. by rewrite Hdb1.
  - done.
  - right. rewrite Hs. cbn. do 1 constructor. constructor.
  - intros w3 now3 He3 Hdb3. apply wp_update_row. intros w4 He4 Hdb4. apply wp_ret.
    split; [done|]. split.
    + rewrite (same_env_route _ _ He4), (same_env_route _ _ He3), (same_env_route _ _ He2). done.
    + eexists. rewrite Hdb4, Hdb3. done.
Qed.

(** The route is the candidate's, with the stored fence. *)
Definition settled_open (row : GateRow.t) (s : GateState.t) (w : DW) : Prop :=
  s = GateState.CANDIDATE_OPEN
  ∧ route_generation (live_route w) = Some (GateRow.candidate_generation row)
  ∧ _digest (snapshot (live_route w)) = GateRow.candidate_digest row
  ∧ ∃ row', gate_state (db w) = Some row' ∧ GateRow.state row' = s
      ∧ GateRow.route_generation row' = Some (GateRow.candidate_generation row)
      ∧ GateRow.route_fence row' = fence (live_route w).

Lemma wp_reconcile_route_calm w row i proof S :
  calm w → gate_state (db w) = Some row → opening_row row →
  candidate_digest proof = GateRow.candidate_digest row →
  wp (reconcile_route clock (GateRow.candidate_generation row) i proof (live_route w))
    (λ s w', settled_open row s w' ∨ settled_safe s w') S w.
Proof.
  intros Hc Hr [Hv Hs] Hcd. unfold reconcile_route. destruct (_ && _ : bool) eqn:Hm.
  - reflect. apply wp_bind, wp_transaction_ok, wp_bind, (wp_transition clock w row); [done..| |].
    { right. rewrite Hs. constructor. }
    intros w1 now He1 Hdb1. apply wp_update_row. intros w2 He2 Hdb2. apply wp_ret. left.
    assert (Hl : live_route w2 = live_route w).
    { by rewrite (same_env_route _ _ He2), (same_env_route _ _ He1). }
    unfold settled_open. rewrite Hl. split_and!; [done|done|congruence|].
    eexists. rewrite Hdb2, Hdb1. done.
  - eapply (wp_mono _ _ _ S); [by apply wp_reconcile_close_all_calm|auto|done].
Qed.

Lemma wp_open_stale w proof stored staged (Q : bool → DW → Prop) S :
  (∀ b w', same_env w w' → db w' = db w → Q b w') →
  wp (open_stale clock proof stored staged) Q S w.
Proof.
  intros HQ. unfold open_stale. destruct (_ || _ : bool); [apply wp_ret; by apply HQ|].
  unfold read_clock. apply wp_bind, wp_bind, wp_gets, wp_bind, wp_modify, wp_ret.
  apply wp_bind, wp_det_lease_valid. intros b.
  apply wp_ret. by apply HQ.
Qed.

(** C37. Over the repository's own [DeterministicTrafficAdapter], recovery settles every
    interrupted open: in a gate left OPENING, with no fault armed and no close or rollback
    pending, [reconcile] returns, and afterwards either the candidate is open, the live route
    has its generation and snapshot digest and the stored fence, or the gate is FAILED_SAFE and
    the live route is closed.  This needs an authority whose close-all closes: over another one
    [reconcile] can end in FAILED_SAFE with a live route ([failed_safe_without_closed_route]). *)
Theorem reconcile_settles_open w row :
  gate_reachable clock w → calm w → gate_state (db w) = Some row →
  GateRow.state row = GateState.OPENING →
  unanswered "fail_close" (gate_transition (db w)) = None →
  recovery_close_pending (gate_transition (db w)) = None →
  unanswered "rollback" (gate_transition (db w)) = None →
  ∃ s w', reconcile clock w = (Ok s, w') ∧ (settled_open row s w' ∨ settled_safe s w').
Proof.
  intros Hok%reachable_ok Hc Hr Hs Hf Hcl Hrb. unfold db_ok in Hok. rewrite Hr in Hok.
  assert (Ho : opening_row row) by (split; [apply (ok_version _ _ Hok)|done]).
  assert (Hw : wp (reconcile clock) (λ s w', settled_open row s w' ∨ settled_safe s w')
    (λ _ _, False) w).
  2: { unfold wp in Hw. destruct (reconcile clock w) as [[s|e] w']; [by exists s, w'|done]. }
  unfold reconcile. apply wp_bind, (wp_row w row); [done|apply Ho|].
  unfold get_db. wp_steps. rewrite Hf, Hcl, Hrb, bool_decide_true by done.
  unfold reconcile_opening, get_db. wp_steps.
  destruct (ok_opening _ _ Hok Hs) as (t & Ht & Hrec).
  destruct (last_record "open" intent (gate_transition (db w))) as [i|] eqn:Hi.
  2: { exfalso. unfold last_record, find_last in Hi.
       pose proof (find_none _ _ Hi t) as Hn. rewrite Hn in Hrec; [done|].
       apply in_rev. rewrite rev_involutive. by apply list_elem_of_In. }
  apply last_record_Some in Hi as [Hin Hrec'].
  destruct (ok_intents _ _ Hok i Hin Hrec') as (proof & Hd & Hcd & _).
  destruct (ok_lease _ _ Hok) as [grant Hg].
  rewrite Hd, OpenProof_roundtrip, Hg, LeaseGrant_roundtrip.
  apply wp_bind, wp_lift_result; [intros ? [= <-]|done].
  apply wp_bind, wp_lift_result; [intros stored _|done].
  apply wp_bind, wp_lift_result; [intros ? [= <-]|done].
  apply wp_bind, wp_open_stale. intros [|] w1 He1 Hdb1.
  { eapply (wp_mono _ _ _ (λ _ _, False)); [apply (wp_cancel_open_calm _ row)|auto|done];
      [|congruence|done].
    by eapply same_env_calm. }
  apply wp_try_else, wp_det_query; [by eapply same_env_calm|].
  apply wp_reconcile_route_calm; try done; [by eapply same_env_calm|congruence].
Qed.
End Deterministic.

(** ** Concrete runs *)

Module GateDemo.
Definition clock (n : nat) : Z := 100 + Z.of_nat n.
Definition pred_json : json := JObj [("generation", JInt 3); ("plan_id", JNull)].
Definition cand_json : json := JStr "plan-1".
Definition digest0 : string :=
  "sha256:0000000000000000000000000000000000000000000000000000000000000000".
Definition grant : LeaseGrant := mkGrant "manager" 1 (2 ^ 62).
Definition proof : OpenProof := mkProof "plan-1" 4 1 digest0 digest0 grant (_digest cand_json).

Section Run.
Context {T : Type} `{!TrafficAuthorityAdapter T}.

Definition run (w : World T) (cs : list gate_call) : World T :=
  foldl (λ w c, (gate_exec clock c w).2) w cs.

Lemma run_reachable w cs : gate_reachable clock w → gate_reachable clock (run w cs).
Proof.
  intros Hw. unfold run. induction cs as [|c cs IH] using rev_ind; [done|].
  rewrite foldl_app. by constructor.
Qed.
End Run.

Definition world0 (faults : gset string) : World D.t :=
  mkWorld empty_db faults 0 None (D.init 3 pred_json None ∅ false false).

Lemma world0_reachable f : gate_reachable clock (world0 f).
Proof. by apply gr_new. Qed.

(** Admit to the predecessor, open the candidate, drain, admit to the candidate. *)
Definition calls : list gate_call :=
  [GStage cand_json pred_json; GObserve (mkRequest "r1" 1) None; GClose 4; GOpen 4 proof;
   GDrain 4; GObserve (mkRequest "r1" 1) (Some (mkAdmissionResult 5 (Some "ok") None));
   GDrain 4; GObserve (mkRequest "r2" 7) None].

(** The process dies between the open's side effect and its receipt. *)
Definition crashed : World D.t :=
  run (world0 {["open.after_side_effect"]}) [GStage cand_json pred_json; GClose 4; GOpen 4 proof].
(** ... or before the side effect. *)
Definition crashed_early : World D.t :=
  run (world0 {["open.after_intent"]}) [GStage cand_json pred_json; GClose 4; GOpen 4 proof].

Definition state_of {T} (w : World T) : option GateState.t :=
  GateRow.state <$> gate_state (db w).

Example run_opens : state_of (run (world0 ∅) calls) = Some GateState.CANDIDATE_OPEN
  ∧ (Admission.chosen_generation <$> admission (db (run (world0 ∅) calls))) = [3; 4]%Z.
Proof. vm_compute. done. Qed.

Example crashed_opening : state_of crashed = Some GateState.OPENING
  ∧ state_of crashed_early = Some GateState.OPENING.
Proof. vm_compute. done. Qed.

End GateDemo.

Lemma gate_database_ok_witness :
  ∃ row, gate_state (db (GateDemo.run (GateDemo.world0 ∅) GateDemo.calls)) = Some row
    ∧ row_ok row (db (GateDemo.run (GateDemo.world0 ∅) GateDemo.calls)).
Proof.
  destruct (gate_state (db (GateDemo.run (GateDemo.world0 ∅) GateDemo.calls))) as [row|] eqn:Hr.
  - exists row. split; [done|]. apply (gate_database_ok GateDemo.clock); [|done].
    apply GateDemo.run_reachable, GateDemo.world0_reachable.
  - exfalso. revert Hr. vm_compute. discriminate.
Defined.

Lemma gate_history_monotone_witness :
  db_le (db (GateDemo.run (GateDemo.world0 ∅) GateDemo.calls))
    (db (gate_exec GateDemo.clock (GRollback 4 None)
           (GateDemo.run (GateDemo.world0 ∅) GateDemo.calls)).2).
Proof.
  apply gate_history_monotone, GateDemo.run_reachable, GateDemo.world0_reachable.
Defined.

Lemma open_postcondition_witness :
  ∃ f w' row', open GateDemo.clock 4 GateDemo.proof
      (GateDemo.run (GateDemo.world0 ∅) [GStage GateDemo.cand_json GateDemo.pred_json; GClose 4])
      = (Ok f, w')
    ∧ gate_state (db w') = Some row' ∧ GateRow.route_fence row' = f.
Proof.
  destruct (open GateDemo.clock 4 GateDemo.proof (GateDemo.run (GateDemo.world0 ∅)
    [GStage GateDemo.cand_json GateDemo.pred_json; GClose 4])) as [[f|e] w'] eqn:Hrun.
  - destruct (open_postcondition GateDemo.clock _ 4 GateDemo.proof f w'
      (GateDemo.run_reachable _ _ (GateDemo.world0_reachable ∅)) Hrun)
      as (row & row' & _ & Hr' & _ & _ & _ & Hf & _).
    exists f, w', row'. exact (conj eq_refl (conj Hr' Hf)).
  - exfalso. revert Hrun. vm_compute. discriminate.
Defined.

Lemma admissions_follow_route_witness :
  ∃ row a, gate_state (db (GateDemo.run (GateDemo.world0 ∅) GateDemo.calls)) = Some row
    ∧ Admission.chosen_generation a = 4%Z
    ∧ a ∈ admission (db (GateDemo.run (GateDemo.world0 ∅) GateDemo.calls))
    ∧ ((Admission.chosen_generation a = GateRow.candidate_generation row
        ∧ ∃ e, open_receipts (gate_transition
              (db (GateDemo.run (GateDemo.world0 ∅) GateDemo.calls))) = [e]
          ∧ Transition.fence e = Some (Admission.route_epoch a)
          ∧ (Transition.seq e ≤ Admission.transition_seq a)%Z)
       ∨ (Admission.chosen_generation a = GateRow.predecessor_generation row
        ∧ Admission.chosen_generation a ≠ GateRow.candidate_generation row
        ∧ Admission.route_epoch a = fence_of (GateRow.predecessor_generation row)
        ∧ ∀ e, e ∈ open_receipts (gate_transition
              (db (GateDemo.run (GateDemo.world0 ∅) GateDemo.calls))) →
            (Admission.transition_seq a < Transition.seq e)%Z)).
Proof.
  destruct (gate_state (db (GateDemo.run (GateDemo.world0 ∅) GateDemo.calls))) as [row|] eqn:Hr.
  2: { exfalso. revert Hr. vm_compute. discriminate. }
  destruct (admission (db (GateDemo.run (GateDemo.world0 ∅) GateDemo.calls)))
    as [|a0 [|a l]] eqn:Ha; [exfalso; revert Ha; vm_compute; discriminate..|].
  exists row, a. split; [reflexivity|].
  assert (Hin : a ∈ a0 :: a :: l) by (right; left).
  split; [|split; [exact Hin|]].
  - revert Ha. vm_compute. intros [= <- <- <-]. reflexivity.
  - rewrite <-Ha in Hin. apply (admissions_follow_route GateDemo.clock); [|exact Hr|exact Hin].
    apply GateDemo.run_reachable, GateDemo.world0_reachable.
Defined.

Lemma terminal_blocks_admission_witness :
  ∃ e w', observe GateDemo.clock (mkRequest "late" 9) None
      (GateDemo.run (GateDemo.world0 ∅) (GateDemo.calls ++ [GRollback 4 None])) = (Err e, w')
    ∧ db w' = db (GateDemo.run (GateDemo.world0 ∅) (GateDemo.calls ++ [GRollback 4 None])).
Proof.
  destruct (gate_state (db (GateDemo.run (GateDemo.world0 ∅)
    (GateDemo.calls ++ [GRollback 4 None])))) as [row|] eqn:Hr.
  - apply (terminal_blocks_admission GateDemo.clock _ row); [exact Hr| |].
    + revert Hr. vm_compute. intros [= <-]. reflexivity.
    + vm_compute. reflexivity.
  - exfalso. revert Hr. vm_compute. discriminate.
Defined.

Lemma reconcile_settles_open_witness :
  ∃ row s w', gate_state (db GateDemo.crashed) = Some row
    ∧ reconcile GateDemo.clock GateDemo.crashed = (Ok s, w')
    ∧ (settled_open row s w' ∨ settled_safe s w').
Proof.
  destruct (gate_state (db GateDemo.crashed)) as [row|] eqn:Hr.
  - destruct (reconcile_settles_open GateDemo.clock GateDemo.crashed row) as (s & w' & Hrun & Hset).
    + apply GateDemo.run_reachable, GateDemo.world0_reachable.
    + split; vm_compute; reflexivity.
    + exact Hr.
    + revert Hr. vm_compute. intros [= <-]. reflexivity.
    + vm_compute. reflexivity.
    + vm_compute. reflexivity.
    + vm_compute. reflexivity.
    + exists row, s, w'. exact (conj eq_refl (conj Hrun Hset)).
  - exfalso. revert Hr. vm_compute. discriminate.
Defined.

(** ** Where recovery falls short *)

(** A traffic authority whose close is not effective and does not say so. *)
Module StuckAdapter.
Record t := mk { inner : D.t }.

Definition lift {A} (m : M D.t A) : M t A := λ s,
  let '(r, i) := m (inner s) in (r, mk i).
End StuckAdapter.

#[export] Instance stuck_adapter : TrafficAuthorityAdapter StuckAdapter.t := {
  traffic_authority s := D.authority (StuckAdapter.inner s);
  behavioral_restore s := D.behavioral (StuckAdapter.inner s);
  traffic_close g := StuckAdapter.lift (D.close g);
  traffic_open g f s l n := StuckAdapter.lift (D.open g f s l n);
  traffic_close_all := mret tt;
  traffic_restore g f s := StuckAdapter.lift (D.restore g f s);
  traffic_lease_valid g n := StuckAdapter.lift (D.lease_valid g n);
  traffic_query_route := StuckAdapter.lift D.query_route;
}.

Module StuckDemo.
Definition world : World StuckAdapter.t :=
  GateDemo.run (mkWorld empty_db {["open.after_intent"]} 0 None
      (StuckAdapter.mk (D.init 3 GateDemo.pred_json None ∅ false false)))
    [GStage GateDemo.cand_json GateDemo.pred_json; GClose 4; GOpen 4 GateDemo.proof].
End StuckDemo.

(** Finding: FAILED_SAFE does not always mean that all traffic was seen closed.  After a
    crash before the open's side effect, with a traffic authority whose close-all silently
    does nothing, [reconcile] queries the route after closing, does not look at the answer,
    and records FAILED_SAFE with the route fence closed while the predecessor still serves.
    (The other paths to FAILED_SAFE compare the queried route.) *)
Theorem failed_safe_without_closed_route :
  gate_reachable GateDemo.clock StuckDemo.world ∧
  ∃ w' row, reconcile GateDemo.clock StuckDemo.world = (Ok GateState.FAILED_SAFE, w')
    ∧ gate_state (db w') = Some row ∧ GateRow.state row = GateState.FAILED_SAFE
    ∧ GateRow.route_fence row = "closed"
    ∧ D.route (StuckAdapter.inner (traffic w')) = mkRoute (Some 3%Z) "fence-3" GateDemo.pred_json.
Proof.
  split; [by apply GateDemo.run_reachable, gr_new|].
  eexists _, _. split; [vm_compute; reflexivity|]. vm_compute. done.
Qed.

(** Finding: the recovery of a rollback records its outcome and leaves the route columns, which
    the rollback itself would have set: after a crash between the effect and the receipt the gate
    is ROLLED_BACK, the predecessor is live, and the stored route is still the candidate's. *)
Module StaleRoute.
Definition recovered : World D.t :=
  GateDemo.run (GateDemo.world0 {["rollback.after_effect"]})
    [GStage GateDemo.cand_json GateDemo.pred_json; GClose 4; GOpen 4 GateDemo.proof;
     GRollback 4 None; GReconcile].
Definition stored_route : option (option Z) := GateRow.route_generation <$> gate_state (db recovered).

Example recovered_route_stale :
  GateDemo.state_of recovered = Some GateState.ROLLED_BACK ∧ stored_route = Some (Some 4%Z)
  ∧ route_generation (live_route recovered) = Some 3%Z.
Proof. vm_compute. done. Qed.
End StaleRoute.

Module RollbackDemo.
Definition rolled : result RollbackClass.t * World D.t :=
  rollback GateDemo.clock 4 None GateDemo.crashed_early.
Definition recovered : result GateState.t * World D.t :=
  reconcile GateDemo.clock rolled.2.
End RollbackDemo.

(** Finding: a rollback requested while an open is unresolved wedges the gate.  The
    rollback restores the predecessor and then cannot record it, OPENING has no transition to
    ROLLED_BACK; from then on every [reconcile] finds the unanswered rollback, raises the same
    error and leaves the gate OPENING. *)
Theorem rollback_while_opening_wedges :
  gate_reachable GateDemo.clock RollbackDemo.rolled.2
  ∧ RollbackDemo.rolled.1 = Err (GateError "invalid gate transition OPENING->ROLLED_BACK")
  ∧ RollbackDemo.recovered.1 = Err (GateError "invalid gate transition OPENING->ROLLED_BACK")
  ∧ GateDemo.state_of RollbackDemo.recovered.2 = Some GateState.OPENING
  ∧ live_route RollbackDemo.recovered.2 = mkRoute (Some 3%Z) "fence-3" GateDemo.pred_json.
Proof.
  split; [|vm_compute; done].
  apply (gr_world _ (GateDemo.run GateDemo.crashed_early [GRollback 4 None])).
  - apply GateDemo.run_reachable, GateDemo.run_reachable, GateDemo.world0_reachable.
  - vm_compute. reflexivity.
Qed.
