(* ===== verification/GateOracle.v ===== *)
(** * GateOracle: the offline oracle over the gate's rows

    [evaluate_trace] and [export_trace] of src/vllm_hust_ext/exposure_gate.py.  The oracle
    reads the tables only; its error list is the concatenation of its checks, in order.  The
    theorems compare it with the gate: on a database the gate wrote, the checks of the final
    state, of the admission events and of the admissions never fire; its transition table,
    however, is not the gate's. *)

From S2P Require Import Prelude Effects Json Sha256 ExposureGate GateInvariant GateRecovery.

Local Open Scope string_scope.
Local Open Scope list_scope.

(** The oracle's own transition table. *)
Definition oracle_allowed (s : GateState.t) : list GateState.t :=
  match s with
  | GateState.PREDECESSOR_OPEN =>
      [GateState.CANDIDATE_STAGED; GateState.FAILED_SAFE; GateState.SAFETY_UNKNOWN]
  | GateState.CANDIDATE_STAGED =>
      [GateState.CANDIDATE_CLOSED; GateState.ROLLED_BACK; GateState.FAILED_SAFE;
       GateState.SAFETY_UNKNOWN]
  | GateState.CANDIDATE_CLOSED =>
      [GateState.OPENING; GateState.ROLLED_BACK; GateState.FAILED_SAFE;
       GateState.SAFETY_UNKNOWN]
  | GateState.OPENING =>
      [GateState.CANDIDATE_OPEN; GateState.FAILED_SAFE; GateState.SAFETY_UNKNOWN]
  | GateState.CANDIDATE_OPEN =>
      [GateState.DRAINING; GateState.ROLLED_BACK; GateState.FAILED_SAFE;
       GateState.SAFETY_UNKNOWN]
  | GateState.DRAINING => [GateState.CANDIDATE_OPEN]
  | _ => []
  end.

(** An f-string hole holding a state or [None]. *)
Definition state_str (s : option GateState.t) : string :=
  match s with Some s => GateState.value s | None => "None" end.

Definition dict_pop {A} (k : string) (d : list (string * A)) : list (string * A) :=
  List.filter (λ kv, negb (kv.1 =? k)%string) d.

(** The state of the replay loop. *)
Record replay_st := mkReplay {
  expected_seq : Z;
  replay_state : GateState.t;
  pending : list (string * Z);
  errors : list string;
}.

Definition when_err (b : bool) (e : string) : list string := if b then [e] else [].

Definition replay_row (candidate : option Z) (st : replay_st) (row : Transition.t)
    : replay_st :=
  let seq := Transition.seq row in
  let gap := negb (seq =? expected_seq st)%Z in
  let e1 := when_err gap ("transition sequence gap at " +:+ z_str (expected_seq st)) in
  let expected := ((if gap then seq else expected_seq st) + 1)%Z in
  let operation_id := Transition.operation_id row in
  let e2 := when_err (negb (bool_decide (Transition.from_state row = Some (replay_state st))))
    ("transition source mismatch at " +:+ z_str seq +:+ ": "
     +:+ state_str (Transition.from_state row) +:+ " != "
     +:+ GateState.value (replay_state st)) in
  let known := bool_decide (is_Some (assoc operation_id (pending st))) in
  let '(pending', e3) :=
    match Transition.kind row with
    | intent => (dict_set operation_id seq (pending st),
        when_err known ("duplicate pending intent: " +:+ operation_id))
    | receipt =>
        if (Transition.operation row =? "stage")%string then (pending st, [])
        else if known then (dict_pop operation_id (pending st), [])
        else (pending st, ["receipt without intent: " +:+ operation_id])
    end in
  let '(state', e4) :=
    match Transition.to_state row with
    | Some target =>
        if bool_decide (target = replay_state st) then (replay_state st, [])
        else (target, when_err (bool_decide (target ∉ oracle_allowed (replay_state st)))
          ("unknown transition: " +:+ GateState.value (replay_state st) +:+ "->"
           +:+ GateState.value target))
    | None => (replay_state st, [])
    end in
  let e5 := match candidate with
    | Some c => when_err (negb (Transition.generation row =? c)%Z)
        ("transition generation mismatch at " +:+ z_str seq)
    | None => []
    end in
  mkReplay expected state' pending' (errors st ++ e1 ++ e2 ++ e3 ++ e4 ++ e5).

Definition replay_rows (candidate : option Z) (rows : list Transition.t) : replay_st :=
  foldl (replay_row candidate) (mkReplay 1 GateState.PREDECESSOR_OPEN [] []) rows.

Definition first_open (rows : list Transition.t) : option Transition.t :=
  head (open_receipts rows).

(** [open_fence]: [None] without an open receipt. *)
Definition open_fence_of (rows : list Transition.t) : option string :=
  first_open rows ≫= Transition.fence.

(** The checks of the final row. *)
Definition final_errors (d : GateDb) (st : replay_st) : list string :=
  let opens := open_receipts (gate_transition d) in
  match gate_state d with
  | None => []
  | Some row =>
      when_err (negb (bool_decide (replay_state st = GateRow.state row)))
        "replayed final state does not match durable state"
  end
  ++ when_err (bool_decide (1 < size (list_to_set (C := gset Z) (Transition.generation <$> opens)
                                         ))%nat)
       "multiple open generations"
  ++ match gate_state d with
     | None => []
     | Some row =>
         when_err (bool_decide (GateRow.state row = GateState.CANDIDATE_OPEN)
           && (negb (bool_decide (GateRow.route_generation row
                                  = Some (GateRow.candidate_generation row)))
               || negb (bool_decide (Some (GateRow.route_fence row)
                                     = open_fence_of (gate_transition d)))
               || negb (bool_decide (GateRow.observed_candidate_digest row
                                     = Some (GateRow.candidate_digest row)))))
           "final route observation does not match open receipt"
     end.

(** [detail.get(key)]; details are objects. *)
Definition detail_get (key : string) (detail : json) : option json :=
  match detail with JObj kvs => assoc key kvs | _ => None end.

(** The digest checks of the open receipts; without a gate row Python raises. *)
Definition open_receipt_errors (row : GateRow.t) (rows : list Transition.t) : list string :=
  flat_map (λ t, when_err
    (negb (bool_decide (detail_get "observed_candidate_digest" (Transition.detail_json t)
                        = Some (JStr (GateRow.candidate_digest row)))))
    "open receipt candidate snapshot mismatch") (open_receipts rows).

Definition close_receipts (rows : list Transition.t) : list Transition.t :=
  List.filter (is_record "close" receipt) rows.

Definition close_receipt_errors (row : GateRow.t) (rows : list Transition.t) : list string :=
  flat_map (λ t,
    let observed := detail_get "observed_predecessor_digest" (Transition.detail_json t) in
    when_err (bool_decide (detail_get "cancelled" (Transition.detail_json t) = None)
              && negb (bool_decide (observed = None)) && negb (bool_decide (observed = Some JNull))
              && negb (bool_decide (observed = Some (JStr (GateRow.predecessor_digest row)))))
      "close receipt predecessor snapshot mismatch") (close_receipts rows).

Definition receipt_errors (d : GateDb) : result (list string) :=
  let rows := gate_transition d in
  match gate_state d with
  | Some row => Ok (open_receipt_errors row rows ++ close_receipt_errors row rows)
  | None =>
      if bool_decide (open_receipts rows = [] ∧ close_receipts rows = []) then Ok []
      else Err (TypeError "'NoneType' object is not subscriptable")
  end.

(** [seen.setdefault(...)]: every event of a request names one generation. *)
Fixpoint event_errors (seen : list (string * Z)) (events : list AdmissionEvent.t)
    : list string :=
  match events with
  | [] => []
  | e :: events' =>
      let rid := AdmissionEvent.request_id e in
      let g := AdmissionEvent.chosen_generation e in
      match assoc rid seen with
      | Some prior =>
          when_err (negb (prior =? g)%Z) ("request " +:+ rid +:+ " crossed generation")
          ++ event_errors seen events'
      | None => event_errors (seen ++ [(rid, g)]) events'
      end
  end.

(** The checks of one admission. *)
Definition admission_errors (candidate predecessor : option Z) (rows : list Transition.t)
    (a : Admission.t) : list string :=
  let g := Admission.chosen_generation a in
  let rid := Admission.request_id a in
  let is_candidate := bool_decide (candidate = Some g) in
  let is_predecessor := bool_decide (predecessor = Some g) in
  let first := Transition.seq <$> first_open rows in
  when_err (is_candidate && match first with
      | None => true
      | Some s => (Admission.transition_seq a <? s)%Z
      end) ("candidate admitted before open: " +:+ rid)
  ++ when_err (is_predecessor && match first with
      | None => false
      | Some s => (s <=? Admission.transition_seq a)%Z
      end) ("predecessor admitted after open: " +:+ rid)
  ++ when_err (negb is_candidate && negb is_predecessor) ("unknown generation: " +:+ rid)
  ++ when_err (Admission.route_epoch a =? EmptyString)%string ("missing route fence: " +:+ rid)
  ++ when_err (is_candidate
               && negb (bool_decide (Some (Admission.route_epoch a) = open_fence_of rows)))
       ("candidate fence mismatch: " +:+ rid)
  ++ match predecessor with
     | Some p => when_err (is_predecessor
         && negb (Admission.route_epoch a =? fence_of p)%string)
         ("predecessor fence mismatch: " +:+ rid)
     | None => []
     end.

(** [SELECT * FROM admission ORDER BY admitted_at]. *)
Definition admissions_by_time (d : GateDb) : list Admission.t :=
  sort_by Admission.admitted_at Z.leb (admission d).

Record oracle_result := mkOracle {
  verdict : string;
  oracle_errors : list string;
  transition_count : option nat;
  admission_count : option nat;
  or_candidate : option Z;
  or_predecessor : option Z;
  first_candidate_open_seq : option Z;
}.

Definition count {A} (l : list A) : option nat :=
  match l with [] => None | _ => Some (length l) end.

Definition evaluate_trace (d : GateDb) : result oracle_result :=
  let rows := gate_transition d in
  let candidate := GateRow.candidate_generation <$> gate_state d in
  let predecessor := GateRow.predecessor_generation <$> gate_state d in
  let st := replay_rows candidate rows in
  let missing := when_err (bool_decide (gate_state d = None) || bool_decide (rows = []))
    "missing gate state or transitions" in
  let unpaired := match pending st with
    | [] => []
    | _ => ["unpaired intents: " +:+ list_repr (sort_by id str_leb (keys (pending st)))]
    end in
  rec ← receipt_errors d;
  let errs := missing ++ errors st ++ unpaired ++ final_errors d st ++ rec
    ++ event_errors [] (admission_event d)
    ++ flat_map (admission_errors candidate predecessor rows) (admissions_by_time d) in
  Ok (mkOracle (match errs with [] => "PASS" | _ => "FAIL" end) errs (count rows)
    (count (admission d)) candidate predecessor (Transition.seq <$> first_open rows)).

(** *** Export *)

Definition synthetic : string * json := ("classification", JStr "synthetic/reference").

Definition export_transition (t : Transition.t) : json :=
  JObj [("seq", JInt (Transition.seq t)); ("generation", JInt (Transition.generation t));
        ("kind", JStr (kind_value (Transition.kind t)));
        ("operation", JStr (Transition.operation t));
        ("operation_id", JStr (Transition.operation_id t));
        ("from_state", to_json (GateState.value <$> Transition.from_state t));
        ("to_state", to_json (GateState.value <$> Transition.to_state t));
        ("fence", to_json (Transition.fence t)); ("at", JInt (Transition.at_ t));
        ("detail", Transition.detail_json t); synthetic].

Definition export_admission (a : Admission.t) : json :=
  JObj [("request_id", JStr (Admission.request_id a));
        ("route_epoch", JStr (Admission.route_epoch a));
        ("chosen_generation", JInt (Admission.chosen_generation a));
        ("admitted_at", JInt (Admission.admitted_at a));
        ("finished_at", to_json (Admission.finished_at a));
        ("result", to_json (Admission.result a)); ("abort", to_json (Admission.abort a));
        ("transition_seq", JInt (Admission.transition_seq a));
        ("type", JStr "admission"); synthetic].

Definition export_event (e : AdmissionEvent.t) : json :=
  JObj [("seq", JInt (AdmissionEvent.seq e));
        ("request_id", JStr (AdmissionEvent.request_id e));
        ("kind", JStr (event_kind_value (AdmissionEvent.kind e)));
        ("chosen_generation", JInt (AdmissionEvent.chosen_generation e));
        ("route_epoch", JStr (AdmissionEvent.route_epoch e)); ("at", JInt (AdmissionEvent.at_ e));
        ("transition_seq", JInt (AdmissionEvent.transition_seq e));
        ("detail", AdmissionEvent.detail_json e); ("type", JStr "admission_event"); synthetic].

Definition export_trace (d : GateDb) : list json :=
  (export_transition <$> gate_transition d) ++ (export_admission <$> admissions_by_time d)
  ++ (export_event <$> admission_event d).

(** ** The oracle and the gate *)

Lemma replay_rows_state c rows s :
  replay rows = Some s → replay_state (replay_rows c rows) = s.
Proof.
  unfold replay, replay_rows. revert s. induction rows as [|t rows IH] using rev_ind; intros s.
  { by intros [= <-]. }
  rewrite !foldl_app. cbn. destruct (foldl replay_step _ rows) as [s0|]; [|done].
  specialize (IH s0 eq_refl). set (st := foldl (replay_row c) _ rows) in *.
  unfold replay_step, replay_row. cbn.
  destruct (match Transition.kind t with intent => _ | receipt => _ end) as [p e3].
  destruct (Transition.to_state t) as [target|]; cbn.
  - destruct (_ && _); [|done]. intros [= <-].
    case_bool_decide as Hb; cbn; [congruence|done].
  - destruct (_ || _); [|done]. intros [= <-]. done.
Qed.

Lemma event_errors_none adms events seen :
  NoDup (Admission.request_id <$> adms) →
  (∀ e, e ∈ events → event_ok adms e) →
  (∀ rid g, assoc rid seen = Some g → ∃ a, a ∈ adms ∧ Admission.request_id a = rid
    ∧ Admission.chosen_generation a = g) →
  event_errors seen events = [].
Proof.
  intros Hnd. revert seen. induction events as [|e events IH]; intros seen Hev Hseen; cbn; [done|].
  destruct (Hev e) as (a & Ha & Hid & Hg & _); [by left|].
  destruct (assoc (AdmissionEvent.request_id e) seen) as [prior|] eqn:Hp.
  - destruct (Hseen _ _ Hp) as (b & Hb & Hbid & Hbg).
    assert (b = a) as -> by (eapply key_inj_of_nodup; [exact Hnd|..]; congruence).
    rewrite Hg, <-Hbg, Z.eqb_refl. cbn. apply IH; [|done]. intros e' He'. apply Hev. by right.
  - apply IH; [intros e' He'; apply Hev; by right|]. intros rid g.
    assert (Happ : assoc rid (seen ++ [(AdmissionEvent.request_id e,
        AdmissionEvent.chosen_generation e)])
      = match assoc rid seen with Some v => Some v | None =>
          if (AdmissionEvent.request_id e =? rid)%string
          then Some (AdmissionEvent.chosen_generation e) else None end).
    { clear. induction seen as [|[k v] seen IH]; cbn; [done|]. by destruct (k =? rid)%string. }
    rewrite Happ. destruct (assoc rid seen) as [v|] eqn:Hv; [intros [= <-]; by apply Hseen|].
    destruct (_ =? rid)%string eqn:Heq; [|done]. intros [= <-]. reflect.
    exists a. split; [done|]. split; congruence.
Qed.

Lemma admission_errors_none row l a :
  GateRow.candidate_generation row = (GateRow.predecessor_generation row + 1)%Z →
  admission_ok row l a →
  admission_errors (Some (GateRow.candidate_generation row))
    (Some (GateRow.predecessor_generation row)) l a = [].
Proof.
  intros Hsucc [_ [(Hg & He & Hlt)|(Hg & e & He & Hf & Hle & Hne)]];
    unfold admission_errors, first_open, open_fence_of, first_open; rewrite Hg.
  - rewrite (bool_decide_false (Some (GateRow.candidate_generation row) = _)) by (intros [=]; lia).
    rewrite bool_decide_true, He, String.eqb_refl by done. cbn.
    destruct (open_receipts l) as [|e es]; cbn.
    + done.
    + specialize (Hlt e). rewrite (proj2 (Z.leb_gt _ _)); [done|]. apply Hlt. by left.
  - rewrite He in *. cbn.
    rewrite (bool_decide_true (Some (GateRow.candidate_generation row) = _)) by done.
    rewrite (bool_decide_false (Some (GateRow.predecessor_generation row) = _))
      by (intros [=]; lia).
    rewrite Hf, (bool_decide_true (Some (Admission.route_epoch a) = _)) by done. cbn.
    rewrite (proj2 (Z.ltb_ge _ _)) by lia. cbn.
    by rewrite (proj2 (String.eqb_neq _ _)) by done.
Qed.

Lemma final_errors_none `{Sha256} row d st :
  gate_state d = Some row → row_ok row d → replay_state st = GateRow.state row →
  final_errors d st = [].
Proof.
  intros Hr Hok Hst. unfold final_errors. rewrite Hr, bool_decide_true by done. cbn.
  pose proof (ok_route _ _ Hok) as Hroute.
  assert (Hlen : (size (list_to_set (C := gset Z)
    (Transition.generation <$> open_receipts (gate_transition d))) ≤ 1)%nat).
  { apply route_ok_length in Hroute.
    destruct (open_receipts (gate_transition d)) as [|e [|e' es]]; cbn in *; [|..|lia].
    - by rewrite size_empty.
    - by rewrite (right_id_L ∅ (∪)), size_singleton. }
  rewrite bool_decide_false by lia. cbn. case_bool_decide as Hs; [|done].
  unfold route_ok in Hroute. rewrite Hs in Hroute.
  destruct Hroute as (Hg & Ho & e & He & Hf & _). unfold open_fence_of, first_open.
  rewrite He. cbn. rewrite Hf, !bool_decide_true by done. done.
Qed.

Section Properties.
Context `{Sha256} {T : Type} `{!TrafficAuthorityAdapter T} (clock : nat → Z).

(** The oracle agrees with the gate on where traffic went: on every database the gate
    wrote, under any faults and traffic behaviour, none of the oracle's checks of the final
    row, of the admission events (one generation per request) and of the admissions (no
    candidate before its open receipt, no predecessor after it, no unknown generation, the
    right fence) reports an error. *)
Theorem oracle_accepts_admissions w row :
  gate_reachable clock w → gate_state (db w) = Some row →
  let d := db w in
  final_errors d (replay_rows (Some (GateRow.candidate_generation row)) (gate_transition d)) = []
  ∧ event_errors [] (admission_event d) = []
  ∧ flat_map (admission_errors (Some (GateRow.candidate_generation row))
      (Some (GateRow.predecessor_generation row)) (gate_transition d)) (admissions_by_time d) = [].
Proof.
  intros Hok%reachable_ok Hr. unfold db_ok in Hok. rewrite Hr in Hok. cbn zeta.
  split_and!.
  - apply (final_errors_none row _ _ Hr Hok), replay_rows_state, (ok_replay _ _ Hok).
  - apply (event_errors_none (admission (db w))); [apply (ok_requests _ _ Hok)|..|done].
    apply (ok_events _ _ Hok).
  - pose proof (ok_admissions _ _ Hok) as Hadm.
    assert (Hall : Forall (admission_ok row (gate_transition (db w))) (admissions_by_time (db w))).
    { apply Forall_forall. intros a Ha. apply Hadm. by apply elem_of_sort_by in Ha. }
    induction Hall as [|a l Ha _ IH]; cbn; [done|].
    rewrite admission_errors_none; [exact IH|apply (ok_successor _ _ Hok)|done].
Qed.
End Properties.

(** The witnesses: a run whose trace passes, and the run of the finding. *)
Module OracleDemo.
Definition calls : list gate_call :=
  [GStage GateDemo.cand_json GateDemo.pred_json; GObserve (mkRequest "r1" 1) None; GClose 4;
   GOpen 4 GateDemo.proof; GDrain 4;
   GObserve (mkRequest "r1" 1) (Some (mkAdmissionResult 5 (Some "ok") None)); GDrain 4;
   GObserve (mkRequest "r2" 7) None].
(** The predecessor's request is never finished: the gate stays DRAINING and is rolled back. *)
Definition drained_back : list gate_call :=
  [GStage GateDemo.cand_json GateDemo.pred_json; GObserve (mkRequest "r1" 1) None; GClose 4;
   GOpen 4 GateDemo.proof; GDrain 4; GRollback 4 None].
Definition final (cs : list gate_call) : World D.t := GateDemo.run (GateDemo.world0 ∅) cs.
Definition verdict_of (cs : list gate_call) : result (string * list string) :=
  r ← evaluate_trace (db (final cs)); Ok (verdict r, oracle_errors r).
End OracleDemo.

Example oracle_passes : OracleDemo.verdict_of OracleDemo.calls = Ok ("PASS", []).
Proof. vm_compute. reflexivity. Qed.

Lemma oracle_accepts_admissions_witness :
  ∃ row, gate_state (db (OracleDemo.final OracleDemo.drained_back)) = Some row
    ∧ final_errors (db (OracleDemo.final OracleDemo.drained_back))
        (replay_rows (Some (GateRow.candidate_generation row))
           (gate_transition (db (OracleDemo.final OracleDemo.drained_back)))) = [].
Proof.
  destruct (gate_state (db (OracleDemo.final OracleDemo.drained_back))) as [row|] eqn:Hr.
  - exists row. split; [reflexivity|].
    destruct (oracle_accepts_admissions GateDemo.clock
      (OracleDemo.final OracleDemo.drained_back) row) as [He _].
    + apply GateDemo.run_reachable, GateDemo.world0_reachable.
    + exact Hr.
    + exact He.
  - exfalso. revert Hr. vm_compute. discriminate.
Defined.

(** Finding: the oracle rejects behaviour the gate and its design document allow.  The
    gate may roll back while draining; the oracle's own transition table lets DRAINING go
    back to CANDIDATE_OPEN only, and its pairing of records takes the unfinished drain for a
    lost intent, so a correct rollback of a draining gate is reported as FAIL. *)
Theorem oracle_rejects_drain_rollback :
  GateState.ROLLED_BACK ∈ allowed GateState.DRAINING
  ∧ GateDemo.state_of (OracleDemo.final OracleDemo.drained_back) = Some GateState.ROLLED_BACK
  ∧ D.route (traffic (OracleDemo.final OracleDemo.drained_back))
    = mkRoute (Some 3%Z) "fence-3" GateDemo.pred_json
  ∧ OracleDemo.verdict_of OracleDemo.drained_back
    = Ok ("FAIL", ["unknown transition: DRAINING->ROLLED_BACK";
                   "unpaired intents: ['drain:4']"]).
Proof. split; [right; left|]. vm_compute. done. Qed.
