(* ===== verification/DurableCoordinator.v ===== *)
(** * DurableCoordinator: the SQLite-backed activation coordinator

    src/vllm_hust_ext/durable_coordinator.py: the tables of [SQLiteActivationStore] as a
    record of lists, and the methods of [ActivationCoordinator] as programs over a world that
    holds the store, the coordinator's fault points and clock, the adapters (a type class over
    a state of their own) and, when traffic is a [ReferenceExposureGate], the gate's world.
    The theorems are in CoordinatorProofs.v. *)

From S2P Require Import Prelude Effects Json Sha256 EcpaModel ExposureGate.

Local Open Scope string_scope.
Local Open Scope list_scope.

(** [TRANSITIONS]. *)
Definition transitions (s : State.t) : list State.t :=
  match s with
  | State.INTENT => [State.PLANNED]
  | State.PLANNED => [State.PREPARING]
  | State.PREPARING => [State.PREPARED; State.RECONCILE]
  | State.PREPARED => [State.LAUNCHING; State.ROLLBACK]
  | State.LAUNCHING => [State.OBSERVING; State.RECONCILE]
  | State.OBSERVING => [State.COMMIT_READY; State.DEGRADED; State.RECONCILE; State.ROLLBACK]
  | State.COMMIT_READY => [State.EFFECTIVE; State.RECONCILE; State.FAILED_SAFE]
  | State.EFFECTIVE => [State.DEGRADED; State.ROLLBACK]
  | State.DEGRADED => [State.RECONCILE; State.ROLLBACK]
  | State.RECONCILE => [State.OBSERVING; State.ROLLBACK; State.FAILED_SAFE]
  | State.ROLLBACK => [State.ROLLED_BACK; State.FAILED_SAFE; State.SAFETY_UNKNOWN]
  | State.ROLLED_BACK | State.FAILED_SAFE | State.SAFETY_UNKNOWN => []
  | State.RESOLVED => []
  end.

(** ** The store *)

Module Activation.
Record t := mk {
  plan_id : string;
  plan_json : json;
  state : State.t;
  launch_id : option string;
  predecessor_json : json;
  created_at : Z;
}.
End Activation.

Module Journal.
Record t := mk {
  sequence : Z;
  plan_id : string;
  kind : string;
  operation : string;
  detail_json : json;
  created_at : Z;
}.
End Journal.

Module Inventory.
Record t := mk { plan_id : string; process : ProcessIdentity }.
End Inventory.

Module Evidence.
Record t := mk {
  nonce : string;
  plan_id : string;
  launch_id : string;
  process_key : string;
  role : string;
  ordinal : Z;
  epoch : Z;
  obligation_id : string;
  event : string;
  issued_at : Z;
  expires_at : Z;
  artifact_id : string;
  authority : string;
  manager_epoch : Z;
  valid : bool;
  issuer : string;
  kid : string;
  observed_at : Z;
  evidence_digest : string;
  artifact_digest : string;
}.
End Evidence.

Module Outcome.
Record t := mk { sequence : Z; plan_id : string; success : bool; detail_json : json; created_at : Z }.
End Outcome.

(** [journal_seq] is the last sequence number SQLite handed out: AUTOINCREMENT does not reuse
    the numbers of deleted rows. *)
Record Store := mkStore {
  generation : Z;
  meta_epoch : Z;
  activation : list Activation.t;
  journal : list Journal.t;
  journal_seq : Z;
  inventory : list Inventory.t;
  evidence : list Evidence.t;
  rollback_outcome : list Outcome.t;
}.

Definition new_store : Store := mkStore 0 0 [] [] 0 [] [] [].

(** ** Adapters *)

(** The protocols [HostAdapter], [EvidenceVerifier], [TrafficGate] and
    [ExternalServiceAdapter], over a state of their own; [verifier_signed] is
    [isinstance(self.verifier, SignedAttestationVerifier)]. *)
Class Adapters (E : Type) := {
  host_prepare : Plan → M E json;
  host_launch : Plan → string → M E (list ProcessIdentity);
  host_rollback : PredecessorSnapshot → M E json;
  verifier_verify : Attestation → Z → Plan → M E unit;
  verifier_signed : E → bool;
  external_lease_valid : Plan → M E bool;
  hold_predecessor : PredecessorSnapshot → M E unit;
  activate : Plan → M E unit;
  restore_predecessor : PredecessorSnapshot → M E unit;
}.

(** The deterministic fakes of the source file. *)
Module Fake.
Record t := mk {
  host_inventory : list ProcessIdentity;
  prepared : bool;
  launched : bool;
  rollback_succeeds : bool;
  active_plan_id : option string;
  predecessor_plan_id : option string;
  valid : bool;
  signed : bool;
}.

Section Fakes.
Context `{Sha256}.

Definition prepare (p : Plan) : M t json :=
  modify (λ s, mk (host_inventory s) true (launched s) (rollback_succeeds s) (active_plan_id s)
    (predecessor_plan_id s) (valid s) (signed s));;
  mret (JObj [("prepared", JBool true); ("plan_id", JStr (plan_id p))]).

Definition launch (p : Plan) (launch_id : string) : M t (list ProcessIdentity) :=
  modify (λ s, mk (host_inventory s) (prepared s) true (rollback_succeeds s) (active_plan_id s)
    (predecessor_plan_id s) (valid s) (signed s));;
  gets host_inventory.

Definition rollback (pred : PredecessorSnapshot) : M t json :=
  ok ← gets rollback_succeeds;
  raise_if (negb ok) (RuntimeError "deterministic rollback failure");;
  modify (λ s, mk (host_inventory s) (prepared s) false (rollback_succeeds s) (active_plan_id s)
    (predecessor_plan_id s) (valid s) (signed s));;
  mret (JObj [("restored_generation", JInt (pred_generation pred))]).

Definition verify (a : Attestation) (now : Z) (p : Plan) : M t unit :=
  raise_if (negb (authority a =? "host-runtime")%string)
    (ContractError AUTHORITY_VIOLATION (authority a));;
  raise_if ((now <? issued_at a)%Z || (EcpaModel.expires_at a <? now)%Z)
    (ContractError STALE_EVIDENCE (nonce a)).

Definition set_active (o : option string) : M t unit :=
  modify (λ s, mk (host_inventory s) (prepared s) (launched s) (rollback_succeeds s) o
    (predecessor_plan_id s) (valid s) (signed s)).

Definition hold (pred : PredecessorSnapshot) : M t unit :=
  modify (λ s, mk (host_inventory s) (prepared s) (launched s) (rollback_succeeds s)
    (pred_plan_id pred) (pred_plan_id pred) (valid s) (signed s)).
End Fakes.
End Fake.

#[export] Instance fake_adapters `{Sha256} : Adapters Fake.t := {
  host_prepare := Fake.prepare;
  host_launch := Fake.launch;
  host_rollback := Fake.rollback;
  verifier_verify := Fake.verify;
  verifier_signed := Fake.signed;
  external_lease_valid _ := gets Fake.valid;
  hold_predecessor := Fake.hold;
  activate p := Fake.set_active (Some (plan_id p));
  restore_predecessor pred := Fake.set_active (pred_plan_id pred);
}.

(** [FakeEvidenceIssuer.issue]; the remaining fields have the defaults of the data class. *)
Definition issue `{Sha256} (p : Plan) (launch_id : string) (process : ProcessIdentity)
    (o : EvidenceObligation) (nonce : string) (now : Z) : result Attestation :=
  match plugins p with
  | [] => Err (IndexError "tuple index out of range")
  | pl :: _ => Ok (mkAttestation (plan_id p) launch_id process (obligation_id o) (event o) nonce
      now (now + 60) (plugin_id pl) "host-runtime" EmptyString EmptyString 0 EmptyString
      EmptyString)
  end.

(** ** Plans in JSON *)

Definition as_list (j : json) : result (list json) :=
  match j with JArr l => Ok l | _ => Err (TypeError "object is not iterable") end.
Definition as_bool (j : json) : result bool :=
  match j with JBool b => Ok b | _ => Err (TypeError "expected bool") end.
Definition as_opt_str (j : json) : result (option string) :=
  match j with JNull => Ok None | JStr s => Ok (Some s) | _ => Err (TypeError "expected str") end.
Definition as_dict (j : json) : result (list (string * json)) :=
  match j with JObj kvs => Ok kvs | _ => Err (TypeError "argument must be a mapping") end.

(** The keyword check of [cls( **item )] for a class whose fields have no defaults. *)
Definition kwargs (fields : list string) (j : json) : result unit :=
  kvs ← as_dict j;
  check (same_keys fields kvs) (TypeError "got an unexpected keyword argument").

Definition PluginIdentity_of_json (j : json) : result PluginIdentity :=
  kwargs ["namespace"; "name"; "version"; "artifact_sha256"] j;;
  a ← getitem "namespace" j ≫= as_str;
  b ← getitem "name" j ≫= as_str;
  c ← getitem "version" j ≫= as_str;
  d ← getitem "artifact_sha256" j ≫= as_str;
  Ok (mkPluginIdentity a b c d).

Definition HostCompatibility_of_json (j : json) : result HostCompatibility :=
  kwargs ["runtime"; "version"; "provider"; "abi"] j;;
  a ← getitem "runtime" j ≫= as_str;
  b ← getitem "version" j ≫= as_str;
  c ← getitem "provider" j ≫= as_str;
  d ← getitem "abi" j ≫= as_str;
  Ok (mkHostCompatibility a b c d).

Definition ResourceClaim_of_json (j : json) : result ResourceClaim :=
  kwargs ["uri"; "owner"; "mode"] j;;
  a ← getitem "uri" j ≫= as_str;
  b ← getitem "owner" j ≫= as_str;
  c ← getitem "mode" j ≫= as_str;
  Ok (mkResourceClaim a b c).

Definition EvidenceObligation_of_json (j : json) : result EvidenceObligation :=
  a ← getitem "obligation_id" j ≫= as_str;
  b ← getitem "role" j ≫= as_str;
  c ← getitem "event" j ≫= as_str;
  d ← (getitem "required_ordinals" j ≫= as_list) ≫= map_result as_int;
  Ok (mkEvidenceObligation a b c d).

Definition PredecessorSnapshot_of_json (j : json) : result PredecessorSnapshot :=
  kwargs ["generation"; "plan_id"; "rendered_inputs"] j;;
  a ← getitem "generation" j ≫= as_int;
  b ← getitem "plan_id" j ≫= as_opt_str;
  c ← getitem "rendered_inputs" j ≫= as_dict;
  Ok (mkPredecessorSnapshot a b c).

Definition _plan_from_json (value : json) : result Plan :=
  ps ← (getitem "plugins" value ≫= as_list) ≫= map_result PluginIdentity_of_json;
  h ← getitem "host" value ≫= HostCompatibility_of_json;
  cs ← (getitem "claims" value ≫= as_list) ≫= map_result ResourceClaim_of_json;
  os ← (getitem "obligations" value ≫= as_list) ≫= map_result EvidenceObligation_of_json;
  pred ← getitem "predecessor" value ≫= PredecessorSnapshot_of_json;
  fb ← match value with
       | JObj kvs => match assoc "fallback_proven" kvs with
                     | Some b => as_bool b
                     | None => Ok false
                     end
       | _ => Err (TypeError "no attribute get")
       end;
  Ok (mkPlan ps h cs os pred fb).

Lemma map_result_to_json {A} `{ToJson A} (g : json → result A) (l : list A) :
  (∀ x, g (to_json x) = Ok x) → map_result g (to_json <$> l) = Ok l.
Proof. intros Hg. induction l as [|x l IH]; cbn; [done|]. rewrite Hg. cbn. by rewrite IH. Qed.

Lemma EvidenceObligation_roundtrip o : EvidenceObligation_of_json (to_json o) = Ok o.
Proof.
  destruct o as [a b c d]. unfold EvidenceObligation_of_json. cbn -[map_result].
  by rewrite (map_result_to_json as_int).
Qed.

Lemma Plan_of_to_json p : _plan_from_json (to_json p) = Ok p.
Proof.
  destruct p as [ps h cs os [pg pp pr] fb]. unfold _plan_from_json. cbn -[map_result].
  rewrite (map_result_to_json PluginIdentity_of_json) by by intros [].
  destruct h. cbn -[map_result].
  rewrite (map_result_to_json ResourceClaim_of_json) by by intros [].
  cbn -[map_result].
  rewrite (map_result_to_json EvidenceObligation_of_json) by apply EvidenceObligation_roundtrip.
  by destruct pp.
Qed.

(** ** The coordinator's world *)

Record CWorld (E T : Type) := mkCWorld {
  store : Store;
  cfaults : gset string;
  cticks : nat;
  manager_epoch : Z;
  env : E;
  exposure_gate : option (World T);
}.
Arguments mkCWorld {E T}.
Arguments store {E T}. Arguments cfaults {E T}. Arguments cticks {E T}.
Arguments manager_epoch {E T}. Arguments env {E T}. Arguments exposure_gate {E T}.

#[export] Instance CWorld_store {E T} : Lens (CWorld E T) Store := {
  lget := store;
  lset s w := mkCWorld s (cfaults w) (cticks w) (manager_epoch w) (env w) (exposure_gate w);
}.
#[export] Instance CWorld_env {E T} : Lens (CWorld E T) E := {
  lget := env;
  lset e w := mkCWorld (store w) (cfaults w) (cticks w) (manager_epoch w) e (exposure_gate w);
}.

(** *** Updates of columns *)

Definition with_generation (g : Z) (s : Store) : Store :=
  mkStore g (meta_epoch s) (activation s) (journal s) (journal_seq s) (inventory s) (evidence s)
    (rollback_outcome s).
Definition with_epoch (e : Z) (s : Store) : Store :=
  mkStore (generation s) e (activation s) (journal s) (journal_seq s) (inventory s) (evidence s)
    (rollback_outcome s).
Definition with_activation (l : list Activation.t) (s : Store) : Store :=
  mkStore (generation s) (meta_epoch s) l (journal s) (journal_seq s) (inventory s) (evidence s)
    (rollback_outcome s).
Definition with_journal (l : list Journal.t) (n : Z) (s : Store) : Store :=
  mkStore (generation s) (meta_epoch s) (activation s) l n (inventory s) (evidence s)
    (rollback_outcome s).
Definition with_inventory (l : list Inventory.t) (s : Store) : Store :=
  mkStore (generation s) (meta_epoch s) (activation s) (journal s) (journal_seq s) l (evidence s)
    (rollback_outcome s).
Definition with_evidence (l : list Evidence.t) (s : Store) : Store :=
  mkStore (generation s) (meta_epoch s) (activation s) (journal s) (journal_seq s) (inventory s)
    l (rollback_outcome s).
Definition with_outcomes (l : list Outcome.t) (s : Store) : Store :=
  mkStore (generation s) (meta_epoch s) (activation s) (journal s) (journal_seq s) (inventory s)
    (evidence s) l.

Definition act_state (st : State.t) (a : Activation.t) : Activation.t :=
  Activation.mk (Activation.plan_id a) (Activation.plan_json a) st (Activation.launch_id a)
    (Activation.predecessor_json a) (Activation.created_at a).
Definition act_launch (l : string) (a : Activation.t) : Activation.t :=
  Activation.mk (Activation.plan_id a) (Activation.plan_json a) (Activation.state a) (Some l)
    (Activation.predecessor_json a) (Activation.created_at a).
Definition invalidate (e : Evidence.t) : Evidence.t :=
  Evidence.mk (Evidence.nonce e) (Evidence.plan_id e) (Evidence.launch_id e)
    (Evidence.process_key e) (Evidence.role e) (Evidence.ordinal e) (Evidence.epoch e)
    (Evidence.obligation_id e) (Evidence.event e) (Evidence.issued_at e)
    (Evidence.expires_at e) (Evidence.artifact_id e) (Evidence.authority e)
    (Evidence.manager_epoch e) false (Evidence.issuer e) (Evidence.kid e)
    (Evidence.observed_at e) (Evidence.evidence_digest e) (Evidence.artifact_digest e).

Definition is_plan (pid : string) (a : Activation.t) : bool := (Activation.plan_id a =? pid)%string.

(** [UPDATE activation SET ... WHERE plan_id=?]. *)
Definition update_activation (pid : string) (f : Activation.t → Activation.t) (s : Store) : Store :=
  with_activation ((λ a, if is_plan pid a then f a else a) <$> activation s) s.

(** [boot]: a new manager epoch, and no evidence of an earlier one stays valid. *)
Definition boot (s : Store) : Store :=
  with_evidence (invalidate <$> evidence s) (with_epoch (meta_epoch s + 1) s).

(** The constructor: [boot] commits before the epoch is read. *)
Definition new_coordinator {E T} (s : Store) (faults : gset string) (e : E)
    (gate : option (World T)) : CWorld E T :=
  mkCWorld (boot s) faults 0 (meta_epoch s + 1) e gate.

(** ** Methods *)

Definition has_obligations (p : Plan) : bool :=
  negb (bool_decide (obligations p = []))
  && forallb (λ o, negb (bool_decide (required_ordinals o = []))) (obligations p).

Section ActivationCoordinator.
Context `{Sha256} {E T : Type} `{!Adapters E} `{!TrafficAuthorityAdapter T}.
Context (clock gate_clock : nat → Z).

#[local] Abbreviation C := (M (CWorld E T)).

Definition get_store : C Store := gets store.
Definition update_store (f : Store → Store) : C unit := modify (λ w, lset (f (store w)) w).

Definition hit (point : string) : C unit :=
  armed ← gets cfaults;
  when (bool_decide (point ∈ armed))
    (modify (λ w, mkCWorld (store w) (cfaults w ∖ {[point]}) (cticks w) (manager_epoch w) (env w)
               (exposure_gate w));;
     raise (RuntimeError ("injected fault: " +:+ point))).

Definition _now : C Z :=
  n ← gets cticks;
  modify (λ w, mkCWorld (store w) (cfaults w) (S (cticks w)) (manager_epoch w) (env w)
            (exposure_gate w));;
  mret (clock n).

(** [gate is not None]. *)
Definition has_gate : C bool := gets (λ w, bool_decide (is_Some (exposure_gate w))).

(** A method of the gate; it is only called when there is one. *)
Definition on_gate {A} (m : M (World T) A) : C A := λ w,
  match exposure_gate w with
  | Some g => let '(r, g') := m g in
      (r, mkCWorld (store w) (cfaults w) (cticks w) (manager_epoch w) (env w) (Some g'))
  | None => (Err AssertionError, w)
  end.

Definition _row (pid : string) : C Activation.t :=
  s ← get_store;
  match find (is_plan pid) (activation s) with
  | Some row => mret row
  | None => raise (ContractError UNKNOWN_RESOURCE pid)
  end.

Definition _journal (pid kind operation : string) (detail : json) : C unit :=
  now ← _now;
  update_store (λ s, let n := (journal_seq s + 1)%Z in
    with_journal (journal s ++ [Journal.mk n pid kind operation detail now]) n s).

Definition _transition (pid : string) (target : State.t) : C unit :=
  row ← _row pid;
  let current := Activation.state row in
  raise_if (bool_decide (target ∉ transitions current))
    (ContractError INVALID_TRANSITION
       (State.value current +:+ " -> " +:+ State.value target));;
  update_store (update_activation pid (act_state target));;
  _journal pid "transition" (State.value target) (JObj [("from", JStr (State.value current))]).

(** [INSERT INTO activation]: the plan id is the primary key. *)
Definition insert_activation (a : Activation.t) : C unit :=
  s ← get_store;
  raise_if (existsb (is_plan (Activation.plan_id a)) (activation s))
    (IntegrityError "UNIQUE constraint failed: activation.plan_id");;
  update_store (λ s, with_activation (activation s ++ [a]) s).

Definition in_transaction {A} (m : C A) : C A := transaction Store m.

(** [_plan_from_json(self._row(plan_id)["plan_json"])]. *)
Definition stored_plan (pid : string) : C Plan :=
  row ← _row pid;
  lift_result (_plan_from_json (Activation.plan_json row)).

Definition delete_plan (pid : string) (s : Store) : Store :=
  with_activation (List.filter (λ a, negb (is_plan pid a)) (activation s))
    (with_journal (List.filter (λ j, negb (Journal.plan_id j =? pid)%string) (journal s))
       (journal_seq s) s).

Definition plan (p : Plan) : C string :=
  raise_if (negb (has_obligations p))
    (ContractError MISSING_PROCESS_EVIDENCE
       "activation Plan requires non-empty evidence obligations and targets");;
  in_transaction (
    now ← _now;
    insert_activation (Activation.mk (plan_id p) (to_json p) State.PLANNED None
      (to_json (predecessor p)) now);;
    _journal (plan_id p) "transition" "plan" (JObj [("state", JStr "Planned")]));;
  gate ← has_gate;
  (if gate : bool then
     try_else (on_gate (ExposureGate.stage gate_clock (JStr (plan_id p)) (to_json (predecessor p))))
       (λ exc, in_transaction (update_store (delete_plan (plan_id p)));; raise exc)
       (λ _, mret tt)
   else zoom (hold_predecessor (E := E) (predecessor p)));;
  mret (plan_id p).

Definition candidate_of (p : Plan) : Z := (pred_generation (predecessor p) + 1)%Z.

Definition prepare (pid : string) : C unit :=
  p ← stored_plan pid;
  in_transaction (
    _transition pid State.PREPARING;;
    _journal pid "wal" "prepare" (JObj []));;
  hit "prepare.after_wal";;
  receipt ← zoom (host_prepare (E := E) p);
  hit "prepare.after_side_effect";;
  in_transaction (
    _journal pid "receipt" "prepare" receipt;;
    _transition pid State.PREPARED);;
  gate ← has_gate;
  when gate (on_gate (ExposureGate.close gate_clock (candidate_of p))).

Definition same_slot (pid : string) (p : ProcessIdentity) (i : Inventory.t) : bool :=
  (Inventory.plan_id i =? pid)%string && (role (Inventory.process i) =? role p)%string
  && (ordinal (Inventory.process i) =? ordinal p)%Z.

(** [executemany("INSERT INTO inventory ...")]: (plan, role, ordinal) is the primary key. *)
Fixpoint insert_inventory (pid : string) (ps : list ProcessIdentity) : C unit :=
  match ps with
  | [] => mret tt
  | p :: ps' =>
      s ← get_store;
      raise_if (existsb (same_slot pid p) (inventory s))
        (IntegrityError "UNIQUE constraint failed: inventory");;
      update_store (λ s, with_inventory (inventory s ++ [Inventory.mk pid p]) s);;
      insert_inventory pid ps'
  end.

(** [DELETE FROM inventory WHERE plan_id=?] and the insertion of the new rows. *)
Definition replace_inventory (pid : string) (ps : list ProcessIdentity) : C unit :=
  update_store (λ s, with_inventory
    (List.filter (λ i, negb (Inventory.plan_id i =? pid)%string) (inventory s)) s);;
  insert_inventory pid ps.

Definition launch (pid launch_id : string) : C unit :=
  p ← stored_plan pid;
  in_transaction (
    _transition pid State.LAUNCHING;;
    update_store (update_activation pid (act_launch launch_id));;
    _journal pid "wal" "launch" (JObj [("launch_id", JStr launch_id)]));;
  hit "launch.after_wal";;
  procs ← zoom (host_launch (E := E) p launch_id);
  hit "launch.after_side_effect";;
  in_transaction (
    replace_inventory pid procs;;
    _journal pid "receipt" "launch" (JObj [("count", JInt (Z.of_nat (length procs)))]);;
    _transition pid State.OBSERVING).

Definition observable (s : State.t) : bool :=
  bool_decide (s ∈ [State.OBSERVING; State.RECONCILE]).

(** The evidence row of an attestation. *)
Definition evidence_row (pid : string) (item : Attestation) (epoch : Z) : Evidence.t :=
  Evidence.mk (nonce item) pid (att_launch_id item) (process_key (process item))
    (role (process item)) (ordinal (process item)) (EcpaModel.epoch (process item))
    (att_obligation_id item) (att_event item) (issued_at item) (EcpaModel.expires_at item)
    (artifact_id item) (authority item) epoch true (issuer item) (kid item) (observed_at item)
    (EcpaModel.evidence_digest item) (artifact_digest item).

(** [INSERT INTO evidence]: the nonce is the primary key of the table. *)
Definition insert_evidence (e : Evidence.t) : C unit :=
  s ← get_store;
  raise_if (existsb (λ e', (Evidence.nonce e' =? Evidence.nonce e)%string) (evidence s))
    (IntegrityError "UNIQUE constraint failed: evidence.nonce");;
  update_store (λ s, with_evidence (evidence s ++ [e]) s).

(** The binding of an attestation to the plan, its launch and its inventory. *)
Definition evidence_bound (row : Activation.t) (p : Plan) (inv : list Inventory.t)
    (pid : string) (item : Attestation) : bool :=
  (att_plan_id item =? pid)%string
  && bool_decide (Activation.launch_id row = Some (att_launch_id item))
  && bool_decide (artifact_id item ∈ (plugin_id <$> plugins p))
  && match find (same_slot pid (process item)) inv with
     | None => false
     | Some i => (start_id (Inventory.process i) =? start_id (process item))%string
         && (EcpaModel.epoch (Inventory.process i) =? EcpaModel.epoch (process item))%Z
     end.

Definition observe (pid : string) (item : Attestation) (now : option Z) : C unit :=
  row ← _row pid;
  raise_if (negb (observable (Activation.state row)))
    (ContractError INVALID_TRANSITION
       ("observe from " +:+ State.value (Activation.state row)));;
  p ← lift_result (_plan_from_json (Activation.plan_json row));
  observed ← match now with Some n => mret n | None => _now end;
  zoom (verifier_verify (E := E) item observed p);;
  s ← get_store;
  raise_if (negb (evidence_bound row p (inventory s) pid item))
    (ContractError STALE_EVIDENCE (nonce item));;
  epoch ← gets manager_epoch;
  catch (in_transaction (
      insert_evidence (evidence_row pid item epoch);;
      _journal pid "evidence" (att_event item) (to_json item)))
    (λ exc, match exc with
      | IntegrityError _ => raise (ContractError REPLAYED_NONCE (nonce item))
      | _ => raise exc
      end).

Definition refresh_inventory (pid : string) (processes : list ProcessIdentity) : C unit :=
  row ← _row pid;
  raise_if (negb (observable (Activation.state row)))
    (ContractError INVALID_TRANSITION
       ("refresh inventory from " +:+ State.value (Activation.state row)));;
  in_transaction (
    replace_inventory pid processes;;
    update_store (λ s, with_evidence
      ((λ e, if (Evidence.plan_id e =? pid)%string then invalidate e else e) <$> evidence s) s);;
    _journal pid "inventory" "refresh" (JObj [("processes", to_json processes)])).

(** *** Commit *)

(** Current evidence of a plan: valid, of this manager epoch and not expired. *)
Definition current_evidence (s : Store) (pid : string) (epoch now : Z) : list Evidence.t :=
  List.filter (λ e, (Evidence.plan_id e =? pid)%string && Evidence.valid e
    && (Evidence.manager_epoch e =? epoch)%Z && (now <=? Evidence.expires_at e)%Z) (evidence s).

Definition evidence_for (r : string) (n ep : Z) (o : EvidenceObligation) (e : Evidence.t) : bool :=
  (Evidence.role e =? r)%string && (Evidence.ordinal e =? n)%Z && (Evidence.epoch e =? ep)%Z
  && (Evidence.obligation_id e =? obligation_id o)%string
  && (Evidence.event e =? event o)%string.

(** [by_process.get((role, ordinal))]. *)
Definition process_epoch (s : Store) (pid r : string) (n : Z) : option Z :=
  (λ i, EcpaModel.epoch (Inventory.process i)) <$>
    find_last (λ i, (Inventory.plan_id i =? pid)%string && (role (Inventory.process i) =? r)%string
                    && (ordinal (Inventory.process i) =? n)%Z) (inventory s).

Definition evidence_complete (s : Store) (p : Plan) (epoch now : Z) : bool :=
  has_obligations p
  && forallb (λ o, forallb (λ n,
       match process_epoch s (plan_id p) (ob_role o) n with
       | None => false
       | Some ep => existsb (evidence_for (ob_role o) n ep o)
                      (current_evidence s (plan_id p) epoch now)
       end) (required_ordinals o)) (obligations p).

Definition _evidence_complete (p : Plan) (now : Z) : C bool :=
  s ← get_store;
  epoch ← gets manager_epoch;
  mret (evidence_complete s p epoch now).

Definition canonical_digest (value : json) : string :=
  "sha256:" +:+ sha256_hexdigest (canonical_bytes value).

Definition _open_proof (p : Plan) (generation : Z) : C OpenProof :=
  s ← get_store;
  epoch ← gets manager_epoch;
  let rows := sort_by Evidence.nonce str_leb
    (List.filter (λ e, (Evidence.plan_id e =? plan_id p)%string && Evidence.valid e
       && (Evidence.manager_epoch e =? epoch)%Z) (evidence s)) in
  let evidence := JArr ((λ e, JObj [("nonce", JStr (Evidence.nonce e));
    ("evidence_digest", JStr (Evidence.evidence_digest e));
    ("process_key", JStr (Evidence.process_key e));
    ("obligation_id", JStr (Evidence.obligation_id e)); ("event", JStr (Evidence.event e))])
    <$> rows) in
  grant ← on_gate gate_authority;
  row ← on_gate ExposureGate._row;
  mret (mkProof (plan_id p) generation (Z.of_nat (length rows)) (canonical_digest evidence)
    (canonical_digest (to_json (obligations p))) grant (GateRow.candidate_digest row)).

(** *** Rollback *)

Definition opt_json (o : option json) : json := default JNull o.

(** [INSERT INTO rollback_outcome]. *)
Definition insert_outcome (pid : string) (success : bool) (detail : json) : C unit :=
  now ← _now;
  update_store (λ s, with_outcomes (rollback_outcome s ++
    [Outcome.mk (Z.of_nat (S (length (rollback_outcome s)))) pid success detail now]) s).

(** The gate's part of a rollback: roll back, or fail closed when the host could not; a
    failure of that is answered by another fail-close, and by SAFETY_UNKNOWN. *)
Definition rollback_gate (p : Plan) (host_error : option string)
    : C (RollbackClass.t * option string) :=
  try_else
    (match host_error with
     | None => on_gate (ExposureGate.rollback gate_clock (candidate_of p) None)
     | Some _ =>
         o ← on_gate (fail_close gate_clock (candidate_of p) "host rollback failed");
         mret (classification o)
     end)
    (λ exc, try_else
      (on_gate (fail_close gate_clock (candidate_of p) "traffic rollback failed"))
      (λ close_exc, mret (RollbackClass.SAFETY_UNKNOWN,
         Some (exn_str exc +:+ "; fail-close: " +:+ exn_str close_exc)))
      (λ o, mret (classification o, Some (exn_str exc))))
    (λ c, mret (c, None)).

Definition rollback_state (host_error : option string) (c : RollbackClass.t) : State.t :=
  match c with
  | RollbackClass.SAFETY_UNKNOWN => State.SAFETY_UNKNOWN
  | RollbackClass.FAILED_SAFE => State.FAILED_SAFE
  | _ => match host_error with Some _ => State.FAILED_SAFE | None => State.ROLLED_BACK end
  end.

Definition rollback_with_gate (pid : string) (p : Plan) (host_outcome : option json)
    (host_error : option string) : C State.t :=
  '(gate_outcome, gate_error) ← rollback_gate p host_error;
  hit "rollback.after_traffic_side_effect";;
  in_transaction (_journal pid "receipt" "rollback.traffic"
    (JObj [("outcome", JStr (RollbackClass.value gate_outcome)); ("error", to_json gate_error)]));;
  let target := rollback_state host_error gate_outcome in
  in_transaction (
    insert_outcome pid (bool_decide (target = State.ROLLED_BACK))
      (JObj [("host_outcome", opt_json host_outcome); ("host_error", to_json host_error);
             ("traffic_outcome", JStr (RollbackClass.value gate_outcome));
             ("traffic_error", to_json gate_error)]);;
    _transition pid target);;
  mret target.

Definition rollback_plain (pid : string) (p : Plan) (host_outcome : option json)
    (host_error : option string) : C State.t :=
  try_else
    (match host_error with
     | Some e => raise (RuntimeError e)
     | None =>
         raise_if (bool_decide (opt_json host_outcome = JNull)) AssertionError;;
         zoom (restore_predecessor (E := E) (predecessor p))
     end)
    (λ exc,
      in_transaction (
        insert_outcome pid false (JObj [("error", JStr (exn_str exc))]);;
        _transition pid State.FAILED_SAFE);;
      raise (ContractError ROLLBACK_FAILED (exn_str exc)))
    (λ _,
      in_transaction (
        insert_outcome pid true (opt_json host_outcome);;
        _journal pid "receipt" "rollback" (opt_json host_outcome);;
        _transition pid State.ROLLED_BACK);;
      mret State.ROLLED_BACK).

Definition rollback (pid reason : string) : C State.t :=
  p ← stored_plan pid;
  in_transaction (
    _transition pid State.ROLLBACK;;
    _journal pid "wal" "rollback" (JObj [("reason", JStr reason)]));;
  '(host_outcome, host_error) ← try_else (zoom (host_rollback (E := E) (predecessor p)))
    (λ exc, mret (None, Some (exn_str exc))) (λ o, mret (Some o, None));
  in_transaction (_journal pid "receipt" "rollback.host"
    (JObj [("outcome", opt_json host_outcome); ("error", to_json host_error)]));;
  gate ← has_gate;
  if gate : bool then rollback_with_gate pid p host_outcome host_error
  else rollback_plain pid p host_outcome host_error.

Definition external_lease_lost (pid : string) : C State.t :=
  p ← stored_plan pid;
  in_transaction (_transition pid State.DEGRADED);;
  if fallback_proven p then
    in_transaction (_transition pid State.RECONCILE);;
    mret State.RECONCILE
  else rollback pid "external lease invalid".

(** The first transaction of [commit]: the intent and the compare-and-swap of the generation. *)
Definition commit_intent (pid : string) (p : Plan) (expected : Z) : C unit :=
  in_transaction (
    _transition pid State.COMMIT_READY;;
    _journal pid "wal" "commit" (JObj [("from", JInt expected)]);;
    s ← get_store;
    let changed := (generation s =? expected)%Z in
    when changed (update_store (with_generation (generation s + 1)));;
    raise_if (negb changed || negb (pred_generation (predecessor p) =? expected)%Z)
      (ContractError CAS_MISMATCH (z_str expected))).

(** The side effect of [commit]: traffic moves to the candidate. *)
Definition commit_effect (p : Plan) (expected : Z) : C unit :=
  gate ← has_gate;
  if gate : bool then
    signed ← gets (λ w, verifier_signed (env w));
    raise_if (negb signed) (ContractError MISSING_PROCESS_EVIDENCE
      "ExposureGate requires signed receipt verification");;
    proof ← _open_proof p (expected + 1);
    on_gate (ExposureGate.open gate_clock (expected + 1) proof);;
    mret tt
  else zoom (activate (E := E) p).

Definition commit (pid : string) (expected : Z) : C Z :=
  p ← stored_plan pid;
  leased ← zoom (external_lease_valid (E := E) p);
  when (negb leased)
    (external_lease_lost pid;; raise (ContractError EXTERNAL_LEASE_INVALID pid));;
  now ← _now;
  complete ← _evidence_complete p now;
  raise_if (negb complete) (ContractError MISSING_PROCESS_EVIDENCE pid);;
  commit_intent pid p expected;;
  hit "commit.after_wal";;
  commit_effect p expected;;
  hit "commit.after_side_effect";;
  in_transaction (
    s ← get_store;
    _journal pid "receipt" "commit" (JObj [("generation", JInt (generation s))]);;
    _transition pid State.EFFECTIVE;;
    mret (generation s)).

(** *** Recovery *)

Definition last_host_receipt (pid : string) (s : Store) : option Journal.t :=
  find_last (λ j, (Journal.plan_id j =? pid)%string
                  && (Journal.operation j =? "rollback.host")%string) (journal s).

(** [detail.get(key) is not None]. *)
Definition detail_present (key : string) (detail : json) : bool :=
  match detail with
  | JObj kvs => match assoc key kvs with Some JNull | None => false | Some _ => true end
  | _ => false
  end.

Definition missing_host_detail : json :=
  JObj [("outcome", JNull); ("error", JStr "missing host receipt")].

Definition class_state (c : RollbackClass.t) : State.t :=
  if bool_decide (c = RollbackClass.FAILED_SAFE) then State.FAILED_SAFE else State.SAFETY_UNKNOWN.

(** The state a recovered rollback ends in; an unexpected gate state is failed closed. *)
Definition recovered_target (p : Plan) (gate_state : GateState.t) (host_detail : json)
    : C State.t :=
  if bool_decide (gate_state = GateState.SAFETY_UNKNOWN) then mret State.SAFETY_UNKNOWN
  else if bool_decide (gate_state = GateState.FAILED_SAFE) || detail_present "error" host_detail
          || negb (detail_present "outcome" host_detail) then mret State.FAILED_SAFE
  else if bool_decide (gate_state = GateState.ROLLED_BACK) then mret State.ROLLED_BACK
  else
    o ← on_gate (fail_close gate_clock (candidate_of p)
          ("unexpected gate recovery state " +:+ GateState.value gate_state));
    mret (class_state (classification o)).

(** [recover] of an activation whose rollback was interrupted, with a gate. *)
Definition recover_rollback (pid : string) (p : Plan) : C State.t :=
  s ← get_store;
  gate_state ← on_gate (reconcile gate_clock);
  '(gate_state, host_detail) ← match last_host_receipt pid s with
    | None =>
        o ← on_gate (fail_close gate_clock (candidate_of p)
              "host rollback outcome missing during recovery");
        mret (if bool_decide (classification o = RollbackClass.FAILED_SAFE)
              then GateState.FAILED_SAFE else GateState.SAFETY_UNKNOWN, missing_host_detail)
    | Some j => mret (gate_state, Journal.detail_json j)
    end;
  target ← recovered_target p gate_state host_detail;
  let detail := JObj [("recovered", JBool true); ("host", host_detail);
                      ("gate_state", JStr (GateState.value gate_state))] in
  in_transaction (
    insert_outcome pid (bool_decide (target = State.ROLLED_BACK)) detail;;
    _journal pid "receipt" "rollback.recover" detail;;
    _transition pid target);;
  mret target.

(** [recover] of an interrupted commit, with a gate: [Some] when the open is ratified. *)
Definition recover_commit (pid : string) (p : Plan) : C (option State.t) :=
  gate_state ← on_gate (reconcile gate_clock);
  if bool_decide (gate_state = GateState.CANDIDATE_OPEN) then
    in_transaction (
      _journal pid "receipt" "commit.reconcile" (JObj [("queried", JBool true)]);;
      _transition pid State.EFFECTIVE);;
    mret (Some State.EFFECTIVE)
  else
    when (bool_decide (gate_state = GateState.CANDIDATE_CLOSED))
      (on_gate (ExposureGate.rollback gate_clock (candidate_of p) None);; mret tt);;
    in_transaction (
      _transition pid State.RECONCILE;;
      _journal pid "recovery" "gate-not-open"
        (JObj [("gate_state", JStr (GateState.value gate_state))]));;
    mret None.

(** The remaining branches of [recover]. *)
Definition recover_other (pid : string) (p : Plan) (state : State.t) (gate : bool) : C unit :=
  if bool_decide (state ∈ [State.PREPARING; State.LAUNCHING; State.OBSERVING]) && gate then
    on_gate (ExposureGate.rollback gate_clock (candidate_of p) None);;
    in_transaction (
      _transition pid State.RECONCILE;;
      _journal pid "recovery" "pre-open-rollback" (JObj [("state", JStr (State.value state))]))
  else if bool_decide (state ∈ [State.PREPARING; State.LAUNCHING; State.COMMIT_READY]) then
    zoom (restore_predecessor (E := E) (predecessor p));;
    in_transaction (
      _transition pid State.RECONCILE;;
      _journal pid "recovery" "reobserve" (JObj []))
  else when (bool_decide (state = State.OBSERVING)) (
    zoom (restore_predecessor (E := E) (predecessor p));;
    in_transaction (_transition pid State.RECONCILE)).

Definition recover (pid : string) : C State.t :=
  row ← _row pid;
  let state := Activation.state row in
  p ← lift_result (_plan_from_json (Activation.plan_json row));
  gate ← has_gate;
  if bool_decide (state = State.ROLLBACK) then
    (if gate : bool then recover_rollback pid p
     else in_transaction (_transition pid State.FAILED_SAFE);; mret State.FAILED_SAFE)
  else
    ratified ← (if bool_decide (state = State.COMMIT_READY) && gate then recover_commit pid p
                else recover_other pid p state gate;; mret None);
    match ratified with
    | Some s => mret s
    | None => row' ← _row pid; mret (Activation.state row')
    end.

Definition resume_observing (pid : string) : C unit :=
  in_transaction (_transition pid State.OBSERVING).

Definition status (pid : string) : C json :=
  row ← _row pid;
  s ← get_store;
  epoch ← gets manager_epoch;
  mret (JObj [("plan_id", JStr pid); ("state", JStr (State.value (Activation.state row)));
              ("launch_id", to_json (Activation.launch_id row));
              ("generation", JInt (generation s)); ("manager_epoch", JInt epoch)]).
End ActivationCoordinator.
