(* ===== verification/CoordinatorProofs.v ===== *)
(** * CoordinatorProofs: what the activation coordinator guarantees

    [swp] is the weakest precondition over the coordinator's store alone: host, verifier,
    external service, traffic (plain or an exposure gate), clock and fault points are
    arbitrary.  The invariant and the order of [GateInvariant.v] have their counterparts
    here: a well-formed store, and state changes along [TRANSITIONS] only. *)

From S2P Require Import Prelude Effects Json Sha256 EcpaModel ExposureGate GateInvariant.
From S2P Require Import DurableCoordinator.

Local Open Scope string_scope.
Local Open Scope list_scope.

Section Swp.
Context `{Sha256} {E T : Type} `{!Adapters E} `{!TrafficAuthorityAdapter T}.
Context (clock gate_clock : nat → Z) (ep : Z).

#[local] Abbreviation C := (M (CWorld E T)).

Definition swp {A} (m : C A) (Q : A → Store → Prop) (S : exn → Store → Prop) (s : Store) : Prop :=
  ∀ w, store w = s → manager_epoch w = ep →
    wp m (λ a w', manager_epoch w' = ep ∧ Q a (store w'))
         (λ e w', manager_epoch w' = ep ∧ S e (store w')) w.

Lemma swp_mono {A} (m : C A) (Q Q' : A → Store → Prop) (S S' : exn → Store → Prop) s :
  swp m Q S s → (∀ a s', Q a s' → Q' a s') → (∀ e s', S e s' → S' e s') → swp m Q' S' s.
Proof.
  intros Hm HQ HS w Hw He. eapply wp_mono; [by apply Hm|intros ? ? [? ?]; auto..].
Qed.

Lemma swp_ret {A} (a : A) (Q : A → Store → Prop) S s : Q a s → swp (mret a) Q S s.
Proof. by intros HQ w <- He. Qed.

Lemma swp_bind {A B} (m : C A) (f : A → C B) Q S s :
  swp m (λ a, swp (f a) Q S) S s → swp (m ≫= f) Q S s.
Proof.
  intros Hm w Hw He. apply wp_bind. eapply wp_mono; [by apply Hm| |done].
  intros a w' [He' Ha]. by apply Ha.
Qed.

Lemma swp_raise {A} e (Q : A → Store → Prop) (S : exn → Store → Prop) s :
  S e s → swp (raise e) Q S s.
Proof. by intros HS w <- He. Qed.

Lemma swp_raise_if b e (Q : unit → Store → Prop) (S : exn → Store → Prop) s :
  (b = true → S e s) → (b = false → Q tt s) → swp (raise_if b e) Q S s.
Proof. intros H1 H2 w <- He. apply wp_raise_if; auto. Qed.

Lemma swp_when b m (Q : unit → Store → Prop) (S : exn → Store → Prop) s :
  (b = true → swp m Q S s) → (b = false → Q tt s) → swp (when b m) Q S s.
Proof. intros H1 H2 w Hw He. apply wp_when; [intros Hb; by apply H1|subst; auto]. Qed.

Lemma swp_lift {A} (r : result A) (Q : A → Store → Prop) (S : exn → Store → Prop) s :
  (∀ a, r = Ok a → Q a s) → (∀ e, r = Err e → S e s) → swp (lift_result r) Q S s.
Proof. intros H1 H2 w <- He. apply wp_lift_result; auto. Qed.

Lemma swp_try_else {A B} (m : C A) (h : exn → C B) k Q S s :
  swp m (λ a, swp (k a) Q S) (λ e, swp (h e) Q S) s → swp (try_else m h k) Q S s.
Proof.
  intros Hm w Hw He. apply wp_try_else. eapply wp_mono; [by apply Hm| |].
  - intros a w' [? Ha]. by apply Ha.
  - intros e w' [? Hx]. by apply Hx.
Qed.

Lemma swp_catch {A} (m : C A) (h : exn → C A) Q S s :
  swp m Q (λ e, swp (h e) Q S) s → swp (catch m h) Q S s.
Proof.
  intros Hm w Hw He. apply wp_catch. eapply wp_mono; [by apply Hm|done|].
  intros e w' [? Hx]. by apply Hx.
Qed.

(** The adapters and the gate cannot touch the coordinator's store. *)
Lemma swp_env {A} (m : M E A) (Q : A → Store → Prop) (S : exn → Store → Prop) s :
  (∀ a, Q a s) → (∀ e, S e s) → swp (zoom m) Q S s.
Proof.
  intros H1 H2 w <- He. apply wp_zoom. unfold wp.
  destruct (m (lget w)) as [[a|e] t]; [by split|by split].
Qed.

Lemma swp_on_gate {A} (m : M (World T) A) (Q : A → Store → Prop) (S : exn → Store → Prop) s :
  (∀ a, Q a s) → (∀ e, S e s) → swp (on_gate m) Q S s.
Proof.
  intros H1 H2 w <- He. unfold on_gate, wp. destruct (exposure_gate w) as [g|]; [|by split].
  destruct (m g) as [[a|e] g']; by split.
Qed.

Lemma swp_hit point (Q : unit → Store → Prop) (S : exn → Store → Prop) s :
  Q tt s → (∀ e, S e s) → swp (hit point) Q S s.
Proof. intros HQ HS w <- He. unfold hit. wp_steps; by split. Qed.

Lemma swp_now (Q : Z → Store → Prop) S s : (∀ n, Q n s) → swp (_now clock) Q S s.
Proof. intros HQ w <- He. unfold _now. wp_steps. by split. Qed.

Lemma swp_has_gate (Q : bool → Store → Prop) S s : (∀ b, Q b s) → swp has_gate Q S s.
Proof. intros HQ w <- He. unfold has_gate. wp_steps. by split. Qed.

Lemma swp_signed (Q : bool → Store → Prop) S s :
  (∀ b, Q b s) → swp (gets (λ w : CWorld E T, verifier_signed (env w))) Q S s.
Proof. intros HQ w <- He. wp_steps. by split. Qed.

Lemma swp_epoch (Q : Z → Store → Prop) S s : Q ep s → swp (gets manager_epoch) Q S s.
Proof. intros HQ w <- He. wp_steps. by subst. Qed.

Lemma swp_get_store (Q : Store → Store → Prop) S s : Q s s → swp get_store Q S s.
Proof. by intros HQ w <- He. Qed.

Lemma swp_update_store f (Q : unit → Store → Prop) S s : Q tt (f s) → swp (update_store f) Q S s.
Proof. by intros HQ w <- He. Qed.

(** A database transaction that raises leaves the store it started from. *)
Lemma swp_transaction {A} (m : C A) (Q : A → Store → Prop) (S : exn → Store → Prop) s :
  swp m Q (λ e _, S e s) s → swp (in_transaction m) Q S s.
Proof.
  intros Hm w Hw He. apply wp_transaction. eapply wp_mono; [by apply Hm|done|].
  intros e w' [? Hx]. cbn. by subst.
Qed.

Lemma swp_row pid (Q : Activation.t → Store → Prop) (S : exn → Store → Prop) s :
  (∀ row, find (is_plan pid) (activation s) = Some row → Q row s) →
  (find (is_plan pid) (activation s) = None → S (ContractError UNKNOWN_RESOURCE pid) s) →
  swp (_row pid) Q S s.
Proof.
  intros HQ HS. apply swp_bind, swp_get_store.
  destruct (find (is_plan pid) (activation s)) as [row|] eqn:Hf;
    [apply swp_ret|apply swp_raise]; auto.
Qed.

(** The entry a [_journal] writes. *)
Definition journaled (s : Store) (pid kind operation : string) (detail : json) (now : Z) : Store :=
  with_journal (journal s ++ [Journal.mk (journal_seq s + 1) pid kind operation detail now])
    (journal_seq s + 1) s.

Lemma swp_journal pid kind op detail (Q : unit → Store → Prop) S s :
  (∀ now, Q tt (journaled s pid kind op detail now)) →
  swp (_journal clock pid kind op detail) Q S s.
Proof. intros HQ. apply swp_bind, swp_now. intros n. apply swp_update_store, HQ. Qed.

(** The two writes of a [_transition]. *)
Definition transitioned (s : Store) (pid : string) (current target : State.t) (now : Z) : Store :=
  journaled (update_activation pid (act_state target) s) pid "transition" (State.value target)
    (JObj [("from", JStr (State.value current))]) now.

Lemma swp_transition pid target (Q : unit → Store → Prop) (S : exn → Store → Prop) s :
  (∀ row now, find (is_plan pid) (activation s) = Some row →
    target ∈ transitions (Activation.state row) →
    Q tt (transitioned s pid (Activation.state row) target now)) →
  (∀ e, S e s) →
  swp (_transition clock pid target) Q S s.
Proof.
  intros HQ HS. apply swp_bind, swp_row; [|by auto]. intros row Hrow.
  apply swp_bind, swp_raise_if; [by auto|]. intros Hb. apply swp_bind, swp_update_store.
  apply swp_journal. intros now. apply (HQ row now); [done|]. reflect. by apply dec_stable.
Qed.

Lemma swp_stored_plan pid (Q : Plan → Store → Prop) (S : exn → Store → Prop) s :
  (∀ row p, find (is_plan pid) (activation s) = Some row →
    _plan_from_json (Activation.plan_json row) = Ok p → Q p s) →
  (∀ e, S e s) → swp (stored_plan pid) Q S s.
Proof.
  intros HQ HS. apply swp_bind, swp_row; [|by auto]. intros row Hrow.
  apply swp_lift; [|by auto]. intros p Hp. by eapply HQ.
Qed.

Lemma swp_outcome pid b detail (Q : unit → Store → Prop) S s :
  (∀ now, Q tt (with_outcomes (rollback_outcome s ++
    [Outcome.mk (Z.of_nat (Datatypes.S (length (rollback_outcome s)))) pid b detail now]) s)) →
  swp (insert_outcome clock pid b detail) Q S s.
Proof. intros HQ. apply swp_bind, swp_now. intros n. apply swp_update_store, HQ. Qed.
End Swp.

(** Symbolic execution over the store. *)
Ltac swp_step :=
  match goal with
  | |- swp _ (mret _) _ _ _ => apply swp_ret
  | |- swp _ (_ ≫= _) _ _ _ => apply swp_bind
  | |- swp _ (raise _) _ _ _ => apply swp_raise
  | |- swp _ (raise_if _ _) _ _ _ => apply swp_raise_if; intros ?
  | |- swp _ (when _ _) _ _ _ => apply swp_when; intros ?
  | |- swp _ (lift_result _) _ _ _ => apply swp_lift; intros ? ?
  | |- swp _ (try_else _ _ _) _ _ _ => apply swp_try_else
  | |- swp _ (catch _ _) _ _ _ => apply swp_catch
  | |- swp _ (zoom _) _ _ _ => apply swp_env; intros ?
  | |- swp _ (on_gate _) _ _ _ => apply swp_on_gate; intros ?
  | |- swp _ (hit _) _ _ _ => apply swp_hit; [|intros ?]
  | |- swp _ (_now _) _ _ _ => apply swp_now; intros ?
  | |- swp _ has_gate _ _ _ => apply swp_has_gate; intros ?
  | |- swp _ (gets manager_epoch) _ _ _ => apply swp_epoch
  | |- swp _ (gets (λ w, verifier_signed _)) _ _ _ => apply swp_signed; intros ?
  | |- swp _ get_store _ _ _ => apply swp_get_store
  | |- swp _ (update_store _) _ _ _ => apply swp_update_store
  | |- swp _ (in_transaction _) _ _ _ => apply swp_transaction
  | |- swp _ (_row _) _ _ _ => apply swp_row; [intros ? ?|intros ?]
  | |- swp _ (_journal _ _ _ _ _) _ _ _ => apply swp_journal; intros ?
  | |- swp _ (_transition _ _ _) _ _ _ => apply swp_transition; [intros ? ? ? ?|intros ?]
  | |- swp _ (stored_plan _) _ _ _ => apply swp_stored_plan; [intros ? ? ? ?|intros ?]
  | |- swp _ (insert_outcome _ _ _ _) _ _ _ => apply swp_outcome; intros ?
  | |- swp _ (if ?b then _ else _) _ _ _ => destruct b eqn:?
  | |- swp _ (match ?x with _ => _ end) _ _ _ => destruct x eqn:?
  end.

Ltac swp_steps := repeat (swp_step; cbn beta iota).

(** ** The invariant *)

(** The generations the journal's commit intents started from. *)
Definition commit_froms (l : list Journal.t) : list json :=
  omap (λ j, if (Journal.kind j =? "wal")%string && (Journal.operation j =? "commit")%string
             then field "from" (Journal.detail_json j) else None) l.

(** The states that follow a successful compare-and-swap of the generation. *)
Definition committing (s : State.t) : bool :=
  bool_decide (s ∈ [State.COMMIT_READY; State.EFFECTIVE]).

Definition slot (i : Inventory.t) : string * string * Z :=
  (Inventory.plan_id i, role (Inventory.process i), ordinal (Inventory.process i)).

Definition plan_ids (s : Store) : list string := Activation.plan_id <$> activation s.

Section Invariant.
Context `{Sha256}.

(** An activation row stores its plan, and is only past the compare-and-swap when the
    generation has left the plan's predecessor. *)
Definition row_ok (g : Z) (a : Activation.t) : Prop :=
  ∃ p, Activation.plan_json a = to_json p ∧ Activation.plan_id a = plan_id p
    ∧ Activation.predecessor_json a = to_json (predecessor p) ∧ has_obligations p = true
    ∧ (committing (Activation.state a) = true → (pred_generation (predecessor p) < g)%Z).

Record store_ok (s : Store) : Prop := {
  so_plans : NoDup (plan_ids s);
  so_rows : Forall (row_ok (generation s)) (activation s);
  so_nonces : NoDup (Evidence.nonce <$> evidence s);
  so_current : ∀ e, e ∈ evidence s → Evidence.valid e = true →
    Evidence.manager_epoch e = meta_epoch s;
  so_slots : NoDup (slot <$> inventory s);
  so_journal : ∀ j, j ∈ journal s →
    Journal.plan_id j ∈ plan_ids s ∧ (Journal.sequence j ≤ journal_seq s)%Z;
  so_sequence : StronglySorted Z.lt (Journal.sequence <$> journal s);
  so_commits : NoDup (commit_froms (journal s));
  so_commits_below : ∀ j, j ∈ commit_froms (journal s) → ∃ z, j = JInt z ∧ (z < generation s)%Z;
}.

(** ** The order on stores *)

Definition state_step (a b : State.t) : Prop := b ∈ transitions a.

Definition activation_le (a a' : Activation.t) : Prop :=
  Activation.plan_id a' = Activation.plan_id a ∧ Activation.plan_json a' = Activation.plan_json a
  ∧ Activation.predecessor_json a' = Activation.predecessor_json a
  ∧ rtc state_step (Activation.state a) (Activation.state a').

Definition evidence_le (e e' : Evidence.t) : Prop := e' = e ∨ e' = invalidate e.

(** Rows are only appended; an activation moves along [TRANSITIONS], evidence can only be
    invalidated, the generation only grows. *)
Record store_le (s s' : Store) : Prop := {
  sle_generation : (generation s ≤ generation s')%Z;
  sle_epoch : meta_epoch s' = meta_epoch s;
  sle_activation : ∃ old new, activation s' = old ++ new
    ∧ Forall2 activation_le (activation s) old;
  sle_evidence : ∃ old new, evidence s' = old ++ new ∧ Forall2 evidence_le (evidence s) old;
  sle_journal : journal s `prefix_of` journal s';
  sle_outcomes : rollback_outcome s `prefix_of` rollback_outcome s';
}.

#[export] Instance activation_le_preorder : PreOrder activation_le.
Proof.
  split; [done|]. intros a b c (?&?&?&?) (?&?&?&?). unfold activation_le.
  split_and!; try congruence. by etrans.
Qed.

#[export] Instance evidence_le_preorder : PreOrder evidence_le.
Proof.
  split; [by left|]. intros a b c [->| ->] [->| ->]; unfold evidence_le; auto.
Qed.

Lemma Forall2_app_trans {A} (R : A → A → Prop) `{!PreOrder R} (l o n l' : list A) :
  Forall2 R l o → (∃ o' n', l' = o' ++ n' ∧ Forall2 R (o ++ n) o') →
  ∃ o' n', l' = o' ++ n' ∧ Forall2 R l o'.
Proof.
  intros F (o' & n' & -> & F'). apply Forall2_app_inv_l in F' as (p & q & Fp & Fq & ->).
  exists p, (q ++ n'). rewrite app_assoc. split; [done|]. by etrans.
Qed.

#[export] Instance store_le_preorder : PreOrder store_le.
Proof.
  split.
  - intros s. split; try done; eexists _, []; rewrite app_nil_r; by split.
  - intros a b c [G1 E1 (o1 & n1 & A1 & F1) (p1 & m1 & V1 & W1) J1 O1]
      [G2 E2 A2 V2 J2 O2]. split; [lia|congruence| | |by etrans|by etrans].
    + rewrite A1 in A2. eapply Forall2_app_trans; [apply _|exact F1|exact A2].
    + rewrite V1 in V2. eapply Forall2_app_trans; [apply _|exact W1|exact V2].
Qed.

Definition sevolves (s0 s : Store) : Prop := store_ok s ∧ store_le s0 s.

Lemma sevolves_step s0 s s' : sevolves s0 s → store_ok s' → store_le s s' → sevolves s0 s'.
Proof. intros [_ Hle] Hok Hle'. split; [done|]. by etrans. Qed.

(** *** The writes *)

Lemma commit_froms_snoc l j :
  commit_froms (l ++ [j]) = commit_froms l
    ++ if (Journal.kind j =? "wal")%string && (Journal.operation j =? "commit")%string
       then option_list (field "from" (Journal.detail_json j)) else [].
Proof.
  unfold commit_froms. rewrite omap_app. cbn. destruct (_ && _); [|done]. by destruct (field _ _).
Qed.

Lemma sequence_snoc l n :
  StronglySorted Z.lt l → (∀ m, m ∈ l → (m < n)%Z) → StronglySorted Z.lt (l ++ [n]).
Proof.
  induction 1 as [|m l Hl IH Hm]; intros Hn; cbn; [by repeat constructor|].
  constructor.
  - apply IH. intros x Hx. apply Hn. by right.
  - apply Forall_app. split; [done|]. constructor; [|done]. apply Hn. by left.
Qed.

Lemma store_ok_journaled s pid kind op detail now :
  store_ok s → pid ∈ plan_ids s →
  (if (kind =? "wal")%string && (op =? "commit")%string
   then ∃ z, field "from" detail = Some (JInt z) ∧ (z < generation s)%Z
     ∧ JInt z ∉ commit_froms (journal s) else True) →
  store_ok (journaled s pid kind op detail now).
Proof.
  intros [? ? ? ? ? Hj Hseq Hc Hcb] Hpid Hcommit. split; cbn; auto.
  - intros j [Hin| ->%list_elem_of_singleton]%elem_of_app;
      [|split; [exact Hpid|apply Z.le_refl]].
    destruct (Hj j Hin) as [? Hle]. split; [done|]. etrans; [exact Hle|]. apply Z.le_succ_diag_r.
  - rewrite fmap_app. apply sequence_snoc; [done|].
    intros m (j & -> & Hin)%list_elem_of_fmap. destruct (Hj j Hin). cbn [Journal.sequence]. lia.
  - rewrite commit_froms_snoc. cbn. destruct (_ && _); [|by rewrite app_nil_r].
    destruct Hcommit as (z & -> & Hz & Hnew). cbn. apply NoDup_app. split; [done|].
    split; [|apply NoDup_singleton]. by intros x Hx ->%list_elem_of_singleton.
  - intros j. rewrite commit_froms_snoc. cbn. destruct (_ && _);
      [|rewrite app_nil_r; by apply Hcb].
    destruct Hcommit as (z & -> & Hz & Hnew). cbn.
    intros [Hin| ->%list_elem_of_singleton]%elem_of_app; [by apply Hcb|by exists z].
Qed.

Lemma store_le_journaled s pid kind op detail now :
  store_le s (journaled s pid kind op detail now).
Proof.
  split; cbn; try done; try (eexists _, []; rewrite app_nil_r; by split).
  by apply prefix_app_r.
Qed.

Lemma find_plan_elem pid l a :
  find (is_plan pid) l = Some a → a ∈ l ∧ Activation.plan_id a = pid.
Proof.
  intros Hf. apply find_some in Hf as [Hin Hb]. unfold is_plan in Hb. reflect.
  split; [by apply list_elem_of_In|done].
Qed.

Lemma find_plan_id pid s a : find (is_plan pid) (activation s) = Some a → pid ∈ plan_ids s.
Proof. intros [Hin <-]%find_plan_elem. by apply list_elem_of_fmap_2. Qed.

Lemma plan_ids_update s pid f :
  (∀ a, Activation.plan_id (f a) = Activation.plan_id a) →
  plan_ids (update_activation pid f s) = plan_ids s.
Proof.
  intros Hf. unfold plan_ids. cbn. rewrite <-list_fmap_compose. apply list_fmap_ext.
  intros i a _. cbn. destruct (is_plan pid a); [apply Hf|done].
Qed.

(** Replacing the one row of a plan. *)
Lemma sevolves_update s0 s pid row f g :
  sevolves s0 s → find (is_plan pid) (activation s) = Some row → (generation s ≤ g)%Z →
  (∀ a, Activation.plan_id (f a) = Activation.plan_id a) →
  activation_le row (f row) → (row_ok (generation s) row → row_ok g (f row)) →
  sevolves s0 (with_generation g (update_activation pid f s)).
Proof.
  intros Hev Hrow Hg Hid Hle Hrok. pose proof Hev as [Hok _].
  destruct (find_plan_elem _ _ _ Hrow) as [Hin Hpid].
  assert (Honly : ∀ a, a ∈ activation s → is_plan pid a = true → a = row).
  { intros a Ha Hb. unfold is_plan in Hb. reflect.
    eapply key_inj_of_nodup; [apply (so_plans _ Hok)|done|done|congruence]. }
  pose proof (plan_ids_update s pid f Hid) as Hids.
  destruct Hok as [? Hrows ? ? ? Hj ? ? Hcb].
  apply (sevolves_step s0 s); [done| |].
  - split; cbn; auto.
    + unfold plan_ids in *. cbn in *. by rewrite Hids.
    + apply Forall_fmap, Forall_forall. intros a Ha. cbn.
      rewrite Forall_forall in Hrows. specialize (Hrows a Ha) as Hra.
      destruct (is_plan pid a) eqn:Hp.
      * rewrite (Honly a Ha Hp) in *. by apply Hrok.
      * destruct Hra as (p & ? & ? & ? & ? & Hc). exists p. split_and!; try done.
        intros Hcm. specialize (Hc Hcm). lia.
    + intros j Hjn. unfold plan_ids in *. cbn in *. rewrite Hids. by apply Hj.
    + intros j Hjn. destruct (Hcb j Hjn) as (z & -> & ?). exists z. split; [done|lia].
  - split; cbn; try done; try (eexists _, []; rewrite app_nil_r; by split).
    eexists _, []. rewrite app_nil_r. split; [done|].
    apply Forall2_fmap_r, Forall_Forall2_diag, Forall_forall. intros a Ha. cbn.
    destruct (is_plan pid a) eqn:Hp; [by rewrite (Honly a Ha Hp)|done].
Qed.

(** A store that differs in none of the columns the invariant reads. *)
Lemma sevolves_outcomes s0 s l :
  sevolves s0 s → sevolves s0 (with_outcomes (rollback_outcome s ++ l) s).
Proof.
  intros Hev. pose proof Hev as [[] _]. apply (sevolves_step s0 s); [done|by split|].
  split; cbn; try done; try (eexists _, []; rewrite app_nil_r; by split).
  by apply prefix_app_r.
Qed.

Lemma sevolves_inventory s0 s l :
  sevolves s0 s → NoDup (slot <$> l) → sevolves s0 (with_inventory l s).
Proof.
  intros Hev Hnd. pose proof Hev as [[] _]. apply (sevolves_step s0 s); [done|by split|].
  split; cbn; try done; eexists _, []; rewrite app_nil_r; by split.
Qed.

Lemma sevolves_insert_evidence s0 s e :
  sevolves s0 s → Evidence.nonce e ∉ (Evidence.nonce <$> evidence s) →
  Evidence.manager_epoch e = meta_epoch s →
  sevolves s0 (with_evidence (evidence s ++ [e]) s).
Proof.
  intros Hev Hnew He. pose proof Hev as [[? ? ? Hcur ? ? ? ? ?] _].
  apply (sevolves_step s0 s); [done| |].
  - split; cbn; auto.
    + rewrite fmap_app. apply NoDup_app. split; [done|]. split; [|apply NoDup_singleton].
      by intros x Hx ->%list_elem_of_singleton.
    + intros e' [Hin| ->%list_elem_of_singleton]%elem_of_app; [by apply Hcur|done].
  - split; cbn; try done; [eexists _, []; rewrite app_nil_r; by split|].
    by exists (evidence s), [e].
Qed.

Lemma sevolves_invalidate s0 s (f : Evidence.t → bool) :
  sevolves s0 s →
  sevolves s0 (with_evidence ((λ e, if f e then invalidate e else e) <$> evidence s) s).
Proof.
  intros Hev. pose proof Hev as [[? ? ? Hcur ? ? ? ? ?] _].
  apply (sevolves_step s0 s); [done| |].
  - split; cbn; auto.
    + rewrite <-list_fmap_compose, (list_fmap_ext _ Evidence.nonce); [done|].
      intros i e _. cbn. by destruct (f e).
    + intros e (e' & -> & Hin)%list_elem_of_fmap. destruct (f e'); [done|by apply Hcur].
  - split; cbn; try done; eexists _, []; rewrite app_nil_r; [by split|]. split; [done|].
    apply Forall2_fmap_r, Forall_Forall2_diag, Forall_forall. intros e _. cbv [compose].
    destruct (f e); [by right|by left].
Qed.

(** ** Every call keeps the store well formed *)

Context {E T : Type} `{!Adapters E} `{!TrafficAuthorityAdapter T}.
Context (clock gate_clock : nat → Z) (ep : Z).
#[local] Abbreviation C := (M (CWorld E T)).

(** A program that keeps a property of the store, whether it returns or raises. *)
Definition keeps {A} (P : Store → Prop) (m : C A) : Prop :=
  ∀ s, P s → swp ep m (λ _, P) (λ _, P) s.

Section Keeps.
Context (P : Store → Prop).

Lemma keeps_ret {A} (a : A) : keeps P (mret a : C A).
Proof. intros s Hs. by apply swp_ret. Qed.
Lemma keeps_raise {A} e : keeps P (raise e : C A).
Proof. intros s Hs. by apply swp_raise. Qed.
Lemma keeps_bind {A B} (m : C A) (f : A → C B) :
  keeps P m → (∀ a, keeps P (f a)) → keeps P (m ≫= f).
Proof.
  intros Hm Hf s Hs. apply swp_bind. eapply swp_mono; [by apply Hm| |done].
  intros a s' Hs'. by apply Hf.
Qed.
Lemma keeps_raise_if b e : keeps P (raise_if b e : C unit).
Proof. intros s Hs. by apply swp_raise_if. Qed.
Lemma keeps_when b (m : C unit) : keeps P m → keeps P (when b m).
Proof. intros Hm s Hs. apply swp_when; [intros _; by apply Hm|done]. Qed.
Lemma keeps_lift {A} (r : result A) : keeps P (lift_result r : C A).
Proof. intros s Hs. by apply swp_lift. Qed.
Lemma keeps_try_else {A B} (m : C A) (h : exn → C B) k :
  keeps P m → (∀ e, keeps P (h e)) → (∀ a, keeps P (k a)) → keeps P (try_else m h k).
Proof.
  intros Hm Hh Hk s Hs. apply swp_try_else. eapply swp_mono; [by apply Hm| |].
  - intros a s' Hs'. by apply Hk.
  - intros e s' Hs'. by apply Hh.
Qed.
Lemma keeps_catch {A} (m : C A) (h : exn → C A) :
  keeps P m → (∀ e, keeps P (h e)) → keeps P (catch m h).
Proof.
  intros Hm Hh s Hs. apply swp_catch. eapply swp_mono; [by apply Hm|done|].
  intros e s' Hs'. by apply Hh.
Qed.
Lemma keeps_env {A} (m : M E A) : keeps P (zoom m : C A).
Proof. intros s Hs. by apply swp_env. Qed.
Lemma keeps_on_gate {A} (m : M (World T) A) : keeps P (on_gate m : C A).
Proof. intros s Hs. by apply swp_on_gate. Qed.
Lemma keeps_hit point : keeps P (hit point).
Proof. intros s Hs. by apply swp_hit. Qed.
Lemma keeps_now : keeps P (_now clock).
Proof. intros s Hs. by apply swp_now. Qed.
Lemma keeps_has_gate : keeps P has_gate.
Proof. intros s Hs. by apply swp_has_gate. Qed.
Lemma keeps_signed : keeps P (gets (λ w : CWorld E T, verifier_signed (env w))).
Proof. intros s Hs. by apply swp_signed. Qed.
Lemma keeps_epoch : keeps P (gets manager_epoch).
Proof. intros s Hs. by apply swp_epoch. Qed.
Lemma keeps_get_store : keeps P get_store.
Proof. intros s Hs. by apply swp_get_store. Qed.
Lemma keeps_transaction {A} (m : C A) : keeps P m → keeps P (in_transaction m).
Proof.
  intros Hm s Hs. apply swp_transaction. eapply swp_mono; [by apply Hm|done|done].
Qed.
Lemma keeps_row pid : keeps P (_row pid).
Proof. intros s Hs. by apply swp_row. Qed.
Lemma keeps_stored_plan pid : keeps P (stored_plan pid).
Proof. intros s Hs. by apply swp_stored_plan. Qed.
End Keeps.

(** The store has evolved from [s0] and holds the plan. *)
Definition grown (s0 : Store) (pid : string) (s : Store) : Prop :=
  sevolves s0 s ∧ pid ∈ plan_ids s ∧ meta_epoch s = ep.

Section Grown.
Context (s0 : Store) (pid : string).

Lemma keeps_journal kind op detail :
  (kind =? "wal")%string && (op =? "commit")%string = false →
  keeps (grown s0 pid) (_journal clock pid kind op detail).
Proof.
  intros Hk s (Hev & Hin & He). apply swp_journal. intros now. split; [|by split].
  apply (sevolves_step s0 s); [done| |apply store_le_journaled].
  apply store_ok_journaled; [apply Hev|done|]. by rewrite Hk.
Qed.

Lemma keeps_update_row row f s :
  grown s0 pid s → find (is_plan pid) (activation s) = Some row →
  (∀ a, Activation.plan_id (f a) = Activation.plan_id a) → activation_le row (f row) →
  (row_ok (generation s) row → row_ok (generation s) (f row)) →
  grown s0 pid (update_activation pid f s).
Proof.
  intros (Hev & Hin & He) Hrow Hid Hle Hrok.
  replace (update_activation pid f s)
    with (with_generation (generation s) (update_activation pid f s)) by by destruct s.
  split; [|split].
  - by eapply sevolves_update.
  - unfold with_generation, plan_ids. cbn. pose proof (plan_ids_update s pid f Hid) as Hids.
    unfold plan_ids in *. cbn in Hids. by rewrite Hids.
  - done.
Qed.

Lemma keeps_transition target :
  target ≠ State.COMMIT_READY → keeps (grown s0 pid) (_transition clock pid target).
Proof.
  intros Ht s Hs. apply swp_transition; [|done]. intros row now Hrow Hall.
  unfold transitioned.
  assert (Hup : grown s0 pid (update_activation pid (act_state target) s)).
  { apply (keeps_update_row row); [done..| |].
    - split_and!; try done. by apply rtc_once.
    - intros (p & ? & ? & ? & ? & Hc). exists p. split_and!; try done. intros Hcm. apply Hc.
      unfold committing in *. cbn in Hcm. destruct target; try done.
      destruct (Activation.state row); cbn in Hall; try done;
        repeat (apply elem_of_cons in Hall as [?|Hall]; [discriminate|]);
        by apply elem_of_nil in Hall. }
  destruct Hup as (Hev & Hin & He). split; [|by split].
  eapply sevolves_step; [exact Hev| |apply store_le_journaled].
  apply store_ok_journaled; [apply Hev|done|]. done.
Qed.

Lemma keeps_launch_update l : keeps (grown s0 pid) (update_store (update_activation pid (act_launch l))).
Proof.
  intros s Hs. apply swp_update_store.
  destruct (find (is_plan pid) (activation s)) as [row|] eqn:Hrow.
  - apply (keeps_update_row row); try done.
  - exfalso. destruct Hs as (_ & (a & Ha & Hin)%list_elem_of_fmap & _).
    apply list_elem_of_In in Hin. pose proof (find_none _ _ Hrow a Hin) as Hb.
    unfold is_plan in Hb. reflect. congruence.
Qed.

Lemma keeps_outcome b detail : keeps (grown s0 pid) (insert_outcome clock pid b detail).
Proof.
  intros s (Hev & Hin & He). apply swp_outcome. intros now. split; [|by split].
  by apply sevolves_outcomes.
Qed.

Lemma keeps_insert_inventory ps : keeps (grown s0 pid) (insert_inventory pid ps).
Proof.
  induction ps as [|p ps IH]; cbn; [apply keeps_ret|]. intros s Hs.
  apply swp_bind, swp_get_store. apply swp_bind, swp_raise_if; [done|]. intros Hnew.
  apply swp_bind, swp_update_store, IH. destruct Hs as (Hev & Hin & He). split; [|by split].
  apply sevolves_inventory; [done|]. rewrite fmap_app. apply NoDup_app.
  split; [apply Hev|]. split; [|apply NoDup_singleton].
  intros x (i & -> & Hi)%list_elem_of_fmap Hx%list_elem_of_singleton.
  apply not_true_iff_false in Hnew. apply Hnew, existsb_exists. exists i.
  split; [by apply list_elem_of_In|]. unfold slot in Hx. cbn in Hx. injection Hx as Hp Hr Ho.
  unfold same_slot. rewrite Hp, Hr, Ho, !String.eqb_refl, Z.eqb_refl. done.
Qed.

Lemma NoDup_fmap_filter {A B} (f : A → B) (g : A → bool) l :
  NoDup (f <$> l) → NoDup (f <$> List.filter g l).
Proof.
  induction l as [|x l IH]; cbn; [done|]. intros [Hx Hnd]%NoDup_cons.
  destruct (g x); [|by apply IH]. cbn. apply NoDup_cons. split; [|by apply IH].
  intros (y & Hy & Hin)%list_elem_of_fmap. apply Hx. apply list_elem_of_fmap. exists y.
  split; [done|]. apply list_elem_of_In in Hin. apply filter_In in Hin as [Hin _].
  by apply list_elem_of_In.
Qed.

Lemma keeps_replace_inventory ps : keeps (grown s0 pid) (replace_inventory pid ps).
Proof.
  intros s (Hev & Hin & He). apply swp_bind, swp_update_store, keeps_insert_inventory.
  split; [|by split]. apply sevolves_inventory; [done|]. apply NoDup_fmap_filter, Hev.
Qed.

Lemma keeps_invalidate :
  keeps (grown s0 pid) (update_store (λ s, with_evidence
    ((λ e, if (Evidence.plan_id e =? pid)%string then invalidate e else e) <$> evidence s) s)).
Proof.
  intros s (Hev & Hin & He). apply swp_update_store. split; [|by split].
  by apply (sevolves_invalidate s0 s (λ e, (Evidence.plan_id e =? pid)%string)).
Qed.

Lemma keeps_insert_evidence e :
  Evidence.manager_epoch e = ep → keeps (grown s0 pid) (insert_evidence e).
Proof.
  intros He s (Hev & Hin & Hep). apply swp_bind, swp_get_store, swp_bind, swp_raise_if; [done|].
  intros Hnew. apply swp_update_store. split; [|by split].
  apply sevolves_insert_evidence; [done| |congruence].
  intros (e' & Heq & Hin')%list_elem_of_fmap. apply not_true_iff_false in Hnew.
  apply Hnew, existsb_exists. exists e'. split; [by apply list_elem_of_In|].
  by apply String.eqb_eq.
Qed.
End Grown.

Lemma keeps_bind_value {A B} P (φ : A → Prop) (m : C A) (f : A → C B) :
  (∀ s, P s → swp ep m (λ a s', P s' ∧ φ a) (λ _, P) s) → (∀ a, φ a → keeps P (f a)) →
  keeps P (m ≫= f).
Proof.
  intros Hm Hf s Hs. apply swp_bind. eapply swp_mono; [by apply Hm| |done].
  intros a s' [Hs' Ha]. by apply Hf.
Qed.

Definition rollback_end (st : State.t) : bool :=
  bool_decide (st ∈ [State.ROLLED_BACK; State.FAILED_SAFE; State.SAFETY_UNKNOWN]).

Lemma swp_recovered_target p g detail (P : Store → Prop) s :
  P s → swp ep (recovered_target gate_clock p g detail : C State.t)
    (λ t s', P s' ∧ rollback_end t = true) (λ _, P) s.
Proof.
  intros Hs. unfold recovered_target. swp_steps; try done; (split; [done|]); try done.
  unfold class_state. destruct (classification a); reflexivity.
Qed.

Lemma keeps_with_epoch {A} P (f : Z → C A) :
  keeps P (f ep) → keeps P (gets manager_epoch ≫= f).
Proof. intros Hf s Hs. apply swp_bind, swp_epoch. by apply Hf. Qed.

Ltac keeps_step :=
  match goal with
  | |- keeps _ (mret _) => apply keeps_ret
  | |- keeps _ (raise _) => apply keeps_raise
  | |- keeps _ (gets manager_epoch ≫= _) => apply keeps_with_epoch
  | |- keeps _ (_ ≫= _) => apply keeps_bind; [|intros ?]
  | |- keeps _ (raise_if _ _) => apply keeps_raise_if
  | |- keeps _ (when _ _) => apply keeps_when
  | |- keeps _ (lift_result _) => apply keeps_lift
  | |- keeps _ (try_else _ _ _) => apply keeps_try_else; [|intros ?|intros ?]
  | |- keeps _ (catch _ _) => apply keeps_catch; [|intros ?]
  | |- keeps _ (zoom _) => apply keeps_env
  | |- keeps _ (on_gate _) => apply keeps_on_gate
  | |- keeps _ (hit _) => apply keeps_hit
  | |- keeps _ (_now _) => apply keeps_now
  | |- keeps _ has_gate => apply keeps_has_gate
  | |- keeps _ (gets (λ w, verifier_signed _)) => apply keeps_signed
  | |- keeps _ get_store => apply keeps_get_store
  | |- keeps _ (in_transaction _) => apply keeps_transaction
  | |- keeps _ (_row _) => apply keeps_row
  | |- keeps _ (stored_plan _) => apply keeps_stored_plan
  | |- keeps _ (_journal _ _ _ _ _) => apply keeps_journal; reflexivity
  | |- keeps _ (_transition _ _ ?t) => apply keeps_transition; try discriminate
  | |- keeps _ (insert_outcome _ _ _ _) => apply keeps_outcome
  | |- keeps _ (replace_inventory _ _) => apply keeps_replace_inventory
  | |- keeps _ (update_store (update_activation _ (act_launch _))) => apply keeps_launch_update
  | |- keeps _ (update_store (λ s, with_evidence _ _)) => apply keeps_invalidate
  | |- keeps _ (insert_evidence _) => apply keeps_insert_evidence; reflexivity
  | |- keeps _ (if ?b then _ else _) => destruct b
  | |- keeps _ (match ?x with _ => _ end) => destruct x
  end.

Ltac keeps_steps := repeat (keeps_step; cbn beta iota).

Section Calls.
Context (s0 : Store) (pid : string).

Lemma keeps_prepare : keeps (grown s0 pid) (prepare clock gate_clock pid).
Proof. unfold prepare. keeps_steps. Qed.

Lemma keeps_launch l : keeps (grown s0 pid) (launch clock pid l).
Proof. unfold launch. keeps_steps. Qed.

Lemma keeps_observe item now : keeps (grown s0 pid) (observe clock pid item now).
Proof. unfold observe. keeps_steps. Qed.

Lemma keeps_refresh ps : keeps (grown s0 pid) (refresh_inventory clock pid ps).
Proof. unfold refresh_inventory. keeps_steps. Qed.

Lemma keeps_rollback reason : keeps (grown s0 pid) (rollback clock gate_clock pid reason).
Proof.
  unfold rollback, rollback_with_gate, rollback_gate, rollback_plain. keeps_steps.
  all: try (by destruct host_error). all: by unfold rollback_state; repeat case_match.
Qed.

Lemma keeps_lease_lost : keeps (grown s0 pid) (external_lease_lost clock gate_clock pid).
Proof. unfold external_lease_lost. keeps_steps. apply keeps_rollback. Qed.

Lemma keeps_recover : keeps (grown s0 pid) (recover clock gate_clock pid).
Proof.
  unfold recover, recover_rollback, recover_commit, recover_other.
  repeat (first [ eapply (keeps_bind_value _ (λ t, rollback_end t = true));
      [intros ? ?; by apply swp_recovered_target|intros ? ?] | keeps_step ]; cbn beta iota).
  all: by intros ->.
Qed.

Lemma keeps_resume : keeps (grown s0 pid) (resume_observing clock pid).
Proof. unfold resume_observing. keeps_steps. Qed.

(** The compare-and-swap of [commit_intent]. *)
Lemma swp_commit_intent row p expected (Q : unit → Store → Prop) (S : exn → Store → Prop) s :
  grown s0 pid s → find (is_plan pid) (activation s) = Some row →
  _plan_from_json (Activation.plan_json row) = Ok p →
  (∀ s', grown s0 pid s' → generation s = expected → pred_generation (predecessor p) = expected →
    generation s' = (expected + 1)%Z → State.COMMIT_READY ∈ transitions (Activation.state row) →
    Q tt s') →
  (∀ e, S e s) →
  swp ep (commit_intent clock pid p expected : C unit) Q S s.
Proof.
  intros (Hev & Hin & He) Hrow Hp HQ HS. unfold commit_intent.
  apply swp_transaction, swp_bind, swp_transition; [|done]. intros row' now Hrow' Hall.
  assert (row' = row) as -> by congruence.
  apply swp_bind, swp_journal. intros now2. apply swp_bind, swp_get_store. cbv zeta.
  assert (Hfinal : generation s = expected → pred_generation (predecessor p) = expected →
    grown s0 pid (with_generation (generation s + 1) (journaled (transitioned s pid
      (Activation.state row) State.COMMIT_READY now) pid "wal" "commit"
      (JObj [("from", JInt expected)]) now2))).
  { intros Hg Hpred.
    set (u := with_generation (generation s + 1)
      (update_activation pid (act_state State.COMMIT_READY) s)).
    assert (Hu : sevolves s0 u).
    { apply (sevolves_update s0 s pid row); [done|done|lia|done| |].
      - split_and!; try done. by apply rtc_once.
      - intros (q & Hj & ? & ? & ? & _). exists q. split_and!; try done. intros _.
        rewrite Hj, Plan_of_to_json in Hp. injection Hp as ->. lia. }
    assert (Hinu : pid ∈ plan_ids u).
    { unfold u, plan_ids. cbn.
      pose proof (plan_ids_update s pid (act_state State.COMMIT_READY) (λ _, eq_refl)) as Hids.
      unfold plan_ids in Hids. cbn in Hids. by rewrite Hids. }
    split; [|by split].
    assert (Hu1 : sevolves s0 (journaled u pid "transition" (State.value State.COMMIT_READY)
      (JObj [("from", JStr (State.value (Activation.state row)))]) now)).
    { eapply sevolves_step; [exact Hu| |apply store_le_journaled].
      apply store_ok_journaled; [apply Hu|done|done]. }
    change (sevolves s0 (journaled (journaled u pid "transition"
      (State.value State.COMMIT_READY)
      (JObj [("from", JStr (State.value (Activation.state row)))]) now) pid "wal" "commit"
      (JObj [("from", JInt expected)]) now2)).
    eapply sevolves_step; [exact Hu1| |apply store_le_journaled].
    apply store_ok_journaled; [apply Hu1|done|]. cbn [String.eqb Ascii.eqb Bool.eqb andb].
    exists expected. split; [done|]. unfold u. cbn [generation with_generation journaled
      with_journal update_activation with_activation journal]. split; [lia|].
    rewrite commit_froms_snoc. cbn. rewrite app_nil_r. intros Hc.
    destruct (so_commits_below _ (proj1 Hev) _ Hc) as (z & [= ->] & Hz). lia. }
  apply swp_bind, swp_when; intros Hch; cbn in Hch.
  - apply swp_update_store, swp_raise_if; [done|]. intros Hb. cbn in Hb.
    rewrite Hch in Hb. cbn in Hb. reflect. apply HQ; [by apply Hfinal|done|done| |done].
    cbn. congruence.
  - apply swp_raise_if; [done|]. cbn. rewrite Hch. done.
Qed.

Lemma keeps_commit_effect p expected : keeps (grown s0 pid) (commit_effect gate_clock p expected).
Proof. unfold commit_effect, _open_proof. keeps_steps. Qed.

Lemma swp_commit expected s :
  grown s0 pid s →
  swp ep (commit clock gate_clock pid expected : C Z) (λ _, grown s0 pid) (λ _, grown s0 pid) s.
Proof.
  intros Hs. unfold commit. apply swp_bind, swp_stored_plan; [|done]. intros row p Hrow Hp.
  apply swp_bind, swp_env; [|done]. intros leased. apply swp_bind, swp_when; intros _.
  { apply swp_bind. eapply swp_mono; [by apply keeps_lease_lost| |done].
    intros ? s' Hs'. by apply swp_raise. }
  apply swp_bind, swp_now. intros now. unfold _evidence_complete.
  apply swp_bind, swp_bind, swp_get_store, swp_bind, swp_epoch, swp_ret.
  apply swp_bind, swp_raise_if; [done|]. intros _.
  apply swp_bind, (swp_commit_intent row); [done..| |done]. intros s1 Hs1 _ _ _ _.
  match goal with |- swp _ ?m _ _ _ => assert (Hk : keeps (grown s0 pid) m) end.
  { keeps_steps. apply keeps_commit_effect. }
  by apply Hk.
Qed.
End Calls.

(** *** [plan] *)

Lemma sevolves_new_plan s0 s p now :
  sevolves s0 s → plan_id p ∉ plan_ids s → has_obligations p = true →
  sevolves s0 (with_activation (activation s ++ [Activation.mk (plan_id p) (to_json p)
    State.PLANNED None (to_json (predecessor p)) now]) s).
Proof.
  intros Hev Hnew Ho. pose proof Hev as [[? ? ? ? ? Hj ? ? ?] _].
  apply (sevolves_step s0 s); [done| |].
  - split; cbn; auto.
    + unfold plan_ids in *. cbn. rewrite fmap_app. apply NoDup_app. split; [done|].
      split; [|apply NoDup_singleton]. by intros x Hx ->%list_elem_of_singleton.
    + apply Forall_app. split; [done|]. constructor; [|done]. by exists p.
    + intros j Hin. destruct (Hj j Hin) as [? ?]. split; [|done].
      unfold plan_ids. cbn. rewrite fmap_app. apply elem_of_app. by left.
  - split; cbn; try done; [|eexists _, []; rewrite app_nil_r; by split].
    by eexists _, _.
Qed.

Lemma filter_all {A} (f : A → bool) l : (∀ x, x ∈ l → f x = true) → List.filter f l = l.
Proof.
  induction l as [|x l IH]; intros Hf; cbn; [done|].
  rewrite Hf by left. f_equal. apply IH. intros y Hy. apply Hf. by right.
Qed.

(** A plan whose staging failed leaves no trace but a used sequence number. *)
Lemma delete_new_plan s p now now2 :
  store_ok s → plan_id p ∉ plan_ids s →
  delete_plan (plan_id p) (journaled (with_activation (activation s ++
    [Activation.mk (plan_id p) (to_json p) State.PLANNED None (to_json (predecessor p)) now]) s)
    (plan_id p) "transition" "plan" (JObj [("state", JStr "Planned")]) now2)
  = with_journal (journal s) (journal_seq s + 1) s.
Proof.
  intros Hok Hnew. unfold delete_plan, with_activation, with_journal, journaled. cbn.
  f_equal.
  - rewrite List.filter_app. cbn. unfold is_plan. cbn. rewrite String.eqb_refl. cbn.
    rewrite app_nil_r. apply filter_all. intros a Ha. apply negb_true_iff, String.eqb_neq.
    intros Heq. apply Hnew. rewrite <-Heq. by apply list_elem_of_fmap_2.
  - rewrite List.filter_app. cbn. rewrite String.eqb_refl. cbn. rewrite app_nil_r.
    apply filter_all. intros j Hj. apply negb_true_iff, String.eqb_neq. intros Heq.
    apply Hnew. rewrite <-Heq. by apply (so_journal _ Hok).
Qed.

Lemma sevolves_skip_seq s0 s :
  sevolves s0 s → sevolves s0 (with_journal (journal s) (journal_seq s + 1) s).
Proof.
  intros Hev. pose proof Hev as [[? ? ? ? ? Hj ? ? ?] _]. apply (sevolves_step s0 s); [done| |].
  - split; cbn [with_journal journal journal_seq plan_ids activation generation evidence
      inventory meta_epoch]; auto.
    intros j Hin. destruct (Hj j Hin). split; [done|lia].
  - split; cbn; try done; eexists _, []; rewrite app_nil_r; by split.
Qed.

Definition sane (s0 s : Store) : Prop := sevolves s0 s ∧ meta_epoch s = ep.

Lemma swp_plan s0 p s :
  sane s0 s → swp ep (plan clock gate_clock p : C string) (λ _, sane s0) (λ _, sane s0) s.
Proof.
  intros Hs. pose proof Hs as [Hev He]. unfold plan. apply swp_bind, swp_raise_if; [done|].
  intros Ho. reflect. apply swp_bind, swp_transaction, swp_bind, swp_now. intros now.
  apply swp_bind, swp_bind, swp_get_store, swp_bind, swp_raise_if; [done|]. cbn. intros Hnew.
  assert (Hnotin : plan_id p ∉ plan_ids s).
  { intros (a & Ha & Hin)%list_elem_of_fmap. apply not_true_iff_false in Hnew.
    apply Hnew, existsb_exists. exists a. split; [by apply list_elem_of_In|].
    by apply String.eqb_eq. }
  apply swp_update_store, swp_journal. intros now2.
  match goal with |- swp _ _ _ _ ?x => set (s1 := x) end.
  assert (Hs1 : sane s0 s1).
  { split; [|done]. pose proof (sevolves_new_plan s0 s p now Hev Hnotin Ho) as Hev1.
    eapply sevolves_step; [exact Hev1| |apply store_le_journaled].
    apply store_ok_journaled; [apply Hev1| |done].
    unfold plan_ids. cbn. rewrite fmap_app. apply elem_of_app. right.
    by apply list_elem_of_singleton. }
  apply swp_bind, swp_has_gate. intros [|]; apply swp_bind.
  - apply swp_try_else, swp_on_gate; [intros ?; by apply swp_ret, swp_ret|]. intros e.
    apply swp_bind, swp_transaction, swp_update_store, swp_raise.
    unfold s1. rewrite delete_new_plan by (done || apply Hev).
    split; [by apply sevolves_skip_seq|done].
  - apply swp_env; [intros ?; by apply swp_ret|done].
Qed.
End Invariant.

(** ** Reachable stores *)

Variant coordinator_call :=
  | KPlan (p : Plan)
  | KPrepare (pid : string)
  | KLaunch (pid launch_id : string)
  | KObserve (pid : string) (item : Attestation) (now : option Z)
  | KRefresh (pid : string) (ps : list ProcessIdentity)
  | KCommit (pid : string) (expected : Z)
  | KRecover (pid : string)
  | KResume (pid : string)
  | KRollback (pid reason : string)
  | KLeaseLost (pid : string).

Section Reachable.
Context `{Sha256} {E T : Type} `{!Adapters E} `{!TrafficAuthorityAdapter T}.
Context (clock gate_clock : nat → Z).
#[local] Abbreviation C := (M (CWorld E T)).

Definition cexec (c : coordinator_call) : C unit :=
  match c with
  | KPlan p => plan clock gate_clock p;; mret tt
  | KPrepare pid => prepare clock gate_clock pid
  | KLaunch pid l => launch clock pid l
  | KObserve pid item now => observe clock pid item now
  | KRefresh pid ps => refresh_inventory clock pid ps
  | KCommit pid g => commit clock gate_clock pid g;; mret tt
  | KRecover pid => recover clock gate_clock pid;; mret tt
  | KResume pid => resume_observing clock pid
  | KRollback pid reason => rollback clock gate_clock pid reason;; mret tt
  | KLeaseLost pid => external_lease_lost clock gate_clock pid;; mret tt
  end.

(** What may happen to a coordinator: a call, which may return, raise or crash; any change of
    the adapters, the gate, the faults and the clock; a restart on the same database. *)
Inductive cnext (w : CWorld E T) : CWorld E T → Prop :=
  | cn_call c : cnext w (cexec c w).2
  | cn_world w' : store w' = store w → manager_epoch w' = manager_epoch w → cnext w w'
  | cn_boot faults e gate : cnext w (new_coordinator (store w) faults e gate).

Inductive creachable : CWorld E T → Prop :=
  | cr_new faults e gate : creachable (new_coordinator new_store faults e gate)
  | cr_next w w' : creachable w → cnext w w' → creachable w'.

Lemma has_plan_dec pid s :
  pid ∈ plan_ids s ∨ find (is_plan pid) (activation s) = None.
Proof.
  destruct (find (is_plan pid) (activation s)) eqn:Hf; [left; by eapply find_plan_id|by right].
Qed.

(** A call on a plan that is not there raises before it writes. *)
Lemma swp_absent ep {A} pid (f : Activation.t → C A) Q (S : exn → Store → Prop) s :
  find (is_plan pid) (activation s) = None → (∀ e, S e s) → swp ep (_row pid ≫= f) Q S s.
Proof. intros Hf HS. apply swp_bind, swp_row; [congruence|auto]. Qed.

Lemma swp_absent_plan ep {A} pid (f : Plan → C A) Q (S : exn → Store → Prop) s :
  find (is_plan pid) (activation s) = None → (∀ e, S e s) → swp ep (stored_plan pid ≫= f) Q S s.
Proof. intros Hf HS. apply swp_bind, swp_stored_plan; [congruence|auto]. Qed.

Lemma grown_sane ep s0 pid s : grown ep s0 pid s → sane ep s0 s.
Proof. intros (? & ? & ?). by split. Qed.

Lemma keeps_sane ep s0 pid {A} (m : C A) s :
  sane ep s0 s → keeps ep (grown ep s0 pid) m → (find (is_plan pid) (activation s) = None →
    swp ep m (λ _, sane ep s0) (λ _, sane ep s0) s) →
  swp ep m (λ _, sane ep s0) (λ _, sane ep s0) s.
Proof.
  intros Hs Hm Hno. destruct (has_plan_dec pid s) as [Hin|Hf]; [|by apply Hno].
  eapply swp_mono; [apply Hm|intros ? ?; apply grown_sane..]. destruct Hs. by split.
Qed.

Lemma swp_unit ep {A} (m : C A) P s :
  swp ep m (λ _, P) (λ _, P) s → swp ep (m;; mret tt) (λ _, P) (λ _, P) s.
Proof.
  intros Hm. apply swp_bind. eapply swp_mono; [exact Hm| |done].
  intros ? ? Hp. by apply swp_ret.
Qed.

Lemma cexec_sane ep c s0 s :
  sane ep s0 s → swp ep (cexec c) (λ _, sane ep s0) (λ _, sane ep s0) s.
Proof.
  intros Hs. destruct c; cbn [cexec]; try apply swp_unit.
  - by apply swp_plan.
  - apply (keeps_sane _ _ pid); [done|apply keeps_prepare|].
    intros Hf. by apply swp_absent_plan.
  - apply (keeps_sane _ _ pid); [done|apply keeps_launch|].
    intros Hf. by apply swp_absent_plan.
  - apply (keeps_sane _ _ pid); [done|apply keeps_observe|].
    intros Hf. by apply swp_absent.
  - apply (keeps_sane _ _ pid); [done|apply keeps_refresh|].
    intros Hf. by apply swp_absent.
  - apply (keeps_sane _ _ pid); [done|intros ? ?; by apply swp_commit|].
    intros Hf. by apply swp_absent_plan.
  - apply (keeps_sane _ _ pid); [done|apply keeps_recover|].
    intros Hf. by apply swp_absent.
  - apply (keeps_sane _ _ pid); [done|apply keeps_resume|].
    intros Hf. apply swp_transaction. by apply swp_absent.
  - apply (keeps_sane _ _ pid); [done|apply keeps_rollback|].
    intros Hf. by apply swp_absent_plan.
  - apply (keeps_sane _ _ pid); [done|apply keeps_lease_lost|].
    intros Hf. by apply swp_absent_plan.
Qed.

Lemma store_ok_new : store_ok new_store.
Proof.
  split; unfold plan_ids; cbn; try (by constructor);
    try (intros ? Hin; by apply elem_of_nil in Hin).
Qed.

Lemma store_ok_boot s : store_ok s → store_ok (boot s).
Proof.
  intros []. split; cbn; auto.
  - rewrite <-list_fmap_compose, (list_fmap_ext _ Evidence.nonce); done.
  - intros e (e' & -> & _)%list_elem_of_fmap. done.
Qed.

Definition cworld_ok (w : CWorld E T) : Prop :=
  store_ok (store w) ∧ meta_epoch (store w) = manager_epoch w.

Lemma cexec_step c w :
  cworld_ok w → sane (manager_epoch w) (store w) (store (cexec c w).2)
    ∧ manager_epoch (cexec c w).2 = manager_epoch w.
Proof.
  intros [Hok He]. assert (Hs : sane (manager_epoch w) (store w) (store w)) by by split.
  pose proof (cexec_sane (manager_epoch w) c (store w) (store w) Hs w eq_refl eq_refl) as Hw.
  unfold wp in Hw. destruct (cexec c w) as [[[]|e] w']; by destruct Hw.
Qed.

Lemma cnext_ok w w' : cworld_ok w → cnext w w' → cworld_ok w'.
Proof.
  intros Hok [c|w2 Hst Hep|f e g].
  - destruct (cexec_step c w Hok) as [[[? _] ?] Hep]. split; [done|congruence].
  - destruct Hok. split; congruence.
  - split; [apply store_ok_boot, Hok|done].
Qed.

Lemma creachable_ok w : creachable w → cworld_ok w.
Proof.
  induction 1 as [f e g|w w' _ IH Hn]; [|by eapply cnext_ok].
  split; [apply store_ok_boot, store_ok_new|done].
Qed.

(** C13. The coordinator's database is always well formed: after any calls, errors, injected
    faults, restarts and adapter behaviour, every activation stores the plan it is named
    after, is past the compare-and-swap only when the generation has left the plan's
    predecessor, nonces and inventory slots are unique, evidence is valid only in the current
    manager epoch, the journal is ordered and names stored plans only, and no two commit
    intents started from the same generation. *)
Theorem coordinator_store_ok w : creachable w → store_ok (store w).
Proof. intros Hok%creachable_ok. apply Hok. Qed.

(** Activations only move along TRANSITIONS: every call, however it ends, keeps the
    stored plans, moves states along zero or more legal transitions, keeps the journal and
    the rollback outcomes, never makes evidence valid again and never decreases the
    generation. *)
Theorem coordinator_history w c :
  creachable w → store_le (store w) (store (cexec c w).2).
Proof. intros Hok%creachable_ok. by destruct (cexec_step c w Hok) as [[[_ ?] _] _]. Qed.

(** *** Commit *)

(** Complete evidence: for every required process of every obligation, the launched process
    of the inventory and a current attestation of the event from its very epoch. *)
Definition covered (s : Store) (p : Plan) (ep now : Z) : Prop :=
  obligations p ≠ [] ∧ ∀ o, o ∈ obligations p → required_ordinals o ≠ [] ∧
  ∀ n, n ∈ required_ordinals o → ∃ i e, i ∈ inventory s ∧ e ∈ evidence s
    ∧ (Inventory.plan_id i = plan_id p ∧ role (Inventory.process i) = ob_role o
       ∧ ordinal (Inventory.process i) = n)
    ∧ (Evidence.plan_id e = plan_id p ∧ Evidence.valid e = true
       ∧ Evidence.manager_epoch e = ep ∧ (now ≤ Evidence.expires_at e)%Z)
    ∧ (Evidence.role e = ob_role o ∧ Evidence.ordinal e = n
       ∧ Evidence.epoch e = EcpaModel.epoch (Inventory.process i)
       ∧ Evidence.obligation_id e = obligation_id o ∧ Evidence.event e = event o).

Lemma evidence_complete_covered s p ep now :
  evidence_complete s p ep now = true → covered s p ep now.
Proof.
  unfold evidence_complete, has_obligations. intros Hb. apply andb_true_iff in Hb as [Ho Hall].
  apply andb_true_iff in Ho as [Hne Hreq]. reflect. split; [done|]. intros o Hin.
  rewrite forallb_forall in Hall, Hreq. apply list_elem_of_In in Hin.
  specialize (Hall o Hin). specialize (Hreq o Hin). reflect. split; [done|]. intros n Hn.
  rewrite forallb_forall in Hall. apply list_elem_of_In in Hn. specialize (Hall n Hn).
  unfold process_epoch in Hall. destruct (find_last _ (inventory s)) as [i|] eqn:Hi; [|done].
  apply find_last_Some in Hi as [Hi Hib]. cbn in Hall.
  apply existsb_exists in Hall as (e & He & Heb). unfold current_evidence in He.
  apply filter_In in He as [He Hec]. unfold evidence_for in Heb. reflect.
  exists i, e. split_and!; try done. by apply list_elem_of_In.
Qed.

Lemma to_commit_ready st : State.COMMIT_READY ∈ transitions st → st = State.OBSERVING.
Proof.
  destruct st; cbn; intros Hall; try done; exfalso;
    repeat (apply elem_of_cons in Hall as [?|Hall]; [discriminate|]); by apply elem_of_nil in Hall.
Qed.

(** A commit of [pid] from [s] to [s'] that was decided at the time [now]. *)
Definition committed (s s' : Store) (ep now : Z) (pid : string) (expected g : Z) : Prop :=
  ∃ row p row', find (is_plan pid) (activation s) = Some row
    ∧ Activation.plan_json row = to_json p
    ∧ Activation.state row = State.OBSERVING
    ∧ generation s = expected ∧ pred_generation (predecessor p) = expected
    ∧ covered s p ep now
    ∧ g = (expected + 1)%Z ∧ generation s' = g
    ∧ find (is_plan pid) (activation s') = Some row' ∧ Activation.state row' = State.EFFECTIVE.

Lemma find_transitioned s pid row current target now :
  find (is_plan pid) (activation s) = Some row →
  find (is_plan pid) (activation (transitioned s pid current target now))
    = Some (act_state target row).
Proof.
  cbn. induction (activation s) as [|a l IH]; cbn; [done|].
  destruct (is_plan pid a) eqn:Hp; cbn.
  - intros [= ->]. unfold is_plan in *. cbn. by rewrite Hp.
  - rewrite Hp. exact IH.
Qed.

(** [commit] once the lease is found valid and the time is read. *)
Definition commit_at (pid : string) (expected : Z) (p : Plan) (now : Z) : C Z :=
  complete ← _evidence_complete p now;
  raise_if (negb complete) (ContractError MISSING_PROCESS_EVIDENCE pid);;
  commit_intent clock pid p expected;;
  hit "commit.after_wal";;
  commit_effect gate_clock p expected;;
  hit "commit.after_side_effect";;
  in_transaction (
    s ← get_store;
    _journal clock pid "receipt" "commit" (JObj [("generation", JInt (generation s))]);;
    _transition clock pid State.EFFECTIVE;;
    mret (generation s)).

Lemma commit_unfold pid expected :
  commit clock gate_clock pid expected =
  (p ← stored_plan pid;
   leased ← zoom (external_lease_valid (E := E) p);
   when (negb leased)
     (external_lease_lost clock gate_clock pid;; raise (ContractError EXTERNAL_LEASE_INVALID pid));;
   now ← _now clock;
   commit_at pid expected p now : C Z).
Proof. done. Qed.

Lemma swp_commit_at ep pid expected s row p now :
  store_ok s → meta_epoch s = ep → find (is_plan pid) (activation s) = Some row →
  Activation.plan_json row = to_json p → plan_id p = pid →
  swp ep (commit_at pid expected p now)
    (λ g s', committed s s' ep now pid expected g) (λ _ _, True) s.
Proof.
  intros Hok He Hrow Hj Hid. destruct (find_plan_elem _ _ _ Hrow) as [Hin Hpid].
  unfold commit_at, _evidence_complete.
  apply swp_bind, swp_bind, swp_get_store, swp_bind, swp_epoch, swp_ret.
  apply swp_bind, swp_raise_if; [done|]. intros Hc. reflect.
  assert (Hs : grown ep s pid s) by (split; [by split|split; [by eapply find_plan_id|done]]).
  apply swp_bind, (swp_commit_intent clock ep s pid row p); [done..|by rewrite Hj, Plan_of_to_json| |done].
  intros s1 Hs1 Hg Hpred Hg1 Hall. apply swp_bind, swp_hit; [|done]. apply swp_bind.
  assert (Heff : swp ep (commit_effect gate_clock p expected : C unit) (λ _ s', s' = s1)
    (λ _ _, True) s1).
  { unfold commit_effect, _open_proof. swp_steps; done. }
  eapply swp_mono; [exact Heff| |done]. intros _ s2 ->. apply swp_bind, swp_hit; [|done].
  apply swp_transaction, swp_bind, swp_get_store, swp_bind, swp_journal. intros n1.
  apply swp_bind, swp_transition; [|done]. intros row1 n2 Hrow1 Hall1. apply swp_ret.
  exists row, p, (act_state State.EFFECTIVE row1). split_and!; try done.
  - by apply to_commit_ready.
  - by apply evidence_complete_covered.
  - by apply find_transitioned.
Qed.

Lemma stored_plan_run pid w p w' :
  (stored_plan pid : C Plan) w = (Ok p, w') →
  w' = w ∧ ∃ row, find (is_plan pid) (activation (store w)) = Some row
    ∧ _plan_from_json (Activation.plan_json row) = Ok p.
Proof.
  unfold stored_plan, _row, get_store. cbn.
  unfold mbind, M_bind, gets, mret, M_ret, raise. cbn.
  destruct (find (is_plan pid) (activation (store w))) as [row|] eqn:Er; [|done].
  cbn. unfold lift_result. destruct (_plan_from_json _) as [q|e] eqn:Ep; cbn; [|done].
  intros [= -> <-]. split; [done|]. by exists row.
Qed.

(** The decision is at the time that the clock tells when [commit] is called: finding the plan
    and asking for the external lease do not read it. *)
Lemma commit_committed w pid expected g w' :
  creachable w → commit clock gate_clock pid expected w = (Ok g, w') →
  committed (store w) (store w') (manager_epoch w) (clock (cticks w)) pid expected g.
Proof.
  intros [Hok He]%creachable_ok. rewrite commit_unfold. intros Hrun.
  assert (wp (p ← stored_plan pid;
   leased ← zoom (external_lease_valid (E := E) p);
   when (negb leased)
     (external_lease_lost clock gate_clock pid;; raise (ContractError EXTERNAL_LEASE_INVALID pid));;
   now ← _now clock;
   commit_at pid expected p now : C Z)
    (λ g v, committed (store w) (store v) (manager_epoch w) (clock (cticks w)) pid expected g)
    (λ _ _, True) w) as Hw; [|unfold wp in Hw; by rewrite Hrun in Hw].
  clear Hrun g w'. apply wp_bind. unfold wp at 1.
  destruct (stored_plan pid w) as [[p|e] w1] eqn:Es; [|done].
  apply stored_plan_run in Es as [-> (row & Hrow & Hp)].
  destruct (find_plan_elem _ _ _ Hrow) as [Hin Hpid].
  pose proof (so_rows _ Hok) as Hrows. rewrite Forall_forall in Hrows.
  destruct (Hrows row Hin) as (p' & Hj & Hid & _). rewrite Hj, Plan_of_to_json in Hp.
  injection Hp as ->. apply wp_bind, wp_zoom. unfold wp at 1.
  destruct (external_lease_valid p (lget w)) as [[leased|e] t]; [|done].
  apply wp_bind, wp_when; intros Hl.
  { apply wp_bind. unfold wp at 1. destruct (external_lease_lost _ _ _ _) as [[?|?] v]; [|done].
    by apply wp_raise. }
  apply wp_bind. unfold _now. wp_steps. cbn.
  eapply wp_mono; [apply (swp_commit_at (manager_epoch w) pid expected (store w) row p);
    try done; congruence|by intros ? ? [_ ?]|done].
Qed.

(** C12. Commit is earned: [commit] returns only for an activation that was OBSERVING, whose
    plan names the stored generation as its predecessor, and for which every required process
    of every obligation has, in the current inventory, a current attestation of the event from
    its own epoch in this manager epoch, which has not expired at the time the clock tells when
    [commit] is called.  The generation then moved by exactly
    one and the activation is EFFECTIVE. *)
Theorem commit_postcondition w pid expected g w' :
  creachable w → commit clock gate_clock pid expected w = (Ok g, w') →
  committed (store w) (store w') (manager_epoch w) (clock (cticks w)) pid expected g.
Proof. apply commit_committed. Qed.

(** A restarted manager trusts nothing it did not see: after opening a coordinator on
    any database, whatever it holds, no plan can be committed before new evidence arrives. *)
Theorem restart_requires_fresh_evidence w faults e gate pid expected :
  creachable w →
  ∀ g, (commit clock gate_clock pid expected
          (new_coordinator (store w) faults e gate : CWorld E T)).1 ≠ Ok g.
Proof.
  intros Hw g Hrun.
  destruct (commit clock gate_clock pid expected (new_coordinator (store w) faults e gate))
    as [r w'] eqn:Hc. cbn in Hrun. subst r.
  apply commit_committed in Hc; [|eapply cr_next; [exact Hw|apply cn_boot]].
  destruct Hc as (row & p & row' & _ & _ & _ & _ & _ & [Hne Hcov] & _).
  destruct (obligations p) as [|o os] eqn:Ho; [done|].
  destruct (Hcov o) as [Hreq Hn]; [left|].
  destruct (required_ordinals o) as [|n ns]; [done|].
  destruct (Hn n) as (i & ev & _ & Hin & _ & (_ & Hval & _) & _); [left|].
  apply list_elem_of_fmap in Hin as (ev' & -> & _). done.
Qed.

(** Everything that can happen later. *)
Definition clater : CWorld E T → CWorld E T → Prop := rtc cnext.

Lemma creachable_later w w' : creachable w → clater w w' → creachable w'.
Proof. intros Hw Hl. induction Hl as [|x y z Hn _ IH]; [done|]. apply IH. by eapply cr_next. Qed.

(** A stored plan stays stored, and a left generation stays left. *)
Definition stale (pid : string) (p : Plan) (s : Store) : Prop :=
  (∃ row, row ∈ activation s ∧ Activation.plan_id row = pid ∧ Activation.plan_json row = to_json p)
  ∧ (pred_generation (predecessor p) < generation s)%Z.

Lemma stale_next pid p w w' :
  cworld_ok w → cnext w w' → stale pid p (store w) → stale pid p (store w').
Proof.
  intros Hok Hn [(row & Hin & Hid & Hj) Hlt]. destruct Hn as [c|w2 Hst _|f e g].
  - destruct (cexec_step c w Hok) as [[[_ Hle] _] _]. split; [|pose proof (sle_generation _ _ Hle); lia].
    destruct (sle_activation _ _ Hle) as (old & new & -> & HF).
    apply list_elem_of_lookup_1 in Hin as [i Hi].
    destruct (Forall2_lookup_l _ _ _ _ _ HF Hi) as (row' & Hi' & Hp & Hpj & _).
    exists row'. split; [|split; congruence]. apply elem_of_app. left.
    by eapply list_elem_of_lookup_2.
  - rewrite Hst. split; [by exists row|done].
  - split; [by exists row|done].
Qed.

(** The generation is a fence: once the stored generation has left a plan's
    predecessor generation, because another plan committed or because this plan's own commit
    was interrupted after its compare-and-swap, that plan can never be committed again, over
    any later calls, faults, recoveries and restarts. *)
Theorem stale_plan_never_commits w pid p w' expected g :
  creachable w → stale pid p (store w) → clater w w' →
  (commit clock gate_clock pid expected w').1 ≠ Ok g.
Proof.
  intros Hw Hst Hl Hrun.
  assert (Hst' : stale pid p (store w') ∧ creachable w').
  { induction Hl as [|x y z Hn Hl IH]; [done|]. apply IH; [by eapply cr_next| |done].
    eapply stale_next; [by apply creachable_ok|done|done]. }
  destruct Hst' as [[(row & Hin & Hid & Hj) Hlt] Hw'].
  destruct (commit clock gate_clock pid expected w') as [r w2] eqn:Hc. cbn in Hrun. subst r.
  apply commit_committed in Hc; [|done].
  destruct Hc as (row2 & p2 & _ & Hf & Hj2 & _ & Hg & Hpred & _).
  destruct (find_plan_elem _ _ _ Hf) as [Hin2 Hid2].
  assert (row2 = row) as ->.
  { eapply key_inj_of_nodup; [apply (so_plans _ (proj1 (creachable_ok _ Hw')))|done|done|congruence]. }
  assert (p2 = p) as ->.
  { pose proof (Plan_of_to_json p) as Hr. rewrite <-Hj, Hj2, Plan_of_to_json in Hr.
    by injection Hr. }
  lia.
Qed.

(** *** Observation *)

Definition evidence_fresh (item : Attestation) (s : Store) : Prop :=
  nonce item ∉ (Evidence.nonce <$> evidence s).

(** What the coordinator requires of an attestation. *)
Definition bound (s : Store) (pid : string) (item : Attestation) : Prop :=
  ∃ row p i, find (is_plan pid) (activation s) = Some row
    ∧ observable (Activation.state row) = true
    ∧ _plan_from_json (Activation.plan_json row) = Ok p
    ∧ att_plan_id item = pid ∧ Activation.launch_id row = Some (att_launch_id item)
    ∧ artifact_id item ∈ plugin_id <$> plugins p
    ∧ i ∈ inventory s ∧ Inventory.plan_id i = pid
    ∧ role (Inventory.process i) = role (process item)
    ∧ ordinal (Inventory.process i) = ordinal (process item)
    ∧ start_id (Inventory.process i) = start_id (process item)
    ∧ EcpaModel.epoch (Inventory.process i) = EcpaModel.epoch (process item).

Lemma evidence_bound_bound s row p pid item :
  find (is_plan pid) (activation s) = Some row → observable (Activation.state row) = true →
  _plan_from_json (Activation.plan_json row) = Ok p →
  evidence_bound row p (inventory s) pid item = true → bound s pid item.
Proof.
  intros Hrow Ho Hp Hb. unfold evidence_bound in Hb.
  destruct (find (same_slot pid (process item)) (inventory s)) as [i|] eqn:Hi;
    [|by rewrite andb_false_r in Hb].
  apply find_some in Hi as [Hi Hs]. unfold same_slot in Hs. reflect.
  exists row, p, i. split_and!; try done. by apply list_elem_of_In.
Qed.

Lemma swp_observe ep pid item now s :
  swp ep (observe clock pid item now : C unit)
    (λ _ s', bound s pid item ∧ evidence_fresh item s
      ∧ evidence s' = evidence s ++ [evidence_row pid item ep]
      ∧ activation s' = activation s ∧ inventory s' = inventory s ∧ generation s' = generation s)
    (λ e s', s' = s) s.
Proof.
  unfold observe. apply swp_bind, swp_row; [|done]. intros row Hrow.
  apply swp_bind, swp_raise_if; [done|]. intros Ho. reflect.
  apply swp_bind, swp_lift; [intros p Hp|done]. apply swp_bind.
  eapply (swp_mono _ _ (λ _ s', s' = s) _ (λ _ s', s' = s)); [|intros ? s' ->|done].
  { destruct now; [by apply swp_ret|by apply swp_now]. }
  apply swp_bind, swp_env; [intros _|done]. apply swp_bind, swp_get_store.
  apply swp_bind, swp_raise_if; [done|]. intros Hb. reflect.
  apply swp_bind, swp_epoch, swp_catch, swp_transaction, swp_bind, swp_bind, swp_get_store.
  apply swp_bind, swp_raise_if; [by intros _; apply swp_raise|]. intros Hnew.
  apply swp_update_store, swp_journal. intros n.
  split; [by eapply evidence_bound_bound|]. split; [|done].
  intros (e & He & Hin)%list_elem_of_fmap. apply not_true_iff_false in Hnew.
  apply Hnew, existsb_exists. exists e. split; [by apply list_elem_of_In|].
  apply String.eqb_eq. cbn. by rewrite <-He.
Qed.

(** An attestation is recorded all or nothing: [observe] returns only when the
    activation is observing or reconciling and the attestation names its plan, launch, a
    planned artifact, and a process of the current inventory with its start identity and
    epoch, under a nonce never used before in the database; then exactly its row is added.
    Otherwise it raises and the database is unchanged. *)
Theorem observe_all_or_nothing (w : CWorld E T) pid item now :
  match observe clock pid item now w with
  | (Ok _, w') => bound (store w) pid item ∧ evidence_fresh item (store w)
      ∧ evidence (store w')
        = evidence (store w) ++ [evidence_row pid item (manager_epoch w)]
      ∧ activation (store w') = activation (store w) ∧ inventory (store w') = inventory (store w)
      ∧ generation (store w') = generation (store w)
  | (Err _, w') => store w' = store w
  end.
Proof.
  pose proof (swp_observe (manager_epoch w) pid item now (store w) w eq_refl eq_refl) as Hw.
  unfold wp in Hw. destruct (observe clock pid item now w) as [[[]|e] w'];
    destruct Hw as [_ Hw]; exact Hw.
Qed.

(** *** Rollback and recovery *)

Definition state_in (s : Store) (pid : string) : option State.t :=
  Activation.state <$> find (is_plan pid) (activation s).

Lemma state_in_transitioned s pid row current target now :
  find (is_plan pid) (activation s) = Some row →
  state_in (transitioned s pid current target now) pid = Some target.
Proof. intros Hrow. unfold state_in. by erewrite find_transitioned by done. Qed.

(** A transition that the table allows cannot fail. *)
Lemma swp_transition_ok ep pid row target (Q : unit → Store → Prop) (S : exn → Store → Prop) s :
  find (is_plan pid) (activation s) = Some row → target ∈ transitions (Activation.state row) →
  (∀ now, Q tt (transitioned s pid (Activation.state row) target now)) →
  swp ep (_transition clock pid target : C unit) Q S s.
Proof.
  intros Hrow Hall HQ. apply swp_bind, swp_row; [|congruence]. intros row' Hrow'.
  assert (row' = row) as -> by congruence.
  apply swp_bind, swp_raise_if; [intros Hb; by reflect|]. intros _.
  apply swp_bind, swp_update_store, swp_journal, HQ.
Qed.

(** How a rollback that was recorded ends. *)
Definition rolled (s s' : Store) (pid : string) (st : State.t) : Prop :=
  rollback_end st = true ∧ state_in s' pid = Some st
  ∧ ∃ o, rollback_outcome s' = rollback_outcome s ++ [o] ∧ Outcome.plan_id o = pid
      ∧ Outcome.success o = bool_decide (st = State.ROLLED_BACK).

Lemma swp_rollback_plain ep pid p out err row s :
  find (is_plan pid) (activation s) = Some row → Activation.state row = State.ROLLBACK →
  swp ep (rollback_plain clock pid p out err : C State.t)
    (λ st s', rolled s s' pid st) (λ e s', rolled s s' pid State.FAILED_SAFE) s.
Proof.
  intros Hrow Hst. unfold rollback_plain.
  assert (Hbad : ∀ e, swp ep (in_transaction (
      insert_outcome clock pid false (JObj [("error", JStr (exn_str e))]);;
      _transition clock pid State.FAILED_SAFE);;
      raise (ContractError ROLLBACK_FAILED (exn_str e)) : C State.t)
    (λ st s', rolled s s' pid st) (λ e s', rolled s s' pid State.FAILED_SAFE) s).
  { intros e. apply swp_bind, swp_transaction, swp_bind, swp_outcome. intros now.
    apply (swp_transition_ok _ _ row); [done|rewrite Hst; right; left|]. intros now2.
    apply swp_raise. split; [done|]. split; [by apply (state_in_transitioned _ _ row)|].
    by eexists. }
  apply swp_try_else. destruct err as [e|]; [by apply swp_raise, Hbad|].
  apply swp_bind, swp_raise_if; [intros _; apply Hbad|]. intros _.
  apply swp_env; [|intros e; apply Hbad]. intros _.
  apply swp_bind, swp_transaction, swp_bind, swp_outcome. intros now.
  apply swp_bind, swp_journal. intros now2.
  apply (swp_transition_ok _ _ row); [done|rewrite Hst; left|]. intros now3.
  apply swp_ret. split; [done|]. split; [by apply (state_in_transitioned _ _ row)|].
  by eexists.
Qed.

Lemma rollback_state_end e c : rollback_end (rollback_state e c) = true.
Proof. by destruct c, e. Qed.

Lemma rollback_end_transition st : rollback_end st = true → st ∈ transitions State.ROLLBACK.
Proof. unfold rollback_end. intros Hb. by reflect. Qed.

Definition interrupted (s s' : Store) (pid : string) : Prop :=
  state_in s' pid = Some State.ROLLBACK ∧ rollback_outcome s' = rollback_outcome s.

Lemma swp_rollback_with_gate ep pid p out err row s :
  find (is_plan pid) (activation s) = Some row → Activation.state row = State.ROLLBACK →
  swp ep (rollback_with_gate clock gate_clock pid p out err : C State.t)
    (λ st s', rolled s s' pid st) (λ e s', interrupted s s' pid) s.
Proof.
  intros Hrow Hst. unfold rollback_with_gate.
  assert (Hint : interrupted s s pid) by (split; [unfold state_in; rewrite Hrow; cbn; congruence|done]).
  apply swp_bind. eapply (swp_mono _ _ (λ _ s', s' = s) _ (λ _ s', s' = s)); [| |by intros ? ? ->].
  { unfold rollback_gate. swp_steps; done. }
  intros [c gate_error] ? ->. apply swp_bind, swp_hit; [|done].
  apply swp_bind, swp_transaction, swp_journal. intros now. cbv zeta.
  apply swp_bind, swp_transaction, swp_bind, swp_outcome. intros now2.
  apply (swp_transition_ok _ _ row); [done|rewrite Hst; apply rollback_end_transition, rollback_state_end|].
  intros now3. apply swp_ret. split; [apply rollback_state_end|].
  split; [by apply (state_in_transitioned _ _ row)|]. by eexists.
Qed.

Lemma swp_rollback ep pid reason s :
  swp ep (rollback clock gate_clock pid reason : C State.t)
    (λ st s', rolled s s' pid st)
    (λ _ s', s' = s ∨ rolled s s' pid State.FAILED_SAFE ∨ interrupted s s' pid) s.
Proof.
  unfold rollback. apply swp_bind, swp_stored_plan; [|auto]. intros row p Hrow Hp.
  apply swp_bind, swp_transaction, swp_bind, swp_transition; [|auto]. intros row' now Hrow' Hall.
  assert (row' = row) as -> by congruence. apply swp_journal. intros now2.
  apply swp_bind. eapply (swp_mono _ _ (λ _ s', s' = _) _ (λ _ _, False));
    [apply swp_try_else, swp_env; intros ?; by apply swp_ret|intros [out err] ? ->|done].
  apply swp_bind, swp_transaction, swp_journal. intros now3. apply swp_bind, swp_has_gate.
  match goal with |- ∀ _, swp _ _ _ _ ?x => set (s1 := x) end.
  assert (Hrow1 : find (is_plan pid) (activation s1) = Some (act_state State.ROLLBACK row)).
  { by apply find_transitioned. }
  intros [|]; (eapply swp_mono;
    [first [by eapply (swp_rollback_with_gate ep pid p out err)
           |by eapply (swp_rollback_plain ep pid p out err)]|done|auto]).
Qed.

(** A rollback is always accounted for.  When [rollback] returns, the activation is
    ROLLED_BACK, FAILED_SAFE or SAFETY_UNKNOWN as returned, and one outcome row says whether
    the predecessor was restored.  When it raises, either nothing changed, or the failure is
    recorded (FAILED_SAFE with an unsuccessful outcome), or the activation is left in ROLLBACK
    for [recover]: whatever the host, the traffic or the gate did. *)
Theorem rollback_accounted (w : CWorld E T) pid reason :
  match rollback clock gate_clock pid reason w with
  | (Ok st, w') => rolled (store w) (store w') pid st
  | (Err _, w') => store w' = store w ∨ rolled (store w) (store w') pid State.FAILED_SAFE
      ∨ interrupted (store w) (store w') pid
  end.
Proof.
  pose proof (swp_rollback (manager_epoch w) pid reason (store w) w eq_refl eq_refl) as Hw.
  unfold wp in Hw. destruct (rollback clock gate_clock pid reason w) as [[st|e] w'];
    destruct Hw as [_ Hw]; exact Hw.
Qed.

Definition in_flight (st : State.t) : bool :=
  bool_decide (st ∈ [State.PREPARING; State.LAUNCHING; State.OBSERVING; State.COMMIT_READY;
                     State.ROLLBACK]).

Lemma swp_recover ep pid s :
  swp ep (recover clock gate_clock pid : C State.t)
    (λ st s', state_in s' pid = Some st ∧ in_flight st = false) (λ _ _, True) s.
Proof.
  unfold recover. apply swp_bind, swp_row; [|done]. intros row Hrow.
  apply swp_bind, swp_lift; [intros p Hp|done]. apply swp_bind, swp_has_gate. intros gate.
  case_bool_decide as Hrb.
  - destruct gate.
    + unfold recover_rollback. apply swp_bind, swp_get_store, swp_bind, swp_on_gate; [|done].
      intros g. apply swp_bind.
      eapply (swp_mono _ _ (λ _ s', s' = s) _ (λ _ _, True)); [|intros [g' d] ? ->|done].
      { swp_steps; done. }
      apply swp_bind.
      eapply swp_mono; [apply (swp_recovered_target gate_clock ep p g' d (λ s', s' = s) s eq_refl)
        |intros t ? [-> Ht]|done].
      apply swp_bind, swp_transaction, swp_bind, swp_outcome. intros now.
      apply swp_bind, swp_journal. intros now2.
      apply swp_transition; [|done]. intros row' now3 Hrow' Hall. apply swp_ret.
      split; [by apply (state_in_transitioned _ _ row')|]. by destruct t.
    + apply swp_bind, swp_transaction, swp_transition; [|done].
      intros row' now Hrow' Hall. apply swp_ret.
      split; [by apply (state_in_transitioned _ _ row')|done].
  - assert (Hend : ∀ s1 row1, find (is_plan pid) (activation s1) = Some row1 →
      in_flight (Activation.state row1) = false →
      swp ep (row'' ← _row pid; mret (Activation.state row'') : C State.t)
        (λ st' s'', state_in s'' pid = Some st' ∧ in_flight st' = false) (λ _ _, True) s1).
    { intros s1 row1 Hr1 Hf. apply swp_bind, swp_row; [|done]. intros row2 Hr2.
      apply swp_ret. unfold state_in. rewrite Hr2. split; [done|congruence]. }
    destruct (bool_decide (Activation.state row = State.COMMIT_READY) && gate) eqn:Hcr.
    + apply swp_bind. unfold recover_commit. apply swp_bind, swp_on_gate; [|done]. intros g.
      destruct (bool_decide (g = GateState.CANDIDATE_OPEN)).
      * apply swp_bind, swp_transaction, swp_bind, swp_journal. intros now.
        apply swp_transition; [|done]. intros row' now2 Hrow' Hall. apply swp_ret, swp_ret.
        split; [by apply (state_in_transitioned _ _ row')|done].
      * apply swp_bind. eapply (swp_mono _ _ (λ _ s', s' = s) _ (λ _ _, True));
          [swp_steps; done|intros ? ? ->|done].
        apply swp_bind, swp_transaction, swp_bind, swp_transition; [|done].
        intros row' now Hrow' Hall. apply swp_journal. intros now2. apply swp_ret.
        eapply Hend; [by apply (find_transitioned s pid row')|done].
    + apply swp_bind, swp_bind. unfold recover_other.
      destruct (bool_decide (Activation.state row
        ∈ [State.PREPARING; State.LAUNCHING; State.OBSERVING]) && gate) eqn:H1.
      { apply swp_bind, swp_on_gate; [intros _|done].
        apply swp_transaction, swp_bind, swp_transition; [|done].
        intros row' now Hrow' Hall. apply swp_journal. intros now2. apply swp_ret.
        eapply Hend; [by apply (find_transitioned s pid row')|done]. }
      destruct (bool_decide (Activation.state row
        ∈ [State.PREPARING; State.LAUNCHING; State.COMMIT_READY])) eqn:H2.
      { apply swp_bind, swp_env; [intros _|done].
        apply swp_transaction, swp_bind, swp_transition; [|done].
        intros row' now Hrow' Hall. apply swp_journal. intros now2. apply swp_ret.
        eapply Hend; [by apply (find_transitioned s pid row')|done]. }
      apply swp_when; intros H3.
      { apply swp_bind, swp_env; [intros _|done]. apply swp_transaction, swp_transition; [|done].
        intros row' now Hrow' Hall. apply swp_ret. eapply Hend; [by apply (find_transitioned s pid row')|done]. }
      apply swp_ret. apply (Hend s row); [done|]. clear Hend. revert H2 H3 Hrb.
      destruct (Activation.state row); try reflexivity; try discriminate. by intros _ _ [].
Qed.

(** Recovery leaves nothing in flight: when [recover] returns, it returns the stored
    state of the activation, and that state is none of PREPARING, LAUNCHING, OBSERVING,
    COMMIT_READY and ROLLBACK, with or without an exposure gate. *)
Theorem recover_settles (w : CWorld E T) pid st w' :
  recover clock gate_clock pid w = (Ok st, w') →
  state_in (store w') pid = Some st ∧ in_flight st = false.
Proof.
  intros Hrun. pose proof (swp_recover (manager_epoch w) pid (store w) w eq_refl eq_refl) as Hw.
  unfold wp in Hw. rewrite Hrun in Hw. apply Hw.
Qed.
End Reachable.
