(* ===== verification/CoordinatorRuns.v ===== *)
(** * CoordinatorRuns: concrete runs of the activation coordinator

    Witnesses for the theorems of CoordinatorProofs.v, evaluated with the fake adapters of the
    source and the FIPS 180-4 digest, and two runs in which the documented recovery cannot
    end in a commit. *)

From S2P Require Import Prelude Effects Json Sha256 EcpaModel ExposureGate GateRecovery.
From S2P Require Import DurableCoordinator CoordinatorProofs.

Local Open Scope string_scope.
Local Open Scope list_scope.

Module CDemo.
Definition clock (n : nat) : Z := 100 + Z.of_nat n.
Definition worker := mkProcessIdentity "node0" "worker" 0 "boot-1" 7.
Definition pred := mkPredecessorSnapshot 0 None [].
Definition p : Plan := mkPlan [EcpaModel.Demo.plugin] EcpaModel.Demo.the_host []
  [EcpaModel.Demo.obligation] pred false.
Definition pid : string := plan_id p.
Definition att (n : string) : Attestation := mkAttestation pid "launch-1" worker "ob-1"
  "patch-applied" n 0 100000 (plugin_id EcpaModel.Demo.plugin) "host-runtime" "issuer" "k1" 10
  "ed" "ad".
Definition fakes : Fake.t := Fake.mk [worker] false false true None None true true.
Definition gate0 : World D.t :=
  mkWorld empty_db ∅ 0 None (D.init 0 (to_json pred) None ∅ false false).

Definition W : Type := CWorld Fake.t D.t.
Definition start (faults : gset string) (gate : option (World D.t)) : W :=
  new_coordinator new_store faults fakes gate.
Definition restart (w : W) : W := new_coordinator (store w) ∅ (env w) (exposure_gate w).
Definition run (w : W) (cs : list coordinator_call) : W :=
  foldl (λ w c, (cexec clock GateDemo.clock c w).2) w cs.

Definition observed : list coordinator_call :=
  [KPlan p; KPrepare pid; KLaunch pid "launch-1"; KObserve pid (att "n1") (Some 150%Z)].
(** What the design document asks of the manager after a restart. *)
Definition documented_recovery : list coordinator_call :=
  [KRecover pid; KRefresh pid [worker]; KObserve pid (att "n2") (Some 200%Z); KResume pid].

Definition ready : W := run (start ∅ None) observed.
(** The process dies after the compare-and-swap, before traffic moves. *)
Definition crashed : W := run (start {["commit.after_wal"]} None) (observed ++ [KCommit pid 0]).
Definition recovered : W := run (restart crashed) documented_recovery.
(** The same without a crash in the commit, with an exposure gate. *)
Definition gate_recovered : W :=
  run (restart (run (start ∅ (Some gate0)) observed)) documented_recovery.

Lemma crun_reachable w cs :
  creachable clock GateDemo.clock w → creachable clock GateDemo.clock (run w cs).
Proof.
  intros Hw. unfold run. induction cs as [|c cs IH] using rev_ind; [done|].
  rewrite foldl_app. eapply cr_next; [exact IH|apply cn_call].
Qed.

Lemma start_reachable f g : creachable clock GateDemo.clock (start f g).
Proof. apply cr_new. Qed.

Lemma restart_reachable w :
  creachable clock GateDemo.clock w → creachable clock GateDemo.clock (restart w).
Proof. intros Hw. eapply cr_next; [exact Hw|apply cn_boot]. Qed.

Definition state_of (w : W) : option State.t := state_in (store w) pid.

Example ready_commits :
  (commit clock GateDemo.clock pid 0 ready).1 = Ok 1%Z
  ∧ state_of (run ready [KCommit pid 0]) = Some State.EFFECTIVE
  ∧ Fake.active_plan_id (env (run ready [KCommit pid 0])) = Some pid.
Proof. vm_compute. done. Qed.

Example gate_commits :
  state_of (run (run (start ∅ (Some gate0)) observed) [KCommit pid 0]) = Some State.EFFECTIVE.
Proof. vm_compute. done. Qed.
End CDemo.

Lemma coordinator_store_ok_witness :
  CDemo.state_of CDemo.recovered = Some State.OBSERVING ∧ store_ok (store CDemo.recovered).
Proof.
  split; [vm_compute; reflexivity|].
  apply (coordinator_store_ok CDemo.clock GateDemo.clock), CDemo.crun_reachable,
    CDemo.restart_reachable, CDemo.crun_reachable, CDemo.start_reachable.
Defined.

Lemma coordinator_history_witness :
  store_le (store CDemo.ready)
    (store (cexec CDemo.clock GateDemo.clock (KCommit CDemo.pid 0) CDemo.ready).2).
Proof.
  apply coordinator_history, CDemo.crun_reachable, CDemo.start_reachable.
Defined.

Lemma commit_postcondition_witness :
  ∃ g w', commit CDemo.clock GateDemo.clock CDemo.pid 0 CDemo.ready = (Ok g, w')
    ∧ committed (store CDemo.ready) (store w') (manager_epoch CDemo.ready)
        (CDemo.clock (cticks CDemo.ready)) CDemo.pid 0 g.
Proof.
  destruct (commit CDemo.clock GateDemo.clock CDemo.pid 0 CDemo.ready) as [[g|e] w'] eqn:Hc.
  - exists g, w'. split; [reflexivity|].
    apply (commit_postcondition CDemo.clock GateDemo.clock); [|exact Hc].
    apply CDemo.crun_reachable, CDemo.start_reachable.
  - exfalso. revert Hc. vm_compute. discriminate.
Defined.

Lemma restart_requires_fresh_evidence_witness :
  CDemo.state_of CDemo.ready = Some State.OBSERVING
  ∧ (commit CDemo.clock GateDemo.clock CDemo.pid 0
      (new_coordinator (store CDemo.ready) ∅ CDemo.fakes None : CDemo.W)).1 ≠ Ok 1%Z.
Proof.
  split; [vm_compute; reflexivity|].
  apply (restart_requires_fresh_evidence CDemo.clock GateDemo.clock CDemo.ready ∅ CDemo.fakes
    None CDemo.pid 0).
  apply CDemo.crun_reachable, CDemo.start_reachable.
Defined.

Lemma stale_plan_never_commits_witness :
  generation (store CDemo.crashed) = 1%Z
  ∧ (commit CDemo.clock GateDemo.clock CDemo.pid 1 CDemo.crashed).1 ≠ Ok 2%Z.
Proof.
  split; [vm_compute; reflexivity|].
  apply (stale_plan_never_commits CDemo.clock GateDemo.clock CDemo.crashed CDemo.pid CDemo.p
    CDemo.crashed 1 2).
  - apply CDemo.crun_reachable, CDemo.start_reachable.
  - split; [|vm_compute; reflexivity].
    destruct (activation (store CDemo.crashed)) as [|row l] eqn:Ha;
      [exfalso; revert Ha; vm_compute; discriminate|].
    exists row. split; [left|]. revert Ha. vm_compute. intros [= <- _]. split; reflexivity.
  - apply rtc_refl.
Defined.

Lemma recover_settles_witness :
  ∃ st w', recover CDemo.clock GateDemo.clock CDemo.pid (CDemo.restart CDemo.crashed) = (Ok st, w')
    ∧ state_in (store w') CDemo.pid = Some st ∧ in_flight st = false.
Proof.
  destruct (recover CDemo.clock GateDemo.clock CDemo.pid (CDemo.restart CDemo.crashed))
    as [[st|e] w'] eqn:Hr.
  - exists st, w'. split; [reflexivity|]. exact (recover_settles _ _ _ _ _ _ Hr).
  - exfalso. revert Hr. vm_compute. discriminate.
Defined.

(** Finding: a crash between the compare-and-swap and the traffic switch strands the
    plan.  The design document's recovery (recover, refresh the inventory, observe again,
    resume, commit) brings the activation back to OBSERVING with complete evidence, but the
    generation already counts the commit that did not happen: committing again is refused as
    a CAS mismatch for the old and for the new generation, while the predecessor's traffic is
    restored. *)
Theorem crash_after_intent_strands_plan :
  (cexec CDemo.clock GateDemo.clock (KCommit CDemo.pid 0) (CDemo.run (CDemo.start
     {["commit.after_wal"]} None) CDemo.observed)).1
    = Err (RuntimeError "injected fault: commit.after_wal")
  ∧ CDemo.state_of CDemo.recovered = Some State.OBSERVING
  ∧ evidence_complete (store CDemo.recovered) CDemo.p (manager_epoch CDemo.recovered) 200 = true
  ∧ Fake.active_plan_id (env CDemo.recovered) = None
  ∧ generation (store CDemo.recovered) = 1%Z
  ∧ (commit CDemo.clock GateDemo.clock CDemo.pid 0 CDemo.recovered).1
    = Err (ContractError CAS_MISMATCH "0")
  ∧ (commit CDemo.clock GateDemo.clock CDemo.pid 1 CDemo.recovered).1
    = Err (ContractError CAS_MISMATCH "1").
Proof. vm_compute. done. Qed.

(** Finding: with an exposure gate, recovering an observing activation rolls the gate
    back for good.  The documented recovery restores OBSERVING with complete evidence, and the
    commit then passes its compare-and-swap, increments the generation and only fails at the
    gate, which is terminally ROLLED_BACK. *)
Theorem gate_recovery_cannot_commit :
  CDemo.state_of CDemo.gate_recovered = Some State.OBSERVING
  ∧ evidence_complete (store CDemo.gate_recovered) CDemo.p
      (manager_epoch CDemo.gate_recovered) 200 = true
  ∧ (exposure_gate CDemo.gate_recovered ≫= GateDemo.state_of) = Some GateState.ROLLED_BACK
  ∧ (commit CDemo.clock GateDemo.clock CDemo.pid 0 CDemo.gate_recovered).1
    = Err (GateError "invalid gate transition ROLLED_BACK->OPENING")
  ∧ generation (store (CDemo.run CDemo.gate_recovered [KCommit CDemo.pid 0])) = 1%Z
  ∧ CDemo.state_of (CDemo.run CDemo.gate_recovered [KCommit CDemo.pid 0])
    = Some State.COMMIT_READY.
Proof. vm_compute. done. Qed.
