(* ===== verification/ContractParser.v ===== *)
(** * ContractParser: contracts and their parser (contract_compiler.py, first half)

    The contract data classes, the taxonomy and contract parsers, and the field readers they
    share.  Versions and specifier sets come from the third-party [packaging] library and are
    the parameter [Packaging].  A record field whose class shares its name with another one
    carries a prefix ([cap_], [res_], [ob_], ...). *)

From S2P Require Import Prelude Effects Json Sha256.
From S2P Require EcpaModel.

Local Open Scope string_scope.
Local Open Scope list_scope.

(** ** The packaging library *)

Class Packaging := {
  Version : Type;
  parse_version : string → option Version;     (** [Version(raw)]; [None] is [InvalidVersion]. *)
  version_local : Version → option string;     (** [parsed.local] *)
  version_str : Version → string;              (** [str(parsed)] *)
  SpecifierSet : Type;
  parse_specifiers : string → option SpecifierSet;  (** [None] is [InvalidSpecifier]. *)
  specifier_versions : SpecifierSet → list string;  (** [s.version for s in parsed] *)
  specifiers_str : SpecifierSet → string;
  version_in : Version → SpecifierSet → bool;  (** [version in specifiers] *)
}.

(** What the compiler relies on: printing a parsed value gives text that parses back. *)
Class PackagingLaws `{Packaging} : Prop := {
  parse_version_str v : parse_version (version_str v) = Some v;
  parse_specifiers_str s : parse_specifiers (specifiers_str s) = Some s;
}.

(** ** Data *)

Record Capability := mkCapability { cap_name : string; cap_version : string }.

Record ContractResource := mkResource {
  res_name : string; res_mode : string; res_mediator : option string }.

Record TaxonomyResource := mkTaxonomyResource {
  canonical : string; aliases : list string; allowed_modes : list string }.

Record ContractTaxonomy := mkTaxonomy {
  tax_schema : string; tax_scope : string; decision_precedence : list string;
  tax_capabilities : list string; tax_resources : list TaxonomyResource }.

Record ProcessObligationContract := mkObligation {
  ob_role : string; ob_event : string; ob_completion : string; ob_authority : string;
  ob_direction : string; ob_capability : string; ob_quorum : option Z }.

Record RollbackContract := mkRollback {
  manager_owned : list string; external_operator_owned : list string }.

Record AuthorityGrant := mkGrant {
  g_role : string; g_event : string; g_direction : string; g_capability : string }.

Record AuthorityContract := mkAuthority {
  auth_provider : list AuthorityGrant; auth_runtime : list AuthorityGrant;
  auth_external : list AuthorityGrant }.

Record ExtensionContract := mkContract {
  extension_id : string; ext_version : string; manifest_sha256 : string;
  host_runtime : string; host_version_range : string;
  provides : list Capability; requires : list Capability;
  resources : list ContractResource;
  process_obligations : list ProcessObligationContract;
  rollback : RollbackContract; authority : AuthorityContract }.

#[export] Instance Capability_eq_dec : EqDecision Capability.
Proof. solve_decision. Defined.
#[export] Instance ContractResource_eq_dec : EqDecision ContractResource.
Proof. solve_decision. Defined.
#[export] Instance ProcessObligationContract_eq_dec : EqDecision ProcessObligationContract.
Proof. solve_decision. Defined.
#[export] Instance AuthorityGrant_eq_dec : EqDecision AuthorityGrant.
Proof. solve_decision. Defined.
#[export] Instance AuthorityContract_eq_dec : EqDecision AuthorityContract.
Proof. solve_decision. Defined.
#[export] Instance RollbackContract_eq_dec : EqDecision RollbackContract.
Proof. solve_decision. Defined.
#[export] Instance ExtensionContract_eq_dec : EqDecision ExtensionContract.
Proof. solve_decision. Defined.

(** ** Constants *)

Definition _RESOURCE_MODES : list string := ["exclusive"; "shared-read"; "mediated"].
Definition _COMPLETION_MODES : list string := ["all"; "quorum"; "optional"].
Definition _EVENTS : list string :=
  ["loaded"; "invoked"; "health-observed"; "selected-kv-native-arguments-completed"].
Definition _AUTHORITY_KINDS : list string := ["provider"; "runtime"; "external"].
Definition _CAPABILITY_DIRECTIONS : list string := ["provides"; "requires"].
Definition _TAXONOMY_DECISION_PRECEDENCE : list string :=
  ["unknown-resource"; "invalid-mode"; "capability-cardinality"; "resource-mode";
   "mediator-consistency"; "mediator-presence"].
Definition _TAXONOMY_SCOPE : string := "vLLM-HUST-static-contract-study".

(** The events only the runtime can witness. *)
Definition runtime_events : list string :=
  ["loaded"; "invoked"; "selected-kv-native-arguments-completed"].

Definition isin (x : string) (l : list string) : bool := bool_decide (x ∈ l).

(** [_IDENTIFIER.fullmatch]: lower-case alphanumeric segments, two or more, separated by single
    dots or dashes.  [seps] tells that a separator was seen, [seg] that the current segment is
    not empty. *)
Definition is_alnum (c : ascii) : bool :=
  let n := N_of_ascii c in ((97 <=? n) && (n <=? 122) || (48 <=? n) && (n <=? 57))%N.

Fixpoint segments (seps seg : bool) (s : string) : bool :=
  match s with
  | EmptyString => seps && seg
  | String c s' =>
      if is_alnum c then segments seps true s'
      else if (Ascii.eqb c "." || Ascii.eqb c "-") && seg then segments true false s'
      else false
  end.

Definition is_identifier (s : string) : bool := segments false false s.

(** ** Field readers *)

Definition invalid {A} (detail : string) : result A :=
  Err (ContractPlanningError PlanningErrorCode.INVALID_CONTRACT detail).

(** [if not b: raise ContractPlanningError(INVALID_CONTRACT, detail)]. *)
Definition require (b : bool) (detail : string) : result unit :=
  check b (ContractPlanningError PlanningErrorCode.INVALID_CONTRACT detail).

Definition require_authority (b : bool) (detail : string) : result unit :=
  check b (ContractPlanningError PlanningErrorCode.AUTHORITY_VIOLATION detail).

(** ["location[index]"]. *)
Definition at_index (location : string) (index : nat) : string :=
  location +:+ "[" +:+ z_str (Z.of_nat index) +:+ "]".

Definition is_dict_with (fields : list string) (value : json) : bool :=
  match value with JObj kvs => same_keys fields kvs | _ => false end.

Definition _object (value : json) (location : string) (fields : list string) : result json :=
  _ ← require (is_dict_with fields value)
        (location +:+ " requires exactly " +:+ list_repr (sort_by id str_leb fields));
  Ok value.

Definition trimmed (s : string) : bool :=
  negb (s =? EmptyString)%string
  && bool_decide (strip (list_ascii_of_string s) = list_ascii_of_string s).

Definition _string (value : json) (location : string) : result string :=
  match value with
  | JStr s =>
      _ ← require (trimmed s) (location +:+ " must be a non-empty trimmed string"); Ok s
  | _ => invalid (location +:+ " must be a non-empty trimmed string")
  end.

Definition _identifier (value : json) (location : string) : result string :=
  s ← _string value location;
  _ ← require (is_identifier s) (location +:+ " is not a canonical ECPA identifier");
  Ok s.

Definition _array (value : json) (detail : string) : result (list json) :=
  match value with JArr l => Ok l | _ => invalid detail end.

Definition _string_array (value : json) (location : string) : result (list string) :=
  items ← _array value (location +:+ " must be an array");
  strings ← map_result (λ item, _string item (location +:+ "[]")) items;
  _ ← require (negb (has_dups strings)) (location +:+ " contains duplicates");
  Ok (sort_by id str_leb strings).

(** [value.get(key)] of a dictionary. *)
Definition dict_get (key : string) (value : json) : json :=
  match value with JObj kvs => default JNull (assoc key kvs) | _ => JNull end.

(** [s.removesuffix(".*")]. *)
Fixpoint removesuffix_star (s : string) : string :=
  match s with
  | EmptyString => EmptyString
  | String c s' => if (s =? ".*")%string then EmptyString else String c (removesuffix_star s')
  end.

Section Parsers.
Context `{Packaging}.

Definition _public_version (value : json) (location : string) : result string :=
  raw ← _string value location;
  match parse_version raw with
  | None => invalid (location +:+ " is not a PEP 440 version")
  | Some parsed =>
      _ ← require (bool_decide (version_local parsed = None))
            (location +:+ " must not contain a PEP 440 local version label");
      Ok (version_str parsed)
  end.

(** [for specifier in parsed: ...]. *)
Fixpoint public_bounds (versions : list string) (location : string) : result unit :=
  match versions with
  | [] => Ok tt
  | v :: versions' =>
      match parse_version (removesuffix_star v) with
      | None => invalid (location +:+ " is not a PEP 440 specifier set")
      | Some parsed =>
          _ ← require (bool_decide (version_local parsed = None))
                (location +:+ " must not contain a PEP 440 local version label");
          public_bounds versions' location
      end
  end.

Definition _public_specifier (value : json) (location : string) : result string :=
  raw ← _string value location;
  match parse_specifiers raw with
  | None => invalid (location +:+ " is not a PEP 440 specifier set")
  | Some parsed =>
      _ ← public_bounds (specifier_versions parsed) location;
      Ok (specifiers_str parsed)
  end.

Definition parse_capability (location : string) (requirements : bool) (index : nat) (raw : json)
    : result Capability :=
  let loc := at_index location index in
  item ← _object raw loc ["name"; "version"];
  name ← getitem "name" item ≫= λ v, _identifier v (loc +:+ ".name");
  version ← getitem "version" item ≫= λ v, _string v (loc +:+ ".version");
  version ← (if requirements then _public_specifier (JStr version) (loc +:+ ".version")
             else _public_version (JStr version) (loc +:+ ".version"));
  Ok (mkCapability name version).

Definition _capabilities (value : json) (location : string) (requirements : bool)
    : result (list Capability) :=
  items ← _array value (location +:+ " must be an array");
  caps ← map_result_i (parse_capability location requirements) items;
  _ ← require (negb (has_dups (cap_name <$> caps)))
        (location +:+ " contains duplicate capability names");
  Ok (sort_by cap_name str_leb caps).

Definition grant_key (g : AuthorityGrant) : list string :=
  [g_role g; g_event g; g_direction g; g_capability g].

Definition parse_grant (location authority_kind : string) (index : nat) (raw : json)
    : result AuthorityGrant :=
  let loc := at_index location index in
  item ← _object raw loc ["role"; "event"; "capability_direction"; "capability"];
  role ← getitem "role" item ≫= λ v, _string v (loc +:+ ".role");
  event ← getitem "event" item ≫= λ v, _string v (loc +:+ ".event");
  _ ← require (isin event _EVENTS) (loc +:+ ".event is unsupported");
  _ ← require_authority
        (negb (isin event runtime_events) || (authority_kind =? "runtime")%string)
        (loc +:+ " cannot claim " +:+ event +:+ " outside runtime authority");
  direction ← getitem "capability_direction" item
    ≫= λ v, _string v (loc +:+ ".capability_direction");
  _ ← require (isin direction _CAPABILITY_DIRECTIONS)
        (loc +:+ ".capability_direction is unsupported");
  capability ← getitem "capability" item ≫= λ v, _identifier v (loc +:+ ".capability");
  Ok (mkGrant role event direction capability).

Definition _authority_grants (value : json) (location authority_kind : string)
    : result (list AuthorityGrant) :=
  items ← _array value (location +:+ " must be an array");
  grants ← map_result_i (parse_grant location authority_kind) items;
  _ ← require (negb (has_dups grants)) (location +:+ " contains duplicates");
  Ok (sort_by grant_key strs_leb grants).

(** ** The taxonomy *)

Definition parse_taxonomy_capability (index : nat) (raw : json) : result string :=
  let loc := at_index "taxonomy.capabilities" index in
  capability ← _object raw loc ["name"; "description"];
  name ← getitem "name" capability ≫= λ v, _identifier v (loc +:+ ".name");
  _ ← getitem "description" capability ≫= λ v, _string v (loc +:+ ".description");
  Ok name.

Definition parse_taxonomy_resource (index : nat) (raw : json) : result TaxonomyResource :=
  let loc := at_index "taxonomy.resources" index in
  resource ← _object raw loc ["canonical"; "aliases"; "allowed_modes"; "description"];
  canon ← getitem "canonical" resource ≫= λ v, _identifier v (loc +:+ ".canonical");
  als ← getitem "aliases" resource ≫= λ v, _string_array v (loc +:+ ".aliases");
  _ ← map_result_i
        (λ alias_index alias, _identifier (JStr alias) (at_index (loc +:+ ".aliases") alias_index))
        als;
  modes ← getitem "allowed_modes" resource ≫= λ v, _string_array v (loc +:+ ".allowed_modes");
  _ ← require (negb (bool_decide (modes = [])) && forallb (λ m, isin m _RESOURCE_MODES) modes)
        (loc +:+ ".allowed_modes is unsupported");
  _ ← getitem "description" resource ≫= λ v, _string v (loc +:+ ".description");
  Ok (mkTaxonomyResource canon als modes).

(** [(canonical, *aliases)]. *)
Definition resource_names (r : TaxonomyResource) : list string := canonical r :: aliases r.

Definition parse_contract_taxonomy (payload : json) : result ContractTaxonomy :=
  item ← _object payload "taxonomy"
    ["schema"; "scope"; "decision_precedence"; "capabilities"; "resources"];
  schema ← getitem "schema" item ≫= λ v, _string v "taxonomy.schema";
  _ ← require (schema =? "ecpa-contract-taxonomy/0.1-draft")%string
        "taxonomy.schema is unsupported";
  scope ← getitem "scope" item ≫= λ v, _string v "taxonomy.scope";
  _ ← require (scope =? _TAXONOMY_SCOPE)%string "taxonomy.scope is unsupported";
  raw_precedence ← getitem "decision_precedence" item
    ≫= λ v, _array v "taxonomy.decision_precedence must be an array";
  precedence ← map_result (λ v, _string v "taxonomy.decision_precedence[]") raw_precedence;
  _ ← require (bool_decide (precedence = _TAXONOMY_DECISION_PRECEDENCE))
        "taxonomy.decision_precedence is unsupported";
  raw_capabilities ← getitem "capabilities" item
    ≫= λ v, _array v "taxonomy.capabilities must be a non-empty array";
  _ ← require (negb (bool_decide (raw_capabilities = [])))
        "taxonomy.capabilities must be a non-empty array";
  capabilities ← map_result_i parse_taxonomy_capability raw_capabilities;
  _ ← require (negb (has_dups capabilities)) "taxonomy.capabilities contains duplicate names";
  raw_resources ← getitem "resources" item
    ≫= λ v, _array v "taxonomy.resources must be a non-empty array";
  _ ← require (negb (bool_decide (raw_resources = [])))
        "taxonomy.resources must be a non-empty array";
  rs ← map_result_i parse_taxonomy_resource raw_resources;
  _ ← require (negb (has_dups (rs ≫= resource_names)))
        "taxonomy resource canonical names and aliases must be globally unique";
  Ok (mkTaxonomy schema scope precedence (sort_by id str_leb capabilities)
        (sort_by canonical str_leb rs)).

(** ** Contracts *)

Definition parse_resource (index : nat) (raw : json) : result ContractResource :=
  let loc := at_index "resources" index in
  _ ← require (is_dict_with ["name"; "mode"] raw || is_dict_with ["name"; "mode"; "mediator"] raw)
        (loc +:+ " requires name/mode and optional mediator");
  name ← getitem "name" raw ≫= λ v, _identifier v (loc +:+ ".name");
  mode ← getitem "mode" raw ≫= λ v, _string v (loc +:+ ".mode");
  let mediator := dict_get "mediator" raw in
  _ ← require (isin mode _RESOURCE_MODES) (loc +:+ ".mode is unsupported");
  if (mode =? "mediated")%string then
    m ← _identifier mediator (loc +:+ ".mediator"); Ok (mkResource name mode (Some m))
  else
    _ ← require (bool_decide (mediator = JNull))
          (loc +:+ " cannot declare a mediator for " +:+ mode);
    Ok (mkResource name mode None).

Definition parse_resources (value : json) : result (list ContractResource) :=
  items ← _array value "resources must be an array";
  rs ← map_result_i parse_resource items;
  _ ← require (negb (has_dups (res_name <$> rs))) "resources contains duplicate resource names";
  Ok rs.

Definition declared (caps : list Capability) (name : string) : bool :=
  isin name (cap_name <$> caps).

(** [isinstance(quorum, int) and not isinstance(quorum, bool) and quorum >= 1]. *)
Definition positive_int (v : json) : bool :=
  match v with JInt z => (1 <=? z)%Z | _ => false end.

Definition as_quorum (v : json) : option Z := match v with JInt z => Some z | _ => None end.

Definition obligation_fields : list string :=
  ["role"; "event"; "completion"; "authority"; "capability_direction"; "capability"].

(** The body of the obligation loop, after the completion and the field set are known. *)
Definition obligation_body (loc completion : string) (provs reqs : list Capability) (item : json)
    : result ProcessObligationContract :=
  role ← getitem "role" item ≫= λ v, _string v (loc +:+ ".role");
  event ← getitem "event" item ≫= λ v, _string v (loc +:+ ".event");
  _ ← require (isin event _EVENTS && isin completion _COMPLETION_MODES)
        (loc +:+ " has unsupported semantics");
  kind ← getitem "authority" item ≫= λ v, _string v (loc +:+ ".authority");
  _ ← require (isin kind _AUTHORITY_KINDS) (loc +:+ ".authority is unsupported");
  _ ← require_authority (negb (isin event runtime_events) || (kind =? "runtime")%string)
        (loc +:+ " " +:+ event +:+ " must use runtime authority");
  _ ← require (negb ((event =? "selected-kv-native-arguments-completed")%string
                     && (negb (role =? "worker")%string || negb (completion =? "all")%string)))
        "native argument completion requires every runtime worker";
  direction ← getitem "capability_direction" item
    ≫= λ v, _string v (loc +:+ ".capability_direction");
  _ ← require (isin direction _CAPABILITY_DIRECTIONS)
        (loc +:+ ".capability_direction is unsupported");
  capability ← getitem "capability" item ≫= λ v, _identifier v (loc +:+ ".capability");
  _ ← require_authority
        (declared (if (direction =? "provides")%string then provs else reqs) capability)
        (loc +:+ " references an undeclared capability");
  let quorum := dict_get "quorum" item in
  _ ← require (negb (completion =? "quorum")%string || positive_int quorum)
        (loc +:+ ".quorum must be a positive integer");
  Ok (mkObligation role event completion kind direction capability (as_quorum quorum)).

Definition parse_obligation (provs reqs : list Capability) (index : nat) (raw : json)
    : result ProcessObligationContract :=
  let loc := at_index "process_obligations" index in
  _ ← require (match raw with JObj _ => true | _ => false end) (loc +:+ " must be an object");
  completion ← _string (dict_get "completion" raw) (loc +:+ ".completion");
  item ← _object raw loc
    (if (completion =? "quorum")%string then obligation_fields ++ ["quorum"]
     else obligation_fields);
  obligation_body loc completion provs reqs item.

Definition obligation_key (o : ProcessObligationContract) : list string :=
  [ob_role o; ob_event o; ob_direction o; ob_capability o].

Definition parse_obligations (value : json) (provs reqs : list Capability)
    : result (list ProcessObligationContract) :=
  items ← _array value "process_obligations must be a non-empty array";
  _ ← require (negb (bool_decide (items = []))) "process_obligations must be a non-empty array";
  obs ← map_result_i (parse_obligation provs reqs) items;
  _ ← require (negb (has_dups (obligation_key <$> obs)))
        "process_obligations contains duplicate role/event/direction/capability keys";
  Ok obs.

(** The key of the final sort, tuples compared lexicographically. *)
Definition obligation_order (o : ProcessObligationContract) : list string * Z :=
  ([ob_role o; ob_event o; ob_completion o; ob_authority o; ob_direction o; ob_capability o],
   default 0%Z (ob_quorum o)).

Definition order_leb (x y : list string * Z) : bool :=
  if decide (x.1 = y.1) then (x.2 <=? y.2)%Z else strs_leb x.1 y.1.

(** [getattr(authority, kind)]. *)
Definition grants_of (kind : string) (a : AuthorityContract) : list AuthorityGrant :=
  if (kind =? "provider")%string then auth_provider a
  else if (kind =? "runtime")%string then auth_runtime a
  else auth_external a.

Definition parse_deprecated (payload : json) : result unit :=
  match payload with
  | JObj kvs =>
      match assoc "deprecated" kvs with
      | None => Ok tt
      | Some d =>
          d ← _object d "deprecated" ["since"; "replacement"];
          _ ← getitem "since" d ≫= λ v, _string v "deprecated.since";
          _ ← getitem "replacement" d ≫= λ v, _identifier v "deprecated.replacement";
          Ok tt
      end
  | _ => Ok tt
  end.

Definition parse_authority (value : json) : result AuthorityContract :=
  p ← getitem "provider" value ≫= λ v, _authority_grants v "authority.provider" "provider";
  r ← getitem "runtime" value ≫= λ v, _authority_grants v "authority.runtime" "runtime";
  e ← getitem "external" value ≫= λ v, _authority_grants v "authority.external" "external";
  Ok (mkAuthority p r e).

(** [for authority_kind in sorted(_AUTHORITY_KINDS): for grant in ...]. *)
Definition check_grants (provs reqs : list Capability) (a : AuthorityContract) : result unit :=
  _ ← map_result (λ kind,
        map_result (λ g,
          require_authority
            (declared (if (g_direction g =? "provides")%string then provs else reqs)
               (g_capability g))
            ("authority." +:+ kind +:+ " grant references an undeclared " +:+ g_direction g
             +:+ " capability " +:+ g_capability g)) (grants_of kind a))
        (sort_by id str_leb _AUTHORITY_KINDS);
  Ok tt.

Definition contract_fields : list string :=
  ["schema"; "id"; "version"; "host"; "capabilities"; "resources"; "process_obligations";
   "rollback"; "authority"].

Context `{Sha256}.

Definition parse_contract (payload : json) : result ExtensionContract :=
  _ ← require (is_dict_with contract_fields payload
               || is_dict_with (contract_fields ++ ["deprecated"]) payload)
        "contract fields do not match ecpa-manifest/0.1-draft";
  _ ← require (bool_decide (dict_get "schema" payload = JStr "ecpa-manifest/0.1-draft"))
        "unsupported contract schema";
  ext_id ← getitem "id" payload ≫= λ v, _identifier v "id";
  version ← getitem "version" payload ≫= λ v, _public_version v "version";
  host ← getitem "host" payload ≫= λ v, _object v "host" ["runtime"; "version"];
  runtime ← getitem "runtime" host ≫= λ v, _string v "host.runtime";
  host_range ← getitem "version" host ≫= λ v, _public_specifier v "host.version";
  capabilities ← getitem "capabilities" payload
    ≫= λ v, _object v "capabilities" ["provides"; "requires"];
  provs ← getitem "provides" capabilities ≫= λ v, _capabilities v "capabilities.provides" false;
  reqs ← getitem "requires" capabilities ≫= λ v, _capabilities v "capabilities.requires" true;
  rs ← getitem "resources" payload ≫= parse_resources;
  obs ← getitem "process_obligations" payload ≫= λ v, parse_obligations v provs reqs;
  rb ← getitem "rollback" payload
    ≫= λ v, _object v "rollback" ["manager_owned"; "external_operator_owned"];
  au ← getitem "authority" payload
    ≫= λ v, _object v "authority" ["provider"; "runtime"; "external"];
  _ ← parse_deprecated payload;
  au ← parse_authority au;
  _ ← check_grants provs reqs au;
  owned ← getitem "manager_owned" rb ≫= λ v, _string_array v "rollback.manager_owned";
  external ← getitem "external_operator_owned" rb
    ≫= λ v, _string_array v "rollback.external_operator_owned";
  Ok {| extension_id := ext_id; ext_version := version;
        manifest_sha256 := sha256_hexdigest (canonical_bytes payload);
        host_runtime := runtime; host_version_range := host_range;
        provides := provs; requires := reqs;
        resources := sort_by res_name str_leb rs;
        process_obligations := sort_by obligation_order order_leb obs;
        rollback := mkRollback owned external; authority := au |}.

End Parsers.
