(* ===== verification/ParserProofs.v ===== *)
(** * ParserProofs: what a parsed contract guarantees

    [contract_ok] is the well-formedness the compiler relies on; [parse_contract] and
    [parse_contract_taxonomy] establish it for whatever JSON they accept. *)

From S2P Require Import Prelude Effects Json Sha256 ContractParser.

Local Open Scope string_scope.
Local Open Scope list_scope.

(** ** Well-formed contracts *)

Definition sorted_by {A} (key : A → string) (l : list A) : Prop :=
  StronglySorted (key_le key str_leb) l.

Definition declared_in (provs reqs : list Capability) (direction capability : string) : Prop :=
  capability ∈ cap_name <$> (if (direction =? "provides")%string then provs else reqs).

Record obligation_ok (provs reqs : list Capability) (o : ProcessObligationContract) : Prop := {
  oo_event : ob_event o ∈ _EVENTS;
  oo_completion : ob_completion o ∈ _COMPLETION_MODES;
  oo_authority : ob_authority o ∈ _AUTHORITY_KINDS;
  oo_runtime : ob_event o ∈ runtime_events → ob_authority o = "runtime";
  oo_native : ob_event o = "selected-kv-native-arguments-completed" →
    ob_role o = "worker" ∧ ob_completion o = "all";
  oo_direction : ob_direction o ∈ _CAPABILITY_DIRECTIONS;
  oo_declared : declared_in provs reqs (ob_direction o) (ob_capability o);
  oo_quorum : if (ob_completion o =? "quorum")%string
              then ∃ q, ob_quorum o = Some q ∧ (1 ≤ q)%Z else ob_quorum o = None;
}.

Record grant_ok (provs reqs : list Capability) (kind : string) (g : AuthorityGrant) : Prop := {
  go_event : g_event g ∈ _EVENTS;
  go_runtime : g_event g ∈ runtime_events → kind = "runtime";
  go_direction : g_direction g ∈ _CAPABILITY_DIRECTIONS;
  go_declared : declared_in provs reqs (g_direction g) (g_capability g);
}.

Definition resource_ok (r : ContractResource) : Prop :=
  is_identifier (res_name r) = true ∧ res_mode r ∈ _RESOURCE_MODES
  ∧ (res_mode r = "mediated" ↔ is_Some (res_mediator r)).

Section Parsed.
Context `{Packaging}.

Record contract_ok (c : ExtensionContract) : Prop := {
  ok_id : is_identifier (extension_id c) = true;
  ok_version : is_Some (parse_version (ext_version c));
  ok_range : is_Some (parse_specifiers (host_version_range c));
  ok_provides : NoDup (cap_name <$> provides c) ∧ sorted_by cap_name (provides c)
    ∧ Forall (λ cap, is_Some (parse_version (cap_version cap))) (provides c);
  ok_requires : NoDup (cap_name <$> requires c) ∧ sorted_by cap_name (requires c)
    ∧ Forall (λ cap, is_Some (parse_specifiers (cap_version cap))) (requires c);
  ok_resources : NoDup (res_name <$> resources c) ∧ sorted_by res_name (resources c)
    ∧ Forall resource_ok (resources c);
  ok_obligations : process_obligations c ≠ []
    ∧ NoDup (obligation_key <$> process_obligations c)
    ∧ Forall (obligation_ok (provides c) (requires c)) (process_obligations c);
  ok_authority : ∀ kind, kind ∈ _AUTHORITY_KINDS →
    NoDup (grants_of kind (authority c))
    ∧ Forall (grant_ok (provides c) (requires c) kind) (grants_of kind (authority c));
  ok_rollback : NoDup (manager_owned (rollback c))
    ∧ NoDup (external_operator_owned (rollback c));
}.

(** ** Reading the monad *)

Lemma require_ok b d u : require b d = Ok u → b = true.
Proof. by destruct b. Qed.

Lemma require_authority_ok b d u : require_authority b d = Ok u → b = true.
Proof. by destruct b. Qed.

Ltac ok_step :=
  match goal with
  | H : _ ≫= _ = Ok _ |- _ => apply result_bind_ok in H as (? & ? & ?)
  | H : require _ _ = Ok _ |- _ => apply require_ok in H
  | H : require_authority _ _ = Ok _ |- _ => apply require_authority_ok in H
  | H : Ok _ = Ok _ |- _ => injection H as H
  | H : negb (has_dups _) = true |- _ => apply negb_true_iff, has_dups_false in H
  | H : isin _ _ = true |- _ => unfold isin in H; apply bool_decide_eq_true in H
  | H : invalid _ = Ok _ |- _ => discriminate H
  | H : Err _ = Ok _ |- _ => discriminate H
  end.

Ltac ok_run := repeat ok_step; subst; simpl in *.

Lemma map_result_i_nil {A B} (f : nat → A → result B) l ys :
  map_result_i f l = Ok ys → l ≠ [] → ys ≠ [].
Proof. intros [Hlen _]%map_result_i_ok. by destruct l, ys. Qed.

Lemma dict_get_missing fields key value :
  is_dict_with fields value = true → key ∉ fields → dict_get key value = JNull.
Proof.
  destruct value as [| | | | |kvs]; try done. simpl. unfold same_keys. intros Hk Hn. reflect.
  rewrite forallb_forall in *. destruct (assoc key kvs) as [v|] eqn:E; [|done]. destruct Hn.
  assert (key ∈ keys kvs) as Hin by (apply assoc_is_Some; by eexists).
  apply list_elem_of_In, H1 in Hin. by reflect.
Qed.

Lemma sorted_sort_by {A} (key : A → string) l : sorted_by key (sort_by key str_leb l).
Proof. apply sort_by_sorted; eauto with py_db. Qed.

Lemma nodup_sort_by {A K} (key : A → K) leb {B} (f : A → B) l :
  NoDup (f <$> l) → NoDup (f <$> sort_by key leb l).
Proof. by rewrite sort_by_perm. Qed.

(** ** Readers *)

Lemma _string_ok v loc s : _string v loc = Ok s → v = JStr s ∧ trimmed s = true.
Proof. destruct v; try done. simpl. intros. by ok_run. Qed.

Lemma _identifier_ok v loc s : _identifier v loc = Ok s → is_identifier s = true.
Proof. unfold _identifier. intros. by ok_run. Qed.

Lemma _string_array_ok v loc l : _string_array v loc = Ok l → NoDup l.
Proof. unfold _string_array. intros. ok_run. by rewrite sort_by_perm. Qed.

Section Laws.
Context `{!PackagingLaws}.

Lemma public_version_ok v loc s : _public_version v loc = Ok s → is_Some (parse_version s).
Proof.
  unfold _public_version. intros. ok_run. destruct (parse_version _) eqn:E; ok_run.
  rewrite parse_version_str. by eexists.
Qed.

Lemma public_specifier_ok v loc s :
  _public_specifier v loc = Ok s → is_Some (parse_specifiers s).
Proof.
  unfold _public_specifier. intros. ok_run. destruct (parse_specifiers _) eqn:E; ok_run.
  rewrite parse_specifiers_str. by eexists.
Qed.

Lemma _capabilities_ok v loc reqs l :
  _capabilities v loc reqs = Ok l →
  NoDup (cap_name <$> l) ∧ sorted_by cap_name l
  ∧ Forall (λ cap, if reqs : bool then is_Some (parse_specifiers (cap_version cap))
                   else is_Some (parse_version (cap_version cap))) l.
Proof.
  unfold _capabilities. intros. ok_run. split_and!.
  - by apply nodup_sort_by.
  - apply sorted_sort_by.
  - rewrite sort_by_perm. eapply map_result_i_Forall; [|eassumption].
    intros i raw cap Hc. unfold parse_capability in Hc. ok_run.
    destruct reqs; [by eapply public_specifier_ok|by eapply public_version_ok].
Qed.

Lemma runtime_guard event kind :
  negb (isin event runtime_events) || (kind =? "runtime")%string = true →
  event ∈ runtime_events → kind = "runtime".
Proof.
  unfold isin. intros Hg He. rewrite bool_decide_true in Hg by done. simpl in Hg. by reflect.
Qed.

(** The grants of one kind, before the check that their capabilities are declared. *)
Lemma _authority_grants_ok v loc kind l :
  _authority_grants v loc kind = Ok l →
  NoDup l ∧ Forall (λ g, g_event g ∈ _EVENTS ∧ (g_event g ∈ runtime_events → kind = "runtime")
                         ∧ g_direction g ∈ _CAPABILITY_DIRECTIONS) l.
Proof.
  unfold _authority_grants. intros. ok_run. rewrite sort_by_perm. split; [done|].
  eapply map_result_i_Forall; [|eassumption].
  intros i raw g Hg. unfold parse_grant in Hg. ok_run. split_and!; [done| |done].
  by apply runtime_guard.
Qed.

Lemma parse_resources_ok v rs :
  parse_resources v = Ok rs → NoDup (res_name <$> rs) ∧ Forall resource_ok rs.
Proof.
  unfold parse_resources. intros. ok_run. split; [done|].
  eapply map_result_i_Forall; [|eassumption].
  intros i raw r Hr. unfold parse_resource in Hr. ok_run. unfold resource_ok.
  destruct (_ =? _)%string eqn:E; reflect; ok_run;
    (split_and!; [by eapply _identifier_ok|done|]).
  - split; [by eexists|done].
  - split; [done|by intros []].
Qed.

Lemma obligation_body_ok loc completion provs reqs item o :
  (completion ≠ "quorum" → dict_get "quorum" item = JNull) →
  obligation_body loc completion provs reqs item = Ok o → obligation_ok provs reqs o.
Proof.
  intros Hq Hb. unfold obligation_body in Hb. ok_run. reflect. ok_run.
  constructor; simpl; [done|done|done|by apply runtime_guard| |done| |].
  - intros ->. rewrite String.eqb_refl in *. simpl in *. reflect. done.
  - unfold declared in *. ok_run. done.
  - destruct (completion =? "quorum")%string eqn:E; reflect.
    + simpl in *. destruct (dict_get "quorum" item); try done. simpl in *. reflect. eauto.
    + by rewrite Hq.
Qed.

Lemma parse_obligations_ok v provs reqs obs :
  parse_obligations v provs reqs = Ok obs →
  obs ≠ [] ∧ NoDup (obligation_key <$> obs) ∧ Forall (obligation_ok provs reqs) obs.
Proof.
  unfold parse_obligations. intros. ok_run. reflect. split_and!; [by eapply map_result_i_nil|done|].
  eapply map_result_i_Forall; [|eassumption].
  intros i raw o Ho. unfold parse_obligation, _object in Ho. ok_run.
  eapply obligation_body_ok; [|eassumption]. intros Hne.
  rewrite (proj2 (String.eqb_neq _ _) Hne) in *. eapply dict_get_missing; [eassumption|].
  by apply (bool_decide_unpack ("quorum" ∉ obligation_fields)).
Qed.

Lemma check_grants_ok provs reqs a u kind g :
  check_grants provs reqs a = Ok u → kind ∈ _AUTHORITY_KINDS → g ∈ grants_of kind a →
  declared_in provs reqs (g_direction g) (g_capability g).
Proof.
  unfold check_grants. intros (ls & Hm & _)%result_bind_ok Hk Hg.
  assert (kind ∈ sort_by id str_leb _AUTHORITY_KINDS) as Hk' by (by apply elem_of_sort_by).
  apply list_elem_of_lookup in Hk' as [i Hi].
  apply map_result_ok in Hm.
  destruct (Forall2_lookup_l _ _ _ _ _ Hm Hi) as (l & _ & Hl). apply map_result_ok in Hl.
  apply list_elem_of_lookup in Hg as [j Hj].
  destruct (Forall2_lookup_l _ _ _ _ _ Hl Hj) as (t & _ & Ht). ok_run.
  unfold declared in Ht. by ok_run.
Qed.

Lemma parse_authority_ok v provs reqs a u kind :
  parse_authority v = Ok a → check_grants provs reqs a = Ok u → kind ∈ _AUTHORITY_KINDS →
  NoDup (grants_of kind a) ∧ Forall (grant_ok provs reqs kind) (grants_of kind a).
Proof.
  intros Ha Hc Hk.
  assert (NoDup (grants_of kind a) ∧ Forall (λ g, g_event g ∈ _EVENTS
    ∧ (g_event g ∈ runtime_events → kind = "runtime")
    ∧ g_direction g ∈ _CAPABILITY_DIRECTIONS) (grants_of kind a)) as [Hnd Hall].
  { unfold parse_authority in Ha. ok_run.
    unfold _AUTHORITY_KINDS in Hk. rewrite !elem_of_cons in Hk.
    destruct Hk as [->|[->|[->|[]%elem_of_nil]]]; simpl; by eapply _authority_grants_ok. }
  split; [done|]. apply Forall_forall. intros g Hg. rewrite Forall_forall in Hall.
  destruct (Hall g Hg) as (? & ? & ?). constructor; [done..|]. by eapply check_grants_ok.
Qed.

Context `{Sha256}.

Lemma parse_contract_ok payload c :
  parse_contract payload = Ok c → contract_ok c.
Proof.
  unfold parse_contract, _object. intros Hp. ok_run.
  repeat match goal with H : _capabilities _ _ _ = Ok _ |- _ => apply _capabilities_ok in H end.
  repeat match goal with H : _string_array _ _ = Ok _ |- _ => apply _string_array_ok in H end.
  match goal with H : parse_resources _ = Ok _ |- _ => apply parse_resources_ok in H as [? ?] end.
  match goal with H : parse_obligations _ _ _ = Ok _ |- _ =>
    apply parse_obligations_ok in H as (? & ? & ?) end.
  constructor; simpl; [by eapply _identifier_ok|by eapply public_version_ok
    |by eapply public_specifier_ok|done|done| | | |done].
  - split_and!; [by apply nodup_sort_by|apply sorted_sort_by|by rewrite sort_by_perm].
  - split_and!; [|by apply nodup_sort_by|by rewrite sort_by_perm]. intros Hn.
    match goal with H : ?l ≠ [] |- _ => destruct H; apply Permutation_nil_r; rewrite <-Hn end.
    by rewrite sort_by_perm.
  - intros kind Hk. by eapply parse_authority_ok.
Qed.

End Laws.

(** ** The taxonomy *)

(** Every name of a parsed taxonomy, canonical or alias, belongs to one resource. *)
Record taxonomy_ok (t : ContractTaxonomy) : Prop := {
  to_names : NoDup (tax_resources t ≫= resource_names);
  to_capabilities : NoDup (tax_capabilities t);
  to_modes : Forall (λ r, allowed_modes r ≠ []
    ∧ ∀ m, m ∈ allowed_modes r → m ∈ _RESOURCE_MODES) (tax_resources t);
  to_identifiers : ∀ r name, r ∈ tax_resources t → name ∈ resource_names r →
    is_identifier name = true;
}.

Lemma parse_taxonomy_resource_ok i raw r :
  parse_taxonomy_resource i raw = Ok r →
  (allowed_modes r ≠ [] ∧ ∀ m, m ∈ allowed_modes r → m ∈ _RESOURCE_MODES)
  ∧ ∀ name, name ∈ resource_names r → is_identifier name = true.
Proof.
  unfold parse_taxonomy_resource, _object. intros. ok_run. reflect. split.
  - split; [done|]. intros m Hm.
    match goal with H : forallb _ _ = true |- _ => rewrite forallb_forall in H;
      apply list_elem_of_In, H in Hm end. unfold isin in Hm. by reflect.
  - intros name [->|Hn]%elem_of_cons; [by eapply _identifier_ok|].
    apply list_elem_of_lookup in Hn as [j Hj].
    match goal with H : map_result_i _ _ = Ok ?ys |- _ => apply map_result_i_ok in H as [Hlen Hm];
      destruct (lookup_lt_is_Some_2 ys j) as [y Hy];
        [rewrite Hlen; by eapply lookup_lt_Some|] end.
    specialize (Hm j name y Hj Hy). apply _identifier_ok in Hm as Hid.
    unfold _identifier in Hm. simpl in Hm. ok_run. done.
Qed.

Lemma bind_perm {A B} (f : A → list B) l l' : l ≡ₚ l' → l ≫= f ≡ₚ l' ≫= f.
Proof. intros Hp. by rewrite Hp. Qed.

Lemma parse_taxonomy_ok payload t : parse_contract_taxonomy payload = Ok t → taxonomy_ok t.
Proof.
  unfold parse_contract_taxonomy, _object. intros. ok_run.
  match goal with H : map_result_i parse_taxonomy_resource _ = Ok _ |- _ => rename H into Hr end.
  assert (Hall := map_result_i_Forall _ _ _ _ parse_taxonomy_resource_ok Hr).
  rewrite Forall_forall in Hall. constructor; simpl.
  - by rewrite (bind_perm _ _ _ (sort_by_perm canonical str_leb _)).
  - by rewrite sort_by_perm.
  - rewrite sort_by_perm. apply Forall_forall. intros r Hx. by apply Hall.
  - intros r name Hin. apply elem_of_sort_by in Hin. by apply Hall.
Qed.

(** In a parsed taxonomy a name resolves to the resource that declares it, and a canonical name
    to itself. *)
Lemma nodup_bind_unique (l : list TaxonomyResource) name r r' :
  NoDup (l ≫= resource_names) → r ∈ l → r' ∈ l →
  name ∈ resource_names r → name ∈ resource_names r' → r = r'.
Proof.
  induction l as [|x l IH]; [by intros _ ?%elem_of_nil|].
  change ((x :: l) ≫= resource_names) with (resource_names x ++ (l ≫= resource_names)).
  intros (_ & Hd & Hl)%NoDup_app Hr Hr' Hn Hn'.
  assert (∀ y, y ∈ l → name ∈ resource_names y → name ∈ l ≫= resource_names) as Hy.
  { intros y ? ?. apply list_elem_of_bind. by exists y. }
  apply elem_of_cons in Hr as [->|Hr]; apply elem_of_cons in Hr' as [->|Hr']; [done| | |eauto].
  - destruct (Hd name Hn). by eapply Hy.
  - destruct (Hd name Hn'). by eapply Hy.
Qed.

End Parsed.
