(* ===== verification/ContractCompiler.v ===== *)
(** * ContractCompiler: from contracts to a plan (contract_compiler.py, second half)

    Capability resolution, dependency order, resource ownership, taxonomy normalisation,
    obligation authority and binding, and [compile_contracts] itself.  Dictionaries whose order
    shows are association lists, [indegree] and [dependents] are [gmap]s, a heap is the sorted
    list of its elements. *)

From S2P Require Import Prelude Effects Json Sha256 ContractParser.
From S2P Require EcpaModel.

Local Open Scope string_scope.
Local Open Scope list_scope.

(** ** Plans *)

Record CapabilityBinding := mkBinding {
  b_capability : string; required_range : string; consumer : string; provider : string;
  provided_version : string }.

Record ResourceOwnership := mkOwnership {
  o_resource : string; o_mode : string; owners : list string; o_mediator : option string }.

Record ObligationBinding := mkObligationBinding {
  ob_extension_id : string; obb_role : string; obb_event : string; obb_completion : string;
  obb_authority : string; obb_direction : string; obb_capability : string;
  capability_provider : string; obb_quorum : option Z }.

Record ContractPlan := mkPlan {
  plan_runtime : string; plan_version : string; ordered_contracts : list ExtensionContract;
  capability_bindings : list CapabilityBinding; resource_ownership : list ResourceOwnership;
  obligation_bindings : list ObligationBinding }.

#[export] Instance CapabilityBinding_eq_dec : EqDecision CapabilityBinding.
Proof. solve_decision. Defined.
#[export] Instance ResourceOwnership_eq_dec : EqDecision ResourceOwnership.
Proof. solve_decision. Defined.
#[export] Instance ObligationBinding_eq_dec : EqDecision ObligationBinding.
Proof. solve_decision. Defined.
#[export] Instance ContractPlan_eq_dec : EqDecision ContractPlan.
Proof. solve_decision. Defined.

(** *** [asdict] *)

#[export] Instance Capability_json : ToJson Capability := λ c,
  JObj [("name", JStr (cap_name c)); ("version", JStr (cap_version c))].
#[export] Instance ContractResource_json : ToJson ContractResource := λ r,
  JObj [("name", JStr (res_name r)); ("mode", JStr (res_mode r));
        ("mediator", to_json (res_mediator r))].
#[export] Instance ProcessObligationContract_json : ToJson ProcessObligationContract := λ o,
  JObj [("role", JStr (ob_role o)); ("event", JStr (ob_event o));
        ("completion", JStr (ob_completion o)); ("authority", JStr (ob_authority o));
        ("capability_direction", JStr (ob_direction o));
        ("capability", JStr (ob_capability o)); ("quorum", to_json (ob_quorum o))].
#[export] Instance RollbackContract_json : ToJson RollbackContract := λ r,
  JObj [("manager_owned", to_json (manager_owned r));
        ("external_operator_owned", to_json (external_operator_owned r))].
#[export] Instance AuthorityGrant_json : ToJson AuthorityGrant := λ g,
  JObj [("role", JStr (g_role g)); ("event", JStr (g_event g));
        ("capability_direction", JStr (g_direction g)); ("capability", JStr (g_capability g))].
#[export] Instance AuthorityContract_json : ToJson AuthorityContract := λ a,
  JObj [("provider", to_json (auth_provider a)); ("runtime", to_json (auth_runtime a));
        ("external", to_json (auth_external a))].
#[export] Instance ExtensionContract_json : ToJson ExtensionContract := λ c,
  JObj [("extension_id", JStr (extension_id c)); ("version", JStr (ext_version c));
        ("manifest_sha256", JStr (manifest_sha256 c)); ("host_runtime", JStr (host_runtime c));
        ("host_version_range", JStr (host_version_range c));
        ("provides", to_json (provides c)); ("requires", to_json (requires c));
        ("resources", to_json (resources c));
        ("process_obligations", to_json (process_obligations c));
        ("rollback", to_json (rollback c)); ("authority", to_json (authority c))].
#[export] Instance CapabilityBinding_json : ToJson CapabilityBinding := λ b,
  JObj [("capability", JStr (b_capability b)); ("required_range", JStr (required_range b));
        ("consumer", JStr (consumer b)); ("provider", JStr (provider b));
        ("provided_version", JStr (provided_version b))].
#[export] Instance ResourceOwnership_json : ToJson ResourceOwnership := λ o,
  JObj [("resource", JStr (o_resource o)); ("mode", JStr (o_mode o));
        ("owners", to_json (owners o)); ("mediator", to_json (o_mediator o))].
#[export] Instance ObligationBinding_json : ToJson ObligationBinding := λ o,
  JObj [("extension_id", JStr (ob_extension_id o)); ("role", JStr (obb_role o));
        ("event", JStr (obb_event o)); ("completion", JStr (obb_completion o));
        ("authority", JStr (obb_authority o)); ("capability_direction", JStr (obb_direction o));
        ("capability", JStr (obb_capability o));
        ("capability_provider", JStr (capability_provider o));
        ("quorum", to_json (obb_quorum o))].
#[export] Instance ContractPlan_json : ToJson ContractPlan := λ p,
  JObj [("host_runtime", JStr (plan_runtime p)); ("host_version", JStr (plan_version p));
        ("ordered_contracts", to_json (ordered_contracts p));
        ("capability_bindings", to_json (capability_bindings p));
        ("resource_ownership", to_json (resource_ownership p));
        ("obligation_bindings", to_json (obligation_bindings p))].

(** [ContractPlan.plan_id]. *)
Definition plan_id `{Sha256} (p : ContractPlan) : string :=
  EcpaModel.content_id "contract-plan" (to_json p).

(** ** Dictionaries of lists *)

(** [d.setdefault(k, []).append(x)]. *)
Definition setdefault_append {A} (d : list (string * list A)) (kx : string * A)
    : list (string * list A) :=
  dict_set kx.1 (default [] (assoc kx.1 d) ++ [kx.2]) d.

Definition group {A} (kxs : list (string * A)) : list (string * list A) :=
  fold_left setdefault_append kxs [].

Definition fail {A} (code : PlanningErrorCode.t) (detail : string) : result A :=
  Err (ContractPlanningError code detail).

Section Compiler.
Context `{Packaging}.

(** ** Capabilities *)

(** [Version(raw)] and [SpecifierSet(raw)] outside the parser: their exceptions are
    [ValueError]s nobody catches. *)
Definition the_version (raw : string) : result Version :=
  match parse_version raw with
  | Some v => Ok v
  | None => Err (ValueError ("Invalid version: '" +:+ raw +:+ "'"))
  end.

Definition the_specifiers (raw : string) : result SpecifierSet :=
  match parse_specifiers raw with
  | Some s => Ok s
  | None => Err (ValueError ("Invalid specifier: '" +:+ raw +:+ "'"))
  end.

Definition provider_list (contracts : list ExtensionContract)
    : list (string * list (ExtensionContract * Capability)) :=
  group (contracts ≫= λ c, (λ cap, (cap_name cap, (c, cap))) <$> provides c).

(** [Version(candidate[1].version) in SpecifierSet(requirement.version)]. *)
Definition compatible (requirement : Capability) (candidate : ExtensionContract * Capability)
    : result bool :=
  v ← the_version (cap_version candidate.2);
  s ← the_specifiers (cap_version requirement);
  Ok (version_in v s).

(** [[x for x in xs if f(x)]] with a test that may raise. *)
Fixpoint filter_result {A} (f : A → result bool) (l : list A) : result (list A) :=
  match l with
  | [] => Ok []
  | x :: l' => b ← f x; l'' ← filter_result f l'; Ok (if b : bool then x :: l'' else l'')
  end.

Definition bind_requirement (providers : list (string * list (ExtensionContract * Capability)))
    (c : ExtensionContract) (requirement : Capability) : result CapabilityBinding :=
  let candidates := default [] (assoc (cap_name requirement) providers) in
  matching ← filter_result (compatible requirement) candidates;
  match matching with
  | [] =>
      fail (if decide (candidates = []) then PlanningErrorCode.MISSING_CAPABILITY
            else PlanningErrorCode.INCOMPATIBLE_CAPABILITY)
        (extension_id c +:+ " requires " +:+ cap_name requirement +:+ cap_version requirement)
  | [(p, provision)] =>
      Ok (mkBinding (cap_name requirement) (cap_version requirement) (extension_id c)
            (extension_id p) (cap_version provision))
  | _ =>
      fail PlanningErrorCode.AMBIGUOUS_CAPABILITY
        (extension_id c +:+ " requirement " +:+ cap_name requirement +:+ " matches "
         +:+ list_repr (sort_by id str_leb ((λ x, extension_id x.1) <$> matching)))
  end.

Definition binding_key (b : CapabilityBinding) : list string := [consumer b; b_capability b].

(** [if provider != consumer: dependencies[consumer].add(provider)]. *)
Definition add_dependency (d : list (string * gset string)) (b : CapabilityBinding)
    : list (string * gset string) :=
  if (provider b =? consumer b)%string then d
  else dict_set (consumer b) ({[provider b]} ∪ default ∅ (assoc (consumer b) d)) d.

Definition dependencies_of (contracts : list ExtensionContract)
    (bindings : list CapabilityBinding) : list (string * gset string) :=
  fold_left add_dependency bindings
    (fold_left (λ d c, dict_set (extension_id c) ∅ d) contracts []).

Definition resolve_capabilities (contracts : list ExtensionContract)
    : result (list CapabilityBinding * list (string * gset string)) :=
  let providers := provider_list contracts in
  bindings ← map_result (λ c, map_result (bind_requirement providers c) (requires c)) contracts;
  let bindings := concat bindings in
  Ok (sort_by binding_key strs_leb bindings, dependencies_of contracts bindings).

(** ** Order *)

Definition add_dependent (c : string) (d : gmap string (gset string)) (p : string)
    : gmap string (gset string) := alter (λ s, {[c]} ∪ s) p d.

(** [for consumer, required in dependencies.items(): for provider in required: ...]; the
    providers are keys of [by_id]. *)
Definition dependents_of (ids : list string) (dependencies : list (string * gset string))
    : gmap string (gset string) :=
  fold_left (λ d cr, fold_left (add_dependent cr.1) (elements cr.2) d) dependencies
    (list_to_map ((λ i, (i, ∅)) <$> ids)).

Definition indegree_of (dependencies : list (string * gset string)) : gmap string Z :=
  list_to_map ((λ cr, (cr.1, Z.of_nat (size cr.2))) <$> dependencies).

(** The body of [for dependent in sorted(dependents[extension_id])]. *)
Definition release (st : gmap string Z * list string) (dependent : string)
    : gmap string Z * list string :=
  let indegree := alter (λ n, n - 1)%Z dependent st.1 in
  (indegree,
   if decide (indegree !! dependent = Some 0%Z) then insert_by id str_leb dependent st.2
   else st.2).

(** [while ready: ...]; [fuel] bounds the number of pops. *)
Fixpoint order_loop (fuel : nat) (dependents : gmap string (gset string))
    (indegree : gmap string Z) (ready ordered : list string) : list string * gmap string Z :=
  match fuel, ready with
  | S fuel', extension_id :: ready' =>
      let st := fold_left release
        (sort_by id str_leb (elements (default ∅ (dependents !! extension_id))))
        (indegree, ready') in
      order_loop fuel' dependents st.1 st.2 (ordered ++ [extension_id])
  | _, _ => (ordered, indegree)
  end.

Definition find_contract (contracts : list ExtensionContract) (i : string)
    : option ExtensionContract :=
  find_last (λ c, extension_id c =? i)%string contracts.

Definition order_ids (ids : list string) (dependencies : list (string * gset string))
    : list string * gmap string Z :=
  let indegree := indegree_of dependencies in
  let ready := (List.filter (λ cr, size cr.2 =? 0)%nat dependencies).*1 in
  order_loop (length ids) (dependents_of ids dependencies) indegree
    (sort_by id str_leb ready) [].

Definition order_contracts (contracts : list ExtensionContract)
    (dependencies : list (string * gset string)) : result (list ExtensionContract) :=
  let st := order_ids (extension_id <$> contracts) dependencies in
  if decide (length st.1 = length contracts) then
    Ok (omap (find_contract contracts) st.1)
  else
    let cycle := sort_by id str_leb
      (List.filter (λ i, negb (default 0 (st.2 !! i) =? 0))%Z dependencies.*1) in
    fail PlanningErrorCode.DEPENDENCY_CYCLE
      ("capability dependency cycle includes " +:+ list_repr cycle).

(** ** Resources *)

(** One entry of [summaries]. *)
Record summary := mkSummary {
  s_name : string; s_claims : list (string * ContractResource); s_owners : list string;
  s_modes : gset string; s_mediators : gset (option string) }.

Definition resource_claims (contracts : list ExtensionContract)
    : list (string * list (string * ContractResource)) :=
  group (contracts ≫= λ c, (λ r, (res_name r, (extension_id c, r))) <$> resources c).

Definition summarize (item : string * list (string * ContractResource)) : summary :=
  mkSummary item.1 item.2 (sort_by id str_leb item.2.*1)
    (list_to_set ((λ cl, res_mode cl.2) <$> item.2))
    (list_to_set ((λ cl, res_mediator cl.2) <$> item.2)).

Definition summaries (contracts : list ExtensionContract) : list summary :=
  summarize <$> sort_by fst str_leb (resource_claims contracts).

Definition mode_error (s : summary) : bool :=
  has_dups (s_owners s)
  || (1 <? length (s_claims s))%nat
     && negb (bool_decide (s_modes s = {["shared-read"]})
              || bool_decide (s_modes s = {["mediated"]})).

Definition all_mediated (s : summary) : bool := bool_decide (s_modes s = {["mediated"]}).

Definition consistency_error (s : summary) : bool :=
  all_mediated s && negb (size (s_mediators s) =? 1)%nat.

(** [next(iter(mediators))]. *)
Definition the_mediator (s : summary) : option string :=
  match elements (s_mediators s) with m :: _ => m | [] => None end.

Definition presence_error (s : summary) : bool :=
  all_mediated s
  && negb (match the_mediator s with Some m => isin m (s_owners s) | None => false end).

Definition ownership (s : summary) : ResourceOwnership :=
  if all_mediated s then mkOwnership (s_name s) "mediated" (s_owners s) (the_mediator s)
  else match s_claims s with
  | [(_, r)] => mkOwnership (s_name s) (res_mode r) (s_owners s) (res_mediator r)
  | _ => mkOwnership (s_name s) "shared-read" (s_owners s) None
  end.

(** [f"{mediator!r}"]. *)
Definition mediator_repr (m : option string) : string :=
  match m with Some s => "'" +:+ s +:+ "'" | None => "None" end.

Definition resolve_resources (contracts : list ExtensionContract)
    : result (list ResourceOwnership) :=
  let all := summaries contracts in
  match List.filter mode_error all with
  | s :: _ =>
      fail PlanningErrorCode.RESOURCE_CONFLICT
        (s_name s +:+ " has incompatible or duplicate claims from " +:+ list_repr (s_owners s))
  | [] =>
  match List.filter consistency_error all with
  | s :: _ =>
      fail PlanningErrorCode.RESOURCE_CONFLICT
        (s_name s +:+ " has inconsistent mediators from " +:+ list_repr (s_owners s))
  | [] =>
  match List.filter presence_error all with
  | s :: _ =>
      fail PlanningErrorCode.AUTHORITY_VIOLATION
        (s_name s +:+ " mediator " +:+ mediator_repr (the_mediator s)
         +:+ " has no selected ownership claim")
  | [] => Ok (ownership <$> all)
  end end end.

(** ** The taxonomy *)

(** The comprehension [lookup]: the last resource declaring a name wins. *)
Definition tax_lookup (taxonomy : ContractTaxonomy) (name : string) : option TaxonomyResource :=
  find_last (λ r, isin name (resource_names r)) (tax_resources taxonomy).

Definition all_claims (contracts : list ExtensionContract)
    : list (ExtensionContract * ContractResource) :=
  contracts ≫= λ c, pair c <$> resources c.

Definition unknown_claims (taxonomy : ContractTaxonomy) (contracts : list ExtensionContract)
    : list (list string) :=
  omap (λ cr, match tax_lookup taxonomy (res_name cr.2) with
              | None => Some [extension_id cr.1; res_name cr.2]
              | Some _ => None
              end) (all_claims contracts).

Definition invalid_modes (taxonomy : ContractTaxonomy) (contracts : list ExtensionContract)
    : list (list string) :=
  omap (λ cr, match tax_lookup taxonomy (res_name cr.2) with
              | Some r =>
                  if isin (res_mode cr.2) (allowed_modes r) then None
                  else Some [extension_id cr.1; canonical r; res_mode cr.2]
              | None => None
              end) (all_claims contracts).

Definition normalize_claim (taxonomy : ContractTaxonomy) (claim : ContractResource)
    : ContractResource :=
  match tax_lookup taxonomy (res_name claim) with
  | Some rule => mkResource (canonical rule) (res_mode claim) (res_mediator claim)
  | None => claim
  end.

(** [replace(contract, resources=...)]. *)
Definition with_resources (rs : list ContractResource) (c : ExtensionContract)
    : ExtensionContract :=
  mkContract (extension_id c) (ext_version c) (manifest_sha256 c) (host_runtime c)
    (host_version_range c) (provides c) (requires c) rs (process_obligations c) (rollback c)
    (authority c).

Definition normalize_contract (taxonomy : ContractTaxonomy) (c : ExtensionContract)
    : ExtensionContract :=
  with_resources (sort_by res_name str_leb (normalize_claim taxonomy <$> resources c)) c.

Definition normalize_taxonomy_resources (contracts : list ExtensionContract)
    (taxonomy : ContractTaxonomy) : result (list ExtensionContract) :=
  match sort_by id strs_leb (unknown_claims taxonomy contracts) with
  | row :: _ =>
      fail PlanningErrorCode.UNKNOWN_RESOURCE
        (nth 0 row EmptyString +:+ " claims unknown resource " +:+ nth 1 row EmptyString)
  | [] =>
  match sort_by id strs_leb (invalid_modes taxonomy contracts) with
  | row :: _ =>
      match tax_lookup taxonomy (nth 1 row EmptyString) with
      | Some r =>
          fail PlanningErrorCode.INVALID_RESOURCE_MODE
            (nth 0 row EmptyString +:+ " claims " +:+ nth 1 row EmptyString +:+ " as "
             +:+ nth 2 row EmptyString +:+ "; allowed modes are " +:+ list_repr (allowed_modes r))
      | None => Err (KeyError (nth 1 row EmptyString))
      end
  | [] => Ok (normalize_contract taxonomy <$> contracts)
  end end.

(** ** Obligations *)

Definition expected_grant (o : ProcessObligationContract) : AuthorityGrant :=
  mkGrant (ob_role o) (ob_event o) (ob_direction o) (ob_capability o).

Definition check_obligation (c : ExtensionContract) (o : ProcessObligationContract)
    : result unit :=
  require_authority (bool_decide (expected_grant o ∈ grants_of (ob_authority o) (authority c)))
    (extension_id c +:+ " obligation " +:+ ob_role o +:+ "/" +:+ ob_event o +:+ "/"
     +:+ ob_direction o +:+ "/" +:+ ob_capability o +:+ " has no matching " +:+ ob_authority o
     +:+ " authority grant").

Definition validate_obligation_authority (contracts : list ExtensionContract) : result unit :=
  _ ← map_result (λ c, map_result (check_obligation c) (process_obligations c)) contracts;
  Ok tt.

(** [requirement_providers[(consumer, capability)]]: the last binding with the key. *)
Definition requirement_provider (bindings : list CapabilityBinding) (c cap : string)
    : option string :=
  provider <$> find_last
    (λ b, (consumer b =? c)%string && (b_capability b =? cap)%string) bindings.

Definition bind_obligation (bindings : list CapabilityBinding) (c : ExtensionContract)
    (o : ProcessObligationContract) : result ObligationBinding :=
  p ← (if (ob_direction o =? "requires")%string then
         match requirement_provider bindings (extension_id c) (ob_capability o) with
         | Some p => Ok p
         | None => Err (KeyError (ob_capability o))
         end
       else Ok (extension_id c));
  Ok {| ob_extension_id := extension_id c; obb_role := ob_role o; obb_event := ob_event o;
        obb_completion := ob_completion o; obb_authority := ob_authority o;
        obb_direction := ob_direction o; obb_capability := ob_capability o;
        capability_provider := p; obb_quorum := ob_quorum o |}.

Definition obligation_binding_key (o : ObligationBinding) : list string :=
  [ob_extension_id o; obb_role o; obb_event o; obb_direction o; obb_capability o].

Definition bind_obligations (contracts : list ExtensionContract)
    (bindings : list CapabilityBinding) : result (list ObligationBinding) :=
  result ← map_result (λ c, map_result (bind_obligation bindings c) (process_obligations c))
             contracts;
  Ok (sort_by obligation_binding_key strs_leb (concat result)).

(** ** The compiler *)

Definition check_host (runtime : string) (version : Version) (c : ExtensionContract)
    : result unit :=
  compatible ←
    (if (host_runtime c =? runtime)%string then
       s ← the_specifiers (host_version_range c); Ok (version_in version s)
     else Ok false);
  check compatible (ContractPlanningError PlanningErrorCode.INCOMPATIBLE_HOST
    (extension_id c +:+ " requires " +:+ host_runtime c +:+ host_version_range c)).

(** The plan of contracts that have passed the host check, in order of their ids. *)
Definition compile_normalized (runtime : string) (version : Version)
    (resource_taxonomy : option ContractTaxonomy) (contracts : list ExtensionContract)
    : result ContractPlan :=
  let normalized := sort_by extension_id str_leb contracts in
  normalized ← match resource_taxonomy with
               | Some t => normalize_taxonomy_resources normalized t
               | None => Ok normalized
               end;
  _ ← validate_obligation_authority normalized;
  '(bindings, dependencies) ← resolve_capabilities normalized;
  ordered ← order_contracts normalized dependencies;
  rs ← resolve_resources normalized;
  obligations ← bind_obligations normalized bindings;
  Ok (mkPlan runtime (version_str version) ordered bindings rs obligations).

Definition compile_contracts (contracts : list ExtensionContract) (host_runtime host_version : json)
    (resource_taxonomy : option ContractTaxonomy) : result ContractPlan :=
  _ ← require (negb (bool_decide (contracts = []))) "at least one contract is required";
  runtime ← _string host_runtime "host_runtime";
  public ← _public_version host_version "host_version";
  version ← the_version public;
  _ ← check (negb (has_dups (extension_id <$> contracts)))
        (ContractPlanningError PlanningErrorCode.DUPLICATE_PLUGIN "extension ids must be unique");
  _ ← map_result (check_host runtime version) contracts;
  compile_normalized runtime version resource_taxonomy contracts.

End Compiler.
