(* ===== verification/ContractOrder.v ===== *)
(** * ContractOrder: the dependency order is the least topological order

    Correctness of [_order_contracts]: the loop ends within one pop per contract, the order it
    computes places every extension after those it depends on and always takes the smallest
    extension that may come next, and it stops short exactly on a dependency cycle. *)

From S2P Require Import Prelude Effects Json ContractParser ContractCompiler.

Local Open Scope list_scope.

Definition str_le (x y : string) : Prop := str_leb x y = true.

(** [required] of an extension. *)
Definition dep (deps : list (string * gset string)) (i : string) : gset string :=
  default ∅ (assoc i deps).

(** [y] is one of the extensions [x] needs. *)
Definition needs (deps : list (string * gset string)) (x y : string) : Prop := y ∈ dep deps x.

(** The specification of the order: every extension comes after those it needs, and is the
    smallest of the extensions whose needs are met at its place. *)
Definition least_topological (deps : list (string * gset string)) (order : list string) : Prop :=
  ∀ before x after, order = before ++ x :: after →
    dep deps x ⊆ list_to_set before
    ∧ ∀ y, y ∈ deps.*1 → y ∉ before → dep deps y ⊆ list_to_set before → str_le x y.

(** ** Lists, maps and cycles *)

Lemma elem_of_assoc {A} (d : list (string * A)) i x :
  NoDup d.*1 → (i, x) ∈ d ↔ assoc i d = Some x.
Proof.
  intros Hnd. split; [|apply assoc_elem_of].
  induction d as [|[k y] d IH]; [by intros ?%elem_of_nil|]. simpl in *.
  apply NoDup_cons in Hnd as [Hk Hnd]. rewrite elem_of_cons.
  intros [[= -> ->]|Hin]; [by rewrite String.eqb_refl|].
  destruct (k =? i)%string eqn:E; reflect; [|by apply IH].
  subst. destruct Hk. apply list_elem_of_fmap. by exists (i, x).
Qed.

Lemma size_insert (X : gset string) e : e ∉ X → size ({[e]} ∪ X) = S (size X).
Proof. intros He. rewrite size_union by set_solver. by rewrite size_singleton. Qed.

Lemma subseteq_empty_difference_L_inv (X Y : gset string) : X ∖ Y = ∅ → X ⊆ Y.
Proof. intros H x Hx. destruct (decide (x ∈ Y)); [done|]. set_solver. Qed.

Lemma elem_of_dep deps i y : NoDup deps.*1 → y ∈ dep deps i ↔ ∃ s, (i, s) ∈ deps ∧ y ∈ s.
Proof.
  intros Hnd. unfold dep. setoid_rewrite elem_of_assoc; [|done].
  destruct (assoc i deps); simpl; set_solver.
Qed.

(** A walk that never leaves a finite set runs into itself. *)
Lemma walk_cycle (R : string → string → Prop) (C : gset string) k x (visited : list string) :
  (∀ z, z ∈ C → ∃ y, y ∈ C ∧ R z y) → x ∈ C → NoDup visited →
  (∀ v, v ∈ visited → v ∈ C ∧ tc R v x) → size C < length visited + k →
  ∃ z, tc R z z.
Proof.
  intros Hsucc. revert x visited. induction k as [|k IH]; intros x vs Hx Hnd Hvs Hsize.
  - exfalso. assert (list_to_set vs ⊆ C) as Hsub by set_solver.
    apply subseteq_size in Hsub. rewrite size_list_to_set in Hsub by done. lia.
  - destruct (decide (x ∈ vs)) as [Hin|Hin]; [exists x; by apply Hvs|].
    destruct (Hsucc x Hx) as (y & Hy & Hxy).
    apply (IH y (x :: vs)); [done|by constructor| |simpl; lia].
    intros v [->|Hv]%elem_of_cons; [split; [done|by apply tc_once]|].
    destruct (Hvs v Hv) as [? Hvx]. split; [done|]. by eapply tc_r.
Qed.

Lemma topological_acyclic deps order x y before after :
  least_topological deps order → tc (needs deps) x y → order = before ++ x :: after →
  y ∈ before.
Proof.
  intros Htop Hxy. revert before after. induction Hxy as [x y Hxy|x z y Hxz Hzy IH];
    intros before after ->.
  - apply (elem_of_list_to_set (C := gset string)). by apply (Htop before x after).
  - destruct (Htop before x after eq_refl) as [Hdep _].
    assert (z ∈ before) as Hz by (apply (elem_of_list_to_set (C := gset string)), Hdep, Hxz).
    apply list_elem_of_split in Hz as (l1 & l2 & ->).
    assert (y ∈ l1) as Hy.
    { apply (IH l1 (l2 ++ x :: after)). by rewrite <-app_assoc. }
    set_solver.
Qed.

(** ** The dictionaries of the loop *)

Lemma add_dependents_spec c ps d p x :
  x ∈ default ∅ (fold_left (add_dependent c) ps d !! p) ↔
  x ∈ default ∅ (d !! p) ∨ x = c ∧ p ∈ ps ∧ is_Some (d !! p).
Proof.
  revert d. induction ps as [|q ps IH]; intros d; simpl; [set_solver|].
  rewrite IH. unfold add_dependent. destruct (decide (q = p)) as [->|Hne].
  - rewrite lookup_alter_eq. destruct (d !! p) as [s|]; simpl; [set_solver|].
    rewrite <-!not_eq_None_Some. set_solver.
  - rewrite lookup_alter_ne by done. set_solver.
Qed.

Lemma add_dependents_dom c ps d p :
  is_Some (fold_left (add_dependent c) ps d !! p) ↔ is_Some (d !! p).
Proof.
  revert d. induction ps as [|q ps IH]; intros d; simpl; [done|].
  rewrite IH. unfold add_dependent. by rewrite lookup_alter_is_Some.
Qed.

Lemma dependents_fold deps d p x :
  x ∈ default ∅ (fold_left (λ d cr, fold_left (add_dependent cr.1) (elements cr.2) d) deps d !! p)
  ↔ x ∈ default ∅ (d !! p) ∨ is_Some (d !! p) ∧ ∃ s, (x, s) ∈ deps ∧ p ∈ (s : gset string).
Proof.
  revert d. induction deps as [|[c s] deps IH]; intros d; simpl.
  - split; [auto|]. intros [?|(_ & ? & []%elem_of_nil & _)]; done.
  - rewrite IH, add_dependents_spec, add_dependents_dom, elem_of_elements.
    setoid_rewrite elem_of_cons. naive_solver.
Qed.

Lemma dependents_spec deps p x :
  NoDup deps.*1 → p ∈ deps.*1 →
  x ∈ default ∅ (dependents_of deps.*1 deps !! p) ↔ p ∈ dep deps x.
Proof.
  intros Hnd Hp. unfold dependents_of. rewrite dependents_fold, elem_of_dep by done.
  assert (Hl : (list_to_map ((λ i, (i, ∅)) <$> deps.*1) : gmap string (gset string)) !! p = Some ∅).
  { apply elem_of_list_to_map_1; [|by apply (list_elem_of_fmap_2 (λ i, (i, ∅)))].
    rewrite <-list_fmap_compose. by rewrite (list_fmap_id). }
  rewrite Hl. simpl. split; [|by eauto]. set_solver.
Qed.

Lemma indegree_spec deps i :
  NoDup deps.*1 → i ∈ deps.*1 → indegree_of deps !! i = Some (Z.of_nat (size (dep deps i))).
Proof.
  intros Hnd Hi. unfold indegree_of. apply elem_of_list_to_map_1.
  - rewrite <-list_fmap_compose. done.
  - apply list_elem_of_fmap in Hi as ([k s] & -> & Hin). simpl.
    apply list_elem_of_fmap. exists (k, s). split; [|done]. simpl.
    unfold dep. apply elem_of_assoc in Hin; [|done]. by rewrite Hin.
Qed.

Lemma release_spec l ind r :
  NoDup l →
  let st := fold_left release l (ind, r) in
  (∀ i, st.1 !! i = if decide (i ∈ l) then (λ n, n - 1)%Z <$> ind !! i else ind !! i)
  ∧ st.2 ≡ₚ List.filter (λ i, bool_decide (ind !! i = Some 1%Z)) l ++ r
  ∧ (StronglySorted str_le r → StronglySorted str_le st.2).
Proof.
  revert ind r. induction l as [|x l IH]; intros ind r Hnd; simpl; [done|].
  apply NoDup_cons in Hnd as [Hx Hnd]. unfold release at 2 4 6. simpl.
  set (ind' := alter (λ n, n - 1)%Z x ind).
  set (r' := if decide (ind' !! x = Some 0%Z) then insert_by id str_leb x r else r).
  destruct (IH ind' r' Hnd) as (H1 & H2 & H3). split_and!.
  - intros i. rewrite H1. unfold ind'. destruct (decide (i = x)) as [->|Hne].
    + rewrite decide_False by done. rewrite decide_True by set_solver.
      by rewrite lookup_alter_eq.
    + rewrite lookup_alter_ne by done. by rewrite (decide_ext (i ∈ x :: l) (i ∈ l)) by set_solver.
  - rewrite H2. assert (List.filter (λ i, bool_decide (ind' !! i = Some 1%Z)) l
      = List.filter (λ i, bool_decide (ind !! i = Some 1%Z)) l) as ->.
    { apply List.filter_ext_in. intros i Hi%list_elem_of_In. unfold ind'.
      rewrite lookup_alter_ne by (by intros ->). done. }
    unfold r', ind'. rewrite lookup_alter_eq. destruct (ind !! x) as [n|] eqn:En; simpl.
    + destruct (decide (n = 1%Z)) as [->|Hn].
      * rewrite decide_True, bool_decide_true by done. rewrite insert_by_perm. simpl.
        by rewrite <-Permutation_middle.
      * rewrite decide_False, bool_decide_false; [done|congruence|].
        intros [= ?]. lia.
    + done.
  - intros Hr. apply H3. unfold r'. destruct (decide _); [|done].
    apply insert_by_sorted; eauto with py_db.
Qed.

(** ** The loop *)

Section Loop.
Context (deps : list (string * gset string)).
Context (Hnd : NoDup deps.*1) (Hclosed : ∀ i, dep deps i ⊆ list_to_set deps.*1).

(** What holds whenever the loop tests [ready]. *)
Record loop_inv (ind : gmap string Z) (ready ordered : list string) : Prop := {
  li_sorted : StronglySorted str_le ready;
  li_nodup : NoDup (ordered ++ ready);
  li_known : ∀ i, i ∈ ordered → i ∈ deps.*1;
  li_degree : ∀ i, i ∈ deps.*1 →
    ind !! i = Some (Z.of_nat (size (dep deps i ∖ list_to_set ordered)));
  li_ready : ∀ i, i ∈ ready ↔
    i ∈ deps.*1 ∧ i ∉ ordered ∧ dep deps i ⊆ list_to_set ordered;
  li_least : least_topological deps ordered;
}.

Lemma loop_inv_start :
  loop_inv (indegree_of deps)
    (sort_by id str_leb (List.filter (λ cr, size cr.2 =? 0)%nat deps).*1) [].
Proof.
  constructor; simpl.
  - apply sort_by_sorted; eauto with py_db.
  - rewrite sort_by_perm. eapply sublist_NoDup; [done|].
    apply fmap_sublist. clear Hnd Hclosed.
    induction deps as [|x l IH]; simpl; [done|].
    destruct (_ =? _)%nat; by constructor.
  - by intros i ?%elem_of_nil.
  - intros i Hi. rewrite indegree_spec by done. by rewrite difference_empty_L.
  - intros i. rewrite elem_of_sort_by, list_elem_of_fmap. split.
    + intros ([k s] & -> & [Hin Hs]%list_elem_of_In%List.filter_In). simpl in *.
      apply list_elem_of_In in Hin.
      apply Nat.eqb_eq, size_empty_inv in Hs. split_and!; [|set_solver|].
      * apply list_elem_of_fmap. by exists (k, s).
      * unfold dep. apply elem_of_assoc in Hin; [|done]. rewrite Hin. set_solver.
    + intros ([[k s] [-> Hin]]%list_elem_of_fmap & _ & Hs). exists (k, s).
      split; [done|]. apply list_elem_of_In, List.filter_In. split; [by apply list_elem_of_In|].
      apply Nat.eqb_eq. unfold dep in Hs. apply elem_of_assoc in Hin; [|done].
      simpl in *. rewrite Hin in Hs. simpl in Hs. apply size_empty_iff. set_solver.
  - intros before x after Heq. by destruct before.
Qed.

Lemma size_pop e ordered i :
  e ∉ ordered →
  Z.of_nat (size (dep deps i ∖ list_to_set (ordered ++ [e])))
  = (Z.of_nat (size (dep deps i ∖ list_to_set ordered)) - Z.b2z (bool_decide (e ∈ dep deps i)))%Z.
Proof.
  intros He. destruct (bool_decide_reflect (e ∈ dep deps i)) as [Hin|Hin]; simpl.
  - assert (dep deps i ∖ list_to_set ordered
      = {[e]} ∪ (dep deps i ∖ list_to_set (ordered ++ [e]))) as ->.
    { apply set_eq. intros x. destruct (decide (x = e)); set_solver. }
    rewrite size_insert by set_solver. lia.
  - assert (dep deps i ∖ list_to_set ordered = dep deps i ∖ list_to_set (ordered ++ [e])) as ->
      by set_solver.
    lia.
Qed.

Lemma least_snoc e ready ordered ind :
  loop_inv ind (e :: ready) ordered → least_topological deps (ordered ++ [e]).
Proof.
  intros [Hs Hndo Hk Hd Hr Hl] before x after Heq.
  destruct after as [|z after _] using rev_ind.
  - apply app_inj_tail in Heq as [<- <-]. split; [by apply (Hr e); left|].
    intros y Hy Hyo Hdep. assert (y ∈ e :: ready) as Hin by (by apply Hr).
    apply elem_of_cons in Hin as [->|Hin]; [apply str_leb_refl|].
    inversion Hs as [|? ? _ Hle]; subst. rewrite Forall_forall in Hle. by apply Hle.
  - rewrite app_comm_cons, app_assoc in Heq. apply app_inj_tail in Heq as [-> _].
    by apply (Hl before x after).
Qed.

Lemma ordered_deps ordered i :
  least_topological deps ordered → i ∈ ordered → dep deps i ⊆ list_to_set ordered.
Proof.
  intros Hl (l1 & l2 & ->)%list_elem_of_split.
  destruct (Hl l1 i l2 eq_refl) as [Hd _]. set_solver.
Qed.

Lemma loop_inv_pop ind e ready ordered :
  loop_inv ind (e :: ready) ordered →
  let st := fold_left release
    (sort_by id str_leb (elements (default ∅ (dependents_of deps.*1 deps !! e)))) (ind, ready) in
  loop_inv st.1 st.2 (ordered ++ [e]).
Proof.
  intros Hinv. pose proof (least_snoc _ _ _ _ Hinv) as Hleast.
  destruct Hinv as [Hs Hndo Hk Hd Hr Hl].
  set (l := sort_by _ _ _).
  assert (Hlnd : NoDup l) by (unfold l; rewrite sort_by_perm; apply NoDup_elements).
  assert (He : e ∈ deps.*1 ∧ e ∉ ordered ∧ dep deps e ⊆ list_to_set ordered)
    by (apply Hr; by left).
  destruct He as (Hek & Heo & Hed).
  assert (Hin : ∀ i, i ∈ l ↔ e ∈ dep deps i).
  { intros i. unfold l. by rewrite elem_of_sort_by, elem_of_elements, dependents_spec. }
  assert (Hdom : ∀ i, e ∈ dep deps i → i ∈ deps.*1).
  { intros i Hi. apply elem_of_dep in Hi as (s & Hi & _); [|done].
    apply list_elem_of_fmap. by exists (i, s). }
  destruct (release_spec l ind ready Hlnd) as (R1 & R2 & R3). simpl in *.
  set (st := fold_left release l (ind, ready)) in *.
  assert (Hnew : ∀ i, i ∈ st.2 ↔ (e ∈ dep deps i ∧ ind !! i = Some 1%Z) ∨ i ∈ ready).
  { intros i. rewrite R2, elem_of_app. f_equiv.
    rewrite list_elem_of_In, List.filter_In, <-list_elem_of_In, Hin. f_equiv.
    by rewrite bool_decide_eq_true. }
  assert (Hone : ∀ i, e ∈ dep deps i → ind !! i = Some 1%Z →
    i ∉ ordered ∧ i ≠ e ∧ i ∉ ready ∧ dep deps i ⊆ list_to_set (ordered ++ [e])).
  { intros i Hi Hone. rewrite Hd in Hone by auto.
    assert (dep deps i ∖ list_to_set (ordered ++ [e]) = ∅) as Hsub.
    { pose proof (size_pop e ordered i Heo) as Hp. rewrite bool_decide_true in Hp by done.
      injection Hone as Hone. simpl in Hp. apply leibniz_equiv, size_empty_inv. lia. }
    assert (¬ dep deps i ⊆ list_to_set ordered) as Hnot by set_solver.
    split_and!.
    - intros Hio. apply Hnot. by apply ordered_deps.
    - by intros ->.
    - intros Hir. apply Hnot. apply Hr. by right.
    - intros x Hx. destruct (decide (x ∈ (list_to_set (ordered ++ [e]) : gset string))); [done|].
      set_solver. }
  constructor.
  - apply R3. by inversion Hs.
  - rewrite <-app_assoc. simpl. rewrite R2. apply NoDup_app in Hndo as (Ho & Hoe & Her).
    apply NoDup_cons in Her as [Her Hrr]. apply NoDup_app. split_and!; [done| |].
    + intros x Hx [->|Hx']%elem_of_cons; [done|]. rewrite <-R2 in Hx'.
      apply Hnew in Hx' as [[? ?]|Hx']; [by destruct (Hone x) as (? & ? & ? & ?)|].
      apply (Hoe x); [done|by right].
    + constructor.
      * rewrite <-R2. intros [[? ?]|?]%Hnew; [by destruct (Hone e) as (? & ? & ? & ?)|done].
      * apply NoDup_app. split_and!; [by apply NoDup_ListNoDup, List.NoDup_filter, NoDup_ListNoDup|
          |done].
        intros x Hx Hxr. apply list_elem_of_In, List.filter_In in Hx as [Hx Hx1].
        apply list_elem_of_In, Hin in Hx. apply bool_decide_eq_true in Hx1.
        by destruct (Hone x) as (? & ? & ? & ?).
  - intros i [Hi|Hi]%elem_of_app; [auto|]. by apply list_elem_of_singleton in Hi as ->.
  - intros i Hi. rewrite R1, size_pop by done. rewrite Hd by done.
    destruct (decide (e ∈ dep deps i)) as [Hei|Hei].
    + rewrite decide_True by (by apply Hin). by rewrite bool_decide_true.
    + rewrite decide_False by (by rewrite Hin). rewrite bool_decide_false by done. simpl.
      f_equal. lia.
  - intros i. rewrite Hnew. split.
    + intros [[Hi H1]|Hi].
      * destruct (Hone i Hi H1) as (? & ? & ? & ?). split_and!; [auto|set_solver|done].
      * assert (i ∈ e :: ready) as (? & ? & ?)%Hr by (by right).
        split_and!; [done| |set_solver]. intros [?|Hie]%elem_of_app; [done|].
        apply list_elem_of_singleton in Hie as ->.
        apply NoDup_app in Hndo as (_ & _ & He). by apply NoDup_cons in He as [? _].
    + intros (Hi & Hio & Hdep). destruct (decide (e ∈ dep deps i)) as [Hei|Hei].
      * left. split; [done|]. rewrite Hd by done.
        pose proof (size_pop e ordered i Heo) as Hp. rewrite bool_decide_true in Hp by done.
        assert (dep deps i ∖ list_to_set (ordered ++ [e]) = ∅) as Hz by set_solver.
        rewrite Hz, size_empty in Hp. simpl in Hp. f_equal. lia.
      * right. assert (i ∈ e :: ready) as [->|?]%elem_of_cons; [|set_solver|done].
        apply Hr. split_and!; [done|set_solver|]. intros x Hx.
        specialize (Hdep x Hx). rewrite list_to_set_app_L in Hdep.
        destruct (decide (x = e)) as [->|]; set_solver.
  - done.
Qed.

(** One pop per contract is enough. *)
Lemma order_loop_inv fuel ind ready ordered :
  loop_inv ind ready ordered → length deps ≤ fuel + length ordered →
  ∃ ordered' ind', order_loop fuel (dependents_of deps.*1 deps) ind ready ordered = (ordered', ind')
    ∧ loop_inv ind' [] ordered'.
Proof.
  revert ind ready ordered. induction fuel as [|fuel IH]; intros ind ready ordered Hinv Hlen.
  - destruct ready as [|e ready]; [by exists ordered, ind|]. exfalso.
    assert (NoDup (ordered ++ e :: ready)) as Hn by apply Hinv.
    assert (length (ordered ++ e :: ready) ≤ length deps.*1) as Hle.
    { apply submseteq_length, NoDup_submseteq; [done|]. intros x [Hx|Hx]%elem_of_app.
      - by apply (li_known _ _ _ Hinv).
      - by apply (li_ready _ _ _ Hinv) in Hx as [? _]. }
    rewrite length_app, length_fmap in Hle. simpl in Hle. lia.
  - destruct ready as [|e ready]; [by exists ordered, ind|]. simpl.
    apply IH; [by apply loop_inv_pop|]. rewrite length_app. simpl. lia.
Qed.

Lemma order_ids_inv :
  ∃ ordered ind, order_ids deps.*1 deps = (ordered, ind) ∧ loop_inv ind [] ordered.
Proof.
  unfold order_ids. apply order_loop_inv; [apply loop_inv_start|].
  rewrite length_fmap. simpl. lia.
Qed.

Lemma complete_perm ind ordered :
  loop_inv ind [] ordered → length ordered = length deps → ordered ≡ₚ deps.*1.
Proof.
  intros Hinv Hlen. apply submseteq_length_Permutation.
  - apply NoDup_submseteq; [|apply Hinv]. pose proof (li_nodup _ _ _ Hinv) as Hn.
    by rewrite app_nil_r in Hn.
  - by rewrite length_fmap, Hlen.
Qed.

(** When the loop stops short, what is left contains a cycle. *)
Lemma incomplete_cycle ind ordered :
  loop_inv ind [] ordered → length ordered ≠ length deps → ∃ i, tc (needs deps) i i.
Proof.
  intros Hinv Hlen.
  set (C := list_to_set deps.*1 ∖ list_to_set ordered : gset string).
  assert (Hsucc : ∀ z, z ∈ C → ∃ y, y ∈ C ∧ needs deps z y).
  { intros z Hz. assert (¬ dep deps z ⊆ list_to_set ordered) as Hnot.
    { intros Hsub. assert (z ∈ ([] : list string)) as []%elem_of_nil.
      apply (li_ready _ _ _ Hinv). set_solver. }
    destruct (decide (dep deps z ∖ list_to_set ordered = ∅)) as [Hz0|(y & Hy)%set_choose_L].
    { destruct Hnot. by apply subseteq_empty_difference_L_inv. }
    apply elem_of_difference in Hy as [Hy Hyo]. exists y. split; [|done].
    apply elem_of_difference. split; [by apply (Hclosed z)|done]. }
  destruct (decide (C = ∅)) as [HC|(x & Hx)%set_choose_L].
  - destruct Hlen. rewrite <-(length_fmap fst deps). apply Permutation_length.
    pose proof (li_nodup _ _ _ Hinv) as Hn. rewrite app_nil_r in Hn.
    apply NoDup_Permutation; [done..|]. intros y. split; [apply Hinv|]. set_solver.
  - apply (walk_cycle (needs deps) C (S (size C)) x []); [done..|constructor| |simpl; lia].
    by intros v ?%elem_of_nil.
Qed.

Lemma complete_acyclic ind ordered i :
  loop_inv ind [] ordered → length ordered = length deps → ¬ tc (needs deps) i i.
Proof.
  intros Hinv Hlen Hi. pose proof (li_nodup _ _ _ Hinv) as Hn. rewrite app_nil_r in Hn.
  assert (i ∈ ordered) as Hio.
  { rewrite complete_perm by done.
    assert (∃ y, needs deps i y) as [y Hy] by (inversion Hi; eauto).
    apply elem_of_dep in Hy as (s & Hy & _); [|done].
    apply list_elem_of_fmap. by exists (i, s). }
  apply list_elem_of_split in Hio as (l1 & l2 & ->).
  assert (i ∈ l1) by (by eapply topological_acyclic; [apply Hinv| |]).
  apply NoDup_app in Hn as (_ & Hn & _). by apply (Hn i); [|left].
Qed.

End Loop.
