(* ===== verification/CompilerProofs.v ===== *)
(** * CompilerProofs: what a compiled plan guarantees

    Capability bindings, dependency order, resource ownership and obligations of a plan
    [compile_contracts] returns, what it does on cycles, and that it depends on nothing but the
    set of contracts. *)

From S2P Require Import Prelude Effects Json Sha256 ContractParser ContractCompiler ContractOrder.

Local Open Scope string_scope.
Local Open Scope list_scope.

(** ** Dictionaries *)

Lemma elem_of_keys_dict_set {A} k (v : A) d i :
  i ∈ keys (dict_set k v d) ↔ i = k ∨ i ∈ keys d.
Proof.
  rewrite keys_dict_set. destruct (decide _); [naive_solver|]. set_solver.
Qed.

Lemma group_fold {A} k (kxs : list (string * A)) d :
  default [] (assoc k (fold_left setdefault_append kxs d))
  = default [] (assoc k d) ++ (List.filter (λ kx, kx.1 =? k)%string kxs).*2.
Proof.
  revert d. induction kxs as [|[k' x] kxs IH]; intros d; simpl; [by rewrite app_nil_r|].
  rewrite IH. unfold setdefault_append. simpl. rewrite assoc_dict_set.
  destruct (k' =? k)%string eqn:E; reflect; [subst|done]. simpl. by rewrite <-app_assoc.
Qed.

(** [group] collects the elements of each key in order. *)
Lemma group_lookup {A} k (kxs : list (string * A)) :
  default [] (assoc k (group kxs)) = (List.filter (λ kx, kx.1 =? k)%string kxs).*2.
Proof. unfold group. by rewrite group_fold. Qed.

Lemma group_keys {A} (kxs : list (string * A)) :
  NoDup (keys (group kxs)) ∧ ∀ i, i ∈ keys (group kxs) ↔ i ∈ kxs.*1.
Proof.
  unfold group. cut (∀ d : list (string * list A), NoDup (keys d) →
    NoDup (keys (fold_left setdefault_append kxs d))
    ∧ ∀ i, i ∈ keys (fold_left setdefault_append kxs d) ↔ i ∈ keys d ∨ i ∈ kxs.*1).
  { intros H. destruct (H [] NoDup_nil_2) as [H1 H2]. split; [done|].
    intros i. rewrite H2. unfold keys. simpl. rewrite elem_of_nil. naive_solver. }
  induction kxs as [|[k x] kxs IH]; intros d Hd; simpl.
  - split; [done|]. intros i. rewrite elem_of_nil. naive_solver.
  - destruct (IH (setdefault_append d (k, x))) as [H1 H2]; [by apply dict_set_nodup|].
    split; [done|]. intros i. rewrite H2. unfold setdefault_append. simpl.
    rewrite elem_of_keys_dict_set, elem_of_cons. naive_solver.
Qed.

Lemma elem_of_filter_true {A} (f : A → bool) l x : x ∈ List.filter f l ↔ x ∈ l ∧ f x = true.
Proof. by rewrite list_elem_of_In, List.filter_In, <-list_elem_of_In. Qed.

(** ** Contracts up to their resources *)

(** Taxonomy normalisation touches nothing but the resource names. *)
Definition same_contract (c c' : ExtensionContract) : Prop :=
  c' = with_resources (resources c') c.

Lemma same_contract_refl c : same_contract c c.
Proof. by destruct c. Qed.

Definition ids (contracts : list ExtensionContract) : list string := extension_id <$> contracts.

Section Proofs.
Context `{Packaging}.

(** ** Capabilities *)

(** The provided capability [cap] meets the requirement [r]. *)
Definition satisfies (cap r : Capability) : Prop :=
  cap_name cap = cap_name r ∧ ∃ v s, parse_version (cap_version cap) = Some v
    ∧ parse_specifiers (cap_version r) = Some s ∧ version_in v s = true.

Lemma elem_of_candidates cs name c cap :
  (c, cap) ∈ default [] (assoc name (provider_list cs)) ↔
  c ∈ cs ∧ cap ∈ provides c ∧ cap_name cap = name.
Proof.
  unfold provider_list. rewrite group_lookup, list_elem_of_fmap.
  setoid_rewrite elem_of_filter_true. setoid_rewrite list_elem_of_bind.
  setoid_rewrite list_elem_of_fmap. split.
  - intros ([k [c' cap']] & [= <- <-] & (c0 & (cap0 & [= -> -> ->] & ?) & ?) & Hk).
    simpl in Hk. by reflect.
  - intros (Hc & Hcap & <-). exists (cap_name cap, (c, cap)). split_and!; [done| |].
    + exists c. split; [|done]. by exists cap.
    + simpl. apply String.eqb_refl.
Qed.

Lemma filter_result_ok {A} (f : A → result bool) l l' :
  filter_result f l = Ok l' → ∀ x, x ∈ l' ↔ x ∈ l ∧ f x = Ok true.
Proof.
  revert l'. induction l as [|y l IH]; intros l' Hf x; simpl in Hf.
  { injection Hf as <-. rewrite elem_of_nil. naive_solver. }
  apply result_bind_ok in Hf as (b & Hb & (l'' & Hl & [= <-])%result_bind_ok).
  specialize (IH l'' Hl x). destruct b; rewrite ?elem_of_cons, IH.
  - naive_solver.
  - split; [naive_solver|]. intros [[->|?] ?]; [congruence|naive_solver].
Qed.

Lemma compatible_ok r x :
  cap_name x.2 = cap_name r → compatible r x = Ok true ↔ satisfies x.2 r.
Proof.
  intros Hname. unfold compatible, satisfies, the_version, the_specifiers.
  destruct (parse_version (cap_version x.2)) as [v|]; simpl; [|naive_solver].
  destruct (parse_specifiers (cap_version r)) as [s|]; simpl; [|naive_solver].
  split.
  - intros [= Hv]. split; [done|]. by exists v, s.
  - intros (_ & v' & s' & [= <-] & [= <-] & ->). done.
Qed.

(** The unique provider of a requirement among [cs]. *)
Definition sole_provider (cs : list ExtensionContract) (r : Capability)
    (p : ExtensionContract) (cap : Capability) : Prop :=
  p ∈ cs ∧ cap ∈ provides p ∧ satisfies cap r
  ∧ ∀ p' cap', p' ∈ cs → cap' ∈ provides p' → satisfies cap' r → p' = p ∧ cap' = cap.

Definition binding_of (c : ExtensionContract) (r : Capability) (p : ExtensionContract)
    (cap : Capability) : CapabilityBinding :=
  mkBinding (cap_name r) (cap_version r) (extension_id c) (extension_id p) (cap_version cap).

Lemma bind_requirement_ok cs c r b :
  bind_requirement (provider_list cs) c r = Ok b →
  ∃ p cap, sole_provider cs r p cap ∧ b = binding_of c r p cap.
Proof.
  unfold bind_requirement. intros (l & Hl & Hb)%result_bind_ok.
  pose proof (filter_result_ok _ _ _ Hl) as Hin.
  destruct l as [|[p cap] [|? ?]]; try discriminate Hb. injection Hb as <-.
  assert (Hiff : ∀ p' cap', p' ∈ cs ∧ cap' ∈ provides p' ∧ satisfies cap' r
    ↔ (p', cap') ∈ [(p, cap)]).
  { intros p' cap'. rewrite Hin, elem_of_candidates. split.
    - intros (? & ? & Hs). split; [by destruct Hs|]. apply compatible_ok; by destruct Hs.
    - intros [(? & ? & Hn) Hc]. apply (compatible_ok r (p', cap')) in Hc; done. }
  exists p, cap. split; [|done].
  destruct (proj2 (Hiff p cap)) as (? & ? & ?); [by left|]. split_and!; [done..|].
  intros p' cap' ? ? ?. assert ((p', cap') ∈ [(p, cap)]) as Hx by (by apply Hiff).
  apply list_elem_of_singleton in Hx. by injection Hx.
Qed.

(** ** Dependencies *)

Lemma dep_dict_set d i s x : dep (dict_set i s d) x = if (i =? x)%string then s else dep d x.
Proof. unfold dep. rewrite assoc_dict_set. by destruct (i =? x)%string. Qed.

(** [x] takes a capability from the other extension [y]. *)
Definition takes_from (bs : list CapabilityBinding) (x y : string) : Prop :=
  ∃ b, b ∈ bs ∧ consumer b = x ∧ provider b = y ∧ x ≠ y.

Lemma add_dependency_fold bs d x y :
  y ∈ dep (fold_left add_dependency bs d) x ↔ y ∈ dep d x ∨ takes_from bs x y.
Proof.
  revert d. induction bs as [|b bs IH]; intros d; simpl.
  { split; [auto|]. intros [?|(b & Hb%elem_of_nil & _)]; done. }
  rewrite IH. unfold takes_from, add_dependency. setoid_rewrite elem_of_cons.
  destruct (provider b =? consumer b)%string eqn:E; reflect.
  - split; [naive_solver|]. intros [?|(b' & [->|?] & ? & ? & ?)]; naive_solver.
  - rewrite dep_dict_set. destruct (consumer b =? x)%string eqn:Ex; reflect.
    + subst x. fold (dep d (consumer b)). rewrite elem_of_union, elem_of_singleton. split.
      * intros [[->|?]|?]; [right; exists b|..]; naive_solver.
      * intros [?|(b' & [->|?] & ? & ? & ?)]; naive_solver.
    + split; [naive_solver|]. intros [?|(b' & [->|?] & ? & ? & ?)]; naive_solver.
Qed.

Lemma add_dependency_keys bs d :
  (∀ b, b ∈ bs → consumer b ∈ keys d) → keys (fold_left add_dependency bs d) = keys d.
Proof.
  revert d. induction bs as [|b bs IH]; intros d Hk; simpl; [done|].
  assert (keys (add_dependency d b) = keys d) as Hd.
  { unfold add_dependency. destruct (_ =? _)%string; [done|]. rewrite keys_dict_set.
    rewrite decide_True; [done|]. apply Hk. by left. }
  rewrite IH; [done|]. intros b' ?. rewrite Hd. apply Hk. by right.
Qed.

Lemma empty_dependencies cs :
  NoDup (ids cs) →
  keys (fold_left (λ d c, dict_set (extension_id c) (∅ : gset string) d) cs []) = ids cs
  ∧ ∀ x, dep (fold_left (λ d c, dict_set (extension_id c) (∅ : gset string) d) cs []) x = ∅.
Proof.
  intros Hnd. cut (∀ d : list (string * gset string), NoDup (keys d ++ ids cs) →
    (∀ x, dep d x = ∅) →
    keys (fold_left (λ d c, dict_set (extension_id c) ∅ d) cs d) = keys d ++ ids cs
    ∧ ∀ x, dep (fold_left (λ d c, dict_set (extension_id c) ∅ d) cs d) x = ∅).
  { intros Hc. by apply (Hc []). }
  clear Hnd. induction cs as [|c cs IH]; intros d Hnd Hd; simpl; [by rewrite app_nil_r|].
  assert (extension_id c ∉ keys d) as Hc.
  { intros Hc. apply NoDup_app in Hnd as (_ & Hnd & _). apply (Hnd _ Hc). by left. }
  assert (keys (dict_set (extension_id c) (∅ : gset string) d) = keys d ++ [extension_id c]) as Hk
    by (by rewrite keys_dict_set, decide_False).
  destruct (IH (dict_set (extension_id c) ∅ d)) as [H1 H2].
  - rewrite Hk, <-app_assoc. done.
  - intros x. rewrite dep_dict_set. by destruct (_ =? _)%string.
  - split; [|done]. by rewrite H1, Hk, <-app_assoc.
Qed.

(** What [_resolve_capabilities] returns. *)
Record resolved (cs : list ExtensionContract) (bs : list CapabilityBinding)
    (deps : list (string * gset string)) : Prop := {
  rs_bound : ∀ c r, c ∈ cs → r ∈ requires c →
    ∃ p cap, sole_provider cs r p cap ∧ binding_of c r p cap ∈ bs;
  rs_only : ∀ b, b ∈ bs → ∃ c r p cap, c ∈ cs ∧ r ∈ requires c
    ∧ sole_provider cs r p cap ∧ b = binding_of c r p cap;
  rs_keys : deps.*1 = ids cs;
  rs_deps : ∀ x y, y ∈ dep deps x ↔ takes_from bs x y;
}.

Lemma resolve_capabilities_ok cs bs deps :
  NoDup (ids cs) → resolve_capabilities cs = Ok (bs, deps) → resolved cs bs deps.
Proof.
  intros Hnd (bss & Hbss & [= <- <-])%result_bind_ok.
  apply map_result_ok in Hbss.
  assert (Hall : ∀ c r, c ∈ cs → r ∈ requires c → ∃ b, b ∈ concat bss
    ∧ bind_requirement (provider_list cs) c r = Ok b).
  { intros c r Hc Hr.
    apply list_elem_of_lookup in Hc as [i Hc].
    destruct (Forall2_lookup_l _ _ _ _ _ Hbss Hc) as (l & Hl & Hm).
    apply map_result_ok in Hm. apply list_elem_of_lookup in Hr as [j Hr].
    destruct (Forall2_lookup_l _ _ _ _ _ Hm Hr) as (b & Hb & Hbr). exists b.
    split; [|done]. apply list_elem_of_In, in_concat. exists l.
    split; apply list_elem_of_In; by eapply list_elem_of_lookup_2. }
  assert (Honly : ∀ b, b ∈ concat bss → ∃ c r, c ∈ cs ∧ r ∈ requires c
    ∧ bind_requirement (provider_list cs) c r = Ok b).
  { intros b (l & Hl & Hb)%list_elem_of_In%in_concat.
    apply list_elem_of_In, list_elem_of_lookup in Hl as [i Hl].
    destruct (Forall2_lookup_r _ _ _ _ _ Hbss Hl) as (c & Hc & Hm).
    apply map_result_ok in Hm. apply list_elem_of_In, list_elem_of_lookup in Hb as [j Hb].
    destruct (Forall2_lookup_r _ _ _ _ _ Hm Hb) as (r & Hr & Hbr). exists c, r.
    split_and!; [by eapply list_elem_of_lookup_2..|done]. }
  destruct (empty_dependencies cs Hnd) as [Hkeys Hempty].
  constructor.
  - intros c r Hc Hr. destruct (Hall c r Hc Hr) as (b & Hb & Hbr).
    apply bind_requirement_ok in Hbr as (p & cap & Hp & ->). exists p, cap.
    split; [done|]. by apply elem_of_sort_by.
  - intros b Hb. apply elem_of_sort_by, Honly in Hb as (c & r & ? & ? & Hbr).
    apply bind_requirement_ok in Hbr as (p & cap & Hp & ->). by exists c, r, p, cap.
  - unfold dependencies_of. change (@fst string (gset string) <$> ?d) with (keys d).
    rewrite add_dependency_keys; [done|]. intros b Hb. rewrite Hkeys.
    apply Honly in Hb as (c & r & Hc & _ & Hbr).
    apply bind_requirement_ok in Hbr as (p & cap & _ & ->). simpl.
    by apply list_elem_of_fmap_2.
  - intros x y. unfold dependencies_of. rewrite add_dependency_fold, Hempty.
    unfold takes_from. setoid_rewrite elem_of_sort_by. set_solver.
Qed.

Lemma resolved_closed cs bs deps i :
  resolved cs bs deps → dep deps i ⊆ list_to_set deps.*1.
Proof.
  intros Hr y Hy. apply (rs_deps _ _ _ Hr) in Hy as (b & Hb & _ & <- & _).
  destruct (rs_only _ _ _ Hr b Hb) as (c & r & p & cap & _ & _ & (Hp & _) & ->).
  rewrite (rs_keys _ _ _ Hr). apply elem_of_list_to_set.
  by apply (list_elem_of_fmap_2 extension_id).
Qed.

(** ** Order *)

(** The extensions in plan order: each comes after those it takes a capability from, and is the
    smallest that may come next. *)
Definition plan_order (cs : list ExtensionContract) (bs : list CapabilityBinding)
    (order : list string) : Prop :=
  order ≡ₚ ids cs
  ∧ ∀ before x after, order = before ++ x :: after →
      (∀ y, takes_from bs x y → y ∈ before)
      ∧ ∀ y, y ∈ ids cs → y ∉ before → (∀ z, takes_from bs y z → z ∈ before) → str_le x y.

Lemma subset_takes_from cs bs deps x (l : list string) :
  resolved cs bs deps →
  dep deps x ⊆ list_to_set l ↔ ∀ y, takes_from bs x y → y ∈ l.
Proof.
  intros Hr. split.
  - intros Hs y Hy. apply (elem_of_list_to_set (C := gset string)), Hs.
    by apply (rs_deps _ _ _ Hr).
  - intros Hs y Hy. apply elem_of_list_to_set, Hs. by apply (rs_deps _ _ _ Hr).
Qed.

Lemma find_contracts cs order :
  NoDup (ids cs) → order ≡ₚ ids cs →
  ids (omap (find_contract cs) order) = order ∧ omap (find_contract cs) order ≡ₚ cs.
Proof.
  intros Hnd Hp.
  assert (Hf : ∀ i, i ∈ ids cs → ∃ c, find_contract cs i = Some c ∧ extension_id c = i).
  { intros i (c & -> & Hc)%list_elem_of_fmap. unfold find_contract.
    destruct (find_last _ cs) as [c'|] eqn:E.
    - apply find_last_Some in E as [_ E]. reflect. by exists c'.
    - exfalso. unfold find_last in E.
      pose proof (find_none _ _ E c) as Hn. rewrite <-in_rev, <-list_elem_of_In in Hn.
      specialize (Hn Hc). by rewrite String.eqb_refl in Hn. }
  assert (Hids : ids (omap (find_contract cs) order) = order).
  { assert (∀ i, i ∈ order → i ∈ ids cs) as Hsub by (intros i; by rewrite Hp).
    clear Hp. induction order as [|i order IH]; csimpl; [done|].
    destruct (Hf i) as (c & -> & Hi); [apply Hsub; by left|]. csimpl.
    rewrite Hi, IH; [done|]. intros j ?. apply Hsub. by right. }
  split; [done|].
  assert (Hin : ∀ c, c ∈ omap (find_contract cs) order → c ∈ cs).
  { intros c (i & _ & Hc)%list_elem_of_omap. by apply find_last_Some in Hc as [? _]. }
  assert (NoDup (omap (find_contract cs) order)) as Hnd'.
  { apply (NoDup_fmap_1 extension_id). fold (ids (omap (find_contract cs) order)).
    by rewrite Hids, Hp. }
  apply submseteq_length_Permutation; [by apply NoDup_submseteq|].
  rewrite <-(length_fmap extension_id (omap _ _)), <-(length_fmap extension_id cs).
  fold (ids (omap (find_contract cs) order)) (ids cs). by rewrite Hids, Hp.
Qed.

Lemma order_contracts_ok cs bs deps os :
  NoDup (ids cs) → resolved cs bs deps → order_contracts cs deps = Ok os →
  os ≡ₚ cs ∧ plan_order cs bs (ids os).
Proof.
  intros Hnd Hr. pose proof (rs_keys _ _ _ Hr) as Hk. unfold order_contracts.
  fold (ids cs). rewrite <-Hk in *.
  destruct (order_ids_inv deps Hnd (λ i, resolved_closed _ _ _ i Hr)) as (o & ind & -> & Hinv).
  simpl. destruct (decide _) as [Hlen|]; [|done]. intros [= <-].
  assert (length o = length deps) as Hlen' by
    (rewrite Hlen, <-(length_fmap extension_id cs), <-(length_fmap fst deps); by rewrite Hk).
  pose proof (complete_perm deps _ _ Hinv Hlen') as Hp.
  rewrite Hk in Hp, Hnd. destruct (find_contracts cs o Hnd Hp) as [Hids Hperm].
  split; [done|]. split; [by rewrite Hids|]. rewrite Hids. intros before x after Heq.
  destruct (li_least _ _ _ _ Hinv before x after Heq) as [H1 H2]. split.
  - by apply (subset_takes_from _ _ _ _ _ Hr).
  - intros y Hy Hn Hz. apply H2; [by rewrite Hk|done|]. by apply (subset_takes_from _ _ _ _ _ Hr).
Qed.

Definition cyclic (bs : list CapabilityBinding) : Prop := ∃ i, tc (takes_from bs) i i.

Lemma needs_takes_from cs bs deps i :
  resolved cs bs deps → tc (needs deps) i i ↔ tc (takes_from bs) i i.
Proof.
  intros Hr. split; intros Ht; [eapply (tc_congruence id); [|exact Ht]
    |eapply (tc_congruence id); [|exact Ht]]; intros x y; unfold needs;
    rewrite (rs_deps _ _ _ Hr); done.
Qed.

Lemma order_contracts_cyclic cs bs deps :
  NoDup (ids cs) → resolved cs bs deps →
  match order_contracts cs deps with
  | Ok _ => ¬ cyclic bs
  | Err e => cyclic bs ∧ ∃ d, e = ContractPlanningError PlanningErrorCode.DEPENDENCY_CYCLE d
  end.
Proof.
  intros Hnd Hr. pose proof (rs_keys _ _ _ Hr) as Hk. unfold order_contracts.
  fold (ids cs). rewrite <-Hk in *.
  destruct (order_ids_inv deps Hnd (λ i, resolved_closed _ _ _ i Hr)) as (o & ind & -> & Hinv).
  assert (length deps = length cs) as Hlen.
  { rewrite <-(length_fmap fst deps), Hk. apply length_fmap. }
  simpl. destruct (decide _) as [He|He].
  - intros [i Hi]. apply (complete_acyclic deps Hnd ind o i Hinv); [by rewrite Hlen|].
    by apply (needs_takes_from _ _ _ _ Hr).
  - simpl. split; [|by eexists]. rewrite <-Hlen in He.
    destruct (incomplete_cycle deps Hnd (λ i, resolved_closed _ _ _ i Hr) _ _ Hinv He) as [i Hi].
    exists i. by apply (needs_takes_from _ _ _ _ Hr).
Qed.

(** ** The compiler *)

Definition norm (tax : option ContractTaxonomy) (c : ExtensionContract) : ExtensionContract :=
  match tax with Some t => normalize_contract t c | None => c end.

Lemma norm_same tax c : same_contract c (norm tax c).
Proof. destruct tax; [done|apply same_contract_refl]. Qed.

Lemma norm_fields tax c :
  extension_id (norm tax c) = extension_id c ∧ provides (norm tax c) = provides c
  ∧ requires (norm tax c) = requires c
  ∧ process_obligations (norm tax c) = process_obligations c
  ∧ authority (norm tax c) = authority c.
Proof. by destruct tax. Qed.

Definition normalized (tax : option ContractTaxonomy) (cs : list ExtensionContract)
    : list ExtensionContract :=
  norm tax <$> sort_by extension_id str_leb cs.

Lemma normalize_ok cs t cs' :
  normalize_taxonomy_resources cs t = Ok cs' → cs' = normalize_contract t <$> cs
  ∧ ∀ c claim, c ∈ cs → claim ∈ resources c →
      ∃ rule, tax_lookup t (res_name claim) = Some rule ∧ res_mode claim ∈ allowed_modes rule.
Proof.
  unfold normalize_taxonomy_resources.
  destruct (sort_by id strs_leb (unknown_claims t cs)) as [|? ?] eqn:Hu; [|done].
  destruct (sort_by id strs_leb (invalid_modes t cs)) as [|row ?] eqn:Hi;
    [|by destruct (tax_lookup _ _)].
  intros [= <-]. split; [done|]. intros c claim Hc Hcl.
  assert (Hall : (c, claim) ∈ all_claims cs).
  { apply list_elem_of_bind. exists c. split; [by apply list_elem_of_fmap_2|done]. }
  assert (∀ x, x ∉ unknown_claims t cs) as Hu'.
  { intros x Hx. apply (elem_of_sort_by id strs_leb) in Hx. rewrite Hu in Hx.
    by apply elem_of_nil in Hx. }
  assert (∀ x, x ∉ invalid_modes t cs) as Hi'.
  { intros x Hx. apply (elem_of_sort_by id strs_leb) in Hx. rewrite Hi in Hx.
    by apply elem_of_nil in Hx. }
  destruct (tax_lookup t (res_name claim)) as [rule|] eqn:Hl.
  - exists rule. split; [done|]. destruct (isin (res_mode claim) (allowed_modes rule)) eqn:Hm.
    + unfold isin in Hm. by reflect.
    + destruct (Hi' [extension_id c; canonical rule; res_mode claim]).
      apply list_elem_of_omap. exists (c, claim). split; [done|]. simpl. by rewrite Hl, Hm.
  - destruct (Hu' [extension_id c; res_name claim]).
    apply list_elem_of_omap. exists (c, claim). split; [done|]. simpl. by rewrite Hl.
Qed.

(** The steps of a successful compilation. *)
Record compiled (cs : list ExtensionContract) (tax : option ContractTaxonomy)
    (plan : ContractPlan) (deps : list (string * gset string)) : Prop := {
  co_ids : NoDup (ids cs);
  co_allowed : ∀ t c claim, tax = Some t → c ∈ cs → claim ∈ resources c →
    ∃ rule, tax_lookup t (res_name claim) = Some rule ∧ res_mode claim ∈ allowed_modes rule;
  co_authority : validate_obligation_authority (normalized tax cs) = Ok tt;
  co_resolve : resolve_capabilities (normalized tax cs) = Ok (capability_bindings plan, deps);
  co_order : order_contracts (normalized tax cs) deps = Ok (ordered_contracts plan);
  co_resources : resolve_resources (normalized tax cs) = Ok (resource_ownership plan);
  co_obligations : bind_obligations (normalized tax cs) (capability_bindings plan)
    = Ok (obligation_bindings plan);
}.

Lemma compile_ok cs hr hv tax plan :
  compile_contracts cs hr hv tax = Ok plan → ∃ deps, compiled cs tax plan deps.
Proof.
  unfold compile_contracts. intros (_ & _ & H0)%result_bind_ok.
  apply result_bind_ok in H0 as (runtime & _ & H0).
  apply result_bind_ok in H0 as (public & _ & H0).
  apply result_bind_ok in H0 as (version & _ & H0).
  apply check_bind in H0 as [Hd H0]. reflect. apply has_dups_false in Hd.
  apply result_bind_ok in H0 as (_ & _ & H0). unfold compile_normalized in H0.
  apply result_bind_ok in H0 as (N & HN & H0).
  assert (N = normalized tax cs ∧ ∀ t c claim, tax = Some t → c ∈ cs → claim ∈ resources c →
    ∃ rule, tax_lookup t (res_name claim) = Some rule ∧ res_mode claim ∈ allowed_modes rule)
    as [-> Hallowed].
  { unfold normalized. destruct tax as [t|].
    - apply normalize_ok in HN as [-> HN]. split; [done|]. intros t' c claim [= <-] Hc.
      apply HN. by apply elem_of_sort_by.
    - injection HN as <-. split; [|done]. symmetry. apply list_fmap_id. }
  apply result_bind_ok in H0 as ([] & Hau & H0).
  apply result_bind_ok in H0 as ([bs deps] & Hres & H0).
  apply result_bind_ok in H0 as (os & Hord & H0).
  apply result_bind_ok in H0 as (rs & Hrs & H0).
  apply result_bind_ok in H0 as (obs & Hobs & [= <-]).
  exists deps. by constructor.
Qed.

Lemma elem_of_normalized tax cs c' : c' ∈ normalized tax cs ↔ ∃ c, c ∈ cs ∧ c' = norm tax c.
Proof.
  unfold normalized. rewrite list_elem_of_fmap. setoid_rewrite elem_of_sort_by. naive_solver.
Qed.

Lemma ids_normalized tax cs : ids (normalized tax cs) ≡ₚ ids cs.
Proof.
  unfold ids, normalized. rewrite <-list_fmap_compose, sort_by_perm.
  erewrite list_fmap_ext; [reflexivity|]. intros _ c _. apply norm_fields.
Qed.

Lemma nodup_normalized tax cs : NoDup (ids cs) → NoDup (ids (normalized tax cs)).
Proof. by rewrite ids_normalized. Qed.

Lemma compiled_resolved cs tax plan deps :
  compiled cs tax plan deps → resolved (normalized tax cs) (capability_bindings plan) deps.
Proof.
  intros Hc. apply resolve_capabilities_ok; [apply nodup_normalized, Hc|apply Hc].
Qed.

(** ** Resources *)

(** Extension [i] claims the resource [name] with the claim [r]. *)
Definition claims_in (cs : list ExtensionContract) (name i : string) (r : ContractResource)
    : Prop :=
  ∃ c, c ∈ cs ∧ r ∈ resources c ∧ extension_id c = i ∧ res_name r = name.

Lemma summaries_spec cs s :
  s ∈ summaries cs →
  s = summarize (s_name s, s_claims s) ∧ s_claims s ≠ []
  ∧ ∀ i r, (i, r) ∈ s_claims s ↔ claims_in cs (s_name s) i r.
Proof.
  intros ([name cl] & -> & Hin%elem_of_sort_by)%list_elem_of_fmap. simpl.
  split; [done|]. unfold resource_claims in Hin. set (kxs := _ ≫= _) in Hin.
  destruct (group_keys kxs) as [Hnd Hkeys].
  assert (cl = (List.filter (λ kx, kx.1 =? name)%string kxs).*2) as ->.
  { rewrite <-group_lookup. pose proof Hin as Hin'.
    apply elem_of_assoc in Hin'; [|done]. by rewrite Hin'. }
  assert (Hspec : ∀ i r, (i, r) ∈ (List.filter (λ kx, kx.1 =? name)%string kxs).*2
    ↔ claims_in cs name i r).
  { intros i r. rewrite list_elem_of_fmap. setoid_rewrite elem_of_filter_true.
    unfold kxs, claims_in. setoid_rewrite list_elem_of_bind. setoid_rewrite list_elem_of_fmap.
    split.
    - intros ([k [i' r']] & [= <- <-] & (c & (r0 & [= -> -> ->] & ?) & ?) & Hk).
      simpl in Hk. reflect. by exists c.
    - intros (c & ? & ? & <- & <-). exists (res_name r, (extension_id c, r)).
      split_and!; [done| |simpl; apply String.eqb_refl]. exists c. split; [|done]. by exists r. }
  split; [|done].
  assert (name ∈ kxs.*1) as ([k [i r]] & -> & Hk)%list_elem_of_fmap.
  { rewrite <-Hkeys. unfold keys. by apply (list_elem_of_fmap_2 fst) in Hin. }
  intros Hnil. assert ((i, r) ∈ ([] : list (string * ContractResource))) as Hx.
  { simpl in Hnil. rewrite <-Hnil. apply list_elem_of_fmap. exists (k, (i, r)). split; [done|].
    apply elem_of_filter_true. split; [done|]. simpl. apply String.eqb_refl. }
  by apply elem_of_nil in Hx.
Qed.

Lemma summaries_complete cs name i r :
  claims_in cs name i r → ∃ s, s ∈ summaries cs ∧ s_name s = name.
Proof.
  intros (c & Hc & Hr & Hi & Hn).
  assert (name ∈ keys (resource_claims cs)) as (item & -> & Hitem)%list_elem_of_fmap.
  { unfold resource_claims. apply group_keys, list_elem_of_fmap. exists (name, (i, r)).
    split; [done|]. apply list_elem_of_bind. exists c. split; [|done].
    apply list_elem_of_fmap. exists r. by subst. }
  exists (summarize item). split; [|done]. by apply list_elem_of_fmap_2, elem_of_sort_by.
Qed.

Lemma summaries_nodup cs : NoDup (s_name <$> summaries cs).
Proof.
  unfold summaries. rewrite <-list_fmap_compose.
  change (NoDup (fst <$> sort_by fst str_leb (resource_claims cs))).
  rewrite sort_by_perm. apply group_keys.
Qed.

Lemma filter_nil {A} (f : A → bool) l x : List.filter f l = [] → x ∈ l → f x = false.
Proof.
  intros Hf Hx. destruct (f x) eqn:E; [|done].
  assert (x ∈ List.filter f l) as H' by (by apply elem_of_filter_true).
  rewrite Hf in H'. by apply elem_of_nil in H'.
Qed.

Lemma resolve_resources_ok cs os :
  resolve_resources cs = Ok os → os = ownership <$> summaries cs
  ∧ ∀ s, s ∈ summaries cs →
      mode_error s = false ∧ consistency_error s = false ∧ presence_error s = false.
Proof.
  unfold resolve_resources.
  destruct (List.filter mode_error _) eqn:H1; [|done].
  destruct (List.filter consistency_error _) eqn:H2; [|done].
  destruct (List.filter presence_error _) eqn:H3; [|done].
  intros [= <-]. split; [done|]. intros s Hs. split_and!; by eapply filter_nil.
Qed.

(** What one row of the ownership table promises, for the claims [claim] on its resource. *)
Record owned (claim : string → ContractResource → Prop) (o : ResourceOwnership) : Prop := {
  ow_owners : NoDup (owners o) ∧ owners o ≠ [] ∧ ∀ i, i ∈ owners o ↔ ∃ r, claim i r;
  ow_mode : ∀ i r, claim i r → res_mode r = o_mode o;
  ow_exclusive : 1 < length (owners o) → o_mode o = "shared-read" ∨ o_mode o = "mediated";
  ow_mediated : o_mode o = "mediated" → ∃ m, o_mediator o = Some m ∧ m ∈ owners o
    ∧ ∀ i r, claim i r → res_mediator r = Some m;
}.

Lemma mediated_single s :
  all_mediated s = true → consistency_error s = false → presence_error s = false →
  s = summarize (s_name s, s_claims s) →
  ∃ m, the_mediator s = Some m ∧ m ∈ s_owners s
    ∧ ∀ i r, (i, r) ∈ s_claims s → res_mediator r = Some m.
Proof.
  unfold consistency_error, presence_error. intros -> Hc Hp Hs. simpl in *. reflect.
  apply Nat.eqb_eq, size_1_elem_of in Hc as [x Hx]. apply leibniz_equiv in Hx.
  unfold the_mediator in *. rewrite Hx, elements_singleton in *.
  destruct x as [m|]; [|done]. unfold isin in Hp. reflect. exists m. split_and!; [done..|].
  intros i r Hr. assert (res_mediator r ∈ s_mediators s) as Hm.
  { rewrite Hs. simpl. apply elem_of_list_to_set.
    by apply (list_elem_of_fmap_2 (λ cl, res_mediator cl.2) _ (i, r)). }
  rewrite Hx in Hm. by apply elem_of_singleton in Hm.
Qed.

Lemma ownership_owned s :
  s = summarize (s_name s, s_claims s) → s_claims s ≠ [] →
  mode_error s = false → consistency_error s = false → presence_error s = false →
  owned (λ i r, (i, r) ∈ s_claims s) (ownership s).
Proof.
  intros Hs Hne Hm Hc Hp.
  assert (Howners : owners (ownership s) = s_owners s).
  { unfold ownership. destruct (all_mediated s); [done|].
    by destruct (s_claims s) as [|[? ?] [|? ?]]. }
  assert (Hin : ∀ i, i ∈ s_owners s ↔ ∃ r, (i, r) ∈ s_claims s).
  { intros i. rewrite Hs. simpl. rewrite elem_of_sort_by, list_elem_of_fmap. split.
    - intros ([? r] & -> & ?). by exists r.
    - intros [r ?]. by exists (i, r). }
  assert (Hlen : length (s_owners s) = length (s_claims s)).
  { rewrite Hs. simpl. rewrite sort_by_perm. apply length_fmap. }
  assert (Hmodes : ∀ i r, (i, r) ∈ s_claims s → res_mode r ∈ s_modes s).
  { intros i r Hr. rewrite Hs. simpl. apply elem_of_list_to_set.
    by apply (list_elem_of_fmap_2 (λ cl, res_mode cl.2) _ (i, r)). }
  unfold mode_error in Hm. apply orb_false_iff in Hm as [Hd Hm]. apply has_dups_false in Hd.
  constructor; rewrite ?Howners.
  - split_and!; [done| |done]. intros Hn. rewrite Hn in Hlen. by destruct (s_claims s).
  - intros i r Hr. unfold ownership, all_mediated.
    destruct (bool_decide_reflect (s_modes s = {["mediated"]})) as [E|E]; simpl.
    + specialize (Hmodes i r Hr). rewrite E in Hmodes. by apply elem_of_singleton in Hmodes.
    + rewrite orb_false_r in Hm.
      destruct (s_claims s) as [|[j q] [|? ?]] eqn:Hcl; [done| |].
      * apply list_elem_of_singleton in Hr. by injection Hr as -> ->.
      * simpl in *. reflect.
        specialize (Hmodes i r Hr). rewrite Hm in Hmodes. by apply elem_of_singleton in Hmodes.
  - intros Hl. unfold ownership. destruct (all_mediated s); [by right|].
    destruct (s_claims s) as [|[? ?] [|? ?]]; [by left| |by left].
    simpl in *. lia.
  - intros Hmed. destruct (all_mediated s) eqn:E.
    + destruct (mediated_single s E Hc Hp Hs) as (m & Hmm & Hmo & Hr).
      exists m. split_and!; [|done..]. unfold ownership. by rewrite E.
    + exfalso. unfold ownership in Hmed. rewrite E in Hmed.
      destruct (s_claims s) as [|[j q] [|? ?]] eqn:Hcl; try discriminate Hmed.
      simpl in Hmed. unfold all_mediated in E. reflect. apply E. rewrite Hs. simpl.
      rewrite Hmed. set_solver.
Qed.

(** ** Obligations *)

Definition bound_obligation (c : ExtensionContract) (o : ProcessObligationContract) (p : string)
    : ObligationBinding :=
  {| ob_extension_id := extension_id c; obb_role := ob_role o; obb_event := ob_event o;
     obb_completion := ob_completion o; obb_authority := ob_authority o;
     obb_direction := ob_direction o; obb_capability := ob_capability o;
     capability_provider := p; obb_quorum := ob_quorum o |}.

(** The extension whose capability an obligation of [c] watches. *)
Definition watches (bs : list CapabilityBinding) (c : ExtensionContract)
    (o : ProcessObligationContract) (p : string) : Prop :=
  if (ob_direction o =? "requires")%string then
    ∃ b, b ∈ bs ∧ consumer b = extension_id c ∧ b_capability b = ob_capability o ∧ provider b = p
  else p = extension_id c.

Lemma bind_obligation_ok bs c o b :
  bind_obligation bs c o = Ok b → ∃ p, b = bound_obligation c o p ∧ watches bs c o p.
Proof.
  unfold bind_obligation, watches. intros (p & Hp & [= <-])%result_bind_ok.
  exists p. split; [done|]. destruct (_ =? _)%string; [|by injection Hp].
  unfold requirement_provider in Hp. destruct (find_last _ bs) as [b|] eqn:E; [|done].
  apply find_last_Some in E as [Hb E]. simpl in Hp. injection Hp as <-. reflect. by exists b.
Qed.

Lemma map_result_elem {A B} (f : A → result B) l ys x :
  map_result f l = Ok ys → x ∈ l → ∃ y, y ∈ ys ∧ f x = Ok y.
Proof.
  intros Hm%map_result_ok [i Hi]%list_elem_of_lookup.
  destruct (Forall2_lookup_l _ _ _ _ _ Hm Hi) as (y & Hy & Hf). exists y.
  split; [by eapply list_elem_of_lookup_2|done].
Qed.

Lemma validate_ok cs c o :
  validate_obligation_authority cs = Ok tt → c ∈ cs → o ∈ process_obligations c →
  expected_grant o ∈ grants_of (ob_authority o) (authority c).
Proof.
  unfold validate_obligation_authority. intros (l & Hl & _)%result_bind_ok Hc Ho.
  destruct (map_result_elem _ _ _ c Hl Hc) as (l' & _ & Hl').
  destruct (map_result_elem _ _ _ o Hl' Ho) as (u & _ & Hu).
  unfold check_obligation, require_authority in Hu. destruct u.
  apply check_ok in Hu. by reflect.
Qed.

Lemma bind_obligations_ok cs bs obs :
  bind_obligations cs bs = Ok obs →
  length obs = sum_list ((λ c, length (process_obligations c)) <$> cs)
  ∧ ∀ c o, c ∈ cs → o ∈ process_obligations c →
      ∃ p, bound_obligation c o p ∈ obs ∧ watches bs c o p.
Proof.
  unfold bind_obligations. intros (l & Hl & [= <-])%result_bind_ok. split.
  - rewrite sort_by_perm. apply map_result_ok in Hl. induction Hl as [|c l0 cs l Hc _ IH]; [done|].
    csimpl. rewrite length_app, IH. f_equal. apply map_result_ok, Forall2_length in Hc. done.
  - intros c o Hc Ho. destruct (map_result_elem _ _ _ c Hl Hc) as (l0 & Hl0 & Hm).
    destruct (map_result_elem _ _ _ o Hm Ho) as (b & Hb & Hbo).
    apply bind_obligation_ok in Hbo as (p & -> & Hp). exists p. split; [|done].
    apply elem_of_sort_by, list_elem_of_In, in_concat. exists l0.
    split; by apply list_elem_of_In.
Qed.

(** ** Permutations *)

Lemma sum_list_perm l l' : l ≡ₚ l' → sum_list l = sum_list l'.
Proof. induction 1; simpl; lia. Qed.

Lemma map_result_perm {A} (f : A → result unit) l l' :
  l ≡ₚ l' → (∃ u, map_result f l = Ok u) → ∃ u, map_result f l' = Ok u.
Proof.
  intros Hp [u Hu]. apply map_result_ok in Hu. exists (replicate (length l') tt).
  apply map_result_ok, Forall2_replicate_r; [done|].
  apply Forall_forall. intros x Hx. rewrite <-Hp in Hx.
  apply list_elem_of_lookup in Hx as [i Hi].
  by destruct (Forall2_lookup_l _ _ _ _ _ Hu Hi) as ([] & _ & ?).
Qed.

Lemma map_result_err {A B} (f : A → result B) l e :
  map_result f l = Err e → ∃ x, x ∈ l ∧ f x = Err e.
Proof.
  induction l as [|x l IH]; simpl; [done|].
  destruct (f x) as [y|e'] eqn:E; simpl.
  - destruct (map_result f l); simpl; [done|]. intros [= ->].
    destruct IH as (z & ? & ?); [done|]. exists z. split; [by right|done].
  - intros [= ->]. exists x. split; [by left|done].
Qed.

End Proofs.
