(* ===== verification/CompilerTheorems.v ===== *)
(** * CompilerTheorems: the properties of the contract compiler

    The theorems about parsing and compiling contracts, and a small run of the compiler: two
    extensions, a taxonomy with an alias, and a toy version library that matches exact
    versions. *)

From S2P Require Import Prelude Effects Json Sha256 ContractParser ParserProofs.
From S2P Require Import ContractCompiler ContractOrder CompilerProofs.

Local Open Scope string_scope.
Local Open Scope list_scope.

(** ** A version library for the examples *)

Module ExactVersions.

(** Every string is a version, with a local label after a plus sign; a specifier set is
    [==version] or [>=0], which admits every version. *)
Definition strip_eq (s : string) : option (option string) :=
  if (s =? ">=0")%string then Some None
  else match s with
       | String c (String d s') =>
           if Ascii.eqb c "=" && Ascii.eqb d "=" then Some (Some s') else None
       | _ => None
       end.

Fixpoint local_label (s : string) : option string :=
  match s with
  | EmptyString => None
  | String c s' => if Ascii.eqb c "+" then Some s' else local_label s'
  end.

Definition spec_str (o : option string) : string :=
  match o with Some v => "==" +:+ v | None => ">=0" end.

#[export] Instance packaging : Packaging := {
  Version := string;
  parse_version := Some;
  version_local := local_label;
  version_str v := v;
  SpecifierSet := option string;
  parse_specifiers := strip_eq;
  specifier_versions o := match o with Some v => [v] | None => ["0"] end;
  specifiers_str := spec_str;
  version_in v o := match o with Some v' => (v =? v')%string | None => true end;
}.

#[export] Instance packaging_laws : PackagingLaws.
Proof. by constructor; [|intros [v|]]. Qed.

End ExactVersions.

(** ** Errors *)

(** The only exception is the planning error. *)
Definition planning {A} (r : result A) : Prop :=
  match r with Ok _ | Err (ContractPlanningError _ _) => True | _ => False end.

Lemma planning_bind {A B} (r : result A) (f : A → result B) :
  planning r → (∀ a, r = Ok a → planning (f a)) → planning (r ≫= f).
Proof. destruct r; simpl; auto. Qed.

Lemma planning_map {A B} (f : A → result B) l :
  (∀ x, x ∈ l → planning (f x)) → planning (map_result f l).
Proof.
  induction l as [|x l IH]; intros Hf; simpl; [done|].
  apply planning_bind; [apply Hf; by left|]. intros y _. apply planning_bind; [|done].
  apply IH. intros z ?. apply Hf. by right.
Qed.

Lemma planning_filter {A} (f : A → result bool) l :
  (∀ x, x ∈ l → planning (f x)) → planning (filter_result f l).
Proof.
  induction l as [|x l IH]; intros Hf; simpl; [done|].
  apply planning_bind; [apply Hf; by left|]. intros y _. apply planning_bind; [|done].
  apply IH. intros z ?. apply Hf. by right.
Qed.

Lemma planning_check b code d : planning (check b (ContractPlanningError code d)).
Proof. by destruct b. Qed.

Section Compiler.
Context `{Packaging} `{Sha256}.

(** [c] is what the parser makes of some JSON. *)
Definition parsed (c : ExtensionContract) : Prop := ∃ payload, parse_contract payload = Ok c.

Lemma tax_lookup_in t name r : tax_lookup t name = Some r → r ∈ tax_resources t.
Proof. by intros [? _]%find_last_Some. Qed.

Lemma tax_lookup_Some t r name :
  r ∈ tax_resources t → name ∈ resource_names r →
  ∃ r', tax_lookup t name = Some r' ∧ r' ∈ tax_resources t ∧ name ∈ resource_names r'.
Proof.
  intros Hr Hn. unfold tax_lookup. destruct (find_last _ _) as [r'|] eqn:E.
  - apply find_last_Some in E as [? E]. exists r'. unfold isin in E. by reflect.
  - exfalso. unfold find_last in E. pose proof (find_none _ _ E r) as Hf.
    rewrite <-in_rev, <-list_elem_of_In in Hf. specialize (Hf Hr). unfold isin in Hf.
    by rewrite bool_decide_true in Hf.
Qed.

Lemma planning_normalize cs t : planning (normalize_taxonomy_resources cs t).
Proof.
  unfold normalize_taxonomy_resources.
  destruct (sort_by id strs_leb (unknown_claims t cs)) as [|row rows]; [|done].
  destruct (sort_by id strs_leb (invalid_modes t cs)) as [|row rows] eqn:Hi; [done|].
  assert (row ∈ invalid_modes t cs) as Hrow.
  { apply (elem_of_sort_by id strs_leb). rewrite Hi. by left. }
  apply list_elem_of_omap in Hrow as ([c claim] & _ & Hrow). simpl in Hrow.
  destruct (tax_lookup t (res_name claim)) as [r|] eqn:Hl; [|done].
  destruct (isin _ _); [done|]. injection Hrow as <-. simpl.
  destruct (tax_lookup_Some t r (canonical r)) as (r' & -> & _); [by eapply tax_lookup_in|by left|].
  done.
Qed.

Lemma planning_resolve cs :
  (∀ c, c ∈ cs → Forall (λ cap, is_Some (parse_version (cap_version cap))) (provides c)
     ∧ Forall (λ cap, is_Some (parse_specifiers (cap_version cap))) (requires c)) →
  planning (resolve_capabilities cs).
Proof.
  intros Hok. unfold resolve_capabilities. apply planning_bind; [|done].
  apply planning_map. intros c Hc. apply planning_map. intros r Hr.
  unfold bind_requirement. apply planning_bind.
  - apply planning_filter. intros [p cap] Hin. apply elem_of_candidates in Hin as (Hp & Hcap & _).
    destruct (Hok p Hp) as [Hv _], (Hok c Hc) as [_ Hs]. rewrite Forall_forall in Hv, Hs.
    destruct (Hv cap Hcap) as [v Ev], (Hs r Hr) as [s Es].
    unfold compatible, the_version, the_specifiers. simpl. by rewrite Ev, Es.
  - intros l _. by destruct l as [|[? ?] [|? ?]].
Qed.

Lemma planning_order cs deps : planning (order_contracts cs deps).
Proof. unfold order_contracts. by destruct (decide _). Qed.

Lemma planning_resources cs : planning (resolve_resources cs).
Proof.
  unfold resolve_resources. destruct (List.filter mode_error _); [|done].
  destruct (List.filter consistency_error _); [|done]. by destruct (List.filter presence_error _).
Qed.

Lemma planning_obligations cs bs deps :
  resolved cs bs deps →
  (∀ c, c ∈ cs → Forall (obligation_ok (provides c) (requires c)) (process_obligations c)) →
  planning (bind_obligations cs bs).
Proof.
  intros Hr Hok. unfold bind_obligations. apply planning_bind; [|done].
  apply planning_map. intros c Hc. apply planning_map. intros o Ho.
  unfold bind_obligation. apply planning_bind; [|done].
  destruct (ob_direction o =? "requires")%string eqn:E; [|done]. reflect.
  specialize (Hok c Hc). rewrite Forall_forall in Hok. specialize (Hok o Ho).
  pose proof (oo_declared _ _ _ Hok) as Hd. unfold declared_in in Hd. rewrite E in Hd. simpl in Hd.
  apply list_elem_of_fmap in Hd as (r & Hname & Hreq).
  destruct (rs_bound _ _ _ Hr c r Hc Hreq) as (p & cap & _ & Hb).
  unfold requirement_provider, find_last. destruct (find _ (rev bs)) eqn:Ef; [done|].
  exfalso. pose proof (find_none _ _ Ef _ (proj1 (in_rev _ _) (proj1 (list_elem_of_In _ _) Hb)))
    as Hf. simpl in Hf. by rewrite Hname, !String.eqb_refl in Hf.
Qed.

Context `{!PackagingLaws}.

Lemma parsed_ok c : parsed c → contract_ok c.
Proof. intros [payload Hp]. by eapply parse_contract_ok. Qed.

Lemma check_host_ok runtime version c :
  parsed c → planning (check_host runtime version c).
Proof.
  intros [s Hs]%parsed_ok%ok_range. unfold check_host. apply planning_bind.
  - destruct (_ =? _)%string; [|done]. unfold the_specifiers. by rewrite Hs.
  - intros b _. apply planning_check.
Qed.

Lemma planning_normalized tax runtime version cs :
  NoDup (ids cs) → Forall parsed cs → planning (compile_normalized runtime version tax cs).
Proof.
  intros Hnd Hok. rewrite Forall_forall in Hok. unfold compile_normalized. apply planning_bind.
  { destruct tax; [apply planning_normalize|done]. }
  intros N HN. assert (N = normalized tax cs) as ->.
  { unfold normalized. destruct tax; [by apply normalize_ok in HN as [-> _]|].
    injection HN as <-. symmetry. apply list_fmap_id. }
  assert (Hc : ∀ c', c' ∈ normalized tax cs → ∃ c, contract_ok c ∧ provides c' = provides c
    ∧ requires c' = requires c ∧ process_obligations c' = process_obligations c).
  { intros c' (c & Hin & ->)%elem_of_normalized. exists c. split; [by apply parsed_ok, Hok|].
    by destruct (norm_fields tax c) as (_ & ? & ? & ? & _). }
  apply planning_bind.
  { unfold validate_obligation_authority. apply planning_bind; [|done].
    apply planning_map. intros c _. apply planning_map. intros o _. apply planning_check. }
  intros _ _. apply planning_bind.
  { apply planning_resolve. intros c' (c & [] & -> & -> & _)%Hc. split; naive_solver. }
  intros [bs deps] Hr. apply resolve_capabilities_ok in Hr; [|by apply nodup_normalized].
  apply planning_bind; [apply planning_order|]. intros os _.
  apply planning_bind; [apply planning_resources|]. intros rs _.
  apply planning_bind; [|done]. apply (planning_obligations _ _ _ Hr).
  intros c' (c & [] & -> & -> & ->)%Hc. naive_solver.
Qed.

(** The host check as one condition on all contracts. *)
Lemma host_checks_perm runtime version cs cs' :
  Forall parsed cs → cs ≡ₚ cs' →
  (∃ u u', map_result (check_host runtime version) cs = Ok u
     ∧ map_result (check_host runtime version) cs' = Ok u')
  ∨ ∃ d d', map_result (check_host runtime version) cs
        = fail PlanningErrorCode.INCOMPATIBLE_HOST d
      ∧ map_result (check_host runtime version) cs'
        = fail PlanningErrorCode.INCOMPATIBLE_HOST d'.
Proof.
  intros Hok Hp.
  assert (Herr : ∀ l e, Forall parsed l → map_result (check_host runtime version) l = Err e →
    ∃ d, e = ContractPlanningError PlanningErrorCode.INCOMPATIBLE_HOST d).
  { intros l e Hl (c & Hc & He)%map_result_err. rewrite Forall_forall in Hl.
    destruct (ok_range _ (parsed_ok _ (Hl c Hc))) as [s Hs]. unfold check_host in He.
    unfold the_specifiers in He. rewrite Hs in He.
    destruct (_ =? _)%string; simpl in He; [destruct (version_in _ _)|]; try done;
      injection He as <-; by eexists. }
  destruct (map_result _ cs) as [u|e] eqn:E.
  - left. destruct (map_result_perm _ _ _ Hp (ex_intro _ u E)) as [u' E']. by exists u, u'.
  - right. destruct (Herr cs e Hok E) as [d ->]. exists d.
    destruct (map_result _ cs') as [u|e'] eqn:E'.
    + destruct (map_result_perm _ _ _ (symmetry Hp) (ex_intro _ u E')) as [? ?]. congruence.
    + rewrite Hp in Hok. destruct (Herr cs' e' Hok E') as [d' ->]. by exists d'.
Qed.

(** ** The parser *)

(** Whatever JSON the parser accepts is a well-formed contract: canonical identifier,
    public versions and specifiers, capabilities, resources and obligations without duplicate
    names and sorted, a mediator exactly for mediated resources, runtime events under runtime
    authority only, obligations and grants about declared capabilities only, a positive quorum
    exactly for quorum completion, and authority grants without duplicates. *)
Theorem parse_contract_wellformed payload c : parse_contract payload = Ok c → contract_ok c.
Proof. apply parse_contract_ok. Qed.

(** Aliases are unambiguous: in a parsed taxonomy every name a resource declares,
    canonical or alias, resolves to that resource, and normalising a claim twice is normalising
    it once. *)
Theorem taxonomy_resolves payload t :
  parse_contract_taxonomy payload = Ok t →
  (∀ r name, r ∈ tax_resources t → name ∈ resource_names r → tax_lookup t name = Some r)
  ∧ ∀ claim, normalize_claim t (normalize_claim t claim) = normalize_claim t claim.
Proof.
  intros Ht%parse_taxonomy_ok.
  assert (Hl : ∀ r name, r ∈ tax_resources t → name ∈ resource_names r →
    tax_lookup t name = Some r).
  { intros r name Hr Hn. destruct (tax_lookup_Some t r name Hr Hn) as (r' & -> & Hr' & Hn').
    f_equal. by eapply nodup_bind_unique; [apply Ht|..]. }
  split; [done|]. intros claim. unfold normalize_claim.
  destruct (tax_lookup t (res_name claim)) as [r|] eqn:E; [|by rewrite E].
  simpl. rewrite (Hl r (canonical r)); [done|by eapply tax_lookup_in|by left].
Qed.

(** ** The compiler *)

(** Compiling parsed contracts never fails in an unplanned way: for any contracts the
    parser accepted, any host and any taxonomy, [compile_contracts] returns a plan or raises
    [ContractPlanningError]; no [KeyError], no uncaught version error. *)
Theorem compile_errors_planned cs hr hv tax :
  Forall parsed cs → planning (compile_contracts cs hr hv tax).
Proof.
  intros Hok. unfold compile_contracts. apply planning_bind; [apply planning_check|]. intros _ _.
  apply planning_bind.
  { destruct hr; try done. simpl. unfold require. by destruct (trimmed s). }
  intros runtime _. apply planning_bind.
  { unfold _public_version. apply planning_bind.
    - destruct hv; try done. simpl. unfold require. by destruct (trimmed s).
    - intros raw _. destruct (parse_version raw); [|done]. apply planning_bind; [|done].
      apply planning_check. }
  intros public [v Hv]%public_version_ok. unfold the_version. rewrite Hv. simpl.
  apply planning_bind; [apply planning_check|]. intros u Hu. destruct u. apply check_ok in Hu.
  reflect. apply has_dups_false in Hu. apply planning_bind.
  - apply planning_map. intros c Hc. rewrite Forall_forall in Hok. by apply check_host_ok, Hok.
  - intros _ _. by apply planning_normalized.
Qed.

(** The two results agree, or both are an INCOMPATIBLE_HOST error. *)
Definition same_outcome {A} (r r' : result A) : Prop :=
  r = r' ∨ ∃ d d', r = fail PlanningErrorCode.INCOMPATIBLE_HOST d
             ∧ r' = fail PlanningErrorCode.INCOMPATIBLE_HOST d'.

Lemma same_bind {A B} (r : result A) (f g : A → result B) :
  (∀ a, r = Ok a → same_outcome (f a) (g a)) → same_outcome (r ≫= f) (r ≫= g).
Proof. destruct r as [a|e]; [intros Hf; by apply Hf|by left]. Qed.

(** The plan is a function of the set of contracts: reordering the contracts gives the same
    plan or the same error, except that when several extensions do not fit the host the
    INCOMPATIBLE_HOST error names the first of them. *)
Theorem compile_order_independent cs cs' hr hv tax :
  Forall parsed cs → cs ≡ₚ cs' →
  same_outcome (compile_contracts cs hr hv tax) (compile_contracts cs' hr hv tax).
Proof.
  intros Hok Hp. unfold compile_contracts.
  rewrite (bool_decide_ext (cs = []) (cs' = [])).
  2: { split; intros E; rewrite E in Hp; apply Permutation_nil_r; first [exact Hp|by symmetry]. }
  assert (has_dups (extension_id <$> cs) = has_dups (extension_id <$> cs')) as ->.
  { unfold has_dups. f_equal. apply bool_decide_ext. by rewrite Hp. }
  apply same_bind. intros _ _. apply same_bind. intros runtime _.
  apply same_bind. intros public _. apply same_bind. intros version _.
  apply same_bind. intros u Hd. destruct u. apply check_ok in Hd. reflect.
  apply has_dups_false in Hd.
  destruct (host_checks_perm runtime version cs cs' Hok Hp) as [(u & u' & -> & ->)|(d & d' & -> & ->)];
    [left; simpl|right; by exists d, d'].
  unfold compile_normalized.
  rewrite (sort_by_unique extension_id str_leb String.leb_total str_leb_trans String.leb_antisym
    cs cs'); [done| |done].
  intros x y Hx Hy. apply (key_inj_of_nodup extension_id cs); [|done..]. by rewrite Hp.
Qed.

End Compiler.

Section Plans.
Context `{Packaging}.

Lemma sole_provider_norm tax cs r p cap :
  NoDup (ids cs) → sole_provider (normalized tax cs) r p cap →
  ∃ p0, p = norm tax p0 ∧ sole_provider cs r p0 cap.
Proof.
  intros Hnd (Hp & Hcap & Hs & Huniq). apply elem_of_normalized in Hp as (p0 & Hp0 & ->).
  destruct (norm_fields tax p0) as (Hid & Hprov & _). rewrite Hprov in Hcap.
  exists p0. split; [done|]. split_and!; [done..|]. intros p' cap' Hp' Hcap' Hs'.
  destruct (norm_fields tax p') as (Hid' & Hprov' & _).
  destruct (Huniq (norm tax p') cap') as [Heq ->]; [|by rewrite Hprov'|done|].
  { apply elem_of_normalized. by exists p'. }
  split; [|done]. apply (key_inj_of_nodup extension_id cs); [done..|]. by rewrite <-Hid', Heq.
Qed.

(** Every requirement has exactly one provider: in a compiled plan each requirement of each
    contract is bound to the only selected capability with its name and a version in its range,
    and the plan has no other bindings. *)
Theorem plan_binds_requirements cs hr hv tax plan :
  compile_contracts cs hr hv tax = Ok plan →
  (∀ c r, c ∈ cs → r ∈ requires c →
     ∃ p cap, sole_provider cs r p cap ∧ binding_of c r p cap ∈ capability_bindings plan)
  ∧ ∀ b, b ∈ capability_bindings plan →
     ∃ c r p cap, c ∈ cs ∧ r ∈ requires c ∧ sole_provider cs r p cap ∧ b = binding_of c r p cap.
Proof.
  intros [deps Hc]%compile_ok. pose proof (compiled_resolved _ _ _ _ Hc) as Hr.
  assert (Hb : ∀ c r p cap, binding_of (norm tax c) r (norm tax p) cap = binding_of c r p cap).
  { intros c r p cap. unfold binding_of. destruct (norm_fields tax c) as [-> _].
    by destruct (norm_fields tax p) as [-> _]. }
  split.
  - intros c r Hin Hreq. destruct (rs_bound _ _ _ Hr (norm tax c) r) as (p & cap & Hp & Hbind).
    { apply elem_of_normalized. by exists c. }
    { by destruct (norm_fields tax c) as (_ & _ & -> & _). }
    apply sole_provider_norm in Hp as (p0 & -> & Hp0); [|apply Hc].
    exists p0, cap. by rewrite Hb in Hbind.
  - intros b Hin. destruct (rs_only _ _ _ Hr b Hin) as (c & r & p & cap & Hcn & Hreq & Hp & ->).
    apply elem_of_normalized in Hcn as (c0 & Hc0 & ->).
    apply sole_provider_norm in Hp as (p0 & -> & Hp0); [|apply Hc].
    exists c0, r, p0, cap. rewrite Hb. split_and!; try done.
    by destruct (norm_fields tax c0) as (_ & _ & <- & _).
Qed.

(** C19. The plan's order is the least topological order: the ordered contracts are the given
    ones up to resource names, every extension comes after those it takes a capability from, and
    at each place stands the alphabetically first extension that may come next. *)
Theorem plan_order_least cs hr hv tax plan :
  compile_contracts cs hr hv tax = Ok plan →
  plan_order cs (capability_bindings plan) (ids (ordered_contracts plan))
  ∧ ∃ l, l ≡ₚ cs ∧ Forall2 same_contract l (ordered_contracts plan).
Proof.
  intros [deps Hc]%compile_ok. pose proof (compiled_resolved _ _ _ _ Hc) as Hr.
  destruct (order_contracts_ok _ _ _ _ (nodup_normalized _ _ (co_ids _ _ _ _ Hc)) Hr
    (co_order _ _ _ _ Hc)) as [Hperm [Hp Hleast]]. split.
  - split; [by rewrite Hp, ids_normalized|]. intros before x after Heq.
    destruct (Hleast before x after Heq) as [H1 H2]. split; [done|].
    intros y Hy. apply H2. by rewrite ids_normalized.
  - apply Permutation_map_inv in Hperm as (l & -> & Hl). exists l. split.
    + rewrite <-Hl. apply sort_by_perm.
    + apply Forall2_fmap_r, Forall_Forall2_diag, Forall_true. intros c. apply norm_same.
Qed.

(** C38. Ordering succeeds exactly on acyclic dependencies: once the capabilities are resolved,
    [order_contracts] returns an order when no chain of capability bindings leads from an
    extension back to itself, and raises DEPENDENCY_CYCLE when one does; it raises nothing
    else. *)
Theorem dependency_cycle_iff cs bs deps :
  NoDup (ids cs) → resolve_capabilities cs = Ok (bs, deps) →
  match order_contracts cs deps with
  | Ok _ => ¬ cyclic bs
  | Err e => cyclic bs ∧ ∃ d, e = ContractPlanningError PlanningErrorCode.DEPENDENCY_CYCLE d
  end.
Proof. intros Hnd Hr. apply order_contracts_cyclic; [done|]. by apply resolve_capabilities_ok. Qed.

(** The claims of [cs] on the resource [name], aliases resolved. *)
Definition claims_on (tax : option ContractTaxonomy) (cs : list ExtensionContract)
    (name i : string) (r : ContractResource) : Prop :=
  ∃ c claim, c ∈ cs ∧ claim ∈ resources c ∧ i = extension_id c ∧ res_name r = name
    ∧ r = match tax with Some t => normalize_claim t claim | None => claim end.

Lemma claims_in_normalized tax cs name i r :
  claims_in (normalized tax cs) name i r ↔ claims_on tax cs name i r.
Proof.
  unfold claims_in, claims_on. setoid_rewrite elem_of_normalized. split.
  - intros (c' & (c & Hc & ->) & Hr & <- & Hn). exists c. destruct tax as [t|]; simpl in *.
    + apply elem_of_sort_by, list_elem_of_fmap in Hr as (claim & -> & Hcl). by exists claim.
    + by exists r.
  - intros (c & claim & Hc & Hcl & -> & Hn & ->). exists (norm tax c). split_and!; [by exists c| |
      apply norm_fields|done].
    destruct tax as [t|]; simpl; [|done]. by apply elem_of_sort_by, list_elem_of_fmap_2.
Qed.

Lemma owned_iff (P Q : string → ContractResource → Prop) o :
  (∀ i r, P i r ↔ Q i r) → owned P o → owned Q o.
Proof.
  intros HPQ [(H1 & H2 & H3) H4 H5 H6]. constructor; [|by intros i r ?%HPQ; eapply H4|done|].
  - split_and!; [done..|]. intros i. rewrite H3. by setoid_rewrite HPQ.
  - intros Hm. destruct (H6 Hm) as (m & ? & ? & ?). exists m. split_and!; [done..|].
    intros i r ?%HPQ. eauto.
Qed.

Lemma summary_owned tax cs rs s :
  resolve_resources (normalized tax cs) = Ok rs → s ∈ summaries (normalized tax cs) →
  owned (claims_on tax cs (s_name s)) (ownership s).
Proof.
  intros [_ Hall]%resolve_resources_ok Hs. destruct (Hall s Hs) as (? & ? & ?).
  destruct (summaries_spec _ _ Hs) as (Hsum & Hne & Hcl).
  eapply owned_iff; [|by apply ownership_owned]. intros i r. cbv beta.
  by rewrite Hcl, claims_in_normalized.
Qed.

(** C20. Resources are owned without conflict: the ownership table of a plan has exactly one row
    per claimed resource, aliases resolved; its owners are the claimants, each once; all claims
    have the row's mode, which the taxonomy allows; several owners only share for reading or are
    mediated, and a mediated resource names one mediator, which is an owner and which every
    claim names. *)
Theorem resources_owned cs hr hv tax plan :
  compile_contracts cs hr hv tax = Ok plan →
  NoDup (o_resource <$> resource_ownership plan)
  ∧ (∀ name i r, claims_on tax cs name i r →
       ∃ o, o ∈ resource_ownership plan ∧ o_resource o = name)
  ∧ ∀ o, o ∈ resource_ownership plan → owned (claims_on tax cs (o_resource o)) o
      ∧ ∀ t, tax = Some t → ∃ rule, rule ∈ tax_resources t ∧ canonical rule = o_resource o
          ∧ o_mode o ∈ allowed_modes rule.
Proof.
  intros [deps Hc]%compile_ok. pose proof (co_resources _ _ _ _ Hc) as Hres.
  assert (Hname : ∀ s, o_resource (ownership s) = s_name s).
  { intros s. unfold ownership. destruct (all_mediated s); [done|].
    by destruct (s_claims s) as [|[? ?] [|? ?]]. }
  pose proof Hres as [Hown _]%resolve_resources_ok. rewrite Hown. split_and!.
  - rewrite <-list_fmap_compose. erewrite list_fmap_ext; [apply (summaries_nodup (normalized tax cs))|].
    intros _ s _. apply Hname.
  - intros name i r Hcl. apply claims_in_normalized in Hcl.
    destruct (summaries_complete _ _ _ _ Hcl) as (s & Hs & Hn). exists (ownership s).
    split; [by apply list_elem_of_fmap_2|]. by rewrite Hname.
  - intros o (s & -> & Hs)%list_elem_of_fmap. rewrite Hname.
    pose proof (summary_owned _ _ _ _ Hres Hs) as Ho. split; [done|]. intros t ->.
    destruct (ow_owners _ _ Ho) as (_ & Hne & Hin).
    destruct (owners (ownership s)) as [|i l]; [done|].
    destruct (proj1 (Hin i)) as [r Hr]; [by left|]. rewrite <-(ow_mode _ _ Ho i r Hr).
    destruct Hr as (c & claim & Hcc & Hcl & -> & Hn & ->).
    destruct (co_allowed _ _ _ _ Hc t c claim eq_refl Hcc Hcl) as (rule & Hrule & Hmode).
    unfold normalize_claim in *. rewrite Hrule in *. exists rule.
    split_and!; [by apply find_last_Some in Hrule as [? _]|done..].
Qed.

(** Every process obligation is authorised and bound: each obligation of each contract has a
    matching grant of its authority kind, and is bound in the plan to the extension whose
    capability it watches, the contract itself or the provider bound to its requirement; the
    plan has no other obligations. *)
Theorem obligations_authorized cs hr hv tax plan :
  compile_contracts cs hr hv tax = Ok plan →
  (∀ c o, c ∈ cs → o ∈ process_obligations c →
     expected_grant o ∈ grants_of (ob_authority o) (authority c)
     ∧ ∃ p, bound_obligation c o p ∈ obligation_bindings plan
         ∧ watches (capability_bindings plan) c o p)
  ∧ length (obligation_bindings plan)
    = sum_list ((λ c, length (process_obligations c)) <$> cs).
Proof.
  intros [deps Hc]%compile_ok.
  destruct (bind_obligations_ok _ _ _ (co_obligations _ _ _ _ Hc)) as [Hlen Hall]. split.
  - intros c o Hcc Ho. destruct (norm_fields tax c) as (Hid & _ & _ & Hobs & Hau).
    assert (norm tax c ∈ normalized tax cs) as Hn by (apply elem_of_normalized; by exists c).
    rewrite <-Hobs in Ho. split.
    + rewrite <-Hau. by apply (validate_ok _ _ _ (co_authority _ _ _ _ Hc)).
    + destruct (Hall _ o Hn Ho) as (p & Hp & Hw). exists p.
      unfold bound_obligation, watches in *. by rewrite Hid in *.
  - rewrite Hlen. unfold normalized. rewrite <-list_fmap_compose.
    set (n := λ c, length (process_obligations c)).
    assert (n <$> cs ≡ₚ n <$> sort_by extension_id str_leb cs) as Hp
      by (apply fmap_Permutation; symmetry; apply sort_by_perm).
    rewrite (sum_list_perm _ _ Hp). unfold n.
    f_equal. apply list_fmap_ext. intros _ c _. simpl.
    by destruct (norm_fields tax c) as (_ & _ & _ & -> & _).
Qed.

End Plans.

(** ** A run *)

Module CompilerDemo.
Export ExactVersions.

Definition strs (l : list string) : json := JArr (JStr <$> l).

Definition cap (name version : string) : json :=
  JObj [("name", JStr name); ("version", JStr version)].

Definition grant (role event direction capability : string) : json :=
  JObj [("role", JStr role); ("event", JStr event); ("capability_direction", JStr direction);
        ("capability", JStr capability)].

Definition obligation (role event direction capability : string) : json :=
  JObj [("role", JStr role); ("event", JStr event); ("completion", JStr "all");
        ("authority", JStr "runtime"); ("capability_direction", JStr direction);
        ("capability", JStr capability)].

Definition resource (name mode : string) : json :=
  JObj [("name", JStr name); ("mode", JStr mode)].

Definition contract (i : string) (provs reqs rs : list json) (direction capability : string)
    : json :=
  JObj [("schema", JStr "ecpa-manifest/0.1-draft"); ("id", JStr i); ("version", JStr "1.0");
        ("host", JObj [("runtime", JStr "vllm"); ("version", JStr ">=0")]);
        ("capabilities", JObj [("provides", JArr provs); ("requires", JArr reqs)]);
        ("resources", JArr rs);
        ("process_obligations", JArr [obligation "worker" "loaded" direction capability]);
        ("rollback", JObj [("manager_owned", strs ["env"]);
                           ("external_operator_owned", strs [])]);
        ("authority", JObj [("provider", JArr []);
                            ("runtime", JArr [grant "worker" "loaded" direction capability]);
                            ("external", JArr [])])].

(** A cache [acme.kv], and an attention extension [acme.attention] that needs it. *)
Definition kv_json : json :=
  contract "acme.kv" [cap "acme.kv-cache" "1.0"] [] [resource "host.kv-blocks" "shared-read"]
    "provides" "acme.kv-cache".

Definition attention_json : json :=
  contract "acme.attention" [cap "acme.paged-attention" "2.0"] [cap "acme.kv-cache" "==1.0"]
    [resource "host.block-table" "shared-read"; resource "host.attention" "exclusive"]
    "requires" "acme.kv-cache".

(** An extension that provides the cache only to itself: it requires the attention's capability
    while the attention requires the cache. *)
Definition cyclic_json : json :=
  contract "acme.kv" [cap "acme.kv-cache" "1.0"] [cap "acme.paged-attention" ">=0"] []
    "provides" "acme.kv-cache".

Definition taxonomy_json : json :=
  let res canon als modes :=
    JObj [("canonical", JStr canon); ("aliases", strs als); ("allowed_modes", strs modes);
          ("description", JStr "resource")] in
  JObj [("schema", JStr "ecpa-contract-taxonomy/0.1-draft"); ("scope", JStr _TAXONOMY_SCOPE);
        ("decision_precedence", strs _TAXONOMY_DECISION_PRECEDENCE);
        ("capabilities", JArr [JObj [("name", JStr "acme.kv-cache"); ("description", JStr "c")]]);
        ("resources", JArr [res "host.kv-blocks" ["host.block-table"] ["shared-read"];
                            res "host.attention" [] ["exclusive"; "mediated"]])].

Definition the (r : result ExtensionContract) : list ExtensionContract :=
  match r with Ok c => [c] | Err _ => [] end.

Definition kv : list ExtensionContract := the (parse_contract kv_json).
Definition attention : list ExtensionContract := the (parse_contract attention_json).
Definition contracts : list ExtensionContract := kv ++ attention.
Definition cycle : list ExtensionContract := the (parse_contract cyclic_json) ++ attention.

Definition taxonomy : option ContractTaxonomy :=
  match parse_contract_taxonomy taxonomy_json with Ok t => Some t | Err _ => None end.

Definition compiled_plan : result ContractPlan :=
  compile_contracts contracts (JStr "vllm") (JStr "0.11") taxonomy.

Lemma the_parsed payload : Forall parsed (the (parse_contract payload)).
Proof.
  destruct (parse_contract payload) as [c|e] eqn:E; [|constructor].
  constructor; [by exists payload|constructor].
Qed.

Lemma contracts_parsed : Forall parsed contracts.
Proof. apply Forall_app. split; apply the_parsed. Qed.

(** The provider first although its name is the larger one, the alias resolved to one shared
    resource. *)
Example compiled_plan_ex :
  match compiled_plan with
  | Ok p =>
      ids (ordered_contracts p) = ["acme.kv"; "acme.attention"]
      ∧ ((λ o, (o_resource o, o_mode o, owners o)) <$> resource_ownership p)
        = [("host.attention", "exclusive", ["acme.attention"]);
           ("host.kv-blocks", "shared-read", ["acme.attention"; "acme.kv"])]
      ∧ (capability_provider <$> obligation_bindings p) = ["acme.kv"; "acme.kv"]
  | Err _ => False
  end.
Proof. vm_compute. repeat split. Qed.

End CompilerDemo.

Import CompilerDemo.

Lemma parse_contract_wellformed_witness :
  ∃ c, parse_contract attention_json = Ok c ∧ extension_id c = "acme.attention" ∧ contract_ok c.
Proof.
  destruct (parse_contract attention_json) as [c|e] eqn:E.
  - exists c. split; [reflexivity|]. split; [|apply (parse_contract_wellformed _ _ E)].
    revert E. vm_compute. intros [= <-]. reflexivity.
  - exfalso. revert E. vm_compute. discriminate.
Defined.

Lemma taxonomy_resolves_witness :
  ∃ t, parse_contract_taxonomy taxonomy_json = Ok t
    ∧ normalize_claim t (normalize_claim t (mkResource "host.block-table" "shared-read" None))
      = normalize_claim t (mkResource "host.block-table" "shared-read" None).
Proof.
  destruct (parse_contract_taxonomy taxonomy_json) as [t|e] eqn:E.
  - exists t. split; [reflexivity|]. apply (taxonomy_resolves _ _ E).
  - exfalso. revert E. vm_compute. discriminate.
Defined.

Lemma compile_errors_planned_witness :
  length contracts = 2 ∧ planning (compile_contracts contracts (JStr "vllm") (JStr "1+x") None).
Proof.
  split; [vm_compute; reflexivity|]. apply (compile_errors_planned contracts), contracts_parsed.
Defined.

Lemma compile_order_independent_witness :
  same_outcome compiled_plan
    (compile_contracts (attention ++ kv) (JStr "vllm") (JStr "0.11") taxonomy).
Proof.
  apply (compile_order_independent contracts (attention ++ kv)); [apply contracts_parsed|].
  apply Permutation_app_comm.
Defined.

Lemma compiled_plan_Ok : ∃ plan, compiled_plan = Ok plan.
Proof.
  pose proof compiled_plan_ex as E. destruct compiled_plan as [p|e]; [by exists p|destruct E].
Qed.

Lemma plan_binds_requirements_witness :
  ∃ plan, compiled_plan = Ok plan ∧ ∀ b, b ∈ capability_bindings plan →
    ∃ c r p cap, c ∈ contracts ∧ r ∈ requires c ∧ sole_provider contracts r p cap
      ∧ b = binding_of c r p cap.
Proof.
  destruct compiled_plan_Ok as [plan E]. exists plan. split; [exact E|].
  apply (plan_binds_requirements _ _ _ _ _ E).
Defined.

Lemma plan_order_least_witness :
  ∃ plan, compiled_plan = Ok plan
    ∧ plan_order contracts (capability_bindings plan) (ids (ordered_contracts plan)).
Proof.
  destruct compiled_plan_Ok as [plan E]. exists plan. split; [exact E|].
  apply (plan_order_least _ _ _ _ _ E).
Defined.

Lemma cycle_rejected :
  match resolve_capabilities cycle with
  | Ok (bs, deps) => match order_contracts cycle deps with Ok _ => False | Err _ => True end
  | Err _ => False
  end.
Proof. vm_compute. exact I. Qed.

Lemma dependency_cycle_iff_witness :
  ∃ bs deps, resolve_capabilities cycle = Ok (bs, deps) ∧ cyclic bs.
Proof.
  pose proof cycle_rejected as Hno.
  destruct (resolve_capabilities cycle) as [[bs deps]|e] eqn:E; [|destruct Hno].
  exists bs, deps. split; [reflexivity|].
  assert (NoDup (ids cycle)) as Hnd.
  { apply (bool_decide_unpack (NoDup (ids cycle))). vm_compute. exact I. }
  pose proof (dependency_cycle_iff cycle bs deps Hnd E) as H.
  destruct (order_contracts cycle deps) as [os|e]; [destruct Hno|apply H].
Defined.

Lemma resources_owned_witness :
  ∃ plan, compiled_plan = Ok plan ∧ NoDup (o_resource <$> resource_ownership plan)
    ∧ ∀ o, o ∈ resource_ownership plan → owned (claims_on taxonomy contracts (o_resource o)) o.
Proof.
  destruct compiled_plan_Ok as [plan E]. exists plan. split; [exact E|].
  destruct (resources_owned _ _ _ _ _ E) as (H1 & _ & H2). split; [exact H1|].
  intros o Ho. apply (H2 o Ho).
Defined.

Lemma obligations_authorized_witness :
  ∃ plan, compiled_plan = Ok plan ∧ length (obligation_bindings plan) = 2.
Proof.
  destruct compiled_plan_Ok as [plan E]. exists plan. split; [exact E|].
  rewrite (proj2 (obligations_authorized _ _ _ _ _ E)). vm_compute. reflexivity.
Defined.
