(* ===== verification/JsonText.v ===== *)
(** * JsonText: reading JSON text

    [json.loads] of UTF-8 bytes, as quarantine_transaction.py and plan_artifact.py use it to read
    their records back, and the round trip with the printer of Json.v.  The reader follows
    CPython's scanner: four blank characters, strict strings, no leading zeros, the last of two
    equal keys wins.  Like Json.v it has no floats and no code point above U+00FF: text that
    holds one is rejected here.  [value], [items] and [members] carry fuel; [loads_fuel] is
    proved to be enough for any text. *)

From S2P Require Import Prelude Effects Json.

Local Open Scope string_scope.

(** ** UTF-8 *)

(** [bytes.decode()] of code points below U+0100. *)
Fixpoint utf8_decode (s : string) : option string :=
  match s with
  | EmptyString => Some EmptyString
  | String c s' =>
      let n := N_of_ascii c in
      if (n <? 128)%N then String c <$> utf8_decode s'
      else if (n =? 194)%N || (n =? 195)%N then
        match s' with
        | String d s'' =>
            let m := N_of_ascii d in
            if (128 <=? m)%N && (m <? 192)%N
            then String (ascii_of_N ((n - 192) * 64 + (m - 128))) <$> utf8_decode s''
            else None
        | EmptyString => None
        end
      else None
  end.

(** ** The scanner *)

Definition is_ws (c : ascii) : bool :=
  let n := N_of_ascii c in (n =? 32)%N || (n =? 9)%N || (n =? 10)%N || (n =? 13)%N.

Fixpoint skip_ws (s : string) : string :=
  match s with
  | String c s' => if is_ws c then skip_ws s' else s
  | EmptyString => EmptyString
  end.

Definition digit_of (c : ascii) : option Z :=
  let n := N_of_ascii c in
  if (48 <=? n)%N && (n <=? 57)%N then Some (Z.of_N (n - 48)) else None.

(** The longest run of digits. *)
Fixpoint read_digits (acc : Z) (s : string) : Z * string :=
  match s with
  | String c s' =>
      match digit_of c with
      | Some d => read_digits (10 * acc + d) s'
      | None => (acc, s)
      end
  | EmptyString => (acc, EmptyString)
  end.

(** [0|[1-9]\d*]. *)
Definition read_nat (s : string) : option (Z * string) :=
  match s with
  | String c s' =>
      match digit_of c with
      | Some d => if (d =? 0)%Z then Some (0%Z, s') else Some (read_digits d s')
      | None => None
      end
  | EmptyString => None
  end.

(** The text after the character [c], when it comes next. *)
Definition expect (c : ascii) (s : string) : option string :=
  match s with
  | String a s' => if Ascii.eqb a c then Some s' else None
  | EmptyString => None
  end.

Definition read_number (s : string) : option (json * string) :=
  match expect "-" s with
  | Some s' => '(z, r) ← read_nat s'; Some (JInt (- z), r)
  | None => '(z, r) ← read_nat s; Some (JInt z, r)
  end.

Definition hex_value (c : ascii) : option N :=
  let n := N_of_ascii c in
  if (48 <=? n)%N && (n <=? 57)%N then Some (n - 48)%N
  else if (97 <=? n)%N && (n <=? 102)%N then Some (n - 87)%N
  else if (65 <=? n)%N && (n <=? 70)%N then Some (n - 55)%N
  else None.

(** The character an escape stands for, without [\u]. *)
Definition unescape (c : ascii) : option ascii :=
  let n := N_of_ascii c in
  if (n =? 34)%N || (n =? 92)%N || (n =? 47)%N then Some c
  else if (n =? 98)%N then Some (ascii_of_N 8)
  else if (n =? 102)%N then Some (ascii_of_N 12)
  else if (n =? 110)%N then Some (ascii_of_N 10)
  else if (n =? 114)%N then Some (ascii_of_N 13)
  else if (n =? 116)%N then Some (ascii_of_N 9)
  else None.

(** The rest of a string literal after its opening quote. *)
Fixpoint read_string (s : string) : option (string * string) :=
  match s with
  | EmptyString => None
  | String c s1 =>
      if (N_of_ascii c =? 34)%N then Some (EmptyString, s1)
      else if (N_of_ascii c <? 32)%N then None
      else if (N_of_ascii c =? 92)%N then
        match s1 with
        | String "u" (String h1 (String h2 (String h3 (String h4 s2)))) =>
            x1 ← hex_value h1; x2 ← hex_value h2; x3 ← hex_value h3; x4 ← hex_value h4;
            if (x1 =? 0)%N && (x2 =? 0)%N then
              '(t, r) ← read_string s2; Some (String (ascii_of_N (16 * x3 + x4)) t, r)
            else None
        | String e s2 =>
            d ← unescape e; '(t, r) ← read_string s2; Some (String d t, r)
        | EmptyString => None
        end
      else '(t, r) ← read_string s1; Some (String c t, r)
  end.

(** [removeprefix], when the prefix is there. *)
Fixpoint strip_prefix (p s : string) : option string :=
  match p, s with
  | EmptyString, _ => Some s
  | String a p', String b s' => if Ascii.eqb a b then strip_prefix p' s' else None
  | _, EmptyString => None
  end.

Definition malformed : exn := ValueError "malformed JSON".

Definition of_option {A} (o : option A) : result A :=
  match o with Some a => Ok a | None => Err malformed end.

(** The constants that are not JSON. *)
Definition constants : list string := ["NaN"; "Infinity"; "-Infinity"].

Section Scanner.
(** [object_pairs_hook] and [parse_constant]. *)
Context (hook : list (string * json) → result json) (constant : string → result json).

(** A value that is no string, list or object. *)
Definition scalar (s : string) : result (json * string) :=
  match strip_prefix "null" s, strip_prefix "true" s, strip_prefix "false" s with
  | Some r, _, _ => Ok (JNull, r)
  | _, Some r, _ => Ok (JBool true, r)
  | _, _, Some r => Ok (JBool false, r)
  | None, None, None =>
      match read_number s, find (λ c, bool_decide (is_Some (strip_prefix c s))) constants with
      | Some v, _ => Ok v
      | None, Some c => v ← constant c; r ← of_option (strip_prefix c s); Ok (v, r)
      | None, None => Err malformed
      end
  end.

(** A JSON value; the elements of a list after "[" or ","; the members of an object after "{"
    or ",". *)
Fixpoint value (n : nat) (s : string) : result (json * string) :=
  match n with
  | O => Err malformed
  | S n' =>
      match s with
      | EmptyString => Err malformed
      | String c s' =>
          if (N_of_ascii c =? 34)%N then
            '(t, r) ← of_option (read_string s'); Ok (JStr t, r)
          else if Ascii.eqb c "{" then
            match expect "}" (skip_ws s') with
            | Some r => v ← hook []; Ok (v, r)
            | None => '(kvs, r) ← members n' (skip_ws s'); v ← hook kvs; Ok (v, r)
            end
          else if Ascii.eqb c "[" then
            match expect "]" (skip_ws s') with
            | Some r => Ok (JArr [], r)
            | None => '(l, r) ← items n' (skip_ws s'); Ok (JArr l, r)
            end
          else scalar s
      end
  end
with items (n : nat) (s : string) : result (list json * string) :=
  match n with
  | O => Err malformed
  | S n' =>
      '(v, r) ← value n' s;
      match expect "," (skip_ws r) with
      | Some r' => '(l, r2) ← items n' (skip_ws r'); Ok (v :: l, r2)
      | None => r' ← of_option (expect "]" (skip_ws r)); Ok ([v], r')
      end
  end
with members (n : nat) (s : string) : result (list (string * json) * string) :=
  match n with
  | O => Err malformed
  | S n' =>
      match s with
      | String c s' =>
          if (N_of_ascii c =? 34)%N then
            '(k, r) ← of_option (read_string s');
            r1 ← of_option (expect ":" (skip_ws r));
            '(v, r2) ← value n' (skip_ws r1);
            match expect "," (skip_ws r2) with
            | Some r3 => '(l, r4) ← members n' (skip_ws r3); Ok ((k, v) :: l, r4)
            | None => r3 ← of_option (expect "}" (skip_ws r2)); Ok ([(k, v)], r3)
            end
          else Err malformed
      | EmptyString => Err malformed
      end
  end.

(** The readers' equations. *)
Lemma value_S n c s' :
  value (S n) (String c s') =
    if (N_of_ascii c =? 34)%N then '(t, r) ← of_option (read_string s'); Ok (JStr t, r)
    else if Ascii.eqb c "{" then
      match expect "}" (skip_ws s') with
      | Some r => v ← hook []; Ok (v, r)
      | None => '(kvs, r) ← members n (skip_ws s'); v ← hook kvs; Ok (v, r)
      end
    else if Ascii.eqb c "[" then
      match expect "]" (skip_ws s') with
      | Some r => Ok (JArr [], r)
      | None => '(l, r) ← items n (skip_ws s'); Ok (JArr l, r)
      end
    else scalar (String c s').
Proof. done. Qed.

Lemma items_S n s :
  items (S n) s =
    ('(v, r) ← value n s;
     match expect "," (skip_ws r) with
     | Some r' => '(l, r2) ← items n (skip_ws r'); Ok (v :: l, r2)
     | None => r' ← of_option (expect "]" (skip_ws r)); Ok ([v], r')
     end).
Proof. done. Qed.

Lemma members_S n c s' :
  members (S n) (String c s') =
    if (N_of_ascii c =? 34)%N then
      '(k, r) ← of_option (read_string s');
      r1 ← of_option (expect ":" (skip_ws r));
      '(v, r2) ← value n (skip_ws r1);
      match expect "," (skip_ws r2) with
      | Some r3 => '(l, r4) ← members n (skip_ws r3); Ok ((k, v) :: l, r4)
      | None => r3 ← of_option (expect "}" (skip_ws r2)); Ok ([(k, v)], r3)
      end
    else Err malformed.
Proof. done. Qed.

Definition loads_fuel (s : string) : nat := 2 * String.length s + 2.

(** [json.loads(raw, object_pairs_hook=hook, parse_constant=constant)]. *)
Definition loads_with (raw : string) : result json :=
  s ← of_option (utf8_decode raw);
  let s := skip_ws s in
  '(v, r) ← value (loads_fuel s) s;
  match skip_ws r with
  | EmptyString => Ok v
  | _ => Err malformed
  end.
End Scanner.

(** Without a hook: the last of two equal keys wins. *)
Definition to_dict (kvs : list (string * json)) : result json :=
  Ok (JObj (fold_left (λ d kv, dict_set kv.1 kv.2 d) kvs [])).

(** A constant is a float, which the model has not. *)
Definition no_constant (c : string) : result json := Err malformed.

(** [json.loads(raw)]: [None] is the [ValueError] or [UnicodeDecodeError]. *)
Definition loads (raw : string) : option json :=
  match loads_with to_dict no_constant raw with Ok v => Some v | Err _ => None end.

Example loads_ex :
  loads (utf8 (dumps false (JObj [("b", JArr [JInt 1; JInt (-20); JBool true]); ("a", JNull)])))
  = Some (JObj [("a", JNull); ("b", JArr [JInt 1; JInt (-20); JBool true])]).
Proof. reflexivity. Qed.

(** ** Reading members *)

(** [value.get(key)]. *)
Definition get (key : string) (value : list (string * json)) : json :=
  default JNull (assoc key value).

(** [value in names], a set of strings: a list or a dictionary is unhashable. *)
Definition in_set (value : json) (names : list string) : result bool :=
  match value with
  | JStr s => Ok (bool_decide (s ∈ names))
  | JArr _ => Err (TypeError "unhashable type: 'list'")
  | JObj _ => Err (TypeError "unhashable type: 'dict'")
  | _ => Ok false
  end.

(** ** Round trip with the printer *)

(** No object has two members of one name. *)
Fixpoint keys_unique (j : json) : bool :=
  match j with
  | JArr l => forallb keys_unique l
  | JObj kvs => bool_decide (NoDup (keys kvs)) && forallb (λ kv, keys_unique kv.2) kvs
  | _ => true
  end.

(** The value as it is read back: members in printed order. *)
Fixpoint norm (j : json) : json :=
  match j with
  | JArr l => JArr (map norm l)
  | JObj kvs => JObj (sort_by fst str_leb (map (λ kv, (kv.1, norm kv.2)) kvs))
  | _ => j
  end.

Lemma utf8_decode_utf8 s : utf8_decode (utf8 s) = Some s.
Proof.
  induction s as [|c s IH]; [done|].
  assert (∀ t, utf8_decode t = Some s →
    utf8_decode (if (N_of_ascii c <? 128)%N then String c t
      else String (ascii_of_N (192 + N_of_ascii c / 64))
             (String (ascii_of_N (128 + N_of_ascii c mod 64)) t)) = Some (String c s)) as H.
  { intros t Ht. destruct c as [[] [] [] [] [] [] [] []]; simpl; by rewrite Ht. }
  cbn [utf8]. specialize (H _ IH). by destruct (N_of_ascii c <? 128)%N.
Qed.

Lemma read_string_char a c t :
  read_string (escape_char a c +:+ t) = '(u, r) ← read_string t; Some (String c u, r).
Proof. destruct a, c as [[] [] [] [] [] [] [] []]; reflexivity. Qed.

Lemma read_string_escape a s r :
  read_string (escape a s +:+ String quote_char r) = Some (s, r).
Proof.
  induction s as [|c s IH]; [done|]. cbn [escape].
  by rewrite <-str_app_assoc, read_string_char, IH.
Qed.

Definition no_digit (r : string) : Prop :=
  match r with String c _ => digit_of c = None | EmptyString => True end.

Lemma digit_of_pretty n : (n < 10)%N → digit_of (pretty_N_char n) = Some (Z.of_N n).
Proof.
  intros. assert (n = 0 ∨ n = 1 ∨ n = 2 ∨ n = 3 ∨ n = 4 ∨ n = 5 ∨ n = 6 ∨ n = 7 ∨ n = 8
    ∨ n = 9)%N as C by lia. by destruct_or! C; subst.
Qed.

Lemma read_digits_stop z r : no_digit r → read_digits z r = (z, r).
Proof. destruct r as [|c r]; simpl; [done|]. by intros ->. Qed.

(** The printed digits of a positive number: read back whole, and the first is not "0". *)
Lemma read_digits_go x s :
  (0 < x)%N → ∃ c t d, pretty_N_go x s = String c t ∧ digit_of c = Some d ∧ d ≠ 0%Z
    ∧ read_digits d t = read_digits (Z.of_N x) s.
Proof.
  revert s. induction (N.lt_wf_0 x) as [x _ IH]; intros s Hx.
  rewrite pretty_N_go_step by done.
  pose proof (N.mod_lt x 10 ltac:(lia)) as Hm. pose proof (N.div_mod x 10 ltac:(lia)) as Hd.
  destruct (decide (x / 10 = 0)%N) as [E|E].
  - rewrite E, pretty_N_go_0. eexists _, _, _. split; [done|].
    split; [by apply digit_of_pretty|].
    assert (x mod 10 = x)%N as -> by lia. split; [lia|done].
  - destruct (IH (x / 10)%N ltac:(apply N.div_lt; lia) (String (pretty_N_char (x mod 10)) s))
      as (c & t & d & Ec & Hc & Hn & Hr); [lia|].
    eexists _, _, _. split; [done|]. split; [done|]. split; [done|]. rewrite Hr. cbn [read_digits].
    rewrite digit_of_pretty by done. f_equal. lia.
Qed.

Lemma pretty_N_go_app x s r : pretty_N_go x s +:+ r = pretty_N_go x (s +:+ r).
Proof.
  revert s. induction (N.lt_wf_0 x) as [x _ IH]; intros s.
  destruct (decide (x = 0)%N) as [->|]; [done|].
  rewrite (pretty_N_go_step x s), (pretty_N_go_step x (s +:+ r)) by lia.
  apply IH. apply N.div_lt; lia.
Qed.

Lemma read_nat_pretty p r :
  no_digit r → read_nat (pretty (Npos p) +:+ r) = Some (Zpos p, r).
Proof.
  intros Hr. unfold pretty, pretty_N. rewrite decide_False by done. rewrite pretty_N_go_app.
  destruct (read_digits_go (Npos p) r) as (c & t & d & E & Hc & Hn & Ht); [lia|].
  change ("" +:+ r) with r. rewrite E. unfold read_nat. rewrite Hc.
  destruct (Z.eqb_spec d 0); [done|]. by rewrite Ht, read_digits_stop.
Qed.

(** The first character of a printed number. *)
Definition number_head (c : ascii) : bool :=
  match digit_of c with Some _ => true | None => Ascii.eqb c "-" end.

Lemma z_str_head z : ∃ c t, z_str z = String c t ∧ number_head c = true.
Proof.
  unfold z_str, pretty, pretty_Z. destruct z as [|p|p]; [by eexists _, _| |by eexists _, _].
  unfold pretty, pretty_positive, pretty, pretty_N. rewrite decide_False by done.
  destruct (read_digits_go (Npos p) "") as (c & t & d & -> & Hc & _); [lia|].
  eexists _, _. split; [done|]. unfold number_head. by rewrite Hc.
Qed.

Lemma read_number_z_str z r : no_digit r → read_number (z_str z +:+ r) = Some (JInt z, r).
Proof.
  intros Hr. unfold z_str, pretty, pretty_Z. destruct z as [|p|p]; [done| |].
  - unfold pretty, pretty_positive. pose proof (read_nat_pretty p r Hr) as H.
    revert H. unfold pretty, pretty_N. rewrite decide_False by done.
    destruct (read_digits_go (Npos p) "") as (c & t & d & -> & Hc & _); [lia|]. cbn [append].
    intros H. rewrite str_app_cons in *. unfold read_number, expect.
    destruct (Ascii.eqb_spec c "-"); [by subst|]. by rewrite H.
  - unfold read_number, expect. rewrite <-str_app_assoc, str_app_cons. unfold pretty, pretty_positive.
    pose proof (read_nat_pretty p r Hr) as H. change ("" +:+ ?x) with x.
    change (Ascii.eqb "-" "-") with true. cbv iota. by rewrite H.
Qed.

Section Printed.
(** Any hook that keeps a dictionary without repeated keys. *)
Context (hook : list (string * json) → result json) (constant : string → result json)
  (hook_keeps : ∀ kvs, NoDup (keys kvs) → hook kvs = Ok (JObj kvs)).

Abbreviation read_value := (value hook constant).
Abbreviation read_items := (items hook constant).
Abbreviation read_members := (members hook constant).

(** A printed number is no constant: "-Infinity" goes on with a letter. *)
Lemma value_number z n r :
  no_digit r → read_value (S n) (z_str z +:+ r) = Ok (JInt z, r).
Proof.
  intros Hr. pose proof (read_number_z_str z r Hr) as Hn.
  assert (∀ c, number_head c = true → (N_of_ascii c =? 34)%N = false ∧ Ascii.eqb c "{" = false
    ∧ Ascii.eqb c "[" = false ∧ Ascii.eqb "n" c = false ∧ Ascii.eqb "t" c = false
    ∧ Ascii.eqb "f" c = false) as Hc.
  { intros c. destruct c as [[] [] [] [] [] [] [] []]; vm_compute; intros E; repeat split;
      discriminate. }
  destruct (z_str_head z) as (c & t & E & Hd). destruct (Hc c Hd) as (H1 & H2 & H3 & H4 & H5 & H6).
  rewrite E, str_app_cons in *. rewrite value_S. rewrite H1, H2, H3. unfold scalar.
  cbn [strip_prefix]. by rewrite H4, H5, H6, Hn.
Qed.

(** The first character of a printed value starts neither a blank nor an empty list's end. *)
Lemma dumps_head v : ∃ c t, dumps false v = String c t ∧ is_ws c = false
  ∧ c ≠ "]"%char ∧ c ≠ "}"%char.
Proof.
  destruct v as [|[]|z|s|l|kvs]; try (eexists _, _; split; [done|done]).
  destruct (z_str_head z) as (c & t & E & Hc). exists c, t. cbn [dumps]. split; [done|].
  destruct c as [[] [] [] [] [] [] [] []]; vm_compute in Hc |- *; done.
Qed.

Lemma skip_ws_dumps v r : skip_ws (dumps false v +:+ r) = dumps false v +:+ r.
Proof.
  destruct (dumps_head v) as (c & t & -> & Hc & _). rewrite str_app_cons. cbn [skip_ws].
  by rewrite Hc.
Qed.

Lemma concat_cons2 sep x y l :
  String.concat sep (x :: y :: l) = x +:+ sep +:+ String.concat sep (y :: l).
Proof. done. Qed.

Lemma expect_comma s : expect "," (skip_ws ("," +:+ s)) = Some s.
Proof. done. Qed.

Definition member_text (kv : string * string) : string :=
  print_str false kv.1 +:+ ":" +:+ kv.2.

Definition reads (v : json) : Prop := ∀ n r,
  no_digit r → (2 * String.length (dumps false v) < n)%nat →
  read_value n (dumps false v +:+ r) = Ok (norm v, r).

Lemma items_dumps v l r n :
  Forall reads (v :: l) →
  (2 * String.length (String.concat "," (map (dumps false) (v :: l))) + 1 < n)%nat →
  read_items n (String.concat "," (map (dumps false) (v :: l)) +:+ "]" +:+ r)
  = Ok (map norm (v :: l), r).
Proof.
  revert v n. induction l as [|w l IH]; intros v n Hall Hn;
    inversion Hall as [|? ? Hv Hl]; subst; destruct n as [|n]; try lia.
  - cbn [map String.concat] in *. rewrite items_S. rewrite Hv; [done|done|lia].
  - cbn [map] in *. rewrite concat_cons2 in *. rewrite !str_length_app in Hn.
    change (String.length ",") with 1%nat in Hn. rewrite items_S.
    rewrite <-!str_app_assoc, Hv; [|done|lia]. cbn [of_option mbind result_bind].
    assert (∀ t, skip_ws (String.concat "," (dumps false w :: map (dumps false) l) +:+ t)
      = String.concat "," (dumps false w :: map (dumps false) l) +:+ t) as Hs.
    { intros t. destruct l as [|u l]; [apply skip_ws_dumps|].
      cbn [map]. rewrite concat_cons2, <-!str_app_assoc. apply skip_ws_dumps. }
    rewrite expect_comma, Hs. cbn [map] in IH. rewrite IH; [done|done|lia].
Qed.

Lemma members_dumps kv l r n :
  Forall (λ kv, reads kv.2) (kv :: l) →
  (2 * String.length (String.concat ","
     (map (λ kv, member_text (kv.1, dumps false kv.2)) (kv :: l))) + 1 < n)%nat →
  read_members n (String.concat "," (map (λ kv, member_text (kv.1, dumps false kv.2)) (kv :: l))
             +:+ "}" +:+ r)
  = Ok (map (λ kv, (kv.1, norm kv.2)) (kv :: l), r).
Proof.
  assert (∀ k v t, member_text (k, dumps false v) +:+ t = String quote_char (escape false k
    +:+ String quote_char (String ":" (dumps false v +:+ t)))) as Ht.
  { intros k v t. unfold member_text, print_str. cbn [fst snd].
    by rewrite <-!str_app_assoc, str_app_cons, <-!str_app_assoc. }
  assert (∀ k v, String.length (member_text (k, dumps false v))
    = String.length (escape false k) + String.length (dumps false v) + 3)%nat as Hlen.
  { intros k v. pose proof (Ht k v "") as E. rewrite str_app_nil_r in E. rewrite E.
    simpl. rewrite str_length_app. simpl. rewrite str_app_nil_r. lia. }
  revert kv n. induction l as [|kw l IH]; intros [k v] n Hall Hn;
    inversion Hall as [|? ? Hv Hl]; subst; destruct n as [|n]; try lia.
  - cbn [map String.concat fst snd] in *. rewrite Hlen in Hn. rewrite Ht. rewrite members_S.
    change (N_of_ascii quote_char =? 34)%N with true. cbv iota. rewrite read_string_escape.
    cbn [of_option mbind result_bind]. change (expect ":" (skip_ws (String ":" ?t))) with (Some t).
    cbn [of_option mbind result_bind].
    rewrite skip_ws_dumps, Hv; [done|done|lia].
  - cbn [map fst snd] in *. rewrite concat_cons2 in *. rewrite !str_length_app, Hlen in Hn.
    change (String.length ",") with 1%nat in Hn.
    rewrite <-!str_app_assoc, Ht. rewrite members_S.
    change (N_of_ascii quote_char =? 34)%N with true. cbv iota. rewrite read_string_escape.
    cbn [of_option mbind result_bind]. change (expect ":" (skip_ws (String ":" ?t))) with (Some t).
    cbn [of_option mbind result_bind].
    rewrite skip_ws_dumps, Hv; [|done|lia]. cbn [of_option mbind result_bind]. rewrite expect_comma.
    set (rest := String.concat "," _) in *.
    assert (skip_ws (rest +:+ "}" +:+ r) = rest +:+ "}" +:+ r) as ->.
    { subst rest. destruct l as [|u l];
        [cbn [map String.concat]|cbn [map]; rewrite concat_cons2, <-!str_app_assoc];
        by rewrite Ht. }
    subst rest. rewrite IH; [done|done|lia].
Qed.

Lemma insert_by_fmap {A B} (f : A → B) (g : B → string) (x : A) l :
  insert_by g str_leb (f x) (map f l) = map f (insert_by (λ a, g (f a)) str_leb x l).
Proof. induction l as [|y l IH]; simpl; [done|]. case_match; simpl; [done|]. by rewrite IH. Qed.

Lemma sort_by_fmap {A B} (f : A → B) (g : B → string) l :
  sort_by g str_leb (map f l) = map f (sort_by (λ a, g (f a)) str_leb l).
Proof.
  induction l as [|x l IH]; simpl; [done|]. unfold sort_by in *. by rewrite IH, insert_by_fmap.
Qed.

(** Both the printer and [norm] sort the members by name. *)
Lemma dumps_obj kvs :
  dumps false (JObj kvs) = "{" +:+ String.concat ","
    (map (λ kv, member_text (kv.1, dumps false kv.2)) (sort_by fst str_leb kvs)) +:+ "}".
Proof.
  cbn [dumps]. rewrite (sort_by_fmap (λ kv, (kv.1, dumps false kv.2))).
  by rewrite map_map.
Qed.

Lemma norm_obj kvs :
  norm (JObj kvs) = JObj (map (λ kv, (kv.1, norm kv.2)) (sort_by fst str_leb kvs)).
Proof. cbn [norm]. by rewrite (sort_by_fmap (λ kv, (kv.1, norm kv.2))). Qed.

Lemma sort_by_nodup {A} (kvs : list (string * A)) :
  NoDup (keys kvs) → NoDup (keys (sort_by fst str_leb kvs)).
Proof. unfold keys. intros H. by rewrite sort_by_perm. Qed.

Lemma keys_map {A B} (f : A → B) (kvs : list (string * A)) :
  keys (map (λ kv, (kv.1, f kv.2)) kvs) = keys kvs.
Proof. unfold keys. induction kvs as [|kv kvs IH]; [done|]. cbn. f_equal. exact IH. Qed.

Lemma value_list l n r :
  Forall reads l → (2 * String.length (dumps false (JArr l)) < S n)%nat →
  read_value (S n) (dumps false (JArr l) +:+ r) = Ok (norm (JArr l), r).
Proof.
  intros Hall Hn. destruct l as [|v l]; [done|].
  cbn [dumps norm] in Hn |- *. rewrite !str_length_app in Hn.
  change (String.length "[") with 1%nat in Hn. change (String.length "]") with 1%nat in Hn.
  rewrite <-!str_app_assoc. change ("[" +:+ ?x) with (String "[" x).
  assert (∀ t, ∃ c t', String.concat "," (map (dumps false) (v :: l)) +:+ t = String c t'
    ∧ is_ws c = false ∧ c ≠ "]"%char) as Hhead.
  { intros t. destruct (dumps_head v) as (c & t' & E & Hc & Hb & _).
    destruct l; cbn [map]; [cbn [String.concat]|rewrite concat_cons2]; rewrite E;
      rewrite ?str_app_cons, <-?str_app_assoc, ?str_app_cons; by eexists _, _. }
  destruct (Hhead ("]" +:+ r)) as (c & t' & E & Hc & Hb).
  pose proof (items_dumps v l r n Hall ltac:(lia)) as H. rewrite E in H |- *.
  rewrite value_S. change (N_of_ascii "[" =? 34)%N with false. cbn [skip_ws]. rewrite Hc.
  change (Ascii.eqb "[" "{") with false. change (Ascii.eqb "[" "[") with true. cbv iota.
  unfold expect at 1. destruct (Ascii.eqb_spec c "]"); [done|]. by rewrite H.
Qed.

Lemma value_dict kvs n r :
  NoDup (keys kvs) → Forall (λ kv, reads kv.2) kvs →
  (2 * String.length (dumps false (JObj kvs)) < S n)%nat →
  read_value (S n) (dumps false (JObj kvs) +:+ r) = Ok (norm (JObj kvs), r).
Proof.
  intros Hnd Hall Hn. rewrite dumps_obj in Hn |- *. rewrite norm_obj.
  apply sort_by_nodup in Hnd. rewrite <-(sort_by_perm fst str_leb kvs) in Hall.
  destruct (sort_by fst str_leb kvs) as [|kw l]; [cbn; rewrite hook_keeps; [done|constructor]|].
  rewrite !str_length_app in Hn.
  change (String.length "{") with 1%nat in Hn. change (String.length "}") with 1%nat in Hn.
  rewrite <-!str_app_assoc. change ("{" +:+ ?x) with (String "{" x).
  pose proof (members_dumps kw l r n Hall ltac:(lia)) as H1.
  rewrite value_S. change (N_of_ascii "{" =? 34)%N with false.
  change (Ascii.eqb "{" "{") with true. cbv iota.
  assert (∀ t, ∃ t', String.concat ","
    (map (λ kv, member_text (kv.1, dumps false kv.2)) (kw :: l)) +:+ t
    = String quote_char t') as Hhead.
  { intros t. destruct l; cbn [map]; [cbn [String.concat]|rewrite concat_cons2];
      unfold member_text, print_str; rewrite <-?str_app_assoc, ?str_app_cons; by eexists. }
  destruct (Hhead ("}" +:+ r)) as (t' & E). rewrite E in H1 |- *.
  change (skip_ws (String quote_char t')) with (String quote_char t').
  change (expect "}" (String quote_char t')) with (@None string). cbv iota. rewrite H1. cbn [of_option mbind result_bind].
  by rewrite hook_keeps by by rewrite keys_map.
Qed.

Lemma value_dumps v : keys_unique v = true → reads v.
Proof.
  induction v as [|b|z|s|l IH|kvs IH] using json_ind'; intros Hu n r Hr Hn;
    destruct n as [|n]; try lia.
  - done.
  - by destruct b.
  - by apply value_number.
  - cbn [dumps norm] in *. unfold print_str. rewrite str_app_cons, <-str_app_assoc.
    rewrite value_S. change (N_of_ascii quote_char =? 34)%N with true. cbv iota.
    rewrite str_app_cons. change ("" +:+ r) with r. by rewrite read_string_escape.
  - apply value_list; [|done]. cbn [keys_unique] in Hu. rewrite forallb_forall in Hu.
    apply Forall_forall. intros x Hx. eapply Forall_forall in IH; [|done].
    apply IH, Hu. by apply list_elem_of_In.
  - cbn [keys_unique] in Hu. apply andb_true_iff in Hu as [Hu H0]. reflect.
    apply value_dict; [done| |done]. rewrite forallb_forall in H0.
    apply Forall_forall. intros x Hx. eapply Forall_forall in IH; [|done].
    apply IH, H0. by apply list_elem_of_In.
Qed.

Lemma loads_with_printed v t :
  keys_unique v = true → no_digit t → skip_ws t = "" →
  (∀ a, utf8_decode (utf8 a +:+ t) = Some (a +:+ t)) →
  loads_with hook constant (canonical_bytes v +:+ t) = Ok (norm v).
Proof.
  intros Hu Hd Hs Hdec. unfold loads_with, canonical_bytes. rewrite Hdec.
  cbn [of_option mbind result_bind]. rewrite skip_ws_dumps. unfold loads_fuel.
  rewrite value_dumps; [cbn [mbind result_bind]; by rewrite Hs|done|done|]. rewrite str_length_app. lia.
Qed.
End Printed.

(** [json.loads(canonical_bytes(v) + b"\n")] is [v], its members in sorted order. *)
Definition newline : string := String "010" EmptyString.

Lemma utf8_app a b : utf8 (a +:+ b) = utf8 a +:+ utf8 b.
Proof.
  induction a as [|c a IH]; [done|]. rewrite str_app_cons. cbn [utf8].
  rewrite IH. by destruct (_ <? _)%N.
Qed.

(** Building a dictionary from pairs with distinct keys keeps them as they are. *)
Lemma dict_of_nodup {A} (kvs d : list (string * A)) :
  NoDup (keys (d ++ kvs)%list) →
  fold_left (λ d kv, dict_set kv.1 kv.2 d) kvs d = (d ++ kvs)%list.
Proof.
  revert d. induction kvs as [|[k v] kvs IH]; intros d Hnd; cbn [fold_left fst snd].
  { by rewrite app_nil_r. }
  assert (dict_set k v d = (d ++ [(k, v)])%list) as ->.
  { assert (k ∉ keys d) as Hk.
    { unfold keys in Hnd. rewrite fmap_app, fmap_cons in Hnd.
      apply NoDup_app in Hnd as (_ & H & _). intros Hk. eapply H; [done|]. constructor. }
    clear -Hk. induction d as [|[k' v'] d IH]; simpl; [done|].
    unfold keys in *. rewrite fmap_cons, not_elem_of_cons in Hk. destruct Hk as [Hne Hk].
    destruct (String.eqb_spec k' k); [by subst|]. by rewrite IH. }
  rewrite IH; rewrite <-app_assoc; done.
Qed.

Lemma to_dict_keeps kvs : NoDup (keys kvs) → to_dict kvs = Ok (JObj kvs).
Proof. intros Hnd. unfold to_dict. by rewrite dict_of_nodup. Qed.

(** Canonical text is read with any hook. *)
Lemma loads_with_canonical hook constant v :
  (∀ kvs, NoDup (keys kvs) → hook kvs = Ok (JObj kvs)) → keys_unique v = true →
  loads_with hook constant (canonical_bytes v) = Ok (norm v).
Proof.
  intros Hh Hu. rewrite <-(str_app_nil_r (canonical_bytes v)).
  apply loads_with_printed; try done. intros a. rewrite !str_app_nil_r. apply utf8_decode_utf8.
Qed.

Lemma loads_canonical v :
  keys_unique v = true → loads (canonical_bytes v +:+ newline) = Some (norm v).
Proof.
  intros Hu. unfold loads. rewrite loads_with_printed; try done; [apply to_dict_keeps|].
  intros a. change newline with (utf8 newline) at 1. by rewrite <-utf8_app, utf8_decode_utf8.
Qed.

Lemma str_leb_sorted {A} (kvs : list (string * A)) :
  sort_by fst str_leb (sort_by fst str_leb kvs) = sort_by fst str_leb kvs.
Proof. apply sort_by_id, sort_by_sorted; eauto with py_db. Qed.

Lemma dumps_norm v : dumps false (norm v) = dumps false v.
Proof.
  induction v as [|b|z|s|l IH|kvs IH] using json_ind'; try done.
  - cbn [norm dumps]. f_equal. f_equal. f_equal. rewrite map_map.
    apply map_ext_Forall. eapply Forall_impl; [done|]. intros x Hx. exact Hx.
  - rewrite norm_obj, !dumps_obj. rewrite (sort_by_fmap (λ kv, (kv.1, norm kv.2))).
    change (λ a, (a.1, norm a.2).1) with (@fst string json). rewrite str_leb_sorted, map_map.
    do 3 f_equal. rewrite <-(sort_by_perm fst str_leb kvs) in IH.
    apply map_ext_Forall. eapply Forall_impl; [done|]. intros x Hx. cbn [fst snd]. by rewrite Hx.
Qed.

Lemma canonical_bytes_norm v : canonical_bytes (norm v) = canonical_bytes v.
Proof. unfold canonical_bytes. by rewrite dumps_norm. Qed.

(** ** Looking into a value read back *)

Lemma assoc_nodup {A} k (v : A) kvs :
  NoDup (keys kvs) → (k, v) ∈ kvs → assoc k kvs = Some v.
Proof.
  unfold keys. induction kvs as [|[k' v'] kvs IH]; intros Hnd Hin; [by apply elem_of_nil in Hin|].
  rewrite fmap_cons in Hnd. apply NoDup_cons in Hnd as [Hk Hnd]. cbn [assoc].
  apply elem_of_cons in Hin as [[= <- <-]|Hin].
  - by rewrite String.eqb_refl.
  - destruct (String.eqb_spec k' k); [|by apply IH]. subst. destruct Hk.
    by apply (list_elem_of_fmap_2 fst _ (k, v)).
Qed.

Lemma assoc_perm {A} k (l1 l2 : list (string * A)) :
  NoDup (keys l1) → l1 ≡ₚ l2 → assoc k l1 = assoc k l2.
Proof.
  intros Hnd Hp. assert (NoDup (keys l2)) as Hnd2 by (unfold keys in *; by rewrite <-Hp).
  destruct (assoc k l1) as [v|] eqn:E.
  - symmetry. apply assoc_nodup; [done|]. rewrite <-Hp. by apply assoc_elem_of.
  - destruct (assoc k l2) as [v|] eqn:E2; [|done]. apply assoc_elem_of in E2.
    rewrite <-Hp in E2. by rewrite (assoc_nodup _ _ _ Hnd E2) in E.
Qed.

Lemma assoc_fmap {A B} (f : A → B) k (kvs : list (string * A)) :
  assoc k (map (λ kv, (kv.1, f kv.2)) kvs) = f <$> assoc k kvs.
Proof.
  induction kvs as [|[k' v] kvs IH]; [done|]. cbn [map assoc fst snd].
  by destruct (k' =? k)%string.
Qed.

Lemma assoc_norm k kvs l :
  NoDup (keys kvs) → norm (JObj kvs) = JObj l → assoc k l = norm <$> assoc k kvs.
Proof.
  intros Hnd. rewrite norm_obj. intros [= <-]. rewrite assoc_fmap. f_equal.
  apply assoc_perm; [by apply sort_by_nodup|]. apply sort_by_perm.
Qed.

Lemma keys_norm kvs l : norm (JObj kvs) = JObj l → keys l ≡ₚ keys kvs.
Proof.
  rewrite norm_obj. intros [= <-]. rewrite keys_map. unfold keys. by rewrite sort_by_perm.
Qed.

Lemma same_keys_perm fs {A B} (l1 : list (string * A)) (l2 : list (string * B)) :
  keys l1 ≡ₚ keys l2 → same_keys fs l1 = same_keys fs l2.
Proof.
  intros Hp. unfold same_keys. f_equal; [f_equal|].
  - by rewrite (Permutation_length Hp).
  - induction fs as [|k fs IH]; [done|]. cbn [forallb]. f_equal; [|done].
    apply bool_decide_ext. by rewrite Hp.
  - apply eq_true_iff_eq. rewrite !forallb_forall.
    split; intros H x Hx; apply H; apply list_elem_of_In; apply list_elem_of_In in Hx;
      [by rewrite Hp|by rewrite <-Hp].
Qed.

(** A value read back equals the one written ([==] ignores the order of members). *)
Lemma py_eqb_norm v : keys_unique v = true → py_eqb (norm v) v = true.
Proof.
  induction v as [|b|z|s|l IH|kvs IH] using json_ind'; intros Hu.
  - done.
  - apply eqb_reflx.
  - apply Z.eqb_refl.
  - apply String.eqb_refl.
  - cbn [norm py_eqb keys_unique] in *. induction IH as [|x l Hx _ IHl]; [done|].
    cbn [map forallb] in *. reflect. by rewrite Hx, IHl.
  - cbn [keys_unique] in Hu. apply andb_true_iff in Hu as [Hnd Hu]. reflect.
    rewrite norm_obj. cbn [py_eqb]. apply andb_true_iff. split.
    { apply bool_decide_eq_true. rewrite length_map. apply Permutation_length, sort_by_perm. }
    rewrite forallb_forall in Hu. rewrite Forall_forall in IH.
    assert (∀ kv, kv ∈ sort_by fst str_leb kvs → kv ∈ kvs) as Hsub
      by (intros kv; by rewrite elem_of_sort_by).
    induction (sort_by fst str_leb kvs) as [|[k v] l IHl]; [done|]. cbn [map fst snd].
    assert ((k, v) ∈ kvs) as Hin by (apply Hsub; constructor).
    rewrite (assoc_nodup k v) by done. apply andb_true_iff. split.
    + apply (IH (k, v)); [done|]. apply Hu. by apply list_elem_of_In.
    + apply IHl. intros kv Hkv. apply Hsub. by constructor.
Qed.

(** ** The fuel is enough *)

Definition shorter (s r : string) : Prop := (String.length r < String.length s)%nat.

Lemma skip_ws_length s : (String.length (skip_ws s) ≤ String.length s)%nat.
Proof. induction s as [|c s IH]; simpl; [done|]. case_match; simpl; lia. Qed.

Lemma read_string_shorter s t r : read_string s = Some (t, r) → shorter s r.
Proof.
  unfold shorter. enough (∀ n s t r, (String.length s < n)%nat → read_string s = Some (t, r) →
    (String.length r < String.length s)%nat) as H by (apply (H (S (String.length s))); lia).
  clear. induction n as [|n IH]; intros s t r Hn H; [lia|].
  destruct s as [|c s]; [done|]. cbn [read_string] in H. simpl in Hn.
  repeat case_match; simplify_option_eq; try (simpl; lia); repeat case_match;
    simplify_option_eq;
    repeat match goal with p : _ * _ |- _ => destruct p end; simplify_eq; simpl in *;
    match goal with H : read_string _ = Some _ |- _ => apply IH in H; [|simpl; lia] end;
    simpl in *; lia.
Qed.

Lemma read_digits_length z s : (String.length (read_digits z s).2 ≤ String.length s)%nat.
Proof.
  revert z. induction s as [|c s IH]; intros z; simpl; [done|].
  case_match; simpl; [|done]. etrans; [apply IH|]. lia.
Qed.

Lemma expect_length c s r : expect c s = Some r → String.length s = S (String.length r).
Proof. destruct s as [|a s]; [done|]. cbn. case_match; [|done]. by intros [= <-]. Qed.

Lemma read_number_shorter s v r : read_number s = Some (v, r) → shorter s r.
Proof.
  assert (∀ s z r, read_nat s = Some (z, r) → (String.length r < String.length s)%nat) as Hnat.
  { intros [|c s'] z r'; [done|]. cbn [read_nat]. destruct (digit_of c) as [d|]; [|done].
    case_match; [intros [= <- <-]; simpl; lia|intros [= Hr]].
    pose proof (read_digits_length d s'). rewrite Hr in *. simpl in *. lia. }
  unfold shorter, read_number. intros H.
  destruct (expect "-" s) as [s'|] eqn:E.
  - apply expect_length in E. destruct (read_nat s') as [[z r']|] eqn:Ez; [|done].
    apply Hnat in Ez. injection H as _ <-. lia.
  - destruct (read_nat s) as [[z r']|] eqn:Ez; [|done]. apply Hnat in Ez.
    injection H as _ <-. lia.
Qed.

Lemma strip_prefix_inv p s r : strip_prefix p s = Some r → s = p +:+ r.
Proof.
  revert s. induction p as [|c p IH]; intros s E; [by injection E as <-|].
  destruct s as [|d s]; [done|]. cbn [strip_prefix] in E.
  destruct (Ascii.eqb_spec c d) as [->|]; [|done]. rewrite str_app_cons. f_equal. by apply IH.
Qed.

Lemma strip_prefix_length p s r :
  strip_prefix p s = Some r → (String.length s = String.length p + String.length r)%nat.
Proof.
  revert s. induction p as [|a p IH]; intros [|b s]; simpl; try congruence.
  - by intros [= <-].
  - by intros [= <-].
  - destruct (Ascii.eqb a b); [|done]. intros H. apply IH in H. lia.
Qed.


Lemma of_option_ok {A} (o : option A) a : of_option o = Ok a ↔ o = Some a.
Proof. destruct o; simpl; split; congruence. Qed.

Lemma scalar_shorter constant s v r : scalar constant s = Ok (v, r) → shorter s r.
Proof.
  unfold scalar, shorter.
  destruct (strip_prefix "null" s) eqn:E1;
    [intros [= <- <-]; apply strip_prefix_length in E1; simpl in E1; lia|].
  destruct (strip_prefix "true" s) eqn:E2;
    [intros [= <- <-]; apply strip_prefix_length in E2; simpl in E2; lia|].
  destruct (strip_prefix "false" s) eqn:E3;
    [intros [= <- <-]; apply strip_prefix_length in E3; simpl in E3; lia|].
  destruct (read_number s) as [[z t]|] eqn:E4;
    [intros [= <- <-]; by apply read_number_shorter in E4|].
  destruct (find _ constants) as [c|] eqn:Ec; [|done].
  intros (w & _ & H)%result_bind_ok. apply result_bind_ok in H as (t & Ht & [= <- <-]).
  apply of_option_ok, strip_prefix_length in Ht.
  assert (0 < String.length c)%nat; [|lia].
  apply find_some in Ec as [Ec _]. unfold constants in Ec. simpl in Ec.
  destruct_or! Ec; subst; simpl; lia.
Qed.

Section Fuel.
Context (hook : list (string * json) → result json) (constant : string → result json).

(** Every reader leaves less text than it was given. *)
Lemma readers_shorter n :
  (∀ s v r, value hook constant n s = Ok (v, r) → shorter s r)
  ∧ (∀ s v r, items hook constant n s = Ok (v, r) → shorter s r)
  ∧ (∀ s v r, members hook constant n s = Ok (v, r) → shorter s r).
Proof.
  pose proof skip_ws_length as Hws. unfold shorter.
  induction n as [|n (IHv & IHi & IHm)]; [done|]. split_and!.
  - intros [|c s] v r H; [done|]. rewrite value_S in H. pose proof (Hws s). simpl.
    case_match; [|case_match; [|case_match]].
    + apply result_bind_ok in H as ([t r'] & E%of_option_ok%read_string_shorter & [= <- <-]).
      unfold shorter in E. lia.
    + case_match eqn:E; [apply expect_length in E|];
        apply result_bind_ok in H as (w & Hw & H); [injection H as <- <-; lia|].
      destruct w as [kvs r']. apply result_bind_ok in H as (w & _ & [= <- <-]).
      apply IHm in Hw. lia.
    + case_match eqn:E; [apply expect_length in E; simplify_eq; lia|].
      apply result_bind_ok in H as ([t r'] & E'%IHi & [= <- <-]). lia.
    + by apply scalar_shorter in H.
  - intros s v r H. rewrite items_S in H. apply result_bind_ok in H as ([w t] & Ev%IHv & H).
    pose proof (Hws t). case_match eqn:E.
    + apply expect_length in E. apply result_bind_ok in H as ([l r2] & E2%IHi & [= <- <-]).
      pose proof (Hws s0). lia.
    + apply result_bind_ok in H as (r' & E'%of_option_ok%expect_length & [= <- <-]). lia.
  - intros [|c s] v r H; [done|]. rewrite members_S in H. simpl. case_match; [|done].
    apply result_bind_ok in H as ([k t] & Ek%of_option_ok%read_string_shorter & H).
    unfold shorter in Ek.
    apply result_bind_ok in H as (t1 & E1%of_option_ok%expect_length & H).
    apply result_bind_ok in H as ([w t2] & Ev%IHv & H).
    pose proof (Hws t). pose proof (Hws t1). pose proof (Hws t2). case_match eqn:E.
    + apply expect_length in E. apply result_bind_ok in H as ([l r2] & E2%IHm & [= <- <-]).
      pose proof (Hws s0). lia.
    + apply result_bind_ok in H as (r' & E'%of_option_ok%expect_length & [= <- <-]). lia.
Qed.

(** Past [loads_fuel] more fuel changes nothing: the reader terminates by itself on any text. *)
Lemma readers_fuel n :
  (∀ s, (loads_fuel s ≤ n)%nat → value hook constant (S n) s = value hook constant n s)
  ∧ (∀ s, (loads_fuel s < n)%nat → items hook constant (S n) s = items hook constant n s)
  ∧ (∀ s, (loads_fuel s < n)%nat → members hook constant (S n) s = members hook constant n s).
Proof.
  pose proof skip_ws_length as Hws. unfold loads_fuel.
  induction n as [|n (IHv & IHi & IHm)]; [split_and!; intros; lia|]. split_and!.
  - intros [|c s] H; [done|]. simpl in H. pose proof (Hws s).
    rewrite (value_S _ _ n), (value_S _ _ (S n)). rewrite IHi, IHm by lia. done.
  - intros s H. rewrite (items_S _ _ n), (items_S _ _ (S n)).
    rewrite IHv by lia. destruct (value _ _ n s) as [[v t]|] eqn:Ev; [|done].
    apply readers_shorter in Ev. unfold shorter in Ev. pose proof (Hws t).
    cbn [mbind result_bind]. destruct (expect "," (skip_ws t)) as [t1|] eqn:E1; [|done].
    apply expect_length in E1. pose proof (Hws t1). by rewrite IHi by lia.
  - intros [|c s] H; [done|]. simpl in H. rewrite (members_S _ _ n), (members_S _ _ (S n)).
    case_match; [|done].
    destruct (read_string s) as [[k t]|] eqn:Ek; [|done]. apply read_string_shorter in Ek.
    unfold shorter in Ek. cbn [of_option mbind result_bind].
    destruct (expect ":" (skip_ws t)) as [t1|] eqn:E1; [|done]. apply expect_length in E1.
    pose proof (Hws t). pose proof (Hws t1). cbn [of_option mbind result_bind].
    rewrite IHv by lia.
    destruct (value _ _ n (skip_ws t1)) as [[v t2]|] eqn:Ev; [|done].
    apply readers_shorter in Ev. unfold shorter in Ev. cbn [mbind result_bind].
    destruct (expect "," (skip_ws t2)) as [t3|] eqn:E3; [|done]. apply expect_length in E3.
    pose proof (Hws t2). pose proof (Hws t3). by rewrite IHm by lia.
Qed.

Lemma value_fuel n s :
  (loads_fuel s ≤ n)%nat → value hook constant n s = value hook constant (loads_fuel s) s.
Proof.
  intros H. induction n as [|n IH]; [by unfold loads_fuel in H; lia|].
  destruct (decide (loads_fuel s = S n)) as [->|Hne]; [done|].
  rewrite (proj1 (readers_fuel n)) by lia. apply IH. lia.
Qed.
End Fuel.
