(* ===== verification/JsonFacts.v ===== *)
(** * JsonFacts: dictionaries read from JSON text

    What a parser of a JSON document relies on: the reader's dictionaries have no repeated key,
    text that is canonical was read into a value that is its own normal form, and two
    dictionaries print alike exactly when they have the same keys with values that print
    alike.  [fields_of] turns the check "exactly these fields" and the look-ups that follow
    it into such an equality, which the proofs about parsers are written with. *)

From S2P Require Import Prelude Effects Json JsonText.

Local Open Scope string_scope.

(** ** The reader's values *)

Lemma dict_set_forall {A} (P : A → Prop) k v d :
  P v → Forall (λ kv, P kv.2) d → Forall (λ kv, P kv.2) (dict_set k v d).
Proof.
  intros Hv. induction 1 as [|[k' v'] d Hk Hd IH]; cbn [dict_set]; [by repeat constructor|].
  case_match; by constructor.
Qed.

Lemma keys_unique_obj kvs :
  keys_unique (JObj kvs) = true ↔
  NoDup (keys kvs) ∧ Forall (λ kv, keys_unique kv.2 = true) kvs.
Proof.
  cbn [keys_unique]. rewrite andb_true_iff, bool_decide_eq_true, forallb_forall, Forall_forall.
  by setoid_rewrite list_elem_of_In.
Qed.

Lemma keys_unique_arr l :
  keys_unique (JArr l) = true ↔ Forall (λ v, keys_unique v = true) l.
Proof.
  cbn [keys_unique]. rewrite forallb_forall, Forall_forall. by setoid_rewrite list_elem_of_In.
Qed.

Lemma to_dict_unique kvs v :
  Forall (λ kv, keys_unique kv.2 = true) kvs → to_dict kvs = Ok v → keys_unique v = true.
Proof.
  unfold to_dict. intros Hall [= <-]. apply keys_unique_obj.
  assert (∀ d : list (string * json), NoDup (keys d) →
    Forall (λ kv, keys_unique kv.2 = true) d →
    NoDup (keys (fold_left (λ d kv, dict_set kv.1 kv.2 d) kvs d))
    ∧ Forall (λ kv, keys_unique kv.2 = true)
        (fold_left (λ d kv, dict_set kv.1 kv.2 d) kvs d)) as H; [|apply H; by constructor].
  induction Hall as [|kv kvs Hv _ IH]; intros d Hd Hf; [done|]. cbn [fold_left].
  apply IH; [by apply dict_set_nodup|].
  by apply (dict_set_forall (λ v, keys_unique v = true)).
Qed.

Section Reader.
Context (hook : list (string * json) → result json) (constant : string → result json).

Lemma scalar_unique s v r :
  (∀ c v, constant c = Ok v → keys_unique v = true) →
  scalar constant s = Ok (v, r) → keys_unique v = true.
Proof.
  intros Hc. unfold scalar. repeat case_match; intros H'; simplify_eq; try done.
  - unfold read_number in *. repeat case_match; simplify_option_eq;
      repeat match goal with p : _ * _ |- _ => destruct p end; by simplify_eq.
  - apply result_bind_ok in H' as (w & Hw & H').
    apply result_bind_ok in H' as (t & _ & [= <- <-]). eauto.
Qed.

Lemma readers_unique n :
  (∀ kvs v, Forall (λ kv, keys_unique kv.2 = true) kvs → hook kvs = Ok v → keys_unique v = true) →
  (∀ c v, constant c = Ok v → keys_unique v = true) →
  (∀ s v r, value hook constant n s = Ok (v, r) → keys_unique v = true)
  ∧ (∀ s l r, items hook constant n s = Ok (l, r) → Forall (λ v, keys_unique v = true) l)
  ∧ (∀ s l r, members hook constant n s = Ok (l, r) →
       Forall (λ kv, keys_unique kv.2 = true) l).
Proof.
  intros Hh Hc. induction n as [|n (IHv & IHi & IHm)]; [done|]. split_and!.
  - intros [|c s] v r H; [done|]. rewrite value_S in H.
    case_match; [|case_match; [|case_match]].
    + by apply result_bind_ok in H as ([t r'] & _ & [= <- <-]).
    + case_match; apply result_bind_ok in H as (w & Hw & H).
      * injection H as <- <-. apply Hh in Hw; [done|constructor].
      * destruct w as [kvs r']. apply result_bind_ok in H as (w & Hd & [= <- <-]).
        apply Hh in Hd; [done|]. by eapply IHm.
    + case_match; [by simplify_eq|].
      apply result_bind_ok in H as ([t r'] & Hi & [= <- <-]). apply keys_unique_arr. by eapply IHi.
    + by eapply scalar_unique.
  - intros s l r H. rewrite items_S in H. apply result_bind_ok in H as ([w t] & Ev%IHv & H).
    case_match; apply result_bind_ok in H as (x & Hx & H).
    + destruct x as [l' r2]. injection H as <- <-. constructor; [done|]. by eapply IHi.
    + injection H as <- <-. by repeat constructor.
  - intros [|c s] l r H; [done|]. rewrite members_S in H. case_match; [|done].
    apply result_bind_ok in H as ([k t] & _ & H). apply result_bind_ok in H as (t1 & _ & H).
    apply result_bind_ok in H as ([w t2] & Ev%IHv & H).
    case_match; apply result_bind_ok in H as (x & Hx & H).
    + destruct x as [l' r2]. injection H as <- <-. constructor; [done|]. by eapply IHm.
    + injection H as <- <-. by repeat constructor.
Qed.

Lemma loads_with_unique raw v :
  (∀ kvs v, Forall (λ kv, keys_unique kv.2 = true) kvs → hook kvs = Ok v → keys_unique v = true) →
  (∀ c v, constant c = Ok v → keys_unique v = true) →
  loads_with hook constant raw = Ok v → keys_unique v = true.
Proof.
  intros Hh Hc (s & _ & E)%result_bind_ok. apply result_bind_ok in E as ([w r] & Hw & E).
  apply (proj1 (readers_unique _ Hh Hc)) in Hw. destruct (skip_ws r); by simplify_eq.
Qed.
End Reader.

(** Constants that are refused are refused whatever the hook raises. *)
Lemma readers_refuse hook c1 c2 n :
  (∀ c v, c1 c ≠ Ok v) →
  (∀ s x, value hook c1 n s = Ok x → value hook c2 n s = Ok x)
  ∧ (∀ s x, items hook c1 n s = Ok x → items hook c2 n s = Ok x)
  ∧ (∀ s x, members hook c1 n s = Ok x → members hook c2 n s = Ok x).
Proof.
  intros Hc. induction n as [|n (IHv & IHi & IHm)]; [done|]. split_and!.
  - intros [|c s] x; [done|]. rewrite !value_S. repeat (case_match; try done).
    + intros (w & Hw & H')%result_bind_ok. by rewrite (IHm _ _ Hw).
    + intros (w & Hw & H')%result_bind_ok. by rewrite (IHi _ _ Hw).
    + unfold scalar. repeat case_match; try done.
      intros (w & Hw & _)%result_bind_ok. by destruct (Hc s0 w).
  - intros s x. rewrite !items_S. intros ([w t] & Hw & H)%result_bind_ok.
    rewrite (IHv _ _ Hw). cbn [mbind result_bind]. case_match; [|done].
    apply result_bind_ok in H as (l & Hl & H). by rewrite (IHi _ _ Hl).
  - intros [|c s] x; [done|]. rewrite !members_S. case_match; [|done].
    intros ([k t] & -> & H1)%result_bind_ok. cbn [mbind result_bind].
    apply result_bind_ok in H1 as (t1 & -> & H1). cbn [mbind result_bind].
    apply result_bind_ok in H1 as ([w t2] & Hw & H1).
    rewrite (IHv _ _ Hw). cbn [mbind result_bind]. case_match; [|done].
    apply result_bind_ok in H1 as (l & Hl & H1). by rewrite (IHm _ _ Hl).
Qed.

Lemma loads_with_refuse hook c1 c2 raw v :
  (∀ c v, c1 c ≠ Ok v) → loads_with hook c1 raw = Ok v → loads_with hook c2 raw = Ok v.
Proof.
  intros Hc. unfold loads_with. intros (s & -> & H)%result_bind_ok.
  cbn [mbind result_bind]. apply result_bind_ok in H as ([w r] & Hw & H).
  by rewrite (proj1 (readers_refuse hook c1 c2 _ Hc) _ _ Hw).
Qed.

(** [json.loads] with a [parse_constant] that raises reads what [loads] reads. *)
Lemma loads_refusing c raw v :
  (∀ k v, c k ≠ Ok v) → loads_with to_dict c raw = Ok v ↔ loads raw = Some v.
Proof.
  intros Hc. unfold loads. split.
  - intros H. by rewrite (loads_with_refuse _ c no_constant _ v).
  - destruct (loads_with to_dict no_constant raw) as [w|] eqn:E; [|done]. intros [= ->].
    by apply (loads_with_refuse _ no_constant c).
Qed.

Lemma loads_unique raw v : loads raw = Some v → keys_unique v = true.
Proof.
  unfold loads. destruct (loads_with _ _ raw) as [w|] eqn:E; [|done]. intros [= ->].
  eapply (loads_with_unique to_dict no_constant); [apply to_dict_unique|done|exact E].
Qed.

(** Canonical text was read into a value that is already in printed order. *)
Lemma loads_canonical_norm v :
  loads (canonical_bytes v +:+ newline) = Some v ↔ keys_unique v = true ∧ norm v = v.
Proof.
  split.
  - intros H. pose proof (loads_unique _ _ H) as Hu. split; [done|].
    rewrite loads_canonical in H by done. congruence.
  - intros [Hu Hn]. rewrite loads_canonical by done. by rewrite Hn.
Qed.

(** ** Dictionaries up to the order of their members *)

Lemma norm_keys_unique v : keys_unique v = true → keys_unique (norm v) = true.
Proof.
  induction v as [|b|z|s|l IH|kvs IH] using json_ind'; intros Hu; try done.
  - cbn [norm]. rewrite keys_unique_arr in *. apply Forall_fmap. rewrite Forall_forall in *. eauto.
  - rewrite norm_obj. rewrite keys_unique_obj in *. destruct Hu as [Hnd Hu]. split.
    + rewrite keys_map. by apply sort_by_nodup.
    + apply Forall_fmap. rewrite Forall_forall in *. intros [k v] Hkv. cbn.
      rewrite elem_of_sort_by in Hkv. by apply (IH _ Hkv), (Hu _ Hkv).
Qed.

Lemma norm_norm v : norm (norm v) = norm v.
Proof.
  induction v as [|b|z|s|l IH|kvs IH] using json_ind'; try done.
  - cbn [norm]. f_equal. rewrite map_map. apply map_ext_Forall.
    eapply Forall_impl; [exact IH|]. by intros x Hx.
  - rewrite norm_obj, norm_obj. rewrite (sort_by_fmap (λ kv, (kv.1, norm kv.2))).
    change (λ a : string * json, (a.1, norm a.2).1) with (@fst string json).
    rewrite str_leb_sorted, map_map. f_equal. apply map_ext_Forall.
    rewrite <-(sort_by_perm fst str_leb kvs) in IH.
    eapply Forall_impl; [exact IH|]. intros [k v] Hx. cbn in *. by rewrite Hx.
Qed.

Lemma assoc_none {A} k (kvs : list (string * A)) : assoc k kvs = None ↔ k ∉ keys kvs.
Proof. rewrite assoc_is_Some. destruct (assoc k kvs); naive_solver. Qed.

Lemma assoc_ext {A} (l1 l2 : list (string * A)) :
  NoDup (keys l1) → NoDup (keys l2) → (∀ k, assoc k l1 = assoc k l2) → l1 ≡ₚ l2.
Proof.
  intros H1 H2 Heq. apply NoDup_Permutation.
  - by apply (NoDup_fmap_1 fst).
  - by apply (NoDup_fmap_1 fst).
  - intros [k v]. split; intros H; apply assoc_elem_of; [rewrite <-Heq|rewrite Heq];
      by apply assoc_nodup.
Qed.

(** Two dictionaries print alike exactly when their members do. *)
Lemma norm_obj_eq a b :
  NoDup (keys a) → NoDup (keys b) →
  norm (JObj a) = norm (JObj b) ↔ ∀ k, norm <$> assoc k a = norm <$> assoc k b.
Proof.
  intros Ha Hb. split.
  - intros E k. rewrite norm_obj, norm_obj in E. injection E as E.
    pose proof (f_equal (assoc k) E) as Ek. rewrite !assoc_fmap in Ek.
    rewrite (assoc_perm k a (sort_by fst str_leb a)), (assoc_perm k b (sort_by fst str_leb b));
      [done|done| |done|]; by rewrite sort_by_perm.
  - intros E. cbn [norm]. f_equal. apply sort_by_unique; eauto with py_db.
    + apply key_inj_of_nodup. fold (keys (map (λ kv, (kv.1, norm kv.2)) a)).
      by rewrite keys_map.
    + apply assoc_ext; rewrite ?keys_map; [done..|]. intros k. by rewrite !assoc_fmap.
Qed.

(** Members that print alike, in the same places. *)
Lemma norm_obj_ext (a b : list (string * json)) :
  map (λ kv, (kv.1, norm kv.2)) a = map (λ kv, (kv.1, norm kv.2)) b →
  norm (JObj a) = norm (JObj b).
Proof. intros E. cbn [norm]. by rewrite E. Qed.

Lemma norm_obj_fields a b :
  norm (JObj a) = norm (JObj b) → NoDup (keys a) → NoDup (keys b) →
  ∀ k, norm <$> assoc k a = norm <$> assoc k b.
Proof. intros E Ha Hb. by apply norm_obj_eq. Qed.

Lemma same_keys_iff fs {A} (kvs : list (string * A)) :
  NoDup fs → NoDup (keys kvs) → same_keys fs kvs = true ↔ keys kvs ≡ₚ fs.
Proof.
  intros Hf Hk. unfold same_keys.
  rewrite !andb_true_iff, bool_decide_eq_true, !forallb_forall. split.
  - intros [[_ H1] H2]. apply NoDup_Permutation; [done..|]. intros x.
    split; intros Hx%list_elem_of_In; [apply H2 in Hx|apply H1 in Hx]; by reflect.
  - intros Hp. split; [split|].
    + by rewrite Hp.
    + intros x Hx%list_elem_of_In. apply bool_decide_eq_true. by rewrite Hp.
    + intros x Hx%list_elem_of_In. apply bool_decide_eq_true. by rewrite <-Hp.
Qed.

(** A dictionary with exactly the fields [fs], each with a value that prints like [fs]'s: what
    the test of its keys and the reads of its values say together. *)
Lemma fields_of kvs fs :
  NoDup (keys fs) → NoDup (keys kvs) →
  norm (JObj kvs) = norm (JObj fs) ↔
  same_keys (keys fs) kvs = true
  ∧ Forall (λ kv, norm <$> assoc kv.1 kvs = Some (norm kv.2)) fs.
Proof.
  intros Hf Hk. rewrite norm_obj_eq, same_keys_iff by done. rewrite Forall_forall. split.
  - intros E. split.
    + apply NoDup_Permutation; [done..|]. intros k. rewrite !assoc_is_Some. specialize (E k).
      destruct (assoc k kvs), (assoc k fs); split; intros []; simplify_eq/=; by eexists.
    + intros [k v] Hkv. cbn. rewrite E. by rewrite (assoc_nodup k v).
  - intros [Hp E] k. destruct (assoc k fs) as [v|] eqn:Ev.
    + apply assoc_elem_of in Ev. exact (E _ Ev).
    + rewrite assoc_none in Ev. destruct (assoc k kvs) eqn:Ek; [|done].
      destruct Ev. rewrite <-Hp. apply assoc_is_Some. by eexists.
Qed.

Lemma norm_is_obj v fs : norm v = norm (JObj fs) → ∃ kvs, v = JObj kvs.
Proof. rewrite norm_obj. destruct v; try done. by eexists. Qed.

Lemma norm_is_arr v l : norm v = norm (JArr l) ↔ ∃ l', v = JArr l' ∧ map norm l' = map norm l.
Proof.
  destruct v; cbn [norm]; try (split; [done|by intros (? & ? & ?)]).
  split; [intros [= E]; by eexists|]. by intros (l' & [= ->] & ->).
Qed.

Lemma norm_is_str v s : norm v = JStr s ↔ v = JStr s.
Proof. by destruct v. Qed.
Lemma norm_is_int v z : norm v = JInt z ↔ v = JInt z.
Proof. by destruct v. Qed.
Lemma norm_is_bool v b : norm v = JBool b ↔ v = JBool b.
Proof. by destruct v. Qed.
Lemma norm_is_null v : norm v = JNull ↔ v = JNull.
Proof. by destruct v. Qed.

Lemma str_app_inv_tail a b c : a +:+ c = b +:+ c → a = b.
Proof.
  revert b. induction a as [|x a IH]; intros [|y b]; rewrite ?str_app_cons; [done| | |].
  - intros E. apply (f_equal String.length) in E. change ("" +:+ c) with c in E.
    cbn [String.length] in E. rewrite str_length_app in E. lia.
  - intros E. apply (f_equal String.length) in E. change ("" +:+ c) with c in E.
    cbn [String.length] in E. rewrite str_length_app in E. lia.
  - intros [= -> E]. f_equal. by apply IH.
Qed.

Lemma canonical_bytes_inj v w :
  keys_unique v = true → keys_unique w = true →
  canonical_bytes v = canonical_bytes w ↔ norm v = norm w.
Proof.
  intros Hv Hw. split.
  - intros E. pose proof (loads_canonical v Hv) as L. rewrite E, loads_canonical in L by done.
    congruence.
  - intros E. by rewrite <-(canonical_bytes_norm v), E, canonical_bytes_norm.
Qed.

(** ** Python's [==] *)

Lemma py_eqb_is_str v s : py_eqb v (JStr s) = true → v = JStr s.
Proof. destruct v as [|[]| |t| |]; cbn; try done. by intros ->%String.eqb_eq. Qed.

(** The value with its booleans as the integers they equal. *)
Fixpoint unbool (v : json) : json :=
  match v with
  | JBool b => JInt (Z.b2z b)
  | JArr l => JArr (map unbool l)
  | JObj kvs => JObj (map (λ kv, (kv.1, unbool kv.2)) kvs)
  | _ => v
  end.

Lemma unbool_unique v : keys_unique v = true → keys_unique (unbool v) = true.
Proof.
  induction v as [|b|z|s|l IH|kvs IH] using json_ind'; intros Hu; try done.
  - cbn [unbool]. rewrite keys_unique_arr in *. apply Forall_fmap. rewrite Forall_forall in *. eauto.
  - cbn [unbool]. rewrite keys_unique_obj in *. destruct Hu as [Hnd Hu]. split.
    + by rewrite keys_map.
    + apply Forall_fmap. rewrite Forall_forall in *. intros kv Hkv. apply (IH _ Hkv), (Hu _ Hkv).
Qed.

Lemma py_eqb_arr l k :
  py_eqb (JArr l) (JArr k) = true ↔ Forall2 (λ v w, py_eqb v w = true) l k.
Proof.
  revert k. induction l as [|v l IH]; intros [|w k]; cbn.
  - by split; [constructor|].
  - split; [done|by inversion 1].
  - split; [done|by inversion 1].
  - rewrite andb_true_iff. specialize (IH k). cbn in IH. rewrite IH. split.
    + intros []. by constructor.
    + by inversion 1.
Qed.

Lemma py_eqb_obj l k :
  py_eqb (JObj l) (JObj k) = true ↔
  length l = length k
  ∧ Forall (λ kv, ∃ w, assoc kv.1 k = Some w ∧ py_eqb kv.2 w = true) l.
Proof.
  cbn [py_eqb]. rewrite andb_true_iff, bool_decide_eq_true. apply and_iff_compat_l.
  induction l as [|[s v] l IH]; [by split; [constructor|]|]. cbn.
  rewrite Forall_cons, <-IH, andb_true_iff. apply and_iff_compat_r. cbn.
  destruct (assoc s k) as [w|]; [|split; [done|by intros (? & ? & _)]].
  split; [by eauto|]. by intros (? & [= ->] & ?).
Qed.

(** Members of dictionaries of one size that have the first one's keys are the same keys. *)
Lemma same_size_keys {A B} (l : list (string * A)) (k : list (string * B)) :
  NoDup (keys l) → length l = length k → (∀ i, i ∈ keys l → i ∈ keys k) →
  ∀ i, i ∈ keys k → i ∈ keys l.
Proof.
  intros Hl Hlen Hsub i. apply NoDup_submseteq in Hsub; [|done].
  assert (keys l ≡ₚ keys k) as ->; [|done].
  apply submseteq_length_Permutation; [done|]. unfold keys. rewrite !length_fmap. lia.
Qed.

(** Equality is equality of the printed forms, booleans as integers: an equivalence. *)
Lemma py_eqb_spec v w :
  keys_unique v = true → keys_unique w = true →
  py_eqb v w = true ↔ norm (unbool v) = norm (unbool w).
Proof.
  revert w. induction v as [|b|z|s|l IH|kvs IH] using json_ind'; intros w Hv Hw.
  - by destruct w.
  - destruct w as [|[]|z| | |]; destruct b; cbn; rewrite ?Z.eqb_eq; split; try done; congruence.
  - destruct w as [|[]|z'| | |]; cbn; rewrite ?Z.eqb_eq; split; try done; congruence.
  - destruct w as [| | |t| |]; cbn; rewrite ?String.eqb_eq; split; try done; congruence.
  - destruct w as [| | | |k|]; try (by split). rewrite py_eqb_arr. cbn [unbool norm].
    rewrite keys_unique_arr in Hv, Hw. split.
    + intros H2. f_equal. revert H2 Hv Hw. revert k. induction IH as [|x l Hx _ IHl];
        intros k H2 Hv Hw; inversion H2 as [|? y ? k' Hxy H2']; subst; [done|].
      inversion Hv; inversion Hw; subst. cbn. f_equal; [by apply Hx|by apply IHl].
    + intros [= E]. revert k Hw E. induction IH as [|x l Hx _ IHl]; intros [|y k] Hw E; try done.
      inversion Hv; inversion Hw; subst. cbn in E. injection E as E1 E2.
      constructor; [by apply Hx|by apply IHl].
  - destruct w as [| | | | |k]; try (by split). rewrite py_eqb_obj. cbn [unbool].
    rewrite keys_unique_obj in Hv, Hw. destruct Hv as [Hnv Hv], Hw as [Hnw Hw].
    rewrite norm_obj_eq by by rewrite keys_map.
    setoid_rewrite assoc_fmap. rewrite Forall_forall in IH, Hv, Hw. rewrite Forall_forall. split.
    + intros [Hlen Hall] i. destruct (assoc i kvs) as [x|] eqn:Ei.
      * apply assoc_elem_of in Ei. destruct (Hall _ Ei) as (y & Hy & Hxy). cbn in Hy, Hxy.
        rewrite Hy. cbn. f_equal. apply (IH _ Ei); [by apply (Hv _ Ei)| |done].
        apply assoc_elem_of in Hy. by apply (Hw _ Hy).
      * destruct (assoc i k) as [y|] eqn:Ek; [|done].
        assert (i ∈ keys kvs) as [? ?]%assoc_is_Some; [|congruence].
        apply (same_size_keys kvs k Hnv Hlen); [|apply assoc_is_Some; by eexists].
        intros j (x & Hx)%assoc_is_Some. apply assoc_elem_of in Hx.
        destruct (Hall _ Hx) as (y' & Hy' & _). apply assoc_is_Some. by eexists.
    + intros E.
      assert (∀ i x, assoc i kvs = Some x → ∃ y, assoc i k = Some y ∧ py_eqb x y = true) as Hget.
      { intros i x Hx. specialize (E i). rewrite Hx in E. destruct (assoc i k) as [y|] eqn:Hy; [|done].
        exists y. split; [done|]. injection E as E. apply assoc_elem_of in Hx, Hy.
        apply (IH _ Hx); [by apply (Hv _ Hx)|by apply (Hw _ Hy)|done]. }
      split.
      * assert (keys kvs ≡ₚ keys k) as Hp.
        { apply NoDup_Permutation; [done..|]. intros i. rewrite !assoc_is_Some.
          specialize (E i). destruct (assoc i kvs), (assoc i k); try done; split; intros []; done. }
        apply Permutation_length in Hp. unfold keys in Hp. by rewrite !length_fmap in Hp.
      * intros [i x] Hx. apply Hget. by apply assoc_nodup.
Qed.

Lemma py_eqb_sym v w :
  keys_unique v = true → keys_unique w = true → py_eqb v w = true → py_eqb w v = true.
Proof. intros Hv Hw. rewrite !py_eqb_spec by done. done. Qed.

Lemma py_eqb_trans u v w :
  keys_unique u = true → keys_unique v = true → keys_unique w = true →
  py_eqb u v = true → py_eqb v w = true → py_eqb u w = true.
Proof. intros Hu Hv Hw. rewrite !py_eqb_spec by done. congruence. Qed.
