(* ===== verification/PlanArtifact.v ===== *)
(** * PlanArtifact: the execution plan as a file

    src/vllm_hust_ext/plan_artifact.py: the canonical text of a [Plan] and the parser that
    launches are made from.  [read_plan_artifact], which opens the file, is in
    ManagerController.v.  The parser's theorems are in ArtifactProofs.v. *)

From S2P Require Import Prelude Effects Json Sha256 EcpaModel JsonText.

Local Open Scope string_scope.

Definition SCHEMA : string := "ecpa-execution-plan/v1".

Definition artifact_error {A} (msg : string) : result A := Err (PlanArtifactError msg).

(** [if not b: raise PlanArtifactError(msg)]. *)
Definition demand (b : bool) (msg : string) : result unit := check b (PlanArtifactError msg).

Definition _exact_fields (value : json) (fields : list string) (context : string)
    : result json :=
  match value with
  | JObj kvs =>
      if same_keys fields kvs then Ok value
      else artifact_error (context +:+ " fields do not match the schema")
  | _ => artifact_error (context +:+ " fields do not match the schema")
  end.

(** A non-empty string of characters that are no white space. *)
Definition printable (s : string) : bool :=
  negb (s =? EmptyString) && string_forall (λ c, negb (is_space c)) s.

Definition _string (value : json) (context : string) : result string :=
  match value with
  | JStr s =>
      if printable s then Ok s
      else artifact_error (context +:+ " must be a non-empty string without whitespace")
  | _ => artifact_error (context +:+ " must be a non-empty string without whitespace")
  end.

Definition _integer (value : json) (context : string) : result Z :=
  match value with
  | JInt z =>
      if (z <? 0)%Z then artifact_error (context +:+ " must be a non-negative integer") else Ok z
  | _ => artifact_error (context +:+ " must be a non-negative integer")
  end.

Definition is_digest (s : string) : bool :=
  (String.length s =? 64)%nat && string_forall is_hex s.

Definition _sha256 (value : json) (context : string) : result string :=
  digest ← _string value context;
  _ ← demand (is_digest digest) (context +:+ " must be a lowercase SHA-256 digest");
  Ok digest.

(** [isinstance(value, list)]. *)
Definition _list (value : json) (msg : string) : result (list json) :=
  match value with JArr l => Ok l | _ => artifact_error msg end.

(** [isinstance(value, list) and value]. *)
Definition _nonempty_list (value : json) (msg : string) : result (list json) :=
  match value with JArr (x :: l) => Ok (x :: l) | _ => artifact_error msg end.

(** [_string(value[key], context)]. *)
Definition string_at (key context : string) (value : json) : result string :=
  x ← getitem key value; _string x context.

(** One element of [body["plugins"]]. *)
Definition parse_plugin (index : nat) (item : json) : result PluginIdentity :=
  plugin ← _exact_fields item ["namespace"; "name"; "version"; "artifact_sha256"]
    ("plugin " +:+ z_str (Z.of_nat index));
  ns ← string_at "namespace" "plugin namespace" plugin;
  name ← string_at "name" "plugin name" plugin;
  version ← string_at "version" "plugin version" plugin;
  digest ← getitem "artifact_sha256" plugin;
  digest ← _sha256 digest "plugin artifact digest";
  Ok (mkPluginIdentity ns name version digest).

Definition parse_host (value : json) : result HostCompatibility :=
  host_value ← _exact_fields value ["runtime"; "version"; "provider"; "abi"] "host";
  runtime ← string_at "runtime" "host runtime" host_value;
  version ← string_at "version" "host version" host_value;
  provider ← string_at "provider" "host provider" host_value;
  abi ← string_at "abi" "host abi" host_value;
  Ok (mkHostCompatibility runtime version provider abi).

(** [[a-z0-9._-]]. *)
Definition is_resource_char (c : ascii) : bool :=
  let n := N_of_ascii c in
  (97 <=? n)%N && (n <=? 122)%N || (48 <=? n)%N && (n <=? 57)%N
  || (n =? 46)%N || (n =? 95)%N || (n =? 45)%N.

(** [re.fullmatch(r"urn:ecpa:resource:[a-z0-9._-]+", uri)]. *)
Definition is_resource_uri (uri : string) : bool :=
  match strip_prefix "urn:ecpa:resource:" uri with
  | Some name => negb (name =? EmptyString) && string_forall is_resource_char name
  | None => false
  end.

Definition claim_modes : list string := ["exclusive"; "shared-read"].

Definition parse_claim (index : nat) (item : json) : result ResourceClaim :=
  claim ← _exact_fields item ["uri"; "owner"; "mode"]
    ("claim " +:+ z_str (Z.of_nat index));
  uri ← string_at "uri" "claim URI" claim;
  _ ← canonical_uri uri "resource";
  _ ← demand (is_resource_uri uri) "claim URI does not match the resource profile";
  mode ← string_at "mode" "claim mode" claim;
  _ ← demand (bool_decide (mode ∈ claim_modes)) "claim mode is unsupported";
  owner ← string_at "owner" "claim owner" claim;
  Ok (mkResourceClaim uri owner mode).

(** [sorted(set(xs))]. *)
Definition sorted_set (xs : list Z) : list Z := sort_by id Z.leb (remove_dups xs).

Definition parse_obligation (index : nat) (item : json) : result EvidenceObligation :=
  obligation ← _exact_fields item ["obligation_id"; "role"; "event"; "required_ordinals"]
    ("obligation " +:+ z_str (Z.of_nat index));
  ordinals ← getitem "required_ordinals" obligation;
  ordinals ← _nonempty_list ordinals "evidence obligation requires target ordinals";
  ordinals ← map_result (λ o, _integer o "required ordinal") ordinals;
  _ ← demand (bool_decide (sorted_set ordinals = ordinals))
    "required ordinals must be unique and sorted";
  i ← string_at "obligation_id" "obligation id" obligation;
  r ← string_at "role" "obligation role" obligation;
  e ← string_at "event" "obligation event" obligation;
  Ok (mkEvidenceObligation i r e ordinals).

(** The predecessor without its generation: the object, its plan and its rendered inputs. *)
Definition parse_predecessor (value : json)
    : result (json * option string * list (string * json)) :=
  predecessor_value ← _exact_fields value ["generation"; "plan_id"; "rendered_inputs"]
    "predecessor";
  plan_id ← getitem "plan_id" predecessor_value;
  plan_id ← match plan_id with
    | JNull => Ok None
    | _ => s ← _string plan_id "predecessor plan id"; Ok (Some s)
    end;
  rendered ← getitem "rendered_inputs" predecessor_value;
  rendered ← match rendered with
    | JObj kvs => Ok kvs
    | _ => artifact_error "predecessor rendered inputs must be an object"
    end;
  Ok (predecessor_value, plan_id, rendered).

(** [raise PlanArtifactError] of the hook [parse_constant]. *)
Definition reject_nonfinite (value : string) : result json :=
  artifact_error ("non-finite JSON number is forbidden: " +:+ value).

Definition plan_fields : list string :=
  ["plugins"; "host"; "claims"; "obligations"; "predecessor"; "fallback_proven"].

Section WithSha256.
Context `{Sha256}.

Definition plan_artifact_value (plan : Plan) : json :=
  JObj [("schema", JStr SCHEMA); ("plan_id", JStr (plan_id plan)); ("plan", to_json plan)].

Definition plan_artifact_bytes (plan : Plan) : string :=
  canonical_bytes (plan_artifact_value plan) +:+ newline.

Definition parse_plugins (value : json) : result (list PluginIdentity) :=
  items ← _nonempty_list value "execution plan requires at least one plugin";
  plugins ← map_result_i parse_plugin items;
  _ ← demand (negb (has_dups (plugin_id <$> plugins)))
    "execution plan contains duplicate plugins";
  Ok plugins.

Definition parse_claims (value : json) : result (list ResourceClaim) :=
  items ← _list value "plan claims must be an array";
  claims ← map_result_i parse_claim items;
  _ ← demand (negb (has_dups (uri <$> claims)))
    "execution plan contains duplicate resource claims";
  Ok claims.

Definition parse_obligations (value : json) : result (list EvidenceObligation) :=
  items ← _nonempty_list value "execution plan requires evidence obligations";
  obligations ← map_result_i parse_obligation items;
  _ ← demand (negb (has_dups (obligation_id <$> obligations)))
    "execution plan contains duplicate obligations";
  Ok obligations.

(** The part of [parse_plan_artifact] that reads [envelope["plan"]].  The generation is checked
    last, where the constructor of the snapshot is called. *)
Definition parse_plan (value : json) : result Plan :=
  body ← _exact_fields value plan_fields "plan";
  plugins ← getitem "plugins" body ≫= parse_plugins;
  host ← getitem "host" body ≫= parse_host;
  claims ← getitem "claims" body ≫= parse_claims;
  obligations ← getitem "obligations" body ≫= parse_obligations;
  '(predecessor_value, plan_id, rendered) ← getitem "predecessor" body ≫= parse_predecessor;
  fallback ← getitem "fallback_proven" body;
  fallback ← match fallback with
    | JBool b => Ok b
    | _ => artifact_error "fallback_proven must be boolean"
    end;
  g ← getitem "generation" predecessor_value;
  g ← _integer g "predecessor generation";
  Ok (mkPlan plugins host claims obligations (mkPredecessorSnapshot g plan_id rendered)
        fallback).

(** Texts outside the JSON model are refused here as invalid JSON: of those the source lets an
    escaped surrogate raise [UnicodeEncodeError] in the comparison, and nesting beyond CPython's
    limit raise [RecursionError]. *)
Definition parse_plan_artifact (raw : string) : result Plan :=
  value ← match loads_with to_dict reject_nonfinite raw with
    | Ok value => Ok value
    | Err _ => artifact_error "execution plan is not valid UTF-8 JSON"
    end;
  envelope ← _exact_fields value ["schema"; "plan_id"; "plan"] "artifact";
  _ ← demand (raw =? canonical_bytes envelope +:+ newline)
    "execution plan artifact is not canonical";
  schema ← getitem "schema" envelope;
  _ ← demand (bool_decide (schema = JStr SCHEMA)) "unsupported execution plan schema";
  body ← getitem "plan" envelope;
  plan ← parse_plan body;
  i ← getitem "plan_id" envelope;
  _ ← demand (bool_decide (i = JStr (plan_id plan)))
    "execution plan id does not match its content";
  Ok plan.
End WithSha256.
