(* ===== verification/ArtifactProofs.v ===== *)
(** * ArtifactProofs: the parser of plan artifacts accepts exactly the printer's output

    [plan_ok] is what a plan must satisfy.  For each part of the document a lemma says when its
    reader returns: the value is the printed form of an admissible part.  Together:
    [parse_plan_artifact] returns a plan exactly on the bytes [plan_artifact_bytes] prints for
    it. *)

From S2P Require Import Prelude Effects Json Sha256 EcpaModel JsonText JsonFacts PlanArtifact.

Local Open Scope string_scope.
Local Open Scope list_scope.

(** ** Values in printed order *)

Record canon (v : json) : Prop := { canon_unique : keys_unique v = true; canon_norm : norm v = v }.

Lemma canon_obj kvs : canon (JObj kvs) →
  NoDup (keys kvs) ∧ ∀ k x, assoc k kvs = Some x → canon x.
Proof.
  intros [Hu Hn]. apply keys_unique_obj in Hu as [Hnd Hu]. split; [done|]. intros k x Hx.
  split.
  - rewrite Forall_forall in Hu. apply (Hu (k, x)). by apply assoc_elem_of.
  - pose proof (assoc_norm k _ _ Hnd Hn) as E. rewrite Hx in E. by injection E.
Qed.

Lemma canon_arr l : canon (JArr l) → Forall canon l.
Proof.
  intros [Hu Hn]. apply keys_unique_arr in Hu. injection Hn as Hn.
  induction Hu as [|v l Hv Hu IH]; [done|]. cbn in Hn. injection Hn as Hv' Hn.
  constructor; [done|auto].
Qed.

(** [fields_of], for a value in printed order. *)
Lemma canon_fields kvs fs :
  NoDup (keys fs) → canon (JObj kvs) →
  JObj kvs = norm (JObj fs) ↔
  same_keys (keys fs) kvs = true ∧ Forall (λ kv, assoc kv.1 kvs = Some (norm kv.2)) fs.
Proof.
  intros Hf Hc. pose proof (canon_obj _ Hc) as [Hk Hsub].
  rewrite <-(canon_norm _ Hc) at 1. rewrite fields_of by done.
  apply and_iff_compat_l. apply Forall_proper; [|done]. intros [k v]. cbn.
  destruct (assoc k kvs) as [x|] eqn:E; cbn; [|split; congruence].
  pose proof (canon_norm x (Hsub _ _ E)) as ->. done.
Qed.

(** ** Field readers *)

Definition is_ok {A} (r : result A) : Prop := ∃ a, r = Ok a.

Lemma exact_fields_ok value fs ctx v :
  _exact_fields value fs ctx = Ok v ↔ v = value ∧ ∃ kvs, value = JObj kvs ∧ same_keys fs kvs = true.
Proof.
  destruct value; cbn; try (split; [discriminate|by intros (_ & ? & ? & _)]).
  destruct (same_keys fs kvs) eqn:E.
  - split; [intros [= <-]; eauto|]. by intros (-> & _).
  - split; [discriminate|]. intros (_ & ? & [= <-] & ?). congruence.
Qed.

Lemma getitem_ok k kvs x : getitem k (JObj kvs) = Ok x ↔ assoc k kvs = Some x.
Proof. cbn. destruct (assoc k kvs); split; congruence. Qed.

Lemma string_ok value ctx s : _string value ctx = Ok s ↔ value = JStr s ∧ printable s = true.
Proof.
  destruct value; cbn; try (split; [discriminate|by intros [? _]]).
  destruct (printable s0) eqn:E; split; try discriminate; try congruence.
  - by intros [= <-].
  - intros [[= <-] _]. done.
  - intros [[= <-] ?]. congruence.
Qed.

Lemma string_at_ok k ctx kvs s :
  string_at k ctx (JObj kvs) = Ok s ↔ assoc k kvs = Some (JStr s) ∧ printable s = true.
Proof.
  unfold string_at. rewrite result_bind_ok. setoid_rewrite getitem_ok.
  setoid_rewrite string_ok. naive_solver.
Qed.

Lemma integer_ok value ctx z : _integer value ctx = Ok z ↔ value = JInt z ∧ (0 ≤ z)%Z.
Proof.
  destruct value; cbn; try (split; [discriminate|by intros [? _]]).
  destruct (Z.ltb_spec z0 0); split; try discriminate.
  - intros [[= <-] ?]. lia.
  - by intros [= <-].
  - by intros [[= <-] _].
Qed.

Lemma artifact_demand_ok {A} b msg (r : result A) x :
  (demand b msg ≫= λ _, r) = Ok x ↔ b = true ∧ r = Ok x.
Proof. apply check_bind. Qed.

Ltac by_chars :=
  intros c; destruct c as [[] [] [] [] [] [] [] []]; vm_compute; congruence.

Lemma digest_printable s : is_digest s = true → printable s = true.
Proof.
  unfold is_digest, printable. intros. reflect. apply andb_true_iff. split.
  - destruct s; [done|]. done.
  - revert H0. apply string_forall_impl. by_chars.
Qed.

Lemma sha256_ok value ctx s : _sha256 value ctx = Ok s ↔ value = JStr s ∧ is_digest s = true.
Proof.
  unfold _sha256. rewrite result_bind_ok. setoid_rewrite string_ok. setoid_rewrite artifact_demand_ok.
  split; [naive_solver|]. intros [-> H]. exists s. pose proof (digest_printable s H). naive_solver.
Qed.

(** ** Admissible parts *)

Definition plugin_ok (p : PluginIdentity) : Prop :=
  printable (pl_namespace p) = true ∧ printable (pl_name p) = true
  ∧ printable (pl_version p) = true ∧ is_digest (artifact_sha256 p) = true.

Definition host_ok (h : HostCompatibility) : Prop :=
  printable (runtime h) = true ∧ printable (host_version h) = true
  ∧ printable (provider h) = true ∧ printable (abi h) = true.

Definition claim_ok (c : ResourceClaim) : Prop :=
  is_resource_uri (uri c) = true ∧ mode c ∈ claim_modes ∧ printable (owner c) = true.

Definition obligation_ok (o : EvidenceObligation) : Prop :=
  printable (obligation_id o) = true ∧ printable (ob_role o) = true
  ∧ printable (event o) = true ∧ required_ordinals o ≠ []
  ∧ Forall (λ z, (0 ≤ z)%Z) (required_ordinals o) ∧ StronglySorted Z.lt (required_ordinals o).

Definition predecessor_ok (p : PredecessorSnapshot) : Prop :=
  (0 ≤ pred_generation p)%Z
  ∧ match pred_plan_id p with Some s => printable s = true | None => True end
  ∧ canon (JObj (rendered_inputs p)).

Record plan_ok `{Sha256} (p : Plan) : Prop := {
  po_plugins : plugins p ≠ [] ∧ Forall plugin_ok (plugins p) ∧ NoDup (plugin_id <$> plugins p);
  po_host : host_ok (plan_host p);
  po_claims : Forall claim_ok (claims p) ∧ NoDup (uri <$> claims p);
  po_obligations : obligations p ≠ [] ∧ Forall obligation_ok (obligations p)
    ∧ NoDup (obligation_id <$> obligations p);
  po_predecessor : predecessor_ok (predecessor p);
}.

(** ** Readers of the parts *)

Ltac nodup_keys := apply (bool_decide_eq_true_1 _); reflexivity.

(** A reader of an object: the value has the fields of [fs] exactly when it is printed from
    them. *)
Lemma reads_fields v fs :
  NoDup (keys fs) → canon v →
  v = norm (JObj fs) ↔ ∃ kvs, v = JObj kvs ∧ same_keys (keys fs) kvs = true
    ∧ Forall (λ kv, assoc kv.1 kvs = Some (norm kv.2)) fs.
Proof.
  intros Hf Hc. split.
  - intros E. destruct (norm_is_obj v fs) as [kvs ->].
    { rewrite E. by rewrite norm_norm. }
    exists kvs. split; [done|]. by apply canon_fields.
  - intros (kvs & -> & H). by apply canon_fields.
Qed.

(** Running the reads of a field list forwards, and reading off what they read. *)
Ltac run_reads := repeat match goal with
  | |- context [string_at ?k ?c (JObj ?kvs) ≫= _] =>
      erewrite (proj2 (string_at_ok k c kvs _)) by (split; eassumption)
  | |- context [getitem ?k (JObj ?kvs) ≫= _] =>
      erewrite (proj2 (getitem_ok k kvs _)) by eassumption
  | H : ?b = true |- context [demand ?b _ ≫= _] => rewrite H
  | _ => progress cbn [mbind result_bind demand check]
  end.

Ltac inv_reads := repeat match goal with
  | H : demand _ _ ≫= _ = Ok _ |- _ => apply artifact_demand_ok in H as [? H]
  | H : _ ≫= _ = Ok _ |- _ => apply result_bind_ok in H as (? & ? & H)
  | H : _exact_fields _ _ _ = Ok _ |- _ => apply exact_fields_ok in H as (-> & ? & -> & ?)
  | H : string_at _ _ (JObj _) = Ok _ |- _ => apply string_at_ok in H as [? ?]
  | H : getitem _ (JObj _) = Ok _ |- _ => apply getitem_ok in H
  | H : _sha256 _ _ = Ok _ |- _ => apply sha256_ok in H as [-> ?]
  | H : _integer _ _ = Ok _ |- _ => apply integer_ok in H as [-> ?]
  | H : _string _ _ = Ok _ |- _ => apply string_ok in H as [-> ?]
  | H : Ok _ = Ok _ |- _ => injection H as <-
  end.

Lemma exact_fields_run kvs fs ctx :
  same_keys fs kvs = true → _exact_fields (JObj kvs) fs ctx = Ok (JObj kvs).
Proof. cbn. by intros ->. Qed.

Lemma parse_plugin_ok i v p : canon v →
  parse_plugin i v = Ok p ↔ plugin_ok p ∧ v = norm (to_json p).
Proof.
  intros Hc. unfold to_json, PluginIdentity_json. rewrite reads_fields by (done || nodup_keys).
  unfold parse_plugin, plugin_ok. split.
  - intros H. inv_reads. cbn. split; [done|]. eexists. split; [done|]. split; [done|].
    by repeat constructor.
  - intros ((? & ? & ? & ?) & kvs & -> & Hk & Hfs). rewrite !Forall_cons in Hfs.
    cbn [fst snd norm] in Hfs. destruct Hfs as (? & ? & ? & ? & _).
    rewrite exact_fields_run by done. run_reads. rewrite (proj2 (sha256_ok _ _ _)) by done.
    by destruct p.
Qed.

Lemma parse_host_ok v h : canon v →
  parse_host v = Ok h ↔ host_ok h ∧ v = norm (to_json h).
Proof.
  intros Hc. unfold to_json, HostCompatibility_json. rewrite reads_fields by (done || nodup_keys).
  unfold parse_host, host_ok. split.
  - intros H. inv_reads. cbn. split; [done|]. eexists. split; [done|]. split; [done|].
    by repeat constructor.
  - intros ((? & ? & ? & ?) & kvs & -> & Hk & Hfs). rewrite !Forall_cons in Hfs.
    cbn [fst snd norm] in Hfs. destruct Hfs as (? & ? & ? & ? & _).
    rewrite exact_fields_run by done. run_reads. by destruct h.
Qed.

Lemma lower_app a b : lower (a +:+ b) = lower a +:+ lower b.
Proof. induction a as [|c a IH]; [done|]. rewrite str_app_cons. cbn. by rewrite IH. Qed.

Lemma has_char_forall c s : has_char c s = negb (string_forall (λ d, bool_decide (d ≠ c)) s).
Proof.
  induction s as [|d s IH]; [done|]. cbn. rewrite IH.
  repeat case_bool_decide; subst; cbn; naive_solver.
Qed.

Lemma resource_chars s : string_forall is_resource_char s = true →
  lower s = s ∧ has_char " " s = false ∧ string_forall (λ c, negb (is_space c)) s = true.
Proof.
  induction s as [|c s IH]; [done|]. cbn. intros. reflect. destruct (IH H0) as (-> & -> & ->).
  assert (lower_char c = c ∧ bool_decide (c = " "%char) = false ∧ is_space c = false)
    as (-> & -> & ->); [|done].
  clear -H. revert H. destruct c as [[] [] [] [] [] [] [] []]; vm_compute; done.
Qed.

Lemma resource_uri_ok u : is_resource_uri u = true →
  printable u = true ∧ canonical_uri u "resource" = Ok u.
Proof.
  unfold is_resource_uri. destruct (strip_prefix _ u) as [r|] eqn:E; [|done].
  intros. reflect. apply strip_prefix_inv in E. subst.
  destruct (resource_chars r H0) as (Hl & Hs & Hp). split.
  - unfold printable. rewrite string_forall_app, Hp. done.
  - unfold canonical_uri. rewrite lower_app, Hl, has_char_forall, string_forall_app.
    rewrite has_char_forall in Hs. apply negb_false_iff in Hs. rewrite Hs.
    change (String.prefix ("urn:ecpa:" +:+ "resource" +:+ ":") ?x) with
      (String.prefix "urn:ecpa:resource:" x).
    assert (∀ a b, String.prefix a (a +:+ b) = true) as ->.
    { induction a as [|c a IH]; intros b; [by destruct b|]. rewrite str_app_cons. cbn.
      destruct (ascii_dec c c); [apply IH|done]. }
    change (lower "urn:ecpa:resource:") with "urn:ecpa:resource:". by rewrite String.eqb_refl.
Qed.

Lemma parse_claim_ok i v c : canon v →
  parse_claim i v = Ok c ↔ claim_ok c ∧ v = norm (to_json c).
Proof.
  intros Hc. unfold to_json, ResourceClaim_json. rewrite reads_fields by (done || nodup_keys).
  unfold parse_claim, claim_ok. split.
  - intros H. inv_reads. reflect. cbn. split; [done|]. eexists. split; [done|].
    split; [done|]. by repeat constructor.
  - intros ((Hu & Hm & ?) & kvs & -> & Hk & Hfs). rewrite !Forall_cons in Hfs.
    cbn [fst snd norm] in Hfs. destruct Hfs as (? & ? & ? & _).
    destruct (resource_uri_ok _ Hu) as [? Hcu].
    assert (printable (mode c) = true)
      by (repeat (apply elem_of_cons in Hm as [->|Hm]; [done|]); by apply elem_of_nil in Hm).
    rewrite exact_fields_run by done. run_reads. rewrite Hcu. run_reads.
    rewrite bool_decide_true by done. run_reads. by destruct c.
Qed.

Lemma integers_ok ctx l zs :
  map_result (λ o, _integer o ctx) l = Ok zs ↔
  l = JInt <$> zs ∧ Forall (λ z, (0 ≤ z)%Z) zs.
Proof.
  rewrite map_result_ok. split.
  - induction 1 as [|v z l zs Hz _ IH]; [done|]. apply integer_ok in Hz as [-> ?].
    destruct IH as [-> ?]. rewrite fmap_cons. by split; [|constructor].
  - intros [-> Hz]. induction Hz as [|z zs Hz _ IH]; rewrite ?fmap_cons; constructor; [|done].
    by apply integer_ok.
Qed.

(** [sorted(set(xs)) == xs]: the list is strictly increasing. *)
Lemma sorted_set_id xs : sorted_set xs = xs ↔ StronglySorted Z.lt xs.
Proof.
  assert (∀ a b : Z, (a <=? b)%Z = true ∨ (b <=? a)%Z = true) as Htot by (intros; lia).
  assert (∀ a b c : Z, (a <=? b)%Z = true → (b <=? c)%Z = true → (a <=? c)%Z = true) as Htr
    by (intros; lia).
  unfold sorted_set. split.
  - intros E. pose proof (sort_by_sorted id Z.leb Htot Htr (remove_dups xs)) as Hs.
    pose proof (NoDup_remove_dups xs) as Hnd. rewrite <-(sort_by_perm id Z.leb) in Hnd.
    rewrite E in Hs, Hnd. clear E. induction Hs as [|x xs Hs IH Hx]; [constructor|].
    apply NoDup_cons in Hnd as [Hn Hnd]. constructor; [auto|].
    rewrite Forall_forall in Hx |- *. intros y Hy. specialize (Hx y Hy). unfold key_le in Hx.
    cbn in Hx. assert (x ≠ y) by (by intros ->). lia.
  - intros Hs. assert (NoDup xs) as Hnd.
    { induction Hs as [|x xs Hs IH Hx]; constructor; [|done]. intros Hin.
      rewrite Forall_forall in Hx. specialize (Hx _ Hin). lia. }
    assert (remove_dups xs = xs) as ->.
    { clear Hs. induction Hnd as [|x xs Hx _ IH]; [done|]. cbn.
      rewrite IH. by destruct (decide_rel elem_of x xs). }
    apply sort_by_id. induction Hs as [|x xs Hs IH Hx]; constructor.
    + apply IH. by apply NoDup_cons in Hnd as [_ ?].
    + eapply Forall_impl; [exact Hx|]. intros y ?. unfold key_le. cbn. lia.
Qed.

Lemma nonempty_list_ok v msg l : _nonempty_list v msg = Ok l ↔ v = JArr l ∧ l ≠ [].
Proof.
  destruct v as [| | | |[|x l']|]; cbn; try (split; [discriminate|by intros [? ?]]).
  - split; [discriminate|]. by intros [[= <-] ?].
  - split; [by intros [= <-]|]. by intros [[= <-] _].
Qed.

Lemma list_ok v msg l : _list v msg = Ok l ↔ v = JArr l.
Proof. destruct v; cbn; split; try discriminate; congruence. Qed.

Lemma parse_obligation_ok i v o : canon v →
  parse_obligation i v = Ok o ↔ obligation_ok o ∧ v = norm (to_json o).
Proof.
  intros Hc. unfold to_json, EvidenceObligation_json.
  rewrite reads_fields by (done || nodup_keys).
  assert (∀ zs : list Z, map norm (to_json <$> zs) = JInt <$> zs) as Hn
    by (intros zs; rewrite <-list_fmap_compose; by apply list_fmap_ext).
  unfold parse_obligation, obligation_ok. split.
  - intros H. inv_reads. reflect.
    rename select (_nonempty_list _ _ = _) into Hl. rename select (map_result _ _ = _) into Hm.
    apply nonempty_list_ok in Hl as [-> Hne]. apply integers_ok in Hm as [-> Hz].
    rename select (assoc "required_ordinals" _ = _) into Ho.
    cbn. split; [split_and!; try done|].
    + intros ->. done.
    + by apply sorted_set_id.
    + eexists. split; [done|]. split; [done|]. repeat constructor; [done..|]. cbn.
      rewrite Ho. do 2 f_equal. by rewrite Hn.
  - intros ((? & ? & ? & Hne & Hz & Hs) & kvs & -> & Hk & Hfs). rewrite !Forall_cons in Hfs.
    cbn [fst snd norm] in Hfs. destruct Hfs as (? & ? & ? & Ho & _).
    rewrite exact_fields_run by done. cbn [mbind result_bind].
    rewrite (proj2 (getitem_ok _ _ _) Ho).
    unfold to_json at 1, list_json at 1. cbn [mbind result_bind norm]. rewrite Hn.
    rewrite (proj2 (nonempty_list_ok (JArr (JInt <$> required_ordinals o)) _ _))
      by (split; [done|by destruct (required_ordinals o)]).
    cbn [mbind result_bind]. rewrite (proj2 (integers_ok _ _ _)) by done.
    apply sorted_set_id in Hs. cbn [mbind result_bind]. rewrite bool_decide_true by done.
    run_reads. by destruct o.
Qed.

Lemma parse_predecessor_ok v g pid ri : canon v →
  (∃ pv, parse_predecessor v = Ok (pv, pid, ri) ∧ getitem "generation" pv = Ok (JInt g))
  ∧ (0 ≤ g)%Z ↔
  predecessor_ok (mkPredecessorSnapshot g pid ri)
  ∧ v = norm (to_json (mkPredecessorSnapshot g pid ri)).
Proof.
  intros Hc. unfold to_json, PredecessorSnapshot_json.
  rewrite reads_fields by (done || nodup_keys).
  unfold parse_predecessor, predecessor_ok. cbn [pred_generation pred_plan_id rendered_inputs].
  split.
  - intros ((pv & H & Hg) & Hz). inv_reads. destruct (canon_obj _ Hc) as [_ Hsub].
    rename select (assoc "rendered_inputs" _ = _) into Hr.
    rename select (assoc "plan_id" _ = _) into Hpid.
    repeat match goal with H : ?x = pid |- _ => subst x | H : ?x = ri |- _ => subst x end.
    rename select (_ = Ok ri) into Hri. rename select (_ = Ok pid) into Hpd.
    match type of Hri with match ?x with _ => _ end = _ =>
      destruct x; try discriminate; injection Hri as -> end.
    match type of Hc with canon (JObj ?d) =>
      assert (assoc "plan_id" d = Some (norm (to_json pid))
        ∧ match pid with Some s => printable s = true | None => True end) as [Hp Hpr] end.
    { rewrite Hpid.
      match type of Hpd with match ?x with _ => _ end = _ => destruct x end; by inv_reads. }
    split; [split_and!; eauto|]. eexists. split; [done|]. split; [done|].
    rewrite !Forall_cons. split_and!; [exact Hg|exact Hp| |done].
    cbn [fst snd]. rewrite Hr. f_equal. symmetry. apply (canon_norm _ (Hsub _ _ Hr)).
  - intros ((Hz & Hp & Hri) & kvs & -> & Hk & Hfs). rewrite !Forall_cons in Hfs.
    cbn [fst snd] in Hfs. destruct Hfs as (Hg & Hpid & Hr & _).
    rewrite (canon_norm _ Hri) in Hr. split; [|done]. exists (JObj kvs).
    rewrite exact_fields_run by done. cbn [mbind result_bind].
    rewrite (proj2 (getitem_ok _ _ _) Hpid).
    cbn [mbind result_bind]. rewrite (proj2 (getitem_ok _ _ _) Hr), (proj2 (getitem_ok _ _ _) Hg).
    cbn. split; [|done]. destruct pid as [s|]; cbn; [|done]. by rewrite Hp.
Qed.

(** ** Lists of parts *)

Lemma map_result_i_canon {A} `{ToJson A} (f : nat → json → result A) (ok : A → Prop) l ys :
  (∀ i v y, canon v → f i v = Ok y ↔ ok y ∧ v = norm (to_json y)) →
  Forall canon l →
  map_result_i f l = Ok ys ↔ Forall ok ys ∧ l = norm <$> (to_json <$> ys).
Proof.
  intros Hf Hl. rewrite map_result_i_ok. rewrite Forall_lookup in Hl. split.
  - intros [Hlen Hi].
    assert (∀ i x y, l !! i = Some x → ys !! i = Some y → ok y ∧ x = norm (to_json y)) as Hy.
    { intros i x y Hx Hy. apply (Hf i); [by eapply Hl|]. by apply Hi. }
    split.
    + apply Forall_lookup. intros i y Hy'. destruct (lookup_lt_is_Some_2 l i) as [x Hx].
      { rewrite <-Hlen. by eapply lookup_lt_Some. }
      by destruct (Hy i x y).
    + apply list_eq. intros i. rewrite !list_lookup_fmap.
      destruct (l !! i) as [x|] eqn:Hx; destruct (ys !! i) as [y|] eqn:Hy'; cbn; [|exfalso..|done].
      * f_equal. by destruct (Hy i x y).
      * apply lookup_lt_Some in Hx. apply lookup_ge_None in Hy'. lia.
      * apply lookup_lt_Some in Hy'. apply lookup_ge_None in Hx. lia.
  - intros [Hok ->]. split; [by rewrite !length_fmap|]. intros i x y.
    rewrite !list_lookup_fmap. intros Hx Hy. rewrite Hy in Hx. cbn in Hx. injection Hx as <-.
    apply Hf.
    + eapply (Hl i). by rewrite !list_lookup_fmap, Hy.
    + split; [|done]. rewrite Forall_lookup in Hok. by eapply Hok.
Qed.

(** The lists of a plan: an array of parts, read one by one, with distinct keys. *)
Lemma parse_list_ok {A K} `{ToJson A} `{EqDecision K} (f : nat → json → result A)
    (ok : A → Prop) (key : A → K) msg l l' :
  (∀ i v y, canon v → f i v = Ok y ↔ ok y ∧ v = norm (to_json y)) → canon (JArr l) →
  (xs ← map_result_i f l; _ ← demand (negb (has_dups (key <$> xs))) msg; Ok xs) = Ok l' ↔
  Forall ok l' ∧ NoDup (key <$> l') ∧ JArr l = norm (to_json l').
Proof.
  intros Hf Hc%canon_arr. rewrite result_bind_ok. setoid_rewrite artifact_demand_ok.
  setoid_rewrite negb_true_iff. setoid_rewrite has_dups_false.
  setoid_rewrite (map_result_i_canon f ok); [|done..].
  unfold to_json at 2, list_json. cbn [norm]. split.
  - intros (xs & [? ->] & ? & [= <-]). done.
  - intros (? & ? & [= ->]). by exists l'.
Qed.

Lemma to_json_nil {A} `{ToJson A} (l : list A) : norm (to_json l) = JArr [] → l = [].
Proof. by destruct l. Qed.

(** ** Plans whose inputs are in any order *)

(** The plan with its rendered inputs in printed order, as it is read back. *)
Definition normal (p : Plan) : Plan :=
  mkPlan (plugins p) (plan_host p) (claims p) (obligations p)
    (mkPredecessorSnapshot (pred_generation (predecessor p)) (pred_plan_id (predecessor p))
       (match norm (JObj (rendered_inputs (predecessor p))) with JObj kvs => kvs | _ => [] end))
    (fallback_proven p).

(** Printed parts determine the parts. *)
Definition json_inj (A : Type) `{ToJson A} : Prop :=
  ∀ x y : A, norm (to_json x) = norm (to_json y) → x = y.

Lemma some_inj {A} (x y : A) : Some x = Some y → x = y.
Proof. by intros [= ->]. Qed.

(** Reading the fields of two dictionaries that print alike. *)
Ltac fields_in E :=
  let F := fresh in
  pose proof (norm_obj_fields _ _ E ltac:(nodup_keys) ltac:(nodup_keys)) as F; clear E;
  rename F into E.

Ltac fields_eq E :=
  lazymatch type of E with norm ?a = norm ?b =>
    let a' := eval hnf in a in let b' := eval hnf in b in change (norm a' = norm b') in E end;
  fields_in E.

Ltac same_field E k :=
  let F := fresh in pose proof (E k) as F; cbn -[norm] in F; injection F as F;
  first [injection F as F|idtac].

Lemma plugin_json_inj : json_inj PluginIdentity.
Proof.
  intros [a b c d] [a' b' c' d'] E. fields_eq E.
  same_field E "namespace". same_field E "name". same_field E "version".
  same_field E "artifact_sha256". by subst.
Qed.

Lemma host_json_inj : json_inj HostCompatibility.
Proof.
  intros [a b c d] [a' b' c' d'] E. fields_eq E.
  same_field E "runtime". same_field E "version". same_field E "provider".
  same_field E "abi". by subst.
Qed.

Lemma claim_json_inj : json_inj ResourceClaim.
Proof.
  intros [a b c] [a' b' c'] E. fields_eq E.
  same_field E "uri". same_field E "owner". same_field E "mode". by subst.
Qed.

Lemma list_json_inj {A} `{ToJson A} : json_inj A →
  ∀ l k : list A, map norm (to_json <$> l) = map norm (to_json <$> k) → l = k.
Proof.
  intros Hinj l. induction l as [|x l IH]; intros [|y k] E; try done.
  cbn in E. injection E as E1 E2. f_equal; [by apply Hinj|by apply IH].
Qed.

Lemma obligation_json_inj : json_inj EvidenceObligation.
Proof.
  intros [a b c d] [a' b' c' d'] E. fields_eq E.
  same_field E "obligation_id". same_field E "role". same_field E "event".
  pose proof (E "required_ordinals") as F. cbn -[norm to_json] in F. injection F as F.
  apply list_json_inj in F; [by subst|]. by intros ?? [= ?].
Qed.

Lemma predecessor_json_inj p q :
  canon (JObj (rendered_inputs p)) → canon (JObj (rendered_inputs q)) →
  norm (to_json p) = norm (to_json q) → p = q.
Proof.
  destruct p as [a b c], q as [a' b' c']. cbn [rendered_inputs]. intros [_ Hc] [_ Hc'] E.
  fields_eq E. same_field E "generation".
  pose proof (E "plan_id") as F. cbn -[norm to_json] in F. injection F as F.
  assert (Some (norm (JObj c)) = Some (norm (JObj c'))) as G by exact (E "rendered_inputs").
  rewrite Hc, Hc' in G. injection G as ->.
  assert (b = b') as -> by (destruct b, b'; cbn in F; congruence). by subst.
Qed.

Lemma plan_json_inj p q :
  canon (JObj (rendered_inputs (predecessor p))) →
  canon (JObj (rendered_inputs (predecessor q))) →
  norm (to_json p) = norm (to_json q) → p = q.
Proof.
  destruct p as [a b c d e f], q as [a' b' c' d' e' f']. cbn [predecessor]. intros Hc Hc' E.
  fields_eq E.
  assert (norm (to_json a) = norm (to_json a')) as E1 by exact (some_inj _ _ (E "plugins")).
  assert (norm (to_json b) = norm (to_json b')) as E2 by exact (some_inj _ _ (E "host")).
  assert (norm (to_json c) = norm (to_json c')) as E3 by exact (some_inj _ _ (E "claims")).
  assert (norm (to_json d) = norm (to_json d')) as E4 by exact (some_inj _ _ (E "obligations")).
  assert (norm (to_json e) = norm (to_json e')) as E5 by exact (some_inj _ _ (E "predecessor")).
  same_field E "fallback_proven".
  apply host_json_inj in E2. injection E1 as E1. injection E3 as E3. injection E4 as E4.
  apply (list_json_inj plugin_json_inj) in E1. apply (list_json_inj claim_json_inj) in E3.
  apply (list_json_inj obligation_json_inj) in E4. apply predecessor_json_inj in E5; [|done..]. by subst.
Qed.

Section Plans.
Context `{Sha256}.

Lemma parse_plugins_ok v l : canon v →
  parse_plugins v = Ok l ↔
  (l ≠ [] ∧ Forall plugin_ok l ∧ NoDup (plugin_id <$> l)) ∧ v = norm (to_json l).
Proof.
  intros Hc. unfold parse_plugins. rewrite result_bind_ok. setoid_rewrite nonempty_list_ok. split.
  - intros (l' & [-> Hne] & Hl). apply (parse_list_ok _ plugin_ok) in Hl; [|exact parse_plugin_ok|done].
    destruct Hl as (? & ? & E). split_and!; try done. intros ->. by injection E as ->.
  - intros ((Hne & Hl) & E). destruct v as [| | | |l'|]; try done. exists l'. split.
    { split; [done|]. intros ->. symmetry in E. by apply to_json_nil in E. }
    apply (parse_list_ok _ plugin_ok); [exact parse_plugin_ok|done|naive_solver].
Qed.

Lemma parse_claims_ok v l : canon v →
  parse_claims v = Ok l ↔
  (Forall claim_ok l ∧ NoDup (uri <$> l)) ∧ v = norm (to_json l).
Proof.
  intros Hc. unfold parse_claims. rewrite result_bind_ok. setoid_rewrite list_ok. split.
  - intros (l' & -> & Hl). apply (parse_list_ok _ claim_ok) in Hl; [|exact parse_claim_ok|done].
    naive_solver.
  - intros (Hl & E). destruct v as [| | | |l'|]; try done. exists l'. split; [done|].
    apply (parse_list_ok _ claim_ok); [exact parse_claim_ok|done|naive_solver].
Qed.

Lemma artifact_obligations_ok v l : canon v →
  parse_obligations v = Ok l ↔
  (l ≠ [] ∧ Forall obligation_ok l ∧ NoDup (obligation_id <$> l)) ∧ v = norm (to_json l).
Proof.
  intros Hc. unfold parse_obligations. rewrite result_bind_ok.
  setoid_rewrite nonempty_list_ok. split.
  - intros (l' & [-> Hne] & Hl).
    apply (parse_list_ok _ obligation_ok) in Hl; [|exact parse_obligation_ok|done].
    destruct Hl as (? & ? & E). split_and!; try done. intros ->. by injection E as ->.
  - intros ((Hne & Hl) & E). destruct v as [| | | |l'|]; try done. exists l'. split.
    { split; [done|]. intros ->. symmetry in E. by apply to_json_nil in E. }
    apply (parse_list_ok _ obligation_ok); [exact parse_obligation_ok|done|naive_solver].
Qed.

Lemma part_ok {A} k kvs (f : json → result A) x :
  getitem k (JObj kvs) ≫= f = Ok x ↔ ∃ v, assoc k kvs = Some v ∧ f v = Ok x.
Proof. rewrite result_bind_ok. by setoid_rewrite getitem_ok. Qed.

Lemma parse_plan_ok v p : canon v →
  parse_plan v = Ok p ↔ plan_ok p ∧ v = norm (to_json p).
Proof.
  intros Hc. unfold to_json, Plan_json. rewrite reads_fields by (done || nodup_keys).
  unfold parse_plan. split.
  - intros (? & (-> & kvs & -> & Hk)%exact_fields_ok & Hp)%result_bind_ok.
    destruct (canon_obj _ Hc) as [_ Hsub].
    apply result_bind_ok in Hp as (pls & (v1 & E1 & H1)%part_ok & Hp).
    apply result_bind_ok in Hp as (h & (v2 & E2 & H2)%part_ok & Hp).
    apply result_bind_ok in Hp as (cls & (v3 & E3 & H3)%part_ok & Hp).
    apply result_bind_ok in Hp as (obs & (v4 & E4 & H4)%part_ok & Hp).
    apply result_bind_ok in Hp as ([[pv pid] ri] & (v5 & E5 & H5)%part_ok & Hp).
    apply result_bind_ok in Hp as (v6 & E6%getitem_ok & Hp).
    apply result_bind_ok in Hp as (fb & H6 & Hp). apply result_bind_ok in Hp as (g & Eg & Hp).
    apply result_bind_ok in Hp as (gen & [-> Hg]%integer_ok & [= <-]).
    apply parse_plugins_ok in H1 as [? ->]; [|eauto]. apply parse_host_ok in H2 as [? ->]; [|eauto].
    apply parse_claims_ok in H3 as [? ->]; [|eauto].
    apply artifact_obligations_ok in H4 as [? ->]; [|eauto].
    destruct (parse_predecessor_ok v5 gen pid ri) as [[? ->] _]; [by eauto|by eauto|].
    destruct v6; try discriminate H6. injection H6 as ->.
    split; [by constructor|]. eexists. split; [done|]. split; [done|].
    cbn -[norm to_json]. by rewrite !Forall_cons.
  - intros ([] & kvs & -> & Hk & Hfs). rewrite !Forall_cons in Hfs.
    cbn -[norm to_json] in Hfs. destruct Hfs as (E1 & E2 & E3 & E4 & E5 & E6 & _).
    destruct (canon_obj _ Hc) as [_ Hsub]. rewrite exact_fields_run by done.
    cbn [mbind result_bind].
    rewrite (proj2 (part_ok "plugins" kvs parse_plugins (plugins p)))
      by (eexists; split; [done|]; apply parse_plugins_ok; eauto). cbn [mbind result_bind].
    rewrite (proj2 (part_ok "host" kvs parse_host (plan_host p)))
      by (eexists; split; [done|]; apply parse_host_ok; eauto). cbn [mbind result_bind].
    rewrite (proj2 (part_ok "claims" kvs parse_claims (claims p)))
      by (eexists; split; [done|]; apply parse_claims_ok; eauto). cbn [mbind result_bind].
    rewrite (proj2 (part_ok "obligations" kvs parse_obligations (obligations p)))
      by (eexists; split; [done|]; apply artifact_obligations_ok; eauto). cbn [mbind result_bind].
    destruct p as [pls h cls obs [g pid ri] fb]. cbn -[norm to_json getitem] in *.
    destruct (parse_predecessor_ok _ g pid ri (Hsub _ _ E5)) as [_ [(pv & Epv & Eg) Hg]]; [done|].
    rewrite (proj2 (part_ok "predecessor" kvs parse_predecessor _)) by eauto.
    cbn [mbind result_bind]. rewrite (proj2 (getitem_ok _ _ _) E6). cbn [mbind result_bind norm].
    rewrite Eg. cbn [mbind result_bind]. by rewrite (proj2 (integer_ok _ _ _) (conj eq_refl Hg)).
Qed.

Lemma inputs_unique p : plan_ok p → keys_unique (JObj (rendered_inputs (predecessor p))) = true.
Proof. intros Hok. by destruct (po_predecessor p Hok) as (_ & _ & [? _]). Qed.

Lemma plan_json_unique p :
  keys_unique (JObj (rendered_inputs (predecessor p))) = true → keys_unique (to_json p) = true.
Proof.
  intros Hri. unfold to_json, Plan_json. apply keys_unique_obj. split; [nodup_keys|].
  assert (∀ A (J : ToJson A) (l : list A), (∀ x, keys_unique (to_json x) = true) →
    keys_unique (to_json l) = true) as Hl.
  { intros A J l Hx. apply keys_unique_arr, Forall_fmap, Forall_forall. intros x _. apply Hx. }
  repeat constructor; cbn [snd].
  - by apply Hl.
  - by apply Hl.
  - apply Hl. intros o. unfold to_json, EvidenceObligation_json. apply keys_unique_obj.
    split; [nodup_keys|]. repeat constructor. by apply Hl.
  - unfold to_json, PredecessorSnapshot_json. apply keys_unique_obj. split; [nodup_keys|].
    repeat constructor; [|done]. cbn. by destruct (pred_plan_id (predecessor p)).
Qed.

Lemma artifact_unique p :
  keys_unique (JObj (rendered_inputs (predecessor p))) = true →
  keys_unique (plan_artifact_value p) = true.
Proof.
  intros Hri. apply keys_unique_obj. split; [nodup_keys|].
  repeat constructor. by apply plan_json_unique.
Qed.

(** What the parser's last checks say of the envelope. *)
Lemma parse_envelope raw p :
  parse_plan_artifact raw = Ok p ↔
  ∃ v, loads raw = Some v ∧ raw = canonical_bytes v +:+ newline
    ∧ plan_ok p ∧ v = norm (plan_artifact_value p).
Proof.
  unfold parse_plan_artifact. split.
  - intros (v & Hv & Hp)%result_bind_ok.
    assert (loads raw = Some v) as Hl.
    { apply (loads_refusing reject_nonfinite); [done|].
      destruct (loads_with _ _ raw); [congruence|done]. }
    apply result_bind_ok in Hp as (? & (-> & kvs & -> & Hk)%exact_fields_ok & Hp).
    apply artifact_demand_ok in Hp as [Hraw Hp]. reflect.
    assert (canon (JObj kvs)) as Hc.
    { rewrite Hraw in Hl. by apply loads_canonical_norm in Hl as []. }
    apply result_bind_ok in Hp as (sc & Es%getitem_ok & [Hs Hp]%artifact_demand_ok). reflect. subst sc.
    apply result_bind_ok in Hp as (b & Eb%getitem_ok & Hp).
    apply result_bind_ok in Hp as (q & Hq & Hp).
    apply result_bind_ok in Hp as (i & Ei%getitem_ok & [Hi [= ->]]%artifact_demand_ok). reflect. subst i.
    destruct (canon_obj _ Hc) as [_ Hsub]. apply parse_plan_ok in Hq as [Hok ->]; [|eauto].
    exists (JObj kvs). split_and!; [done..|]. apply reads_fields; [nodup_keys|done|].
    exists kvs. split; [done|]. split; [done|]. by rewrite !Forall_cons.
  - intros (v & Hl & Hraw & Hok & Hv).
    assert (canon v) as Hc.
    { rewrite Hraw in Hl. by apply loads_canonical_norm in Hl as []. }
    rewrite (proj2 (loads_refusing reject_nonfinite raw v ltac:(done)) Hl).
    apply reads_fields in Hv as (kvs & -> & Hk & Hfs); [|nodup_keys|done].
    rewrite !Forall_cons in Hfs. cbn -[norm to_json] in Hfs. destruct Hfs as (Es & Ei & Eb & _).
    destruct (canon_obj _ Hc) as [_ Hsub]. cbn [mbind result_bind].
    rewrite exact_fields_run by done. cbn [mbind result_bind].
    rewrite <-Hraw, String.eqb_refl. cbn [demand check mbind result_bind].
    rewrite (proj2 (getitem_ok _ _ _) Es). cbn [mbind result_bind norm].
    rewrite bool_decide_true by done. cbn [demand check mbind result_bind].
    rewrite (proj2 (getitem_ok _ _ _) Eb). cbn [mbind result_bind].
    rewrite (proj2 (parse_plan_ok _ p (Hsub _ _ Eb))) by done. cbn [mbind result_bind].
    rewrite (proj2 (getitem_ok _ _ _) Ei). cbn [mbind result_bind norm].
    by rewrite bool_decide_true.
Qed.

(** What is written in any order is read back in printed order: for a plan whose inputs are a
    dictionary, the parser accepts the printed bytes exactly when the plan in printed order is
    admissible, and that is the plan it returns. *)
Lemma normal_json p :
  keys_unique (JObj (rendered_inputs (predecessor p))) = true →
  norm (to_json (normal p)) = norm (to_json p)
  ∧ canon (JObj (rendered_inputs (predecessor (normal p)))).
Proof.
  destruct p as [pls h cls obs [g pid ri] fb].
  cbn [predecessor rendered_inputs normal pred_generation pred_plan_id]. intros Hu.
  assert (JObj (match norm (JObj ri) with JObj kvs => kvs | _ => [] end) = norm (JObj ri)) as E
    by by rewrite norm_obj.
  rewrite E. split; [|split; [by apply norm_keys_unique|apply norm_norm]].
  apply norm_obj_ext. unfold normal.
  cbn [map fst snd pred_generation pred_plan_id rendered_inputs predecessor plugins plan_host claims obligations fallback_proven].
  assert (norm (to_json (mkPredecessorSnapshot g pid
      (match norm (JObj ri) with JObj kvs => kvs | _ => [] end)))
    = norm (to_json (mkPredecessorSnapshot g pid ri))) as ->; [|done].
  apply norm_obj_ext. cbn [map fst snd pred_generation pred_plan_id rendered_inputs].
  by rewrite E, norm_norm.
Qed.

Lemma to_json_norm_bytes p q :
  norm (to_json p) = norm (to_json q) → plan_artifact_bytes p = plan_artifact_bytes q.
Proof.
  intros E. assert (plan_id p = plan_id q) as Ei.
  { unfold plan_id, content_id.
    by rewrite <-(canonical_bytes_norm (to_json p)), E, canonical_bytes_norm. }
  unfold plan_artifact_bytes, plan_artifact_value. rewrite Ei.
  apply (f_equal (λ s, s +:+ newline)).
  rewrite <-(canonical_bytes_norm (JObj _)), <-(canonical_bytes_norm (JObj [_; _; ("plan", to_json q)])).
  apply f_equal, norm_obj_ext. cbn [map fst snd]. by rewrite E.
Qed.

Lemma parse_printed p q :
  keys_unique (JObj (rendered_inputs (predecessor p))) = true →
  parse_plan_artifact (plan_artifact_bytes p) = Ok q ↔ plan_ok (normal p) ∧ q = normal p.
Proof.
  intros Hu. destruct (normal_json p Hu) as [En Hc].
  rewrite <-(to_json_norm_bytes (normal p) p En). split.
  - rewrite parse_envelope. intros (v & _ & Hb & Hok & ->).
    rewrite canonical_bytes_norm in Hb. unfold plan_artifact_bytes in Hb.
    apply str_app_inv_tail in Hb. apply canonical_bytes_inj in Hb.
    + unfold plan_artifact_value in Hb. fields_in Hb.
      assert (norm (to_json (normal p)) = norm (to_json q)) as Hj
        by exact (some_inj _ _ (Hb "plan")).
      apply plan_json_inj in Hj; [|done|by apply (po_predecessor q Hok)].
      by rewrite Hj.
    + apply artifact_unique, Hc.
    + by apply artifact_unique, inputs_unique.
  - intros [Hok ->]. rewrite parse_envelope. exists (norm (plan_artifact_value (normal p))).
    unfold plan_artifact_bytes. rewrite canonical_bytes_norm, loads_canonical; [done|].
    apply artifact_unique, Hc.
Qed.

(** What the parser raises: its own error, or the error of [canonical_uri]. *)
Definition artifact_exn (e : exn) : Prop :=
  match e with
  | PlanArtifactError _ => True
  | ContractError UNKNOWN_RESOURCE _ => True
  | _ => False
  end.

Lemma raises_demand b msg : raises artifact_exn (demand b msg).
Proof. by apply raises_check. Qed.

Lemma raises_string v ctx : raises artifact_exn (_string v ctx).
Proof. destruct v; cbn; try done. by case_match. Qed.

Lemma raises_integer v ctx : raises artifact_exn (_integer v ctx).
Proof. destruct v; cbn; try done. by case_match. Qed.

Lemma raises_sha256 v ctx : raises artifact_exn (_sha256 v ctx).
Proof.
  apply raises_bind; [apply raises_string|]. intros. by apply raises_bind; [apply raises_demand|].
Qed.

Lemma raises_exact_fields v fs ctx : raises artifact_exn (_exact_fields v fs ctx).
Proof. destruct v; cbn; try done. by case_match. Qed.

(** A field the object was checked to have is there. *)
Lemma raises_getitem fs kvs k :
  same_keys fs kvs = true → bool_decide (k ∈ fs) = true → raises artifact_exn (getitem k (JObj kvs)).
Proof.
  unfold same_keys. intros Hk Hin. reflect.
  match goal with Hf : forallb _ fs = true |- _ =>
    rewrite forallb_forall in Hf; apply list_elem_of_In, Hf in Hin end. reflect. apply assoc_is_Some in Hin as [x Hx].
  cbn. by rewrite Hx.
Qed.

Lemma raises_lists v msg :
  raises artifact_exn (_list v msg) ∧ raises artifact_exn (_nonempty_list v msg).
Proof. split; destruct v as [| | | |[|]|]; done. Qed.

Lemma raises_canonical_uri u k : raises artifact_exn (canonical_uri u k).
Proof. unfold canonical_uri. by case_match. Qed.

(** One read of an object with checked fields. *)
Ltac raise_step := match goal with
  | H : _exact_fields _ _ _ = Ok _ |- _ => apply exact_fields_ok in H as (-> & ? & -> & ?)
  | |- raises _ (_ ≫= _) => apply raises_bind; [|intros ??]
  | |- raises _ (Ok _) => exact I
  | |- raises _ (artifact_error _) => exact I
  | |- raises _ (demand _ _) => apply raises_demand
  | |- raises _ (_string _ _) => apply raises_string
  | |- raises _ (_integer _ _) => apply raises_integer
  | |- raises _ (_sha256 _ _) => apply raises_sha256
  | |- raises _ (_exact_fields _ _ _) => apply raises_exact_fields
  | |- raises _ (_list _ _) => apply raises_lists
  | |- raises _ (_nonempty_list _ _) => apply raises_lists
  | |- raises _ (canonical_uri _ _) => apply raises_canonical_uri
  | |- raises _ (getitem _ (JObj _)) => eapply raises_getitem; [eassumption|reflexivity]
  | |- raises _ (string_at _ _ _) => unfold string_at
  | |- raises _ (map_result _ _) => apply raises_map_result; intros
  | |- raises _ (map_result_i _ _) => apply raises_map_result_i; intros
  | |- raises _ (let '(_, _) := ?p in _) => destruct p as [[??]?]
  | |- raises _ (match ?x with _ => _ end) => destruct x
  end.

Lemma raises_parse_predecessor v : raises artifact_exn (parse_predecessor v).
Proof. unfold parse_predecessor. by repeat raise_step. Qed.

(** The predecessor's generation was checked to be there. *)
Lemma parse_predecessor_generation v pv pid ri :
  parse_predecessor v = Ok (pv, pid, ri) → raises artifact_exn (getitem "generation" pv).
Proof.
  unfold parse_predecessor. intros (? & (-> & kvs & -> & Hk)%exact_fields_ok & Hp)%result_bind_ok.
  repeat apply result_bind_ok in Hp as (? & _ & Hp). injection Hp as <- _ _.
  by eapply raises_getitem.
Qed.

Lemma raises_parse_plan v : raises artifact_exn (parse_plan v).
Proof.
  unfold parse_plan, parse_plugins, parse_claims, parse_obligations, parse_host, parse_plugin,
    parse_claim, parse_obligation. repeat raise_step; try by apply raises_parse_predecessor.
  all: match goal with Hp : (_ ≫= parse_predecessor) = Ok _ |- _ =>
    apply part_ok in Hp as (? & _ & Hp); by eapply parse_predecessor_generation end.
Qed.

(** C31. The parser of plan artifacts accepts exactly what the printer prints: it returns a plan
    exactly when the plan is admissible (non-empty lists, distinct plugins, claims and
    obligations, printable names, digests, resource URIs and modes of the profile, sorted
    ordinals) and the bytes are the canonical artifact of that plan, identifier included.  So
    an artifact has one spelling, and every admissible plan is read back as it was written. *)
Theorem artifact_roundtrip raw p :
  parse_plan_artifact raw = Ok p ↔ plan_ok p ∧ raw = plan_artifact_bytes p.
Proof.
  rewrite parse_envelope. unfold plan_artifact_bytes. split.
  - intros (v & _ & -> & Hok & ->). split; [done|]. by rewrite canonical_bytes_norm.
  - intros [Hok ->]. exists (norm (plan_artifact_value p)).
    rewrite canonical_bytes_norm, loads_canonical by by apply artifact_unique, inputs_unique. done.
Qed.

(** On texts that the model covers (no surrogate escape, on which the source's comparison with
    the canonical text raises [UnicodeEncodeError], and no nesting beyond CPython's limit, where
    [json.loads] raises [RecursionError]), the parser either returns a plan or raises
    [PlanArtifactError], or the [ContractError] of a claim's resource identifier: no look-up fails
    and no value of an unexpected type is used. *)
Theorem artifact_errors raw : raises artifact_exn (parse_plan_artifact raw).
Proof.
  unfold parse_plan_artifact. apply raises_bind; [by case_match|]. intros v _.
  repeat raise_step. apply raises_parse_plan.
Qed.

Lemma artifact_bytes_eq p q : plan_ok p → plan_ok q →
  canonical_bytes (to_json p) = canonical_bytes (to_json q) →
  plan_artifact_bytes p = plan_artifact_bytes q.
Proof.
  intros Hp Hq E. apply to_json_norm_bytes.
  by apply canonical_bytes_inj in E; [|by apply plan_json_unique, inputs_unique..].
Qed.

(** C32. The identifier of an accepted artifact determines the artifact: two accepted documents
    with the same plan identifier are the same bytes and the same plan, unless the two plans
    collide under SHA-256. *)
Theorem artifact_identity raw1 raw2 p q :
  parse_plan_artifact raw1 = Ok p → parse_plan_artifact raw2 = Ok q → plan_id p = plan_id q →
  (raw1 = raw2 ∧ p = q)
  ∨ canonical_bytes (to_json p) ≠ canonical_bytes (to_json q)
    ∧ sha256_hexdigest (canonical_bytes (to_json p))
      = sha256_hexdigest (canonical_bytes (to_json q)).
Proof.
  intros E1 E2 Hi. unfold plan_id, content_id in Hi. apply str_app_inv_l, str_app_inv_l in Hi.
  destruct (decide (canonical_bytes (to_json p) = canonical_bytes (to_json q))) as [E|]; [|by right].
  left. pose proof E1 as R1. pose proof E2 as R2. rewrite parse_envelope in R1, R2.
  destruct R1 as (v & _ & Hv & Hp & ->), R2 as (w & _ & Hw & Hq & ->).
  rewrite canonical_bytes_norm in Hv, Hw. fold (plan_artifact_bytes p) in Hv.
  fold (plan_artifact_bytes q) in Hw. rewrite (artifact_bytes_eq p q) in Hv by done.
  split; [congruence|]. rewrite Hv, <-Hw in E1. congruence.
Qed.
End Plans.

(** ** Examples *)

Module Demo.
Definition digest : string := "0000000000000000000000000000000000000000000000000000000000000000".
Definition plan (uri : string) : Plan :=
  mkPlan [mkPluginIdentity "vllm-hust" "ascend" "0.1.0" digest]
    (mkHostCompatibility "vllm" "0.11.0" "ascend" "1")
    [mkResourceClaim uri "ascend" "exclusive"]
    [mkEvidenceObligation "ob-1" "worker" "patch-applied" [0%Z; 1%Z]]
    (mkPredecessorSnapshot 3 None [("env", JObj [("A", JStr "1")])]) false.
Definition good : Plan := plan "urn:ecpa:resource:attention".
Definition artifact : string := plan_artifact_bytes good.
End Demo.

Example artifact_accepted : parse_plan_artifact Demo.artifact = Ok Demo.good.
Proof. vm_compute. reflexivity. Qed.

Example artifact_trailing_blank :
  parse_plan_artifact (plan_artifact_bytes Demo.good +:+ " ")
  = Err (PlanArtifactError "execution plan artifact is not canonical").
Proof. vm_compute. reflexivity. Qed.

(** A claim outside the URI profile leaves the parser as a [ContractError], not as the
    [PlanArtifactError] of every other defect. *)
Example artifact_uri_escapes :
  parse_plan_artifact (plan_artifact_bytes (Demo.plan "urn:ecpa:resource:Attention"))
  = Err (ContractError UNKNOWN_RESOURCE "urn:ecpa:resource:Attention").
Proof. vm_compute. reflexivity. Qed.

Lemma artifact_identity_witness :
  (Demo.artifact = Demo.artifact ∧ Demo.good = Demo.good)
  ∨ canonical_bytes (to_json Demo.good) ≠ canonical_bytes (to_json Demo.good)
    ∧ sha256_hexdigest (canonical_bytes (to_json Demo.good))
      = sha256_hexdigest (canonical_bytes (to_json Demo.good)).
Proof.
  apply (artifact_identity Demo.artifact Demo.artifact Demo.good Demo.good);
    [exact artifact_accepted|exact artifact_accepted|reflexivity].
Defined.
