(* ===== verification/SemanticObligations.v ===== *)
(** * SemanticObligations: native completion obligations linked into a plan

    src/vllm_hust_ext/semantic_obligations.py.  A compiled contract plan's obligations for the
    native completion event become evidence obligations of an execution plan, each with an
    identifier that is the digest of everything it binds.  [compile_inputs] is
    [compile_artifacts] without its files: reading and publishing them is not modelled. *)

From S2P Require Import Prelude Effects Json Sha256 ContractParser ContractCompiler.
From S2P Require Import EcpaModel JsonText PlanArtifact.

Local Open Scope string_scope.
Local Open Scope list_scope.

Definition EVENT : string := "selected-kv-native-arguments-completed".
Definition SCOPE : string :=
  "selected-logical-KV-reference-gather-destination-native-entry-completion/v1".
Definition BINDING_SCHEMA : string := "ecpa-compiled-native-semantic-execution-binding/v1".

(** [if not b: raise ValueError(msg)]. *)
Definition ensure (b : bool) (msg : string) : result unit := check b (ValueError msg).

(** [type(ordinal) is int]. *)
Definition is_int (v : json) : bool := match v with JInt _ => true | _ => false end.

(** The only worker ordinals that are supported. *)
Definition tp2 : list Z := [0%Z; 1%Z].

Definition with_obligations (obs : list EvidenceObligation) (p : Plan) : Plan :=
  mkPlan (plugins p) (plan_host p) (claims p) obs (predecessor p) (fallback_proven p).

Section Compiler.
Context `{ContractParser.Packaging} `{Sha256}.

(** [plugins[plugin_id]] of [{plugin.id: plugin for plugin in base.plugins}]. *)
Definition find_plugin (base : Plan) (i : string) : option PluginIdentity :=
  find_last (λ p, (plugin_id p =? i)%string) (plugins base).

(** [contracts[extension_id]], the dictionary of the ordered contracts. *)
Definition find_contract (compiled : ContractCompiler.ContractPlan) (i : string)
    : option ContractParser.ExtensionContract :=
  find_last (λ c, (ContractParser.extension_id c =? i)%string)
    (ContractCompiler.ordered_contracts compiled).

(** What an obligation's identifier is the digest of. *)
Definition material (base : Plan) (compiled : ContractCompiler.ContractPlan)
    (binding : ContractCompiler.ObligationBinding) (contract : ContractParser.ExtensionContract)
    (plugin : string) : list (string * json) :=
  [("base_execution_plan_id", JStr (plan_id base));
   ("compiled_contract_plan_id", JStr (ContractCompiler.plan_id compiled));
   ("compiled_obligation", to_json binding);
   ("contract_manifest_sha256", JStr (ContractParser.manifest_sha256 contract));
   ("plugin_id", JStr plugin);
   ("scope", JStr SCOPE);
   ("required_worker_ordinals", to_json tp2)].

Definition semantic_obligation_id (m : list (string * json)) : string :=
  content_id "semantic-obligation" (JObj m).

(** The requirements on one semantic binding. *)
Definition check_semantic (binding : ContractCompiler.ObligationBinding) : result unit :=
  _ ← ensure ((ContractCompiler.obb_role binding =? "worker")%string
        && (ContractCompiler.obb_authority binding =? "runtime")%string
        && (ContractCompiler.obb_completion binding =? "all")%string
        && bool_decide (ContractCompiler.obb_quorum binding = None))
      "native semantic source requires all current runtime workers";
  ensure ((ContractCompiler.obb_direction binding =? "provides")%string
      && (ContractCompiler.capability_provider binding
          =? ContractCompiler.ob_extension_id binding)%string)
    "native completion requires the extension's own provided capability".

(** One round of the loop: the obligation and its binding. *)
Definition bind_semantic (base : Plan) (compiled : ContractCompiler.ContractPlan)
    (mapping : list (string * string)) (binding : ContractCompiler.ObligationBinding)
    : result (EvidenceObligation * json) :=
  _ ← check_semantic binding;
  let extension := ContractCompiler.ob_extension_id binding in
  match assoc extension mapping with
  | None => Err (KeyError extension)
  | Some plugin =>
      match find_plugin base plugin with
      | None => Err (ValueError "semantic provider artifact is outside execution Plan")
      | Some identity =>
          match find_contract compiled extension with
          | None => Err (KeyError extension)
          | Some contract =>
              _ ← ensure (ContractParser.ext_version contract =? pl_version identity)%string
                    "semantic contract/plugin artifact versions differ";
              let m := material base compiled binding contract plugin in
              let i := semantic_obligation_id m in
              Ok (mkEvidenceObligation i "worker" EVENT tp2,
                  JObj (m ++ [("obligation_id", JStr i)]))
          end
      end
  end.

Definition is_semantic (binding : ContractCompiler.ObligationBinding) : bool :=
  (ContractCompiler.obb_event binding =? EVENT)%string.

Definition semantic_bindings (compiled : ContractCompiler.ContractPlan)
    : list ContractCompiler.ObligationBinding :=
  List.filter is_semantic (ContractCompiler.obligation_bindings compiled).

(** The checks before the loop. *)
Definition check_inputs (base : Plan) (compiled : ContractCompiler.ContractPlan)
    (mapping : list (string * string)) (ordinals : list json) : result unit :=
  _ ← ensure (py_eqb (JArr ordinals) (to_json tp2) && forallb is_int ordinals)
        "native semantic source currently supports explicit TP2 only";
  _ ← parse_plan_artifact (plan_artifact_bytes base);
  _ ← ensure ((runtime (plan_host base) =? ContractCompiler.plan_runtime compiled)%string
        && (host_version (plan_host base) =? ContractCompiler.plan_version compiled)%string)
      "compiled contracts and execution Plan target different hosts";
  checked ← ContractCompiler.compile_contracts (ContractCompiler.ordered_contracts compiled)
    (JStr (ContractCompiler.plan_runtime compiled)) (JStr (ContractCompiler.plan_version compiled))
    None;
  _ ← ensure (bool_decide (checked = compiled))
        "compiled contract bindings do not match their contracts";
  _ ← ensure (negb (existsb (λ o, (event o =? EVENT)%string) (obligations base)))
        "semantic Plan already compiled; no posthoc rebinding";
  let semantic := semantic_bindings compiled in
  _ ← ensure (negb (bool_decide (semantic = [])))
        "compiled contracts have no explicit native semantic obligation";
  _ ← ensure (bool_decide (list_to_set (keys mapping)
          =@{gset string} list_to_set (ContractCompiler.ob_extension_id <$> semantic)))
        "semantic extension/plugin identity mapping is incomplete";
  ensure (negb (has_dups mapping.*2))
    "distinct semantic extensions require distinct plugin artifacts".

Definition compile_native_semantic_plan (base : Plan)
    (compiled : ContractCompiler.ContractPlan) (extension_plugin_ids : list (string * string))
    (required_worker_ordinals : list json) : result (Plan * json) :=
  _ ← check_inputs base compiled extension_plugin_ids required_worker_ordinals;
  bound ← map_result (bind_semantic base compiled extension_plugin_ids)
            (semantic_bindings compiled);
  let obs := obligations base ++ bound.*1 in
  _ ← ensure (negb (has_dups (obligation_id <$> obs))) "ambiguous semantic execution obligations";
  let plan := with_obligations obs base in
  Ok (plan, JObj [("schema", JStr BINDING_SCHEMA);
    ("execution_plan_id", JStr (plan_id plan));
    ("base_execution_plan_id", JStr (plan_id base));
    ("compiled_contract_plan_id", JStr (ContractCompiler.plan_id compiled));
    ("bindings", JArr bound.*2);
    ("scope", JStr SCOPE);
    ("formal_producer_registration", JBool false)]).

(** ** The command's inputs *)

(** [unique_object], the hook for objects. *)
Fixpoint unique_members (seen : list string) (pairs : list (string * json)) : result unit :=
  match pairs with
  | [] => Ok tt
  | (key, _) :: pairs' =>
      _ ← ensure (negb (bool_decide (key ∈ seen)))
            "duplicate JSON field in semantic compilation input";
      unique_members (key :: seen) pairs'
  end.

Definition unique_object (pairs : list (string * json)) : result json :=
  _ ← unique_members [] pairs; Ok (JObj pairs).

Definition read_json (raw : string) : result json := loads_with unique_object no_constant raw.

(** [isinstance(mapping, dict)] with string values. *)
Definition read_mapping (mapping : json) : result (list (string * string)) :=
  match mapping with
  | JObj kvs =>
      map_result (λ kv : string * json,
        match kv.2 with
        | JStr s => Ok (kv.1, s)
        | _ => Err (ValueError "extension/plugin map must contain string identities")
        end) kvs
  | _ => Err (ValueError "extension/plugin map must contain string identities")
  end.

(** [compile_artifacts] from the contents of its input files to the plan and binding it
    publishes. *)
Definition compile_inputs (plan_raw : string) (contract_raws : list string) (map_raw : string)
    : result (Plan * json) :=
  base ← parse_plan_artifact plan_raw;
  contracts ← map_result (λ raw, read_json raw ≫= ContractParser.parse_contract) contract_raws;
  mapping ← read_json map_raw;
  mapping ← read_mapping mapping;
  compiled ← ContractCompiler.compile_contracts contracts (JStr (runtime (plan_host base)))
    (JStr (host_version (plan_host base))) None;
  compile_native_semantic_plan base compiled mapping (JInt <$> tp2).
End Compiler.
