(* ===== verification/SemanticProofs.v ===== *)
(** * SemanticProofs: what a semantic plan adds to its base plan

    A compiled semantic plan keeps the base plan, adds one obligation per native obligation of
    the compiled contracts, is itself an admissible artifact, and cannot be compiled again.
    Conversely parsed contracts whose native obligations watch their own capability always
    compile, up to clashing identifiers. *)

From S2P Require Import Prelude Effects Json Sha256 ContractParser ParserProofs ContractCompiler.
From S2P Require Import ContractOrder CompilerProofs CompilerTheorems.
From S2P Require Import EcpaModel JsonText JsonFacts PlanArtifact ArtifactProofs.
From S2P Require Import SemanticObligations.

Local Open Scope string_scope.
Local Open Scope list_scope.

(** ** Compiling a plan's own contracts again *)

Section Recompile.
Context `{Packaging} `{!PackagingLaws} `{Sha256}.

(** The host arguments of a compilation, as the plan records them. *)
Lemma compile_host cs hr hv tax p :
  compile_contracts cs hr hv tax = Ok p →
  hr = JStr (plan_runtime p)
  ∧ (trimmed (plan_version p) = true → ∀ cs',
       compile_contracts cs' (JStr (plan_runtime p)) (JStr (plan_version p)) tax
       = compile_contracts cs' hr hv tax).
Proof.
  unfold compile_contracts. intros (_ & _ & Hp)%result_bind_ok.
  apply result_bind_ok in Hp as (rt & Hr & Hp).
  apply result_bind_ok in Hp as (public & Hpub & Hp).
  apply result_bind_ok in Hp as (v & Hv & Hp).
  assert (hr = JStr rt ∧ ContractParser._string hr "host_runtime" = Ok rt) as [-> Hrt].
  { split; [|done]. by apply _string_ok in Hr as [-> _]. }
  assert (∃ v0, version_local v0 = None ∧ public = version_str v0) as (v0 & Hl & ->).
  { unfold _public_version in Hpub. apply result_bind_ok in Hpub as (raw & _ & Hpub).
    destruct (parse_version raw) as [v0|]; [|done].
    apply result_bind_ok in Hpub as ([] & Hl & [= <-]). apply check_ok in Hl.
    reflect. by exists v0. }
  unfold the_version in Hv. rewrite parse_version_str in Hv. injection Hv as <-.
  assert (plan_runtime p = rt ∧ plan_version p = version_str v0) as [-> ->].
  { apply check_bind in Hp as [_ Hp]. apply result_bind_ok in Hp as (_ & _ & Hp).
    unfold compile_normalized in Hp. apply result_bind_ok in Hp as (N & _ & Hp).
    apply result_bind_ok in Hp as ([] & _ & Hp).
    apply result_bind_ok in Hp as ([bs deps] & _ & Hp).
    apply result_bind_ok in Hp as (os & _ & Hp). apply result_bind_ok in Hp as (rs & _ & Hp).
    by apply result_bind_ok in Hp as (obs & _ & [= <-]). }
  split; [done|]. intros Ht cs'. rewrite Hrt, Hpub.
  assert (_public_version (JStr (version_str v0)) "host_version" = Ok (version_str v0)) as ->;
    [|done].
  unfold _public_version. cbn. unfold ContractParser.require. rewrite Ht. cbn.
  rewrite parse_version_str. rewrite Hl. by rewrite bool_decide_true.
Qed.

(** A plan compiled without a taxonomy is the plan of its own contracts. *)
Lemma compile_idempotent cs hr hv p :
  Forall parsed cs → compile_contracts cs hr hv None = Ok p → trimmed (plan_version p) = true →
  Forall parsed (ordered_contracts p)
  ∧ compile_contracts (ordered_contracts p) (JStr (plan_runtime p)) (JStr (plan_version p)) None
    = Ok p.
Proof.
  intros Hok Hp Ht. destruct (compile_host _ _ _ _ _ Hp) as [_ Hh]. rewrite (Hh Ht). clear Hh Ht.
  assert (ordered_contracts p ≡ₚ cs) as Hperm.
  { destruct (compile_ok _ _ _ _ _ Hp) as [deps Hc].
    pose proof (compiled_resolved _ _ _ _ Hc) as Hr.
    destruct (order_contracts_ok _ _ _ _ (nodup_normalized _ _ (co_ids _ _ _ _ Hc)) Hr
      (co_order _ _ _ _ Hc)) as [Hperm _]. rewrite Hperm.
    assert (normalized None cs = sort_by extension_id str_leb cs) as -> by apply list_fmap_id.
    apply sort_by_perm. }
  split; [by rewrite Hperm|].
  destruct (compile_order_independent cs (ordered_contracts p) hr hv None Hok
    (symmetry Hperm)) as [E|(d & d' & E & _)]; [congruence|].
  rewrite E in Hp. discriminate Hp.
Qed.
End Recompile.

(** ** Names and versions *)

Lemma string_forall_list f s : string_forall f s = forallb f (list_ascii_of_string s).
Proof. induction s as [|c s IH]; [done|]. cbn. by rewrite IH. Qed.

Lemma lstrip_id l : forallb (λ c, negb (is_space c)) l = true → lstrip l = l.
Proof. destruct l as [|c l]; [done|]. cbn. intros. reflect. by rewrite H. Qed.

Lemma printable_trimmed s : printable s = true → trimmed s = true.
Proof.
  unfold printable, trimmed. rewrite string_forall_list. intros. reflect.
  apply andb_true_iff. split; [by apply negb_true_iff, String.eqb_neq|].
  apply bool_decide_eq_true. unfold strip.
  rewrite (lstrip_id (list_ascii_of_string s)), lstrip_id, rev_involutive; [done| |done].
  apply forallb_forall. intros c Hc%in_rev. by eapply forallb_forall in H0.
Qed.

Lemma find_last_unique {A} (f : A → bool) l x :
  x ∈ l → f x = true → (∀ y, y ∈ l → f y = true → y = x) → find_last f l = Some x.
Proof.
  intros Hx Hf Hu. unfold find_last. destruct (find f (rev l)) as [y|] eqn:E.
  - apply find_some in E as [Hy Hfy]. f_equal. apply Hu; [|done].
    by apply list_elem_of_In, in_rev.
  - pose proof (find_none _ _ E x) as Hn. rewrite <-in_rev, <-list_elem_of_In in Hn.
    rewrite Hn in Hf; done.
Qed.

(** The bindings of a plan are of the contracts' obligations only. *)
Lemma bind_obligations_only cs bs obs b :
  bind_obligations cs bs = Ok obs → b ∈ obs →
  ∃ c o p, c ∈ cs ∧ o ∈ process_obligations c ∧ b = bound_obligation c o p ∧ watches bs c o p.
Proof.
  unfold bind_obligations. intros (l & Hl & [= <-])%result_bind_ok Hb.
  apply elem_of_sort_by, list_elem_of_In, in_concat in Hb as (l0 & Hl0 & Hb).
  apply list_elem_of_In in Hl0, Hb. apply map_result_ok in Hl.
  apply list_elem_of_lookup in Hl0 as [i Hi].
  destruct (Forall2_lookup_r _ _ _ _ _ Hl Hi) as (c & Hc & Hm%map_result_ok).
  apply list_elem_of_lookup in Hb as [k Hk].
  destruct (Forall2_lookup_r _ _ _ _ _ Hm Hk) as (o & Ho & (p & -> & Hw)%bind_obligation_ok).
  exists c, o, p. split_and!; [by eapply list_elem_of_lookup_2..|done|done].
Qed.

(** ** The compiler's steps *)

Section Semantic.
Context `{Packaging} `{Sha256}.

Lemma ensure_ok b msg : ensure b msg = Ok tt ↔ b = true.
Proof. apply check_ok. Qed.

(** The checks before the loop, as conditions. *)
Record accepted_inputs (base : Plan) (p : ContractPlan) (mapping : list (string * string))
    (ordinals : list json) : Prop := {
  ai_ordinals : ordinals = JInt <$> tp2;
  ai_base : ∃ q, parse_plan_artifact (plan_artifact_bytes base) = Ok q;
  ai_host : EcpaModel.runtime (plan_host base) = plan_runtime p
    ∧ host_version (plan_host base) = plan_version p;
  ai_compiled : compile_contracts (ordered_contracts p) (JStr (plan_runtime p))
    (JStr (plan_version p)) None = Ok p;
  ai_fresh : EVENT ∉ event <$> obligations base;
  ai_some : semantic_bindings p ≠ [];
  ai_mapping : ∀ i, i ∈ keys mapping ↔ i ∈ ob_extension_id <$> semantic_bindings p;
  ai_distinct : NoDup mapping.*2;
}.

Lemma tp2_ordinals ordinals :
  py_eqb (JArr ordinals) (to_json tp2) && forallb is_int ordinals = true ↔ ordinals = JInt <$> tp2.
Proof.
  split; [|by intros ->]. intros. reflect.
  destruct ordinals as [|[| |a| | |] [|[| |b| | |] [|c l]]]; cbn in *; try done; reflect; try done.
  by subst.
Qed.

Lemma no_event obs :
  existsb (λ o, (event o =? EVENT)%string) obs = false ↔ EVENT ∉ event <$> obs.
Proof.
  rewrite <-not_true_iff_false, existsb_exists. apply not_iff_compat.
  rewrite list_elem_of_fmap. setoid_rewrite <-list_elem_of_In. split.
  - intros (o & Ho & E). reflect. by exists o.
  - intros (o & E & Ho). exists o. split; [done|]. rewrite E. apply String.eqb_refl.
Qed.

Lemma check_inputs_ok base p mapping ordinals :
  check_inputs base p mapping ordinals = Ok tt ↔ accepted_inputs base p mapping ordinals.
Proof.
  assert (list_to_set (keys mapping)
      =@{gset string} list_to_set (ob_extension_id <$> semantic_bindings p)
    ↔ ∀ i, i ∈ keys mapping ↔ i ∈ ob_extension_id <$> semantic_bindings p) as Hset.
  { rewrite set_eq. by setoid_rewrite elem_of_list_to_set. }
  unfold check_inputs, ensure. split.
  - intros [Ht%tp2_ordinals Hc]%check_bind. apply result_bind_ok in Hc as (q & Hq & Hc).
    apply check_bind in Hc as [Hh Hc]. apply result_bind_ok in Hc as (c & Hcc & Hc).
    apply check_bind in Hc as [Hs Hc]. apply check_bind in Hc as [He Hc].
    apply check_bind in Hc as [Hn Hc]. apply check_bind in Hc as [Hm Hd].
    apply check_ok in Hd. reflect. subst c.
    constructor; [done|by eexists|by split|done|by apply no_event|done|by apply Hset|].
    by apply has_dups_false.
  - intros [Ht [q Hq] [Hr Hv] Hc He Hs Hm Hd].
    rewrite (proj2 (tp2_ordinals ordinals) Ht). cbn [check mbind result_bind]. rewrite Hq.
    cbn [mbind result_bind]. rewrite Hr, Hv, !String.eqb_refl. cbn [andb check mbind result_bind].
    rewrite Hc. cbn [mbind result_bind]. rewrite (bool_decide_true (p = p)) by done.
    cbn [check mbind result_bind]. rewrite (proj2 (no_event _) He).
    cbn [check mbind result_bind negb]. rewrite (bool_decide_false (_ = [])) by done.
    cbn [check mbind result_bind negb]. rewrite (bool_decide_true (_ = _)) by by apply Hset.
    cbn [check mbind result_bind negb]. by rewrite (proj2 (has_dups_false _) Hd).
Qed.

(** What the loop makes of one binding. *)
Record linked (base : Plan) (p : ContractPlan) (mapping : list (string * string))
    (b : ObligationBinding) (o : EvidenceObligation) (m : json) : Prop := {
  ln_worker : obb_role b = "worker" ∧ obb_authority b = "runtime" ∧ obb_completion b = "all"
    ∧ obb_quorum b = None;
  ln_own : obb_direction b = "provides" ∧ capability_provider b = ob_extension_id b;
  ln_link : ∃ i identity contract,
    assoc (ob_extension_id b) mapping = Some i
    ∧ identity ∈ plugins base ∧ plugin_id identity = i
    ∧ contract ∈ ordered_contracts p ∧ extension_id contract = ob_extension_id b
    ∧ ext_version contract = pl_version identity
    ∧ o = mkEvidenceObligation (semantic_obligation_id (material base p b contract i)) "worker"
            EVENT tp2
    ∧ m = JObj (material base p b contract i
            ++ [("obligation_id", JStr (obligation_id o))]);
}.

Lemma check_semantic_ok b : check_semantic b = Ok tt ↔
  (obb_role b = "worker" ∧ obb_authority b = "runtime" ∧ obb_completion b = "all"
   ∧ obb_quorum b = None)
  ∧ obb_direction b = "provides" ∧ capability_provider b = ob_extension_id b.
Proof.
  unfold check_semantic, ensure. rewrite check_bind, check_ok.
  rewrite !andb_true_iff, bool_decide_eq_true, !String.eqb_eq. tauto.
Qed.

Lemma bind_semantic_ok base p mapping b o m :
  bind_semantic base p mapping b = Ok (o, m) → linked base p mapping b o m.
Proof.
  unfold bind_semantic. intros ([] & [Hw Ho]%check_semantic_ok & Hb)%result_bind_ok.
  destruct (assoc _ mapping) as [i|] eqn:Ei; [|done].
  destruct (find_plugin base i) as [identity|] eqn:Ep; [|done].
  destruct (SemanticObligations.find_contract p _) as [contract|] eqn:Ec; [|done].
  apply check_bind in Hb as [Hv [= <- <-]]. reflect.
  apply find_last_Some in Ep as [Hp Ep], Ec as [Hc Ec]. reflect.
  constructor; [done|done|]. by exists i, identity, contract.
Qed.

(** The steps of a successful compilation. *)
Lemma semantic_ok base p mapping ordinals plan binding :
  compile_native_semantic_plan base p mapping ordinals = Ok (plan, binding) →
  accepted_inputs base p mapping ordinals
  ∧ ∃ bound,
      Forall2 (λ b om, linked base p mapping b om.1 om.2) (semantic_bindings p) bound
      ∧ plan = with_obligations (obligations base ++ bound.*1) base
      ∧ NoDup (obligation_id <$> obligations plan)
      ∧ binding = JObj [("schema", JStr BINDING_SCHEMA);
          ("execution_plan_id", JStr (plan_id plan));
          ("base_execution_plan_id", JStr (plan_id base));
          ("compiled_contract_plan_id", JStr (ContractCompiler.plan_id p));
          ("bindings", JArr bound.*2); ("scope", JStr SCOPE);
          ("formal_producer_registration", JBool false)].
Proof.
  unfold compile_native_semantic_plan. intros ([] & Ha%check_inputs_ok & Hp)%result_bind_ok.
  split; [done|]. apply result_bind_ok in Hp as (bound & Hb & Hp).
  apply check_bind in Hp as [Hd [= <- <-]]. reflect. apply has_dups_false in Hd.
  exists bound. split_and!; [|done..]. apply map_result_ok in Hb.
  eapply Forall2_impl; [exact Hb|]. intros b [o m]. apply bind_semantic_ok.
Qed.

(** ** Admissibility of the new plan *)

Context `{!Sha256Laws}.

Lemma content_id_printable prefix v :
  printable prefix = true → printable (content_id prefix v) = true.
Proof.
  unfold printable, content_id. intros Hp. reflect.
  rewrite !string_forall_app, H3.
  assert (string_forall (λ c, negb (is_space c)) (sha256_hexdigest (canonical_bytes v)) = true)
    as ->; [|by destruct prefix].
  pose proof (sha256_is_hex (canonical_bytes v)) as Hx. revert Hx.
  apply string_forall_impl. by_chars.
Qed.

Lemma linked_obligation base p mapping b o m : linked base p mapping b o m → obligation_ok o.
Proof.
  intros [_ _ (i & identity & contract & _ & _ & _ & _ & _ & _ & -> & _)].
  unfold obligation_ok. cbn [obligation_id EcpaModel.ob_role event required_ordinals].
  split_and!; [|done..| |].
  - by apply content_id_printable.
  - repeat constructor; done.
  - repeat constructor; lia.
Qed.

Lemma linked_obligations base p mapping bs bound :
  Forall2 (λ b om, linked base p mapping b om.1 om.2) bs bound → Forall obligation_ok bound.*1.
Proof. induction 1; constructor; [by eapply linked_obligation|done]. Qed.

Lemma with_obligations_ok base obs :
  plan_ok (normal base) → obs ≠ [] → Forall obligation_ok obs → NoDup (obligation_id <$> obs) →
  plan_ok (normal (with_obligations obs base)).
Proof. intros [] ? ? ?. by constructor. Qed.

Lemma semantic_plan_ok base p mapping ordinals plan binding :
  keys_unique (JObj (rendered_inputs (predecessor base))) = true →
  compile_native_semantic_plan base p mapping ordinals = Ok (plan, binding) →
  plan_ok (normal plan).
Proof.
  intros Hu ([_ [q Hq] _ _ _ _ _ _] & bound & Hb & -> & Hd & _)%semantic_ok.
  apply parse_printed in Hq as [Hok _]; [|done].
  destruct (po_obligations _ Hok) as (Hne & Hall & _).
  apply with_obligations_ok; [done| | |done].
  - cbn in Hne. by destruct (obligations base).
  - apply Forall_app. split; [exact Hall|]. by eapply linked_obligations.
Qed.

(** C30. A semantic plan is its base plan and one obligation more for every native obligation of
    the compiled contracts, in their order: each is for both workers, completes in the
    extension's own capability, and its identifier is the digest of the base plan, the
    compiled contract plan, the obligation, the contract's manifest and the plugin of the plan
    that the mapping names, whose version is the contract's.  The new plan is an admissible
    artifact: its printed form is read back, and the binding document names it and carries the
    preimages of all new identifiers. *)
Theorem semantic_plan_sound base p mapping ordinals plan binding :
  keys_unique (JObj (rendered_inputs (predecessor base))) = true →
  compile_native_semantic_plan base p mapping ordinals = Ok (plan, binding) →
  parse_plan_artifact (plan_artifact_bytes plan) = Ok (normal plan)
  ∧ plan = with_obligations (obligations plan) base
  ∧ ∃ bound kvs,
      obligations plan = obligations base ++ bound.*1
      ∧ Forall2 (λ b om, linked base p mapping b om.1 om.2) (semantic_bindings p) bound
      ∧ binding = JObj kvs ∧ assoc "execution_plan_id" kvs = Some (JStr (plan_id plan))
      ∧ assoc "bindings" kvs = Some (JArr bound.*2).
Proof.
  intros Hu Hp. pose proof (semantic_plan_ok _ _ _ _ _ _ Hu Hp) as Hok.
  apply semantic_ok in Hp as (_ & bound & Hb & -> & _ & ->).
  split; [by apply parse_printed|]. split; [done|]. exists bound. eexists. by split_and!.
Qed.

(** No rebinding after the fact: a compiled semantic plan is never compiled again, with
    whatever contracts and mapping; with the same contracts the refusal is the dedicated
    error. *)
Theorem semantic_not_rebound base p mapping ordinals plan binding :
  keys_unique (JObj (rendered_inputs (predecessor base))) = true →
  compile_native_semantic_plan base p mapping ordinals = Ok (plan, binding) →
  (∀ p' mapping' ordinals' r, compile_native_semantic_plan plan p' mapping' ordinals' ≠ Ok r)
  ∧ ∀ mapping', compile_native_semantic_plan plan p mapping' ordinals
      = Err (ValueError "semantic Plan already compiled; no posthoc rebinding").
Proof.
  intros Hu Hp. pose proof (semantic_plan_ok _ _ _ _ _ _ Hu Hp) as Hok.
  apply semantic_ok in Hp as (Ha & bound & Hb & -> & _ & _).
  set (plan := with_obligations _ base) in *.
  assert (EVENT ∈ event <$> obligations plan) as He.
  { destruct (semantic_bindings p) as [|b l] eqn:Es; [by destruct (ai_some _ _ _ _ Ha)|].
    inversion Hb as [|? om ? bound' Hl]; subst. cbn. rewrite fmap_app. apply elem_of_app. right.
    destruct Hl as [_ _ (i & id & c & _ & _ & _ & _ & _ & _ & -> & _)]. cbn. by left. }
  split.
  - intros p' mapping' ordinals' [plan' b'] ([_ _ _ _ Hf _ _ _] & _)%semantic_ok. done.
  - intros mapping'. destruct Ha as [-> _ [Hr Hv] Hc _ _ _ _].
    unfold compile_native_semantic_plan, check_inputs, ensure.
    rewrite (proj2 (parse_printed plan (normal plan) Hu) (conj Hok eq_refl)).
    change (EcpaModel.runtime (plan_host plan)) with (EcpaModel.runtime (plan_host base)).
    change (host_version (plan_host plan)) with (host_version (plan_host base)).
    rewrite Hr, Hv, !String.eqb_refl, Hc. cbn -[existsb obligations].
    rewrite (bool_decide_true (p = p)) by done. cbn -[existsb obligations].
    destruct (existsb _ (obligations plan)) eqn:E; [done|]. by apply no_event in E.
Qed.

(** ** Parsed contracts compile *)

Context `{!PackagingLaws}.

(** The native obligations of parsed contracts demand what the semantic source offers: the
    parser lets the native event be watched only for all workers under runtime authority. *)
Lemma native_checked cs hr hv p b :
  Forall parsed cs → compile_contracts cs hr hv None = Ok p → b ∈ semantic_bindings p →
  obb_direction b = "provides" →
  check_semantic b = Ok tt ∧ ∃ c, c ∈ cs ∧ c ∈ ordered_contracts p ∧ extension_id c = ob_extension_id b.
Proof.
  intros Hok [deps Hc]%compile_ok Hb Hd. unfold semantic_bindings in Hb.
  apply list_elem_of_In, filter_In in Hb as [Hb He]. apply list_elem_of_In in Hb.
  assert (normalized None cs = sort_by extension_id str_leb cs) as En by apply list_fmap_id.
  destruct (bind_obligations_only _ _ _ _ (co_obligations _ _ _ _ Hc) Hb)
    as (c & o & q & Hcc & Ho & -> & Hw).
  pose proof (compiled_resolved _ _ _ _ Hc) as Hr.
  destruct (order_contracts_ok _ _ _ _ (nodup_normalized _ _ (co_ids _ _ _ _ Hc)) Hr
    (co_order _ _ _ _ Hc)) as [Hperm _].
  assert (c ∈ cs) as Hin by (rewrite En in Hcc; by apply elem_of_sort_by in Hcc).
  split; [|exists c; split_and!; [done|by rewrite Hperm|done]].
  rewrite Forall_forall in Hok. pose proof (parsed_ok c (Hok c Hin)) as Hcok.
  destruct (ok_obligations _ Hcok) as (_ & _ & Hall). rewrite Forall_forall in Hall.
  specialize (Hall o Ho). unfold is_semantic in He. cbn in He, Hd. reflect.
  destruct (oo_native _ _ _ Hall He) as [Hrole Hcomp].
  pose proof (oo_quorum _ _ _ Hall) as Hq. rewrite Hcomp in Hq. cbn in Hq.
  assert (ob_authority o = "runtime") as Hau.
  { apply (oo_runtime _ _ _ Hall). rewrite He. right. right. left. }
  unfold watches in Hw. rewrite Hd in Hw. cbn in Hw. apply check_semantic_ok. cbn. done.
Qed.

(** The mapping names, for each semantic extension, a plugin of the plan with the version of its
    contract. *)
Definition maps (base : Plan) (cs : list ExtensionContract) (mapping : list (string * string))
    (i : string) : Prop :=
  ∃ plugin identity, assoc i mapping = Some plugin ∧ identity ∈ plugins base
    ∧ plugin_id identity = plugin
    ∧ ∀ c, c ∈ cs → extension_id c = i → ext_version c = pl_version identity.

Lemma bind_semantic_total base cs hr hv p mapping b :
  plan_ok base → Forall parsed cs → compile_contracts cs hr hv None = Ok p →
  b ∈ semantic_bindings p → obb_direction b = "provides" →
  maps base cs mapping (ob_extension_id b) →
  ∃ om, bind_semantic base p mapping b = Ok om.
Proof.
  intros Hok Hcs Hp Hb Hd (plugin & identity & Em & Hin & Hi & Hv).
  destruct (native_checked _ _ _ _ _ Hcs Hp Hb Hd) as (Hchk & c & Hc & Hco & Hid).
  unfold bind_semantic. rewrite Hchk, Em. cbn [mbind result_bind].
  assert (find_plugin base plugin = Some identity) as ->.
  { apply find_last_unique; [done|by apply String.eqb_eq|]. intros y Hy E. reflect.
    apply (key_inj_of_nodup plugin_id (plugins base)); [apply Hok|done|done|congruence]. }
  destruct (SemanticObligations.find_contract p (ob_extension_id b)) as [c'|] eqn:Ec.
  - apply find_last_Some in Ec as [Hc' Ec]. reflect.
    assert (c' ∈ cs) as Hc'cs.
    { apply compile_ok in Hp as [deps Hdeps].
      destruct (order_contracts_ok _ _ _ _ (nodup_normalized _ _ (co_ids _ _ _ _ Hdeps))
        (compiled_resolved _ _ _ _ Hdeps) (co_order _ _ _ _ Hdeps)) as [Hperm _].
      rewrite Hperm in Hc'.
      assert (normalized None cs = sort_by extension_id str_leb cs) as En by apply list_fmap_id.
      rewrite En in Hc'. by apply elem_of_sort_by in Hc'. }
    rewrite (Hv c' Hc'cs Ec), String.eqb_refl. cbn. by eexists.
  - exfalso. unfold SemanticObligations.find_contract, find_last in Ec.
    pose proof (find_none _ _ Ec c) as Hn. rewrite <-in_rev, <-list_elem_of_In in Hn.
    specialize (Hn Hco). cbn in Hn. by rewrite Hid, String.eqb_refl in Hn.
Qed.

(** Contracts the parser accepted always compile into a semantic plan: for an accepted plan
    artifact without native obligations, contracts compiled for its host (in the spelling the
    artifact uses) whose native obligations watch a capability of their own, and a mapping that
    names exactly the semantic extensions, each with a plugin of the plan in the contract's
    version and no plugin twice, the compiler returns a plan; the only other outcome is that
    two obligation identifiers are the same. *)
Theorem semantic_compiles raw base cs p mapping :
  parse_plan_artifact raw = Ok base →
  Forall parsed cs →
  compile_contracts cs (JStr (EcpaModel.runtime (plan_host base)))
    (JStr (host_version (plan_host base))) None = Ok p →
  plan_version p = host_version (plan_host base) →
  EVENT ∉ event <$> obligations base →
  semantic_bindings p ≠ [] →
  (∀ b, b ∈ semantic_bindings p →
     obb_direction b = "provides" ∧ maps base cs mapping (ob_extension_id b)) →
  (∀ i, i ∈ keys mapping → i ∈ ob_extension_id <$> semantic_bindings p) →
  NoDup mapping.*2 →
  (∃ r, compile_native_semantic_plan base p mapping (JInt <$> tp2) = Ok r)
  ∨ compile_native_semantic_plan base p mapping (JInt <$> tp2)
    = Err (ValueError "ambiguous semantic execution obligations").
Proof.
  intros (v & _ & Hraw & Hok & ->)%parse_envelope Hcs Hp Hver Hf Hs Hmaps Hkeys Hnd.
  rewrite canonical_bytes_norm in Hraw. fold (plan_artifact_bytes base) in Hraw.
  assert (plan_version p = host_version (plan_host base)) as Hv by done.
  assert (printable (host_version (plan_host base)) = true) as Hpr by apply Hok.
  destruct (compile_idempotent cs _ _ p Hcs Hp) as [_ Hidem].
  { rewrite Hv. by apply printable_trimmed. }
  destruct (compile_host _ _ _ _ _ Hp) as [[= Hrt] _].
  assert (accepted_inputs base p mapping (JInt <$> tp2)) as Ha.
  { constructor; [done| |by split|done|done|done| |done].
    - exists base. apply parse_envelope. exists (norm (plan_artifact_value base)).
      unfold plan_artifact_bytes. rewrite canonical_bytes_norm, loads_canonical; [done|].
      by apply artifact_unique, inputs_unique.
    - intros i. split; [apply Hkeys|]. intros (b & -> & Hb)%list_elem_of_fmap.
      destruct (Hmaps b Hb) as [_ (plugin & identity & Em & _)].
      apply assoc_is_Some. by eexists. }
  unfold compile_native_semantic_plan. rewrite (proj2 (check_inputs_ok _ _ _ _) Ha).
  cbn [mbind result_bind].
  assert (∃ bound, map_result (bind_semantic base p mapping) (semantic_bindings p) = Ok bound)
    as [bound ->].
  { assert (∀ b, b ∈ semantic_bindings p → ∃ om, bind_semantic base p mapping b = Ok om) as Hall.
    { intros b Hb. destruct (Hmaps b Hb) as [Hd Hm]. by eapply bind_semantic_total. }
    clear -Hall. induction (semantic_bindings p) as [|b l IH]; [by eexists|]. cbn.
    destruct (Hall b) as [om ->]; [by left|]. destruct IH as [ys ->]; [|by eexists].
    intros b' Hb'. apply Hall. by right. }
  cbn [mbind result_bind]. unfold ensure. destruct (negb _); cbn; [left; by eexists|by right].
Qed.
End Semantic.

(** ** A run *)

Module SemanticDemo.
Import CompilerDemo.

Definition native_grant : json := grant "worker" EVENT "provides" "acme.kv-cache".

(** A cache whose native completion is watched in all workers. *)
Definition native_json : json :=
  JObj [("schema", JStr "ecpa-manifest/0.1-draft"); ("id", JStr "acme.kv");
        ("version", JStr "1.0");
        ("host", JObj [("runtime", JStr "vllm"); ("version", JStr ">=0")]);
        ("capabilities", JObj [("provides", JArr [cap "acme.kv-cache" "1.0"]);
                               ("requires", JArr [])]);
        ("resources", JArr []);
        ("process_obligations", JArr [obligation "worker" EVENT "provides" "acme.kv-cache"]);
        ("rollback", JObj [("manager_owned", strs ["env"]);
                           ("external_operator_owned", strs [])]);
        ("authority", JObj [("provider", JArr []); ("runtime", JArr [native_grant]);
                            ("external", JArr [])])].

Definition native : list ExtensionContract := the (parse_contract native_json).

Definition plugin : PluginIdentity := mkPluginIdentity "acme" "kv" "1.0" Demo.digest.
Definition base : Plan :=
  EcpaModel.mkPlan [plugin] (mkHostCompatibility "vllm" "0.11" "ascend" "1")
    [mkResourceClaim "urn:ecpa:resource:kv" "acme" "exclusive"]
    [mkEvidenceObligation "ob-1" "worker" "loaded" [0%Z; 1%Z]]
    (mkPredecessorSnapshot 0 None []) false.

Definition mapping : list (string * string) := [("acme.kv", plugin_id plugin)].

Definition empty_plan : ContractPlan := ContractCompiler.mkPlan "" "" [] [] [] [].
Definition native_plan : ContractPlan := Eval vm_compute in
  match compile_contracts native (JStr "vllm") (JStr "0.11") None with
  | Ok p => p
  | Err _ => empty_plan
  end.

Lemma base_accepted : parse_plan_artifact (plan_artifact_bytes base) = Ok base.
Proof. vm_compute. reflexivity. Qed.

Lemma native_compiled :
  compile_contracts native (JStr "vllm") (JStr "0.11") None = Ok native_plan.
Proof. vm_compute. reflexivity. Qed.

Definition linked_plan : Plan :=
  match compile_native_semantic_plan base native_plan mapping (JInt <$> tp2) with
  | Ok (p, _) => p
  | Err _ => base
  end.
Definition linked_binding : json :=
  match compile_native_semantic_plan base native_plan mapping (JInt <$> tp2) with
  | Ok (_, b) => b
  | Err _ => JNull
  end.

Lemma linked_compiled :
  compile_native_semantic_plan base native_plan mapping (JInt <$> tp2)
  = Ok (linked_plan, linked_binding).
Proof.
  assert (match compile_native_semantic_plan base native_plan mapping (JInt <$> tp2) with
          | Ok _ => True | Err _ => False end) as H by (vm_compute; exact I).
  unfold linked_plan, linked_binding.
  destruct (compile_native_semantic_plan _ _ _ _) as [[q b]|e]; [done|destruct H].
Qed.
End SemanticDemo.

Import ExactVersions.

Lemma semantic_plan_sound_witness :
  parse_plan_artifact (plan_artifact_bytes SemanticDemo.linked_plan)
  = Ok (normal SemanticDemo.linked_plan).
Proof.
  refine (proj1 (semantic_plan_sound SemanticDemo.base SemanticDemo.native_plan
    SemanticDemo.mapping (JInt <$> tp2) SemanticDemo.linked_plan SemanticDemo.linked_binding
    _ SemanticDemo.linked_compiled)).
  reflexivity.
Defined.

Lemma semantic_not_rebound_witness :
  compile_native_semantic_plan SemanticDemo.linked_plan SemanticDemo.native_plan [] (JInt <$> tp2)
  = Err (ValueError "semantic Plan already compiled; no posthoc rebinding").
Proof.
  refine (proj2 (semantic_not_rebound SemanticDemo.base SemanticDemo.native_plan
    SemanticDemo.mapping (JInt <$> tp2) SemanticDemo.linked_plan SemanticDemo.linked_binding
    _ SemanticDemo.linked_compiled) []).
  reflexivity.
Defined.

Lemma semantic_compiles_witness :
  (∃ r, compile_native_semantic_plan SemanticDemo.base SemanticDemo.native_plan
          SemanticDemo.mapping (JInt <$> tp2) = Ok r)
  ∨ compile_native_semantic_plan SemanticDemo.base SemanticDemo.native_plan
      SemanticDemo.mapping (JInt <$> tp2)
    = Err (ValueError "ambiguous semantic execution obligations").
Proof.
  apply (semantic_compiles (plan_artifact_bytes SemanticDemo.base) SemanticDemo.base
    SemanticDemo.native SemanticDemo.native_plan SemanticDemo.mapping).
  - exact SemanticDemo.base_accepted.
  - apply CompilerDemo.the_parsed.
  - exact SemanticDemo.native_compiled.
  - reflexivity.
  - intros H. apply list_elem_of_singleton in H. discriminate H.
  - discriminate.
  - intros b Hb. apply list_elem_of_singleton in Hb. subst b. split; [reflexivity|].
    exists (plugin_id SemanticDemo.plugin), SemanticDemo.plugin.
    split; [reflexivity|]. split; [left|]. split; [reflexivity|].
    intros c Hc _. apply list_elem_of_singleton in Hc. subst c. reflexivity.
  - intros i Hi. exact Hi.
  - apply NoDup_singleton.
Defined.
