(* ===== verification/Manifest.v ===== *)
(** * Manifest: extension bundle manifests

    src/vllm_hust_ext/manifest.py: the manifest's data classes, the parsers of the two schemas
    and [activation_blocker].  [load_manifest], which reads the file, is not modelled.  Versions
    and specifier sets come from the parameter [Packaging] of ContractParser.v. *)

From S2P Require Import Prelude Effects Json Sha256 JsonText.
From S2P Require ContractParser.

Local Open Scope string_scope.
Local Open Scope list_scope.

(** ** Constants *)

Definition _TOP_LEVEL_FIELDS : list string :=
  ["schema_version"; "bundle_id"; "bundle_version"; "host_api_range"; "components"; "activation"].
Definition _COMPONENT_FIELDS : list string :=
  ["component_id"; "contracts"; "execution_planes"; "isolation"; "implementation_ref";
   "permissions"].
Definition _ISOLATIONS : list string :=
  ["trusted_in_process"; "process_isolated"; "sandboxed_process"].
Definition _PLANES : list string := ["api"; "scheduler"; "worker"; "native"; "device"; "bridge"].
Definition _PERMISSIONS : list string :=
  ["device_access"; "filesystem_read"; "filesystem_write"; "ipc"; "network_egress";
   "shared_memory"; "subprocess"].
Definition _KINDS : list string :=
  ["in_process_plugin"; "scheduler_policy"; "kv_connector"; "kv_service_adapter";
   "control_plane_extension"; "runtime_bridge"].
Definition _RUNTIMES : list string :=
  ["python"; "external_service"; "oci"; "kubernetes"; "composite"].
Definition _LIFECYCLE_OWNERS : list string :=
  ["vllm"; "host"; "external_operator"; "kubernetes"; "user"].
Definition _CARRIERS : list string :=
  ["host_builtin"; "python_entry_point"; "python_module"; "external_service"; "oci_image";
   "helm_values"; "kubernetes_manifest"; "crd"; "controller"].
Definition _RESOURCE_CLAIM_FIELDS : list string := ["resource"; "scope"; "mode"].
Definition _RESOURCE_CLAIM_MODES : list string := ["exclusive"; "shared"].
Definition carrier_statuses : list string := ["active"; "import_only"; "legacy_unregistered"].
Definition experimental_schemas : list string := ["0.2-experimental"; "0.3-experimental"; "0.3"].

(** ** Regular expressions *)

Definition is_lower_alnum (c : ascii) : bool :=
  let n := N_of_ascii c in (97 <=? n)%N && (n <=? 122)%N || (48 <=? n)%N && (n <=? 57)%N.

(** A first character and the others. *)
Definition matches (first rest : ascii → bool) (s : string) : bool :=
  match s with String c s' => first c && string_forall rest s' | EmptyString => false end.

(** [^[a-z0-9][a-z0-9.-]*$]. *)
Definition _IDENTIFIER (s : string) : bool :=
  matches is_lower_alnum (λ c, is_lower_alnum c || Ascii.eqb c "." || Ascii.eqb c "-") s.

(** [^[a-z0-9][a-z0-9._:/-]*$]. *)
Definition _RESOURCE (s : string) : bool :=
  matches is_lower_alnum (λ c, is_lower_alnum c
    || existsb (Ascii.eqb c) ["."; "_"; ":"; "/"; "-"]%char) s.

(** [[A-Za-z_]]. *)
Definition name_start (c : ascii) : bool :=
  let n := N_of_ascii c in
  (65 <=? n)%N && (n <=? 90)%N || (97 <=? n)%N && (n <=? 122)%N || (n =? 95)%N.

(** [\w] on code points below U+0100: letters, digits and numerals of the Latin-1 block too. *)
Definition is_word (c : ascii) : bool :=
  let n := N_of_ascii c in
  name_start c || (48 <=? n)%N && (n <=? 57)%N
  || existsb (N.eqb n) [170; 178; 179; 181; 185; 186; 188; 189; 190]%N
  || (192 <=? n)%N && negb (n =? 215)%N && negb (n =? 247)%N.

(** [[A-Za-z_]\w*]. *)
Definition is_name (s : string) : bool := matches name_start is_word s.

(** [s.split(sep)]. *)
Fixpoint split_on (sep : ascii) (s : string) : list string :=
  match s with
  | EmptyString => [EmptyString]
  | String c s' =>
      if Ascii.eqb c sep then EmptyString :: split_on sep s'
      else match split_on sep s' with
           | x :: l => String c x :: l
           | [] => [String c EmptyString]
           end
  end.

(** Names separated by dots. *)
Definition is_dotted (s : string) : bool := forallb is_name (split_on "." s).

(** [^<dotted>:<dotted>$]; neither side holds a colon. *)
Definition _IMPLEMENTATION (s : string) : bool :=
  match split_on ":" s with [m; o] => is_dotted m && is_dotted o | _ => false end.

(** ** Data *)

Record ActivationEntryPoint := mkEntryPoint { ep_group : string; ep_name : string }.

Record BundleActivation := mkActivation {
  entry_points : list ActivationEntryPoint; environment : list (string * string);
  additional_config : list (string * json) }.

Record BundleComponent := mkComponent {
  component_id : string; contracts : list string; execution_planes : list string;
  cmp_isolation : string; implementation_ref : string; permissions : list string }.

Record HostSpec := mkHost {
  h_provider : string; h_name : string; h_version_range : string; api_range : option string }.

Record RuntimeSpec := mkRuntime { rt_type : string; process_scope : string; rt_isolation : string }.

Record ProtocolSpec := mkProtocol { pr_name : string; pr_version_range : option string }.

Record ImplementationCarrier := mkCarrier {
  carrier_type : string; attributes : list (string * json) }.

Record RequiredService := mkService {
  service_id : string; sv_protocol : string; sv_version_range : option string;
  endpoint_config : string; optional : bool }.

Record RequiredExtension := mkRequired { rq_extension_id : string; rq_version_range : string }.

Record ResourceClaim := mkClaim { rc_resource : string; rc_scope : string; rc_mode : string }.

Record BundleManifest := mkManifest {
  bundle_id : string; bundle_version : string; host_api_range : string;
  components : list BundleComponent; activation : BundleActivation; schema_version : string;
  m_kind : string; m_host : HostSpec; m_runtime : RuntimeSpec; lifecycle_owner : string;
  protocols : list ProtocolSpec; implementation : list ImplementationCarrier;
  requires_services : list RequiredService; requires_extensions : list RequiredExtension;
  resource_claims : list ResourceClaim }.

#[export] Instance ResourceClaim_eq_dec : EqDecision ResourceClaim.
Proof. solve_decision. Defined.

(** ** Field readers *)

Definition bad {A} (msg : string) : result A := Err (ManifestError msg).

(** [if not b: raise ManifestError(msg)]. *)
Definition demand (b : bool) (msg : string) : result unit := check b (ManifestError msg).

Definition _object (value : json) (location : string) : result (list (string * json)) :=
  match value with
  | JObj kvs => Ok kvs
  | _ => bad (location +:+ " must be an object with string keys")
  end.

(** [value.strip()] is not empty. *)
Definition non_blank (s : string) : bool := negb (string_forall is_space s).

Definition _string (value : json) (location : string) : result string :=
  match value with
  | JStr s => if non_blank s then Ok s else bad (location +:+ " must be a non-empty string")
  | _ => bad (location +:+ " must be a non-empty string")
  end.

Definition _strings (value : json) (location : string) : result (list string) :=
  items ← match value with
    | JArr l => Ok l
    | _ => bad (location +:+ " must be an array of strings")
    end;
  strings ← map_result (λ v, match v with
    | JStr s => Ok s
    | _ => bad (location +:+ " must be an array of strings")
    end) items;
  _ ← demand (negb (has_dups strings)) (location +:+ " must not contain duplicates");
  Ok strings.

(** [sorted(set(xs))] of strings. *)
Definition sorted_names (xs : list string) : list string := sort_by id str_leb (remove_dups xs).

Definition minus (xs ys : list string) : list string :=
  List.filter (λ x, negb (bool_decide (x ∈ ys))) xs.

Definition _known (values allowed : list string) (location : string) : result unit :=
  demand (bool_decide (minus values allowed = []))
    (location +:+ " contains unsupported values: "
     +:+ list_repr (sorted_names (minus values allowed))).

(** The test of an object's keys: none but [fields], all of [required]. *)
Definition exact (fields required : list string) (kvs : list (string * json))
    (msg : string → string → string) : result unit :=
  let unknown := minus (keys kvs) fields in
  let missing := minus required (keys kvs) in
  demand (bool_decide (unknown = []) && bool_decide (missing = []))
    (msg (list_repr (sorted_names unknown)) (list_repr (sorted_names missing))).

Definition unknown_missing (location unknown missing : string) : string :=
  location +:+ " has unknown=" +:+ unknown +:+ " missing=" +:+ missing.

Definition at_index (location : string) (index : nat) : string :=
  location +:+ "[" +:+ z_str (Z.of_nat index) +:+ "]".

(** [_string(item[key], location.key)]. *)
Definition string_of (kvs : list (string * json)) (key location : string) : result string :=
  x ← getitem key (JObj kvs); _string x location.

(** [iter(value)]: what a [for] loop over a JSON value sees. *)
Definition iterate (value : json) : result (list json) :=
  match value with
  | JArr l => Ok l
  | JObj kvs => Ok (JStr <$> keys kvs)
  | JStr s => Ok ((λ c, JStr (String c EmptyString)) <$> list_ascii_of_string s)
  | _ => Err (TypeError "object is not iterable")
  end.

(** [bool(value)]. *)
Definition truthy (value : json) : bool :=
  match value with
  | JNull => false
  | JBool b => b
  | JInt z => negb (z =? 0)%Z
  | JStr s => negb (s =? EmptyString)
  | JArr l => negb (bool_decide (l = []))
  | JObj kvs => negb (bool_decide (kvs = []))
  end.

(** ** Activation *)

Definition activation_fields : list string := ["entry_points"; "environment"; "additional_config"].

Definition parse_entry_point (index : nat) (raw : json) : result ActivationEntryPoint :=
  let location := at_index "activation.entry_points" index in
  item ← _object raw location;
  _ ← demand (same_keys ["group"; "name"] item) (location +:+ " requires group and name");
  g ← string_of item "group" (location +:+ ".group");
  n ← string_of item "name" (location +:+ ".name");
  Ok (mkEntryPoint g n).

(** [activation.get(key, default)]. *)
Definition get_default (key : string) (kvs : list (string * json)) (d : json) : json :=
  default d (assoc key kvs).

Definition _parse_activation (value : json) : result BundleActivation :=
  match value with
  | JNull => Ok (mkActivation [] [] [])
  | _ =>
      activation ← _object value "activation";
      _ ← demand (bool_decide (minus (keys activation) activation_fields = []))
            ("activation contains unknown fields: "
             +:+ list_repr (sorted_names (minus (keys activation) activation_fields)));
      raws ← iterate (get_default "entry_points" activation (JArr []));
      entries ← map_result_i parse_entry_point raws;
      environment ← _object (get_default "environment" activation (JObj []))
                      "activation.environment";
      environment ← map_result (λ kv : string * json, match kv.2 with
        | JStr s => Ok (kv.1, s)
        | _ => bad "activation.environment values must be strings"
        end) environment;
      additional ← _object (get_default "additional_config" activation (JObj []))
                     "activation.additional_config";
      Ok (mkActivation entries (sort_by fst str_leb environment)
            (sort_by fst str_leb additional))
  end.

Section WithPackaging.
Context `{ContractParser.Packaging}.

(** ** The legacy schema *)

Definition parse_component (index : nat) (raw : json) : result BundleComponent :=
  let location := at_index "components" index in
  item ← _object raw location;
  _ ← exact _COMPONENT_FIELDS (minus _COMPONENT_FIELDS ["permissions"]) item
        (unknown_missing location);
  cid ← string_of item "component_id" (location +:+ ".component_id");
  _ ← demand (_IDENTIFIER cid) (location +:+ ".component_id is invalid");
  cs ← getitem "contracts" (JObj item);
  cs ← _strings cs (location +:+ ".contracts");
  _ ← demand (negb (bool_decide (cs = [])) && forallb (String.prefix "vllm.") cs)
        (location +:+ ".contracts is invalid");
  planes ← getitem "execution_planes" (JObj item);
  planes ← _strings planes (location +:+ ".execution_planes");
  _ ← _known planes _PLANES (location +:+ ".execution_planes");
  isolation ← string_of item "isolation" (location +:+ ".isolation");
  _ ← _known [isolation] _ISOLATIONS (location +:+ ".isolation");
  implementation ← string_of item "implementation_ref" (location +:+ ".implementation_ref");
  _ ← demand (_IMPLEMENTATION implementation) (location +:+ ".implementation_ref is invalid");
  permissions ← _strings (get_default "permissions" item (JArr [])) (location +:+ ".permissions");
  _ ← _known permissions _PERMISSIONS (location +:+ ".permissions");
  Ok (mkComponent cid cs planes isolation implementation permissions).

(** [Version(raw)], its exception turned into [msg]. *)
Definition valid_version (raw msg : string) : result unit :=
  match ContractParser.parse_version raw with Some _ => Ok tt | None => bad msg end.

(** [HOST_API_VERSION in SpecifierSet(range)]; the constant is parsed when the module loads. *)
Definition host_api_ok (range : string) : result bool :=
  match ContractParser.parse_version "1.0" with
  | None => Err (ValueError "Invalid version: '1.0'")
  | Some v =>
      match ContractParser.parse_specifiers range with
      | Some s => Ok (ContractParser.version_in v s)
      | None => bad "host_api_range is not a valid specifier"
      end
  end.

Definition legacy_host : HostSpec := mkHost "vllm" "vllm" ">=0" (Some ">=1,<2").
Definition legacy_runtime : RuntimeSpec := mkRuntime "python" "vllm_processes" "trusted_in_process".

(** [_parse_legacy_manifest], of a payload known to be an object. *)
Definition _parse_legacy_manifest (manifest : list (string * json)) : result BundleManifest :=
  _ ← demand (bool_decide (minus (keys manifest) _TOP_LEVEL_FIELDS = []))
        ("manifest contains unknown fields: "
         +:+ list_repr (sorted_names (minus (keys manifest) _TOP_LEVEL_FIELDS)));
  let required := minus _TOP_LEVEL_FIELDS ["activation"] in
  _ ← demand (bool_decide (minus required (keys manifest) = []))
        ("manifest is missing fields: "
         +:+ list_repr (sorted_names (minus required (keys manifest))));
  schema ← getitem "schema_version" (JObj manifest);
  _ ← demand (bool_decide (schema = JStr "1.0")) "unsupported schema_version";
  bid ← string_of manifest "bundle_id" "bundle_id";
  _ ← demand (_IDENTIFIER bid) "bundle_id must use lowercase letters, digits, dots, or hyphens";
  version ← string_of manifest "bundle_version" "bundle_version";
  _ ← valid_version version "bundle_version is not a valid version";
  range ← string_of manifest "host_api_range" "host_api_range";
  compatible ← host_api_ok range;
  _ ← demand compatible ("bundle requires host API " +:+ range +:+ ", host provides 1.0");
  raws ← getitem "components" (JObj manifest);
  raws ← match raws with
    | JArr (x :: l) => Ok (x :: l)
    | _ => bad "components must be a non-empty array"
    end;
  components ← map_result_i parse_component raws;
  _ ← demand (negb (has_dups (component_id <$> components))) "component_id values must be unique";
  activation ← _parse_activation (get_default "activation" manifest JNull);
  Ok (mkManifest bid version range components activation "1.0" "legacy_vllm_bundle" legacy_host
        legacy_runtime "vllm" [] [] [] [] []).

(** ** The experimental schemas *)

Definition _specifier (value : json) (location : string) : result string :=
  s ← _string value location;
  match ContractParser.parse_specifiers s with
  | Some _ => Ok s
  | None => bad (location +:+ " is not a valid version range")
  end.

Definition _optional_specifier (value : json) (location : string) : result (option string) :=
  match value with JNull => Ok None | _ => s ← _specifier value location; Ok (Some s) end.

Definition _parse_host (value : json) : result HostSpec :=
  host ← _object value "host";
  _ ← exact ["provider"; "name"; "version_range"; "api_range"]
        ["provider"; "name"; "version_range"] host (unknown_missing "host");
  provider ← string_of host "provider" "host.provider";
  _ ← demand (_IDENTIFIER provider) "host.provider is invalid";
  name ← string_of host "name" "host.name";
  range ← getitem "version_range" (JObj host);
  range ← _specifier range "host.version_range";
  api ← _optional_specifier (get_default "api_range" host JNull) "host.api_range";
  Ok (mkHost provider name range api).

Definition _parse_runtime (value : json) : result RuntimeSpec :=
  runtime ← _object value "runtime";
  _ ← demand (same_keys ["type"; "process_scope"; "isolation"] runtime)
        "runtime requires type, process_scope, and isolation";
  t ← string_of runtime "type" "runtime.type";
  _ ← _known [t] _RUNTIMES "runtime.type";
  scope ← string_of runtime "process_scope" "runtime.process_scope";
  isolation ← string_of runtime "isolation" "runtime.isolation";
  Ok (mkRuntime t scope isolation).

Definition parse_protocol (index : nat) (raw : json) : result ProtocolSpec :=
  let location := at_index "protocols" index in
  item ← _object raw location;
  _ ← demand (same_keys ["name"; "version_range"] item)
        (location +:+ " requires name and version_range");
  name ← string_of item "name" (location +:+ ".name");
  range ← getitem "version_range" (JObj item);
  range ← _optional_specifier range (location +:+ ".version_range");
  Ok (mkProtocol name range).

(** [for index, raw in enumerate(value)] of a value that must be a list. *)
Definition parse_array {A} (f : nat → json → result A) (value : json) (location : string)
    : result (list A) :=
  match value with
  | JArr l => map_result_i f l
  | _ => bad (location +:+ " must be an array")
  end.

Definition _parse_protocols (value : json) : result (list ProtocolSpec) :=
  parse_array parse_protocol value "protocols".

(** The further requirements on a Python module. *)
Definition check_module (location : string) (attributes : list (string * json)) : result unit :=
  _ ← demand (same_keys ["module"; "object"; "status"] attributes)
        (location +:+ " python_module requires module, object, and status");
  module ← string_of attributes "module" (location +:+ ".module");
  obj ← string_of attributes "object" (location +:+ ".object");
  status ← string_of attributes "status" (location +:+ ".status");
  _ ← demand (is_dotted module) (location +:+ ".module is invalid");
  _ ← demand (is_name obj) (location +:+ ".object is invalid");
  demand (bool_decide (status ∈ carrier_statuses)) (location +:+ ".status is unsupported").

Definition parse_carrier (index : nat) (raw : json) : result ImplementationCarrier :=
  let location := at_index "implementation" index in
  item ← _object raw location;
  t ← _string (get_default "type" item JNull) (location +:+ ".type");
  _ ← _known [t] _CARRIERS (location +:+ ".type");
  let attributes := List.filter (λ kv, negb (kv.1 =? "type")) item in
  _ ← demand (negb (bool_decide (attributes = []))) (location +:+ " has no carrier attributes");
  _ ← (if t =? "python_module" then check_module location attributes else Ok tt);
  Ok (mkCarrier t (sort_by fst str_leb attributes)).

Definition _parse_implementation (value : json) : result (list ImplementationCarrier) :=
  match value with
  | JArr (x :: l) => map_result_i parse_carrier (x :: l)
  | _ => bad "implementation must be a non-empty array"
  end.

Definition parse_service (index : nat) (raw : json) : result RequiredService :=
  let location := at_index "requires_services" index in
  let required := ["service_id"; "protocol"; "version_range"; "endpoint_config"] in
  item ← _object raw location;
  _ ← exact (required ++ ["optional"]) required item (unknown_missing location);
  optional ← match get_default "optional" item (JBool false) with
    | JBool b => Ok b
    | _ => bad (location +:+ ".optional must be boolean")
    end;
  i ← string_of item "service_id" (location +:+ ".service_id");
  protocol ← string_of item "protocol" (location +:+ ".protocol");
  range ← getitem "version_range" (JObj item);
  range ← _optional_specifier range (location +:+ ".version_range");
  endpoint ← string_of item "endpoint_config" (location +:+ ".endpoint_config");
  Ok (mkService i protocol range endpoint optional).

Definition _parse_services (value : json) : result (list RequiredService) :=
  parse_array parse_service value "requires_services".

Definition parse_dependency (index : nat) (raw : json) : result RequiredExtension :=
  let location := at_index "requires_extensions" index in
  item ← _object raw location;
  _ ← demand (same_keys ["extension_id"; "version_range"] item)
        (location +:+ " requires extension_id and version_range");
  i ← string_of item "extension_id" (location +:+ ".extension_id");
  _ ← demand (_IDENTIFIER i) (location +:+ ".extension_id is invalid");
  range ← getitem "version_range" (JObj item);
  range ← _specifier range (location +:+ ".version_range");
  Ok (mkRequired i range).

Definition _parse_extension_dependencies (value : json) : result (list RequiredExtension) :=
  result ← parse_array parse_dependency value "requires_extensions";
  _ ← demand (negb (has_dups (rq_extension_id <$> result)))
        "requires_extensions must not contain duplicate IDs";
  Ok result.

Definition parse_resource_claim (index : nat) (raw : json) : result ResourceClaim :=
  let location := at_index "resource_claims" index in
  item ← _object raw location;
  _ ← demand (same_keys _RESOURCE_CLAIM_FIELDS item)
        (location +:+ " requires resource, scope, and mode");
  resource ← string_of item "resource" (location +:+ ".resource");
  scope ← string_of item "scope" (location +:+ ".scope");
  mode ← string_of item "mode" (location +:+ ".mode");
  _ ← demand (_RESOURCE resource && _RESOURCE scope) (location +:+ " has an invalid identifier");
  _ ← _known [mode] _RESOURCE_CLAIM_MODES (location +:+ ".mode");
  Ok (mkClaim resource scope mode).

Definition _parse_resource_claims (value : json) : result (list ResourceClaim) :=
  result ← parse_array parse_resource_claim value "resource_claims";
  _ ← demand (negb (has_dups result)) "resource_claims must not contain duplicates";
  Ok result.

Definition experimental_required : list string :=
  ["schema_version"; "extension_id"; "extension_version"; "kind"; "host"; "runtime";
   "lifecycle_owner"; "protocols"; "implementation"; "requires_services"].
Definition experimental_fields : list string :=
  experimental_required ++ ["requires_extensions"; "resource_claims"; "components"; "activation"].

(** The components of an experimental manifest, parsed as a legacy manifest's. *)
Definition legacy_components (manifest : list (string * json)) (extension_id version : string)
    : result (list BundleComponent) :=
  if truthy (get_default "components" manifest JNull) then
    cs ← getitem "components" (JObj manifest);
    legacy ← _parse_legacy_manifest
      [("schema_version", JStr "1.0"); ("bundle_id", JStr extension_id);
       ("bundle_version", JStr version); ("host_api_range", JStr ">=1,<2"); ("components", cs);
       ("activation", get_default "activation" manifest JNull)];
    Ok (components legacy)
  else Ok [].

(** The guards on the schema's version. *)
Definition check_schema (manifest : list (string * json)) : result string :=
  schema ← getitem "schema_version" (JObj manifest);
  supported ← in_set schema experimental_schemas;
  _ ← demand supported "unsupported schema_version";
  let old := bool_decide (schema = JStr "0.2-experimental") in
  _ ← demand (negb (old && bool_decide ("resource_claims" ∈ keys manifest)))
        "resource_claims requires schema_version 0.3";
  _ ← demand (negb (old && bool_decide ("requires_extensions" ∈ keys manifest)))
        "requires_extensions requires schema_version 0.3";
  match schema with JStr s => Ok s | _ => bad "unsupported schema_version" end.

Definition _parse_experimental_manifest (manifest : list (string * json))
    : result BundleManifest :=
  _ ← exact experimental_fields experimental_required manifest
        (unknown_missing "experimental manifest");
  extension_id ← string_of manifest "extension_id" "extension_id";
  _ ← demand (_IDENTIFIER extension_id) "extension_id is invalid";
  version ← string_of manifest "extension_version" "extension_version";
  _ ← valid_version version "extension_version is not a valid version";
  kind ← string_of manifest "kind" "kind";
  _ ← _known [kind] _KINDS "kind";
  owner ← string_of manifest "lifecycle_owner" "lifecycle_owner";
  _ ← _known [owner] _LIFECYCLE_OWNERS "lifecycle_owner";
  components ← legacy_components manifest extension_id version;
  schema ← check_schema manifest;
  activation ← _parse_activation (get_default "activation" manifest JNull);
  host ← getitem "host" (JObj manifest) ≫= _parse_host;
  runtime ← getitem "runtime" (JObj manifest) ≫= _parse_runtime;
  protocols ← getitem "protocols" (JObj manifest) ≫= _parse_protocols;
  implementation ← getitem "implementation" (JObj manifest) ≫= _parse_implementation;
  services ← getitem "requires_services" (JObj manifest) ≫= _parse_services;
  extensions ← _parse_extension_dependencies
    (get_default "requires_extensions" manifest (JArr []));
  claims ← _parse_resource_claims (get_default "resource_claims" manifest (JArr []));
  Ok (mkManifest extension_id version ">=0" components activation schema kind host runtime owner
        protocols implementation services extensions claims).

Definition parse_manifest (payload : json) : result BundleManifest :=
  manifest ← _object payload "manifest";
  let schema := get_default "schema_version" manifest JNull in
  if bool_decide (schema = JStr "1.0") then _parse_legacy_manifest manifest
  else
    experimental ← in_set schema experimental_schemas;
    if (experimental : bool) then _parse_experimental_manifest manifest
    else bad "unsupported schema_version".
End WithPackaging.

(** ** Activation blockers *)

(** [dict(carrier.attributes).get("status")]. *)
Definition carrier_status (c : ImplementationCarrier) : json := get "status" (attributes c).

Definition active_carrier (c : ImplementationCarrier) : bool :=
  bool_decide (carrier_status c = JStr "active")
  || bool_decide (carrier_status c = JNull) && negb (carrier_type c =? "python_module").

(** [str(status)] of a status in the set of inactive ones. *)
Definition inactive_status (c : ImplementationCarrier) : result (option string) :=
  inactive ← in_set (carrier_status c) ["import_only"; "legacy_unregistered"];
  Ok (if (inactive : bool)
      then match carrier_status c with JStr s => Some s | _ => None end else None).

Definition activation_blocker (manifest : BundleManifest) : result (option string) :=
  let has_active := existsb active_carrier (implementation manifest) in
  statuses ← map_result inactive_status (implementation manifest);
  let declared := omap id statuses in
  Ok (if negb (bool_decide (declared = [])) && negb has_active
      then Some ("extension is descriptor-only and cannot be enabled (implementation status: "
                 +:+ String.concat ", " (sorted_names declared) +:+ ")")
      else None).
