(* ===== verification/ManifestProofs.v ===== *)
(** * ManifestProofs: what an accepted manifest guarantees, and what parsing may raise

    [manifest_ok] is the well-formedness the rest of the program relies on.  [manifest_exn] is
    what the parser may raise: its own error, and [TypeError] for two shapes of input it does
    not check. *)

From S2P Require Import Prelude Effects Json JsonText Manifest.
From S2P Require ContractParser CompilerTheorems.

Local Open Scope string_scope.
Local Open Scope list_scope.

(** ** Well-formed manifests *)

Definition component_ok (c : BundleComponent) : Prop :=
  _IDENTIFIER (component_id c) = true
  ∧ contracts c ≠ [] ∧ Forall (λ x, String.prefix "vllm." x = true) (contracts c)
  ∧ execution_planes c ⊆ _PLANES ∧ cmp_isolation c ∈ _ISOLATIONS
  ∧ _IMPLEMENTATION (implementation_ref c) = true ∧ permissions c ⊆ _PERMISSIONS
  ∧ NoDup (contracts c) ∧ NoDup (execution_planes c) ∧ NoDup (permissions c).

Definition carrier_ok (c : ImplementationCarrier) : Prop :=
  carrier_type c ∈ _CARRIERS ∧ attributes c ≠ [] ∧ "type" ∉ keys (attributes c)
  ∧ (carrier_type c = "python_module" → ∃ m o s,
       get "module" (attributes c) = JStr m ∧ is_dotted m = true
       ∧ get "object" (attributes c) = JStr o ∧ is_name o = true
       ∧ get "status" (attributes c) = JStr s ∧ s ∈ carrier_statuses).

Definition claim_ok (c : ResourceClaim) : Prop :=
  _RESOURCE (rc_resource c) = true ∧ _RESOURCE (rc_scope c) = true
  ∧ rc_mode c ∈ _RESOURCE_CLAIM_MODES.

Section Proofs.
Context `{ContractParser.Packaging}.

Definition range_ok (s : string) : Prop := is_Some (ContractParser.parse_specifiers s).

(** The range admits the API version that the manager provides. *)
Definition host_api_admitted (range : string) : Prop :=
  ∃ v s, ContractParser.parse_version "1.0" = Some v
    ∧ ContractParser.parse_specifiers range = Some s ∧ ContractParser.version_in v s = true.

Record manifest_ok (m : BundleManifest) : Prop := {
  mo_id : _IDENTIFIER (bundle_id m) = true;
  mo_version : is_Some (ContractParser.parse_version (bundle_version m));
  mo_components : Forall component_ok (components m) ∧ NoDup (component_id <$> components m);
  mo_legacy : schema_version m = "1.0" → components m ≠ [] ∧ m_kind m = "legacy_vllm_bundle"
    ∧ resource_claims m = [] ∧ host_api_admitted (host_api_range m);
  mo_experimental : schema_version m ≠ "1.0" →
    schema_version m ∈ experimental_schemas ∧ m_kind m ∈ _KINDS
    ∧ lifecycle_owner m ∈ _LIFECYCLE_OWNERS ∧ rt_type (m_runtime m) ∈ _RUNTIMES
    ∧ _IDENTIFIER (h_provider (m_host m)) = true ∧ range_ok (h_version_range (m_host m))
    ∧ implementation m ≠ [] ∧ (∀ r, api_range (m_host m) = Some r → range_ok r);
  mo_carriers : Forall carrier_ok (implementation m);
  mo_protocols : Forall (λ p, ∀ r, pr_version_range p = Some r → range_ok r) (protocols m);
  mo_services : Forall (λ x, ∀ r, sv_version_range x = Some r → range_ok r) (requires_services m);
  mo_extensions : Forall (λ r, _IDENTIFIER (rq_extension_id r) = true ∧ range_ok (rq_version_range r))
      (requires_extensions m) ∧ NoDup (rq_extension_id <$> requires_extensions m);
  mo_claims : Forall claim_ok (resource_claims m) ∧ NoDup (resource_claims m);
  mo_old : schema_version m = "0.2-experimental" →
    resource_claims m = [] ∧ requires_extensions m = [];
}.

(** ** Reading the parser *)

Lemma demand_bind {A} b msg (r : result A) x :
  (demand b msg ≫= λ _, r) = Ok x ↔ b = true ∧ r = Ok x.
Proof. apply check_bind. Qed.

Lemma minus_nil xs ys : minus xs ys = [] ↔ xs ⊆ ys.
Proof.
  unfold minus. induction xs as [|x xs IH]; cbn; [split; [set_solver|done]|].
  case_bool_decide as Hx; cbn; [rewrite IH; set_solver|]. split; [done|].
  intros Hs. destruct Hx. apply Hs. by left.
Qed.

Lemma known_ok values allowed loc u : _known values allowed loc = Ok u → values ⊆ allowed.
Proof. destruct u. unfold _known. intros E%check_ok. reflect. by apply minus_nil. Qed.

Lemma known_one x allowed loc u : _known [x] allowed loc = Ok u → x ∈ allowed.
Proof. intros Hk%known_ok. apply Hk. by left. Qed.

Lemma strings_ok v loc l : _strings v loc = Ok l → NoDup l.
Proof.
  unfold _strings. intros (? & _ & Hs)%result_bind_ok.
  apply result_bind_ok in Hs as (? & _ & [Hd [= <-]]%demand_bind). reflect.
  by apply has_dups_false.
Qed.

Lemma specifier_ok v loc s : _specifier v loc = Ok s → range_ok s.
Proof.
  unfold _specifier. intros (x & _ & Hs)%result_bind_ok. unfold range_ok.
  destruct (ContractParser.parse_specifiers x) eqn:E; [|done]. injection Hs as <-. by rewrite E.
Qed.

Lemma optional_specifier_ok v loc o r : _optional_specifier v loc = Ok o → o = Some r → range_ok r.
Proof.
  unfold _optional_specifier. intros Ho ->. destruct v; try done;
    apply result_bind_ok in Ho as (t & Ht & [= ->]); by apply specifier_ok in Ht.
Qed.

Lemma valid_version_ok raw msg u :
  valid_version raw msg = Ok u → is_Some (ContractParser.parse_version raw).
Proof. unfold valid_version. by destruct (ContractParser.parse_version raw). Qed.

(** Reading one step of a parser off a hypothesis. *)
Ltac parse_step := match goal with
  | Hp : Ok _ = Ok _ |- _ => injection Hp as <-
  | Hp : bad _ = Ok _ |- _ => discriminate Hp
  | Hp : demand _ _ ≫= _ = Ok _ |- _ => apply demand_bind in Hp as [? Hp]
  | Hp : (let _ := _ in _) = Ok _ |- _ => cbv zeta in Hp
  | Hp : _ ≫= _ = Ok _ |- _ => apply result_bind_ok in Hp as (? & ? & Hp)
  | Hp : _known [_] _ _ = Ok _ |- _ => apply known_one in Hp
  | Hp : _known _ _ _ = Ok _ |- _ => apply known_ok in Hp
  | Hp : _strings _ _ = Ok _ |- _ => apply strings_ok in Hp
  | Hp : _specifier _ _ = Ok _ |- _ => apply specifier_ok in Hp
  | Hp : valid_version _ _ = Ok _ |- _ => apply valid_version_ok in Hp
  | Hp : negb (has_dups _) = true |- _ => apply negb_true_iff, has_dups_false in Hp
  end.
Ltac parse_run := repeat parse_step; reflect.

Lemma parse_component_ok i raw c : parse_component i raw = Ok c → component_ok c.
Proof.
  unfold parse_component. intros Hp. parse_run. unfold component_ok. cbn.
  split_and!; try done. apply Forall_forall. intros y Hy.
  match goal with Hf : forallb _ _ = true |- _ => rewrite forallb_forall in Hf; apply Hf end.
  by apply list_elem_of_In.
Qed.

(** Sorting members keeps what each key holds. *)
Lemma assoc_sort_by {A} k (kvs : list (string * A)) :
  assoc k (sort_by fst str_leb kvs) = assoc k kvs.
Proof.
  assert (∀ x (l : list (string * A)), assoc k (insert_by fst str_leb x l)
    = if (x.1 =? k)%string then Some x.2 else assoc k l) as Hins.
  { intros [i v] l. induction l as [|[j w] l IH]; [done|]. cbn [insert_by fst].
    destruct (str_leb i j) eqn:E; [done|]. cbn [assoc fst snd]. rewrite IH. cbn [fst snd].
    destruct (String.eqb_spec i k) as [->|]; [|done].
    destruct (String.eqb_spec j k) as [->|]; [|done]. by rewrite str_leb_refl in E. }
  unfold sort_by. induction kvs as [|[i v] kvs IH]; [done|]. cbn [foldr]. by rewrite Hins, IH.
Qed.

Lemma string_of_ok kvs k loc s : string_of kvs k loc = Ok s → assoc k kvs = Some (JStr s).
Proof.
  unfold string_of. intros (v & Hv & Hs)%result_bind_ok. cbn in Hv.
  destruct (assoc k kvs) as [w|]; [|done]. injection Hv as ->.
  destruct v; try done. cbn in Hs. destruct (non_blank s0); [|done]. by injection Hs as ->.
Qed.

Lemma parse_carrier_ok i raw c : parse_carrier i raw = Ok c → carrier_ok c.
Proof.
  unfold parse_carrier. intros Hp. parse_run. unfold carrier_ok. cbn. split_and!.
  - done.
  - match goal with Hne : ?l ≠ [] |- sort_by _ _ ?l ≠ [] =>
      intros E; pose proof (sort_by_perm fst str_leb l) as Hperm; rewrite E in Hperm;
      by apply Permutation_nil in Hperm end.
  - unfold keys. rewrite sort_by_perm. intros ([k v] & Ek & Hin)%list_elem_of_fmap. cbn in Ek.
    subst k. apply list_elem_of_In, filter_In in Hin as [_ Hin]. done.
  - intros ->. unfold get.
    match goal with Hm : (if ("python_module" =? "python_module")%string then _ else _) = Ok ?u |- _ =>
      destruct u; cbn in Hm; unfold check_module in Hm end.
    parse_run.
    repeat match goal with Hs : string_of _ _ _ = Ok _ |- _ => apply string_of_ok in Hs end.
    match goal with Hm : demand _ _ = Ok _ |- _ => apply check_ok in Hm end. reflect.
    eexists _, _, _. rewrite !assoc_sort_by.
    match goal with H1 : assoc "module" _ = _, H2 : assoc "object" _ = _, H3 : assoc "status" _ = _ |- _ =>
      rewrite H1, H2, H3 end. by split_and!.
Qed.

Lemma parse_resource_claim_ok i raw c : parse_resource_claim i raw = Ok c → claim_ok c.
Proof. unfold parse_resource_claim. intros Hp. parse_run. by unfold claim_ok. Qed.

Lemma parse_array_Forall {A} (f : nat → json → result A) (Q : A → Prop) v loc l :
  (∀ i x y, f i x = Ok y → Q y) → parse_array f v loc = Ok l → Forall Q l.
Proof. intros Hf. destruct v; try done. by apply map_result_i_Forall. Qed.

Lemma resource_claims_ok v l :
  _parse_resource_claims v = Ok l → Forall claim_ok l ∧ NoDup l.
Proof.
  unfold _parse_resource_claims. intros Hp. parse_run. split; [|done].
  eapply parse_array_Forall; [|done]. apply parse_resource_claim_ok.
Qed.

Lemma dependencies_ok v l :
  _parse_extension_dependencies v = Ok l →
  Forall (λ r, _IDENTIFIER (rq_extension_id r) = true ∧ range_ok (rq_version_range r)) l
  ∧ NoDup (rq_extension_id <$> l).
Proof.
  unfold _parse_extension_dependencies. intros Hp. parse_run. split; [|done].
  eapply parse_array_Forall; [|done]. intros i raw r. unfold parse_dependency.
  intros Hp. by parse_run.
Qed.

Lemma protocols_ok v l :
  _parse_protocols v = Ok l → Forall (λ p, ∀ r, pr_version_range p = Some r → range_ok r) l.
Proof.
  apply parse_array_Forall. intros i raw p. unfold parse_protocol. intros Hp. parse_run.
  cbn. intros r ->. by eapply optional_specifier_ok.
Qed.

Lemma implementation_ok v l :
  _parse_implementation v = Ok l → Forall carrier_ok l ∧ l ≠ [].
Proof.
  destruct v as [| | | |[|x raws]|]; try done. cbn [_parse_implementation]. intros Hp. split.
  - eapply map_result_i_Forall; [|done]. apply parse_carrier_ok.
  - apply map_result_i_ok in Hp as [Hlen _]. by destruct l.
Qed.

Lemma host_ok v h :
  _parse_host v = Ok h → _IDENTIFIER (h_provider h) = true ∧ range_ok (h_version_range h)
  ∧ ∀ r, api_range h = Some r → range_ok r.
Proof.
  unfold _parse_host. intros Hp. parse_run. cbn. split_and!; [done..|].
  intros r ->. by eapply optional_specifier_ok.
Qed.

Lemma services_ok v l :
  _parse_services v = Ok l → Forall (λ x, ∀ r, sv_version_range x = Some r → range_ok r) l.
Proof.
  apply parse_array_Forall. intros i raw x. unfold parse_service. intros Hp. parse_run.
  cbn. intros r ->. by eapply optional_specifier_ok.
Qed.

Lemma host_api_ok_admitted range b : host_api_ok range = Ok b → b = true → host_api_admitted range.
Proof.
  unfold host_api_ok, host_api_admitted. destruct (ContractParser.parse_version "1.0") as [v|]; [|done].
  destruct (ContractParser.parse_specifiers range) as [x|]; [|done]. intros [= <-] Hb. by exists v, x.
Qed.

Lemma runtime_ok v r : _parse_runtime v = Ok r → rt_type r ∈ _RUNTIMES.
Proof. unfold _parse_runtime. intros Hp. by parse_run. Qed.

(** The members of a legacy manifest. *)
Lemma legacy_ok kvs m :
  _parse_legacy_manifest kvs = Ok m →
  schema_version m = "1.0" ∧ manifest_ok m.
Proof.
  unfold _parse_legacy_manifest. intros Hp. parse_run. split; [done|].
  match goal with Hm : map_result_i parse_component ?raws = Ok ?cs |- _ =>
    assert (Forall component_ok cs) by (eapply map_result_i_Forall; [apply parse_component_ok|done]);
    assert (cs ≠ []) as Hne by
      (apply map_result_i_ok in Hm as [Hlen _];
       match goal with Hr : match ?v with JNull => _ | _ => _ end = Ok raws |- _ =>
         destruct v as [| | | |[|? ?]|]; try done; injection Hr as <- end; by destruct cs) end.
  constructor; cbn; try done; try (by split; constructor).
  intros _. split_and!; [done..|]. by eapply host_api_ok_admitted.
Qed.

Lemma legacy_components_ok kvs i version l :
  legacy_components kvs i version = Ok l →
  Forall component_ok l ∧ NoDup (component_id <$> l).
Proof.
  unfold legacy_components. case_match; [|intros [= <-]; by split; constructor].
  intros Hp. parse_run. rename select (_parse_legacy_manifest _ = _) into Hl.
  by apply legacy_ok in Hl as [_ []].
Qed.

Lemma check_schema_ok kvs s :
  check_schema kvs = Ok s →
  s ∈ experimental_schemas
  ∧ (s = "0.2-experimental" → "resource_claims" ∉ keys kvs ∧ "requires_extensions" ∉ keys kvs).
Proof.
  unfold check_schema. intros (v & _ & Hp)%result_bind_ok.
  apply result_bind_ok in Hp as (b & Hb & Hp). parse_run. destruct v; try done.
  injection Hp as ->. cbn in Hb. injection Hb as <-. reflect. split; [done|]. intros ->.
  rewrite (bool_decide_true (JStr "0.2-experimental" = JStr "0.2-experimental")) in * by done.
  cbn in *. by reflect.
Qed.

Lemma get_default_absent k kvs d : k ∉ keys kvs → get_default k kvs d = d.
Proof.
  intros Hk. unfold get_default. destruct (assoc k kvs) eqn:E; [|done].
  destruct Hk. apply assoc_is_Some. by eexists.
Qed.

Lemma experimental_ok kvs m : _parse_experimental_manifest kvs = Ok m → manifest_ok m.
Proof.
  unfold _parse_experimental_manifest. intros Hp. parse_run.
  repeat match goal with
  | Hl : legacy_components _ _ _ = Ok _ |- _ => apply legacy_components_ok in Hl
  | Hl : check_schema _ = Ok _ |- _ => apply check_schema_ok in Hl as [? ?]
  | Hl : _parse_host _ = Ok _ |- _ => apply host_ok in Hl as (? & ? & ?)
  | Hl : _parse_runtime _ = Ok _ |- _ => apply runtime_ok in Hl
  | Hl : _parse_protocols _ = Ok _ |- _ => apply protocols_ok in Hl
  | Hl : _parse_services _ = Ok _ |- _ => apply services_ok in Hl
  | Hl : _parse_implementation _ = Ok _ |- _ => apply implementation_ok in Hl as [? ?]
  end.
  constructor; cbn; try done.
  - intros ->. set_solver.
  - match goal with Hl : _parse_extension_dependencies _ = Ok _ |- _ =>
      by apply dependencies_ok in Hl end.
  - match goal with Hl : _parse_resource_claims _ = Ok _ |- _ =>
      by apply resource_claims_ok in Hl end.
  - match goal with Hold : ?s = "0.2-experimental" → _ |- _ =>
      intros ->; destruct (Hold eq_refl) as [Hc He] end.
    repeat match goal with Hl : context [get_default _ _ (JArr [])] |- _ =>
      rewrite get_default_absent in Hl by done; injection Hl as <- end.
    done.
Qed.

(** ** What may be raised *)

(** A value a [for] loop accepts. *)
Definition iterable (v : json) : bool :=
  match v with JArr _ | JObj _ | JStr _ => true | _ => false end.
Definition hashable (v : json) : bool := match v with JArr _ | JObj _ => false | _ => true end.

(** The parts of a payload the parser uses without checking their type: the schema's version is
    looked up in a set, the entry points are looped over. *)
Definition plain (payload : json) : Prop :=
  ∀ kvs, payload = JObj kvs →
    hashable (get_default "schema_version" kvs JNull) = true
    ∧ ∀ act, get_default "activation" kvs JNull = JObj act →
        iterable (get_default "entry_points" act (JArr [])) = true.

Definition manifest_exn (unchecked : Prop) (e : exn) : Prop :=
  match e with ManifestError _ => True | TypeError _ => unchecked | _ => False end.

Section Raises.
Context (U : Prop).

Lemma manifest_demand b msg : raises (manifest_exn U) (demand b msg).
Proof. by apply raises_check. Qed.

Lemma raises_object v loc : raises (manifest_exn U) (_object v loc).
Proof. by destruct v. Qed.

Lemma manifest_string v loc : raises (manifest_exn U) (_string v loc).
Proof. destruct v; cbn; try done. by case_match. Qed.

Lemma raises_strings v loc : raises (manifest_exn U) (_strings v loc).
Proof.
  unfold _strings. apply raises_bind; [by destruct v|]. intros l _.
  apply raises_bind; [apply raises_map_result; by intros []|]. intros s _.
  apply raises_bind; [apply manifest_demand|done].
Qed.

Lemma raises_known vs al loc : raises (manifest_exn U) (_known vs al loc).
Proof. apply manifest_demand. Qed.

Lemma raises_exact fs rs kvs msg : raises (manifest_exn U) (exact fs rs kvs msg).
Proof. apply manifest_demand. Qed.

Lemma raises_specifier v loc : raises (manifest_exn U) (_specifier v loc).
Proof.
  apply raises_bind; [apply manifest_string|]. intros s _.
  by destruct (ContractParser.parse_specifiers s).
Qed.

Lemma raises_optional_specifier v loc : raises (manifest_exn U) (_optional_specifier v loc).
Proof.
  unfold _optional_specifier.
  destruct v; try exact I; (apply raises_bind; [apply raises_specifier|done]).
Qed.

Lemma raises_valid_version raw msg : raises (manifest_exn U) (valid_version raw msg).
Proof. unfold valid_version. by case_match. Qed.

(** A field that a check has shown to be there. *)
Lemma manifest_getitem k kvs : k ∈ keys kvs → raises (manifest_exn U) (getitem k (JObj kvs)).
Proof. intros [v Hv]%assoc_is_Some. cbn. by rewrite Hv. Qed.

Lemma raises_string_of kvs k loc :
  k ∈ keys kvs → raises (manifest_exn U) (string_of kvs k loc).
Proof. intros Hk. apply raises_bind; [by apply manifest_getitem|]. intros. apply manifest_string. Qed.

Lemma same_keys_in fs (kvs : list (string * json)) k :
  same_keys fs kvs = true → bool_decide (k ∈ fs) = true → k ∈ keys kvs.
Proof.
  unfold same_keys. intros Hk Hin. reflect.
  match goal with Hf : forallb _ fs = true |- _ =>
    rewrite forallb_forall in Hf; apply list_elem_of_In, Hf in Hin end. by reflect.
Qed.

Lemma exact_in fs rs kvs msg u k :
  exact fs rs kvs msg = Ok u → bool_decide (k ∈ rs) = true → k ∈ keys kvs.
Proof.
  destruct u. unfold exact. intros E%check_ok Hin. reflect.
  match goal with Hm : minus rs _ = [] |- _ => apply minus_nil in Hm; by apply Hm end.
Qed.

Lemma missing_in rs (kvs : list (string * json)) k :
  bool_decide (minus rs (keys kvs) = []) = true → bool_decide (k ∈ rs) = true → k ∈ keys kvs.
Proof. intros Hm Hin. reflect. apply minus_nil in Hm. by apply Hm. Qed.

(** Presence of a field, from whichever test the parser made. *)
Ltac present := first
  [ eassumption
  | eapply same_keys_in; [eassumption|reflexivity]
  | eapply exact_in; [eassumption|reflexivity]
  | eapply missing_in; [eassumption|reflexivity] ].

Ltac raise_step := match goal with
  | Hp : demand _ _ = Ok ?u |- _ => destruct u; apply check_ok in Hp
  | |- raises _ (let _ := _ in _) => cbv zeta
  | |- raises _ (_ ≫= _) => apply raises_bind; [|intros ??]
  | |- raises _ (Ok _) => exact I
  | |- raises _ (bad _) => exact I
  | |- raises _ (demand _ _) => apply manifest_demand
  | |- raises _ (_object _ _) => apply raises_object
  | |- raises _ (_string _ _) => apply manifest_string
  | |- raises _ (_strings _ _) => apply raises_strings
  | |- raises _ (_known _ _ _) => apply raises_known
  | |- raises _ (exact _ _ _ _) => apply raises_exact
  | |- raises _ (_specifier _ _) => apply raises_specifier
  | |- raises _ (_optional_specifier _ _) => apply raises_optional_specifier
  | |- raises _ (valid_version _ _) => apply raises_valid_version
  | |- raises _ (string_of _ _ _) => apply raises_string_of; present
  | |- raises _ (getitem _ _) => apply manifest_getitem; present
  | |- raises _ (map_result _ _) => apply raises_map_result; intros
  | |- raises _ (map_result_i _ _) => apply raises_map_result_i; intros
  | |- raises _ (parse_array _ ?v _) => destruct v; try exact I; cbn [parse_array]
  | |- raises _ (match ?x with _ => _ end) => destruct x
  | |- raises _ (if ?b then _ else _) => destruct b eqn:?
  end.

Lemma raises_iterate v : iterable v = true ∨ U → raises (manifest_exn U) (iterate v).
Proof. intros [Hi|HU]; destruct v; done. Qed.

(** The activation's entry points are a value a [for] loop accepts, or errors are expected. *)
Definition activation_plain (v : json) : Prop :=
  ∀ act, v = JObj act → iterable (get_default "entry_points" act (JArr [])) = true ∨ U.

Lemma raises_activation v : activation_plain v → raises (manifest_exn U) (_parse_activation v).
Proof.
  intros Hit. unfold _parse_activation, parse_entry_point.
  destruct v as [| | | | |act]; [exact I|exact I..|]. specialize (Hit act eq_refl).
  repeat raise_step.
  match goal with Ha : _object (JObj act) _ = Ok _ |- _ => injection Ha as <- end.
  by apply raises_iterate.
Qed.

Lemma raises_host_api range :
  is_Some (ContractParser.parse_version "1.0") → raises (manifest_exn U) (host_api_ok range).
Proof. intros [v Hv]. unfold host_api_ok. rewrite Hv. by case_match. Qed.

Lemma raises_component i raw : raises (manifest_exn U) (parse_component i raw).
Proof. unfold parse_component. repeat raise_step. Qed.

Lemma raises_legacy kvs :
  is_Some (ContractParser.parse_version "1.0") →
  activation_plain (get_default "activation" kvs JNull) →
  raises (manifest_exn U) (_parse_legacy_manifest kvs).
Proof.
  intros Hv Hact. unfold _parse_legacy_manifest.
  repeat first [raise_step | by apply raises_host_api | apply raises_component
               | by apply raises_activation ].
Qed.

Lemma raises_host v : raises (manifest_exn U) (_parse_host v).
Proof. unfold _parse_host. repeat raise_step. Qed.

Lemma raises_runtime v : raises (manifest_exn U) (_parse_runtime v).
Proof. unfold _parse_runtime. repeat raise_step. Qed.

Lemma raises_protocols v : raises (manifest_exn U) (_parse_protocols v).
Proof. unfold _parse_protocols, parse_protocol. repeat raise_step. Qed.

Lemma raises_services v : raises (manifest_exn U) (_parse_services v).
Proof. unfold _parse_services, parse_service. repeat raise_step. Qed.

Lemma raises_dependencies v : raises (manifest_exn U) (_parse_extension_dependencies v).
Proof. unfold _parse_extension_dependencies, parse_dependency. repeat raise_step. Qed.

Lemma raises_resource_claims v : raises (manifest_exn U) (_parse_resource_claims v).
Proof. unfold _parse_resource_claims, parse_resource_claim. repeat raise_step. Qed.

Lemma raises_module loc kvs : raises (manifest_exn U) (check_module loc kvs).
Proof. unfold check_module. repeat raise_step. Qed.

Lemma raises_implementation v : raises (manifest_exn U) (_parse_implementation v).
Proof.
  unfold _parse_implementation, parse_carrier.
  repeat first [apply raises_module | raise_step].
Qed.

Lemma raises_in_set v l :
  (hashable v = true ∨ U) → raises (manifest_exn U) (in_set v l).
Proof. intros [Hh|HU]; destruct v; done. Qed.

Lemma raises_check_schema kvs :
  "schema_version" ∈ keys kvs →
  hashable (get_default "schema_version" kvs JNull) = true ∨ U →
  raises (manifest_exn U) (check_schema kvs).
Proof.
  intros Hin Hh. unfold check_schema. repeat raise_step.
  apply raises_in_set. unfold get_default in Hh.
  match goal with Hg : getitem _ _ = Ok ?a |- _ => cbn in Hg; destruct (assoc _ kvs);
    [by injection Hg as <-|done] end.
Qed.

Lemma raises_legacy_components kvs i version :
  is_Some (ContractParser.parse_version "1.0") →
  activation_plain (get_default "activation" kvs JNull) →
  raises (manifest_exn U) (legacy_components kvs i version).
Proof.
  intros Hv Hact. unfold legacy_components, get_default at 1.
  destruct (assoc "components" kvs) as [cs|] eqn:Hc; cbn [default]; [|exact I].
  destruct (truthy _); [|exact I].
  apply raises_bind; [apply manifest_getitem, assoc_is_Some; by eexists|]. intros c _.
  apply raises_bind; [by apply raises_legacy|]. done.
Qed.

Lemma raises_experimental kvs :
  is_Some (ContractParser.parse_version "1.0") →
  hashable (get_default "schema_version" kvs JNull) = true ∨ U →
  activation_plain (get_default "activation" kvs JNull) →
  raises (manifest_exn U) (_parse_experimental_manifest kvs).
Proof.
  intros Hv Hs Hact. unfold _parse_experimental_manifest.
  repeat first
    [ apply raises_host | apply raises_runtime | apply raises_protocols
    | apply raises_implementation | apply raises_services | apply raises_dependencies
    | apply raises_resource_claims | by apply raises_activation
    | by apply raises_legacy_components | apply raises_check_schema; [present|done]
    | raise_step ].
Qed.
End Raises.

(** ** The parser *)

Lemma manifest_parsed_ok payload m : parse_manifest payload = Ok m → manifest_ok m.
Proof.
  unfold parse_manifest. intros (kvs & _ & Hp)%result_bind_ok.
  case_bool_decide; [by apply legacy_ok in Hp as [_ ?]|].
  apply result_bind_ok in Hp as ([|] & _ & Hp); [by apply experimental_ok in Hp|done].
Qed.

(** C33.  Every accepted manifest is well formed: its identifiers, its version and the version
    ranges of its host, the host's API, its protocols and the services and extensions it requires
    are valid, a legacy one admits the host API that is provided, its components name extension points, planes, an isolation, an implementation
    and permissions of the fixed vocabularies and have distinct identifiers, its kind, owner and
    runtime are known, every Python module declares a dotted name, an object and its status, resource claims and required
    extensions are valid and free of duplicates, and the schema of a version carries only what
    that version allows. *)
Theorem parse_manifest_wellformed payload m : parse_manifest payload = Ok m → manifest_ok m.
Proof. apply manifest_parsed_ok. Qed.

(** Parsing a manifest fails with [ManifestError] and nothing else, whatever the payload,
    except for a [TypeError] that only two shapes produce: a [schema_version] that cannot be
    hashed, and an [activation.entry_points] that cannot be looped over. *)
Theorem manifest_errors payload :
  is_Some (ContractParser.parse_version "1.0") →
  raises (manifest_exn (¬ plain payload)) (parse_manifest payload).
Proof.
  intros Hv. unfold parse_manifest. destruct payload as [| | | | |kvs]; try exact I.
  set (U := ¬ plain (JObj kvs)). set (schema := get_default "schema_version" kvs JNull).
  assert (hashable schema = true ∨ U) as Hs.
  { destruct (hashable schema) eqn:E; [by left|right]. intros [Hh _]%(λ Hpl, Hpl kvs eq_refl).
    unfold schema in E. by rewrite E in Hh. }
  assert (activation_plain U (get_default "activation" kvs JNull)) as Hact.
  { intros act Hact. destruct (iterable _) eqn:E; [by left|right].
    intros [_ Hit]%(λ Hpl, Hpl kvs eq_refl). specialize (Hit act Hact). by rewrite E in Hit. }
  apply raises_bind; [exact I|]. intros kvs' [= <-]. cbv zeta. fold schema.
  case_bool_decide; [by apply raises_legacy|].
  apply raises_bind; [by apply raises_in_set|]. intros [] _; [by apply raises_experimental|exact I].
Qed.
End Proofs.

(** ** Examples *)

Module ManifestDemo.
Import CompilerTheorems.ExactVersions.

Definition str (s : string) : json := JStr s.

Definition carrier (status : string) : json :=
  JObj [("type", str "python_module"); ("module", str "pkg.mod"); ("object", str "plugin");
        ("status", str status)].

Definition payload (schema : json) (carriers : list json) (activation : json) : json :=
  JObj [("schema_version", schema); ("extension_id", str "org.example");
        ("extension_version", str "1.2"); ("kind", str "kv_connector");
        ("host", JObj [("provider", str "vllm-hust"); ("name", str "vLLM");
                       ("version_range", str ">=0")]);
        ("runtime", JObj [("type", str "python"); ("process_scope", str "worker");
                          ("isolation", str "trusted_in_process")]);
        ("lifecycle_owner", str "vllm"); ("protocols", JArr []);
        ("implementation", JArr carriers); ("requires_services", JArr []);
        ("resource_claims", JArr [JObj [("resource", str "npu:0"); ("scope", str "node");
                                        ("mode", str "exclusive")]]);
        ("activation", activation)].

Definition good : json := payload (str "0.3") [carrier "active"] JNull.

Definition good_manifest : BundleManifest :=
  mkManifest "org.example" "1.2" ">=0" [] (mkActivation [] [] []) "0.3" "kv_connector"
    (mkHost "vllm-hust" "vLLM" ">=0" None) (mkRuntime "python" "worker" "trusted_in_process")
    "vllm" []
    [mkCarrier "python_module"
       [("module", str "pkg.mod"); ("object", str "plugin"); ("status", str "active")]]
    [] [] [mkClaim "npu:0" "node" "exclusive"].

Lemma good_parsed : parse_manifest good = Ok good_manifest.
Proof. by vm_compute. Qed.

Lemma parse_manifest_wellformed_witness : manifest_ok good_manifest.
Proof. refine (parse_manifest_wellformed good good_manifest _). vm_compute. reflexivity. Defined.

(** Entry points that are a number are not rejected as a manifest error. *)
Example entry_points_escape :
  parse_manifest (payload (str "0.3") [carrier "active"] (JObj [("entry_points", JInt 5)]))
  = Err (TypeError "object is not iterable").
Proof. by vm_compute. Qed.

(** Neither is a schema version that is a list. *)
Example schema_version_escapes :
  parse_manifest (payload (JArr []) [carrier "active"] JNull) = Err (TypeError "unhashable type: 'list'").
Proof. by vm_compute. Qed.

Lemma manifest_errors_witness :
  raises (manifest_exn (¬ plain (payload (JArr []) [carrier "active"] JNull)))
    (parse_manifest (payload (JArr []) [carrier "active"] JNull)).
Proof.
  refine (manifest_errors (payload (JArr []) [carrier "active"] JNull) _). by eexists.
Defined.

(** A carrier that is not a Python module may hold any value as its status: the blocker then
    raises. *)
Definition odd_carrier : json :=
  JObj [("type", str "oci_image"); ("status", JArr [])].

Example status_escapes :
  (parse_manifest (payload (str "0.3") [odd_carrier] JNull) ≫= activation_blocker)
  = Err (TypeError "unhashable type: 'list'").
Proof. by vm_compute. Qed.

Example descriptor_only :
  (parse_manifest (payload (str "0.3") [carrier "import_only"] JNull) ≫= activation_blocker)
  = Ok (Some ("extension is descriptor-only and cannot be enabled "
              +:+ "(implementation status: import_only)")).
Proof. by vm_compute. Qed.
End ManifestDemo.
