(* ===== verification/ProviderPlans.v ===== *)
(** * ProviderPlans: provider-neutral planning and status

    src/vllm_hust_ext/core.py with the contracts of providers/base.py and the registry of
    providers/__init__.py.  A provider is a record of its operations; the built-in providers
    and the installed entry points are arguments.  The theorems are in PlanConflicts.v. *)

From S2P Require Import Prelude Effects Json JsonText Manifest.
From S2P Require ContractParser.

Local Open Scope string_scope.
Local Open Scope list_scope.

(** ** Contracts of providers/base.py *)

Record PlanAction := mkAction {
  operation : string; target : string; pa_lifecycle_owner : string; mutating : bool;
  details : list (string * json) }.

(** The path's segments are whatever a provider put there. *)
Record ConfigClaim := mkConfigClaim { path : list json; cc_value : json }.

(** [None] is a path that is no tuple. *)
Record ConfigurationRequirement := mkRequirement {
  req_path : option (list json); minimum : json; maximum : json }.

Record ProviderPlan := mkProviderPlan {
  extension_id : string; provider : string; actions : list PlanAction;
  generated_config : list (string * json); warnings : list string;
  plan_claims : list ResourceClaim; config_claims : option (list ConfigClaim);
  configuration_requirements : list ConfigurationRequirement }.

Record ProviderCheck := mkCheck {
  compatible : option bool; configured : bool; reachable : option bool; healthy : option bool;
  degraded : bool; evidence : list string }.

Record HostProvider := mkProvider {
  provider_name : string;
  supports : BundleManifest → result bool;
  plan : BundleManifest → list (string * json) → bool → result ProviderPlan;
  check_host : BundleManifest → list (string * json) → result ProviderCheck }.

(** *** Text *)

(** [repr(value)], for strings that need no escape. *)
Fixpoint py_repr (v : json) : string :=
  match v with
  | JNull => "None"
  | JBool true => "True"
  | JBool false => "False"
  | JInt z => z_str z
  | JStr s => "'" +:+ s +:+ "'"
  | JArr l => "[" +:+ String.concat ", " (map py_repr l) +:+ "]"
  | JObj kvs =>
      "{" +:+ String.concat ", " (map (λ kv, "'" +:+ kv.1 +:+ "': " +:+ py_repr kv.2) kvs) +:+ "}"
  end.

(** [str(value)]. *)
Definition py_str (v : json) : string := match v with JStr s => s | _ => py_repr v end.

(** [type(error).__name__]. *)
Definition exn_class (e : exn) : string :=
  match e with
  | ContractError _ _ => "ContractError"
  | ContractPlanningError _ _ => "ContractPlanningError"
  | GateError _ => "GateError"
  | InjectedCrash _ => "InjectedCrash"
  | RejectedTransition _ => "RejectedTransition"
  | RuntimeError _ => "RuntimeError"
  | ValueError _ => "ValueError"
  | TypeError _ => "TypeError"
  | KeyError _ => "KeyError"
  | IndexError _ => "IndexError"
  | AttributeError _ => "AttributeError"
  | AssertionError => "AssertionError"
  | IntegrityError _ => "IntegrityError"
  | HostEventSinkError _ => "HostEventSinkError"
  | QuarantineTransactionError _ => "QuarantineTransactionError"
  | FileNotFoundError _ => "FileNotFoundError"
  | FileExistsError _ => "FileExistsError"
  | OSError _ => "OSError"
  | AttestationError _ _ => "AttestationError"
  | CatalogError _ => "CatalogError"
  | ManifestError _ => "ManifestError"
  | PlanArtifactError _ => "PlanArtifactError"
  | DiscoveryError _ => "DiscoveryError"
  | Killed => "SystemExit"
  end.

(** *** Compatibility *)

Section Compatibility.
Context `{ContractParser.Packaging}.

(** [_matches]: an invalid specifier set is an uncaught [ValueError]. *)
Definition _matches (version specifier : string) : result bool :=
  match ContractParser.parse_version version with
  | None => Ok false
  | Some v =>
      match ContractParser.parse_specifiers specifier with
      | Some s => Ok (ContractParser.version_in v s)
      | None => Err (ValueError ("Invalid specifier: '" +:+ specifier +:+ "'"))
      end
  end.

(** What the ranges have said so far: all compatible, something unknown, or a refusal. *)
Variant assessment :=
  | Assessing (unknown : bool) (evidence : list string)
  | Refused (evidence : string).


(** One range: an unknown version, a version outside, a version inside. *)
Definition assess_range (what : string) (version : json) (range missing outside inside : string)
    (a : assessment) : result assessment :=
  match a with
  | Refused _ => Ok a
  | Assessing unknown ev =>
      match version with
      | JNull => Ok (Assessing true (ev ++ [missing]))
      | _ =>
          m ← _matches (py_str version) range;
          Ok (if (m : bool)
              then Assessing unknown (ev ++ [what +:+ py_str version +:+ inside])
              else Refused (what +:+ py_str version +:+ outside +:+ range))
      end
  end.

Definition assess_protocol (versions : list (string * json)) (a : assessment)
    (protocol : ProtocolSpec) : result assessment :=
  match pr_version_range protocol with
  | None =>
      Ok match a with
         | Assessing unknown ev => Assessing unknown (ev ++
             ["protocol " +:+ pr_name protocol +:+ " is not independently versioned; "
              +:+ "compatibility is governed by host ranges and acceptance evidence"])
         | Refused _ => a
         end
  | Some range =>
      assess_range ("protocol " +:+ pr_name protocol +:+ " ")
        (get (pr_name protocol) versions) range
        ("protocol " +:+ pr_name protocol +:+ " version is unavailable")
        " is outside " " satisfies the declared range" a
  end.

(** A left fold that stops at the first exception. *)
Fixpoint fold_result {A B} (f : B → A → result B) (b : B) (l : list A) : result B :=
  match l with [] => Ok b | x :: l' => b' ← f b x; fold_result f b' l' end.

(** [detected] and the defaults are [JNull] when the caller passes none. *)
Definition assess_compatibility (manifest : BundleManifest) (configuration : list (string * json))
    (detected default_api : json) (default_protocols : list (string * json))
    : result (option bool * list string) :=
  let host := m_host manifest in
  a ← assess_range "host version " (get_default "host_version" configuration detected)
    (h_version_range host) "host version is unavailable; compatibility is unverified"
    " is outside " " satisfies the declared range" (Assessing false []);
  a ← match api_range host with
    | None => Ok a
    | Some range =>
        assess_range "host API " (get_default "host_api_version" configuration default_api) range
          "host API version is unavailable" " is outside " " satisfies the declared range" a
    end;
  match a with
  | Refused e => Ok (Some false, [e])
  | Assessing _ _ =>
      match get_default "protocol_versions" configuration (JObj []) with
      | JObj supplied =>
          let versions := fold_left (λ d kv, dict_set kv.1 kv.2 d) supplied default_protocols in
          a ← fold_result (assess_protocol versions) a (protocols manifest);
          Ok match a with
             | Refused e => (Some false, [e])
             | Assessing unknown ev => (if unknown then None else Some true, ev)
             end
      | _ => Ok (Some false, ["protocol_versions must be an object"])
      end
  end.
End Compatibility.

(** ** The registry of providers/__init__.py *)

(** An installed entry point: its name and what loading and calling it gives. *)
Record EntryPoint := mkEntry { entry_name : string; load : result HostProvider }.

Definition _load_external_provider (e : EntryPoint) : result HostProvider :=
  match load e with
  | Err Killed => Err Killed
  | Err exc => Err (ValueError ("host provider '" +:+ entry_name e +:+ "' failed to load: "
                      +:+ exn_class exc +:+ ": " +:+ exn_str exc))
  | Ok p =>
      if (provider_name p =? entry_name e)%string then Ok p
      else Err (ValueError ("provider entry point '" +:+ entry_name e +:+ "' returned '"
                  +:+ provider_name p +:+ "'"))
  end.

Section Registry.
Context (builtins : list (string * HostProvider)) (entry_points : list EntryPoint).

Definition providers (include_external : bool) : result (list (string * HostProvider)) :=
  if include_external then
    fold_result (λ result e,
      if bool_decide (entry_name e ∈ keys result)
      then Err (ValueError ("duplicate host provider: " +:+ entry_name e))
      else p ← _load_external_provider e; Ok (dict_set (provider_name p) p result))
      builtins entry_points
  else Ok builtins.

Definition provider_for (name : string) (include_external : bool) : result HostProvider :=
  let unknown := Err (ValueError ("unknown host provider: " +:+ name)) in
  let duplicate := Err (ValueError ("duplicate host provider: " +:+ name)) in
  if negb include_external then
    match assoc name builtins with Some p => Ok p | None => unknown end
  else
    let found := List.filter (λ e, (entry_name e =? name)%string) entry_points in
    match assoc name builtins, found with
    | Some p, [] => Ok p
    | Some _, _ :: _ => duplicate
    | None, [] => unknown
    | None, [e] => _load_external_provider e
    | None, _ :: _ :: _ => duplicate
    end.
End Registry.

(** ** core.py: states *)

Module LifecycleState.
Variant t :=
  | INSTALLED | DISCOVERED | COMPATIBLE | CONFIGURED | ENABLED | RUNTIME_EFFECTIVE | REACHABLE
  | HEALTHY | DEGRADED | INCOMPATIBLE.
End LifecycleState.

#[export] Instance LifecycleState_eq_dec : EqDecision LifecycleState.t.
Proof. solve_decision. Defined.

Record ExtensionConfig := mkExtensionConfig {
  enabled : bool; configuration : list (string * json) }.

Record InstalledBundle := mkBundle {
  ib_id : string; distribution_name : string; distribution_version : string;
  manifest_path : string; manifest : BundleManifest }.

Record ExtensionStatus := mkStatus {
  st_extension_id : string; st_provider : string; states : list LifecycleState.t;
  st_evidence : list string }.

(** [except ValueError]: the class and its subclasses. *)
Definition is_value_error (e : exn) : bool :=
  match e with
  | ValueError _ | ContractError _ _ | ContractPlanningError _ _ | AttestationError _ _
  | CatalogError _ | ManifestError _ | PlanArtifactError _ | RejectedTransition _
  | DiscoveryError _ => true
  | _ => false
  end.

Section Core.
(** [provider_for] of the registry, and [runtime_effective_evidence]. *)
Context (find_provider : string → bool → result HostProvider)
  (runtime_effective_evidence : InstalledBundle → result (option string)).

(** The provider of a bundle and its check, or the [ValueError] on the way. *)
Definition checked_provider (bundle : InstalledBundle) (extension : ExtensionConfig)
    (include_external : bool) : result (HostProvider * ProviderCheck) :=
  p ← find_provider (h_provider (m_host (manifest bundle))) include_external;
  supported ← supports p (manifest bundle);
  _ ← check supported (ValueError "selected provider does not support this manifest");
  c ← check_host p (manifest bundle) (configuration extension);
  Ok (p, c).

Definition is_false (o : option bool) : bool := bool_decide (o = Some false).

(** The states a check, the saved intent and the runtime evidence add. *)
Definition states_of (c : ProviderCheck) (blocked : bool) (extension : ExtensionConfig)
    (effective : bool) : list LifecycleState.t :=
  [LifecycleState.INSTALLED; LifecycleState.DISCOVERED]
  ++ match compatible c with
     | Some true => [LifecycleState.COMPATIBLE]
     | Some false => [LifecycleState.INCOMPATIBLE]
     | None => []
     end
  ++ (if configured c then [LifecycleState.CONFIGURED] else [])
  ++ (if enabled extension then
        LifecycleState.ENABLED
          :: (if effective then [LifecycleState.RUNTIME_EFFECTIVE] else [])
      else [])
  ++ (if bool_decide (reachable c = Some true) then [LifecycleState.REACHABLE] else [])
  ++ (if bool_decide (healthy c = Some true) then [LifecycleState.HEALTHY] else [])
  ++ (if degraded c || blocked || is_false (reachable c) || is_false (healthy c)
      then [LifecycleState.DEGRADED] else []).

Definition status_for (bundle : InstalledBundle) (extension : ExtensionConfig)
    (include_external : bool) : result ExtensionStatus :=
  match checked_provider bundle extension include_external with
  | Err e =>
      if is_value_error e then
        Ok (mkStatus (ib_id bundle) (h_provider (m_host (manifest bundle)))
              [LifecycleState.INSTALLED; LifecycleState.DISCOVERED; LifecycleState.INCOMPATIBLE]
              [exn_str e])
      else Err e
  | Ok (p, c) =>
      blocker ← activation_blocker (manifest bundle);
      effective ← (if enabled extension then runtime_effective_evidence bundle else Ok None);
      Ok (mkStatus (ib_id bundle) (provider_name p)
            (states_of c (bool_decide (is_Some blocker)) extension
               (bool_decide (is_Some effective)))
            (evidence c ++ option_list blocker ++ option_list effective))
  end.

(** ** core.py: plans *)

Definition set_claims (claims : list ResourceClaim) (p : ProviderPlan) : ProviderPlan :=
  mkProviderPlan (extension_id p) (provider p) (actions p) (generated_config p) (warnings p)
    claims (config_claims p) (configuration_requirements p).

Definition plan_for (bundle : InstalledBundle) (extension : ExtensionConfig)
    (include_external : bool) : result ProviderPlan :=
  let m := manifest bundle in
  blocker ← activation_blocker m;
  match blocker with
  | Some reason =>
      Ok (mkProviderPlan (ib_id bundle) (h_provider (m_host m))
            [mkAction "inspect_only" (ib_id bundle) (lifecycle_owner m) false
               [("enabled", JBool false)]]
            [] [reason] (resource_claims m) None [])
  | None =>
      p ← find_provider (h_provider (m_host m)) include_external;
      supported ← supports p m;
      _ ← check supported (ValueError "selected provider does not support this manifest");
      plan ← plan p m (configuration extension) (enabled extension);
      _ ← check (negb (existsb mutating (actions plan)))
            (ValueError "provider plan contains a forbidden implicit mutation");
      _ ← check (bool_decide (plan_claims plan = [])
                 || bool_decide (plan_claims plan = resource_claims m))
            (ValueError "provider plan cannot invent resource claims");
      Ok (set_claims (resource_claims m) plan)
  end.
End Core.

(** ** core.py: conflicts *)

Definition conflict {A} (one other where_ : string) : result A :=
  Err (ValueError ("extensions '" +:+ one +:+ "' and '" +:+ other +:+ "' conflict on " +:+ where_)).

(** One round of the loop over resource claims; the dictionary holds the last claim of each
    resource. *)
Definition claim_step (resources : gmap (string * string) (string * string))
    (x : string * ResourceClaim) : result (gmap (string * string) (string * string)) :=
  let '(owner, claim) := x in
  let key := (rc_scope claim, rc_resource claim) in
  match resources !! key with
  | Some (previous, mode) =>
      if (mode =? "exclusive") || (rc_mode claim =? "exclusive")
      then conflict previous owner
             (rc_scope claim +:+ ":" +:+ rc_resource claim +:+ " (" +:+ mode +:+ " versus "
              +:+ rc_mode claim +:+ ")")
      else Ok (<[key := (owner, rc_mode claim)]> resources)
  | None => Ok (<[key := (owner, rc_mode claim)]> resources)
  end.

(** [for plan in plans: for claim in plan.resource_claims]. *)
Definition all_claims (plans : list ProviderPlan) : list (string * ResourceClaim) :=
  concat ((λ p, (λ c, (extension_id p, c)) <$> plan_claims p) <$> plans).

(** The whole-field comparison of two plans, [other] before [plan]; the keys they share are
    looked at in [plan]'s order. *)
Definition legacy_pair (other plan : ProviderPlan) : result unit :=
  if negb (provider plan =? provider other)
     || bool_decide (is_Some (config_claims plan)) && bool_decide (is_Some (config_claims other))
  then Ok tt
  else
    fold_result (λ _ kv,
      match assoc kv.1 (generated_config other) with
      | Some v =>
          if py_eqb kv.2 v then Ok tt
          else conflict (extension_id other) (extension_id plan)
                 (provider plan +:+ "." +:+ kv.1)
      | None => Ok tt
      end) tt (generated_config plan).

(** [for index, plan in enumerate(plans): for other in plans[:index]]. *)
Fixpoint legacy_loop (before plans : list ProviderPlan) : result unit :=
  match plans with
  | [] => Ok tt
  | plan :: plans' =>
      _ ← fold_result (λ _ other, legacy_pair other plan) tt before;
      legacy_loop (before ++ [plan]) plans'
  end.

(** A path of non-empty strings. *)
Definition valid_path (p : list json) : option (list string) :=
  match p with
  | [] => None
  | _ => mapM (λ v, match v with JStr s => if s =? "" then None else Some s | _ => None end) p
  end.

Definition projected (p : ProviderPlan) : list ConfigClaim :=
  match config_claims p with
  | Some claims => claims
  | None => (λ kv, mkConfigClaim [JStr kv.1] kv.2) <$> generated_config p
  end.

Definition all_config_claims (plans : list ProviderPlan) : list (ProviderPlan * ConfigClaim) :=
  concat ((λ p, (λ c, (p, c)) <$> projected p) <$> plans).

Definition config_step (claims : gmap (list string) (string * json))
    (x : ProviderPlan * ConfigClaim) : result (gmap (list string) (string * json)) :=
  let '(plan, claim) := x in
  match valid_path (path claim) with
  | None => Err (ValueError "provider configuration claim needs a nonempty path")
  | Some segments =>
      let key := provider plan :: segments in
      match claims !! key with
      | Some (previous, value) =>
          if py_eqb value (cc_value claim)
          then Ok (<[key := (extension_id plan, cc_value claim)]> claims)
          else conflict previous (extension_id plan) (String.concat "." key)
      | None => Ok (<[key := (extension_id plan, cc_value claim)]> claims)
      end
  end.

(** *** Configuration requirements *)

(** A demand on a setting: who makes it, its least and, if any, its greatest value. *)
Record row := mkRow { r_owner : string; r_low : Z; r_high : option Z }.

Definition valid_requirement (r : ConfigurationRequirement)
    : option (list string * Z * option Z) :=
  segments ← req_path r ≫= valid_path;
  match minimum r, maximum r with
  | JInt low, JNull => if (low <? 1)%Z then None else Some (segments, low, None)
  | JInt low, JInt high =>
      if (low <? 1)%Z || (high <? low)%Z then None else Some (segments, low, Some high)
  | _, _ => None
  end.

Definition all_requirements (plans : list ProviderPlan)
    : list (ProviderPlan * ConfigurationRequirement) :=
  concat ((λ p, (λ r, (p, r)) <$> configuration_requirements p) <$> plans).

Definition group_step (grouped : gmap (list string) (list row))
    (x : ProviderPlan * ConfigurationRequirement) : result (gmap (list string) (list row)) :=
  let '(plan, requirement) := x in
  match valid_requirement requirement with
  | None => Err (ValueError
      "INVALID_CONFIGURATION_REQUIREMENT: positive integer interval required")
  | Some (segments, low, high) =>
      let key := provider plan :: segments in
      Ok (<[key := default [] (grouped !! key) ++ [mkRow (extension_id plan) low high]]> grouped)
  end.

(** [max(row[1] for row in rows)] and the least of the upper bounds. *)
Definition low_of (rows : list row) : Z := foldr Z.max 1%Z (r_low <$> rows).
Definition high_of (rows : list row) : option Z :=
  match omap r_high rows with [] => None | h :: hs => Some (foldr Z.min h hs) end.

Definition row_text (r : row) : string :=
  r_owner r +:+ " requires [" +:+ z_str (r_low r) +:+ ", "
    +:+ match r_high r with Some h => z_str h | None => "unbounded" end +:+ "]".

(** [sorted(rows, key=lambda row: (row[0], row[1], row[2] is None, row[2] or 0))]. *)
Definition row_leb (a b : string * Z * bool * Z) : bool :=
  let '(o1, l1, n1, h1) := a in
  let '(o2, l2, n2, h2) := b in
  if negb (o1 =? o2) then str_leb o1 o2
  else if negb (l1 =? l2)%Z then (l1 <=? l2)%Z
  else if negb (Bool.eqb n1 n2) then negb n1
  else (h1 <=? h2)%Z.

Definition row_key (r : row) : string * Z * bool * Z :=
  (r_owner r, r_low r, bool_decide (r_high r = None), default 0%Z (r_high r)).

Definition details_of (rows : list row) : string :=
  String.concat "; " (row_text <$> sort_by row_key row_leb rows).

(** A value is an integer of the interval. *)
Definition in_interval (low : Z) (high : option Z) (v : json) : bool :=
  match v with
  | JInt z => (low <=? z)%Z && match high with Some h => (z <=? h)%Z | None => true end
  | _ => false
  end.

Definition check_group (values : option (gmap (list string) json)) (key : list string)
    (rows : list row) : result unit :=
  let low := low_of rows in
  let high := high_of rows in
  let where_ := String.concat "." key in
  _ ← check (match high with Some h => (low <=? h)%Z | None => true end)
        (ValueError ("CONFIGURATION_CONSTRAINT_CONFLICT on " +:+ where_ +:+ ": "
           +:+ details_of rows));
  match values with
  | None => Ok tt
  | Some values =>
      let value := default JNull (values !! key) in
      check (in_interval low high value)
        (ValueError ("CONFIGURATION_REQUIREMENT_UNMET on " +:+ where_ +:+ ": actual="
           +:+ py_repr value +:+ "; " +:+ details_of rows))
  end.

Definition reject_configuration_requirements (plans : list ProviderPlan)
    (configuration_values : option (gmap (list string) json)) : result unit :=
  grouped ← fold_result group_step ∅ (all_requirements plans);
  fold_result (λ _ key, check_group configuration_values key (default [] (grouped !! key))) tt
    (sort_by id strs_leb (map_to_list grouped).*1).

Definition reject_conflicting_plans (plans : list ProviderPlan)
    (configuration_values : option (gmap (list string) json)) : result unit :=
  _ ← fold_result claim_step ∅ (all_claims plans);
  _ ← legacy_loop [] plans;
  _ ← fold_result config_step ∅ (all_config_claims plans);
  reject_configuration_requirements plans configuration_values.
