(* ===== verification/PlanConflicts.v ===== *)
(** * PlanConflicts: when provider plans may be activated together

    [reject_conflicting_plans] walks the plans with dictionaries that keep the last claim of
    each key.  Here it is shown to accept exactly the plans that are compatible in a sense that
    mentions no order: no exclusive resource is claimed twice, legacy plans agree on shared
    fields, claims on one setting agree, and the required intervals of each setting meet. *)

From S2P Require Import Prelude Effects Json JsonText JsonFacts Manifest ProviderPlans.
From S2P Require ContractParser.

Local Open Scope string_scope.
Local Open Scope list_scope.

(** ** Relations on all pairs of a list *)

(** [R] holds of any two elements, earlier one first. *)
Inductive pairwise {A} (R : A → A → Prop) : list A → Prop :=
  | pairwise_nil : pairwise R []
  | pairwise_cons x l : Forall (R x) l → pairwise R l → pairwise R (x :: l).

Lemma pairwise_snoc {A} (R : A → A → Prop) l x :
  pairwise R (l ++ [x]) ↔ pairwise R l ∧ Forall (λ y, R y x) l.
Proof.
  induction l as [|y l IH]; cbn.
  - split; [by repeat constructor|]. intros _. by repeat constructor.
  - split.
    + inversion 1 as [|? ? Hy Hl]; subst. apply IH in Hl as [Hl Hx].
      rewrite Forall_app, Forall_singleton in Hy. destruct Hy. by repeat constructor.
    + intros [H Hf]. inversion H; inversion Hf; subst. constructor; [|by apply IH].
      rewrite Forall_app, Forall_singleton. done.
Qed.

Lemma pairwise_impl {A} (R S : A → A → Prop) l :
  (∀ x y, x ∈ l → y ∈ l → R x y → S x y) → pairwise R l → pairwise S l.
Proof.
  intros HRS. induction 1 as [|x l Hx Hl IH]; constructor.
  - rewrite Forall_forall in *. intros y Hy. apply HRS; [by left|by right|auto].
  - apply IH. intros y z Hy Hz. apply HRS; by right.
Qed.

(** Symmetric relations do not see the order. *)
Lemma pairwise_perm {A} (R : A → A → Prop) l l' :
  (∀ x y, R x y → R y x) → l ≡ₚ l' → pairwise R l → pairwise R l'.
Proof.
  intros Hsym. induction 1 as [|x l l' Hp IH|x y l|l l' l'' _ IH1 _ IH2]; intros H.
  - constructor.
  - inversion H as [|? ? Hx Hl]; subst. constructor; [by rewrite <-Hp|auto].
  - inversion H as [|? ? Hy Hl]; subst. inversion Hl as [|? ? Hx Hl']; subst.
    inversion Hy; subst. constructor; [constructor; auto|by constructor].
  - auto.
Qed.

(** ** Folds that stop at an exception *)

Lemma fold_result_app {A B} (f : B → A → result B) b l k :
  fold_result f b (l ++ k) = b' ← fold_result f b l; fold_result f b' k.
Proof.
  revert b. induction l as [|x l IH]; intros b; [done|]. cbn.
  destruct (f b x) as [b'|e]; [apply IH|done].
Qed.

(** A fold of checks. *)
Lemma fold_checks {A} (f : A → result unit) l :
  fold_result (λ _ x, f x) tt l = Ok tt ↔ Forall (λ x, f x = Ok tt) l.
Proof.
  induction l as [|x l IH]; cbn; [by split; [constructor|]|]. rewrite Forall_cons, <-IH.
  rewrite result_bind_ok. split; [by intros ([] & ? & ?)|]. intros []. by exists tt.
Qed.

(** The loop both conflict checks are: a dictionary holds what the last element of each key
    brought, an element is compared with what its key holds.  With a transitive comparison it
    accepts exactly the lists whose elements agree pairwise wherever their keys agree. *)
Section Consistent.
Context {A K V : Type} `{Countable K}.
Context (key : A → option K) (val : A → V) (agree : V → V → bool)
  (step : gmap K V → A → result (gmap K V)).
Context (step_spec : ∀ m x m', step m x = Ok m' ↔
  ∃ k, key x = Some k ∧ m' = <[k := val x]> m
    ∧ match m !! k with Some v => agree v (val x) = true | None => True end).

Definition consistent (x y : A) : Prop :=
  ∀ k, key x = Some k → key y = Some k → agree (val x) (val y) = true.

(** The values that occur compare transitively. *)
Context (P : V → Prop).
Context (agree_trans : ∀ u v w, P u → P v → P w →
  agree u v = true → agree v w = true → agree u w = true).

Definition last_of (k : K) (l : list A) : option A :=
  find_last (λ x, bool_decide (key x = Some k)) l.

Lemma last_of_snoc k l x :
  last_of k (l ++ [x]) = if bool_decide (key x = Some k) then Some x else last_of k l.
Proof. unfold last_of, find_last. by rewrite rev_app_distr. Qed.

Lemma consistent_fold l :
  Forall (λ x, P (val x)) l →
  (∃ m, fold_result step ∅ l = Ok m ∧ ∀ k, m !! k = val <$> last_of k l)
  ∨ (∀ m, fold_result step ∅ l ≠ Ok m)
    ∧ ¬ (Forall (λ x, is_Some (key x)) l ∧ pairwise consistent l).
Proof.
  induction l as [|x l IH] using rev_ind; intros HP; [left; by exists ∅|].
  rewrite Forall_app, Forall_singleton in HP. destruct HP as [HP Hx].
  rewrite fold_result_app. destruct (IH HP) as [(m & Hm & Hl)|[Hm Hn]].
  - rewrite Hm. cbn. destruct (step m x) as [m'|e] eqn:E.
    + left. apply step_spec in E as (k & Hk & -> & _). eexists. split; [done|].
      intros k'. rewrite last_of_snoc. case_bool_decide as Hk'.
      * assert (k' = k) as -> by congruence. by rewrite lookup_insert_eq.
      * rewrite lookup_insert_ne by congruence. apply Hl.
    + right. split; [done|]. intros [Hsome Hpw]. apply pairwise_snoc in Hpw as [_ Hpw].
      rewrite Forall_app, Forall_singleton in Hsome. destruct Hsome as [_ [k Hk]].
      assert (step m x = Ok (<[k := val x]> m)) as Eok; [|congruence].
      apply step_spec. exists k. split; [done|]. split; [done|]. rewrite Hl.
      destruct (last_of k l) as [y|] eqn:Ey; cbn; [|done].
      apply find_last_Some in Ey as [Hy Ey]. reflect. rewrite Forall_forall in Hpw.
      by apply (Hpw y Hy k).
  - right. split.
    + intros m'. destruct (fold_result step ∅ l) as [m|e]; [by destruct (Hm m)|done].
    + intros [Hsome Hpw]. apply Hn. apply pairwise_snoc in Hpw as [Hpw _].
      rewrite Forall_app in Hsome. by destruct Hsome.
Qed.

Lemma consistent_keys l m :
  fold_result step ∅ l = Ok m → Forall (λ x, is_Some (key x)) l.
Proof.
  revert m. induction l as [|x l IH] using rev_ind; intros m; [constructor|].
  rewrite fold_result_app. intros (m0 & Hm & Hx)%result_bind_ok. cbn in Hx.
  apply result_bind_ok in Hx as (m1 & (k & Hk & _)%step_spec & _).
  apply Forall_app. split; [by eapply IH|]. constructor; [by eexists|done].
Qed.

(** An element agrees with the last one of its key, unless it is that one. *)
Lemma last_of_agrees l y k :
  pairwise consistent l → y ∈ l → key y = Some k →
  ∃ z, last_of k l = Some z ∧ z ∈ l ∧ (y = z ∨ agree (val y) (val z) = true).
Proof.
  induction l as [|x l IH] using rev_ind; intros Hpw Hy Hk; [by apply elem_of_nil in Hy|].
  apply pairwise_snoc in Hpw as [Hpw Hx]. rewrite last_of_snoc. case_bool_decide as Hkx.
  - exists x. split; [done|]. split; [apply elem_of_app; right; by left|].
    apply elem_of_app in Hy as [Hy|Hy%list_elem_of_singleton]; [right|by left].
    rewrite Forall_forall in Hx. by apply (Hx y Hy k).
  - apply elem_of_app in Hy as [Hy|Hy%list_elem_of_singleton]; [|congruence].
    destruct (IH Hpw Hy Hk) as (z & ? & ? & ?). exists z.
    split; [done|]. split; [apply elem_of_app; by left|done].
Qed.

Lemma consistent_pairwise l m :
  Forall (λ x, P (val x)) l → fold_result step ∅ l = Ok m →
  pairwise consistent l ∧ ∀ k, m !! k = val <$> last_of k l.
Proof.
  revert m. induction l as [|x l IH] using rev_ind; intros m HP.
  { intros [= <-]. split; [constructor|done]. }
  rewrite Forall_app, Forall_singleton in HP. destruct HP as [HP Hx].
  rewrite fold_result_app. intros (m0 & Hm & Hs)%result_bind_ok. cbn in Hs.
  apply result_bind_ok in Hs as (m1 & (k & Hk & -> & Hag)%step_spec & [= <-]).
  destruct (IH m0 HP Hm) as [Hpw Hl]. rewrite Forall_forall in HP. split.
  - apply pairwise_snoc. split; [done|]. apply Forall_forall. intros y Hy k' Hky Hkx.
    assert (k' = k) as -> by congruence. rewrite Hl in Hag.
    destruct (last_of_agrees l y k Hpw Hy Hky) as (z & Ez & Hz & [->|Hyz]); rewrite Ez in Hag;
      cbn in Hag; [done|]. apply (agree_trans _ (val z)); auto.
  - intros k'. rewrite last_of_snoc. case_bool_decide as Hk'.
    + assert (k' = k) as -> by congruence. by rewrite lookup_insert_eq.
    + rewrite lookup_insert_ne by congruence. apply Hl.
Qed.

Lemma consistent_iff l :
  Forall (λ x, P (val x)) l →
  (∃ m, fold_result step ∅ l = Ok m) ↔
  Forall (λ x, is_Some (key x)) l ∧ pairwise consistent l.
Proof.
  intros HP. split.
  - intros [m Hm]. split; [by eapply consistent_keys|by eapply consistent_pairwise].
  - intros Hc. destruct (consistent_fold l HP) as [(m & Hm & _)|[_ Hn]]; [by exists m|done].
Qed.
End Consistent.

(** ** Compatible plans *)

Definition resource_key (x : string * ResourceClaim) : string * string :=
  (rc_scope x.2, rc_resource x.2).

(** Two claims on one resource: neither is exclusive. *)
Definition share (x y : string * ResourceClaim) : Prop :=
  resource_key x = resource_key y → rc_mode x.2 ≠ "exclusive" ∧ rc_mode y.2 ≠ "exclusive".

(** Two plans of one provider, not both projected, agree on the fields they share. *)
Definition fields_agree (p q : ProviderPlan) : Prop :=
  provider p = provider q → config_claims p = None ∨ config_claims q = None →
  ∀ k v w, (k, v) ∈ generated_config p → (k, w) ∈ generated_config q → py_eqb v w = true.

Definition config_key (x : ProviderPlan * ConfigClaim) : option (list string) :=
  cons (provider x.1) <$> valid_path (path x.2).

(** Two claims on one setting have equal values. *)
Definition settings_agree (x y : ProviderPlan * ConfigClaim) : Prop :=
  ∀ k, config_key x = Some k → config_key y = Some k → py_eqb (cc_value x.2) (cc_value y.2) = true.

(** The demand a requirement makes on its setting. *)
Definition demands (x : ProviderPlan * ConfigurationRequirement) (k : list string) (z : Z) : Prop :=
  ∃ segments low high, valid_requirement x.2 = Some (segments, low, high)
    ∧ k = provider x.1 :: segments
    ∧ (low ≤ z)%Z ∧ (∀ h, high = Some h → (z ≤ h)%Z).

Definition requirement_key (x : ProviderPlan * ConfigurationRequirement) : option (list string) :=
  match valid_requirement x.2 with Some (segments, _, _) => Some (provider x.1 :: segments) | None => None end.

(** Every demanded setting has a value all demands on it admit: any when no values are given,
    the given one otherwise. *)
Definition requirements_met (xs : list (ProviderPlan * ConfigurationRequirement))
    (values : option (gmap (list string) json)) : Prop :=
  Forall (λ x, is_Some (requirement_key x)) xs
  ∧ ∀ x k, x ∈ xs → requirement_key x = Some k →
      ∃ z, (∀ y, y ∈ xs → requirement_key y = Some k → demands y k z)
        ∧ ∀ vs, values = Some vs → vs !! k = Some (JInt z).

Record compatible_plans (plans : list ProviderPlan) (values : option (gmap (list string) json))
    : Prop := {
  cp_resources : pairwise share (all_claims plans);
  cp_fields : pairwise fields_agree plans;
  cp_paths : Forall (λ x, is_Some (config_key x)) (all_config_claims plans);
  cp_settings : pairwise settings_agree (all_config_claims plans);
  cp_requirements : requirements_met (all_requirements plans) values;
}.

(** The plans are Python objects: their dictionaries have no repeated key. *)
Definition plan_wf (p : ProviderPlan) : Prop :=
  keys_unique (JObj (generated_config p)) = true
  ∧ ∀ claims, config_claims p = Some claims → Forall (λ c, keys_unique (cc_value c) = true) claims.

(** ** Resources *)

Lemma claim_step_spec m x m' : claim_step m x = Ok m' ↔
  ∃ k, Some (resource_key x) = Some k ∧ m' = <[k := (x.1, rc_mode x.2)]> m
    ∧ match m !! k with
      | Some v => negb ((v.2 =? "exclusive") || (rc_mode x.2 =? "exclusive")) = true
      | None => True
      end.
Proof.
  destruct x as [owner claim]. unfold claim_step. cbn.
  change (rc_scope claim, rc_resource claim) with (resource_key (owner, claim)).
  split.
  - intros Hs. exists (resource_key (owner, claim)). split; [done|].
    destruct (m !! _) as [[previous mode]|]; [|by simplify_eq].
    cbn. destruct (_ || _); [done|]. by simplify_eq.
  - intros (k & [= <-] & -> & Hm). destruct (m !! _) as [[previous mode]|]; [|done].
    cbn in Hm. apply negb_true_iff in Hm. by rewrite Hm.
Qed.

Lemma claims_ok plans :
  (∃ m, fold_result claim_step ∅ (all_claims plans) = Ok m) ↔ pairwise share (all_claims plans).
Proof.
  rewrite (consistent_iff (λ x, Some (resource_key x)) (λ x, (x.1, rc_mode x.2))
    (λ v w, negb ((v.2 =? "exclusive") || (w.2 =? "exclusive"))) claim_step claim_step_spec
    (λ _, True)).
  - assert (∀ x y, consistent (λ x, Some (resource_key x)) (λ x, (x.1, rc_mode x.2))
      (λ v w, negb ((v.2 =? "exclusive") || (w.2 =? "exclusive"))) x y ↔ share x y) as Hiff.
    { intros x y. unfold consistent, share. cbn. split.
      - intros Hc E. specialize (Hc _ eq_refl (f_equal Some (eq_sym E))). by reflect.
      - intros Hs k Ex Ey. destruct (Hs ltac:(congruence)) as [H1 H2].
        apply negb_true_iff, orb_false_iff. by rewrite !String.eqb_neq. }
    split.
    + intros [_ Hp]. eapply pairwise_impl; [|exact Hp]. intros x y _ _. by apply Hiff.
    + intros Hp. split; [by apply Forall_true|].
      eapply pairwise_impl; [|exact Hp]. intros x y _ _. by apply Hiff.
  - intros u v w _ _ _. rewrite !negb_true_iff, !orb_false_iff. tauto.
  - by apply Forall_true.
Qed.

(** ** Legacy fields *)

Lemma field_unique p k v : plan_wf p → (k, v) ∈ generated_config p → keys_unique v = true.
Proof.
  intros [[_ Hp]%keys_unique_obj _] Hin. rewrite Forall_forall in Hp. by apply (Hp _ Hin).
Qed.

Ltac field_value := eapply field_unique; [|eassumption]; done.

Lemma fields_agree_sym p q : plan_wf p → plan_wf q → fields_agree p q → fields_agree q p.
Proof.
  intros Hp Hq Ha E Hn k v w Hv Hw. apply py_eqb_sym.
  - field_value.
  - field_value.
  - apply (Ha (eq_sym E) ltac:(tauto) k); done.
Qed.

Lemma legacy_pair_ok p q : plan_wf p → plan_wf q → legacy_pair p q = Ok tt ↔ fields_agree p q.
Proof.
  intros Hp Hq. unfold legacy_pair, fields_agree.
  destruct (String.eqb_spec (provider q) (provider p)) as [Epr|Epr]; cbn.
  2:{ split; [congruence|done]. }
  destruct (config_claims p) as [cp|] eqn:Ecp, (config_claims q) as [cq|] eqn:Ecq; cbn.
  { split; [|done]. intros _ _ [|]; done. }
  all: rewrite fold_checks, Forall_forall; split;
    [intros Hall _ _ k v w Hv Hw; specialize (Hall _ Hw); cbn in Hall;
     rewrite (assoc_nodup k v) in Hall; [|by apply keys_unique_obj, Hp|done];
     destruct (py_eqb w v) eqn:E; [|done]; apply py_eqb_sym; [field_value..|done]
    |intros Ha [k w] Hw; cbn; destruct (assoc k (generated_config p)) as [v|] eqn:Ev; [|done];
     apply assoc_elem_of in Ev; rewrite (py_eqb_sym v w); [done|field_value..|];
     by apply (Ha (eq_sym Epr) ltac:(tauto) k)].
Qed.

Lemma legacy_loop_ok before plans :
  Forall plan_wf (before ++ plans) →
  pairwise fields_agree before →
  legacy_loop before plans = Ok tt ↔ pairwise fields_agree (before ++ plans).
Proof.
  revert before. induction plans as [|p plans IH]; intros before Hwf Hb; cbn.
  { by rewrite app_nil_r. }
  replace (before ++ p :: plans) with ((before ++ [p]) ++ plans) in * by by rewrite <-app_assoc.
  assert (fold_result (λ _ other, legacy_pair other p) tt before = Ok tt
    ↔ Forall (λ q, fields_agree q p) before) as Hpairs.
  { rewrite fold_checks, !Forall_forall. rewrite !Forall_app, Forall_singleton in Hwf.
    destruct Hwf as [[Hwf Hp] _]. rewrite Forall_forall in Hwf.
    split; intros H q Hq; (apply legacy_pair_ok; [by apply Hwf|done|by apply H]). }
  rewrite result_bind_ok. split.
  - intros ([] & Hf%Hpairs & Hl). apply IH in Hl; [done..|]. by apply pairwise_snoc.
  - intros Hpw. assert (pairwise fields_agree (before ++ [p])) as Hbp.
    { clear -Hpw. induction (before ++ [p]) as [|x l IHl]; [constructor|]. cbn in Hpw.
      inversion Hpw as [|? ? Hx Hl]; subst. apply Forall_app in Hx as [Hx _].
      constructor; [done|by apply IHl]. }
    exists tt. split; [apply Hpairs; by apply pairwise_snoc in Hbp as [_ ?]|by apply IH].
Qed.

(** ** Settings *)

Lemma config_step_spec m x m' : config_step m x = Ok m' ↔
  ∃ k, config_key x = Some k ∧ m' = <[k := (extension_id x.1, cc_value x.2)]> m
    ∧ match m !! k with Some v => py_eqb v.2 (cc_value x.2) = true | None => True end.
Proof.
  destruct x as [p claim]. unfold config_step, config_key. cbn [fst snd].
  destruct (valid_path (path claim)) as [segments|]; cbn; [|split; [done|by intros (? & ? & _)]].
  split.
  - intros Hs. eexists. split; [done|].
    destruct (m !! _) as [[previous value]|]; [|by simplify_eq].
    cbn. destruct (py_eqb _ _); [by simplify_eq|done].
  - intros (k & [= <-] & -> & Hm). destruct (m !! _) as [[previous value]|]; [|done].
    cbn in Hm. by rewrite Hm.
Qed.

Lemma config_claim_unique plans x :
  Forall plan_wf plans → x ∈ all_config_claims plans → keys_unique (cc_value x.2) = true.
Proof.
  intros Hwf Hx. unfold all_config_claims in Hx.
  apply list_elem_of_In, in_concat in Hx as (l & Hl & Hx).
  apply list_elem_of_In, list_elem_of_fmap in Hl as (p & -> & Hp).
  apply list_elem_of_In, list_elem_of_fmap in Hx as (c & -> & Hc). cbn.
  rewrite Forall_forall in Hwf. pose proof (Hwf p Hp) as Hpw. unfold projected in Hc.
  destruct (config_claims p) as [claims|] eqn:Ecl.
  - destruct Hpw as [_ Hcl]. specialize (Hcl _ Ecl). rewrite Forall_forall in Hcl. auto.
  - apply list_elem_of_fmap in Hc as ([k v] & -> & Hkv). by eapply (field_unique p).
Qed.

Lemma settings_ok plans :
  Forall plan_wf plans →
  (∃ m, fold_result config_step ∅ (all_config_claims plans) = Ok m) ↔
  Forall (λ x, is_Some (config_key x)) (all_config_claims plans)
  ∧ pairwise settings_agree (all_config_claims plans).
Proof.
  intros Hwf. rewrite (consistent_iff config_key (λ x, (extension_id x.1, cc_value x.2))
    (λ v w, py_eqb v.2 w.2) config_step config_step_spec (λ v, keys_unique v.2 = true)).
  - done.
  - intros u v w. apply py_eqb_trans.
  - apply Forall_forall. intros x Hx. by eapply config_claim_unique.
Qed.

(** ** Requirements *)

Definition row_of (k : list string) (x : ProviderPlan * ConfigurationRequirement) : option row :=
  match valid_requirement x.2 with
  | Some (segments, low, high) =>
      if bool_decide (k = provider x.1 :: segments)
      then Some (mkRow (extension_id x.1) low high) else None
  | None => None
  end.

Lemma grouped_rows xs m :
  fold_result group_step ∅ xs = Ok m →
  Forall (λ x, is_Some (requirement_key x)) xs
  ∧ ∀ k, m !! k = match omap (row_of k) xs with [] => None | rows => Some rows end.
Proof.
  revert m. induction xs as [|x xs IH] using rev_ind; intros m.
  { intros [= <-]. by split. }
  rewrite fold_result_app. intros (m0 & Hm & Hs)%result_bind_ok. cbn in Hs.
  apply result_bind_ok in Hs as (m1 & Hs & [= <-]). destruct (IH m0 Hm) as [Hall Hl].
  unfold group_step in Hs. destruct x as [p r].
  destruct (valid_requirement r) as [[[segments low] high]|] eqn:Er; [|done].
  injection Hs as <-. split.
  - apply Forall_app. split; [done|]. constructor; [|done]. unfold requirement_key. cbn.
    rewrite Er. by eexists.
  - intros k. rewrite omap_app. cbn. unfold row_of at 2. cbn. rewrite Er. rewrite lookup_insert.
    case_decide as Hk; [subst|].
    + rewrite Hl, bool_decide_true by done. by destruct (omap _ xs).
    + rewrite bool_decide_false, app_nil_r by congruence. apply Hl.
Qed.

Lemma group_total xs :
  Forall (λ x, is_Some (requirement_key x)) xs → ∀ m, ∃ m', fold_result group_step m xs = Ok m'.
Proof.
  induction 1 as [|[p r] xs [k Hk] _ IH]; intros m; [by eexists|]. cbn.
  unfold requirement_key in Hk. cbn in Hk.
  destruct (valid_requirement r) as [[[segments low] high]|]; [|done]. apply IH.
Qed.

Definition admits (z : Z) (r : row) : Prop :=
  (r_low r ≤ z)%Z ∧ ∀ h, r_high r = Some h → (z ≤ h)%Z.

Lemma low_of_le rows z : (low_of rows ≤ z)%Z ↔ (1 ≤ z)%Z ∧ Forall (λ r, (r_low r ≤ z)%Z) rows.
Proof.
  unfold low_of. induction rows as [|r rows IH]; cbn.
  - split; [done|by intros []].
  - rewrite Forall_cons, Z.max_lub_iff, IH. tauto.
Qed.

Lemma high_of_ge rows z :
  (∀ h, high_of rows = Some h → (z ≤ h)%Z) ↔
  Forall (λ r, ∀ h, r_high r = Some h → (z ≤ h)%Z) rows.
Proof.
  assert (∀ h l, (z ≤ foldr Z.min h l)%Z ↔ Forall (λ h, (z ≤ h)%Z) (h :: l)) as Hmin.
  { intros h l. rewrite Forall_cons. induction l as [|x l IH]; cbn.
    - split; [by split|by intros []].
    - rewrite Z.min_glb_iff, IH, Forall_cons. tauto. }
  assert (Forall (λ r, ∀ h, r_high r = Some h → (z ≤ h)%Z) rows
    ↔ Forall (λ h, (z ≤ h)%Z) (omap r_high rows)) as ->.
  { rewrite !Forall_forall. setoid_rewrite list_elem_of_omap. naive_solver. }
  unfold high_of. destruct (omap r_high rows) as [|h hs].
  - split; [constructor|done].
  - rewrite <-Hmin. split; [intros H; by apply H|by intros ? ? [= <-]].
Qed.

Lemma admits_all rows z :
  rows ≠ [] → Forall (λ r, (1 ≤ r_low r)%Z) rows →
  Forall (admits z) rows ↔
  (low_of rows ≤ z)%Z ∧ ∀ h, high_of rows = Some h → (z ≤ h)%Z.
Proof.
  intros Hne H1. rewrite low_of_le, high_of_ge.
  assert (Forall (admits z) rows ↔ Forall (λ r, (r_low r ≤ z)%Z) rows
    ∧ Forall (λ r, ∀ h, r_high r = Some h → (z ≤ h)%Z) rows) as ->.
  { unfold admits. by rewrite Forall_and. }
  destruct rows as [|r rows]; [done|]. inversion H1; subst. rewrite !Forall_cons.
  split; [|tauto]. intros [[? ?] ?]. assert (1 ≤ z)%Z by lia. tauto.
Qed.

Lemma check_group_ok values k rows :
  rows ≠ [] → Forall (λ r, (1 ≤ r_low r)%Z) rows →
  check_group values k rows = Ok tt ↔
  ∃ z, Forall (admits z) rows ∧ ∀ vs, values = Some vs → vs !! k = Some (JInt z).
Proof.
  intros Hne H1. unfold check_group. rewrite check_bind.
  setoid_rewrite (admits_all rows _ Hne H1). destruct values as [vs|].
  - rewrite check_ok. split.
    + intros [_ Hv]. destruct (vs !! k) as [[| |z| | |]|] eqn:Ez; try done. cbn in Hv.
      apply andb_true_iff in Hv as [Hl Hh]. reflect. exists z. split.
      * split; [done|]. intros h Eh. rewrite Eh in Hh. by reflect.
      * by intros ? [= <-].
    + intros (z & [Hl Hh] & Hz). rewrite (Hz _ eq_refl). cbn.
      apply Z.leb_le in Hl. rewrite Hl. destruct (high_of rows) as [h|]; [|done].
      specialize (Hh h eq_refl). apply Z.leb_le in Hl. cbn. rewrite !Z.leb_le. lia.
  - split.
    + intros [Hc _]. exists (low_of rows). split; [|done]. split; [done|].
      intros h Eh. rewrite Eh in Hc. by reflect.
    + intros (z & [Hl Hh] & _). split; [|done].
      destruct (high_of rows) as [h|]; [|done]. specialize (Hh h eq_refl). apply Z.leb_le. lia.
Qed.

Lemma valid_requirement_low r segments low high :
  valid_requirement r = Some (segments, low, high) → (1 ≤ low)%Z.
Proof.
  unfold valid_requirement. intros (segs & _ & Hr)%bind_Some.
  destruct (minimum r), (maximum r); try done; revert Hr; case_match eqn:E; try done;
    intros [= <- <- <-]; reflect; lia.
Qed.

Lemma rows_admit xs k z :
  Forall (λ x, is_Some (requirement_key x)) xs →
  Forall (admits z) (omap (row_of k) xs) ↔
  ∀ y, y ∈ xs → requirement_key y = Some k → demands y k z.
Proof.
  intros Hall. rewrite !Forall_forall in *. setoid_rewrite list_elem_of_omap.
  unfold row_of, requirement_key, demands, admits. split.
  - intros H y Hy Hk. destruct (valid_requirement y.2) as [[[segments low] high]|] eqn:Er; [|done].
    injection Hk as <-. exists segments, low, high.
    destruct (H (mkRow (extension_id y.1) low high)) as [Hl Hh]; [|done].
    exists y. split; [done|]. by rewrite Er, bool_decide_true.
  - intros H r (y & Hy & Er). specialize (H y Hy).
    destruct (valid_requirement y.2) as [[[segments low] high]|]; [|done].
    case_bool_decide as Ek; [|done]. injection Er as <-. cbn.
    destruct (H (f_equal Some (eq_sym Ek))) as (? & ? & ? & [= <- <- <-] & _ & ?). done.
Qed.

Lemma row_of_key xs k x :
  x ∈ xs → requirement_key x = Some k → omap (row_of k) xs ≠ [].
Proof.
  intros Hx Hk E. unfold requirement_key in Hk.
  destruct (valid_requirement x.2) as [[[segments low] high]|] eqn:Er; [|done].
  injection Hk as <-.
  assert (mkRow (extension_id x.1) low high ∈ omap (row_of (provider x.1 :: segments)) xs) as Hin.
  { apply list_elem_of_omap. exists x. split; [done|]. unfold row_of.
    by rewrite Er, bool_decide_true. }
  rewrite E in Hin. by apply elem_of_nil in Hin.
Qed.

Lemma rows_positive xs k : Forall (λ r, (1 ≤ r_low r)%Z) (omap (row_of k) xs).
Proof.
  apply Forall_forall. intros r (x & _ & Hr)%list_elem_of_omap. unfold row_of in Hr.
  destruct (valid_requirement x.2) as [[[segments low] high]|] eqn:Er; [|done].
  case_bool_decide; [|done]. injection Hr as <-. by eapply valid_requirement_low.
Qed.

(** The grouped keys are those of the requirements, with their rows. *)
Lemma grouped_keys xs m k :
  fold_result group_step ∅ xs = Ok m →
  default [] (m !! k) = omap (row_of k) xs
  ∧ (k ∈ sort_by id strs_leb (map_to_list m).*1 ↔ ∃ x, x ∈ xs ∧ requirement_key x = Some k).
Proof.
  intros [Hall Hl]%grouped_rows. specialize (Hl k). split.
  { rewrite Hl. by destruct (omap _ xs). }
  rewrite elem_of_sort_by, list_elem_of_fmap. split.
  - intros ([k' rows] & Ek & Hk%elem_of_map_to_list). cbn in Ek. subst k'. rewrite Hl in Hk.
    destruct (omap _ xs) as [|r rs] eqn:E; [done|].
    assert (r ∈ omap (row_of k) xs) as (x & Hx & Hr)%list_elem_of_omap by (rewrite E; left).
    exists x. split; [done|]. unfold row_of in Hr. unfold requirement_key.
    destruct (valid_requirement x.2) as [[[? ?] ?]|]; [|done].
    case_bool_decide; [by subst|done].
  - intros (x & Hx & Hk). pose proof (row_of_key xs k x Hx Hk) as Hne.
    destruct (omap (row_of k) xs) as [|r rs]; [done|].
    exists (k, r :: rs). split; [done|]. by apply elem_of_map_to_list.
Qed.

Lemma requirements_ok plans values :
  reject_configuration_requirements plans values = Ok tt ↔
  requirements_met (all_requirements plans) values.
Proof.
  unfold reject_configuration_requirements, requirements_met.
  set (xs := all_requirements plans). rewrite result_bind_ok.
  assert (∀ m k, fold_result group_step ∅ xs = Ok m → (∃ x, x ∈ xs ∧ requirement_key x = Some k) →
    Forall (λ x, is_Some (requirement_key x)) xs →
    check_group values k (default [] (m !! k)) = Ok tt ↔
    ∃ z, (∀ y, y ∈ xs → requirement_key y = Some k → demands y k z)
      ∧ ∀ vs, values = Some vs → vs !! k = Some (JInt z)) as Hgroup.
  { intros m k Hm (x & Hx & Hk) Hall. destruct (grouped_keys xs m k Hm) as [-> _].
    rewrite check_group_ok; [|by eapply row_of_key|apply rows_positive].
    split; intros (z & Hz & Hv); exists z; (split; [by apply rows_admit|done]). }
  split.
  - intros (m & Hm & Hf). pose proof (grouped_rows _ _ Hm) as [Hall _]. split; [done|].
    intros x k Hx Hk. apply (Hgroup m k Hm); [by eexists|done|].
    apply fold_checks in Hf. rewrite Forall_forall in Hf. apply Hf.
    apply (grouped_keys xs m k Hm). by eexists.
  - intros [Hall Hmet]. destruct (group_total xs Hall ∅) as [m Hm]. exists m. split; [done|].
    apply fold_checks, Forall_forall. intros k Hk. apply (grouped_keys xs m k Hm) in Hk.
    apply (Hgroup m k Hm Hk Hall). destruct Hk as (x & Hx & Hk). by apply (Hmet x).
Qed.

(** ** Acceptance *)

Lemma conflicts_ok plans values :
  Forall plan_wf plans →
  reject_conflicting_plans plans values = Ok tt ↔ compatible_plans plans values.
Proof.
  intros Hwf. unfold reject_conflicting_plans. split.
  - intros (m & Hm & H1)%result_bind_ok. apply result_bind_ok in H1 as ([] & Hl & H1).
    apply result_bind_ok in H1 as (m' & Hm' & Hr).
    destruct (proj1 (settings_ok plans Hwf) (ex_intro _ m' Hm')) as [Hk Hs]. constructor.
    + apply claims_ok. by eexists.
    + by apply (legacy_loop_ok [] plans) in Hl; [|done|constructor].
    + done.
    + done.
    + by apply requirements_ok.
  - intros [Hc Hf Hk Hs Hr]. apply claims_ok in Hc as [m ->]. cbn [mbind result_bind].
    rewrite (proj2 (legacy_loop_ok [] plans Hwf ltac:(constructor)) Hf). cbn [mbind result_bind].
    destruct (proj2 (settings_ok plans Hwf) (conj Hk Hs)) as [m' ->]. cbn [mbind result_bind].
    by apply requirements_ok.
Qed.

(** ** Order *)

Lemma flatten_perm {A B} (f : A → list B) l l' : l ≡ₚ l' → concat (f <$> l) ≡ₚ concat (f <$> l').
Proof.
  induction 1 as [|x l l' _ IH|x y l|l l' l'' _ IH1 _ IH2]; cbn; [done|by rewrite IH| |by etrans].
  rewrite !app_assoc. f_equiv. apply Permutation_app_comm.
Qed.

Lemma share_sym x y : share x y → share y x.
Proof. intros Hs E. by destruct (Hs (eq_sym E)). Qed.

(** A relation that is symmetric on the list's elements. *)
Lemma pairwise_perm_on {A} (R : A → A → Prop) l l' :
  (∀ x y, x ∈ l → y ∈ l → R x y → R y x) → l ≡ₚ l' → pairwise R l → pairwise R l'.
Proof.
  intros Hsym Hp Hpw.
  apply (pairwise_impl (λ x y, x ∈ l ∧ y ∈ l → R x y)).
  { intros x y Hx Hy HR. apply HR. by rewrite Hp. }
  apply (pairwise_perm _ l); [|done|].
  - intros x y HR [Hy Hx]. apply Hsym; [done..|]. by apply HR.
  - eapply pairwise_impl; [|exact Hpw]. intros x y Hx Hy HR _. done.
Qed.

Lemma compatible_perm plans plans' values :
  Forall plan_wf plans → plans ≡ₚ plans' →
  compatible_plans plans values → compatible_plans plans' values.
Proof.
  intros Hwf Hp [Hc Hf Hk Hs [Hr Hm]].
  assert (all_claims plans ≡ₚ all_claims plans') as Pc by by apply flatten_perm.
  assert (all_config_claims plans ≡ₚ all_config_claims plans') as Ps by by apply flatten_perm.
  assert (all_requirements plans ≡ₚ all_requirements plans') as Pr by by apply flatten_perm.
  constructor.
  - by apply (pairwise_perm _ _ _ share_sym Pc).
  - apply (pairwise_perm_on _ plans); [|done|done]. rewrite Forall_forall in Hwf.
    intros p q Hpin Hqin. by apply fields_agree_sym; apply Hwf.
  - by rewrite <-Ps.
  - apply (pairwise_perm_on _ (all_config_claims plans)); [|done|done].
    intros x y Hx Hy Ha k Ey Ex. apply py_eqb_sym; [by eapply config_claim_unique..|].
    by apply (Ha k).
  - split; [by rewrite <-Pr|]. intros x k Hx Hkx. rewrite <-Pr in Hx.
    destruct (Hm x k Hx Hkx) as (z & Hz & Hv). exists z. split; [|done].
    intros y Hy. rewrite <-Pr in Hy. by apply Hz.
Qed.

(** C22. Plans may be activated together exactly when they are compatible, in whatever order they
    come: no two claims name one resource unless both share it, a legacy plan and its peers of
    the same provider agree on every shared field, claims on one setting have equal values, all
    paths and intervals are well formed, and for every setting some value (the configured one,
    when values are given) satisfies all the intervals demanded of it. *)
Theorem conflicts_iff plans plans' values :
  Forall plan_wf plans → plans ≡ₚ plans' →
  reject_conflicting_plans plans' values = Ok tt ↔ compatible_plans plans values.
Proof.
  intros Hwf Hp. rewrite conflicts_ok by by rewrite <-Hp.
  split; apply compatible_perm; [by rewrite <-Hp|by symmetry|done|done].
Qed.
