(* ===== verification/LifecycleProofs.v ===== *)
(** * LifecycleProofs: what a status claims and what a plan may do

    [status_for] and [plan_for] of src/vllm_hust_ext/core.py for every provider and every source
    of runtime evidence, and the composition of manifests, plans and the conflict check. *)

From S2P Require Import Prelude Effects Json JsonText JsonFacts Manifest ManifestProofs ProviderPlans PlanConflicts.
From S2P Require ContractParser CompilerTheorems.

Local Open Scope string_scope.
Local Open Scope list_scope.

Section Statuses.
Context (find_provider : string → bool → result HostProvider)
  (runtime_effective_evidence : InstalledBundle → result (option string)).

(** ** Statuses *)

Section States.
Context (c : ProviderCheck) (blocked : bool) (e : ExtensionConfig) (effective : bool).
Notation states := (states_of c blocked e effective).

(** Membership of a state in the concatenation the code builds. *)
Local Ltac in_states :=
  unfold states_of; rewrite !elem_of_app; intros Hin; destruct_or! Hin;
  repeat case_match; set_solver.

Lemma runtime_effective_in :
  LifecycleState.RUNTIME_EFFECTIVE ∈ states → enabled e = true ∧ effective = true.
Proof. in_states. Qed.

Lemma enabled_in : LifecycleState.ENABLED ∈ states ↔ enabled e = true.
Proof. split; [in_states|]. intros He. unfold states_of. rewrite He. set_solver. Qed.

Lemma compatible_in : LifecycleState.COMPATIBLE ∈ states ↔ compatible c = Some true.
Proof. split; [in_states|]. intros He. unfold states_of. rewrite He. set_solver. Qed.

Lemma incompatible_in : LifecycleState.INCOMPATIBLE ∈ states ↔ compatible c = Some false.
Proof. split; [in_states|]. intros He. unfold states_of. rewrite He. set_solver. Qed.

Lemma blocked_degraded : blocked = true → LifecycleState.DEGRADED ∈ states.
Proof. intros ->. unfold states_of. rewrite orb_true_r. set_solver. Qed.
End States.

Lemma status_for_cases b e inc s :
  status_for find_provider runtime_effective_evidence b e inc = Ok s →
  (∃ exn, checked_provider find_provider b e inc = Err exn ∧ is_value_error exn = true
     ∧ states s = [LifecycleState.INSTALLED; LifecycleState.DISCOVERED;
                   LifecycleState.INCOMPATIBLE])
  ∨ ∃ p c blocker effective,
      checked_provider find_provider b e inc = Ok (p, c)
      ∧ activation_blocker (manifest b) = Ok blocker
      ∧ (if enabled e then runtime_effective_evidence b else Ok None) = Ok effective
      ∧ states s = states_of c (bool_decide (is_Some blocker)) e
          (bool_decide (is_Some effective))
      ∧ st_evidence s = evidence c ++ option_list blocker ++ option_list effective.
Proof.
  unfold status_for. destruct (checked_provider find_provider b e inc) as [[p c]|exn] eqn:Hc.
  - intros (blocker & Hb & Hs)%result_bind_ok.
    apply result_bind_ok in Hs as (effective & He & [= <-]). right. by eexists _, _, _, _.
  - destruct (is_value_error exn) eqn:E; [|done]. intros [= <-]. left. by exists exn.
Qed.

(** Runtime effective: enabled, with evidence. *)
Lemma status_effective b e inc s :
  status_for find_provider runtime_effective_evidence b e inc = Ok s →
  LifecycleState.RUNTIME_EFFECTIVE ∈ states s →
  enabled e = true ∧ ∃ text, runtime_effective_evidence b = Ok (Some text).
Proof.
  intros [(exn & _ & _ & ->)|(p & c & blocker & effective & _ & _ & He & -> & _)]%status_for_cases.
  - intros Hin. exfalso. set_solver.
  - intros [Hen Heff]%runtime_effective_in. rewrite Hen in He. split; [done|].
    apply bool_decide_eq_true in Heff as [text ->]. by exists text.
Qed.

(** A status never claims more than was observed, whatever the provider says: an extension
    is runtime effective only when it is enabled and process-owned evidence exists, which the
    status then quotes; it is never both compatible and incompatible, and compatible only on
    the word of a provider that supports the manifest; and an extension whose implementation is
    descriptor-only is reported degraded or incompatible. *)
Theorem status_for_sound b e inc s :
  status_for find_provider runtime_effective_evidence b e inc = Ok s →
  (LifecycleState.RUNTIME_EFFECTIVE ∈ states s →
     enabled e = true
     ∧ ∃ text, runtime_effective_evidence b = Ok (Some text) ∧ text ∈ st_evidence s)
  ∧ ¬ (LifecycleState.COMPATIBLE ∈ states s ∧ LifecycleState.INCOMPATIBLE ∈ states s)
  ∧ (LifecycleState.COMPATIBLE ∈ states s →
       ∃ p c, find_provider (h_provider (m_host (manifest b))) inc = Ok p
         ∧ supports p (manifest b) = Ok true
         ∧ check_host p (manifest b) (configuration e) = Ok c ∧ compatible c = Some true)
  ∧ ∀ reason, activation_blocker (manifest b) = Ok (Some reason) →
      LifecycleState.DEGRADED ∈ states s ∨ LifecycleState.INCOMPATIBLE ∈ states s.
Proof.
  intros [(exn & _ & _ & ->)|(p & c & blocker & effective & Hc & Hb & He & -> & ->)]%status_for_cases.
  - split_and!; set_solver.
  - split_and!.
    + intros [Hen Heff]%runtime_effective_in. rewrite Hen in He. split; [done|].
      reflect. destruct Heff as [text ->]. exists text. split; [done|]. set_solver.
    + rewrite compatible_in, incompatible_in. intros []. congruence.
    + rewrite compatible_in. intros Hok. unfold checked_provider in Hc.
      apply result_bind_ok in Hc as (q & Hq & Hc). apply result_bind_ok in Hc as (b' & Hb' & Hc).
      apply check_bind in Hc as [-> Hc]. apply result_bind_ok in Hc as (c' & Hc' & [= -> ->]).
      by exists p, c.
    + intros reason Hr. left. apply blocked_degraded. rewrite Hr in Hb. injection Hb as <-.
      by apply bool_decide_true.
Qed.

End Statuses.

(** ** Plans *)

Section Core.
Context (find_provider : string → bool → result HostProvider).

Lemma plan_for_claims b e inc p :
  plan_for find_provider b e inc = Ok p → plan_claims p = resource_claims (manifest b).
Proof.
  unfold plan_for. intros ([reason|] & _ & Hp)%result_bind_ok; [by injection Hp as <-|].
  apply result_bind_ok in Hp as (? & _ & Hp). apply result_bind_ok in Hp as (? & _ & Hp).
  apply check_bind in Hp as [_ Hp]. apply result_bind_ok in Hp as (? & _ & Hp).
  apply check_bind in Hp as [_ Hp]. by apply check_bind in Hp as [_ [= <-]].
Qed.

Lemma no_mutation (l : list PlanAction) :
  negb (existsb mutating l) = true → Forall (λ a, mutating a = false) l.
Proof.
  intros Hn%negb_true_iff. induction l as [|a l IH]; [constructor|].
  cbn in Hn. apply orb_false_iff in Hn as [??]. constructor; auto.
Qed.

(** C23.  An activation plan is inert and claims exactly the manifest's resources, whatever the
    provider returns: no action of it mutates anything, its resource claims are the manifest's,
    and but for these it is the plan of the provider found for the host, which supports the
    manifest.  For a descriptor-only extension no provider is consulted: whatever providers there
    are, and even if looking for one fails, the plan is the same single inspection, which sets no
    configuration. *)
Theorem plan_for_safe b e inc :
  (∀ p, plan_for find_provider b e inc = Ok p →
     Forall (λ a, mutating a = false) (actions p)
     ∧ plan_claims p = resource_claims (manifest b)
     ∧ (activation_blocker (manifest b) = Ok None → ∃ q plan',
          find_provider (h_provider (m_host (manifest b))) inc = Ok q
          ∧ supports q (manifest b) = Ok true
          ∧ plan q (manifest b) (configuration e) (enabled e) = Ok plan'
          ∧ p = set_claims (resource_claims (manifest b)) plan'))
  ∧ ∀ reason, activation_blocker (manifest b) = Ok (Some reason) →
      ∃ p, (∀ find_other, plan_for find_other b e inc = Ok p)
        ∧ operation <$> actions p = ["inspect_only"] ∧ generated_config p = []
        ∧ warnings p = [reason] ∧ configuration_requirements p = [].
Proof.
  split.
  - intros p Hp. split_and!; [|by eapply plan_for_claims|]; unfold plan_for in Hp;
      apply result_bind_ok in Hp as (blocker & Hb & Hp).
    + destruct blocker as [reason|]; [injection Hp as <-; by repeat constructor|].
      apply result_bind_ok in Hp as (? & _ & Hp). apply result_bind_ok in Hp as (? & _ & Hp).
      apply check_bind in Hp as [_ Hp]. apply result_bind_ok in Hp as (q & _ & Hp).
      apply check_bind in Hp as [Hn%no_mutation Hp]. by apply check_bind in Hp as [_ [= <-]].
    + intros Hn. rewrite Hn in Hb. injection Hb as <-.
      apply result_bind_ok in Hp as (q & Hq & Hp). apply result_bind_ok in Hp as (s & Hs & Hp).
      apply check_bind in Hp as [-> Hp]. apply result_bind_ok in Hp as (p' & Hp' & Hp).
      apply check_bind in Hp as [_ Hp]. apply check_bind in Hp as [_ [= <-]]. by exists q, p'.
  - intros reason Hr. unfold plan_for. rewrite Hr. eexists. by split_and!.
Qed.

(** ** Composition *)

Section Activation.
Context `{ContractParser.Packaging}.

(** The plans of the bundles to enable, in order. *)
Definition plans_of (inc : bool) (bundles : list (InstalledBundle * ExtensionConfig))
    : result (list ProviderPlan) :=
  map_result (λ be, plan_for find_provider be.1 be.2 inc) bundles.

(** The claims of two bundles' manifests on one resource are both shared. *)
Definition bundles_share (x y : InstalledBundle * ExtensionConfig) : Prop :=
  ∀ c d, c ∈ resource_claims (manifest x.1) → d ∈ resource_claims (manifest y.1) →
    rc_scope c = rc_scope d → rc_resource c = rc_resource d →
    rc_mode c = "shared" ∧ rc_mode d = "shared".

Lemma pairwise_concat {A B} (f : A → list B) (R : B → B → Prop) l :
  pairwise R (concat (f <$> l)) → pairwise (λ x y, ∀ a b, a ∈ f x → b ∈ f y → R a b) l.
Proof.
  assert (∀ l1 l2, pairwise R (l1 ++ l2) →
    pairwise R l2 ∧ ∀ a b, a ∈ l1 → b ∈ l2 → R a b) as Happ.
  { induction l1 as [|x l1 IH]; intros l2 Hp; [split; [done|set_solver]|].
    inversion Hp as [|?? Hx Hl]; subst. destruct (IH l2 Hl) as [H2 HR]. split; [done|].
    rewrite Forall_app in Hx. destruct Hx as [_ Hx]. rewrite Forall_forall in Hx.
    intros a b [->|Ha]%elem_of_cons Hb; [by apply Hx|by apply HR]. }
  induction l as [|x l IH]; cbn; [constructor|]. intros [Hp HR]%Happ. constructor; [|by apply IH].
  apply Forall_forall. intros y Hy a b Ha Hb. apply HR; [done|].
  apply list_elem_of_In, in_concat. exists (f y). split; [|by apply list_elem_of_In].
  apply in_map. by apply list_elem_of_In.
Qed.

Lemma claim_mode_shared payload b c :
  parse_manifest payload = Ok (manifest b) → c ∈ resource_claims (manifest b) →
  rc_mode c ≠ "exclusive" → rc_mode c = "shared".
Proof.
  intros Hp Hc Hm. apply manifest_parsed_ok in Hp. destruct (mo_claims _ Hp) as [Hok _].
  rewrite Forall_forall in Hok. destruct (Hok c Hc) as (_ & _ & Hin).
  unfold _RESOURCE_CLAIM_MODES in Hin. set_solver.
Qed.

(** C21.  Extensions whose plans pass the conflict check never contend for an exclusive
    resource: of any two bundles with parsed manifests, claims on the same resource in the same
    scope are both shared, whatever the providers planned and whatever the configuration. *)
Theorem activation_exclusive inc bundles plans values :
  Forall (λ be, ∃ payload, parse_manifest payload = Ok (manifest be.1)) bundles →
  plans_of inc bundles = Ok plans →
  reject_conflicting_plans plans values = Ok tt →
  pairwise bundles_share bundles.
Proof.
  intros Hparsed Hplans (m & Hm & _)%result_bind_ok.
  assert (pairwise share (all_claims plans)) as Hp by (apply claims_ok; by eexists).
  apply (pairwise_concat (λ p, (λ c, (extension_id p, c)) <$> plan_claims p)) in Hp.
  clear m Hm. revert plans Hplans Hp. induction bundles as [|be bundles IH]; intros plans Hplans Hp;
    [constructor|].
  apply Forall_cons in Hparsed as [[payload Hb] Hparsed].
  apply result_bind_ok in Hplans as (p & Hpl & Hplans).
  apply result_bind_ok in Hplans as (ps & Hps & [= <-]).
  inversion Hp as [|?? Hx Hl]; subst. constructor; [|by eapply IH].
  apply Forall_forall. intros be' Hbe' c d Hc Hd Es Er.
  apply map_result_ok in Hps. apply list_elem_of_lookup in Hbe' as [i Hi].
  destruct (Forall2_lookup_l _ _ _ _ _ Hps Hi) as (p' & Hi' & Hp').
  rewrite Forall_forall in Hx. rewrite Forall_forall in Hparsed.
  destruct (Hparsed be') as [payload' Hb']; [by eapply list_elem_of_lookup_2|].
  destruct (Hx p' (list_elem_of_lookup_2 _ _ _ Hi') (extension_id p, c) (extension_id p', d))
    as [Hcm Hdm].
  - rewrite (plan_for_claims _ _ _ _ Hpl). by apply list_elem_of_fmap_2.
  - rewrite (plan_for_claims _ _ _ _ Hp'). by apply list_elem_of_fmap_2.
  - unfold resource_key. cbn. congruence.
  - split; [by apply (claim_mode_shared payload be.1)|by apply (claim_mode_shared payload' be'.1)].
Qed.
End Activation.
End Core.

(** ** Examples *)

Module LifecycleDemo.
Import CompilerTheorems.ExactVersions.

(** Two manifests that share a device, and one that is only a descriptor. *)
Definition shared_claim : json :=
  JObj [("resource", JStr "npu:0"); ("scope", JStr "node"); ("mode", JStr "shared")].

Definition payload (i status : string) (claims : list json) : json :=
  JObj [("schema_version", JStr "0.3"); ("extension_id", JStr i);
        ("extension_version", JStr "1.2"); ("kind", JStr "kv_connector");
        ("host", JObj [("provider", JStr "demo"); ("name", JStr "vLLM");
                       ("version_range", JStr ">=0")]);
        ("runtime", JObj [("type", JStr "python"); ("process_scope", JStr "worker");
                          ("isolation", JStr "trusted_in_process")]);
        ("lifecycle_owner", JStr "vllm"); ("protocols", JArr []);
        ("implementation", JArr [ManifestDemo.carrier status]); ("requires_services", JArr []);
        ("resource_claims", JArr claims)].

Definition manifest_of (i status : string) (claims : list ResourceClaim) : BundleManifest :=
  mkManifest i "1.2" ">=0" [] (mkActivation [] [] []) "0.3" "kv_connector"
    (mkHost "demo" "vLLM" ">=0" None) (mkRuntime "python" "worker" "trusted_in_process")
    "vllm" []
    [mkCarrier "python_module"
       [("module", JStr "pkg.mod"); ("object", JStr "plugin"); ("status", JStr status)]]
    [] [] claims.

Definition claim : ResourceClaim := mkClaim "npu:0" "node" "shared".
Definition bundle (i status : string) : InstalledBundle :=
  mkBundle i "demo" "1.2" "/lib/demo/manifest.json" (manifest_of i status [claim]).
Definition intent : ExtensionConfig := mkExtensionConfig true [].

(** A provider that assesses compatibility from the configured host version and sets one field
    per extension. *)
Definition demo_plan (m : BundleManifest) : ProviderPlan :=
  mkProviderPlan (bundle_id m) "demo"
    [mkAction "write_config" (bundle_id m) (lifecycle_owner m) false []]
    [("workers", JInt 4)] [] [] (Some [mkConfigClaim [JStr "workers"] (JInt 4)])
    [mkRequirement (Some [JStr "batch"]) (JInt 2) (JInt 8)].

Definition demo_provider : HostProvider := mkProvider "demo" (λ _, Ok true)
  (λ m _ _, Ok (demo_plan m))
  (λ m c, a ← assess_compatibility m c (JStr "0.9") JNull [];
     Ok (mkCheck a.1 true (Some true) None false a.2)).

Definition find : string → bool → result HostProvider := provider_for [("demo", demo_provider)] [].
Definition observed (b : InstalledBundle) : result (option string) :=
  Ok (Some "host invocation observed").

Definition planned (i : string) : ProviderPlan :=
  set_claims [claim] (demo_plan (manifest_of i "active" [claim])).

Lemma conflicts_iff_witness : compatible_plans [planned "org.a"; planned "org.b"] None.
Proof.
  refine (proj1 (conflicts_iff [planned "org.a"; planned "org.b"] [planned "org.b"; planned "org.a"]
    None _ _) _).
  - repeat constructor; cbn; intros claims [= <-]; by repeat constructor.
  - apply perm_swap.
  - vm_compute. reflexivity.
Defined.

Definition demo_status : ExtensionStatus :=
  mkStatus "org.a" "demo"
    [LifecycleState.INSTALLED; LifecycleState.DISCOVERED; LifecycleState.COMPATIBLE;
     LifecycleState.CONFIGURED; LifecycleState.ENABLED; LifecycleState.RUNTIME_EFFECTIVE;
     LifecycleState.REACHABLE]
    ["host version 0.9 satisfies the declared range"; "host invocation observed"].

Lemma status_for_sound_witness :
  enabled intent = true
  ∧ ∃ text, observed (bundle "org.a" "active") = Ok (Some text) ∧ text ∈ st_evidence demo_status.
Proof.
  refine (proj1 (status_for_sound find observed (bundle "org.a" "active") intent true
    demo_status _) _).
  - vm_compute. reflexivity.
  - cbn. set_solver.
Defined.

Lemma plan_for_safe_witness :
  ∃ p, (∀ find_other, plan_for find_other (bundle "org.a" "import_only") intent true = Ok p)
    ∧ operation <$> actions p = ["inspect_only"] ∧ generated_config p = []
    ∧ warnings p
      = ["extension is descriptor-only and cannot be enabled (implementation status: import_only)"]
    ∧ configuration_requirements p = [].
Proof.
  refine (proj2 (plan_for_safe find (bundle "org.a" "import_only") intent true) _ _).
  vm_compute; reflexivity.
Defined.

Lemma activation_exclusive_witness :
  pairwise bundles_share [(bundle "org.a" "active", intent); (bundle "org.b" "active", intent)].
Proof.
  refine (activation_exclusive find true
    [(bundle "org.a" "active", intent); (bundle "org.b" "active", intent)]
    [planned "org.a"; planned "org.b"] None _ _ _).
  - constructor; [exists (payload "org.a" "active" [shared_claim]); vm_compute; reflexivity|].
    constructor; [exists (payload "org.b" "active" [shared_claim]); vm_compute; reflexivity|].
    constructor.
  - vm_compute. reflexivity.
  - vm_compute. reflexivity.
Defined.

(** A provider that does not exist makes the extension incompatible, with the reason. *)
Example unknown_provider :
  status_for (provider_for [] []) observed (bundle "org.a" "active") intent true
  = Ok (mkStatus "org.a" "demo" [LifecycleState.INSTALLED; LifecycleState.DISCOVERED;
          LifecycleState.INCOMPATIBLE] ["unknown host provider: demo"]).
Proof. by vm_compute. Qed.
End LifecycleDemo.
