(* ===== verification/RuntimeEvidence.v ===== *)
(** * RuntimeEvidence: process-owned evidence of supervised launches

    src/vllm_hust_ext/runtime_evidence.py: the journal of events, the binding of a launch, and
    the evidence [status_for] quotes.  The machine (process table and host name), the decoder of
    a line and the reader of manifests are parameters: [decode] is [json.loads] of one line,
    [None] when it raises, and may map numbers the JSON type has not to any value. *)

From S2P Require Import Prelude Effects Json Sha256 JsonText Manifest ProviderPlans.

Local Open Scope string_scope.
Local Open Scope list_scope.

Definition _HOST_SCHEMA : string := "vllm-hust-plugin-evidence/0.1".
Definition _SINK : string := "vllm_hust_ext.runtime_evidence:record_event".
Definition _PATH_ENV : string := "VLLM_HUST_EXT_EVIDENCE_PATH".
Definition _MODULE_BINDING_ENV : string := "VLLM_HUST_EXT_MODULE_BINDING".
Definition _MODULE_SCHEMA : string := "vllm-hust-module-evidence/0.1".
Definition _LAUNCH_SCHEMA : string := "vllm-hust-module-launch/0.1".
Definition _MODULE_ROLES : list (string * string) :=
  [("vllm.scheduler-class.v1", "scheduler"); ("vllm.worker-class.v1", "worker");
   ("vllm.batch-admission-policy.v1", "admission")].
Definition _EVIDENCE_ENVIRONMENT : list string :=
  ["VLLM_ECPA_EVIDENCE_SINK"; "VLLM_ECPA_EVIDENCE_STRICT"; "VLLM_ECPA_PLAN_ID";
   "VLLM_ECPA_LAUNCH_ID"; _PATH_ENV].
Definition _OWNED_EVIDENCE_ENVIRONMENT : list string :=
  _EVIDENCE_ENVIRONMENT ++ [_MODULE_BINDING_ENV].
Definition _MAX_READ_BYTES : nat := 1024 * 1024.

Definition component_fields : list string :=
  ["extension_id"; "extension_version"; "manifest_sha256"; "component_id"; "contract";
   "implementation_ref"; "role"].
Definition binding_fields : list string :=
  ["schema"; "plan_id"; "launch_id"; "manager_process"; "components"; "binding_digest"].
Definition module_event_fields : list string :=
  ["schema"; "event"; "observation_kind"; "plan_id"; "launch_id"; "binding_digest"; "component";
   "process"; "observed_at_ns"; "request_count"; "output_token_count"].

(** The elements that are there. *)
Definition kept {A} (l : list (option A)) : list A := omap id l.

(** ** Text *)

Definition newline : ascii := "010"%char.

(** [stream.readlines()]: every line with its newline, the last one without if it has none. *)
Fixpoint readlines (s : string) : list string :=
  match s with
  | EmptyString => []
  | String c s' =>
      if Ascii.eqb c newline then String c EmptyString :: readlines s'
      else match readlines s' with
           | l :: ls => String c l :: ls
           | [] => [String c EmptyString]
           end
  end.

(** The text after [n] characters. *)
Fixpoint drop_chars (n : nat) (s : string) : string :=
  match n, s with
  | S n', String _ s' => drop_chars n' s'
  | _, _ => s
  end.

(** The last lines of a journal: a window from its end, without its first, cut line. *)
Definition tail_lines (limit : nat) (raw : string) : list string :=
  let size := String.length raw in
  let lines := readlines (drop_chars (size - limit) raw) in
  if (limit <? size)%nat then tail lines else lines.

(** [s.split()]. *)
Fixpoint words (s : string) : list string :=
  match s with
  | EmptyString => []
  | String c s' =>
      if is_space c then words s'
      else match s' with
           | String d _ =>
               if is_space d then String c EmptyString :: words s'
               else match words s' with
                    | w :: ws => String c w :: ws
                    | [] => [String c EmptyString]
                    end
           | EmptyString => [String c EmptyString]
           end
  end.

(** [raw[raw.rfind(c) + 1:]]. *)
Fixpoint after_last (c : ascii) (s : string) : string :=
  match s with
  | EmptyString => EmptyString
  | String a s' =>
      if existsb (Ascii.eqb c) (list_ascii_of_string s') then after_last c s'
      else if Ascii.eqb a c then s' else s
  end.

(** ** Processes *)

(** What the machine shows: its name, and the text of [/proc/<pid>/stat] or [None] when it cannot
    be read. *)
Record Machine := mkMachine { gethostname : string; proc_stat : Z → option string }.

Definition nonempty (v : json) : bool :=
  match v with JStr s => negb (s =? EmptyString) | _ => false end.

Section Evidence.
Context `{Sha256} (machine : Machine) (decode : string → option json).

Definition _start_identity (pid : Z) : option string :=
  raw ← proc_stat machine pid;
  let fields := words (after_last ")" raw) in
  state ← fields !! 0;
  if bool_decide (state ∈ ["Z"; "X"]) then None
  else
    ticks ← fields !! 19;
    _ ← int_of_string ticks;
    Some ("pid:" +:+ z_str pid +:+ ":start_ticks:" +:+ ticks).

Definition _process_is_current (process : json) : bool :=
  match process with
  | JObj p =>
      match get "pid" p with
      | JInt pid =>
          (0 <? pid)%Z && bool_decide (get "host" p = JStr (gethostname machine))
          && nonempty (get "start_identity" p)
          && bool_decide (get "start_identity" p = default JNull (JStr <$> _start_identity pid))
      | _ => false
      end
  | _ => false
  end.

(** [_own_process] of the process [pid]. *)
Definition _own_process (pid : Z) : result json :=
  match _start_identity pid with
  | None => Err (ValueError "runtime process identity is unavailable")
  | Some identity =>
      Ok (JObj [("host", JStr (gethostname machine)); ("pid", JInt pid);
                ("start_identity", JStr identity)])
  end.

(** ** Events of entry points *)

(** [event.get] of a value that is no dictionary. *)
Definition as_dict (event : json) : result (list (string * json)) :=
  match event with
  | JObj e => Ok e
  | _ => Err (AttributeError "object has no attribute 'get'")
  end.

Definition refuse (b : bool) (msg : string) : result unit := check b (ValueError msg).

Definition _require_bound_event (event : json) : result unit :=
  e ← as_dict event;
  _ ← refuse (bool_decide (get "schema" e = JStr _HOST_SCHEMA)) "unsupported host evidence schema";
  _ ← refuse (bool_decide (get "binding_status" e = JStr "bound"))
        "unbound host evidence is not accepted";
  _ ← refuse (nonempty (get "plan_id" e)) "host evidence requires plan_id";
  _ ← refuse (nonempty (get "launch_id" e)) "host evidence requires launch_id";
  match get "process" e with
  | JObj p =>
      _ ← refuse (nonempty (get "host" p)) "host evidence process requires host";
      _ ← refuse (match get "pid" p with JInt _ => true | _ => false end)
            "host evidence process requires pid";
      refuse (nonempty (get "start_identity" p)) "host evidence process requires start_identity"
  | _ => Err (ValueError "host evidence requires process identity")
  end.

(** The lines of the journal that are read; none when it cannot be opened. *)
Definition journal_lines (journal : option string) : list string :=
  match journal with Some raw => tail_lines _MAX_READ_BYTES raw | None => [] end.

(** One line of [_events]: a dictionary, or nothing when decoding or validation raises one of the
    caught exceptions. *)
Definition read_event (line : string) : result (option (list (string * json))) :=
  match decode line with
  | None => Ok None
  | Some event =>
      match _require_bound_event event with
      | Ok _ => e ← as_dict event; Ok (Some e)
      | Err (ValueError _) | Err (TypeError _) => Ok None
      | Err exc => Err exc
      end
  end.

Definition _events (journal : option string) : result (list (list (string * json))) :=
  events ← map_result read_event (journal_lines journal);
  Ok (kept events).

(** A key of a set: lists and dictionaries have no hash. *)
Definition hash (v : json) : result unit :=
  match v with
  | JArr _ => Err (TypeError "unhashable type: 'list'")
  | JObj _ => Err (TypeError "unhashable type: 'dict'")
  | _ => Ok tt
  end.

(** The pair of a group and a name, as a member of a set. *)
Definition hashed (group name : json) : result (json * json) :=
  _ ← hash group; _ ← hash name; Ok (group, name).

Definition declared_entry_points (m : BundleManifest) : result (list (json * json)) :=
  carried ← map_result (λ c, hashed (get "group" (attributes c)) (get "name" (attributes c)))
    (List.filter (λ c, carrier_type c =? "python_entry_point") (implementation m));
  Ok (carried ++ ((λ e, (JStr (ep_group e), JStr (ep_name e))) <$> entry_points (activation m))).

Definition in_pairs (p : json * json) (l : list (json * json)) : bool :=
  existsb (λ q, py_eqb p.1 q.1 && py_eqb p.2 q.2) l.

(** The test of the loop, negated. *)
Definition effective_event (declared : list (json * json)) (e : list (string * json))
    : result bool :=
  if bool_decide (get "event" e = JStr "effective")
     && bool_decide (get "observation_kind" e = JStr "runtime_effective") then
    match get "entry_point" e with
    | JObj ep =>
        p ← hashed (get "group" ep) (get "name" ep);
        Ok (in_pairs p declared && _process_is_current (get "process" e))
    | _ => Ok false
    end
  else Ok false.

(** The first element that satisfies a test that may raise. *)
Fixpoint find_result {A} (f : A → result bool) (l : list A) : result (option A) :=
  match l with
  | [] => Ok None
  | x :: l' => b ← f x; if (b : bool) then Ok (Some x) else find_result f l'
  end.

Definition pid_of (e : list (string * json)) : json :=
  match get "process" e with JObj p => get "pid" p | _ => JNull end.

Definition entry_point_evidence (journal : option string) (bundle : InstalledBundle)
    : result (option string) :=
  declared ← declared_entry_points (manifest bundle);
  events ← _events journal;
  found ← find_result (effective_event declared) (rev events);
  Ok (option_map (λ e, "live host runtime observer evidence launch_id=" +:+ py_str (get "launch_id" e)
            +:+ " pid=" +:+ py_str (pid_of e)
            +:+ " event_id=" +:+ py_str (get_default "event_id" e (JStr "unknown"))) found).

(** ** Module evidence *)

Definition _digest (value : json) : string := sha256_hexdigest (ascii_dumps value).

Definition module_class_contracts : list string :=
  ["vllm.scheduler-class.v1"; "vllm.worker-class.v1"].

(** [f"{attributes.get('module')}:{attributes.get('object')}"]. *)
Definition carrier_reference (c : ImplementationCarrier) : string :=
  py_str (get "module" (attributes c)) +:+ ":" +:+ py_str (get "object" (attributes c)).

Definition active_references (m : BundleManifest) : list string :=
  carrier_reference <$> List.filter (λ c, (carrier_type c =? "python_module")
    && bool_decide (get "status" (attributes c) = JStr "active")) (implementation m).

(** [set(component.contracts) & _MODULE_ROLES.keys()]. *)
Definition selected_contracts (c : BundleComponent) : list string :=
  remove_dups (List.filter (λ k, bool_decide (k ∈ keys _MODULE_ROLES)) (contracts c)).

Definition module_component (bundle : InstalledBundle) (sha : string) (c : BundleComponent)
    : result (option json) :=
  match selected_contracts c with
  | [] => Ok None
  | k :: ks =>
      _ ← refuse (bool_decide (ks = [])
                  && bool_decide (implementation_ref c ∈ active_references (manifest bundle)))
            "module evidence requires one active declared carrier per component";
      role ← match assoc k _MODULE_ROLES with Some r => Ok r | None => Err (KeyError k) end;
      Ok (Some (JObj [("extension_id", JStr (ib_id bundle));
        ("extension_version", JStr (bundle_version (manifest bundle)));
        ("manifest_sha256", JStr sha); ("component_id", JStr (component_id c));
        ("contract", JStr k); ("implementation_ref", JStr (implementation_ref c));
        ("role", JStr role)]))
  end.

(** [read_bytes] is [bundle.manifest_path.read_bytes()]. *)
Definition _module_components (read_bytes : string → result string) (bundle : InstalledBundle)
    : result (list json) :=
  if existsb (λ c, existsb (λ k, bool_decide (k ∈ module_class_contracts)) (contracts c))
       (components (manifest bundle)) then
    raw ← read_bytes (manifest_path bundle);
    items ← map_result (module_component bundle (sha256_hexdigest raw))
              (components (manifest bundle));
    Ok (kept items)
  else Ok [].

(** One line of [_module_records]: only decoding is guarded. *)
Definition read_record (line : string) : result (option (list (string * json))) :=
  match decode line with
  | Some (JObj item) =>
      known ← in_set (get "schema" item) [_MODULE_SCHEMA; _LAUNCH_SCHEMA];
      Ok (if (known : bool) then Some item else None)
  | _ => Ok None
  end.

Definition _module_records (journal : option string) : result (list (list (string * json))) :=
  records ← map_result read_record (journal_lines journal);
  Ok (kept records).

(** A component of a launch binding. *)
Definition valid_component (item : json) : bool :=
  match item with
  | JObj i =>
      same_keys component_fields i && forallb (λ kv, nonempty kv.2) i
      && match get "contract" i with
         | JStr k =>
             match assoc k _MODULE_ROLES with
             | Some role => bool_decide (get "role" i = JStr role)
             | None => false
             end
         | _ => false
         end
  | _ => false
  end.

Definition component_list (binding : list (string * json)) : list json :=
  match get "components" binding with JArr l => l | _ => [] end.

Definition _valid_binding (binding : list (string * json)) : bool :=
  same_keys binding_fields binding
  && bool_decide (get "schema" binding = JStr _LAUNCH_SCHEMA)
  && nonempty (get "plan_id" binding) && nonempty (get "launch_id" binding)
  && nonempty (get "binding_digest" binding)
  && negb (bool_decide (component_list binding = []))
  && forallb valid_component (component_list binding)
  && bool_decide (get "binding_digest" binding
       = JStr (_digest (JObj (List.filter (λ kv, negb (kv.1 =? "binding_digest")) binding))))
  && _process_is_current (get "manager_process" binding).

(** [c.get("extension_id") == bundle_id] of a value that must be a dictionary. *)
Definition of_extension (i : string) (c : json) : bool :=
  match c with JObj kvs => bool_decide (get "extension_id" kvs = JStr i) | _ => false end.

Definition launch_of (i : string) (item : list (string * json)) : bool :=
  bool_decide (get "schema" item = JStr _LAUNCH_SCHEMA)
  && existsb (of_extension i) (component_list item).

(** [item["component_id"]]. *)
Definition id_of (item : json) : string :=
  match item with JObj i => py_str (get "component_id" i) | _ => EmptyString end.

Definition positive (v : json) : bool := match v with JInt z => (0 <? z)%Z | _ => false end.

(** The validation of an event of the launch. *)
Definition valid_module_event (binding : list (string * json)) (selected : list json)
    (component : json) (event : list (string * json)) : bool :=
  same_keys module_event_fields event
  && bool_decide (get "event" event = JStr "effective")
  && bool_decide (get "observation_kind" event = JStr "runtime_effective")
  && py_eqb (get "plan_id" event) (get "plan_id" binding)
  && py_eqb (get "launch_id" event) (get "launch_id" binding)
  && existsb (py_eqb component) selected
  && forallb (λ k, positive (get k event)) ["observed_at_ns"; "request_count"; "output_token_count"]
  && _process_is_current (get "process" event).

(** An event of this launch and extension. *)
Definition concerns (i : string) (binding event : list (string * json)) : bool :=
  bool_decide (get "schema" event = JStr _MODULE_SCHEMA)
  && py_eqb (get "binding_digest" event) (get "binding_digest" binding)
  && of_extension i (get "component" event).

(** The loop over the records: the components observed and the processes that observed them, or
    nothing at the first invalid event. *)
Fixpoint observe_loop (i : string) (binding : list (string * json)) (selected : list json)
    (records : list (list (string * json))) (observed : list string) (pids : list Z)
    : option (list string * list Z) :=
  match records with
  | [] => Some (observed, pids)
  | event :: rest =>
      if concerns i binding event then
        if valid_module_event binding selected (get "component" event) event then
          observe_loop i binding selected rest (observed ++ [id_of (get "component" event)])
            (pids ++ match pid_of event with JInt p => [p] | _ => [] end)
        else None
      else observe_loop i binding selected rest observed pids
  end.

Definition _module_effective_evidence (journal : option string) (bundle : InstalledBundle)
    (expected : list json) : result (option string) :=
  records ← _module_records journal;
  match find_last (launch_of (ib_id bundle)) records with
  | None => Ok None
  | Some binding =>
      if negb (_valid_binding binding) then Ok None
      else
        let selected := List.filter (of_extension (ib_id bundle)) (component_list binding) in
        if negb (py_eqb (JArr (sort_by id_of str_leb selected))
                        (JArr (sort_by id_of str_leb expected))) then Ok None
        else
          match observe_loop (ib_id bundle) binding selected records [] [] with
          | None => Ok None
          | Some (observed, pids) =>
              if negb (bool_decide (list_to_set observed =@{gset string}
                                    list_to_set (id_of <$> expected))) then Ok None
              else
                Ok (Some ("live module runtime evidence launch_id="
                  +:+ py_str (get "launch_id" binding)
                  +:+ " components=" +:+ z_str (Z.of_nat (length (remove_dups observed)))
                  +:+ " pids=" +:+ py_repr (JArr (JInt <$> sort_by id Z.leb (remove_dups pids)))
                  +:+ "; all declared modules observed, not an all-rank device qualification"))
          end
  end.

Definition runtime_effective_evidence (read_bytes : string → result string)
    (journal : option string) (bundle : InstalledBundle) : result (option string) :=
  expected ← _module_components read_bytes bundle;
  if negb (bool_decide (expected = []))
  then _module_effective_evidence journal bundle expected
  else entry_point_evidence journal bundle.

(** ** Writing *)

(** The journal, how many bytes the next write takes, and whether it can be opened. *)
Record Journal := mkJournal { content : option string; room : nat; opens : bool }.

Definition _append (event : json) : M Journal unit := λ j,
  let encoded := ascii_dumps event +:+ String newline EmptyString in
  if opens j then
    let written := String.substring 0 (room j) encoded in
    let j' := mkJournal (Some (default EmptyString (content j) +:+ written))
                (room j - String.length encoded) true in
    if (String.length encoded <=? room j)%nat then (Ok tt, j')
    else (Err (OSError "incomplete runtime evidence write"), j')
  else (Err (OSError "open"), j).

Definition record_event (event : json) : M Journal unit :=
  match event with
  | JObj _ => lift_result (_require_bound_event event);; _append event
  | _ => raise (TypeError "host evidence must be an object")
  end.

(** [json.dumps] of the bundles' identities. *)
Definition plan_material (bundles : list InstalledBundle) : string :=
  ascii_dumps (JArr ((λ b, JArr [JStr (ib_id b); JStr (bundle_version (manifest b));
    JStr (manifest_path b)]) <$> sort_by ib_id str_leb bundles)).

Definition component_key (item : json) : list string :=
  match item with
  | JObj i => [py_str (get "extension_id" i); py_str (get "component_id" i)]
  | _ => []
  end.

(** The record that binds a launch. *)
Definition launch_binding (plan_id launch_id : string) (process : json) (comps : list json)
    : list (string * json) :=
  let binding := [("schema", JStr _LAUNCH_SCHEMA); ("plan_id", JStr plan_id);
    ("launch_id", JStr launch_id); ("manager_process", process);
    ("components", JArr (sort_by component_key strs_leb comps))] in
  binding ++ [("binding_digest", JStr (_digest (JObj binding)))].

(** [launch_environment]: [environ] are the names in [os.environ], [launch_id] the fresh UUID,
    [path] the journal's, [semantic] the native plan identifier of a validated semantic launch
    specification, if one is given. *)
Definition launch_environment (read_bytes : string → result string) (environ : list string)
    (pid : Z) (launch_id path : string) (semantic : option (result string))
    (bundles : list InstalledBundle) : M Journal (list (string * string)) :=
  let conflicts := List.filter (λ n, bool_decide (n ∈ environ)) _OWNED_EVIDENCE_ENVIRONMENT in
  raise_if (negb (bool_decide (conflicts = [])))
    (ValueError ("vllm-hust-ext owns runtime evidence environment variables: "
                 +:+ list_repr (sort_by id str_leb conflicts)));;
  native_plan_id ← lift_result (default (Ok (sha256_hexdigest (plan_material bundles))) semantic);
  let environment := [("VLLM_ECPA_EVIDENCE_SINK", _SINK); ("VLLM_ECPA_EVIDENCE_STRICT", "1");
    ("VLLM_ECPA_PLAN_ID", native_plan_id); ("VLLM_ECPA_LAUNCH_ID", launch_id);
    (_PATH_ENV, path)] in
  comps ← lift_result (map_result (_module_components read_bytes) bundles);
  if bool_decide (concat comps = []) then mret environment
  else
    process ← lift_result (_own_process pid);
    let binding := launch_binding native_plan_id launch_id process (concat comps) in
    _append (JObj binding);;
    mret (environment ++ [(_MODULE_BINDING_ENV, py_str (get "binding_digest" binding))]).

(** [_bound_launch] of a process with the environment [environ]. *)
Definition _bound_launch (environ : list (string * string)) (journal : option string)
    : result (list (string * json)) :=
  let env name := default EmptyString (assoc name environ) in
  _ ← refuse (forallb (λ n, negb (env n =? EmptyString)) _OWNED_EVIDENCE_ENVIRONMENT)
        "incomplete Manager module evidence environment";
  _ ← refuse ((env "VLLM_ECPA_EVIDENCE_SINK" =? _SINK)
              && (env "VLLM_ECPA_EVIDENCE_STRICT" =? "1"))
        "unsupported Manager module evidence sink or strictness";
  records ← _module_records journal;
  match find_last (λ b, bool_decide (get "binding_digest" b = JStr (env _MODULE_BINDING_ENV))
                        && bool_decide (get "schema" b = JStr _LAUNCH_SCHEMA)) records with
  | None => Err (ValueError "Manager-issued module launch binding is missing")
  | Some binding =>
      _ ← refuse (_valid_binding binding
                  && bool_decide (get "plan_id" binding = JStr (env "VLLM_ECPA_PLAN_ID"))
                  && bool_decide (get "launch_id" binding = JStr (env "VLLM_ECPA_LAUNCH_ID")))
            "Manager module launch binding differs or owner exited";
      Ok binding
  end.

(** [emit_module_effective]: [reference] names the class, [loaded] tells whether the symbol of
    that name is the class itself, [now] is the time. *)
Definition emit_module_effective (environ : list (string * string)) (pid now : Z)
    (reference : string) (loaded : bool) (role : string) (request_count output_token_count : json)
    : M Journal bool :=
  raise_if (negb (bool_decide (role ∈ _MODULE_ROLES.*2)))
    (ValueError "invalid module implementation or role");;
  raise_if (negb (positive request_count && positive output_token_count))
    (ValueError "module evidence requires positive successful output counts");;
  journal ← gets content;
  binding ← lift_result (_bound_launch environ journal);
  raise_if (negb loaded) (ValueError "module evidence requires the actual loaded class symbol");;
  match List.filter (λ item, match item with
          | JObj i => bool_decide (get "implementation_ref" i = JStr reference)
                      && bool_decide (get "role" i = JStr role)
          | _ => false
          end) (component_list binding) with
  | [component] =>
      process ← lift_result (_own_process pid);
      _append (JObj [("schema", JStr _MODULE_SCHEMA); ("event", JStr "effective");
        ("observation_kind", JStr "runtime_effective"); ("plan_id", get "plan_id" binding);
        ("launch_id", get "launch_id" binding); ("binding_digest", get "binding_digest" binding);
        ("component", component); ("process", process); ("observed_at_ns", JInt now);
        ("request_count", request_count); ("output_token_count", output_token_count)]);;
      mret true
  | _ => raise (ValueError "runtime class/role does not match a unique selected module carrier")
  end.
End Evidence.
