(* ===== verification/VllmProvider.v ===== *)
(** * VllmProvider: the provider of vLLM's in-process extension points

    src/vllm_hust_ext/capabilities.py and providers/vllm.py.  What importing the host's
    capability registry and its older modules gives, and the installed version of a
    distribution, are arguments; values are JSON.  [render] is not modelled. *)

From S2P Require Import Prelude Effects Json JsonText Manifest ProviderPlans.
From S2P Require ContractParser.

Local Open Scope string_scope.
Local Open Scope list_scope.

(** ** capabilities.py *)

Definition CAPABILITY_SCHEMA : string := "vllm.extension-capabilities/v1".
Definition registry_module : string := "vllm.plugins.extension_capabilities".

Record HostCapabilities := mkCapabilities {
  host_api_version : option string; protocol_versions : list (string * string);
  source : string; cap_evidence : list string }.

(** Importing the registry and calling its getter: a module that is missing, an exception of
    some class at the import or at the call, or the snapshot. *)
Variant registry :=
  | Missing (name : string) | ImportFails (class : string) | GetterFails (class : string)
  | Snapshot (value : json).

Section Capabilities.
Context `{ContractParser.Packaging} (version_major : ContractParser.Version → Z).

Definition _version (value : json) : option string :=
  match value with
  | JStr s => match ContractParser.parse_version s with Some _ => Some s | None => None end
  | _ => None
  end.

Definition _v1_version (value : json) : option string :=
  match value with
  | JStr s =>
      v ← ContractParser.parse_version s;
      if (version_major v =? 1)%Z then Some s else None
  | _ => None
  end.

Definition refused_snapshot (why : string) : HostCapabilities :=
  mkCapabilities None [] registry_module [why].

(** The protocols, or nothing at the first invalid one. *)
Definition validated_protocols (protocols : list (string * json)) : option (list (string * string)) :=
  mapM (λ kv, if non_blank kv.1 then v ← _version kv.2; Some (kv.1, v) else None) protocols.

Definition _snapshot (value : json) : HostCapabilities :=
  match value with
  | JObj snapshot =>
      if negb (same_keys ["schema_version"; "host_api_version"; "protocols"] snapshot)
      then refused_snapshot "host capability snapshot has unknown or missing fields"
      else if negb (bool_decide (get "schema_version" snapshot = JStr CAPABILITY_SCHEMA))
      then refused_snapshot ("unsupported host capability schema "
             +:+ py_repr (get "schema_version" snapshot))
      else
        match _version (get "host_api_version" snapshot), get "protocols" snapshot with
        | Some host_api_version, JObj protocols =>
            match validated_protocols protocols with
            | Some validated =>
                mkCapabilities (Some host_api_version) validated registry_module
                  ["loaded " +:+ z_str (Z.of_nat (length validated))
                   +:+ " protocols from the host capability registry"]
            | None =>
                refused_snapshot "host capability snapshot contains an invalid protocol entry"
            end
        | _, _ => refused_snapshot "host capability snapshot contains invalid versions"
        end
  | _ => refused_snapshot "host capability snapshot is not an object"
  end.

(** Module, attribute and protocol of the older hosts. *)
Definition legacy_probes : list (string * string * string) :=
  [("vllm.v1.core.sched.preemption", "PREEMPTION_POLICY_API_VERSION", "vllm.preemption-policy");
   ("vllm.v1.core.sched.batch_admission", "BATCH_ADMISSION_POLICY_API_VERSION",
    "vllm.batch-admission-policy");
   ("vllm.plugins.request_processing", "REQUEST_PROCESSING_HOOK_API_VERSION",
    "vllm.request-processing-hook");
   ("vllm.v1.core.kv_materialization", "KV_MATERIALIZATION_RUNTIME_CONTROL_API_VERSION",
    "vllm.kv-materialization-runtime-control")].

(** [attribute module name] is [getattr(import_module(module), name)], [None] if it raises. *)
Definition _detect_legacy_vllm_capabilities (attribute : string → string → option json)
    : HostCapabilities :=
  mkCapabilities None
    (omap (λ probe, let '(module, name, protocol) := probe in
       value ← attribute module name; v ← _v1_version value; Some (protocol, v)) legacy_probes)
    "legacy-module-probes"
    ["host capability registry is unavailable; used legacy module probes"].

Definition detect_vllm_capabilities (r : registry) (attribute : string → string → option json)
    : HostCapabilities :=
  match r with
  | Missing name =>
      if bool_decide (name ∈ ["vllm"; "vllm.plugins"; registry_module])
      then _detect_legacy_vllm_capabilities attribute
      else refused_snapshot ("host capability registry import failed: missing " +:+ name)
  | ImportFails class =>
      refused_snapshot ("host capability registry import failed: " +:+ class)
  | GetterFails class =>
      refused_snapshot ("host capability registry failed closed: " +:+ class)
  | Snapshot value => _snapshot value
  end.
End Capabilities.

(** ** providers/vllm.py: plans *)

Definition _JSON_LAUNCH_OPTIONS : list (string * string) :=
  [("batch_admission_policy_config", "--batch-admission-policy-config");
   ("speculative_config", "--speculative-config")].
Definition _BOOLEAN_LAUNCH_OPTIONS : list (string * string) :=
  [("enable_prefix_caching", "--enable-prefix-caching");
   ("scheduler_reserve_output_budget", "--scheduler-reserve-output-budget")].
Definition _RUNTIME_QUALIFICATION_KEY : string := "_manager_runtime_qualification".
Definition VLLM_PLUGIN_ENTRY_POINT_GROUPS : list string :=
  ["vllm.general_plugins"; "vllm.platform_plugins"].

(** [dict.fromkeys(l)]: the first of equal elements stays. *)
Definition from_keys (l : list string) : list string :=
  fold_left (λ seen x, if bool_decide (x ∈ seen) then seen else seen ++ [x]) l [].

Definition declared_vllm_plugin_names (m : BundleManifest) : list string :=
  from_keys (ep_name <$> List.filter (λ e, bool_decide (ep_group e ∈ VLLM_PLUGIN_ENTRY_POINT_GROUPS))
    (entry_points (activation m))).

(** [text.partition(c)]; the second component is [None] when [c] does not occur. *)
Fixpoint partition (c : ascii) (s : string) : string * option string :=
  match s with
  | EmptyString => (EmptyString, None)
  | String a s' =>
      if Ascii.eqb a c then (EmptyString, Some s')
      else let '(before, after) := partition c s' in (String a before, after)
  end.

Definition _qualname_from_implementation_ref (implementation_ref : string) : result string :=
  match partition ":" implementation_ref with
  | (module, Some object_name) =>
      if (module =? EmptyString) || (object_name =? EmptyString)
      then Err (ValueError "component implementation_ref must use module:object syntax")
      else Ok (module +:+ "." +:+ object_name)
  | _ => Err (ValueError "component implementation_ref must use module:object syntax")
  end.

(** [value.items()] and the iteration of an array. *)
Definition items (value : json) : result (list (string * json)) :=
  match value with
  | JObj kvs => Ok kvs
  | _ => Err (AttributeError "object has no attribute 'items'")
  end.
Definition elements (value : json) : result (list json) :=
  match value with JArr l => Ok l | _ => Err (TypeError "object is not iterable") end.

Definition configuration_claim (kv : string * json) : result (list ConfigClaim) :=
  let key := kv.1 in
  let value := kv.2 in
  if bool_decide (key ∈ ["user_config"; "native_extension_manifest"]) then Ok []
  else if bool_decide (key ∈ ["environment"; "additional_config"; "vllm_options";
                              "vllm_json_options"]) then
    entries ← items value;
    Ok (map (λ e, mkConfigClaim [JStr key; JStr e.1] e.2) entries)
  else if bool_decide (key ∈ ["vllm_plugins"; "vllm_flags"]) then
    names ← elements value;
    Ok (map (λ n, mkConfigClaim [JStr key; n] (JBool true)) names)
  else Ok [mkConfigClaim [JStr key] value].

Definition _configuration_claims (generated : list (string * json)) : result (list ConfigClaim) :=
  claims ← map_result configuration_claim generated;
  Ok (concat claims).

Definition refuse (b : bool) (msg : string) : result unit := check b (ValueError msg).

(** The manifest handed to the host, for hosts with an API range. *)
Definition component_json (c : BundleComponent) : json :=
  JObj [("component_id", JStr (component_id c)); ("contracts", JArr (JStr <$> contracts c));
    ("execution_planes", JArr (JStr <$> execution_planes c)); ("isolation", JStr (cmp_isolation c));
    ("implementation_ref", JStr (implementation_ref c));
    ("permissions", JArr (JStr <$> permissions c))].

Definition native_manifest (m : BundleManifest) : option json :=
  range ← api_range (m_host m);
  Some (JObj [("schema_version", JStr "1.0"); ("bundle_id", JStr (bundle_id m));
    ("bundle_version", JStr (bundle_version m)); ("host_api_range", JStr range);
    ("components", JArr (component_json <$> components m))]).

(** One launch option: a flag that is set, or a JSON option. *)
Definition launch_option (acc : list (string * json) * list string) (kv : string * json)
    : result (list (string * json) * list string) :=
  let '(json_options, flags) := acc in
  let '(name, value) := kv in
  match assoc name _BOOLEAN_LAUNCH_OPTIONS with
  | Some flag =>
      match value with
      | JBool b => Ok (json_options, if (b : bool) then flags ++ [flag] else flags)
      | _ => Err (ValueError ("launch_options." +:+ name +:+ " must be a boolean"))
      end
  | None =>
      match value with
      | JObj _ =>
          match assoc name _JSON_LAUNCH_OPTIONS with
          | Some option => Ok (dict_set option value json_options, flags)
          | None => Err (KeyError name)
          end
      | _ => Err (ValueError ("launch_options." +:+ name +:+ " must be an object"))
      end
  end.

Definition launch_options (configuration : list (string * json))
    : result (list (string * json) * list string) :=
  match get_default "launch_options" configuration (JObj []) with
  | JObj options =>
      let unknown := List.filter (λ k, bool_decide
        (k ∉ keys _JSON_LAUNCH_OPTIONS ++ keys _BOOLEAN_LAUNCH_OPTIONS)) (keys options) in
      _ ← refuse (bool_decide (unknown = []))
            ("unsupported vLLM launch_options: " +:+ list_repr (sort_by id str_leb unknown));
      fold_result launch_option ([], []) options
  | _ => Err (ValueError "launch_options must be an object")
  end.

(** The declared environment with the user's values. *)
Definition effective_environment (m : BundleManifest) (configuration : list (string * json))
    : result (list (string * json)) :=
  let declared := environment (activation m) in
  match get_default "environment" configuration (JObj []) with
  | JObj overrides =>
      let unknown := List.filter (λ k, bool_decide (k ∉ keys declared)) (keys overrides) in
      _ ← refuse (bool_decide (unknown = []))
            ("environment overrides must be declared by the manifest: "
             +:+ list_repr (sort_by id str_leb unknown));
      _ ← refuse (forallb (λ kv, match kv.2 with JStr _ => true | _ => false end) overrides)
            "environment override values must be strings";
      Ok (fold_left (λ d kv, dict_set kv.1 kv.2 d) overrides
            ((λ kv, (kv.1, JStr kv.2)) <$> declared))
  | _ => Err (ValueError "environment must be an object")
  end.

(** [generated.setdefault("vllm_options", {})[option] = value]. *)
Definition set_option (option value : string) (generated : list (string * json))
    : list (string * json) :=
  let options := match get "vllm_options" generated with JObj o => o | _ => [] end in
  dict_set "vllm_options" (JObj (dict_set option (JStr value) options)) generated.

(** The component of a contract selects the class behind an option. *)
Definition class_option (m : BundleManifest) (contract option : string)
    (validate : BundleComponent → result unit) (generated : list (string * json))
    : result (list (string * json)) :=
  match List.filter (λ c, bool_decide (contract ∈ contracts c)) (components m) with
  | [] => Ok generated
  | [c] =>
      _ ← validate c;
      name ← _qualname_from_implementation_ref (implementation_ref c);
      Ok (set_option option name generated)
  | _ => Err (ValueError ("exactly one " +:+ contract +:+ " component is required"))
  end.

Definition valid_scheduler (m : BundleManifest) (c : BundleComponent) : result unit :=
  _ ← refuse (bool_decide (execution_planes c = ["scheduler"]))
        "scheduler-class requires only the scheduler plane";
  _ ← refuse ((cmp_isolation c =? "trusted_in_process")
              && (rt_isolation (m_runtime m) =? "trusted_in_process")
              && (lifecycle_owner m =? "vllm"))
        "scheduler-class requires vLLM-owned trusted_in_process isolation";
  refuse (existsb (λ r, (rc_resource r =? "vllm.process-carrier.scheduler")
            && (rc_scope r =? "vllm-process-tree") && (rc_mode r =? "exclusive"))
          (resource_claims m))
    ("scheduler-class requires an exclusive "
     +:+ "vllm-process-tree:vllm.process-carrier.scheduler resource claim").

Definition pop (key : string) (kvs : list (string * json)) : list (string * json) :=
  List.filter (λ kv, negb (kv.1 =? key)) kvs.

(** [if value: generated[key] = value] of a list of names. *)
Definition add_names (key : string) (names : list string) (generated : list (string * json))
    : list (string * json) :=
  if bool_decide (names = []) then generated
  else dict_set key (JArr (JStr <$> names)) generated.

Definition generate (m : BundleManifest) (configuration : list (string * json))
    : result (list (string * json)) :=
  '(json_options, flags) ← launch_options configuration;
  declared ← effective_environment m configuration;
  let generated := [("environment", JObj declared);
    ("additional_config", JObj (pop _RUNTIME_QUALIFICATION_KEY (additional_config (activation m))));
    ("user_config", JObj configuration); ("vllm_json_options", JObj json_options)] in
  let generated := add_names "vllm_plugins" (declared_vllm_plugin_names m) generated in
  let generated := add_names "vllm_flags" flags generated in
  generated ← class_option m "vllm.preemption-policy.v1" "--preemption-policy" (λ _, Ok tt) generated;
  generated ← class_option m "vllm.batch-admission-policy.v1" "--batch-admission-policy"
    (λ _, Ok tt) generated;
  generated ← class_option m "vllm.scheduler-class.v1" "--scheduler-cls" (valid_scheduler m)
    generated;
  generated ← class_option m "vllm.worker-class.v1" "--worker-cls" (λ _, Ok tt) generated;
  Ok match native_manifest m with
     | Some native => dict_set "native_extension_manifest" native generated
     | None => generated
     end.

Definition vllm_supports (m : BundleManifest) : result bool := Ok (h_provider (m_host m) =? "vllm").

Definition vllm_plan (m : BundleManifest) (configuration : list (string * json)) (enabled : bool)
    : result ProviderPlan :=
  blocker ← activation_blocker m;
  match blocker with
  | Some reason =>
      Ok (mkProviderPlan (bundle_id m) "vllm"
            [mkAction "inspect_only" (bundle_id m) (lifecycle_owner m) false
               [("enabled", JBool false)]] [] [reason] [] None [])
  | None =>
      generated ← generate m configuration;
      claims ← _configuration_claims generated;
      Ok (mkProviderPlan (bundle_id m) "vllm"
            [mkAction "configure_launch" "vllm" (lifecycle_owner m) false
               [("enabled", JBool enabled)]] generated
            (if (m_kind m =? "scheduler_policy") && negb (bool_decide (protocols m = []))
             then ["in-process scheduler activation requires explicit host and "
                   +:+ "protocol compatibility evidence; run refuses unverified policies"] else [])
            [] (Some claims) [])
  end.

(** ** providers/vllm.py: checks *)

Section Checks.
Context `{ContractParser.Packaging} (capabilities : HostCapabilities)
  (installed_version : string → option string).

(** The settings of the profile that the qualification does not confirm. *)
Definition qualification_mismatches (profile qualification : list (string * json))
    : list (string * (json * json)) :=
  omap (λ kv, if py_eqb (get kv.1 qualification) kv.2 then None
              else Some (kv.1, (kv.2, get kv.1 qualification))) profile.

Definition mismatches_text (l : list (string * (json * json))) : string :=
  "{" +:+ String.concat ", " ((λ x, "'" +:+ x.1 +:+ "': (" +:+ py_repr x.2.1 +:+ ", "
    +:+ py_repr x.2.2 +:+ ")") <$> l) +:+ "}".

(** What a required runtime qualification makes of a compatible host. *)
Definition qualify (profile : list (string * json)) (configuration : list (string * json))
    : option bool * string :=
  match get "runtime_qualification" configuration with
  | JObj qualification =>
      if bool_decide (get "status" qualification = JStr "passed") then
        match qualification_mismatches profile qualification with
        | [] => (Some true, "required runtime qualification profile passed")
        | l => (Some false, "runtime qualification profile mismatch: " +:+ mismatches_text l)
        end
      else (None, "matching source contracts are insufficient; required runtime "
              +:+ "qualification is unavailable")
  | _ => (None, "matching source contracts are insufficient; required runtime "
            +:+ "qualification is unavailable")
  end.

Definition finish_check (m : BundleManifest) (compatible : option bool) (evidence : list string)
    : result ProviderCheck :=
  blocker ← activation_blocker m;
  Ok match blocker with
     | Some reason => mkCheck compatible false None None true (evidence ++ [reason])
     | None =>
         mkCheck compatible (negb (bool_decide (compatible = Some false))) None None
           (bool_decide (compatible = None))
           (evidence ++ ["vLLM launch configuration can be rendered"])
     end.

Definition vllm_check (m : BundleManifest) (configuration : list (string * json))
    : result ProviderCheck :=
  if (source capabilities =? registry_module)
     && bool_decide (host_api_version capabilities = None) then
    Ok (mkCheck None false None None true (cap_evidence capabilities
          ++ ["host capability registry is unavailable; launch is unverified"]))
  else
    '(compatible, evidence) ← assess_compatibility m configuration
      (default JNull (JStr <$> installed_version (h_name (m_host m))))
      (JStr (match host_api_version capabilities with
             | Some v => if v =? EmptyString then "1.0" else v
             | None => "1.0"
             end))
      ((λ kv, (kv.1, JStr kv.2)) <$> protocol_versions capabilities);
    let evidence := cap_evidence capabilities ++ evidence in
    match get _RUNTIME_QUALIFICATION_KEY (additional_config (activation m)) with
    | JNull => finish_check m compatible evidence
    | profile =>
        if bool_decide (compatible = Some true) then
          match profile with
          | JObj profile =>
              let '(compatible, text) := qualify profile configuration in
              finish_check m compatible (evidence ++ [text])
          | _ => Ok (mkCheck (Some false) false None None true
                       (evidence ++ ["manifest runtime qualification profile is invalid"]))
          end
        else finish_check m compatible evidence
    end.

Definition VllmProvider : HostProvider :=
  mkProvider "vllm" vllm_supports vllm_plan vllm_check.
End Checks.
