(* ===== verification/StateaxisProvider.v ===== *)
(** * StateaxisProvider: the provider of StateAxis's research mods

    src/vllm_hust_ext/providers/stateaxis.py.  The file system is a few parameters; paths are
    strings in normal form.  The target of an action that only inspects is [str] of the mod's
    identifier.  [render] (printing) is not modelled. *)

From S2P Require Import Prelude Effects Json Sha256 JsonText Manifest ProviderPlans.
From S2P Require ContractParser.

Local Open Scope string_scope.
Local Open Scope list_scope.

(** ** Bindings *)

Definition binding_fields : list string :=
  ["mod_id"; "version"; "manifest_sha256"; "performance_qualified"].

(** The JSON object [additional["stateaxis_mod"]] with its [mod_id]; both are asserted. *)
Definition _composition_claims (additional : list (string * json)) : result (list ConfigClaim) :=
  match get "stateaxis_mod" additional with
  | JObj binding =>
      match get "mod_id" binding with
      | JStr mod_id =>
          let mode := get "experiment_mode" additional in
          Ok (mkConfigClaim [JStr "stateaxis_mods"; JStr mod_id]
                (JObj (dict_set "experiment_mode" mode binding))
              :: map (λ kv : string * json, mkConfigClaim [JStr kv.1] kv.2)
                   (List.filter (λ kv : string * json,
                      negb (bool_decide (kv.1 ∈ ["experiment_mode"; "stateaxis_mod"]))) additional))
      | _ => Err AssertionError
      end
  | _ => Err AssertionError
  end.

Definition is_digest (value : json) : bool :=
  match value with
  | JStr s => (String.length s =? 64)%nat && string_forall is_hex s
  | _ => false
  end.

Definition _mod_binding (m : BundleManifest) : result (list (string * json)) :=
  match get "stateaxis_mod" (additional_config (activation m)) with
  | JObj value =>
      _ ← check (same_keys binding_fields value)
            (ValueError "StateAxis mod binding has unexpected or missing fields");
      _ ← check (is_digest (get "manifest_sha256" value))
            (ValueError "StateAxis mod binding has an invalid manifest_sha256");
      _ ← check (match get "performance_qualified" value with JBool _ => true | _ => false end)
            (ValueError "StateAxis performance_qualified must be boolean");
      Ok value
  | _ => Err (ValueError "StateAxis manifest requires activation.additional_config.stateaxis_mod")
  end.

Definition _launch_additional_config (m : BundleManifest) (experiment_mode : bool)
    : result (list (string * json)) :=
  let additional := additional_config (activation m) in
  _ ← check (bool_decide ("experiment_mode" ∉ keys additional))
        (ValueError "StateAxis manifests cannot declare the manager-owned experiment_mode");
  binding ← _mod_binding m;
  _ ← check (py_eqb (get "stateaxis_mod" additional) (JObj binding))
        (ValueError "StateAxis launch binding differs from the manifest");
  Ok (dict_set "experiment_mode" (JBool experiment_mode) additional).

Definition is_true (value : json) : bool := bool_decide (value = JBool true).

(** ** Plans *)

Definition inspect_only (m : BundleManifest) (binding configuration : list (string * json))
    (reasons : list string) : ProviderPlan :=
  mkProviderPlan (bundle_id m) "stateaxis"
    [mkAction "inspect_only" (py_str (get "mod_id" binding)) (lifecycle_owner m) false
       [("enabled", JBool false); ("manifest_sha256", get "manifest_sha256" binding)]]
    [("stateaxis_mod", JObj binding); ("user_config", JObj configuration)] reasons [] None [].

Definition launch_plan (m : BundleManifest) (operation : string)
    (details generated : list (string * json)) (warnings : list string)
    (additional : list (string * json)) : result ProviderPlan :=
  claims ← _composition_claims additional;
  Ok (mkProviderPlan (bundle_id m) "stateaxis"
        [mkAction operation "stateaxis" (lifecycle_owner m) false details]
        generated warnings [] (Some claims) []).

Definition passed (configuration : list (string * json)) : option (list (string * json)) :=
  match get "runtime_qualification" configuration with
  | JObj q => if bool_decide (get "status" q = JStr "passed") then Some q else None
  | _ => None
  end.

Definition stateaxis_plan (m : BundleManifest) (configuration : list (string * json))
    (enabled : bool) : result ProviderPlan :=
  binding ← _mod_binding m;
  blocker ← activation_blocker m;
  let experiment_mode := is_true (get "experiment_mode" configuration) in
  let qualified := is_true (get "performance_qualified" binding) in
  if bool_decide (is_Some blocker) || negb qualified && negb experiment_mode then
    Ok (inspect_only m binding configuration
          (option_list blocker
           ++ if qualified then [] else ["StateAxis mod has no performance qualification"]))
  else if experiment_mode && negb qualified then
    additional ← _launch_additional_config m true;
    launch_plan m "configure_experiment_launch"
      [("enabled", JBool enabled); ("performance_qualified", JBool false)]
      [("stateaxis_additional_config", JObj additional); ("stateaxis_mod", JObj binding);
       ("user_config", JObj configuration)]
      ["experimental launch is not performance qualification; "
       +:+ "preserve results with an experimental evidence label"] additional
  else
    match passed configuration with
    | Some qualification =>
        additional ← _launch_additional_config m false;
        launch_plan m "configure_launch" [("enabled", JBool enabled)]
          [("stateaxis_additional_config", JObj additional); ("stateaxis_mod", JObj binding);
           ("runtime_qualification", JObj qualification); ("user_config", JObj configuration)]
          [] additional
    | None =>
        Err (ValueError "qualified StateAxis mod requires a passed runtime_qualification record")
    end.

(** ** Checks *)

Section Checks.
Context `{ContractParser.Packaging} `{Sha256}
  (is_symlink is_file : string → bool) (read_bytes : string → result string).

Definition _verify_manifest_file (configuration : list (string * json)) (expected : string)
    : result (option bool * string) :=
  match get "research_manifest_path" configuration with
  | JNull =>
      Ok (None, "research manifest path is unavailable; digest binding is unverified")
  | JStr path =>
      if is_symlink path || negb (is_file path)
      then Ok (Some false, "research manifest must be a regular non-symlink file")
      else
        content ← read_bytes path;
        let actual := sha256_hexdigest content in
        Ok (if actual =? expected
            then (Some true, "research manifest digest verified at " +:+ path)
            else (Some false, "research manifest digest mismatch: expected " +:+ expected
                    +:+ ", got " +:+ actual))
  | _ => Err (TypeError "expected str, bytes or os.PathLike object")
  end.

Definition stateaxis_supports (m : BundleManifest) : result bool :=
  Ok ((h_provider (m_host m) =? "stateaxis") && (h_name (m_host m) =? "stateaxis")).

Definition stateaxis_check (m : BundleManifest) (configuration : list (string * json))
    : result ProviderCheck :=
  match _mod_binding m with
  | Err e =>
      if is_value_error e then Ok (mkCheck (Some false) false None None true [exn_str e]) else Err e
  | Ok binding =>
      '(compatible, evidence) ← assess_compatibility m configuration JNull (JStr "1.0") [];
      '(verified, text) ← _verify_manifest_file configuration
        (match get "manifest_sha256" binding with JStr s => s | _ => "" end);
      let evidence := evidence ++ [text] in
      let compatible := if bool_decide (verified = Some false) then Some false else compatible in
      blocker ← activation_blocker m;
      let qualified := is_true (get "performance_qualified" binding) in
      let experiment_mode := is_true (get "experiment_mode" configuration) in
      let is_verified := bool_decide (verified = Some true) in
      Ok (if bool_decide (is_Some blocker) || negb qualified && negb experiment_mode then
            mkCheck compatible false None None true
              (evidence ++ option_list blocker
               ++ if qualified then [] else ["performance qualification is absent"])
          else if experiment_mode && negb qualified then
            mkCheck compatible is_verified None None true
              (evidence ++ ["experimental activation is configured without performance "
                            +:+ "qualification"])
          else
            let configured := is_verified && bool_decide (is_Some (passed configuration)) in
            mkCheck compatible configured None None
              (negb configured || bool_decide (compatible = None))
              (if (configured : bool) then evidence
               else evidence ++ ["passed runtime qualification bound to the manifest is unavailable"]))
  end.

Definition StateAxisProvider : HostProvider :=
  mkProvider "stateaxis" stateaxis_supports stateaxis_plan stateaxis_check.
End Checks.
