(* ===== verification/Catalog.v ===== *)
(** * Catalog: the organization's feed of extension metadata

    src/vllm_hust_ext/catalog.py and [_catalog_command] of cli.py.  A catalog is a JSON value; the
    file system and the decoder of its text are arguments.  Printing is left out: a command
    returns the value it prints. *)

From S2P Require Import Prelude Effects Json Sha256 JsonText Manifest ProviderPlans.

Local Open Scope string_scope.
Local Open Scope list_scope.

Definition CATALOG_SCHEMA : string := "vllm-hust.extension-catalog/v1".
Definition _MATURITY : list string := ["qualified"; "experimental"; "preview"; "external"].
Definition _AVAILABILITY : list string := ["available"; "preview"; "external"].
Definition _FUNCTIONAL : list string :=
  ["passed"; "unverified"; "failed"; "not-applicable"; "external"].
Definition _RECOVERY : list string := ["passed"; "unverified"; "failed"; "not-applicable"].
Definition _EFFECT : list string :=
  ["beneficial"; "neutral"; "inconclusive"; "not-recommended-for-tested-cell"].
Definition _SCENARIO : list string := ["verified"; "unverified"; "not-applicable"].
Definition _TOP : list string := ["schema"; "generated_at"; "source"; "policy"; "extensions"].
Definition _ENTRY : list string :=
  ["id"; "name"; "repository"; "source"; "maturity"; "availability"; "installation"; "enablement";
   "runtime_requirements"; "functional_qualification"; "tested_effects"; "expected_scenarios";
   "recommendation"; "resource_tradeoff"; "conflicts"; "rollback"].

(** [^[0-9a-f]{40}$] and [^sha256:[0-9a-f]{64}$]. *)
Definition _SHA (s : string) : bool := (String.length s =? 40)%nat && string_forall is_hex s.
Definition _DIGEST (s : string) : bool :=
  match strip_prefix "sha256:" s with
  | Some h => (String.length h =? 64)%nat && string_forall is_hex h
  | None => false
  end.
Definition _ID (s : string) : bool :=
  matches is_lower_alnum (λ c, is_lower_alnum c || Ascii.eqb c "." || Ascii.eqb c "-") s.

Definition refuse {A} (msg : string) : result A := Err (CatalogError msg).
Definition admit_if (b : bool) (msg : string) : result unit := check b (CatalogError msg).

(** ** Readers *)

Definition _object (value : json) (location : string) : result (list (string * json)) :=
  match value with JObj kvs => Ok kvs | _ => refuse (location +:+ " must be an object") end.

Definition _string (value : json) (location : string) (empty : bool) : result string :=
  match value with
  | JStr s => if empty || non_blank s then Ok s else refuse (location +:+ " must be a non-empty string")
  | _ => refuse (location +:+ " must be a non-empty string")
  end.

Definition _exact (value : json) (expected : list string) (location : string)
    : result (list (string * json)) :=
  item ← _object value location;
  let unknown := minus (keys item) expected in
  let missing := minus expected (keys item) in
  _ ← admit_if (bool_decide (unknown = []) && bool_decide (missing = []))
        (unknown_missing location (list_repr (sorted_names unknown))
           (list_repr (sorted_names missing)));
  Ok item.

Definition _strings (value : json) (location : string) : result (list string) :=
  let why := location +:+ " must be an array of strings" in
  items ← match value with JArr l => Ok l | _ => refuse why end;
  strings ← map_result (λ v, match v with JStr s => Ok s | _ => refuse why end) items;
  _ ← admit_if (negb (has_dups strings)) (location +:+ " must not contain duplicates");
  Ok strings.

Definition _evidence (value : json) (location : string) (required : bool) : result (list string) :=
  strings ← _strings value location;
  _ ← admit_if (negb required || negb (bool_decide (strings = [])))
        (location +:+ " requires at least one evidence locator");
  Ok strings.

(** [_string(item[field], f"{location}.{field}")]. *)
Definition field_string (item : list (string * json)) (field location : string) : result string :=
  _string (get field item) (location +:+ "." +:+ field) false.

(** A string of a form. *)
Definition formed (form : string → bool) (item : list (string * json)) (field location why : string)
    : result string :=
  s ← field_string item field location;
  _ ← admit_if (form s) (location +:+ "." +:+ field +:+ why);
  Ok s.

Definition member_array (item : list (string * json)) (field location : string)
    : result (list json) :=
  match get field item with
  | JArr l => Ok l
  | _ => refuse (location +:+ "." +:+ field +:+ " must be an array")
  end.

Definition member_bool (item : list (string * json)) (field location : string) : result bool :=
  match get field item with
  | JBool b => Ok b
  | _ => refuse (location +:+ "." +:+ field +:+ " must be boolean")
  end.

Definition _source (value : json) (location : string) : result (list (string * json)) :=
  item ← _exact value ["ref"; "commit"] location;
  _ ← field_string item "ref" location;
  _ ← formed _SHA item "commit" location " must be a full Git SHA";
  Ok item.

Definition _installation (value : json) (location : string)
    : result (option (list (string * json))) :=
  match value with
  | JNull => Ok None
  | _ =>
      item ← _exact value ["type"; "repository"; "commit"; "manifest_path"; "manifest_sha256";
                           "source_subdir"; "entrypoint"] location;
      _ ← admit_if (bool_decide (get "type" item = JStr "python-source"))
            (location +:+ ".type must be python-source");
      _ ← field_string item "repository" location;
      _ ← formed _SHA item "commit" location " must be a full Git SHA";
      _ ← field_string item "manifest_path" location;
      _ ← formed _DIGEST item "manifest_sha256" location " must be sha256:<hex>";
      _ ← _string (get "source_subdir" item) (location +:+ ".source_subdir") true;
      entrypoint ← _exact (get "entrypoint" item) ["group"; "name"] (location +:+ ".entrypoint");
      _ ← field_string entrypoint "group" (location +:+ ".entrypoint");
      _ ← field_string entrypoint "name" (location +:+ ".entrypoint");
      Ok (Some item)
  end.

Definition additional_model (location : string) (index : nat) (raw : json) : result unit :=
  let location := at_index (location +:+ ".additional_models") index in
  item ← _exact raw ["model"; "sha256"; "required"] location;
  _ ← field_string item "model" location;
  _ ← formed _DIGEST item "sha256" location " is invalid";
  _ ← member_bool item "required" location;
  Ok tt.

Definition _runtime_requirements (value : json) (location : string) : result unit :=
  item ← _exact value ["models"; "hardware"; "topologies"; "core"; "ascend"; "additional_models";
                       "storage"; "hbm"; "environment"] location;
  _ ← map_result (λ f, _strings (get f item) (location +:+ "." +:+ f))
        ["models"; "hardware"; "topologies"];
  _ ← map_result (λ f, field_string item f location) ["core"; "ascend"; "storage"; "hbm"];
  environment ← _object (get "environment" item) (location +:+ ".environment");
  _ ← admit_if (forallb (λ kv : string * json, match kv.2 with JStr _ => true | _ => false end)
                  environment) (location +:+ ".environment must map strings to strings");
  models ← member_array item "additional_models" location;
  _ ← map_result_i (additional_model location) models;
  Ok tt.

(** ** Entries *)

Definition tested_effect (location : string) (index : nat) (raw : json) : result unit :=
  let location := at_index (location +:+ ".tested_effects") index in
  effect ← _exact raw ["status"; "cell"; "summary"; "evidence"] location;
  _ ← formed (λ s, bool_decide (s ∈ _EFFECT)) effect "status" location " is unsupported";
  _ ← field_string effect "cell" location;
  _ ← field_string effect "summary" location;
  _ ← _evidence (get "evidence" effect) (location +:+ ".evidence") true;
  Ok tt.

Definition expected_scenario (location : string) (index : nat) (raw : json) : result unit :=
  let location := at_index (location +:+ ".expected_scenarios") index in
  scenario ← _exact raw ["id"; "description"; "status"; "evidence"] location;
  _ ← field_string scenario "id" location;
  _ ← field_string scenario "description" location;
  status ← formed (λ s, bool_decide (s ∈ _SCENARIO)) scenario "status" location " is unsupported";
  _ ← _evidence (get "evidence" scenario) (location +:+ ".evidence") (status =? "verified");
  Ok tt.

Definition conflict_entry (location : string) (index : nat) (raw : json) : result unit :=
  let location := at_index (location +:+ ".conflicts") index in
  item ← _exact raw ["id"; "reason"] location;
  _ ← field_string item "id" location;
  _ ← field_string item "reason" location;
  Ok tt.

(** Two non-empty strings under one field. *)
Definition string_pair (item : list (string * json)) (field first second location : string)
    : result unit :=
  let location := location +:+ "." +:+ field in
  pair ← _exact (get field item) [first; second] location;
  _ ← field_string pair first location;
  _ ← field_string pair second location;
  Ok tt.

(** What the admission policy looks at. *)
Record Standing := mkStanding {
  maturity : string; availability : string; installable : bool; allowed : bool;
  functional_status : string; recovery : string }.

Definition same (x y : string) : bool := (x =? y)%string.

(** The admission policy: the last checks of [_validate_entry]. *)
Definition admission (s : Standing) (location : string) : result unit :=
  let qualified := same (maturity s) "qualified" in
  _ ← admit_if (negb (qualified
                      && (negb (same (functional_status s) "passed")
                          || negb (same (recovery s) "passed"))))
        (location +:+ ": qualified requires passed function and recovery");
  _ ← admit_if (negb (qualified
                      && (negb (installable s) || negb (same (availability s) "available")
                          || negb (allowed s))))
        (location +:+ ": qualified must be installable and available");
  _ ← admit_if (negb (same (maturity s) "preview"
                      && (negb (same (availability s) "preview") || allowed s)))
        (location +:+ ": preview must be non-enableable");
  _ ← admit_if (negb (same (maturity s) "external"
                      && (negb (same (availability s) "external") || allowed s)))
        (location +:+ ": external must be externally managed");
  _ ← admit_if (negb (bool_decide (functional_status s ∈ ["failed"; "unverified"]) && allowed s))
        (location +:+ ": failed/unverified function cannot be enabled");
  _ ← admit_if (negb (bool_decide (recovery s ∈ ["failed"; "unverified"]) && allowed s))
        (location +:+ ": failed/unverified recovery cannot be enabled");
  admit_if (negb (allowed s && negb (installable s)))
    (location +:+ ": enableable entry requires installation").

Definition read_enablement (item : list (string * json)) (location : string) : result bool :=
  let location := location +:+ ".enablement" in
  enablement ← _exact (get "enablement" item) ["allowed"; "blocker"] location;
  allowed ← member_bool enablement "allowed" location;
  _ ← match get "blocker" enablement with
      | JNull => Ok ""
      | v => _string v (location +:+ ".blocker") false
      end;
  Ok allowed.

(** The functional qualification: its status and recovery. *)
Definition qualification (item : list (string * json)) (location : string)
    : result (string * string) :=
  let location := location +:+ ".functional_qualification" in
  functional ← _exact (get "functional_qualification" item)
    ["status"; "scope"; "recovery"; "evidence"] location;
  status ← field_string functional "status" location;
  recovery ← field_string functional "recovery" location;
  _ ← admit_if (bool_decide (status ∈ _FUNCTIONAL) && bool_decide (recovery ∈ _RECOVERY))
        (location +:+ " has unsupported status");
  _ ← field_string functional "scope" location;
  _ ← _evidence (get "evidence" functional) (location +:+ ".evidence") (status =? "passed");
  Ok (status, recovery).

Definition read_rollback (item : list (string * json)) (location : string) : result unit :=
  let location := location +:+ ".rollback" in
  rollback ← _exact (get "rollback" item) ["owner"; "steps"] location;
  _ ← field_string rollback "owner" location;
  steps ← _strings (get "steps" rollback) (location +:+ ".steps");
  admit_if (negb (bool_decide (steps = []))) (location +:+ ".steps must not be empty").

Definition _validate_entry (index : nat) (entry : json) : result (list (string * json)) :=
  let location := at_index "extensions" index in
  item ← _exact entry _ENTRY location;
  _ ← formed _ID item "id" location " is invalid";
  _ ← map_result (λ f, field_string item f location) ["name"; "repository"];
  _ ← _source (get "source" item) (location +:+ ".source");
  maturity ← field_string item "maturity" location;
  availability ← field_string item "availability" location;
  _ ← admit_if (bool_decide (maturity ∈ _MATURITY) && bool_decide (availability ∈ _AVAILABILITY))
        (location +:+ " has unsupported maturity or availability");
  installation ← _installation (get "installation" item) (location +:+ ".installation");
  allowed ← read_enablement item location;
  _ ← _runtime_requirements (get "runtime_requirements" item)
        (location +:+ ".runtime_requirements");
  '(status, recovery) ← qualification item location;
  effects ← member_array item "tested_effects" location;
  _ ← map_result_i (tested_effect location) effects;
  scenarios ← member_array item "expected_scenarios" location;
  _ ← map_result_i (expected_scenario location) scenarios;
  _ ← string_pair item "recommendation" "level" "reason" location;
  _ ← string_pair item "resource_tradeoff" "benefit" "cost" location;
  conflicts ← member_array item "conflicts" location;
  _ ← map_result_i (conflict_entry location) conflicts;
  _ ← read_rollback item location;
  _ ← admission (mkStanding maturity availability (bool_decide (is_Some installation)) allowed
                   status recovery) location;
  Ok item.

(** ** Catalogs *)

Definition entry_id (item : list (string * json)) : string :=
  match get "id" item with JStr i => i | _ => "" end.

Definition parse_catalog (payload : json) : result (list (string * json)) :=
  catalog ← _exact payload _TOP "catalog";
  _ ← admit_if (bool_decide (get "schema" catalog = JStr CATALOG_SCHEMA)) "unsupported catalog schema";
  _ ← field_string catalog "generated_at" "catalog";
  _ ← _source (get "source" catalog) "catalog.source";
  policy ← _exact (get "policy" catalog) ["availability"; "performance"; "preview"; "runtime_state"]
    "catalog.policy";
  _ ← map_result (λ kv : string * json, _string kv.2 ("catalog.policy." +:+ kv.1) false) policy;
  extensions ← match get "extensions" catalog with
    | JArr (e :: l) => Ok (e :: l)
    | _ => refuse "catalog.extensions must be a non-empty array"
    end;
  parsed ← map_result_i _validate_entry extensions;
  let ids := map entry_id parsed in
  _ ← admit_if (bool_decide (ids = sort_by id str_leb ids) && negb (has_dups ids))
        "catalog extension IDs must be unique and sorted";
  Ok catalog.

Section File.
Context (is_symlink is_file : string → bool) (read_text : string → result string)
  (decode : string → option json).

Definition load_catalog (path : string) : result (list (string * json)) :=
  if is_symlink path || negb (is_file path)
  then refuse "catalog must be a regular non-symlink file"
  else
    match read_text path with
    | Ok text =>
        match decode text with
        | Some payload => parse_catalog payload
        | None => refuse "catalog cannot be read as JSON"
        end
    | Err e => if is_oserror e then refuse "catalog cannot be read as JSON" else Err e
    end.

(** [activation_blocker] of an entry of a parsed catalog. *)
Definition activation_blocker (entry : list (string * json)) : option string :=
  let enablement := match get "enablement" entry with JObj e => e | _ => [] end in
  if truthy (get "allowed" enablement) then None
  else Some (match get "blocker" enablement with
             | JStr (String c s) => String c s
             | _ => "catalog entry is not enableable"
             end).

(** ** [_catalog_command] *)

Variant catalog_action :=
  | Validate | ListEntries (include_preview : bool) | Inspect (extension_id : string).

Definition entries (catalog : list (string * json)) : list json :=
  match get "extensions" catalog with JArr l => l | _ => [] end.

Definition members_of (entry : json) : list (string * json) :=
  match entry with JObj kvs => kvs | _ => [] end.

Definition _catalog_command (path : string) (a : catalog_action) : result json :=
  catalog ← load_catalog path;
  match a with
  | Validate =>
      Ok (JObj [("schema", get "schema" catalog);
                ("extensions", JInt (Z.of_nat (length (entries catalog)))); ("valid", JBool true)])
  | ListEntries include_preview =>
      Ok (JArr (List.filter (λ e, include_preview
        || negb (bool_decide (get "availability" (members_of e) = JStr "preview"))) (entries catalog)))
  | Inspect extension_id =>
      match List.filter (λ e, bool_decide (get "id" (members_of e) = JStr extension_id))
              (entries catalog) with
      | e :: _ => Ok e
      | [] => Err (ValueError ("catalog extension '" +:+ extension_id +:+ "' was not found"))
      end
  end.
End File.
