(* ===== verification/CatalogProofs.v ===== *)
(** * CatalogProofs: what a catalog that is accepted promises

    The admission policy holds for every entry of an accepted catalog, and refusals are always
    [CatalogError]s. *)

From S2P Require Import Prelude Effects Json Sha256 JsonText JsonFacts Manifest ManifestProofs ProviderPlans Catalog.

Local Open Scope string_scope.
Local Open Scope list_scope.

(** ** Readers *)

Lemma exact_ok v expected loc item : _exact v expected loc = Ok item → v = JObj item.
Proof.
  unfold _exact, _object. destruct v as [| | | | |kvs]; try done.
  cbn [mbind result_bind]. by intros [_ [= ->]]%check_bind.
Qed.

Lemma text_ok v loc empty s : _string v loc empty = Ok s → v = JStr s.
Proof. unfold _string. destruct v; try done. destruct (_ || _); [by intros [= ->]|done]. Qed.

Lemma formed_ok form item field loc why s :
  formed form item field loc why = Ok s → get field item = JStr s ∧ form s = true.
Proof. by intros (s' & Hs%text_ok & [Hf [= ->]]%check_bind)%result_bind_ok. Qed.

Lemma member_bool_ok item field loc b : member_bool item field loc = Ok b → get field item = JBool b.
Proof. unfold member_bool. destruct (get field item); try done. by intros [= ->]. Qed.

Lemma texts_ok v loc l : Catalog._strings v loc = Ok l → v = JArr (JStr <$> l) ∧ NoDup l.
Proof.
  unfold Catalog._strings. intros (items & Hi & Hl)%result_bind_ok.
  apply result_bind_ok in Hl as (strings & Hs & [Hd [= ->]]%check_bind).
  apply negb_true_iff, has_dups_false in Hd. split; [|done].
  destruct v as [| | | |items'|]; try done. injection Hi as ->. f_equal.
  apply map_result_ok in Hs. clear Hd. induction Hs as [|x y items l Hx _ IH]; [done|]. cbn.
  destruct x; try done. injection Hx as ->. by rewrite IH.
Qed.

Lemma evidence_ok v loc required l :
  _evidence v loc required = Ok l → v = JArr (JStr <$> l) ∧ (required = true → l ≠ []).
Proof.
  intros (l' & Hl%texts_ok & [Hr [= ->]]%check_bind)%result_bind_ok. split; [apply Hl|].
  intros ->. cbn in Hr. by reflect.
Qed.

(** A source that is pinned to a commit, with the digest of its manifest. *)
Definition pinned (installation : json) : Prop :=
  ∃ item commit digest, installation = JObj item ∧ get "type" item = JStr "python-source"
    ∧ get "commit" item = JStr commit ∧ _SHA commit = true
    ∧ get "manifest_sha256" item = JStr digest ∧ _DIGEST digest = true.

Lemma installation_ok v loc o :
  _installation v loc = Ok o → (is_Some o ∧ pinned v) ∨ (o = None ∧ v = JNull).
Proof.
  unfold _installation. destruct (decide (v = JNull)) as [->|Hv]; [intros [= <-]; by right|].
  intros Hi. left. assert (∃ item, _exact v ["type"; "repository"; "commit"; "manifest_path";
    "manifest_sha256"; "source_subdir"; "entrypoint"] loc = Ok item ∧ o = Some item
    ∧ get "type" item = JStr "python-source"
    ∧ (∃ c, get "commit" item = JStr c ∧ _SHA c = true)
    ∧ ∃ d, get "manifest_sha256" item = JStr d ∧ _DIGEST d = true)
    as (item & He & -> & Ht & (c & Hc & Hcf) & d & Hd & Hdf).
  { destruct v; try done; apply result_bind_ok in Hi as (item & He & Hi); try done.
    apply check_bind in Hi as [Ht%bool_decide_eq_true Hi].
    apply result_bind_ok in Hi as (? & _ & Hi). apply result_bind_ok in Hi as (c & Hc%formed_ok & Hi).
    apply result_bind_ok in Hi as (? & _ & Hi). apply result_bind_ok in Hi as (d & Hd%formed_ok & Hi).
    apply result_bind_ok in Hi as (? & _ & Hi). apply result_bind_ok in Hi as (? & _ & Hi).
    apply result_bind_ok in Hi as (? & _ & Hi). apply result_bind_ok in Hi as (? & _ & [= <-]).
    exists item. split_and!; [done..|by exists c|by exists d]. }
  split; [by eexists|]. exists item, c, d. by rewrite (exact_ok _ _ _ _ He).
Qed.

(** ** The admission policy *)

Record policy_holds (s : Standing) : Prop := {
  ph_enableable : allowed s = true → installable s = true
    ∧ functional_status s ∉ ["failed"; "unverified"] ∧ recovery s ∉ ["failed"; "unverified"]
    ∧ maturity s ∉ ["preview"; "external"];
  ph_qualified : maturity s = "qualified" → functional_status s = "passed" ∧ recovery s = "passed"
    ∧ installable s = true ∧ availability s = "available" ∧ allowed s = true;
  ph_withheld : maturity s ∈ ["preview"; "external"] → availability s = maturity s }.

Lemma same_true x y : same x y = true ↔ x = y.
Proof. apply String.eqb_eq. Qed.

(** The checks are the policy. *)
Lemma admission_iff s loc : admission s loc = Ok tt ↔ policy_holds s.
Proof.
  unfold admission, admit_if. rewrite !check_bind, check_ok. destruct s as [m a i al f r]. cbn.
  rewrite !negb_true_iff. unfold same.
  split.
  - intros (H1 & H2 & H3 & H4 & H5 & H6 & H7). constructor; cbn.
    + intros ->. rewrite !andb_true_r in *. rewrite !orb_true_r, !andb_true_r in *.
      apply negb_false_iff in H7. reflect. set_solver.
    + intros ->. cbn in *. apply orb_false_iff in H1 as [??]. rewrite !orb_false_iff in H2.
      rewrite !negb_false_iff in *. destruct H2 as [[-> ?] ->]. by reflect.
    + intros Hm. apply elem_of_cons in Hm as [->|Hm]; [|apply list_elem_of_singleton in Hm as ->];
        cbn in *; [apply orb_false_iff in H3 as [H3 _]|apply orb_false_iff in H4 as [H4 _]]; by reflect.
  - intros [He Hq Hw]. cbn in *. split_and!.
    + destruct (String.eqb_spec m "qualified") as [->|]; [|done]. by destruct (Hq eq_refl) as (-> & -> & _).
    + destruct (String.eqb_spec m "qualified") as [->|]; [|done].
      by destruct (Hq eq_refl) as (_ & _ & -> & -> & ->).
    + destruct (String.eqb_spec m "preview") as [->|]; [|done]. rewrite Hw by set_solver.
      destruct al; [|done]. destruct He as (_ & _ & _ & Hm); set_solver.
    + destruct (String.eqb_spec m "external") as [->|]; [|done]. rewrite Hw by set_solver.
      destruct al; [|done]. destruct He as (_ & _ & _ & Hm); set_solver.
    + destruct al; [|by rewrite andb_false_r]. rewrite andb_true_r. apply bool_decide_eq_false.
      by destruct He as (_ & ? & _).
    + destruct al; [|by rewrite andb_false_r]. rewrite andb_true_r. apply bool_decide_eq_false.
      by destruct He as (_ & _ & ? & _).
    + destruct al; [|done]. by destruct He as (-> & _).
Qed.

(** ** Entries *)

Definition qualification_of (e : list (string * json)) : list (string * json) :=
  members_of (get "functional_qualification" e).

(** The standing of an entry, read from its members. *)
Record stands (e : list (string * json)) (s : Standing) : Prop := {
  st_maturity : get "maturity" e = JStr (maturity s);
  st_availability : get "availability" e = JStr (availability s);
  st_installation : if installable s then pinned (get "installation" e)
                    else get "installation" e = JNull;
  st_allowed : Catalog.activation_blocker e = None ↔ allowed s = true;
  st_function : get "status" (qualification_of e) = JStr (functional_status s);
  st_recovery : get "recovery" (qualification_of e) = JStr (recovery s);
  st_known : maturity s ∈ _MATURITY ∧ availability s ∈ _AVAILABILITY
    ∧ functional_status s ∈ _FUNCTIONAL ∧ recovery s ∈ _RECOVERY;
  st_evidence : functional_status s = "passed" →
    ∃ l, get "evidence" (qualification_of e) = JArr (JStr <$> l) ∧ l ≠ [] }.

Lemma enablement_ok item loc b :
  read_enablement item loc = Ok b → Catalog.activation_blocker item = None ↔ b = true.
Proof.
  unfold read_enablement, Catalog.activation_blocker. cbn zeta.
  intros (en & ->%exact_ok & Hb)%result_bind_ok.
  apply result_bind_ok in Hb as (al & ->%member_bool_ok & Hb).
  apply result_bind_ok in Hb as (? & _ & [= <-]). by destruct al.
Qed.

Lemma qualification_ok item loc st r :
  qualification item loc = Ok (st, r) →
  get "status" (qualification_of item) = JStr st ∧ get "recovery" (qualification_of item) = JStr r
  ∧ st ∈ _FUNCTIONAL ∧ r ∈ _RECOVERY
  ∧ (st = "passed" →
     ∃ l, get "evidence" (qualification_of item) = JArr (JStr <$> l) ∧ l ≠ []).
Proof.
  unfold qualification, qualification_of, field_string. cbn zeta.
  intros (f & ->%exact_ok & Hq)%result_bind_ok. cbn [members_of].
  apply result_bind_ok in Hq as (st' & Hst%text_ok & Hq).
  apply result_bind_ok in Hq as (r' & Hr%text_ok & Hq).
  apply check_bind in Hq as [Hin Hq]. apply result_bind_ok in Hq as (? & _ & Hq).
  apply result_bind_ok in Hq as (l & Hl%evidence_ok & [= -> ->]). reflect.
  split_and!; [done..|]. intros ->. exists l. split; [apply Hl|]. by apply Hl.
Qed.

Lemma entry_ok i e item :
  _validate_entry i e = Ok item →
  e = JObj item ∧ _ID (entry_id item) = true ∧ ∃ s, stands item s ∧ policy_holds s.
Proof.
  unfold _validate_entry. cbn zeta. intros (item' & ->%exact_ok & He)%result_bind_ok.
  apply result_bind_ok in He as (id' & [Hid Hidf]%formed_ok & He).
  do 2 apply result_bind_ok in He as (? & _ & He).
  apply result_bind_ok in He as (m & Hm%text_ok & He).
  apply result_bind_ok in He as (a & Ha%text_ok & He). apply check_bind in He as [Hk He].
  apply result_bind_ok in He as (inst & Hi%installation_ok & He).
  apply result_bind_ok in He as (al & Hal%enablement_ok & He).
  apply result_bind_ok in He as (? & _ & He).
  apply result_bind_ok in He as ([st r] & Hq%qualification_ok & He).
  do 9 apply result_bind_ok in He as (? & _ & He).
  apply result_bind_ok in He as ([] & Hp%admission_iff & [= ->]).
  split; [done|]. split; [by unfold entry_id; rewrite Hid|].
  destruct Hq as (Hst & Hr & Hst2 & Hr2 & Hev). reflect. eexists. split; [|exact Hp].
  constructor; cbn; try done. destruct Hi as [[Hs Hpin]|[-> Hn]].
  - by rewrite bool_decide_true.
  - by rewrite bool_decide_false by (by intros []).
Qed.

(** C29. An accepted catalog keeps the admission policy, entry by entry: identifiers are well
    formed, strictly increasing; an entry can be enabled only from a source pinned to a full
    commit and a manifest digest, never with a failed or unverified function or recovery, and
    never as preview or external; a qualified entry has passed both, with evidence, is
    available and can be enabled; and a preview or external entry is marked as such. *)
Theorem catalog_policy payload c :
  parse_catalog payload = Ok c →
  ∃ items, entries c = map JObj items ∧ items ≠ []
    ∧ NoDup (map entry_id items) ∧ map entry_id items = sort_by id str_leb (map entry_id items)
    ∧ Forall (λ e, _ID (entry_id e) = true
        ∧ ∃ s, stands e s
          ∧ (Catalog.activation_blocker e = None →
               pinned (get "installation" e)
               ∧ functional_status s ∉ ["failed"; "unverified"]
               ∧ recovery s ∉ ["failed"; "unverified"] ∧ maturity s ∉ ["preview"; "external"])
          ∧ (maturity s = "qualified" →
               functional_status s = "passed" ∧ recovery s = "passed" ∧ availability s = "available"
               ∧ Catalog.activation_blocker e = None)
          ∧ (maturity s ∈ ["preview"; "external"] → availability s = maturity s)) items.
Proof.
  unfold parse_catalog. intros (cat & ->%exact_ok & Hc)%result_bind_ok.
  apply check_bind in Hc as [_ Hc]. do 2 apply result_bind_ok in Hc as (? & _ & Hc).
  apply result_bind_ok in Hc as (? & _ & Hc). apply result_bind_ok in Hc as (? & _ & Hc).
  apply result_bind_ok in Hc as (exts & Hx & Hc). apply result_bind_ok in Hc as (items & Hi & Hc).
  apply check_bind in Hc as [Hs [= ->]]. apply andb_true_iff in Hs as [Hs Hd].
  apply bool_decide_eq_true in Hs. apply negb_true_iff, has_dups_false in Hd.
  assert (get "extensions" c = JArr exts ∧ exts ≠ []) as [Hex Hne].
  { destruct (get "extensions" c) as [| | | |[|e l]|]; try done. by injection Hx as <-. }
  apply map_result_i_ok in Hi as [Hlen Hi].
  assert (∀ k e item, exts !! k = Some e → items !! k = Some item → e = JObj item
    ∧ _ID (entry_id item) = true ∧ ∃ s, stands item s ∧ policy_holds s) as Hall
    by (intros; by eapply entry_ok, Hi).
  exists items. unfold entries. rewrite Hex. split_and!; [| |done|done|].
  - apply list_eq. intros k. rewrite list_lookup_fmap.
    destruct (exts !! k) as [e|] eqn:Ee, (items !! k) as [item|] eqn:Ei; cbn; [| | |done].
    + by destruct (Hall k e item Ee Ei) as [-> _].
    + apply lookup_lt_Some in Ee. apply lookup_ge_None in Ei. lia.
    + apply lookup_lt_Some in Ei. apply lookup_ge_None in Ee. lia.
  - intros ->. by destruct exts.
  - apply Forall_lookup. intros k item Ei. destruct (exts !! k) as [e|] eqn:Ee.
    2:{ apply lookup_lt_Some in Ei. apply lookup_ge_None in Ee. lia. }
    destruct (Hall k e item Ee Ei) as (_ & Hid & s & Hst & [He Hq Hw]). split; [done|].
    exists s. split; [done|]. destruct Hst as [_ _ Hin Hb _ _ _ _]. rewrite Hb. split_and!; [|naive_solver|done].
    intros Hal. destruct (He Hal) as (Hinst & ? & ? & ?). rewrite Hinst in Hin. by split_and!.
Qed.

(** ** Refusals *)

Definition is_catalog_error (e : exn) : Prop := ∃ msg, e = CatalogError msg.

Ltac catalog_step :=
  match goal with
  | |- raises _ (let _ := _ in _) => cbv zeta
  | |- raises _ (_ ≫= _) => apply raises_bind; [|intros ??]
  | |- raises _ (Ok _) => exact I
  | |- raises _ (refuse _) => by eexists
  | |- raises _ (admit_if _ _) => apply raises_check; intros _; by eexists
  | |- raises _ (map_result_i _ _) => apply raises_map_result_i; intros ???
  | |- raises _ (map_result _ _) => apply raises_map_result; intros ??
  | |- raises _ (if ?b then _ else _) => destruct b
  | |- raises _ (match ?x with _ => _ end) => destruct x
  end.
Ltac by_steps := repeat catalog_step.

Lemma exact_refuses v expected loc : raises is_catalog_error (_exact v expected loc).
Proof. unfold _exact, _object. by_steps. Qed.
Lemma string_refuses v loc empty : raises is_catalog_error (_string v loc empty).
Proof. unfold _string. by_steps. Qed.
Lemma strings_refuses v loc : raises is_catalog_error (Catalog._strings v loc).
Proof. unfold Catalog._strings. by_steps. Qed.
Lemma evidence_refuses v loc required : raises is_catalog_error (_evidence v loc required).
Proof. unfold _evidence. by_steps; apply strings_refuses. Qed.
Lemma field_refuses item field loc : raises is_catalog_error (field_string item field loc).
Proof. apply string_refuses. Qed.
Lemma formed_refuses form item field loc why :
  raises is_catalog_error (formed form item field loc why).
Proof. unfold formed. by_steps; apply field_refuses. Qed.
Lemma array_refuses item field loc : raises is_catalog_error (member_array item field loc).
Proof. unfold member_array. by_steps. Qed.
Lemma bool_refuses item field loc : raises is_catalog_error (member_bool item field loc).
Proof. unfold member_bool. by_steps. Qed.

Create HintDb catalog_db.
#[export] Hint Resolve exact_refuses string_refuses strings_refuses evidence_refuses field_refuses
  formed_refuses array_refuses bool_refuses : catalog_db.
Ltac refuses := by_steps; auto with catalog_db.

Lemma source_refuses v loc : raises is_catalog_error (_source v loc).
Proof. unfold _source. refuses. Qed.
Lemma installation_refuses v loc : raises is_catalog_error (_installation v loc).
Proof. unfold _installation. refuses. Qed.
Lemma requirements_refuses v loc : raises is_catalog_error (_runtime_requirements v loc).
Proof. unfold _runtime_requirements, additional_model, _object. refuses. Qed.
Lemma admission_refuses s loc : raises is_catalog_error (admission s loc).
Proof. unfold admission. refuses. Qed.
Lemma qualification_refuses item loc : raises is_catalog_error (qualification item loc).
Proof. unfold qualification. refuses. Qed.
#[export] Hint Resolve source_refuses installation_refuses requirements_refuses admission_refuses
  qualification_refuses : catalog_db.

Lemma entry_refuses i e : raises is_catalog_error (_validate_entry i e).
Proof.
  unfold _validate_entry, read_enablement, tested_effect, expected_scenario, string_pair,
    conflict_entry, read_rollback. refuses.
Qed.

(** Whatever the value, a catalog is parsed or refused with a [CatalogError]. *)
Theorem catalog_refusals payload : raises is_catalog_error (parse_catalog payload).
Proof. unfold parse_catalog. refuses; apply entry_refuses. Qed.

(** ** A catalog *)

Module CatalogDemo.

Definition commit : string := "0123456789abcdef0123456789abcdef01234567".
Definition digest : string := "sha256:" +:+ String.concat "" (repeat "01234567" 8).

Definition strings (l : list string) : json := JArr (map JStr l).

Definition entry (i maturity availability status recovery : string) (installation : json)
    (allowed : bool) : json :=
  JObj [("id", JStr i); ("name", JStr i); ("repository", JStr "https://example.org/r");
    ("source", JObj [("ref", JStr "main"); ("commit", JStr commit)]);
    ("maturity", JStr maturity); ("availability", JStr availability);
    ("installation", installation);
    ("enablement", JObj [("allowed", JBool allowed); ("blocker", JNull)]);
    ("runtime_requirements", JObj [("models", strings []); ("hardware", strings ["910B"]);
       ("topologies", strings []); ("core", JStr "any"); ("ascend", JStr "any");
       ("additional_models", JArr []); ("storage", JStr "none"); ("hbm", JStr "none");
       ("environment", JObj [])]);
    ("functional_qualification", JObj [("status", JStr status); ("scope", JStr "unit");
       ("recovery", JStr recovery); ("evidence", strings ["docs/e.md"])]);
    ("tested_effects", JArr []); ("expected_scenarios", JArr []);
    ("recommendation", JObj [("level", JStr "use"); ("reason", JStr "tested")]);
    ("resource_tradeoff", JObj [("benefit", JStr "speed"); ("cost", JStr "memory")]);
    ("conflicts", JArr []); ("rollback", JObj [("owner", JStr "ops"); ("steps", strings ["disable"])])].

Definition installation : json :=
  JObj [("type", JStr "python-source"); ("repository", JStr "https://example.org/r");
    ("commit", JStr commit); ("manifest_path", JStr "m.json"); ("manifest_sha256", JStr digest);
    ("source_subdir", JStr "");
    ("entrypoint", JObj [("group", JStr "g"); ("name", JStr "n")])].

Definition payload (extensions : list json) : json :=
  JObj [("schema", JStr CATALOG_SCHEMA); ("generated_at", JStr "2026-01-01");
    ("source", JObj [("ref", JStr "main"); ("commit", JStr commit)]);
    ("policy", JObj [("availability", JStr "a"); ("performance", JStr "p"); ("preview", JStr "v");
                     ("runtime_state", JStr "r")]);
    ("extensions", JArr extensions)].

Definition feed : json :=
  payload [entry "org.a" "qualified" "available" "passed" "passed" installation true;
           entry "org.b" "preview" "preview" "unverified" "unverified" JNull false].

Example unpinned :
  parse_catalog (payload [entry "org.a" "experimental" "available" "passed" "passed" JNull true])
  = Err (CatalogError "extensions[0]: enableable entry requires installation").
Proof. vm_compute. reflexivity. Qed.

(** Only the preview is left out of a listing without previews. *)
Example listed :
  _catalog_command (λ _, false) (λ _, true) (λ _, Ok "feed") (λ _, Some feed) "f" (ListEntries false)
  = Ok (JArr [entry "org.a" "qualified" "available" "passed" "passed" installation true]).
Proof. vm_compute. reflexivity. Qed.

Lemma catalog_policy_witness :
  ∃ items, entries (members_of feed) = map JObj items ∧ items ≠ [].
Proof.
  destruct (catalog_policy feed (members_of feed)) as (items & He & Hn & _).
  - vm_compute. reflexivity.
  - by exists items.
Defined.
End CatalogDemo.
