(* ===== verification/Discovery.v ===== *)
(** * Discovery: installed bundles, without importing their code

    src/vllm_hust_ext/discovery.py and load_manifest of manifest.py, on a POSIX system.  The
    installed registrations and entry points are data; the file system, the decoder of JSON
    text and the reading of a file URL ([urlparse] and [unquote]) are arguments.  Paths are
    strings in normal form.  The [entry_points] of a bundle, which nothing reads, are left out. *)

From S2P Require Import Prelude Effects Json JsonText EcpaModel Manifest ProviderPlans RuntimeEvidence VllmProvider.
From S2P Require ContractParser.

Local Open Scope string_scope.
Local Open Scope list_scope.

Definition ENTRY_POINT_GROUP : string := "vllm_hust.extension_bundles".
Definition MANIFEST_FILENAMES : list string :=
  ["vllm-hust-extension-v0.3.json"; "vllm-hust-extension-v0.2.json";
   "vllm-hust-extension-v1.json"; "extension-bundle-v1.json"].

(** What an installed distribution shows: its name and version, its files below the directory it
    is installed in, and the text of direct_url.json. *)
Record Distribution := mkDistribution {
  metadata_name : option string; version : string; location : string; files : list string;
  direct_url_text : option string }.

(** [distribution.locate_file(file)]. *)
Definition locate_file (d : Distribution) (file : string) : string := location d +:+ "/" +:+ file.

(** An entry point of importlib.metadata. *)
Record Installed := mkInstalled {
  in_group : string; in_name : string; in_value : string; dist : option Distribution }.

Definition discovery_error {A} (msg : string) : result A := Err (DiscoveryError msg).

Definition quoted (s : string) : string := "'" +:+ s +:+ "'".

(** A dotted module as a path. *)
Definition slashes (module : string) : string := String.concat "/" (split_on "." module).

(** [path.suffix.lower() in {".pyd", ".so"}] of a name [module.rest]. *)
Definition extension_suffix (rest : string) : bool :=
  bool_decide (lower (after_last "." rest) ∈ ["pyd"; "so"]).

(** A file of a module, given by its path without suffix. *)
Definition module_file (module_path path : string) : bool :=
  (path =? module_path +:+ ".py") || (path =? module_path +:+ "/__init__.py")
  || match strip_prefix (module_path +:+ ".") path with
     | Some rest => negb (has_char "/" rest) && extension_suffix rest
     | None => false
     end.

Section Discovery.
Context `{ContractParser.Packaging}
  (decode : string → option json) (file_url : string → result (option string))
  (is_file : string → bool) (is_symlink : string → bool)
  (read_bytes read_text : string → result string).

(** ** Manifests *)

Definition load_manifest (path : string) : result BundleManifest :=
  if is_symlink path || negb (is_file path)
  then Err (ManifestError "manifest must be a regular non-symlink file")
  else
    match read_text path with
    | Ok text =>
        match decode text with
        | Some payload => parse_manifest payload
        | None => Err (ManifestError "manifest cannot be read as JSON")
        end
    | Err e =>
        if is_oserror e then Err (ManifestError "manifest cannot be read as JSON") else Err e
    end.

(** ** Distributions *)

(** [json.loads] of direct_url.json; [None] when there is none. *)
Definition direct_url (d : Distribution) : result (option (list (string * json))) :=
  match direct_url_text d with
  | None | Some EmptyString => Ok None
  | Some text =>
      match decode text with
      | Some (JObj url) => Ok (Some url)
      | Some _ => Err (AttributeError "object has no attribute 'get'")
      | None => discovery_error "editable direct_url.json is invalid"
      end
  end.

Definition editable (url : list (string * json)) : result bool :=
  match get_default "dir_info" url (JObj []) with
  | JObj info => Ok (bool_decide (get "editable" info = JBool true))
  | _ => Err (AttributeError "object has no attribute 'get'")
  end.

(** The path of an editable install's local file URL. *)
Definition editable_root (d : Distribution) : result (option string) :=
  url ← direct_url d;
  match url with
  | None => Ok None
  | Some url =>
      root ← match get_default "url" url (JStr "") with
        | JStr u => file_url u
        | v => if truthy v then Err (AttributeError "object has no attribute 'decode'")
               else Ok None
        end;
      e ← editable url;
      Ok (if (e : bool) then root else None)
  end.

Definition _is_editable (ep : Installed) : result bool :=
  match dist ep with
  | None => Ok false
  | Some d =>
      url ← direct_url d;
      match url with Some url => editable url | None => Ok false end
  end.

Definition relative_manifests (value : string) : list string :=
  map (λ filename, slashes value +:+ "/" +:+ filename) MANIFEST_FILENAMES.

(** The two places an editable checkout keeps its packages in. *)
Definition source_roots (root : string) : list string := [root; root +:+ "/src"].

Definition _manifest_path (ep : Installed) : result string :=
  _ ← check (is_dotted (in_value ep))
        (DiscoveryError (quoted (in_name ep) +:+ " must register a static module directory"));
  match dist ep with
  | None => discovery_error (quoted (in_name ep) +:+ " has no distribution metadata")
  | Some d =>
      let relative := relative_manifests (in_value ep) in
      let found := map (locate_file d) (List.filter (λ f, bool_decide (f ∈ relative)) (files d)) in
      found ← (if bool_decide (found = []) then
                 root ← editable_root d;
                 Ok match root with
                    | Some root =>
                        List.filter is_file
                          (concat (map (λ r, map (λ p, r +:+ "/" +:+ p) relative)
                                     (source_roots root)))
                    | None => []
                    end
               else Ok found);
      match found with
      | [path] => Ok path
      | _ => discovery_error (quoted (in_name ep)
               +:+ " must contain exactly one Bundle v1 manifest")
      end
  end.

(** The module of an entry point's value. *)
Definition target_module (value : string) : string :=
  string_of_list_ascii (strip (list_ascii_of_string (partition ":" value).1)).

Definition _entry_point_target_is_packaged (ep : Installed) : result bool :=
  match dist ep with
  | None => Ok false
  | Some d =>
      let module := target_module (in_value ep) in
      if negb (is_dotted module) then Ok false
      else if existsb (module_file (slashes module)) (files d) then Ok true
      else
        root ← editable_root d;
        Ok match root with
           | Some root =>
               existsb (λ r, is_file (r +:+ "/" +:+ slashes module +:+ ".py")
                             || is_file (r +:+ "/" +:+ slashes module +:+ "/__init__.py"))
                 (source_roots root)
           | None => false
           end
  end.

(** ** Bundles *)

(** The contents of the manifest of a registration that is not the only one of its name. *)
Definition registered_content (bundle_id : string) (ep : Installed) : result string :=
  match (path ← _manifest_path ep; read_bytes path) with
  | Ok content => Ok content
  | Err (DiscoveryError _) =>
      discovery_error ("duplicate Bundle registration " +:+ quoted bundle_id
        +:+ " cannot be verified")
  | Err e =>
      if is_oserror e
      then discovery_error ("duplicate Bundle registration " +:+ quoted bundle_id
             +:+ " cannot be verified")
      else Err e
  end.

Definition dist_name (ep : Installed) : string :=
  match dist ep with Some d => default "" (metadata_name d) | None => "" end.

(** Wheels before editable installs, then by name. *)
Definition preference_leb (a b : bool * string) : bool :=
  if Bool.eqb a.1 b.1 then str_leb a.2 b.2 else negb a.1.

(** The registration that stands for all of one name: they must agree byte for byte. *)
Definition choose (bundle_id : string) (items : list Installed) : result Installed :=
  match items with
  | [ep] => Ok ep
  | _ =>
      contents ← map_result (registered_content bundle_id) items;
      _ ← check (bool_decide (length (remove_dups contents) = 1%nat))
            (DiscoveryError ("duplicate Bundle registrations: " +:+ list_repr [bundle_id]));
      keyed ← map_result (λ ep, e ← _is_editable ep; Ok (e, dist_name ep, ep)) items;
      match sort_by fst preference_leb keyed with
      | (_, ep) :: _ => Ok ep
      | [] => Err (IndexError "list index out of range")
      end
  end.

(** The installed entry points of a distribution, the registrations of bundles aside. *)
Definition related (every : list Installed) (name : string) : list Installed :=
  List.filter (λ ep, bool_decide (is_Some (dist ep)) && (dist_name ep =? name)
                     && negb (in_group ep =? ENTRY_POINT_GROUP)) every.

Definition pair_leb (a b : string * string) : bool :=
  if a.1 =? b.1 then str_leb a.2 b.2 else str_leb a.1 b.1.

Definition declared_pairs (m : BundleManifest) : list (string * string) :=
  map (λ e, (ep_group e, ep_name e)) (entry_points (activation m)).
Definition installed_pair (ep : Installed) : string * string := (in_group ep, in_name ep).

(** Declared entry points that the distribution does not install. *)
Definition missing_pairs (m : BundleManifest) (installed : list Installed)
    : list (string * string) :=
  remove_dups (List.filter (λ p, bool_decide (p ∉ map installed_pair installed))
    (declared_pairs m)).

(** One bundle from its registration. *)
Definition load_bundle (every : list Installed) (bundle_id : string) (registration : Installed)
    : result InstalledBundle :=
  match dist registration with
  | None => discovery_error (quoted bundle_id +:+ " has no distribution metadata")
  | Some d =>
      name ← match metadata_name d with
        | Some (String _ _ as name) => Ok name
        | _ => discovery_error (quoted bundle_id +:+ " has no distribution name")
        end;
      '(path, m) ← match (path ← _manifest_path registration;
                          m ← load_manifest path; Ok (path, m)) with
        | Ok x => Ok x
        | Err (ManifestError msg) =>
            discovery_error (quoted bundle_id +:+ " manifest is invalid: " +:+ msg)
        | Err e => Err e
        end;
      _ ← check (Manifest.bundle_id m =? bundle_id)
            (DiscoveryError ("registration " +:+ quoted bundle_id +:+ " does not match "
               +:+ quoted (Manifest.bundle_id m)));
      let installed := related every name in
      let missing := missing_pairs m installed in
      _ ← check (bool_decide (missing = []))
            (DiscoveryError (quoted bundle_id
               +:+ " declares uninstalled activation entry points: "
               +:+ list_repr (map (λ p, p.1 +:+ ":" +:+ p.2) (sort_by id pair_leb missing))));
      packaged ← map_result (λ ep, b ← _entry_point_target_is_packaged ep; Ok (ep, b))
                   (List.filter (λ ep, bool_decide (installed_pair ep ∈ declared_pairs m))
                      installed);
      let dangling := map fst (List.filter (λ x, negb x.2) packaged) in
      _ ← check (bool_decide (dangling = []))
            (DiscoveryError (quoted bundle_id
               +:+ " declares activation entry-point targets not packaged by its distribution: "
               +:+ list_repr (map (λ ep, in_group ep +:+ ":" +:+ in_name ep +:+ " -> "
                                    +:+ (partition ":" (in_value ep)).1)
                                (sort_by installed_pair pair_leb dangling))));
      Ok (mkBundle bundle_id name (version d) path m)
  end.

(** The registrations of the names that are asked for, by name in the order of appearance. *)
Definition candidates_of (wanted : option (list string)) (registrations : list Installed)
    : list (string * list Installed) :=
  let asked name := match wanted with Some ids => bool_decide (name ∈ ids) | None => true end in
  map (λ name, (name, List.filter (λ ep, in_name ep =? name) registrations))
    (List.filter asked (from_keys (map in_name registrations))).

Definition discover_bundles (registrations every : list Installed) (wanted : option (list string))
    : result (list InstalledBundle) :=
  let candidates := candidates_of wanted registrations in
  chosen ← map_result (λ c : string * list Installed, ep ← choose c.1 c.2; Ok (c.1, ep))
             candidates;
  let missing := List.filter (λ i, bool_decide (i ∉ keys candidates)) (default [] wanted) in
  _ ← check (bool_decide (missing = []))
        (DiscoveryError ("enabled Bundles are not installed: "
           +:+ list_repr (sort_by id str_leb (remove_dups missing))));
  loaded ← map_result (λ c : string * Installed, b ← load_bundle every c.1 c.2; Ok (c.1, b))
             chosen;
  map_result (λ i, match assoc i loaded with Some b => Ok b | None => Err (KeyError i) end)
    (default (sort_by id str_leb (keys loaded)) wanted).

(** Every registration, failures quarantined by name. *)
Definition inventory_step (registrations every : list Installed)
    (acc : list InstalledBundle * list (string * string)) (i : string)
    : result (list InstalledBundle * list (string * string)) :=
  match discover_bundles registrations every (Some [i]) with
  | Ok bundles => Ok (acc.1 ++ bundles, acc.2)
  | Err (DiscoveryError msg) => Ok (acc.1, acc.2 ++ [(i, msg)])
  | Err e => if is_oserror e then Ok (acc.1, acc.2 ++ [(i, exn_str e)]) else Err e
  end.

Definition discover_bundle_inventory (registrations every : list Installed)
    : result (list InstalledBundle * list (string * string)) :=
  fold_result (inventory_step registrations every) ([], [])
    (sort_by id str_leb (remove_dups (map in_name registrations))).
End Discovery.
