(* ===== verification/DiscoveryProofs.v ===== *)
(** * DiscoveryProofs: what discovery returns

    [discover_bundles] looks at each name by itself, so a bundle does not depend on what else
    is asked for; what it returns is admitted, and the inventory fails for no broken name. *)

From S2P Require Import Prelude Effects Json JsonText JsonFacts EcpaModel Manifest ManifestProofs ProviderPlans RuntimeEvidence VllmProvider Discovery.
From S2P Require ContractParser CompilerTheorems.

Local Open Scope string_scope.
Local Open Scope list_scope.

(** ** Lists and dictionaries *)

Lemma from_keys_acc (l seen : list string) :
  NoDup seen →
  let r := fold_left (λ seen x, if bool_decide (x ∈ seen) then seen else seen ++ [x]) l seen in
  NoDup r ∧ ∀ x, x ∈ r ↔ x ∈ seen ∨ x ∈ l.
Proof.
  revert seen. induction l as [|y l IH]; intros seen Hs; cbn.
  - split; [done|]. intros x. rewrite elem_of_nil. tauto.
  - case_bool_decide as Hy.
    + destruct (IH seen Hs) as [Hn Hin]. split; [done|]. intros x. rewrite Hin, elem_of_cons.
      naive_solver.
    + destruct (IH (seen ++ [y])) as [Hn Hin].
      { apply NoDup_app. split_and!; [done| |apply NoDup_singleton].
        by intros x Hx ->%list_elem_of_singleton. }
      split; [done|]. intros x. rewrite Hin, elem_of_app, list_elem_of_singleton, elem_of_cons.
      tauto.
Qed.

Lemma from_keys_nodup l : NoDup (from_keys l).
Proof. apply (from_keys_acc l []), NoDup_nil_2. Qed.

Lemma elem_of_from_keys l x : x ∈ from_keys l ↔ x ∈ l.
Proof.
  unfold from_keys. destruct (from_keys_acc l [] (NoDup_nil_2)) as [_ ->].
  rewrite elem_of_nil. tauto.
Qed.

Lemma map_result_total {A B} (f : A → result B) l :
  (∀ x, x ∈ l → ∃ y, f x = Ok y) → ∃ ys, map_result f l = Ok ys.
Proof.
  induction l as [|x l IH]; intros Hall; [by exists []|].
  destruct (Hall x) as [y Hy]; [by left|].
  destruct IH as [ys Hys]; [intros z Hz; apply Hall; by right|].
  exists (y :: ys). cbn. by rewrite Hy, Hys.
Qed.

Lemma filter_none {A} (f : A → bool) l : (∀ x, x ∈ l → f x = false) → List.filter f l = [].
Proof.
  induction l as [|x l IH]; intros Hf; [done|]. cbn. rewrite (Hf x) by (by left).
  apply IH. intros y Hy. apply Hf. by right.
Qed.

Lemma Forall2_impl_l {A B} (P Q : A → B → Prop) l k :
  Forall2 P l k → (∀ x y, x ∈ l → P x y → Q x y) → Forall2 Q l k.
Proof.
  induction 1 as [|x y l k Hxy _ IH]; intros Himp; [constructor|]. constructor.
  - apply Himp; [by left|done].
  - apply IH. intros a b Ha. apply Himp. by right.
Qed.

(** A dictionary built entry by entry. *)
Lemma map_result_entries {A B} (f : string * A → result B) l ys :
  map_result (λ x, y ← f x; Ok (x.1, y)) l = Ok ys →
  keys ys = keys l ∧ ∀ k y, (k, y) ∈ ys ↔ ∃ x, (k, x) ∈ l ∧ f (k, x) = Ok y.
Proof.
  intros Hm%map_result_ok. split.
  - induction Hm as [|[k x] ky l ys Hx _ IH]; [done|].
    apply result_bind_ok in Hx as (y & _ & [= <-]). unfold keys in *. cbn. by rewrite IH.
  - intros k y. split.
    + intros Hy. apply list_elem_of_lookup in Hy as [i Hi].
      destruct (Forall2_lookup_r _ _ _ _ _ Hm Hi) as ([k' x] & Hx & Hf).
      apply result_bind_ok in Hf as (y' & Hf & [= -> ->]). exists x.
      split; [by eapply list_elem_of_lookup_2|done].
    + intros (x & Hx & Hf). apply list_elem_of_lookup in Hx as [i Hi].
      destruct (Forall2_lookup_l _ _ _ _ _ Hm Hi) as (ky & Hy & Hk).
      cbn in Hk. rewrite Hf in Hk. injection Hk as <-. by eapply list_elem_of_lookup_2.
Qed.

Section Discovery.
Context `{ContractParser.Packaging}
  (decode : string → option json) (file_url : string → result (option string))
  (is_file : string → bool) (is_symlink : string → bool)
  (read_bytes read_text : string → result string)
  (registrations every : list Installed).

Notation discover := (discover_bundles decode file_url is_file is_symlink read_bytes read_text
  registrations every).
Notation choose := (choose decode file_url is_file read_bytes).
Notation load_bundle := (load_bundle decode file_url is_file is_symlink read_text every).

Definition registered (i : string) : list Installed :=
  List.filter (λ ep, in_name ep =? i) registrations.

(** One name by itself. *)
Definition bundle_named (i : string) : result InstalledBundle :=
  if bool_decide (registered i = []) then Err (KeyError i)
  else ep ← choose i (registered i); load_bundle i ep.

Lemma registered_nil i : registered i = [] ↔ i ∉ map in_name registrations.
Proof.
  unfold registered. rewrite list_elem_of_In, in_map_iff. split.
  - intros E (ep & Hi & Hin). assert (In ep (List.filter (λ ep, in_name ep =? i) registrations)) as Hf.
    { apply filter_In. split; [done|]. by apply String.eqb_eq. }
    by rewrite E in Hf.
  - intros Hn. destruct (List.filter _ _) as [|ep l] eqn:E; [done|]. destruct Hn. exists ep.
    assert (In ep (ep :: l)) as Hin by (by left). rewrite <-E in Hin.
    apply filter_In in Hin as [Hin Hi]. split; [|done]. by apply String.eqb_eq.
Qed.

Lemma candidates_spec ids k items :
  (k, items) ∈ candidates_of (Some ids) registrations ↔
  k ∈ ids ∧ registered k ≠ [] ∧ items = registered k.
Proof.
  unfold candidates_of. rewrite list_elem_of_In, in_map_iff, registered_nil. split.
  - intros (name & [= -> <-] & Hin). apply filter_In in Hin as [Hin Hi]. reflect.
    apply list_elem_of_In in Hin; rewrite elem_of_from_keys in Hin. split_and!; [done|intros Hn; by apply Hn|done].
  - intros (Hk & Hr & ->). exists k. split; [done|]. apply filter_In.
    split; [|by apply bool_decide_eq_true].
    apply list_elem_of_In, elem_of_from_keys. destruct (decide (k ∈ map in_name registrations)); tauto.
Qed.

Lemma candidates_keys ids :
  NoDup (keys (candidates_of (Some ids) registrations))
  ∧ ∀ k, k ∈ keys (candidates_of (Some ids) registrations) ↔ k ∈ ids ∧ registered k ≠ [].
Proof.
  split.
  - unfold keys, candidates_of. rewrite <-list_fmap_compose. cbn.
    change (NoDup (map (λ x, x) (List.filter
      (λ name, bool_decide (name ∈ ids)) (from_keys (map in_name registrations))))).
    rewrite map_id. apply NoDup_ListNoDup, List.NoDup_filter, NoDup_ListNoDup, from_keys_nodup.
  - intros k. unfold keys. rewrite list_elem_of_fmap. split.
    + intros ([k' items] & -> & Hin). apply candidates_spec in Hin. tauto.
    + intros [Hk Hr]. exists (k, registered k). split; [done|]. by apply candidates_spec.
Qed.

Lemma bundle_named_ok i b :
  bundle_named i = Ok b ↔
  registered i ≠ [] ∧ ∃ ep, choose i (registered i) = Ok ep ∧ load_bundle i ep = Ok b.
Proof.
  unfold bundle_named. case_bool_decide as Hr; [split; [done|tauto]|].
  rewrite result_bind_ok. tauto.
Qed.

Lemma discover_sound ids bs :
  discover (Some ids) = Ok bs → Forall2 (λ i b, bundle_named i = Ok b) ids bs.
Proof.
  unfold discover_bundles. cbn [default from_option].
  intros (chosen & Hc & Hr)%result_bind_ok. apply check_bind in Hr as [_ Hr].
  apply result_bind_ok in Hr as (loaded & Hl & Hb).
  apply map_result_entries in Hl as [_ Hl]. apply map_result_entries in Hc as [_ Hc].
  apply map_result_ok in Hb. eapply Forall2_impl; [exact Hb|]. intros i b Hi. cbn in Hi.
  destruct (assoc i loaded) as [b'|] eqn:E; [|done]. injection Hi as ->.
  apply assoc_elem_of, Hl in E as (ep & Hep & Hb'). apply Hc in Hep as (items & Hin & Hch).
  apply candidates_spec in Hin as (_ & Hne & ->). apply bundle_named_ok. split; [done|].
  by exists ep.
Qed.

Lemma discover_complete ids bs :
  Forall2 (λ i b, bundle_named i = Ok b) ids bs → discover (Some ids) = Ok bs.
Proof.
  intros Hall. destruct (candidates_keys ids) as [Hnd Hkeys].
  assert (∀ k items, (k, items) ∈ candidates_of (Some ids) registrations →
    items = registered k ∧ ∃ b, bundle_named k = Ok b) as Hnamed.
  { intros k items (Hk & _ & ->)%candidates_spec. split; [done|].
    apply list_elem_of_lookup in Hk as [n Hn].
    destruct (Forall2_lookup_l _ _ _ _ _ Hall Hn) as (b & _ & Hb). by exists b. }
  destruct (map_result_total (λ c : string * list Installed, ep ← choose c.1 c.2; Ok (c.1, ep))
    (candidates_of (Some ids) registrations)) as [chosen Hc].
  { intros [k items] [-> (b & Hb)]%Hnamed. apply bundle_named_ok in Hb as (_ & ep & Hep & _).
    exists (k, ep). cbn. by rewrite Hep. }
  pose proof (map_result_entries _ _ _ Hc) as [Hck Hch].
  destruct (map_result_total (λ c : string * Installed, b ← load_bundle c.1 c.2; Ok (c.1, b))
    chosen) as [loaded Hl].
  { intros [k ep] (items & [-> (b & Hb)]%Hnamed & Hep)%Hch.
    apply bundle_named_ok in Hb as (_ & ep' & Hep' & Hb). exists (k, b). cbn in *.
    assert (ep' = ep) as -> by congruence. by rewrite Hb. }
  pose proof (map_result_entries _ _ _ Hl) as [Hlk Hlv].
  assert (∀ i b, i ∈ ids → bundle_named i = Ok b → assoc i loaded = Some b) as Hassoc.
  { intros i b Hi Hb. apply bundle_named_ok in Hb as (Hne & ep & Hep & Hb).
    apply assoc_nodup; [by rewrite Hlk, Hck|]. apply Hlv. exists ep. split; [|done].
    apply Hch. exists (registered i). split; [|done]. by apply candidates_spec. }
  unfold discover_bundles. cbn [default from_option]. rewrite Hc. cbn [mbind result_bind].
  apply check_bind. split.
  { apply bool_decide_eq_true, filter_none. intros i Hi. apply bool_decide_eq_false_2.
    intros Hn. apply Hn, Hkeys. split; [done|]. apply list_elem_of_lookup in Hi as [n Hi].
    destruct (Forall2_lookup_l _ _ _ _ _ Hall Hi) as (b & _ & Hb).
    by apply bundle_named_ok in Hb as [? _]. }
  rewrite Hl. cbn [mbind result_bind]. apply map_result_ok.
  eapply Forall2_impl_l; [exact Hall|]. intros i b Hi Hb. cbn. by rewrite (Hassoc i b Hi Hb).
Qed.

(** Discovering several names is discovering each. *)
Lemma discover_each ids bs :
  discover (Some ids) = Ok bs ↔ Forall2 (λ i b, bundle_named i = Ok b) ids bs.
Proof. split; [apply discover_sound|apply discover_complete]. Qed.

(** ** Admission *)

(** The local checkout of an editable install, as direct_url.json names it. *)
Definition checked_out (d : Distribution) (root : string) : Prop :=
  ∃ url u, direct_url decode d = Ok (Some url) ∧ get_default "url" url (JStr "") = JStr u
    ∧ file_url u = Ok (Some root) ∧ editable url = Ok true.

Definition manifest_of (value f : string) : Prop :=
  ∃ name, name ∈ MANIFEST_FILENAMES ∧ f = slashes value +:+ "/" +:+ name.

(** The manifest that a distribution carries in a module directory: the only installed file of
    such a name or, when there is none, the only one in the checkout. *)
Definition carries (d : Distribution) (value path : string) : Prop :=
  (∃ f, f ∈ files d ∧ manifest_of value f ∧ path = locate_file d f
     ∧ ∀ f', f' ∈ files d → manifest_of value f' → f' = f)
  ∨ (∀ f, f ∈ files d → ¬ manifest_of value f)
    ∧ ∃ root r f, checked_out d root ∧ r ∈ source_roots root ∧ manifest_of value f
        ∧ path = r +:+ "/" +:+ f ∧ is_file path = true
        ∧ ∀ r' f', r' ∈ source_roots root → manifest_of value f' →
            is_file (r' +:+ "/" +:+ f') = true → r' +:+ "/" +:+ f' = path.

(** The distribution contains a module, installed or in its checkout. *)
Definition provides (d : Distribution) (module : string) : Prop :=
  is_dotted module = true
  ∧ ((∃ f, f ∈ files d ∧ module_file (slashes module) f = true)
     ∨ ∃ root r, checked_out d root ∧ r ∈ source_roots root
         ∧ (is_file (r +:+ "/" +:+ slashes module +:+ ".py") = true
            ∨ is_file (r +:+ "/" +:+ slashes module +:+ "/__init__.py") = true)).

(** A bundle registered under its name by its distribution, which carries its manifest; any other
    registration of the name has a manifest with the same bytes; and the declared entry points
    are installed by the distribution, with their modules. *)
Definition admitted (i : string) (b : InstalledBundle) : Prop :=
  ib_id b = i ∧ bundle_id (manifest b) = i
  ∧ load_manifest decode is_file is_symlink read_text (manifest_path b) = Ok (manifest b)
  ∧ distribution_name b ≠ ""
  ∧ (∃ r d, r ∈ registrations ∧ in_name r = i ∧ dist r = Some d
       ∧ metadata_name d = Some (distribution_name b) ∧ version d = distribution_version b
       ∧ is_dotted (in_value r) = true ∧ carries d (in_value r) (manifest_path b)
       ∧ ∀ r', r' ∈ registrations → in_name r' = i → r' = r ∨ ∃ d' path content,
           dist r' = Some d' ∧ carries d' (in_value r') path
           ∧ read_bytes path = Ok content ∧ read_bytes (manifest_path b) = Ok content)
  ∧ ∀ e, e ∈ entry_points (activation (manifest b)) →
      ∃ ep d, ep ∈ every ∧ in_group ep = ep_group e ∧ in_name ep = ep_name e
        ∧ dist ep = Some d ∧ metadata_name d = Some (distribution_name b)
        ∧ provides d (target_module (in_value ep)).

Lemma editable_root_ok d root : editable_root decode file_url d = Ok (Some root) → checked_out d root.
Proof.
  unfold editable_root. intros ([url|] & Hu & Hr)%result_bind_ok; [|done].
  apply result_bind_ok in Hr as (o & Ho & Hr). apply result_bind_ok in Hr as ([] & He & [= ->]).
  destruct (get_default "url" url (JStr "")) as [| | |u| |] eqn:Eu; try done;
    try (by case_match). by exists url, u.
Qed.

Lemma relative_spec value f : f ∈ relative_manifests value ↔ manifest_of value f.
Proof.
  unfold relative_manifests, manifest_of. rewrite list_elem_of_In, in_map_iff.
  setoid_rewrite <-list_elem_of_In. naive_solver.
Qed.

Lemma ok_inj {A} (x y : A) : Ok x = Ok y → x = y.
Proof. by intros [= ->]. Qed.

Lemma manifest_path_ok ep path :
  _manifest_path decode file_url is_file ep = Ok path →
  is_dotted (in_value ep) = true ∧ ∃ d, dist ep = Some d ∧ carries d (in_value ep) path.
Proof.
  unfold _manifest_path. intros [Hdot Hp]%check_bind. split; [done|].
  destruct (dist ep) as [d|]; [|done]. exists d. split; [done|].
  apply result_bind_ok in Hp as (found & Hf & Hp).
  set (hits := List.filter (λ f, bool_decide (f ∈ relative_manifests (in_value ep))) (files d)) in *.
  assert (∀ f, f ∈ hits ↔ f ∈ files d ∧ manifest_of (in_value ep) f) as Hhits.
  { intros f. unfold hits. rewrite !list_elem_of_In, filter_In, bool_decide_eq_true.
    by rewrite relative_spec. }
  destruct found as [|x [|y found]]; try done. injection Hp as ->.
  case_bool_decide as Hnil.
  - right. apply map_eq_nil in Hnil. split.
    { intros f Hin Hm. assert (f ∈ hits) as Hh by by apply Hhits.
      rewrite Hnil in Hh. by apply elem_of_nil in Hh. }
    apply result_bind_ok in Hf as ([root|] & Hr & Hf); [|done].
    apply editable_root_ok in Hr. apply ok_inj in Hf.
    assert (∀ p, p = path ↔ ∃ r f, p = r +:+ "/" +:+ f ∧ r ∈ source_roots root
      ∧ manifest_of (in_value ep) f ∧ is_file p = true) as Hc.
    { intros p. rewrite <-(list_elem_of_singleton p path), <-Hf, list_elem_of_In, filter_In, in_concat.
      split.
      - intros [(l & Hl & Hin) Hfile]. apply in_map_iff in Hl as (r & <- & Hr').
        apply in_map_iff in Hin as (f & <- & Hin). exists r, f. split_and!; [done| | |done].
        + by apply list_elem_of_In.
        + by apply relative_spec, list_elem_of_In.
      - intros (r & f & -> & Hr' & Hm & Hfile). split; [|done]. eexists. split.
        + apply in_map_iff. exists r. split; [done|by apply list_elem_of_In].
        + apply in_map_iff. exists f. split; [done|]. by apply list_elem_of_In, relative_spec. }
    destruct (proj1 (Hc path) eq_refl) as (r & f & E & Hroot & Hm & Hfile).
    exists root, r, f. split_and!; [done..|]. intros r' f' Hr' Hm' Hf'. apply Hc. by exists r', f'.
  - left. injection Hf as Hf. destruct hits as [|f [|? ?]]; try done. injection Hf as <-.
    destruct (proj1 (Hhits f)) as [Hin Hm]; [by left|]. exists f. split_and!; [done..|].
    intros f' Hin' Hm'. assert (f' ∈ [f]) as Hs by by apply Hhits.
    by apply list_elem_of_singleton in Hs.
Qed.

Lemma packaged_ok ep :
  _entry_point_target_is_packaged decode file_url is_file ep = Ok true →
  ∃ d, dist ep = Some d ∧ provides d (target_module (in_value ep)).
Proof.
  unfold _entry_point_target_is_packaged. destruct (dist ep) as [d|]; [|done]. intros Hp.
  exists d. split; [done|]. unfold provides.
  destruct (is_dotted _); [|done]. split; [done|]. cbn [negb] in Hp.
  destruct (existsb _ (files d)) eqn:Ef.
  - left. apply existsb_exists in Ef as (f & Hin & Hf). exists f. by rewrite list_elem_of_In.
  - right. apply result_bind_ok in Hp as ([root|] & Hr & Hb); [|done].
    apply editable_root_ok in Hr. apply ok_inj in Hb.
    apply existsb_exists in Hb as (r & Hin & Hf%orb_true_iff). exists root, r.
    by rewrite list_elem_of_In.
Qed.

Lemma nonempty_option_name (o : option string) i n :
  match o with
  | Some (String _ _ as name) => Ok name
  | _ => discovery_error (quoted i +:+ " has no distribution name")
  end = Ok n → o = Some n ∧ n ≠ "".
Proof. destruct o as [[|c s]|]; try done. intros [= <-]. done. Qed.

(** The tests on entry points, together. *)
Lemma entry_points_installed m installed packaged :
  missing_pairs m installed = [] →
  map_result (λ ep, b ← _entry_point_target_is_packaged decode file_url is_file ep; Ok (ep, b))
    (List.filter (λ ep, bool_decide (installed_pair ep ∈ declared_pairs m)) installed)
    = Ok packaged →
  map fst (List.filter (λ x : Installed * bool, negb x.2) packaged) = [] →
  ∀ e, e ∈ entry_points (activation m) → ∃ ep, ep ∈ installed
    ∧ in_group ep = ep_group e ∧ in_name ep = ep_name e
    ∧ _entry_point_target_is_packaged decode file_url is_file ep = Ok true.
Proof.
  intros Hm Hp%map_result_ok Hd e He.
  assert ((ep_group e, ep_name e) ∈ declared_pairs m) as Hdecl.
  { unfold declared_pairs. rewrite list_elem_of_In. apply in_map_iff. exists e.
    split; [done|]. by apply list_elem_of_In. }
  assert ((ep_group e, ep_name e) ∈ map installed_pair installed) as Hin.
  { destruct (decide ((ep_group e, ep_name e) ∈ map installed_pair installed)) as [|Hn]; [done|].
    assert ((ep_group e, ep_name e) ∈ missing_pairs m installed) as Hmiss.
    { unfold missing_pairs. rewrite elem_of_remove_dups, list_elem_of_In. apply filter_In.
      split; [by apply list_elem_of_In|]. by apply bool_decide_eq_true. }
    rewrite Hm in Hmiss. by apply elem_of_nil in Hmiss. }
  apply list_elem_of_In, in_map_iff in Hin as (ep & Hpair & Hep).
  injection Hpair as Hg Hn. exists ep. split; [by apply list_elem_of_In|]. split_and!; [done..|].
  assert (ep ∈ List.filter (λ ep, bool_decide (installed_pair ep ∈ declared_pairs m)) installed)
    as Hf.
  { apply list_elem_of_In, filter_In. split; [done|]. apply bool_decide_eq_true.
    unfold installed_pair. by rewrite Hg, Hn. }
  apply list_elem_of_lookup in Hf as [n Hf].
  destruct (Forall2_lookup_l _ _ _ _ _ Hp Hf) as (x & Hx & Hb).
  apply result_bind_ok in Hb as (b & Hb & [= <-]). destruct b; [done|].
  apply map_eq_nil in Hd. apply list_elem_of_lookup_2, list_elem_of_In in Hx.
  assert (In (ep, false) (List.filter (λ x : Installed * bool, negb x.2) packaged)) as Hbad.
  { by apply filter_In. }
  by rewrite Hd in Hbad.
Qed.

Lemma one_content {A} `{EqDecision A} (l : list A) x y :
  length (remove_dups l) = 1%nat → x ∈ l → y ∈ l → x = y.
Proof.
  rewrite <-!(elem_of_remove_dups l). destruct (remove_dups l) as [|z [|? ?]]; try done.
  by intros _ ->%list_elem_of_singleton ->%list_elem_of_singleton.
Qed.

(** The registration that is chosen: the only one, or one of several with the same bytes. *)
Lemma choose_ok i items ep :
  choose i items = Ok ep →
  ep ∈ items ∧ (items = [ep] ∨ ∃ content, ∀ r, r ∈ items → ∃ path,
    _manifest_path decode file_url is_file r = Ok path ∧ read_bytes path = Ok content).
Proof.
  unfold Discovery.choose. intros Hc. destruct items as [|x [|y items]]; [done| |].
  - injection Hc as ->. split; [by left|by left].
  - set (l := x :: y :: items) in *. apply result_bind_ok in Hc as (contents & Hcs%map_result_ok & Hc).
    apply check_bind in Hc as [Hone%bool_decide_eq_true Hc].
    apply result_bind_ok in Hc as (keyed & Hk%map_result_ok & Hc).
    split.
    + destruct (sort_by fst preference_leb keyed) as [|[k ep'] rest] eqn:Es; [done|].
      injection Hc as ->. assert ((k, ep) ∈ keyed) as Hin.
      { rewrite <-(sort_by_perm fst preference_leb keyed), Es. by left. }
      apply list_elem_of_lookup in Hin as [n Hin].
      destruct (Forall2_lookup_r _ _ _ _ _ Hk Hin) as (r & Hr & He).
      apply result_bind_ok in He as (e & _ & [= _ <-]). by eapply list_elem_of_lookup_2.
    + right. clear Hc Hk.
      destruct (Forall2_lookup_l _ _ _ 0%nat x Hcs eq_refl) as (content & Hcx & _).
      exists content. intros r [n Hr]%list_elem_of_lookup.
      destruct (Forall2_lookup_l _ _ _ _ _ Hcs Hr) as (c & Hc & Hrc).
      assert (c = content) as -> by (eapply one_content; [done|by eapply list_elem_of_lookup_2..]).
      unfold registered_content in Hrc.
      destruct (_manifest_path decode file_url is_file r) as [path|e]; cbn [mbind result_bind] in Hrc;
        [|by destruct e]. exists path. split; [done|].
      destruct (read_bytes path) as [c'|e]; [by injection Hrc as ->|by destruct e].
Qed.

Lemma registered_spec i r : r ∈ registered i ↔ r ∈ registrations ∧ in_name r = i.
Proof. unfold registered. by rewrite !list_elem_of_In, filter_In, String.eqb_eq. Qed.

Lemma bundle_admitted i b : bundle_named i = Ok b → admitted i b.
Proof.
  intros (_ & ep & Hch & Hl)%bundle_named_ok. unfold Discovery.load_bundle in Hl.
  destruct (dist ep) as [d|] eqn:Edist; [|done]. apply result_bind_ok in Hl as (name & Hname & Hl).
  apply nonempty_option_name in Hname as [Emeta Hname].
  apply result_bind_ok in Hl as ([path m] & Hm & Hl). apply check_bind in Hl as [Hi Hl].
  apply check_bind in Hl as [Hmiss Hl]. apply result_bind_ok in Hl as (packaged & Hp & Hl).
  apply check_bind in Hl as [Hd [= <-]]. reflect.
  destruct (_manifest_path _ _ _ ep) as [path'|] eqn:Ep; [|by destruct e].
  cbn [mbind result_bind] in Hm.
  destruct (load_manifest _ _ _ _ path') as [m'|] eqn:El; [|by destruct e].
  injection Hm as -> ->. unfold admitted. cbn. split_and!; try done.
  - destruct (manifest_path_ok _ _ Ep) as (Hdot & d' & Ed & Hcar).
    rewrite Edist in Ed. injection Ed as <-.
    apply choose_ok in Hch as [Hin Hone]. exists ep, d. apply registered_spec in Hin as [Hin Hn].
    split_and!; try done. intros r' Hr' Hn'. assert (r' ∈ registered i) as Hreg by by apply registered_spec.
    destruct Hone as [E|(content & Hall)].
    + rewrite E in Hreg. left. by apply list_elem_of_singleton in Hreg.
    + right. destruct (Hall r' Hreg) as (p' & Hp' & Hc').
      destruct (Hall ep) as (p & Hpe & Hce); [by apply registered_spec|].
      rewrite Ep in Hpe. injection Hpe as <-.
      destruct (manifest_path_ok _ _ Hp') as (_ & d' & Ed' & Hcar'). by exists d', p', content.
  - intros e He. destruct (entry_points_installed _ _ _ Hmiss Hp Hd e He)
      as (x & Hx & Hg & Hn & Hpack).
    unfold related in Hx. apply list_elem_of_In, filter_In in Hx as [Hx Hr]. reflect.
    destruct (packaged_ok _ Hpack) as (dx & Edx & Hprov). exists x, dx.
    unfold dist_name in *. rewrite Edx in *. split_and!; try done; [by apply list_elem_of_In|].
    destruct (metadata_name dx) as [n|]; cbn in *; congruence.
Qed.

(** C26. Discovery returns the bundles that were asked for, in that order; each is admitted: it
    is registered under its name by the distribution it names, its manifest is the only one that
    this distribution carries where it is registered, is for that name, and has the bytes of the
    manifest of every other registration of the name; every entry point it declares is installed
    by that distribution with its module; and it does not depend on what else was asked for. *)
Theorem discovered_admitted ids bs :
  discover (Some ids) = Ok bs →
  Forall2 admitted ids bs
  ∧ ∀ ids' bs' b b', discover (Some ids') = Ok bs' → b ∈ bs → b' ∈ bs' → ib_id b = ib_id b' →
      b = b'.
Proof.
  intros Hd. pose proof (discover_sound _ _ Hd) as Hall. split.
  - eapply Forall2_impl; [exact Hall|]. intros i b. apply bundle_admitted.
  - intros ids' bs' b b' Hd'%discover_sound Hb Hb' Hid.
    apply list_elem_of_lookup in Hb as [n Hb]. apply list_elem_of_lookup in Hb' as [n' Hb'].
    destruct (Forall2_lookup_r _ _ _ _ _ Hall Hb) as (i & _ & Hi).
    destruct (Forall2_lookup_r _ _ _ _ _ Hd' Hb') as (i' & _ & Hi').
    destruct (bundle_admitted _ _ Hi) as [Ei _]. destruct (bundle_admitted _ _ Hi') as [Ei' _].
    congruence.
Qed.

(** ** The inventory *)

Lemma discover_one i : discover (Some [i]) =
  match discover (Some [i]) with
  | Ok _ => match bundle_named i with Ok b => Ok [b] | Err e => Err e end
  | Err e => Err e
  end.
Proof.
  destruct (discover (Some [i])) as [bs|e] eqn:E; [|done]. apply discover_sound in E.
  apply Forall2_cons_inv_l in E as (b & ? & Hb & Hn & ->). apply Forall2_nil_inv_l in Hn as ->.
  by rewrite Hb.
Qed.

Lemma discover_one_err i e b : discover (Some [i]) = Err e → bundle_named i ≠ Ok b.
Proof.
  intros E Hb. assert (discover (Some [i]) = Ok [b]) as E'; [|congruence].
  apply discover_complete. by repeat constructor.
Qed.

Lemma inventory_fold names acc bs ds :
  fold_result (inventory_step decode file_url is_file is_symlink read_bytes read_text
    registrations every) acc names = Ok (bs, ds) →
  (∀ b, b ∈ bs ↔ b ∈ acc.1 ∨ ∃ i, i ∈ names ∧ bundle_named i = Ok b)
  ∧ (∀ i, i ∈ ds.*1 ↔ i ∈ acc.2.*1 ∨ i ∈ names ∧ ∀ b, bundle_named i ≠ Ok b).
Proof.
  revert acc. induction names as [|i names IH]; intros [bs0 ds0]; cbn [fold_result].
  - intros [= -> ->]. cbn. split; intros x; set_solver.
  - intros ([bs1 ds1] & Hs & Hf)%result_bind_ok. apply IH in Hf as [Hb Hd]. cbn [fst snd] in *.
    unfold inventory_step in Hs. cbn [fst snd] in Hs.
    destruct (discover (Some [i])) as [l|e] eqn:E.
    + injection Hs as <- <-. pose proof (discover_sound _ _ E) as Hall.
      apply Forall2_cons_inv_l in Hall as (b0 & ? & Hb0 & Hn & ->).
      apply Forall2_nil_inv_l in Hn as ->. split.
      * intros b. rewrite Hb, elem_of_app, list_elem_of_singleton. setoid_rewrite elem_of_cons.
        naive_solver congruence.
      * intros j. rewrite Hd, elem_of_cons. naive_solver.
    + assert (bs1 = bs0 ∧ ds1.*1 = ds0.*1 ++ [i]) as [-> Hds].
      { destruct e; cbn in Hs; try done; injection Hs as <- <-; by rewrite fmap_app. }
      pose proof (discover_one_err i e) as Hno. split.
      * intros b. rewrite Hb. setoid_rewrite elem_of_cons. naive_solver.
      * intros j. rewrite Hd, Hds, elem_of_app, list_elem_of_singleton, elem_of_cons.
        naive_solver.
Qed.

(** The inventory holds every name that can be discovered, with the bundle a targeted discovery
    of it would return, and a diagnostic for every other registered name. *)
Theorem inventory_complete bs ds :
  discover_bundle_inventory decode file_url is_file is_symlink read_bytes read_text
    registrations every = Ok (bs, ds) →
  (∀ b, b ∈ bs ↔ ∃ i, i ∈ map in_name registrations ∧ discover (Some [i]) = Ok [b])
  ∧ ∀ i, i ∈ ds.*1 ↔
      i ∈ map in_name registrations ∧ ∀ bs', discover (Some [i]) ≠ Ok bs'.
Proof.
  intros [Hb Hd]%inventory_fold. cbn [fst snd] in *.
  assert (∀ i, i ∈ sort_by id str_leb (remove_dups (map in_name registrations))
    ↔ i ∈ map in_name registrations) as Hn.
  { intros i. by rewrite sort_by_perm, elem_of_remove_dups. }
  assert (∀ i b, discover (Some [i]) = Ok [b] ↔ bundle_named i = Ok b) as Hone.
  { intros i b. rewrite discover_each. split; [by inversion 1|]. by repeat constructor. }
  split.
  - intros b. rewrite Hb. setoid_rewrite Hn. setoid_rewrite Hone. set_solver.
  - intros i. rewrite Hd, Hn. split.
    + intros [[]%elem_of_nil|[Hi Hno]]. split; [done|]. intros bs' E. pose proof E as E1.
      rewrite discover_one, E1 in E. destruct (bundle_named i) as [b|e] eqn:Eb; [|done].
      by apply (Hno b).
    + intros [Hi Hno]. right. split; [done|]. intros b Eb. apply (Hno [b]). by apply Hone.
Qed.
End Discovery.

(** ** A wheel, an editable copy and a broken registration *)

Module DiscoveryDemo.
Import CompilerTheorems.ExactVersions.

Definition payload : json :=
  JObj [("schema_version", JStr "0.3"); ("extension_id", JStr "org.a");
        ("extension_version", JStr "1.2"); ("kind", JStr "in_process_plugin");
        ("host", JObj [("provider", JStr "vllm"); ("name", JStr "vllm");
                       ("version_range", JStr ">=0")]);
        ("runtime", JObj [("type", JStr "python"); ("process_scope", JStr "worker");
                          ("isolation", JStr "trusted_in_process")]);
        ("lifecycle_owner", JStr "vllm"); ("protocols", JArr []);
        ("implementation", JArr [JObj [("type", JStr "python_entry_point");
           ("group", JStr "vllm.general_plugins"); ("name", JStr "demo")]]);
        ("requires_services", JArr []); ("resource_claims", JArr []);
        ("activation", JObj [("entry_points",
           JArr [JObj [("group", JStr "vllm.general_plugins"); ("name", JStr "demo")]])])].

(** The file system: a wheel under /lib and a checkout of it in /home/x. *)
Definition manifest_file : string := "pkg/ext/vllm-hust-extension-v0.3.json".
Definition wheel_path : string := "/lib/" +:+ manifest_file.
Definition text : string := canonical_bytes payload.
Definition read (path : string) : result string :=
  if bool_decide (path ∈ [wheel_path; "/home/x/src/" +:+ manifest_file]) then Ok text
  else Err (FileNotFoundError path).
Definition is_file (path : string) : bool := match read path with Ok _ => true | _ => false end.
Definition file_url (u : string) : result (option string) :=
  Ok (if u =? "file:///home/x" then Some "/home/x" else None).

Definition wheel : Distribution := mkDistribution (Some "demo-dist") "3.0" "/lib"
  [manifest_file; "pkg/plugin.py"] None.
Definition checkout : Distribution := mkDistribution (Some "demo-dist") "3.0" "/lib" []
  (Some (canonical_bytes (JObj [("url", JStr "file:///home/x");
                                ("dir_info", JObj [("editable", JBool true)])]))).
Definition bare : Distribution := mkDistribution (Some "bare") "0.1" "/lib" [] None.

Definition registrations : list Installed :=
  [mkInstalled ENTRY_POINT_GROUP "org.a" "pkg.ext" (Some checkout);
   mkInstalled ENTRY_POINT_GROUP "org.broken" "pkg.ext" (Some bare);
   mkInstalled ENTRY_POINT_GROUP "org.a" "pkg.ext" (Some wheel)].
Definition every : list Installed :=
  registrations ++ [mkInstalled "vllm.general_plugins" "demo" "pkg.plugin:register" (Some wheel)].

Definition discover : option (list string) → result (list InstalledBundle) :=
  discover_bundles loads file_url is_file (λ _, false) read read registrations every.

Definition demo_manifest : BundleManifest :=
  mkManifest "org.a" "1.2" ">=0" []
    (mkActivation [mkEntryPoint "vllm.general_plugins" "demo"] [] []) "0.3" "in_process_plugin"
    (mkHost "vllm" "vllm" ">=0" None) (mkRuntime "python" "worker" "trusted_in_process")
    "vllm" []
    [mkCarrier "python_entry_point"
       [("group", JStr "vllm.general_plugins"); ("name", JStr "demo")]] [] [] [].
Definition bundle : InstalledBundle := mkBundle "org.a" "demo-dist" "3.0" wheel_path demo_manifest.

(** The wheel is preferred to the checkout. *)
Example wheel_preferred : discover (Some ["org.a"]) = Ok [bundle].
Proof. vm_compute. reflexivity. Qed.

Lemma discovered_admitted_witness :
  Forall2 (admitted loads file_url is_file (λ _, false) read read registrations every)
    ["org.a"] [bundle].
Proof.
  refine (proj1 (discovered_admitted loads file_url is_file (λ _, false) read read registrations
    every ["org.a"] [bundle] _)). vm_compute. reflexivity.
Defined.

Definition diagnosis : string * string :=
  ("org.broken", "'org.broken' must contain exactly one Bundle v1 manifest").

Lemma inventory_complete_witness :
  bundle ∈ [bundle] ↔ ∃ i, i ∈ map in_name registrations ∧ discover (Some [i]) = Ok [bundle].
Proof.
  refine (proj1 (inventory_complete loads file_url is_file (λ _, false) read read registrations
    every [bundle] [diagnosis] _) bundle). vm_compute. reflexivity.
Defined.
End DiscoveryDemo.
