(* ===== verification/Config.v ===== *)
(** * Config: the saved intent of the user

    src/vllm_hust_ext/config.py.  The file is the record [Disk]: its text, a temporary beside
    it, and a script that says which of the next system calls fail, and how; [Killed] ends the
    process.  [json.dump] of a value and [json.loads] of a text are arguments.  The file's name
    ([config_path]) is not modelled. *)

From S2P Require Import Prelude Effects Json JsonText Manifest ProviderPlans.

Local Open Scope string_scope.
Local Open Scope list_scope.

(** ** Intent *)

(** [UserConfig]: a dictionary of extensions. *)
Definition UserConfig : Type := list (string * ExtensionConfig).

Definition default_extension : ExtensionConfig := mkExtensionConfig false [].

(** The property [enabled]: identifiers in the dictionary's order. *)
Definition enabled_ids (c : UserConfig) : list string :=
  map fst (List.filter (λ kv : string * ExtensionConfig, enabled kv.2) c).

Definition extension (c : UserConfig) (extension_id : string) : ExtensionConfig :=
  default default_extension (assoc extension_id c).

Definition with_extension (extension_id : string) (e : ExtensionConfig) (c : UserConfig)
    : UserConfig := dict_set extension_id e c.

Definition without_extension (extension_id : string) (c : UserConfig) : UserConfig :=
  List.filter (λ kv : string * ExtensionConfig, negb (kv.1 =? extension_id)) c.

(** ** The payload *)

Definition _extension_config (extension_id : string) (value : json) : result ExtensionConfig :=
  let what := "extension '" +:+ extension_id +:+ "' " in
  match value with
  | JObj kvs =>
      let unknown := List.filter (λ k, bool_decide (k ∉ ["enabled"; "configuration"])) (keys kvs) in
      _ ← check (bool_decide (unknown = []))
            (ValueError (what +:+ "config has unknown keys: "
               +:+ list_repr (sort_by id str_leb unknown)));
      enabled ← match get_default "enabled" kvs (JBool false) with
        | JBool b => Ok b
        | _ => Err (ValueError (what +:+ "enabled must be boolean"))
        end;
      configuration ← match get_default "configuration" kvs (JObj []) with
        | JObj c => Ok c
        | _ => Err (ValueError (what +:+ "configuration must be an object"))
        end;
      Ok (mkExtensionConfig enabled configuration)
  | _ => Err (ValueError (what +:+ "config must be an object"))
  end.

(** The first version of the file held a list of enabled extensions. *)
Definition legacy_config (payload : list (string * json)) : result UserConfig :=
  let refusal := Err (ValueError "legacy enabled must be an array of strings") in
  match get_default "enabled" payload (JArr []) with
  | JArr items =>
      match mapM (λ v, match v with JStr s => Some s | _ => None end) items with
      | Some ids =>
          Ok (fold_left (λ c i, dict_set i (mkExtensionConfig true []) c) ids [])
      | None => refusal
      end
  | _ => refusal
  end.

Definition parse_config (payload : json) : result UserConfig :=
  match payload with
  | JObj payload =>
      if py_eqb (get "schema_version" payload) (JInt 1) then legacy_config payload
      else if negb (py_eqb (get "schema_version" payload) (JInt 2)) then
        Err (ValueError "vllm-hust-ext config has an unsupported schema")
      else
        match get_default "extensions" payload (JObj []) with
        | JObj raw =>
            map_result (λ kv : string * json,
              e ← _extension_config kv.1 kv.2; Ok (kv.1, e)) raw
        | _ => Err (ValueError "vllm-hust-ext extensions must be an object")
        end
  | _ => Err (ValueError "vllm-hust-ext config must be an object")
  end.

Definition extension_json (e : ExtensionConfig) : json :=
  JObj [("enabled", JBool (enabled e)); ("configuration", JObj (configuration e))].

Definition config_payload (c : UserConfig) : json :=
  JObj [("schema_version", JInt 2);
        ("extensions", JObj (map (λ kv : string * ExtensionConfig, (kv.1, extension_json kv.2))
                               (sort_by fst str_leb c)))].

(** ** The file *)

Record Disk := mkDisk {
  target : option string; temporary : option string; script : list (option exn) }.

Definition set_target (t : option string) (d : Disk) : Disk := mkDisk t (temporary d) (script d).
Definition set_temporary (t : option string) (d : Disk) : Disk := mkDisk (target d) t (script d).

(** A system call, done or failing as the script says; after the script all are done. *)
Definition syscall : M Disk unit := λ d,
  match script d with
  | [] => (Ok tt, d)
  | None :: s => (Ok tt, mkDisk (target d) (temporary d) s)
  | Some e :: s => (Err e, mkDisk (target d) (temporary d) s)
  end.

(** [try: m finally: f]; a killed process runs nothing more. *)
Definition finally {A} (m : M Disk A) (f : M Disk unit) : M Disk A := λ d,
  match m d with
  | (Err Killed, d') => (Err Killed, d')
  | (r, d') => match f d' with (Ok _, d'') => (r, d'') | (Err e, d'') => (Err e, d'') end
  end.

Section File.
Context (dump : json → string) (decode : string → option json).

Definition load_config : M Disk UserConfig :=
  text ← gets target;
  lift_result match text with
    | None => Ok []
    | Some text =>
        match decode text with
        | Some payload => parse_config payload
        | None => Err (ValueError "JSONDecodeError")
        end
    end.

Definition save_config (c : UserConfig) : M Disk unit :=
  syscall;; (* mkdir *)
  syscall;; (* mkstemp *)
  modify (set_temporary (Some ""));;
  finally
    (syscall;; (* write *)
     modify (set_temporary (Some (dump (config_payload c))));;
     syscall;; (* chmod *)
     syscall;; (* replace *)
     written ← gets temporary;
     modify (set_target written);;
     modify (set_temporary None))
    (left_over ← gets temporary;
     when (bool_decide (is_Some left_over)) (syscall;; modify (set_temporary None))).
End File.
