(* ===== verification/Commands.v ===== *)
(** * Commands: the command-line manager

    src/vllm_hust_ext/cli.py: validation of a selection of bundles, composition of a launch from
    their plans, and the commands that change the saved intent or launch.  [formal-run] is in
    ManagerController.v.  Printing, argument parsing, and the options [--semantic-launch-spec] and
    [--phase-binding-socket] of [run] are not modelled; [json.loads] of an argument is the
    parameter [decode]. *)

From S2P Require Import Prelude Effects Json Sha256 JsonText EcpaModel Manifest ProviderPlans RuntimeEvidence VllmProvider Config.
From S2P Require ContractParser.

Local Open Scope string_scope.
Local Open Scope list_scope.

Definition quoted (s : string) : string := "'" +:+ s +:+ "'".
Definition value_error {A} (msg : string) : result A := Err (ValueError msg).

(** ** Validation of a selection *)

(** [_validate_process_ownership]. *)
Definition owns_process_tree (b : InstalledBundle) : bool :=
  (h_provider (m_host (manifest b)) =? "stateaxis")
  && (process_scope (m_runtime (manifest b)) =? "stateaxis_processes")
  && (rt_isolation (m_runtime (manifest b)) =? "trusted_in_process").

Definition _validate_process_ownership (bundles : list InstalledBundle) : result unit :=
  let owners := map ib_id (List.filter owns_process_tree bundles) in
  check (length owners <=? 1)%nat
    (ValueError ("only one StateAxis ECPA carrier may own a process tree; "
       +:+ "disable all but one of: " +:+ list_repr (sort_by id str_leb owners))).

Definition ownership_plan (b : InstalledBundle) : ProviderPlan :=
  mkProviderPlan (ib_id b) (h_provider (m_host (manifest b))) [] [] []
    (resource_claims (manifest b)) None [].

Definition _validate_resource_ownership (bundles : list InstalledBundle) : result unit :=
  reject_conflicting_plans (map ownership_plan bundles) None.

(** Dependencies of each selected bundle; a later bundle of the same name replaces an earlier
    one, as in a dictionary. *)
Definition dependency_ids (b : InstalledBundle) : list string :=
  map rq_extension_id (requires_extensions (manifest b)).
Definition edges_of (bundles : list InstalledBundle) : list (string * list string) :=
  fold_left (λ d b, dict_set (ib_id b) (dependency_ids b) d) bundles [].
Definition selected_of (bundles : list InstalledBundle) : list (string * InstalledBundle) :=
  fold_left (λ d b, dict_set (ib_id b) b d) bundles [].

Definition successors (edges : list (string * list string)) (i : string) : list string :=
  default [] (assoc i edges).

(** [l[l.index(i):]]. *)
Fixpoint from_first (i : string) (l : list string) : list string :=
  match l with
  | [] => []
  | x :: l' => if x =? i then l else from_first i l'
  end.

(** [visit], with the visited identifiers in the order of completion; fuel bounds the depth. *)
Fixpoint visit (edges : list (string * list string)) (fuel : nat) (visiting visited : list string)
    (i : string) : result (list string) :=
  if bool_decide (i ∈ visiting) then
    value_error ("extension dependency cycle: " +:+ String.concat " -> " (from_first i visiting ++ [i]))
  else if bool_decide (i ∈ visited) then Ok visited
  else
    match fuel with
    | O => Err (RuntimeError "maximum recursion depth exceeded")
    | S n =>
        visited ← fold_result (visit edges n (visiting ++ [i])) visited (successors edges i);
        Ok (visited ++ [i])
    end.

Section Dependencies.
Context `{ContractParser.Packaging}.

(** One dependency: selected, and of a version in the range. *)
Definition check_dependency (selected : list (string * InstalledBundle)) (b : InstalledBundle)
    (d : RequiredExtension) : result unit :=
  match assoc (rq_extension_id d) selected with
  | None =>
      value_error ("extension " +:+ quoted (ib_id b) +:+ " requires enabled extension "
        +:+ quoted (rq_extension_id d) +:+ " " +:+ rq_version_range d)
  | Some required =>
      let found := bundle_version (manifest required) in
      match ContractParser.parse_version found, ContractParser.parse_specifiers (rq_version_range d) with
      | Some v, Some s =>
          check (ContractParser.version_in v s)
            (ValueError ("extension " +:+ quoted (ib_id b) +:+ " requires "
               +:+ quoted (rq_extension_id d) +:+ " " +:+ rq_version_range d +:+ ", found "
               +:+ found))
      | _, _ => value_error "Invalid version or specifier"
      end
  end.

Definition _validate_extension_dependencies (bundles : list InstalledBundle) : result unit :=
  _ ← fold_result (λ _ b, fold_result (λ _ d, check_dependency (selected_of bundles) b d) tt
        (requires_extensions (manifest b))) tt bundles;
  let edges := edges_of bundles in
  _ ← fold_result (visit edges (S (length edges)) []) [] (sort_by id str_leb (keys edges));
  Ok tt.
End Dependencies.

Definition _validate_dependency_removal (extension_id : string) (bundles : list InstalledBundle)
    : result unit :=
  let dependents := map ib_id (List.filter (λ b, negb (ib_id b =? extension_id)
    && bool_decide (extension_id ∈ dependency_ids b)) bundles) in
  check (bool_decide (dependents = []))
    (ValueError ("cannot disable or forget " +:+ quoted extension_id
       +:+ "; enabled extensions depend on it: " +:+ list_repr (sort_by id str_leb dependents))).

(** ** Composition: environment and shared configuration *)

Definition _VLLM_BUILTIN_PLUGIN : string := "ascend".

Definition _comma_separated_names (value : option string) : list string :=
  List.filter (λ s, negb (s =? ""))
    (map (λ s, string_of_list_ascii (strip (list_ascii_of_string s)))
       (split_on "," (default "" value))).

(** One plugin name of a bundle: owners of names, and the names in order. *)
Definition claim_plugin (bundle_id : string) (acc : list (string * string) * list string)
    (name : string) : result (list (string * string) * list string) :=
  let '(owners, names) := acc in
  match assoc name owners with
  | Some owner =>
      if owner =? bundle_id then Ok acc
      else value_error ("enabled Bundles " +:+ quoted owner +:+ " and " +:+ quoted bundle_id
             +:+ " both declare vLLM plugin name " +:+ quoted name)
  | None => Ok (dict_set name bundle_id owners, names ++ [name])
  end.

Definition _declared_vllm_plugins (bundles : list InstalledBundle) : result (list string) :=
  acc ← fold_result (λ acc b, fold_result (claim_plugin (ib_id b)) acc
          (declared_vllm_plugin_names (manifest b))) ([], [])
          (sort_by ib_id str_leb bundles);
  Ok acc.2.

(** One environment entry of a bundle. *)
Definition add_variable (bundle_id : string) (environment : list (string * string))
    (kv : string * json) : result (list (string * string)) :=
  match kv.2 with
  | JStr value =>
      match assoc kv.1 environment with
      | Some old =>
          if old =? value then Ok (dict_set kv.1 value environment)
          else value_error ("enabled Bundles disagree on environment variable " +:+ kv.1)
      | None => Ok (dict_set kv.1 value environment)
      end
  | _ => value_error ("provider for " +:+ quoted bundle_id
           +:+ " returned a non-string environment entry")
  end.

(** [planned.get(bundle_id, dict(...))]. *)
Definition planned_environment (plans : list ProviderPlan) (b : InstalledBundle) : json :=
  default (JObj (map (λ kv, (kv.1, JStr kv.2)) (environment (activation (manifest b)))))
    (assoc (ib_id b) (fold_left (λ d p, dict_set (extension_id p)
       (get_default "environment" (generated_config p) (JObj [])) d) plans [])).

Definition add_bundle_environment (plans : list ProviderPlan) (environment : list (string * string))
    (b : InstalledBundle) : result (list (string * string)) :=
  match planned_environment plans b with
  | JObj kvs => fold_result (add_variable (ib_id b)) environment kvs
  | _ => value_error ("provider for " +:+ quoted (ib_id b) +:+ " returned an invalid environment")
  end.

Definition remove_key {A} (key : string) (kvs : list (string * A)) : list (string * A) :=
  List.filter (λ kv, negb (kv.1 =? key)) kvs.

(** [process_plugins] is [os.getenv("VLLM_PLUGINS")]. *)
Definition add_plugins (process_plugins : option string) (activated : list string)
    (environment : list (string * string)) : list (string * string) :=
  if bool_decide (activated = []) then environment
  else
    let names := _comma_separated_names process_plugins
                 ++ _comma_separated_names (assoc "VLLM_PLUGINS" environment) in
    let names := if bool_decide (_VLLM_BUILTIN_PLUGIN ∈ names) then names
                 else names ++ [_VLLM_BUILTIN_PLUGIN] in
    dict_set "VLLM_PLUGINS" (String.concat "," (from_keys (names ++ activated)))
      (remove_key "VLLM_PLUGINS" environment).

Definition _activation_environment (process_plugins : option string)
    (bundles : list InstalledBundle) (plans : list ProviderPlan)
    : result (list (string * string)) :=
  environment ← fold_result (add_bundle_environment plans) [] bundles;
  activated ← _declared_vllm_plugins bundles;
  Ok (dict_set "VLLMHUST_EXT_ENABLED_BUNDLES" (String.concat "," (map ib_id bundles))
        (add_plugins process_plugins activated environment)).

Definition add_config (merged : list (string * json)) (kv : string * json)
    : result (list (string * json)) :=
  match assoc kv.1 merged with
  | Some old =>
      if py_eqb old kv.2 then Ok (dict_set kv.1 kv.2 merged)
      else value_error ("enabled Bundles disagree on additional_config key " +:+ kv.1)
  | None => Ok (dict_set kv.1 kv.2 merged)
  end.

Definition _activation_config (bundles : list InstalledBundle) : result (list (string * json)) :=
  fold_result (λ merged b,
    if h_provider (m_host (manifest b)) =? "stateaxis" then Ok merged
    else fold_result add_config merged (additional_config (activation (manifest b)))) [] bundles.

(** ** Composition: the command line *)

Definition additional_option : string := "--additional-config".

(** The first use of an option: its index, whether its value is an argument of its own, and the
    value. *)
Fixpoint locate (option : string) (index : nat) (command : list string)
    : result (Datatypes.option (nat * bool * string)) :=
  match command with
  | [] => Ok None
  | argument :: rest =>
      if argument =? option then
        match rest with
        | value :: _ => Ok (Some (index, true, value))
        | [] => value_error (option +:+ " requires a JSON object")
        end
      else
        match strip_prefix (option +:+ "=") argument with
        | Some value => Ok (Some (index, false, value))
        | None => locate option (S index) rest
        end
  end.

(** Writing a value back where it was found, or at the end. *)
Definition write_back (option : string) (found : Datatypes.option (nat * bool * string))
    (encoded : string) (command : list string) : list string :=
  match found with
  | None => command ++ [option; encoded]
  | Some (index, true, _) => <[S index := encoded]> command
  | Some (index, false, _) => <[index := option +:+ "=" +:+ encoded]> command
  end.

Section Launch.
Context (decode : string → option json).

Definition json_value (raw : string) : result json :=
  match decode raw with Some v => Ok v | None => value_error "JSONDecodeError" end.

(** The object that --additional-config holds. *)
Definition existing_config (found : option (nat * bool * string))
    : result (list (string * json)) :=
  match found with
  | None => Ok []
  | Some (_, raw) =>
      v ← json_value raw;
      match v with
      | JObj kvs => Ok kvs
      | _ => value_error "--additional-config must contain a JSON object"
      end
  end.

(** [existing.update(added)] when no key changes its value. *)
Definition update_config (existing added : list (string * json)) : result (list (string * json)) :=
  let conflicts := map fst (List.filter (λ kv : string * json,
    match assoc kv.1 existing with Some v => negb (py_eqb v kv.2) | None => false end) added) in
  _ ← check (bool_decide (conflicts = []))
        (ValueError ("plugin activation conflicts with additional_config keys: "
           +:+ list_repr (sort_by id str_leb conflicts)));
  Ok (fold_left (λ d kv, dict_set kv.1 kv.2 d) added existing).

Definition _merge_command_config (command : list string) (activation : list (string * json))
    : result (list string) :=
  if bool_decide (activation = []) then Ok command
  else
    found ← locate additional_option 0 command;
    existing ← existing_config found;
    merged ← update_config existing activation;
    Ok (write_back additional_option found (ascii_dumps (JObj merged)) command).

Definition _merge_json_option (command : list string) (option : string) (generated : json)
    : result (list string) :=
  found ← locate option 0 command;
  match found with
  | Some (_, raw) =>
      existing ← json_value raw;
      if py_eqb existing generated then Ok command
      else value_error ("extension activation conflicts with " +:+ option)
  | None => Ok (command ++ [option; ascii_dumps generated])
  end.

(** [argument.partition("=")[0].replace("_", "-")]. *)
Definition key_of (argument : string) : string :=
  string_of_list_ascii (map (λ c, if Ascii.eqb c "_" then "-"%char else c)
    (list_ascii_of_string (partition "=" argument).1)).

(** The uses of an option in the arguments before the separator. *)
Fixpoint scan_option (option generated : string) (arguments : list string) : result bool :=
  match arguments with
  | [] => Ok false
  | argument :: rest =>
      used ← (if key_of argument =? option then
                match (partition "=" argument).2, rest with
                | Some value, _ =>
                    if value =? "" then value_error (option +:+ " requires a value")
                    else if value =? generated then Ok true
                    else value_error ("extension activation conflicts with " +:+ option)
                | None, [] => value_error (option +:+ " requires a value")
                | None, value :: _ =>
                    if String.prefix "--" value then value_error (option +:+ " requires a value")
                    else if value =? generated then Ok true
                    else value_error ("extension activation conflicts with " +:+ option)
                end
              else Ok false);
      found ← scan_option option generated rest;
      Ok (used || found)
  end.

(** The arguments before the first "--", and the rest. *)
Fixpoint split_boundary (command : list string) : list string * list string :=
  match command with
  | [] => ([], [])
  | a :: rest =>
      if a =? "--" then ([], command)
      else let '(before, after) := split_boundary rest in (a :: before, after)
  end.

Definition abbreviates (option key : string) : bool :=
  String.prefix "--" key && negb (key =? "--") && negb (key =? option) && String.prefix key option.

Definition _merge_scalar_option (command : list string) (option generated : string)
    : result (list string) :=
  let '(before, after) := split_boundary command in
  _ ← check (negb (existsb (λ a, abbreviates option (key_of a)) command))
        (ValueError ("abbreviated managed option " +:+ option +:+ " is not supported"));
  _ ← check (negb (existsb (λ a, key_of a =? option) (tail after)))
        (ValueError ("managed option " +:+ option +:+ " cannot follow the -- separator"));
  found ← scan_option option generated before;
  Ok (if (found : bool) then command else before ++ [option; generated] ++ after).

(** ** Composition: provider plans *)

(** [existing.pop("stateaxis_mods", None)] and the legacy binding, as one dictionary. *)
Definition stateaxis_bindings (existing : list (string * json)) : result (list (string * json)) :=
  let legacy := get "stateaxis_mod" existing in
  let experiment := if truthy legacy then get "experiment_mode" existing else JNull in
  bindings ← match get "stateaxis_mods" existing with
    | JNull => Ok []
    | JObj kvs => Ok kvs
    | _ => value_error "stateaxis_mods must be a JSON object"
    end;
  match legacy with
  | JNull => Ok bindings
  | JObj kvs =>
      match get "mod_id" kvs with
      | JStr i => Ok (dict_set i (JObj (dict_set "experiment_mode" experiment kvs)) bindings)
      | _ => value_error "existing stateaxis_mod binding is invalid"
      end
  | _ => value_error "existing stateaxis_mod binding is invalid"
  end.

(** What is left of the configuration once the bindings are taken out. *)
Definition without_bindings (existing : list (string * json)) : list (string * json) :=
  let rest := remove_key "stateaxis_mod" existing in
  let rest := if truthy (get "stateaxis_mod" existing) then remove_key "experiment_mode" rest
              else rest in
  remove_key "stateaxis_mods" rest.

(** The bindings written back: a single one in the legacy fields. *)
Definition write_bindings (bindings existing : list (string * json)) : result (list (string * json)) :=
  match bindings with
  | [(_, JObj only)] =>
      match assoc "experiment_mode" only with
      | Some mode =>
          Ok (dict_set "stateaxis_mod" (JObj (remove_key "experiment_mode" only))
                (dict_set "experiment_mode" mode existing))
      | None => Err (KeyError "experiment_mode")
      end
  | [_] => Err AssertionError
  | _ => Ok (dict_set "stateaxis_mods" (JObj bindings) existing)
  end.

(** One more binding, and the rest of the plan's configuration. *)
Definition compose_binding (existing : list (string * json)) (mod_id : string)
    (binding additional : list (string * json)) : result (list (string * json)) :=
  bindings ← stateaxis_bindings existing;
  let candidate := JObj (dict_set "experiment_mode" (get "experiment_mode" additional) binding) in
  _ ← check (match assoc mod_id bindings with Some v => py_eqb v candidate | None => true end)
        (ValueError ("conflicting StateAxis MOD binding for " +:+ quoted mod_id));
  let bindings := dict_set mod_id candidate bindings in
  let mechanism := remove_key "experiment_mode" (remove_key "stateaxis_mod" additional) in
  merged ← update_config (without_bindings existing) mechanism;
  write_bindings bindings merged.

Definition _merge_stateaxis_plan_config (command : list string) (additional : list (string * json))
    : result (list string) :=
  match get "stateaxis_mod" additional with
  | JObj binding =>
      match get "mod_id" binding with
      | JStr mod_id =>
          found ← locate additional_option 0 command;
          existing ← existing_config found;
          merged ← compose_binding existing mod_id binding additional;
          Ok (write_back additional_option found (ascii_dumps (JObj merged)) command)
      | _ => Err AssertionError
      end
  | _ => Err AssertionError
  end.

Definition stateaxis_binding_fields : list string :=
  ["mod_id"; "version"; "manifest_sha256"; "performance_qualified"].

Definition merge_stateaxis (command : list string) (plan : ProviderPlan) : result (list string) :=
  match get_default "stateaxis_additional_config" (generated_config plan) (JObj []) with
  | JObj additional =>
      _ ← check (forallb (λ k, bool_decide (k ∈ keys additional)) ["experiment_mode"; "stateaxis_mod"])
            (ValueError "StateAxis provider requires experiment_mode and stateaxis_mod");
      _ ← check (match get "experiment_mode" additional with JBool _ => true | _ => false end)
            (ValueError "StateAxis experiment_mode must be boolean");
      _ ← check (match get "stateaxis_mod" additional with
                 | JObj binding => same_keys stateaxis_binding_fields binding
                 | _ => false
                 end) (ValueError "StateAxis provider emitted an invalid stateaxis_mod binding");
      _ ← check (py_eqb (get "stateaxis_mod" additional)
                   (get "stateaxis_mod" (generated_config plan)))
            (ValueError "StateAxis launch binding differs from the provider plan");
      _merge_stateaxis_plan_config command additional
  | _ => value_error "StateAxis provider requires experiment_mode and stateaxis_mod"
  end.

Definition json_options : list string :=
  ["--additional-config"; "--batch-admission-policy-config"; "--speculative-config"].
Definition scalar_options : list string :=
  ["--batch-admission-policy"; "--preemption-policy"; "--scheduler-cls"; "--worker-cls"].
Definition flag_options : list string :=
  ["--enable-prefix-caching"; "--scheduler-reserve-output-budget"].

Definition merge_json (command : list string) (kv : string * json) : result (list string) :=
  match kv.2 with
  | JObj _ =>
      if bool_decide (kv.1 ∈ json_options) then _merge_json_option command kv.1 kv.2
      else value_error ("unsupported provider JSON option " +:+ quoted kv.1)
  | _ => value_error ("unsupported provider JSON option " +:+ quoted kv.1)
  end.

Definition merge_scalar (command : list string) (kv : string * json) : result (list string) :=
  match kv.2 with
  | JStr value =>
      if bool_decide (kv.1 ∈ scalar_options) then _merge_scalar_option command kv.1 value
      else value_error ("unsupported provider option " +:+ quoted kv.1)
  | _ => value_error ("unsupported provider option " +:+ quoted kv.1)
  end.

Definition merge_flag (command : list string) (option : json) : result (list string) :=
  known ← in_set option flag_options;
  match option with
  | JStr flag =>
      _ ← check known (ValueError ("unsupported provider flag " +:+ quoted flag));
      let command := if flag =? "--enable-prefix-caching"
        then List.filter (λ a, negb (a =? "--no-enable-prefix-caching")) command else command in
      Ok (if bool_decide (flag ∈ command) then command else command ++ [flag])
  | _ => value_error ("unsupported provider flag " +:+ py_repr option)
  end.

(** The plan of the vLLM provider: JSON options, classes, flags. *)
Definition merge_vllm (command : list string) (plan : ProviderPlan) : result (list string) :=
  let generated := generated_config plan in
  command ← match get_default "vllm_json_options" generated (JObj []) with
    | JObj options => fold_result merge_json command options
    | _ => value_error "provider vllm_json_options must be an object"
    end;
  command ← match get_default "vllm_options" generated (JObj []) with
    | JObj options => fold_result merge_scalar command options
    | _ => value_error "provider vllm_options must be an object"
    end;
  match get_default "vllm_flags" generated (JArr []) with
  | JArr flags => fold_result merge_flag command flags
  | _ => value_error "provider vllm_flags must be an array"
  end.

Definition connector_action (a : PlanAction) : bool :=
  (operation a =? "render_connector_config") && (ProviderPlans.target a =? "vllm")
  && negb (mutating a).

Definition _merge_provider_plan (command : list string) (plan : ProviderPlan)
    : result (list string) :=
  match get "kv_transfer_config" (generated_config plan) with
  | JObj connector =>
      _ ← check (bool_decide (length (List.filter connector_action (actions plan)) = 1%nat))
            (ValueError ("provider kv_transfer_config requires one non-mutating "
               +:+ "render_connector_config action targeting vllm"));
      _merge_json_option command "--kv-transfer-config" (JObj connector)
  | JNull =>
      if provider plan =? "stateaxis" then merge_stateaxis command plan
      else if provider plan =? "vllm" then merge_vllm command plan
      else value_error (provider plan +:+ " extensions use plan/render/check, not run")
  | _ => value_error "provider kv_transfer_config must be a JSON object"
  end.
End Launch.

(** ** run *)

(** A composed launch: the command, the activation environment, and the manifests for the host. *)
Record Launch := mkLaunch {
  l_command : list string; l_environment : list (string * string);
  l_native : list (string * json) }.

(** What [run] does: print a composed launch, or supervise a command in an environment. *)
Variant outcome := DryRun (launch : Launch) | Supervise (command : list string)
  (environment : list (string * string)).

Definition update_environment (environ added : list (string * string)) : list (string * string) :=
  fold_left (λ d kv, dict_set kv.1 kv.2 d) added environ.

Section Run.
Context `{ContractParser.Packaging} (decode : string → option json)
  (status_for : InstalledBundle → ExtensionConfig → result ExtensionStatus)
  (plan_for : InstalledBundle → ExtensionConfig → result ProviderPlan)
  (discover : list string → result (list InstalledBundle)).

(** [discover_bundles(config.enabled) if config.enabled else ()]. *)
Definition enabled_bundles (config : UserConfig) : result (list InstalledBundle) :=
  match enabled_ids config with [] => Ok [] | ids => discover ids end.

(** The states a bundle must have to be launched. *)
Definition admit_launch (config : UserConfig) (b : InstalledBundle) : result unit :=
  blocker ← activation_blocker (manifest b);
  _ ← check (bool_decide (blocker = None))
        (ValueError ("refusing to launch " +:+ quoted (ib_id b) +:+ ": " +:+ default "" blocker));
  status ← status_for b (extension config (ib_id b));
  let why := String.concat "; " (st_evidence status) in
  let has s := bool_decide (s ∈ states status) in
  _ ← check (negb (has LifecycleState.INCOMPATIBLE))
        (ValueError ("refusing to launch incompatible extension " +:+ quoted (ib_id b) +:+ ": "
           +:+ why));
  let required := List.filter (λ s, negb (Manifest.optional s)) (requires_services (manifest b)) in
  _ ← check (bool_decide (required = []) || has LifecycleState.HEALTHY)
        (ValueError ("refusing to launch " +:+ quoted (ib_id b)
           +:+ ": required service health is not verified ("
           +:+ String.concat ", " (map service_id required) +:+ "); " +:+ why));
  _ ← check (negb (rt_isolation (m_runtime (manifest b)) =? "trusted_in_process")
             || has LifecycleState.COMPATIBLE)
        (ValueError ("refusing to launch unverified trusted in-process extension "
           +:+ quoted (ib_id b) +:+ ": " +:+ why));
  check (negb (h_provider (m_host (manifest b)) =? "stateaxis")
         || has LifecycleState.CONFIGURED)
    (ValueError ("refusing to launch unconfigured StateAxis extension " +:+ quoted (ib_id b)
       +:+ ": " +:+ why)).

(** The command to launch: without a leading separator, [vllm] when none is given. *)
Definition host_command (arguments : list string) : result (list string) :=
  let command := match arguments with [] => ["vllm"] | _ => arguments end in
  let command := match command with a :: rest => if a =? "--" then rest else command | [] => [] end in
  match command with [] => value_error "run requires a command after --" | _ => Ok command end.

Definition native_of (p : ProviderPlan) : Datatypes.option (string * json) :=
  option_map (pair (extension_id p)) (assoc "native_extension_manifest" (generated_config p)).

(** [_run_command] up to the composed launch. *)
Definition compose_launch (process_plugins : option string) (config : UserConfig)
    (arguments : list string) : result (list InstalledBundle * Launch) :=
  bundles ← enabled_bundles config;
  _ ← _validate_extension_dependencies bundles;
  _ ← _validate_process_ownership bundles;
  _ ← fold_result (λ _ b, admit_launch config b) tt bundles;
  command ← host_command arguments;
  shared ← _activation_config bundles;
  command ← _merge_command_config decode command shared;
  plans ← map_result (λ b, plan_for b (extension config (ib_id b))) bundles;
  _ ← reject_conflicting_plans plans None;
  command ← fold_result (_merge_provider_plan decode) command plans;
  activation ← _activation_environment process_plugins bundles plans;
  Ok (bundles, mkLaunch command activation (omap native_of plans)).

(** The variables that name the manifests written to [directory]. *)
Definition native_environment (directory : string) (native : list (string * json))
    : list (string * string) :=
  match native with
  | [] => []
  | _ => [("VLLM_EXTENSION_MANIFESTS", String.concat ":"
             (imap (λ i _, directory +:+ "/" +:+ z_str (Z.of_nat i) +:+ "-manifest.json") native));
          ("VLLM_EXTENSION_BUNDLES", String.concat "," (map fst native))]
  end.

(** [_run_command]: [environ] is the Manager's environment, [launch_env] is
    [launch_environment], [directory] the temporary directory of the manifests. *)
Definition _run_command (environ : list (string * string)) (directory : string)
    (launch_env : list InstalledBundle → M Journal (list (string * string)))
    (config : UserConfig) (arguments : list string) (dry_run : bool) : M Journal outcome :=
  '(bundles, launch) ← lift_result (compose_launch (assoc "VLLM_PLUGINS" environ) config arguments);
  if dry_run then mret (DryRun launch)
  else
    raise_if (negb (bool_decide (l_native launch = []))
              && (bool_decide ("VLLM_EXTENSION_MANIFESTS" ∈ keys environ)
                  || bool_decide ("VLLM_EXTENSION_BUNDLES" ∈ keys environ)))
      (ValueError ("vllm-hust-ext owns VLLM_EXTENSION_MANIFESTS and VLLM_EXTENSION_BUNDLES "
         +:+ "while launching enabled vLLM extensions"));;
    let environment := update_environment environ (l_environment launch) in
    binding ← (match bundles with [] => mret [] | _ => launch_env bundles end);
    mret (Supervise (l_command launch)
      (update_environment (update_environment environment binding)
         (native_environment directory (l_native launch)))).

(** ** The commands that change the intent *)

Variant action :=
  | Enable (bundle_id : string) | Disable (bundle_id : string) | Forget (bundle_id : string)
  | Configure (bundle_id : string) (file : result string).

Context (dump : json → string).

Definition first_bundle (bundle_id : string) : result InstalledBundle :=
  bundles ← discover [bundle_id];
  match bundles with b :: _ => Ok b | [] => Err (IndexError "tuple index out of range") end.

(** [tuple(sorted(enabled | {bundle_id}))]. *)
Definition prospective_ids (config : UserConfig) (bundle_id : string) : list string :=
  sort_by id str_leb (remove_dups (bundle_id :: enabled_ids config)).

Definition enable_config (config : UserConfig) (bundle_id : string) : result UserConfig :=
  b ← first_bundle bundle_id;
  blocker ← activation_blocker (manifest b);
  _ ← check (bool_decide (blocker = None))
        (ValueError ("cannot enable " +:+ quoted bundle_id +:+ ": " +:+ default "" blocker));
  bundles ← discover (prospective_ids config bundle_id);
  _ ← _validate_extension_dependencies bundles;
  _ ← _validate_process_ownership bundles;
  _ ← _validate_resource_ownership bundles;
  Ok (with_extension bundle_id
        (mkExtensionConfig true (configuration (extension config bundle_id))) config).

Definition disable_config (config : UserConfig) (bundle_id : string) : result UserConfig :=
  bundles ← enabled_bundles config;
  _ ← _validate_dependency_removal bundle_id bundles;
  Ok (with_extension bundle_id
        (mkExtensionConfig false (configuration (extension config bundle_id))) config).

Definition forget_config (config : UserConfig) (bundle_id : string) : result UserConfig :=
  match assoc bundle_id config with
  | None => value_error ("extension " +:+ quoted bundle_id +:+ " has no stored state")
  | Some stored =>
      _ ← check (negb (enabled stored))
            (ValueError ("disable " +:+ quoted bundle_id +:+ " before forgetting its stored state"));
      bundles ← enabled_bundles config;
      _ ← _validate_dependency_removal bundle_id bundles;
      Ok (without_extension bundle_id config)
  end.

Definition configure_config (config : UserConfig) (bundle_id : string) (file : result string)
    : result UserConfig :=
  _ ← discover [bundle_id];
  text ← file;
  v ← json_value decode text;
  match v with
  | JObj c =>
      Ok (with_extension bundle_id
            (mkExtensionConfig (enabled (extension config bundle_id)) c) config)
  | _ => value_error "extension configuration file must contain an object"
  end.

Definition changed_config (config : UserConfig) (a : action) : result UserConfig :=
  match a with
  | Enable i => enable_config config i
  | Disable i => disable_config config i
  | Forget i => forget_config config i
  | Configure i file => configure_config config i file
  end.

(** [_extension_command] of these actions. *)
Definition _extension_command (a : action) : M Disk unit :=
  config ← load_config decode;
  changed ← lift_result (changed_config config a);
  save_config dump changed.
End Run.
