(* ===== verification/CommandLine.v ===== *)
(** * CommandLine: what composition does to a command line

    Composition changes a command line by a few kinds of edits ([edit]).  None of them takes away
    a managed option once it has its value, or a flag once it is there. *)

From S2P Require Import Prelude Effects Json JsonText JsonFacts Manifest ProviderPlans VllmProvider Commands.

Local Open Scope string_scope.
Local Open Scope list_scope.

(** ** Words *)

(** A word that neither names a managed option nor starts like an option. *)
Definition inert (s : string) : Prop := key_of s ∉ scalar_options ∧ String.prefix "--" s = false.

(** The arguments before the separator. *)
Definition before (command : list string) : list string := (split_boundary command).1.

Lemma before_cons a c : before (a :: c) = if a =? "--" then [] else a :: before c.
Proof.
  unfold before. cbn. destruct (a =? "--"); [done|]. by destruct (split_boundary c).
Qed.

Lemma before_app c k : before (c ++ k) = if bool_decide ("--" ∈ c) then before c else c ++ before k.
Proof.
  induction c as [|a c IH]; [done|]. cbn [app]. rewrite !before_cons, IH.
  destruct (String.eqb_spec a "--") as [->|Hne]; [by rewrite bool_decide_true by left|].
  destruct (decide ("--" ∈ c)).
  - rewrite !bool_decide_true by (done || by right). done.
  - rewrite !bool_decide_false; [done|set_solver|done].
Qed.

Lemma before_all c : "--" ∉ c → before c = c.
Proof.
  intros Hn. rewrite <-(app_nil_r c) at 1. rewrite before_app, bool_decide_false by done.
  by rewrite app_nil_r.
Qed.

Lemma split_boundary_spec c :
  c = before c ++ (split_boundary c).2 ∧ "--" ∉ before c
  ∧ ((split_boundary c).2 = [] ∨ ∃ rest, (split_boundary c).2 = "--" :: rest).
Proof.
  unfold before. induction c as [|a c (IH & Hn & Ha)]; cbn; [split_and!; [done|set_solver|by left]|].
  destruct (String.eqb_spec a "--") as [->|Hne]; cbn; [split_and!; [done|set_solver|by eauto]|].
  destruct (split_boundary c) as [b r]. cbn in *. split_and!; [by f_equal|set_solver|done].
Qed.

Lemma before_inserted c new : "--" ∉ new →
  before (before c ++ new ++ (split_boundary c).2) = before c ++ new.
Proof.
  destruct (split_boundary_spec c) as (_ & Hn & Ha). intros Hnew.
  rewrite before_app, bool_decide_false, before_app, bool_decide_false by done.
  destruct Ha as [->|[rest ->]]; [|rewrite before_cons]; by rewrite app_nil_r.
Qed.

(** ** Scans *)

Section Scan.
Context (option : string).

(** What one argument and its successor say of the option. *)
Definition use (generated argument : string) (next : Datatypes.option string) : result bool :=
  if key_of argument =? option then
    match (partition "=" argument).2, next with
    | Some value, _ =>
        if value =? "" then value_error (option +:+ " requires a value")
        else if value =? generated then Ok true
        else value_error ("extension activation conflicts with " +:+ option)
    | None, None => value_error (option +:+ " requires a value")
    | None, Some value =>
        if String.prefix "--" value then value_error (option +:+ " requires a value")
        else if value =? generated then Ok true
        else value_error ("extension activation conflicts with " +:+ option)
    end
  else Ok false.

Lemma scan_cons v a l b :
  scan_option option v (a :: l) = Ok b ↔
  ∃ u f, use v a (head l) = Ok u ∧ scan_option option v l = Ok f ∧ b = u || f.
Proof.
  assert (scan_option option v (a :: l)
    = (u ← use v a (head l); f ← scan_option option v l; Ok (u || f))) as ->.
  { unfold use. destruct l as [|w l]; cbn; destruct (key_of a =? option); try done;
      by destruct (partition "=" a) as [x [y|]]. }
  rewrite result_bind_ok. setoid_rewrite result_bind_ok. naive_solver.
Qed.

(** An argument whose successor cannot be a value does not look at it. *)
Lemma use_next v a next next' u :
  use v a next = Ok u → (∀ w, next = Some w → String.prefix "--" w = true) → use v a next' = Ok u.
Proof.
  unfold use. destruct (key_of a =? option); [|done]. destruct (partition "=" a) as [x [y|]]; cbn;
    [done|]. destruct next as [w|]; [|done]. intros Hu Hw. by rewrite (Hw w eq_refl) in Hu.
Qed.

Lemma scan_app v l k b b' :
  scan_option option v l = Ok b → scan_option option v k = Ok b' →
  scan_option option v (l ++ k) = Ok (b || b').
Proof.
  intros Hl Hk. revert b Hl. induction l as [|a l IH]; intros b Hl; [by injection Hl as <-|].
  apply scan_cons in Hl as (u & f & Hu & Hf & ->). cbn [app]. apply scan_cons.
  exists u, (f || b'). split_and!; [|by apply IH|by rewrite orb_assoc].
  destruct l as [|w l]; [|done]. by eapply use_next.
Qed.

(** Whether the option is used does not depend on the value that is asked for. *)
Lemma scan_same v v' l b b' :
  scan_option option v l = Ok b → scan_option option v' l = Ok b' → b = b'.
Proof.
  revert b b'. induction l as [|a l IH]; intros b b'; [cbn; congruence|].
  intros (u & f & Hu & Hf & ->)%scan_cons (u' & f' & Hu' & Hf' & ->)%scan_cons.
  rewrite (IH f f') by done. f_equal. revert Hu Hu'. unfold use, value_error.
  repeat case_match; congruence.
Qed.

(** The values that the command line gives to the option. *)
Fixpoint values (arguments : list string) : list string :=
  match arguments with
  | [] => []
  | a :: rest =>
      (if key_of a =? option
       then [match (partition "=" a).2 with Some v => v | None => default "" (head rest) end]
       else []) ++ values rest
  end.

Lemma scan_values v l :
  scan_option option v l = Ok true → values l ≠ [] ∧ Forall (λ w, w = v) (values l).
Proof.
  assert (∀ b, scan_option option v l = Ok b →
    Forall (λ w, w = v) (values l) ∧ (b = true → values l ≠ [])) as Hall.
  { induction l as [|a l IH]; intros b; [by intros [= <-]|].
    intros (u & f & Hu & Hf & ->)%scan_cons. destruct (IH f Hf) as [Hv Hn]. cbn. revert Hu.
    unfold use, value_error. destruct (key_of a =? option); [|intros [= <-]; cbn; split; [done|]].
    - intros Hu. split; [|done]. constructor; [|done]. revert Hu.
      destruct (partition "=" a) as [x [y|]], (head l) as [w|]; cbn; repeat case_match; try done;
        intros _; by reflect.
    - intros ->. by apply Hn. }
  intros Hs. by destruct (Hall true Hs) as [? Hn]; auto.
Qed.
End Scan.

(** ** Edits *)

Definition no_caching : string := "--no-enable-prefix-caching".

(** The options that composition appends with a JSON value. *)
Definition appended_options : list string := "--kv-transfer-config" :: json_options.

Inductive edit : list string → list string → Prop :=
  | edit_insert c o v :
      o ∈ scalar_options → inert v → scan_option o v (before c) = Ok false →
      edit c (before c ++ [o; v] ++ (split_boundary c).2)
  | edit_append c o e : o ∈ appended_options → inert e → edit c (c ++ [o; e])
  | edit_flag c f : f ∈ flag_options → edit c (c ++ [f])
  | edit_remove c : edit c (List.filter (λ a, negb (a =? no_caching)) c)
  | edit_value c i raw e :
      c !! i = Some additional_option → c !! S i = Some raw → inert raw → inert e →
      edit c (<[S i := e]> c)
  | edit_inline c i raw e :
      c !! i = Some (additional_option +:+ "=" +:+ raw) →
      edit c (<[i := additional_option +:+ "=" +:+ e]> c).

Ltac in_list H := repeat (apply elem_of_cons in H as [->|H]); [..|by apply elem_of_nil in H].

Lemma key_inline e : key_of (additional_option +:+ "=" +:+ e) = additional_option.
Proof. reflexivity. Qed.

Lemma inline_not_boundary e : (additional_option +:+ "=" +:+ e =? "--") = false.
Proof. reflexivity. Qed.

Section Kept.
Context (o : string) (Ho : o ∈ scalar_options).

Lemma unmanaged a : a ∉ scalar_options → (a =? o) = false.
Proof. intros Ha. apply String.eqb_neq. by intros ->. Qed.

Lemma use_other v a next : key_of a ∉ scalar_options → use o v a next = Ok false.
Proof. intros Ha. unfold use. by rewrite unmanaged. Qed.

Lemma scan_other v a l b :
  key_of a ∉ scalar_options → scan_option o v (a :: l) = Ok b ↔ scan_option o v l = Ok b.
Proof.
  intros Ha. rewrite scan_cons. setoid_rewrite use_other; [|done]. split.
  - by intros (u & f & [= <-] & Hf & ->).
  - intros Hb. by exists false, b.
Qed.

Lemma unmanaged_options a : a ∈ appended_options ∨ a ∈ flag_options ∨ a = no_caching →
  key_of a ∉ scalar_options ∧ a ≠ "--".
Proof.
  intros [Ha|[Ha|Ha]]; [unfold appended_options, json_options in Ha|unfold flag_options in Ha|subst a].
  1,2: in_list Ha. all: split; [by apply (bool_decide_unpack _)|done].
Qed.

Lemma managed_options a : a ∈ scalar_options → key_of a = a ∧ (partition "=" a).2 = None ∧ a ≠ "--".
Proof. unfold scalar_options. intros Ha. in_list Ha; by split_and!. Qed.

Lemma inert_not_boundary e : inert e → (e =? "--") = false.
Proof. intros [_ He]. apply String.eqb_neq. by intros ->. Qed.

Notation has v c := (scan_option o v (before c) = Ok true).
Notation scans v c b := (scan_option o v (before c) = Ok b).

Lemma scan_remove v c b :
  scans v c b → scans v (List.filter (λ a, negb (a =? no_caching)) c) b.
Proof.
  revert b. induction c as [|a c IH]; intros b; [done|]. rewrite before_cons. cbn [List.filter].
  destruct (String.eqb_spec a "--") as [->|Hne]; [done|].
  destruct (String.eqb_spec a no_caching) as [->|Hna]; cbn [negb].
  - rewrite scan_other by by apply unmanaged_options; auto. apply IH.
  - intros (u & f & Hu & Hf & ->)%scan_cons. rewrite before_cons.
    apply String.eqb_neq in Hne as ->. apply scan_cons. exists u, f. split_and!; [|by apply IH|done].
    destruct c as [|w c]; [done|]. rewrite before_cons in Hu. cbn [List.filter].
    destruct (String.eqb_spec w no_caching) as [->|]; cbn [negb].
    + eapply use_next; [exact Hu|]. by intros w' [= <-].
    + rewrite before_cons. by destruct (w =? "--").
Qed.

(** The word after a replaced one and the words before it are read as they were. *)
Lemma head_before_insert c j e : head (before (<[S j := e]> c)) = head (before c).
Proof. destruct c as [|w c]; [done|]. cbn. rewrite !before_cons. by destruct (w =? "--"). Qed.

Lemma scan_replace v c i raw e b :
  c !! i = Some additional_option → c !! S i = Some raw → inert raw → inert e →
  scans v c b → scans v (<[S i := e]> c) b.
Proof.
  intros Hi Hs Hr He. revert i Hi Hs b. induction c as [|a c IH]; intros i Hi Hs b; [done|].
  rewrite before_cons. destruct i as [|i]; cbn in Hi, Hs.
  - injection Hi as ->. destruct c as [|w c]; [done|]. injection Hs as ->.
    cbn [insert list_insert]. rewrite !before_cons, (inert_not_boundary raw), (inert_not_boundary e) by done.
    change (additional_option =? "--") with false. cbn iota.
    assert (key_of additional_option ∉ scalar_options) as Ha
      by by apply unmanaged_options; left; right; left.
    by rewrite !scan_other by (done || apply Hr || apply He).
  - cbn [insert list_insert]. rewrite before_cons. destruct (a =? "--"); [done|].
    intros (u & f & Hu & Hf & ->)%scan_cons. apply scan_cons. exists u, f.
    split_and!; [by rewrite head_before_insert|by eapply IH|done].
Qed.

Lemma scan_inline v c i raw e b :
  c !! i = Some (additional_option +:+ "=" +:+ raw) →
  scans v c b → scans v (<[i := additional_option +:+ "=" +:+ e]> c) b.
Proof.
  revert i b. induction c as [|a c IH]; intros i b Hi; [done|]. rewrite before_cons.
  destruct i as [|i]; cbn [lookup list_lookup insert list_insert] in *.
  - injection Hi as ->. rewrite before_cons, !inline_not_boundary.
    rewrite !scan_other; [done|..]; by rewrite key_inline; apply (bool_decide_unpack _).
  - rewrite before_cons. destruct (a =? "--"); [done|].
    intros (u & f & Hu & Hf & ->)%scan_cons. apply scan_cons. exists u, f.
    split_and!; [|by apply IH|done]. destruct i as [|i]; [|by rewrite head_before_insert].
    destruct c as [|w c]; [done|]. injection Hi as ->. eapply use_next; [exact Hu|].
    intros w'. rewrite before_cons, inline_not_boundary. by intros [= <-].
Qed.

(** No edit takes a managed option away or changes its value. *)
Lemma edit_keeps v c c' : edit c c' → has v c → has v c'.
Proof.
  intros He Hv. destruct He as [c o' w Ho' Hw Hf|c o' e Ho' He|c f Hf|c|c i raw e Hi Hs Hr He|c i raw e Hi].
  - destruct (managed_options o' Ho') as (Hk & Hp & Hb).
    rewrite before_inserted by (intros [|[|[]%elem_of_nil]%elem_of_cons]%elem_of_cons;
      [by subst|]; destruct Hw as [_ Hw]; by subst).
    assert (o' ≠ o) as Hne by (intros ->; by pose proof (scan_same _ _ _ _ _ _ Hf Hv)).
    apply (scan_app _ _ _ _ true false); [done|]. apply scan_cons. exists false, false.
    split_and!; [|by apply scan_other; [apply Hw|]|done].
    unfold use. rewrite Hk. by apply String.eqb_neq in Hne as ->.
  - destruct (unmanaged_options o' (or_introl Ho')) as [Hk Hb].
    rewrite before_app. destruct (bool_decide _) eqn:Eb; [done|]. apply bool_decide_eq_false in Eb.
    rewrite before_all in Hv by done.
    apply (scan_app _ _ _ _ true false); [done|].
    rewrite !before_cons, (inert_not_boundary e He). apply String.eqb_neq in Hb as ->.
    by rewrite !scan_other by (apply He || done).
  - destruct (unmanaged_options f (or_intror (or_introl Hf))) as [Hk Hb].
    rewrite before_app. destruct (bool_decide _) eqn:Eb; [done|]. apply bool_decide_eq_false in Eb.
    rewrite before_all in Hv by done.
    apply (scan_app _ _ _ _ true false); [done|].
    rewrite before_cons. apply String.eqb_neq in Hb as ->. by rewrite scan_other.
  - by apply scan_remove.
  - by eapply scan_replace.
  - by eapply scan_inline.
Qed.
End Kept.

(** What is in a command line besides options with values: flags stay, and [no_caching] does not
    come back. *)
Lemma elem_of_inserted a c new :
  a ∈ before c ++ new ++ (split_boundary c).2 ↔ a ∈ c ∨ a ∈ new.
Proof. rewrite (proj1 (split_boundary_spec c)) at 3. set_solver. Qed.

Lemma elem_of_insert_other (a x : string) (c : list string) (i : nat) e :
  c !! i = Some x → a ≠ x → a ≠ e → a ∈ <[i := e]> c ↔ a ∈ c.
Proof.
  intros Hi Hx He. rewrite !list_elem_of_lookup. split; intros [j Hj]; exists j.
  - destruct (decide (i = j)) as [->|]; [|by rewrite list_lookup_insert_ne in Hj].
    rewrite list_lookup_insert_eq in Hj by by eapply lookup_lt_Some. by injection Hj as ->.
  - rewrite list_lookup_insert_ne; [done|]. intros ->. congruence.
Qed.

Lemma not_inert f : f ∈ flag_options ∨ f = no_caching → ∀ a, inert a → f ≠ a.
Proof.
  unfold flag_options. intros Hf a [_ Ha] <-. destruct Hf as [Hf|Hf]; [in_list Hf|subst f]; done.
Qed.

Lemma flag_not_option f o : f ∈ flag_options ∨ f = no_caching → o ∈ scalar_options ++ appended_options →
  f ≠ o.
Proof.
  unfold flag_options. intros Hf Ho. destruct Hf as [Hf|Hf]; [in_list Hf|subst f]; cbn in Ho; in_list Ho; done.
Qed.

Lemma flag_not_inline f raw : f ∈ flag_options ∨ f = no_caching → f ≠ additional_option +:+ "=" +:+ raw.
Proof. unfold flag_options. intros [Hf|Hf]; [in_list Hf|subst f]; done. Qed.

Lemma edit_keeps_flag f c c' : f ∈ flag_options → edit c c' → f ∈ c → f ∈ c'.
Proof.
  intros Hf He Hin.
  destruct He as [c o' w Ho' Hw _|c o' e Ho' He|c f' Hf'|c|c i raw e Hi Hs Hr He|c i raw e Hi].
  - apply elem_of_inserted. by left.
  - set_solver.
  - set_solver.
  - apply list_elem_of_In, filter_In. split; [by apply list_elem_of_In|].
    apply negb_true_iff, String.eqb_neq. intros ->. revert Hf. by apply (bool_decide_unpack (no_caching ∉ flag_options)).
  - eapply elem_of_insert_other; [done|..|done]; apply not_inert; auto.
  - eapply elem_of_insert_other; [done|..|done]; apply flag_not_inline; auto.
Qed.

Lemma edit_keeps_out c c' : edit c c' → no_caching ∉ c → no_caching ∉ c'.
Proof.
  intros He Hout.
  destruct He as [c o' w Ho' Hw _|c o' e Ho' He|c f' Hf'|c|c i raw e Hi Hs Hr He|c i raw e Hi].
  - intros [?|Hin]%elem_of_inserted; [done|]. apply elem_of_cons in Hin as [E|Hin].
    + by eapply (flag_not_option no_caching o'); [right|set_solver|].
    + apply list_elem_of_singleton in Hin. by eapply not_inert; [right|exact Hw|].
  - rewrite elem_of_app. intros [?|Hin]; [done|]. apply elem_of_cons in Hin as [E|Hin].
    + by eapply (flag_not_option no_caching o'); [right|set_solver|].
    + apply list_elem_of_singleton in Hin. by eapply not_inert; [right|exact He|].
  - rewrite elem_of_app. intros [?|Hin]; [done|]. apply list_elem_of_singleton in Hin as <-.
    revert Hf'. by apply (bool_decide_unpack (no_caching ∉ flag_options)).
  - intros [Hin _]%list_elem_of_In%filter_In. by apply list_elem_of_In in Hin.
  - intros Hin%(elem_of_insert_other _ raw); [done|done|..]; apply not_inert; auto.
  - intros Hin%(elem_of_insert_other _ (additional_option +:+ "=" +:+ raw)); [done|done|..];
      apply flag_not_inline; auto.
Qed.

(** ** What a plan sets *)

(** A plan whose launch options reach the command line. *)
Definition composed (p : ProviderPlan) : Prop :=
  provider p = "vllm" ∧ get "kv_transfer_config" (generated_config p) = JNull.

Definition sets_option (p : ProviderPlan) (o v : string) : Prop :=
  ∃ opts, get_default "vllm_options" (generated_config p) (JObj []) = JObj opts
    ∧ (o, JStr v) ∈ opts.
Definition sets_flag (p : ProviderPlan) (f : string) : Prop :=
  ∃ flags, get_default "vllm_flags" (generated_config p) (JArr []) = JArr flags ∧ JStr f ∈ flags.

(** The values of its options are no options themselves. *)
Definition plan_inert (p : ProviderPlan) : Prop := ∀ o v, sets_option p o v → inert v.
