(* ===== verification/VllmProofs.v ===== *)
(** * VllmProofs: the plans of the vLLM provider

    The options and flags that a plan sets are those of the manifest's components and of the
    user's configuration, and its classes are dotted names, never options. *)

From S2P Require Import Prelude Effects Json Sha256 JsonText JsonFacts Manifest ManifestProofs ProviderPlans VllmProvider Commands CommandLine.
From S2P Require ContractParser.

Local Open Scope string_scope.
Local Open Scope list_scope.

(** The contract of a component and the option that selects its class. *)
Definition class_contracts : list (string * string) :=
  [("vllm.preemption-policy.v1", "--preemption-policy");
   ("vllm.batch-admission-policy.v1", "--batch-admission-policy");
   ("vllm.scheduler-class.v1", "--scheduler-cls"); ("vllm.worker-class.v1", "--worker-cls")].

(** The class of the only component with the contract. *)
Definition selects (m : BundleManifest) (contract name : string) : Prop :=
  ∃ c, List.filter (λ c, bool_decide (contract ∈ contracts c)) (components m) = [c]
    ∧ _qualname_from_implementation_ref (implementation_ref c) = Ok name.

(** ** Options *)

Definition options_of (g : list (string * json)) : list (string * json) :=
  match get "vllm_options" g with JObj o => o | _ => [] end.

Lemma get_dict_set k k' v g : get k' (dict_set k v g) = if k =? k' then v else get k' g.
Proof. unfold get. rewrite assoc_dict_set. by destruct (k =? k'). Qed.

Lemma options_of_other k v g : k ≠ "vllm_options" → options_of (dict_set k v g) = options_of g.
Proof. intros Hk. unfold options_of. rewrite get_dict_set. by apply String.eqb_neq in Hk as ->. Qed.

Section Options.
Context (m : BundleManifest).

(** The options are those of the contracts seen so far. *)
Definition options_ok (seen : list (string * string)) (g : list (string * json)) : Prop :=
  NoDup (keys (options_of g))
  ∧ ∀ o v, assoc o (options_of g) = Some v ↔
      ∃ contract name, (contract, o) ∈ seen ∧ selects m contract name ∧ v = JStr name.

Lemma class_option_ok seen contract o validate g g' :
  options_ok seen g → o ∉ map snd seen → class_option m contract o validate g = Ok g' →
  options_ok ((contract, o) :: seen) g' ∧ (∀ k, k ≠ "vllm_options" → assoc k g' = assoc k g).
Proof.
  intros [Hnd Hs] Ho. unfold class_option.
  destruct (List.filter _ (components m)) as [|c [|c' l]] eqn:E; [| |done].
  - intros [= <-]. split; [|done]. split; [done|]. intros o' v. rewrite Hs. split.
    + intros (ct & n & Hin & ?). exists ct, n. split; [by right|done].
    + intros (ct & n & [[= -> ->]|Hin]%elem_of_cons & Hsel & ->); [|by exists ct, n].
      destruct Hsel as (c & Hc & _). by rewrite E in Hc.
  - intros ([] & _ & (name & Hn & [= <-])%result_bind_ok)%result_bind_ok. split.
    + assert (options_of (set_option o name g) = dict_set o (JStr name) (options_of g)) as Eo.
      { unfold set_option, options_of. by rewrite get_dict_set. }
      split; rewrite Eo; [by apply dict_set_nodup|]. intros o' v. rewrite assoc_dict_set.
      destruct (String.eqb_spec o o') as [<-|Hne].
      * split.
        -- intros [= <-]. exists contract, name. split; [by left|]. split; [|done]. by exists c.
        -- intros (ct & n & [[= ->]|Hin]%elem_of_cons & Hsel & ->).
           ++ destruct Hsel as (c' & Hc & Hn'). rewrite E in Hc. injection Hc as <-. congruence.
           ++ destruct Ho. apply list_elem_of_In, (in_map snd) in Hin. by apply list_elem_of_In.
      * rewrite Hs. split; intros (ct & n & Hin & ?); exists ct, n; (split; [|done]).
        -- by right.
        -- apply elem_of_cons in Hin as [[= -> ->]|?]; [done|done].
    + intros k Hk. unfold set_option. rewrite assoc_dict_set.
      by apply not_eq_sym, String.eqb_neq in Hk as ->.
Qed.
End Options.

(** ** Flags *)

(** The flags of the launch options that are set. *)
Definition asked_flag (configuration : list (string * json)) (f : string) : Prop :=
  ∃ options name, get_default "launch_options" configuration (JObj []) = JObj options
    ∧ (name, JBool true) ∈ options ∧ assoc name _BOOLEAN_LAUNCH_OPTIONS = Some f.

Lemma launch_option_ok acc kv acc' f :
  launch_option acc kv = Ok acc' →
  f ∈ acc'.2 ↔ f ∈ acc.2 ∨ kv.2 = JBool true ∧ assoc kv.1 _BOOLEAN_LAUNCH_OPTIONS = Some f.
Proof.
  destruct acc as [json_options flags], kv as [name v]. cbn [launch_option fst snd].
  destruct (assoc name _BOOLEAN_LAUNCH_OPTIONS) as [flag|].
  - destruct v as [|b| | | |]; try done. intros [= <-]. cbn. destruct b; [|naive_solver].
    rewrite elem_of_app, list_elem_of_singleton. naive_solver.
  - destruct v as [| | | | |kvs]; try done. destruct (assoc name _JSON_LAUNCH_OPTIONS); [|done].
    intros [= <-]. cbn. naive_solver.
Qed.

Lemma launch_options_ok configuration acc f :
  launch_options configuration = Ok acc → f ∈ acc.2 ↔ asked_flag configuration f.
Proof.
  unfold launch_options, asked_flag.
  destruct (get_default "launch_options" configuration (JObj [])) as [| | | | |options]; try done.
  intros [_ Hf]%check_bind.
  assert (∀ l a, fold_result launch_option a l = Ok acc →
    f ∈ acc.2 ↔ f ∈ a.2 ∨ ∃ name, (name, JBool true) ∈ l
      ∧ assoc name _BOOLEAN_LAUNCH_OPTIONS = Some f) as Hl.
  { induction l as [|[name v] l IH]; intros a; cbn.
    - intros [= <-]. set_solver.
    - intros (b & Hb & Hl)%result_bind_ok. rewrite (IH b Hl), (launch_option_ok _ _ _ f Hb). cbn.
      setoid_rewrite elem_of_cons. naive_solver. }
  rewrite (Hl _ _ Hf). cbn. set_solver.
Qed.

(** ** The generated configuration *)

Lemma assoc_add_names k names g :
  assoc k (add_names k names g)
  = if bool_decide (names ≠ []) then Some (JArr (JStr <$> names)) else assoc k g.
Proof.
  unfold add_names. destruct (decide (names = [])) as [->|Hn]; [done|].
  rewrite bool_decide_false, bool_decide_true by done. by rewrite assoc_dict_set, String.eqb_refl.
Qed.

Lemma assoc_add_names_ne k k' names g : k ≠ k' → assoc k' (add_names k names g) = assoc k' g.
Proof.
  intros Hk. unfold add_names. case_bool_decide; [done|]. rewrite assoc_dict_set.
  by apply String.eqb_neq in Hk as ->.
Qed.

(** The environment of a plan: the user's values are strings for declared variables, and each
    declared variable has the user's (last) value or else the manifest's. *)
Definition environment_ok (m : BundleManifest) (configuration declared : list (string * json))
    : Prop :=
  ∃ overrides, get_default "environment" configuration (JObj []) = JObj overrides
    ∧ (∀ k v, (k, v) ∈ overrides →
         k ∈ keys (environment (activation m)) ∧ ∃ s, v = JStr s)
    ∧ ∀ k, assoc k declared = match assoc k (rev overrides) with
                              | Some v => Some v
                              | None => JStr <$> assoc k (environment (activation m))
                              end.

Lemma assoc_app {A} k (l1 l2 : list (string * A)) :
  assoc k (l1 ++ l2) = match assoc k l1 with Some v => Some v | None => assoc k l2 end.
Proof. induction l1 as [|[x v] l1 IH]; [done|]. cbn. by destruct (x =? k). Qed.

Lemma assoc_overrides (overrides d : list (string * json)) k :
  assoc k (fold_left (λ d kv, dict_set kv.1 kv.2 d) overrides d)
  = match assoc k (rev overrides) with Some v => Some v | None => assoc k d end.
Proof.
  revert d. induction overrides as [|[x v] l IH]; intros d; [done|]. cbn [fold_left rev fst snd].
  rewrite IH, assoc_app, assoc_dict_set. cbn. by destruct (assoc k (rev l)), (x =? k).
Qed.

Lemma effective_environment_ok m configuration declared :
  effective_environment m configuration = Ok declared → environment_ok m configuration declared.
Proof.
  unfold effective_environment, environment_ok.
  destruct (get_default _ _ _) as [| | | | |overrides]; try done.
  intros [Hu [Hs [= <-]]%check_bind]%check_bind. exists overrides. split; [done|]. split.
  - intros k v Hin%list_elem_of_In. split.
    + destruct (decide (k ∈ keys (environment (activation m)))) as [|Hk]; [done|].
      apply bool_decide_eq_true in Hu. exfalso.
      assert (In k []) as []. rewrite <-Hu. apply filter_In. split; [by apply (in_map fst) in Hin|].
      by apply bool_decide_eq_true.
    + rewrite forallb_forall in Hs. specialize (Hs _ Hin). cbn in Hs. destruct v; try done. by eexists.
  - intros k. rewrite assoc_overrides. destruct (assoc k (rev overrides)); [done|]. apply assoc_fmap.
Qed.

Lemma generate_ok m configuration g :
  generate m configuration = Ok g →
  ∃ acc declared,
    launch_options configuration = Ok acc
    ∧ environment_ok m configuration declared
    ∧ options_ok m (rev class_contracts) g
    ∧ assoc "vllm_flags" g = (if bool_decide (acc.2 ≠ []) then Some (JArr (JStr <$> acc.2)) else None)
    ∧ assoc "kv_transfer_config" g = None
    ∧ assoc "environment" g = Some (JObj declared)
    ∧ get "native_extension_manifest" g = default JNull (native_manifest m).
Proof.
  unfold generate. intros ([jopts flags] & Hl & Hg)%result_bind_ok.
  apply result_bind_ok in Hg as (declared & He & Hg). cbn zeta in Hg.
  set (g0 := add_names "vllm_flags" flags _) in Hg.
  assert (options_ok m [] g0) as H0.
  { assert (options_of g0 = []) as E0.
    { unfold g0, options_of, get. by rewrite !assoc_add_names_ne by done. }
    split; rewrite E0; [constructor|]. intros o v. cbn. split; [done|].
    by intros (? & ? & []%elem_of_nil & _). }
  apply result_bind_ok in Hg as (g1 & H1 & Hg). apply result_bind_ok in Hg as (g2 & H2 & Hg).
  apply result_bind_ok in Hg as (g3 & H3 & Hg). apply result_bind_ok in Hg as (g4 & H4 & [= <-]).
  apply (class_option_ok m []) in H1 as [H1 K1]; [|done|set_solver].
  eapply class_option_ok in H2 as [H2 K2]; [|exact H1|by apply (bool_decide_unpack _)].
  eapply class_option_ok in H3 as [H3 K3]; [|exact H2|by apply (bool_decide_unpack _)].
  eapply class_option_ok in H4 as [H4 K4]; [|exact H3|by apply (bool_decide_unpack _)].
  assert (∀ k, k ≠ "vllm_options" → k ≠ "native_extension_manifest" →
    assoc k match native_manifest m with
            | Some native => dict_set "native_extension_manifest" native g4
            | None => g4
            end = assoc k g0) as Hk.
  { intros k Ho Hn. rewrite <-K1, <-K2, <-K3, <-K4 by done.
    destruct (native_manifest m); [|done]. rewrite assoc_dict_set.
    by apply not_eq_sym, String.eqb_neq in Hn as ->. }
  exists (jopts, flags), declared. split; [done|].
  split; [by apply effective_environment_ok|]. split_and!.
  - destruct (native_manifest m) as [native|]; [|done]. unfold options_ok.
    by rewrite options_of_other.
  - rewrite Hk by done. unfold g0. rewrite assoc_add_names, assoc_add_names_ne by done.
    done.
  - rewrite Hk by done. unfold g0. by rewrite !assoc_add_names_ne by done.
  - rewrite Hk by done. unfold g0. by rewrite !assoc_add_names_ne by done.
  - destruct (native_manifest m) as [native|]; [by rewrite get_dict_set|]. unfold get.
    rewrite K4, K3, K2, K1 by done. unfold g0. by rewrite !assoc_add_names_ne by done.
Qed.

(** ** Classes are dotted names *)

Lemma split_on_pieces c s : split_on c s ≠ [].
Proof. destruct s as [|a s]; cbn; [done|]. destruct (Ascii.eqb a c); [done|]. by case_match. Qed.

Lemma split_on_whole c s x : split_on c s = [x] → x = s.
Proof.
  revert x. induction s as [|a s IH]; intros x; cbn; [by intros [= <-]|].
  pose proof (split_on_pieces c s). destruct (Ascii.eqb a c); [by intros [= _ ?]|].
  destruct (split_on c s) as [|y l]; [done|]. intros [= <- ->]. f_equal. by apply IH.
Qed.

Lemma split_on_two c s x y : split_on c s = [x; y] → partition c s = (x, Some y).
Proof.
  revert x y. induction s as [|a s IH]; intros x y; cbn; [done|].
  destruct (Ascii.eqb a c).
  - intros [= <- Hy]. by rewrite (split_on_whole _ _ _ Hy).
  - destruct (split_on c s) as [|z l]; [done|]. intros [= <- ->]. by rewrite (IH z y).
Qed.

Lemma split_on_chars f c s :
  forallb (string_forall f) (split_on c s) = true →
  string_forall (λ d, Ascii.eqb d c || f d) s = true.
Proof.
  induction s as [|a s IH]; cbn; [done|]. destruct (Ascii.eqb a c); [exact IH|].
  pose proof (split_on_pieces c s). destruct (split_on c s) as [|x l]; [done|]. cbn in *.
  intros Hall. apply andb_true_iff in Hall as [Hx Hl]. apply andb_true_iff in Hx as [Ha Hx].
  rewrite Ha. apply IH. by rewrite Hx, Hl.
Qed.

Lemma name_chars s : is_name s = true → string_forall is_word s = true.
Proof.
  unfold is_name, matches. destruct s as [|c s]; [done|]. intros [Hc Hs]%andb_true_iff. cbn.
  rewrite Hs. unfold is_word. by rewrite Hc.
Qed.

Definition dotted_char (c : ascii) : bool := Ascii.eqb c "." || is_word c.

Lemma dotted_chars s : is_dotted s = true → string_forall dotted_char s = true.
Proof.
  intros Hs. apply split_on_chars. unfold is_dotted in Hs. rewrite forallb_forall in *.
  intros x Hx. by apply name_chars, Hs.
Qed.

Lemma dotted_first s : is_dotted s = true → ∃ c r, s = String c r ∧ name_start c = true.
Proof.
  unfold is_dotted. destruct s as [|c s]; [done|]. cbn. intros Hs. exists c, s. split; [done|].
  destruct (Ascii.eqb c "."); [done|]. pose proof (split_on_pieces "." s).
  destruct (split_on "." s) as [|x l]; [done|]. cbn in Hs. apply andb_true_iff in Hs as [Hs _].
  unfold is_name, matches in Hs. by apply andb_true_iff in Hs as [Hs _].
Qed.

Lemma dotted_char_spec c : dotted_char c = true → c ≠ "="%char.
Proof. by intros Hc ->. Qed.

Lemma partition_none c s :
  string_forall (λ d, negb (Ascii.eqb d c)) s = true → partition c s = (s, None).
Proof.
  induction s as [|a s IH]; cbn; [done|]. intros [Ha Hs]%andb_true_iff.
  apply negb_true_iff in Ha as ->. by rewrite IH.
Qed.

Lemma ascii_list_app a b :
  list_ascii_of_string (a +:+ b) = list_ascii_of_string a ++ list_ascii_of_string b.
Proof. induction a as [|c a IH]; [done|]. rewrite str_app_cons. cbn. by f_equal. Qed.

(** A dotted name with a dot in it is no managed option, even with its underscores read as
    dashes. *)
Lemma dotted_inert module object_name :
  is_dotted module = true → is_dotted object_name = true →
  inert (module +:+ "." +:+ object_name).
Proof.
  intros Hm Ho. set (v := module +:+ "." +:+ object_name).
  assert (string_forall dotted_char v = true) as Hv.
  { unfold v. rewrite !string_forall_app. by rewrite (dotted_chars _ Hm), (dotted_chars _ Ho). }
  split.
  - unfold key_of. rewrite partition_none; cbn [fst].
    2:{ eapply string_forall_impl; [|exact Hv]. intros c Hc%dotted_char_spec.
        by apply negb_true_iff, Ascii.eqb_neq. }
    assert ("."%char ∈ map (λ c, if Ascii.eqb c "_" then "-"%char else c) (list_ascii_of_string v))
      as Hdot.
    { apply list_elem_of_In, in_map_iff. exists "."%char. split; [done|]. unfold v.
      rewrite !ascii_list_app. apply in_or_app. right. by left. }
    set (l := map _ _) in *. intros Hin.
    assert (Forall (λ o, "."%char ∉ list_ascii_of_string o) scalar_options) as Hall
      by by apply (bool_decide_unpack _).
    rewrite Forall_forall in Hall. specialize (Hall _ Hin).
    by rewrite list_ascii_of_string_of_list_ascii in Hall.
  - destruct (dotted_first _ Hm) as (c & r & E & Hc). unfold v. rewrite E, str_app_cons.
    unfold String.prefix. destruct (Ascii.ascii_dec "-" c) as [<-|]; [done|done].
Qed.

Lemma qualname_inert ref name :
  _IMPLEMENTATION ref = true → _qualname_from_implementation_ref ref = Ok name → inert name.
Proof.
  unfold _IMPLEMENTATION, _qualname_from_implementation_ref.
  destruct (split_on ":" ref) as [|x [|y [|z l]]] eqn:E; try done.
  rewrite (split_on_two _ _ _ _ E). intros [Hx Hy]%andb_true_iff.
  destruct (_ || _); [done|]. intros [= <-]. by apply dotted_inert.
Qed.

(** ** Plans *)

(** The options of the generated configuration. *)
Lemma generated_options m g p :
  options_ok m (rev class_contracts) g → generated_config p = g →
  ∀ o v, sets_option p o v ↔ ∃ contract, (contract, o) ∈ class_contracts ∧ selects m contract v.
Proof.
  unfold sets_option, get_default. intros [Hnd Hopts] -> o v. split.
  - intros (opts & Eo & Hin). unfold options_of, get in Hnd, Hopts.
    destruct (assoc "vllm_options" g) as [w|]; cbn in Eo; subst; [|by injection Eo as <-;
      apply elem_of_nil in Hin]. cbn in Hnd, Hopts. apply assoc_nodup in Hin; [|done].
    apply Hopts in Hin as (contract & name & Hin & Hs & [= <-]). exists contract.
    split; [|done]. apply list_elem_of_In, in_rev. by apply list_elem_of_In in Hin.
  - intros (contract & Hin & Hs). exists (options_of g).
    assert (assoc o (options_of g) = Some (JStr v)) as Ha.
    { apply Hopts. exists contract, v. split; [|done]. apply list_elem_of_In.
      apply -> in_rev. by apply list_elem_of_In. }
    split; [|by apply assoc_elem_of]. unfold options_of, get in *.
    destruct (assoc "vllm_options" g) as [[]|]; cbn in *; try done.
Qed.

(** C27.  What an activation plan of the vLLM provider sets: the class behind each managed option
    is that of the only component with the option's contract, and no other option is set; the
    flags are those the user's launch options turn on; the user's environment is refused unless
    it only gives strings to variables that the manifest declares, and the plan's has for each
    variable the user's value or else the manifest's, and no other variable; and the plan
    mutates nothing. *)
Theorem vllm_plan_sets m configuration en p :
  activation_blocker m = Ok None → vllm_plan m configuration en = Ok p →
  composed p ∧ extension_id p = bundle_id m ∧ Forall (λ a, mutating a = false) (actions p)
  ∧ (∀ o v, sets_option p o v ↔
       ∃ contract, (contract, o) ∈ class_contracts ∧ selects m contract v)
  ∧ (∀ f, sets_flag p f ↔ asked_flag configuration f)
  ∧ ∃ declared, get "environment" (generated_config p) = JObj declared
      ∧ environment_ok m configuration declared.
Proof.
  intros Hb Hp. unfold vllm_plan in Hp. rewrite Hb in Hp. cbn [mbind result_bind] in Hp.
  apply result_bind_ok in Hp as (g & Hg & Hp). apply result_bind_ok in Hp as (claims & _ & [= <-]).
  apply generate_ok in Hg as (acc & declared & Hl & He & Ho & Hf & Hk & Hen & _).
  split; [by unfold composed, get; cbn; rewrite Hk|]. split; [done|]. split; [by repeat constructor|].
  split; [by apply (generated_options m g)|]. split.
  - intros f. rewrite <-(launch_options_ok _ _ _ Hl). unfold sets_flag, get_default. cbn.
    rewrite Hf. destruct (decide (acc.2 = [])) as [En|En];
      [rewrite bool_decide_false by by intros []|rewrite bool_decide_true by done]; cbn.
    + rewrite En. split; [|by intros ?%elem_of_nil].
      by intros (flags & [= <-] & ?%elem_of_nil).
    + split; [intros (flags & [= <-] & Hin)|intros Hin].
      * by apply list_elem_of_fmap in Hin as (x & [= ->] & Hx).
      * eexists. split; [done|]. by apply list_elem_of_fmap_2.
  - exists declared. split; [|done]. unfold get. cbn. by rewrite Hen.
Qed.

(** The plans of parsed manifests set inert values. *)
Lemma vllm_plan_inert m configuration en p :
  Forall (λ c, _IMPLEMENTATION (implementation_ref c) = true) (components m) →
  vllm_plan m configuration en = Ok p → plan_inert p.
Proof.
  intros Hall Hp o v Ho. unfold vllm_plan in Hp. apply result_bind_ok in Hp as ([r|] & Hb & Hp).
  { injection Hp as <-. by destruct Ho as (? & [= <-] & ?%elem_of_nil). }
  apply result_bind_ok in Hp as (g & Hg & Hp). apply result_bind_ok in Hp as (claims & _ & [= <-]).
  apply generate_ok in Hg as (acc & declared & _ & _ & Hopts & _).
  eapply generated_options in Ho as (contract & _ & c & Hc & Hn); [|done|done].
  eapply qualname_inert; [|exact Hn]. rewrite Forall_forall in Hall. apply Hall.
  assert (In c [c]) as Hin by by left. rewrite <-Hc in Hin. apply filter_In in Hin as [Hin _].
  by apply list_elem_of_In.
Qed.

Module VllmDemo.

(** A scheduler policy, and launch options of the user. *)
Definition policy : BundleManifest :=
  mkManifest "org.a" "1.0" ">=0"
    [mkComponent "policy" ["vllm.preemption-policy.v1"] ["scheduler"] "trusted_in_process"
       "pkg.policy:Policy" []]
    (mkActivation [] [("A_MODE", "fast")] []) "0.3" "scheduler_policy"
    (mkHost "vllm" "vllm" ">=0" None) (mkRuntime "python" "vllm_processes" "trusted_in_process")
    "vllm" [] [] [] [] [].
Definition configuration : list (string * json) :=
  [("launch_options", JObj [("enable_prefix_caching", JBool true)]);
   ("environment", JObj [("A_MODE", JStr "slow")])].

Definition plan : ProviderPlan :=
  match vllm_plan policy configuration true with Ok p => p | Err _ => ownership_plan
    (mkBundle "" "" "" "" policy) end.

Lemma vllm_plan_sets_witness :
  sets_option plan "--preemption-policy" "pkg.policy.Policy"
  ∧ sets_flag plan "--enable-prefix-caching"
  ∧ ∃ declared, get "environment" (generated_config plan) = JObj declared
      ∧ assoc "A_MODE" declared = Some (JStr "slow").
Proof.
  destruct (vllm_plan_sets policy configuration true plan) as (_ & _ & _ & Ho & Hf & declared & Hd & overrides & [= <-] & _ & He).
  - vm_compute. reflexivity.
  - vm_compute. reflexivity.
  - split; [|split; [|exists declared; split; [done|by rewrite He]]].
    + apply Ho. exists "vllm.preemption-policy.v1". split; [by left|]. by eexists.
    + apply Hf. exists [("enable_prefix_caching", JBool true)], "enable_prefix_caching".
      split; [done|]. split; [by left|done].
Defined.

(** A value for a variable that the manifest does not declare. *)
Example undeclared_variable :
  vllm_plan policy [("environment", JObj [("LD_PRELOAD", JStr "x.so")])] true
  = Err (ValueError "environment overrides must be declared by the manifest: ['LD_PRELOAD']").
Proof. vm_compute. reflexivity. Qed.
End VllmDemo.
