(* ===== verification/CommandProofs.v ===== *)
(** * CommandProofs: selections of extensions

    The check of dependencies accepts exactly the selections that are closed under dependencies,
    with versions in range and without cycles. *)

From stdpp Require Import relations.
From S2P Require Import Prelude Effects Json JsonText JsonFacts Manifest ProviderPlans PlanConflicts LifecycleProofs Discovery DiscoveryProofs Config Commands.
From S2P Require ContractParser CompilerTheorems.

Local Open Scope string_scope.
Local Open Scope list_scope.

(** ** Depth-first search *)

Section Search.
Context (edges : list (string * list string)).

Definition depends (x y : string) : Prop := y ∈ successors edges x.

(** What a node depends on comes before it. *)
Definition ordered (l : list string) : Prop :=
  ∀ k x y, l !! k = Some x → depends x y → y ∈ take k l.

Lemma ordered_nil : ordered [].
Proof. by intros k x y Hx. Qed.

Lemma ordered_snoc l x : ordered l → (∀ y, depends x y → y ∈ l) → ordered (l ++ [x]).
Proof.
  intros Ho Hx k z y Hk Hd. destruct (decide (k < length l)%nat) as [Hlt|Hge].
  - rewrite lookup_app_l in Hk by done. rewrite take_app_le by lia. by eapply Ho.
  - rewrite lookup_app_r in Hk by lia. assert (k - length l = 0)%nat as E.
    { apply lookup_lt_Some in Hk. cbn in Hk. lia. }
    rewrite E in Hk. injection Hk as <-. replace k with (length l) by lia.
    rewrite take_app_length. by apply Hx.
Qed.

(** An order leaves no cycle. *)
Lemma ordered_earlier l x y k :
  ordered l → l !! k = Some x → tc depends x y → ∃ j, (j < k)%nat ∧ l !! j = Some y.
Proof.
  intros Ho Hk Hd. revert k Hk. induction Hd as [x y Hxy|x y z Hxy _ IH]; intros k Hk;
    pose proof (Ho k x y Hk Hxy) as Hy; apply elem_of_take in Hy as (j & Hj & Hlt).
  - by exists j.
  - destruct (IH j Hj) as (j' & Hlt' & Hj'). exists j'. split; [lia|done].
Qed.

Lemma ordered_acyclic l x : ordered l → x ∈ l → ¬ tc depends x x.
Proof.
  intros Ho Hx Hc. apply list_elem_of_lookup in Hx as [k Hk].
  induction (lt_wf k) as [k _ IH]. destruct (ordered_earlier l x x k Ho Hk Hc) as (j & Hj & Hx).
  by eapply IH.
Qed.

Lemma fold_visits (step : list string → string → result (list string)) l v v' :
  (∀ w w' i, ordered w → step w i = Ok w' → ordered w' ∧ w ⊆ w' ∧ i ∈ w') →
  ordered v → fold_result step v l = Ok v' → ordered v' ∧ v ⊆ v' ∧ ∀ i, i ∈ l → i ∈ v'.
Proof.
  intros Hs. revert v. induction l as [|i l IH]; intros v Ho; cbn.
  - intros [= <-]. split_and!; [done|done|by intros i []%elem_of_nil].
  - intros (w & Hw & Hf)%result_bind_ok. apply Hs in Hw as (Hwo & Hvw & Hi); [|done].
    apply IH in Hf as (Ho' & Hww & Hin); [|done]. split_and!; [done|set_solver|].
    intros j [->|Hj]%elem_of_cons; [by apply Hww|by apply Hin].
Qed.

Lemma visit_ok n visiting v v' i :
  ordered v → visit edges n visiting v i = Ok v' → ordered v' ∧ v ⊆ v' ∧ i ∈ v'.
Proof.
  revert visiting v v' i. induction n as [|n IH]; intros visiting v v' i Ho; cbn [visit];
    case_bool_decide as Hv; [done| |done|]; case_bool_decide as Hd.
  - by intros [= <-].
  - done.
  - by intros [= <-].
  - intros (w & Hw & [= <-])%result_bind_ok.
    apply fold_visits in Hw as (Hwo & Hvw & Hin); [| |done].
    2:{ intros u u' j Hu Hj. by eapply IH. }
    split_and!; [by apply ordered_snoc|set_solver|set_solver].
Qed.

(** Consecutive nodes depend on each other. *)
Definition chain (l : list string) : Prop :=
  ∀ k x y, l !! k = Some x → l !! S k = Some y → depends x y.

Lemma chain_tc l a b x y :
  chain l → l !! a = Some x → l !! b = Some y → (a < b)%nat → tc depends x y.
Proof.
  intros Hc Ha. revert y. induction b as [|b IH]; intros y Hb Hlt; [lia|].
  destruct (lookup_lt_is_Some_2 l b) as [z Hz].
  { apply lookup_lt_Some in Hb. lia. }
  pose proof (Hc b z y Hz Hb) as Hzy. destruct (decide (a = b)) as [->|Hne].
  - assert (z = x) as -> by congruence. by apply tc_once.
  - eapply tc_transitive; [by apply IH; [|lia]|by apply tc_once].
Qed.

Lemma chain_snoc l x y : chain (l ++ [x]) → depends x y → chain ((l ++ [x]) ++ [y]).
Proof.
  intros Hc Hxy k u w Hu Hw. destruct (decide (S k < length (l ++ [x]))%nat) as [Hlt|Hge].
  - rewrite lookup_app_l in Hu by lia. rewrite lookup_app_l in Hw by done. by eapply Hc.
  - pose proof (lookup_lt_Some _ _ _ Hw) as Hk. rewrite !length_app in Hk. rewrite length_app in Hge.
    cbn in Hk, Hge. assert (k = length l) as -> by lia.
    rewrite lookup_app_l in Hu by (rewrite length_app; cbn; lia).
    rewrite lookup_app_r in Hu by lia. rewrite Nat.sub_diag in Hu. injection Hu as <-.
    rewrite lookup_app_r in Hw by (rewrite length_app; cbn; lia).
    rewrite length_app in Hw. cbn in Hw. replace (S (length l) - (length l + 1))%nat with 0%nat in Hw by lia.
    by injection Hw as <-.
Qed.

Lemma fold_result_err {A B} (f : B → A → result B) b l e :
  fold_result f b l = Err e → ∃ b' x, x ∈ l ∧ f b' x = Err e.
Proof.
  revert b. induction l as [|x l IH]; intros b; cbn; [done|].
  destruct (f b x) as [b'|e'] eqn:E; cbn.
  - intros (b2 & y & Hy & Hf)%IH. exists b2, y. split; [by right|done].
  - intros [= ->]. exists b, x. split; [by left|done].
Qed.

Lemma successors_keys x y : depends x y → x ∈ keys edges.
Proof.
  unfold depends, successors. destruct (assoc x edges) as [l|] eqn:E; cbn.
  - intros _. apply assoc_is_Some. by exists l.
  - by intros []%elem_of_nil.
Qed.

(** With enough fuel the search fails at a cycle only. *)
Lemma visit_err n visiting v i e :
  NoDup visiting → visiting ⊆ keys edges → chain (visiting ++ [i]) →
  (length (keys edges) < length visiting + n)%nat →
  visit edges n visiting v i = Err e → is_value_error e = true ∧ ∃ x, tc depends x x.
Proof.
  revert visiting v i. induction n as [|n IH]; intros visiting v i Hnd Hsub Hc Hn; cbn [visit];
    case_bool_decide as Hv.
  - intros [= <-]. split; [done|]. apply list_elem_of_lookup in Hv as [k Hk]. exists i.
    pose proof (lookup_lt_Some _ _ _ Hk) as Hlt.
    apply (chain_tc _ k (length visiting) i i Hc); [by rewrite lookup_app_l| |done].
    by rewrite lookup_app_r, Nat.sub_diag by lia.
  - apply NoDup_submseteq, submseteq_length in Hsub; [lia|done].
  - intros [= <-]. split; [done|]. apply list_elem_of_lookup in Hv as [k Hk]. exists i.
    pose proof (lookup_lt_Some _ _ _ Hk) as Hlt.
    apply (chain_tc _ k (length visiting) i i Hc); [by rewrite lookup_app_l| |done].
    by rewrite lookup_app_r, Nat.sub_diag by lia.
  - case_bool_decide as Hd; [done|]. intros He.
    destruct (fold_result _ _ _) as [w|e'] eqn:Ef; [done|]. injection He as ->.
    apply fold_result_err in Ef as (w & j & Hj & Hf).
    pose proof (successors_keys i j Hj) as Hi.
    eapply IH; [| | | |exact Hf].
    + apply NoDup_app. split_and!; [done| |apply NoDup_singleton].
      by intros x Hx ->%list_elem_of_singleton.
    + intros x [Hx| ->%list_elem_of_singleton]%elem_of_app; [by apply Hsub|done].
    + by apply chain_snoc.
    + rewrite length_app. cbn. lia.
Qed.
End Search.

(** ** Dictionaries of bundles *)

Lemma assoc_of_bundles {A} (f : InstalledBundle → A) bundles d i y :
  NoDup (map ib_id bundles) →
  assoc i (fold_left (λ d b, dict_set (ib_id b) (f b) d) bundles d) = Some y ↔
  (∃ b, b ∈ bundles ∧ ib_id b = i ∧ f b = y) ∨ i ∉ map ib_id bundles ∧ assoc i d = Some y.
Proof.
  revert d. induction bundles as [|b bundles IH]; intros d Hnd; cbn [fold_left map].
  - split; [intros Hy; right; split; [by intros []%elem_of_nil|done]|].
    intros [(b & []%elem_of_nil & _)|[_ Hy]]; done.
  - apply NoDup_cons in Hnd as [Hb Hnd]. rewrite IH by done. rewrite assoc_dict_set, elem_of_cons.
    assert (∀ b', b' ∈ bundles → ib_id b' ∈ map ib_id bundles) as Hin.
    { intros b' Hb'. by apply list_elem_of_In, in_map, list_elem_of_In. }
    destruct (String.eqb_spec (ib_id b) i) as [<-|Hne]; split.
    + intros [(b' & Hb' & Hid & Hy)|[_ [= <-]]]; left; [exists b'|exists b].
      * split; [by right|done].
      * split; [by left|done].
    + intros [(b' & [->|Hb']%elem_of_cons & Hid & Hy)|[Hn _]].
      * right. split; [done|congruence].
      * destruct Hb. rewrite <-Hid. by apply Hin.
      * destruct Hn. by left.
    + intros [(b' & Hb' & Hid & Hy)|[Hn Hy]].
      * left. exists b'. split; [by right|done].
      * right. split; [|done]. by intros [->|].
    + intros [(b' & [->|Hb']%elem_of_cons & Hid & Hy)|[Hn Hy]]; [congruence| |].
      * left. by exists b'.
      * right. split; [|done]. intros Hi. apply Hn. by right.
Qed.

Lemma keys_of_bundles {A} (f : InstalledBundle → A) bundles :
  let d := fold_left (λ d b, dict_set (ib_id b) (f b) d) bundles [] in
  NoDup (keys d) ∧ ∀ i, i ∈ keys d ↔ i ∈ map ib_id bundles.
Proof.
  cbn. assert (∀ d, NoDup (keys d) →
    NoDup (keys (fold_left (λ d b, dict_set (ib_id b) (f b) d) bundles d))
    ∧ ∀ i, i ∈ keys (fold_left (λ d b, dict_set (ib_id b) (f b) d) bundles d)
        ↔ i ∈ keys d ∨ i ∈ map ib_id bundles) as Hgen.
  { induction bundles as [|b bundles IH]; intros d Hd; cbn [fold_left map].
    - split; [done|]. intros i. rewrite elem_of_nil. tauto.
    - destruct (IH (dict_set (ib_id b) (f b) d)) as [Hn Hi]; [by apply dict_set_nodup|].
      split; [done|]. intros i. rewrite Hi, keys_dict_set, elem_of_cons.
      destruct (decide _); [naive_solver|]. rewrite elem_of_app, list_elem_of_singleton. tauto. }
  destruct (Hgen [] (NoDup_nil_2)) as [Hn Hi]. split; [done|]. intros i. rewrite Hi.
  cbn. rewrite elem_of_nil. tauto.
Qed.

(** ** The check of dependencies *)

Section Dependencies.
Context `{ContractParser.Packaging}.

Definition requires (bundles : list InstalledBundle) (x y : string) : Prop :=
  ∃ b, b ∈ bundles ∧ ib_id b = x ∧ y ∈ dependency_ids b.

Definition in_range (version range : string) : Prop :=
  ∃ v s, ContractParser.parse_version version = Some v
    ∧ ContractParser.parse_specifiers range = Some s ∧ ContractParser.version_in v s = true.

(** A selected bundle of the right name and version. *)
Definition satisfied (bundles : list InstalledBundle) (d : RequiredExtension) : Prop :=
  ∃ b, b ∈ bundles ∧ ib_id b = rq_extension_id d
    ∧ in_range (bundle_version (manifest b)) (rq_version_range d).

Definition dependencies_hold (bundles : list InstalledBundle) : Prop :=
  (∀ b d, b ∈ bundles → d ∈ requires_extensions (manifest b) → satisfied bundles d)
  ∧ ∀ x, ¬ tc (requires bundles) x x.

Lemma check_dependency_ok bundles b d :
  NoDup (map ib_id bundles) →
  check_dependency (selected_of bundles) b d = Ok tt ↔ satisfied bundles d.
Proof.
  intros Hnd. unfold check_dependency, satisfied, selected_of.
  pose proof (assoc_of_bundles (λ b, b) bundles [] (rq_extension_id d)) as Hs.
  destruct (assoc _ _) as [r|].
  - destruct (proj1 (Hs r Hnd) eq_refl) as [(r' & Hr & Hid & ->)|[_ ?]]; [|done].
    unfold in_range. split.
    + destruct (ContractParser.parse_version _) as [v|] eqn:Ev; [|done].
      destruct (ContractParser.parse_specifiers _) as [s|] eqn:Es; [|done].
      rewrite check_ok. intros Hin. exists r. split_and!; [done..|]. by exists v, s.
    + intros (b' & Hb' & Hid' & v & s & Ev & Es & Hin).
      assert (b' = r) as -> by (eapply (key_inj_of_nodup ib_id); [exact Hnd|done|done|congruence]).
      by rewrite Ev, Es, check_ok.
  - split; [done|]. intros (b' & Hb' & Hid & _). exfalso.
    assert (None = Some b') as E; [|done]. apply Hs; [done|]. left. by exists b'.
Qed.

Lemma requires_edges bundles x y :
  NoDup (map ib_id bundles) → depends (edges_of bundles) x y ↔ requires bundles x y.
Proof.
  intros Hnd. unfold depends, successors, requires, edges_of.
  pose proof (assoc_of_bundles dependency_ids bundles [] x) as Hs.
  destruct (assoc _ _) as [l|]; cbn.
  - destruct (proj1 (Hs l Hnd) eq_refl) as [(b & Hb & Hid & <-)|[_ ?]]; [|done]. split.
    + intros Hy. by exists b.
    + intros (b' & Hb' & Hid' & Hy).
      assert (b' = b) as -> by (eapply (key_inj_of_nodup ib_id); [exact Hnd|done|done|congruence]).
      done.
  - split; [by intros []%elem_of_nil|]. intros (b & Hb & Hid & _). exfalso.
    assert (None = Some (dependency_ids b)) as E; [|done]. apply Hs; [done|]. left. by exists b.
Qed.

Lemma check_dependency_raises selected b d :
  raises (λ e, is_value_error e = true) (check_dependency selected b d).
Proof. unfold check_dependency, value_error, check. repeat case_match; done. Qed.

(** The search, from every selected bundle. *)
Lemma search_iff bundles :
  NoDup (map ib_id bundles) →
  match fold_result (visit (edges_of bundles) (S (length (edges_of bundles))) []) []
          (sort_by id str_leb (keys (edges_of bundles))) with
  | Ok _ => ∀ x, ¬ tc (requires bundles) x x
  | Err e => is_value_error e = true ∧ ∃ x, tc (requires bundles) x x
  end.
Proof.
  intros Hnd. set (edges := edges_of bundles).
  assert (∀ x y, tc (requires bundles) x y ↔ tc (depends edges) x y) as Htc.
  { intros x y. split; apply (tc_congruence (λ z, z)); intros u w; unfold edges;
      by rewrite requires_edges. }
  destruct (fold_result _ _ _) as [v|e] eqn:E.
  - apply (fold_visits edges) in E as (Ho & _ & Hin).
    + intros x Hc%Htc. assert (x ∈ keys edges) as Hx.
      { inversion Hc; subst; by eapply successors_keys. }
      eapply (ordered_acyclic edges v x); [done| |done]. apply Hin. by rewrite sort_by_perm.
    + intros w w' i Hw. by apply visit_ok.
    + apply ordered_nil.
  - apply fold_result_err in E as (w & i & Hi & He).
    apply visit_err in He as [He (x & Hx)].
    + split; [done|]. exists x. by apply Htc.
    + constructor.
    + by intros x []%elem_of_nil.
    + intros k x y Hk Hy. apply lookup_lt_Some in Hy. cbn in Hy. lia.
    + unfold keys. rewrite length_fmap. cbn. lia.
Qed.

(** The check and the search together. *)
Lemma dependencies_checked bundles :
  NoDup (map ib_id bundles) →
  (_validate_extension_dependencies bundles = Ok tt ↔ dependencies_hold bundles)
  ∧ raises (λ e, is_value_error e = true) (_validate_extension_dependencies bundles).
Proof.
  intros Hnd. pose proof (search_iff bundles Hnd) as Hs.
  unfold _validate_extension_dependencies, dependencies_hold.
  destruct (fold_result (λ _ b, _) tt bundles) as [[]|e] eqn:Ec; cbn [mbind result_bind].
  - apply fold_checks in Ec. rewrite Forall_forall in Ec.
    assert (∀ b d, b ∈ bundles → d ∈ requires_extensions (manifest b) → satisfied bundles d) as Hall.
    { intros b d Hb Hd. specialize (Ec b Hb). cbn in Ec. apply fold_checks in Ec.
      rewrite Forall_forall in Ec. by apply (check_dependency_ok bundles b d Hnd), Ec. }
    destruct (fold_result _ _ _) as [v|e]; cbn; [done|]. destruct Hs as [He (x & Hx)].
    split; [|done]. split; [done|]. intros [_ Hn]. by destruct (Hn x).
  - apply fold_result_err in Ec as (u & b & Hb & He). apply fold_result_err in He as (u' & d & Hd & He).
    pose proof (check_dependency_raises (selected_of bundles) b d) as Hr. rewrite He in Hr.
    split; [|done]. split; [done|]. intros [Hall _]. specialize (Hall b d Hb Hd).
    apply (check_dependency_ok bundles b d Hnd) in Hall. congruence.
Qed.
(** C9. The check of dependencies accepts a selection exactly when every requirement of every
    selected bundle is met by a selected bundle of a version in its range and no bundle depends
    on itself, however indirectly; it terminates on every selection, and refuses with a
    [ValueError]. *)
Theorem dependencies_iff bundles :
  NoDup (map ib_id bundles) →
  (_validate_extension_dependencies bundles = Ok tt ↔ dependencies_hold bundles)
  ∧ raises (λ e, is_value_error e = true) (_validate_extension_dependencies bundles).
Proof. apply dependencies_checked. Qed.

End Dependencies.

(** ** Selections *)

Module CommandDemo.
Import CompilerTheorems.ExactVersions.

Definition depending (i version : string) (required : list RequiredExtension) : InstalledBundle :=
  mkBundle i "demo" version "/lib/demo/manifest.json"
    (mkManifest i version ">=0" [] (mkActivation [] [] []) "0.3" "kv_connector"
      (mkHost "vllm" "vLLM" ">=0" None) (mkRuntime "python" "worker" "trusted_in_process")
      "vllm" [] [] [] required []).

(** A chain, a range that is not met, and a cycle. *)
Definition chain : list InstalledBundle :=
  [depending "org.a" "1.0" [mkRequired "org.b" "==1.2"];
   depending "org.b" "1.2" [mkRequired "org.c" ">=0"]; depending "org.c" "7" []].

Example chain_refused :
  _validate_extension_dependencies (tail chain ++ [depending "org.a" "1" [mkRequired "org.c" "==8"]])
  = Err (ValueError "extension 'org.a' requires 'org.c' ==8, found 7")
  ∧ _validate_extension_dependencies (take 1 chain)
    = Err (ValueError "extension 'org.a' requires enabled extension 'org.b' ==1.2").
Proof. split; vm_compute; reflexivity. Qed.

Example cycle_refused :
  _validate_extension_dependencies
    (take 2 chain ++ [depending "org.c" "7" [mkRequired "org.b" "==1.2"]])
  = Err (ValueError "extension dependency cycle: org.b -> org.c -> org.b").
Proof. vm_compute. reflexivity. Qed.

Lemma dependencies_iff_witness : dependencies_hold chain.
Proof.
  refine (proj1 (proj1 (dependencies_iff chain _)) _).
  - by apply (bool_decide_unpack _).
  - vm_compute. reflexivity.
Defined.
End CommandDemo.
