(* ===== verification/IntentProofs.v ===== *)
(** * IntentProofs: the saved intent, over any history of commands

    Saving and loading the intent is a round trip and all or nothing; and whatever commands ran,
    succeeded, failed or were cut off, the extensions that are saved as enabled can be launched
    together: their dependencies hold, no ownership conflicts, and none is descriptor-only. *)

From stdpp Require Import relations.
From S2P Require Import Prelude Effects Json JsonText JsonFacts Manifest ManifestProofs ProviderPlans PlanConflicts LifecycleProofs Discovery DiscoveryProofs Config Commands CommandProofs.
From S2P Require ContractParser CompilerTheorems.

Local Open Scope string_scope.
Local Open Scope list_scope.

(** ** The payload *)

Definition members (v : json) : list (string * json) := match v with JObj kvs => kvs | _ => [] end.

(** An extension as it is read back. *)
Definition stored (e : ExtensionConfig) : ExtensionConfig :=
  mkExtensionConfig (enabled e) (members (norm (JObj (configuration e)))).

Definition config_wf (c : UserConfig) : Prop :=
  NoDup (keys c) ∧ Forall (λ kv, keys_unique (JObj (configuration kv.2)) = true) c.

Lemma norm_extension e :
  norm (extension_json e)
  = JObj [("configuration", norm (JObj (configuration e))); ("enabled", JBool (enabled e))].
Proof. reflexivity. Qed.

Lemma extension_config_stored i e : _extension_config i (norm (extension_json e)) = Ok (stored e).
Proof. unfold stored. rewrite norm_extension, !norm_obj. reflexivity. Qed.

Definition payload_entries (c : UserConfig) : list (string * json) :=
  map (λ kv : string * ExtensionConfig, (kv.1, extension_json kv.2)) (sort_by fst str_leb c).

Lemma norm_payload c :
  norm (config_payload c)
  = JObj [("extensions", norm (JObj (payload_entries c))); ("schema_version", JInt 2)].
Proof. reflexivity. Qed.

Lemma payload_keys c : keys (payload_entries c) ≡ₚ keys c.
Proof.
  unfold payload_entries. rewrite keys_map. unfold keys. by rewrite sort_by_perm.
Qed.

Lemma payload_unique c : config_wf c → keys_unique (config_payload c) = true.
Proof.
  intros [Hnd Hall]. apply keys_unique_obj. split; [by apply (bool_decide_unpack _)|].
  repeat constructor. cbn [snd]. apply keys_unique_obj. split.
  - change (NoDup (keys (payload_entries c))). by rewrite payload_keys.
  - apply Forall_forall. intros kv Hkv. apply list_elem_of_In, in_map_iff in Hkv as (x & <- & Hx).
    apply list_elem_of_In in Hx. rewrite sort_by_perm in Hx. rewrite Forall_forall in Hall.
    specialize (Hall x Hx). apply keys_unique_obj. split; [by apply (bool_decide_unpack _)|].
    by repeat constructor.
Qed.

(** Reading what was printed. *)
Lemma parse_payload c :
  config_wf c → ∃ c', parse_config (norm (config_payload c)) = Ok c'
    ∧ NoDup (keys c') ∧ ∀ i, assoc i c' = stored <$> assoc i c.
Proof.
  intros [Hnd _]. rewrite norm_payload, norm_obj. cbn [parse_config].
  set (raw := map _ (sort_by fst str_leb (payload_entries c))).
  assert (∀ k v, (k, v) ∈ raw ↔ ∃ e, (k, e) ∈ c ∧ v = norm (extension_json e)) as Hraw.
  { intros k v. unfold raw. rewrite list_elem_of_In, in_map_iff. split.
    - intros ([k' w] & [= <- <-] & Hx). apply list_elem_of_In in Hx. rewrite sort_by_perm in Hx.
      apply list_elem_of_In, in_map_iff in Hx as ([k'' e] & [= -> <-] & Hx).
      apply list_elem_of_In in Hx. rewrite sort_by_perm in Hx. by exists e.
    - intros (e & He & ->). exists (k, extension_json e). split; [done|].
      apply list_elem_of_In. rewrite sort_by_perm. apply list_elem_of_In, in_map_iff.
      exists (k, e). split; [done|]. apply list_elem_of_In. by rewrite sort_by_perm. }
  assert (keys raw ≡ₚ keys c) as Hkeys.
  { unfold raw. rewrite keys_map. unfold keys. rewrite sort_by_perm. apply payload_keys. }
  destruct (map_result_total (λ kv : string * json,
    e ← _extension_config kv.1 kv.2; Ok (kv.1, e)) raw) as [c' Hc'].
  { intros [k v] (e & _ & ->)%Hraw. exists (k, stored e). cbn [fst snd]. by rewrite extension_config_stored. }
  pose proof (map_result_entries _ _ _ Hc') as [Hk' Hin]. exists c'. split_and!; [exact Hc'| |].
  - rewrite Hk', Hkeys. done.
  - intros i. destruct (assoc i c) as [e|] eqn:Ei; cbn.
    + apply assoc_nodup; [by rewrite Hk', Hkeys|]. apply Hin. exists (norm (extension_json e)).
      split; [apply Hraw; exists e; split; [by apply assoc_elem_of|done]|].
      apply extension_config_stored.
    + apply assoc_none. rewrite Hk', Hkeys. by apply assoc_none.
Qed.

(** ** The file *)

Section File.
Context (dump : json → string) (decode : string → option json).

(** What [json.loads] gives back of what [json.dump] wrote. *)
Context (decode_dump : ∀ v, keys_unique v = true → decode (dump v) = Some (norm v)).

Definition loaded (text : option string) : result UserConfig :=
  match text with
  | None => Ok []
  | Some text =>
      match decode text with
      | Some payload => parse_config payload
      | None => Err (ValueError "JSONDecodeError")
      end
  end.

Lemma load_config_eq d : load_config decode d = (loaded (target d), d).
Proof. done. Qed.

Definition written (c : UserConfig) : option string := Some (dump (config_payload c)).

(** Saving replaces the file or leaves it, whatever fails. *)
Lemma save_cases c d :
  match save_config dump c d with
  | (Ok _, d') => target d' = written c ∧ temporary d' = None
  | (Err _, d') => target d' = target d
  end.
Proof.
  destruct d as [t tmp s]. unfold save_config, syscall, finally, when.
  destruct s as [|[e1|] s]; [done|done|]. cbn.
  destruct s as [|[e2|] s]; [done|done|]. cbn.
  destruct s as [|[e3|] s]; [done| |]; cbn.
  { destruct e3; try done; destruct s as [|[e|] s]; done. }
  destruct s as [|[e4|] s]; [done| |]; cbn.
  { destruct e4; try done; destruct s as [|[e|] s]; done. }
  destruct s as [|[e5|] s]; [done| |]; cbn; [|done].
  destruct e5; try done; destruct s as [|[e|] s]; done.
Qed.

(** Saved intent is read back: every extension with its state and its configuration, whose
    members are in sorted order; a save that fails, or is cut off, leaves the file as it was. *)
Theorem config_roundtrip c d :
  config_wf c →
  match save_config dump c d with
  | (Ok _, d') =>
      temporary d' = None
      ∧ ∃ c', (load_config decode d').1 = Ok c' ∧ NoDup (keys c')
          ∧ ∀ i, extension c' i = stored (extension c i)
  | (Err _, d') => (load_config decode d').1 = (load_config decode d).1
  end.
Proof.
  intros Hwf. pose proof (save_cases c d) as Hs.
  destruct (save_config dump c d) as [[u|e] d']; rewrite !load_config_eq; cbn [fst].
  - destruct Hs as [Ht Htmp]. split; [done|]. rewrite Ht. unfold loaded, written.
    rewrite decode_dump by by apply payload_unique.
    destruct (parse_payload c Hwf) as (c' & Hc' & Hnd & Hi). exists c'. split_and!; [done..|].
    intros i. unfold extension. rewrite Hi. by destruct (assoc i c).
  - by rewrite Hs.
Qed.
End File.

(** ** Selections *)

(** [discover] looks at each name by itself, and a bundle carries its name. *)
Class Discovers (discover : list string → result (list InstalledBundle))
    (named : string → result InstalledBundle) : Prop := {
  discovers ids bs : discover ids = Ok bs ↔ Forall2 (λ i b, named i = Ok b) ids bs;
  named_id i b : named i = Ok b → ib_id b = i;
}.

(** Discovery keeps the promise. *)
#[export] Instance discovery_discovers `{ContractParser.Packaging} decode file_url is_file
    is_symlink read_bytes read_text registrations every :
  Discovers (λ ids, discover_bundles decode file_url is_file is_symlink read_bytes read_text
    registrations every (Some ids))
    (bundle_named decode file_url is_file is_symlink read_bytes read_text registrations every).
Proof.
  constructor; [intros; apply discover_each|]. intros i b Hb.
  by apply bundle_admitted in Hb as [? _].
Qed.

Section Selections.
Context `{ContractParser.Packaging}.

(** What a launch needs of the selected bundles' manifests. *)
Record selection_ok (bs : list InstalledBundle) : Prop := {
  so_dependencies : dependencies_hold bs;
  so_processes : (length (List.filter owns_process_tree bs) ≤ 1)%nat;
  so_resources : pairwise share (all_claims (map ownership_plan bs));
  so_active : Forall (λ b, activation_blocker (manifest b) = Ok None) bs }.

Lemma process_ownership_iff bs :
  _validate_process_ownership bs = Ok tt ↔ (length (List.filter owns_process_tree bs) ≤ 1)%nat.
Proof.
  unfold _validate_process_ownership. by rewrite check_ok, length_map, Nat.leb_le.
Qed.

Lemma legacy_loop_empty before bs :
  Forall (λ p, generated_config p = []) before →
  legacy_loop before (map ownership_plan bs) = Ok tt.
Proof.
  revert before. induction bs as [|b bs IH]; intros before Hb; [done|]. cbn [map legacy_loop].
  assert (fold_result (λ _ other, legacy_pair other (ownership_plan b)) tt before = Ok tt) as ->.
  { apply fold_checks, Forall_forall. intros p _. unfold legacy_pair. by destruct (_ || _). }
  cbn [mbind result_bind]. apply IH. apply Forall_app. by repeat constructor.
Qed.

Lemma no_config_claims bs : all_config_claims (map ownership_plan bs) = [].
Proof. induction bs as [|b bs IH]; [done|]. unfold all_config_claims in *. cbn. exact IH. Qed.
Lemma no_requirements bs : all_requirements (map ownership_plan bs) = [].
Proof. induction bs as [|b bs IH]; [done|]. unfold all_requirements in *. cbn. exact IH. Qed.

Lemma resource_ownership_iff bs :
  _validate_resource_ownership bs = Ok tt ↔ pairwise share (all_claims (map ownership_plan bs)).
Proof.
  unfold _validate_resource_ownership, reject_conflicting_plans.
  rewrite <-claims_ok, result_bind_ok, legacy_loop_empty by done. cbn [mbind result_bind].
  rewrite no_config_claims. cbn [fold_result mbind result_bind].
  unfold reject_configuration_requirements. rewrite no_requirements. cbn.
  split; [intros (m & Hm & _); by exists m|]. intros [m Hm]. by exists m.
Qed.

(** What the commands check is what a launch needs. *)
Lemma selection_checks bs :
  NoDup (map ib_id bs) →
  selection_ok bs ↔
  _validate_extension_dependencies bs = Ok tt ∧ _validate_process_ownership bs = Ok tt
  ∧ _validate_resource_ownership bs = Ok tt
  ∧ Forall (λ b, activation_blocker (manifest b) = Ok None) bs.
Proof.
  intros Hnd. destruct (dependencies_checked bs Hnd) as [-> _].
  rewrite process_ownership_iff, resource_ownership_iff. split.
  - by intros [].
  - by intros (? & ? & ? & ?); constructor.
Qed.

Lemma dependencies_hold_perm bs bs' :
  bs ≡ₚ bs' → dependencies_hold bs → dependencies_hold bs'.
Proof.
  intros Hp [Hs Ht]. split.
  - intros b d Hb Hd. rewrite <-Hp in Hb. destruct (Hs b d Hb Hd) as (r & Hr & Hid & Hv).
    exists r. split_and!; [by rewrite <-Hp|done|done].
  - intros x Hc. apply (Ht x). revert Hc. apply (tc_congruence (λ z, z)).
    intros u w (b & Hb & Hid & Hw). exists b. split_and!; [by rewrite Hp|done|done].
Qed.

Lemma filter_permutation {A} (f : A → bool) l k : l ≡ₚ k → List.filter f l ≡ₚ List.filter f k.
Proof.
  induction 1 as [|x l k _ IH|x y l|l k m _ IH1 _ IH2]; cbn; [done| | |by etrans].
  - destruct (f x); by rewrite IH.
  - destruct (f x), (f y); try done. apply perm_swap.
Qed.

Lemma all_claims_perm bs bs' :
  bs ≡ₚ bs' → all_claims (map ownership_plan bs) ≡ₚ all_claims (map ownership_plan bs').
Proof.
  intros Hp. unfold all_claims. induction Hp as [|b bs bs' Hp IH|b1 b2 bs|bs1 bs2 bs3 _ IH1 _ IH2];
    cbn in *; [done|by rewrite IH| |by rewrite IH1].
  rewrite !app_assoc. apply Permutation_app_tail, Permutation_app_comm.
Qed.

Lemma selection_ok_perm bs bs' : bs ≡ₚ bs' → selection_ok bs → selection_ok bs'.
Proof.
  intros Hp [Hd Hl Hr Ha]. constructor.
  - by eapply dependencies_hold_perm.
  - by rewrite <-(filter_permutation owns_process_tree _ _ Hp).
  - eapply pairwise_perm; [apply share_sym|by apply all_claims_perm|done].
  - by rewrite <-Hp.
Qed.

Lemma pairwise_sublist {A} (R : A → A → Prop) l k : l `sublist_of` k → pairwise R k → pairwise R l.
Proof.
  induction 1 as [|x l k Hs IH|x l k Hs IH]; intros Hk; [constructor| |]; inversion Hk; subst.
  - constructor; [|auto]. eapply Forall_forall. intros y Hy.
    match goal with Hf : Forall (R x) _ |- _ => rewrite Forall_forall in Hf; apply Hf end.
    by eapply sublist_subseteq.
  - auto.
Qed.

Lemma all_claims_filter f bs :
  all_claims (map ownership_plan (List.filter f bs)) `sublist_of` all_claims (map ownership_plan bs).
Proof.
  unfold all_claims. induction bs as [|b bs IH]; cbn; [done|]. destruct (f b); cbn.
  - by apply sublist_app.
  - by apply sublist_inserts_l.
Qed.

(** Taking out a bundle on which none of the others depends. *)
Lemma selection_ok_remove i bs :
  selection_ok bs → _validate_dependency_removal i bs = Ok tt →
  selection_ok (List.filter (λ b, negb (ib_id b =? i)) bs).
Proof.
  intros [[Hs Ht] Hl Hr Ha] Hrm. unfold _validate_dependency_removal in Hrm.
  apply check_ok, bool_decide_eq_true, map_eq_nil in Hrm.
  assert (∀ b, b ∈ List.filter (λ b, negb (ib_id b =? i)) bs ↔ b ∈ bs ∧ ib_id b ≠ i) as Hin.
  { intros b. rewrite !list_elem_of_In, filter_In, negb_true_iff, String.eqb_neq. done. }
  constructor.
  - split.
    + intros b d [Hb Hne]%Hin Hd. destruct (Hs b d Hb Hd) as (r & Hr' & Hid & Hv).
      exists r. split_and!; [|done|done]. apply Hin. split; [done|]. intros Ei.
      assert (In b (List.filter (λ b, negb (ib_id b =? i)
        && bool_decide (i ∈ dependency_ids b)) bs)) as Hbad; [|by rewrite Hrm in Hbad].
      apply filter_In. split; [by apply list_elem_of_In|]. apply andb_true_iff.
      split; [by apply negb_true_iff, String.eqb_neq|]. apply bool_decide_eq_true.
      unfold dependency_ids. rewrite <-Ei, Hid. by apply list_elem_of_In, in_map, list_elem_of_In.
    + intros x Hc. apply (Ht x). revert Hc. apply (tc_congruence (λ z, z)).
      intros u w (b & [Hb _]%Hin & Hid & Hw). by exists b.
  - etrans; [|exact Hl]. clear. induction bs as [|b bs IH]; [done|]. cbn.
    destruct (negb _); cbn; destruct (owns_process_tree b); cbn; lia.
  - eapply pairwise_sublist; [apply all_claims_filter|done].
  - rewrite Forall_forall in Ha. apply Forall_forall. intros b [Hb _]%Hin. by apply Ha.
Qed.
End Selections.

(** ** The invariant of the saved intent *)

Section Intent.
Context `{ContractParser.Packaging} (discover : list string → result (list InstalledBundle))
  (named : string → result InstalledBundle) `{!Discovers discover named}
  (dump : json → string) (decode : string → option json)
  (decode_dump : ∀ v, keys_unique v = true → decode (dump v) = Some (norm v))
  (decode_unique : ∀ text v, decode text = Some v → keys_unique v = true).

Lemma enabled_ids_spec (c : UserConfig) i :
  NoDup (keys c) → i ∈ enabled_ids c ↔ ∃ e, assoc i c = Some e ∧ enabled e = true.
Proof.
  intros Hnd. unfold enabled_ids. rewrite list_elem_of_In, in_map_iff. split.
  - intros ([k e] & <- & [Hin He]%filter_In). exists e. split; [|done].
    apply assoc_nodup; [done|]. by apply list_elem_of_In.
  - intros (e & Ha & He). exists (i, e). split; [done|]. apply filter_In. split; [|done].
    by apply list_elem_of_In, assoc_elem_of.
Qed.

Lemma enabled_ids_nodup (c : UserConfig) : NoDup (keys c) → NoDup (enabled_ids c).
Proof.
  unfold enabled_ids, keys. induction c as [|[k e] c IH]; cbn; [constructor|].
  intros [Hk Hc]%NoDup_cons. destruct (enabled e); cbn; [|by apply IH].
  constructor; [|by apply IH]. intros Hin. apply Hk.
  apply list_elem_of_In, in_map_iff in Hin as (x & Hx & [Hf _]%filter_In). cbn in Hx. subst k.
  by apply list_elem_of_fmap_2, list_elem_of_In.
Qed.

(** The bundles of some names. *)
Definition bundles_of (ids : list string) (bs : list InstalledBundle) : Prop :=
  Forall2 (λ i b, named i = Ok b) ids bs.

Lemma bundles_of_ids ids bs : bundles_of ids bs → map ib_id bs = ids.
Proof.
  induction 1 as [|i b ids bs Hb _ IH]; [done|]. cbn. by rewrite (named_id i b Hb), IH.
Qed.

Lemma bundles_of_fun ids bs bs' : bundles_of ids bs → bundles_of ids bs' → bs = bs'.
Proof.
  intros Hb. revert bs'. induction Hb as [|i b ids bs Hi _ IH]; intros bs' Hb'; inversion Hb'; subst.
  - done.
  - f_equal; [congruence|auto].
Qed.

Lemma bundles_of_filter i ids bs :
  bundles_of ids bs →
  bundles_of (List.filter (λ j, negb (j =? i)) ids) (List.filter (λ b, negb (ib_id b =? i)) bs).
Proof.
  induction 1 as [|j b ids bs Hb _ IH]; [constructor|]. cbn.
  rewrite (named_id j b Hb). destruct (negb (j =? i)); [by constructor|done].
Qed.

Lemma enabled_bundles_iff c bs : enabled_bundles discover c = Ok bs ↔ bundles_of (enabled_ids c) bs.
Proof.
  unfold enabled_bundles, bundles_of. destruct (enabled_ids c) as [|i ids].
  - split; [by intros [= <-]|by inversion 1].
  - apply discovers.
Qed.

(** The enabled extensions are there and can be launched together. *)
Definition launchable (c : UserConfig) : Prop :=
  config_wf c ∧ ∃ bs, bundles_of (enabled_ids c) bs ∧ selection_ok bs.

Lemma launchable_same c c' :
  config_wf c' → (∀ i, i ∈ enabled_ids c' ↔ i ∈ enabled_ids c) → launchable c → launchable c'.
Proof.
  intros Hwf Hids [Hwf0 (bs & Hbs & Hok)]. split; [done|].
  assert (enabled_ids c ≡ₚ enabled_ids c') as Hp.
  { apply NoDup_Permutation; [by apply enabled_ids_nodup, Hwf0|by apply enabled_ids_nodup, Hwf|].
    intros i. by rewrite Hids. }
  destruct (Permutation_Forall2 Hp Hbs) as (bs' & Hpb & Hbs'). exists bs'. split; [done|].
  by eapply selection_ok_perm.
Qed.

Lemma config_wf_set i e c :
  keys_unique (JObj (configuration e)) = true → config_wf c → config_wf (with_extension i e c).
Proof.
  intros He [Hnd Hall]. split; [by apply dict_set_nodup|]. unfold with_extension.
  apply (dict_set_forall (λ e, keys_unique (JObj (configuration e)) = true)); done.
Qed.

Lemma configuration_unique c i :
  config_wf c → keys_unique (JObj (configuration (extension c i))) = true.
Proof.
  intros [_ Hall]. unfold extension. destruct (assoc i c) as [e|] eqn:E; [|done]. cbn.
  apply assoc_elem_of in E. rewrite Forall_forall in Hall. by apply (Hall _ E).
Qed.

Lemma enabled_ids_set i e c j :
  config_wf c →
  j ∈ enabled_ids (with_extension i e c) ↔
  if (i =? j)%string then enabled e = true else j ∈ enabled_ids c.
Proof.
  intros [Hnd _]. rewrite enabled_ids_spec by by apply dict_set_nodup.
  unfold with_extension. rewrite assoc_dict_set. destruct (String.eqb_spec i j) as [->|Hne].
  - split; [by intros (x & [= <-] & ?)|]. intros He. by exists e.
  - by rewrite enabled_ids_spec.
Qed.

Lemma enable_launchable c c' i :
  launchable c → enable_config discover c i = Ok c' → launchable c'.
Proof.
  intros [Hwf (bs & Hbs & Hok)] Hc. unfold enable_config in Hc.
  apply result_bind_ok in Hc as (b & Hb & Hc). apply result_bind_ok in Hc as (blocker & Hbl & Hc).
  apply check_bind in Hc as [->%bool_decide_eq_true Hc].
  apply result_bind_ok in Hc as (bs' & Hbs' & Hc). apply discovers in Hbs'.
  apply result_bind_ok in Hc as ([] & Hd & Hc). apply result_bind_ok in Hc as ([] & Hpr & Hc).
  apply result_bind_ok in Hc as ([] & Hr & [= <-]).
  assert (named i = Ok b) as Hnb.
  { unfold first_bundle in Hb. apply result_bind_ok in Hb as (l & Hl%discovers & Hb).
    apply Forall2_cons_inv_l in Hl as (b' & ? & Hb' & _ & ->). by injection Hb as ->. }
  assert (∀ j, j ∈ prospective_ids c i ↔ j = i ∨ j ∈ enabled_ids c) as Hpros.
  { intros j. unfold prospective_ids. by rewrite sort_by_perm, elem_of_remove_dups, elem_of_cons. }
  assert (NoDup (prospective_ids c i)) as Hndp.
  { unfold prospective_ids. rewrite sort_by_perm. apply NoDup_remove_dups. }
  assert (selection_ok bs') as Hok'.
  { apply selection_checks; [by rewrite (bundles_of_ids _ _ Hbs')|]. split_and!; [done..|].
    apply Forall_forall. intros x Hx. apply list_elem_of_lookup in Hx as [n Hx].
    destruct (Forall2_lookup_r _ _ _ _ _ Hbs' Hx) as (j & Hj & Hjx).
    apply list_elem_of_lookup_2, Hpros in Hj as [->|Hj]; [congruence|].
    apply list_elem_of_lookup in Hj as [m Hj].
    destruct (Forall2_lookup_l _ _ _ _ _ Hbs Hj) as (y & Hy & Hjy).
    assert (y = x) as -> by congruence. apply list_elem_of_lookup_2 in Hy.
    destruct Hok as [_ _ _ Ha]. rewrite Forall_forall in Ha. by apply Ha. }
  assert (config_wf (with_extension i (mkExtensionConfig true (configuration (extension c i))) c))
    as Hwf' by (apply config_wf_set; [by apply configuration_unique|done]).
  split; [done|].
  assert (prospective_ids c i ≡ₚ enabled_ids
    (with_extension i (mkExtensionConfig true (configuration (extension c i))) c)) as Hp.
  { apply NoDup_Permutation; [done|by apply enabled_ids_nodup, Hwf'|]. intros j.
    rewrite Hpros, enabled_ids_set by done. destruct (String.eqb_spec i j); naive_solver. }
  destruct (Permutation_Forall2 Hp Hbs') as (bs2 & Hpb & Hbs2). exists bs2. split; [done|].
  by eapply selection_ok_perm.
Qed.

(** Without an extension on which no other enabled one depends. *)
Lemma removal_launchable c c' i bs :
  launchable c → config_wf c' → enabled_bundles discover c = Ok bs →
  _validate_dependency_removal i bs = Ok tt →
  (∀ j, j ∈ enabled_ids c' ↔ j ∈ enabled_ids c ∧ j ≠ i) → launchable c'.
Proof.
  intros [Hwf (bs0 & Hbs0 & Hok)] Hwf' Hbs%enabled_bundles_iff Hrm Hids. split; [done|].
  assert (bs0 = bs) as -> by by eapply bundles_of_fun.
  assert (List.filter (λ j, negb (j =? i)) (enabled_ids c) ≡ₚ enabled_ids c') as Hp.
  { apply NoDup_Permutation; [|by apply enabled_ids_nodup, Hwf'|].
    - apply NoDup_ListNoDup, List.NoDup_filter, NoDup_ListNoDup, enabled_ids_nodup, Hwf.
    - intros j. rewrite Hids, !list_elem_of_In, filter_In, negb_true_iff, String.eqb_neq. done. }
  destruct (Permutation_Forall2 Hp (bundles_of_filter i _ _ Hbs)) as (bs2 & Hpb & Hbs2).
  exists bs2. split; [done|]. eapply selection_ok_perm; [exact Hpb|]. by apply selection_ok_remove.
Qed.

Lemma disable_launchable c c' i :
  launchable c → disable_config discover c i = Ok c' → launchable c'.
Proof.
  intros Hl Hc. pose proof Hl as [Hwf _]. unfold disable_config in Hc.
  apply result_bind_ok in Hc as (bs & Hbs & Hc). apply result_bind_ok in Hc as ([] & Hrm & [= <-]).
  eapply removal_launchable; [done| |done|done|].
  - apply config_wf_set; [by apply configuration_unique|done].
  - intros j. rewrite enabled_ids_set by done. destruct (String.eqb_spec i j); naive_solver.
Qed.

Lemma config_wf_without i c : config_wf c → config_wf (without_extension i c).
Proof.
  unfold without_extension, config_wf, keys.
  induction c as [|[k e] c IH]; intros [Hnd Hall]; [done|]. cbn in Hnd |- *.
  apply NoDup_cons in Hnd as [Hk Hnd]. apply Forall_cons in Hall as [He Hall].
  destruct (IH (conj Hnd Hall)) as [Hnd' Hall']. destruct (negb (k =? i)); [|done]. cbn.
  split; [|by constructor]. constructor; [|done]. intros Hin. apply Hk.
  apply list_elem_of_fmap in Hin as (x & -> & Hx). apply list_elem_of_fmap_2.
  by apply list_elem_of_In, filter_In, proj1, list_elem_of_In in Hx.
Qed.

Lemma forget_launchable c c' i :
  launchable c → forget_config discover c i = Ok c' → launchable c'.
Proof.
  intros Hl Hc. pose proof Hl as [Hwf _]. unfold forget_config in Hc.
  destruct (assoc i c) as [e|] eqn:Ei; [|done]. apply check_bind in Hc as [He Hc].
  apply result_bind_ok in Hc as (bs & Hbs & Hc). apply result_bind_ok in Hc as ([] & Hrm & [= <-]).
  pose proof (config_wf_without i c Hwf) as Hwf'.
  apply (launchable_same c); [done| |done]. intros j.
  pose proof Hwf as [Hnd _]. unfold without_extension. split.
  - unfold enabled_ids. rewrite !list_elem_of_In, !in_map_iff.
    intros (x & <- & [[Hx _]%filter_In Hx']%filter_In). exists x. split; [done|].
    by apply filter_In.
  - intros Hj. pose proof Hj as (e' & Hj' & He')%enabled_ids_spec; [|done]. reflect.
    assert (j ≠ i) by (intros ->; rewrite Ei in Hj'; injection Hj' as ->; congruence).
    unfold enabled_ids in *. rewrite !list_elem_of_In, !in_map_iff in *.
    destruct Hj as (x & <- & [Hx Hx']%filter_In). exists x. split; [done|].
    apply filter_In. split; [|done]. apply filter_In. split; [done|].
    by apply negb_true_iff, String.eqb_neq.
Qed.

Lemma configure_launchable c c' i file :
  launchable c → configure_config decode discover c i file = Ok c' → launchable c'.
Proof.
  intros Hl Hc. pose proof Hl as [Hwf _]. unfold configure_config in Hc.
  apply result_bind_ok in Hc as (bs & _ & Hc). apply result_bind_ok in Hc as (text & _ & Hc).
  apply result_bind_ok in Hc as (v & Hv & Hc). destruct v as [| | | | |conf]; try done.
  injection Hc as <-. unfold json_value in Hv. destruct (decode text) as [w|] eqn:Ed; [|done].
  injection Hv as ->. apply decode_unique in Ed.
  apply (launchable_same c); [by apply config_wf_set| |done]. intros j.
  rewrite enabled_ids_set by done. cbn. destruct (String.eqb_spec i j) as [->|]; [|done].
  rewrite enabled_ids_spec by apply Hwf. unfold extension.
  destruct (assoc j c) as [e|]; cbn; naive_solver.
Qed.

Lemma changed_launchable c c' a :
  launchable c → changed_config decode discover c a = Ok c' → launchable c'.
Proof.
  destruct a as [i|i|i|i file]; cbn.
  - apply enable_launchable.
  - apply disable_launchable.
  - apply forget_launchable.
  - apply configure_launchable.
Qed.

Lemma stored_unique e :
  keys_unique (JObj (configuration e)) = true →
  keys_unique (JObj (configuration (stored e))) = true.
Proof.
  intros Hu. pose proof (norm_keys_unique _ Hu) as Hn. unfold stored. cbn [configuration].
  rewrite norm_obj in *. exact Hn.
Qed.

(** What is read back of a launchable intent is launchable. *)
Lemma reloaded_launchable c c' :
  launchable c → NoDup (keys c') → (∀ i, assoc i c' = stored <$> assoc i c) → launchable c'.
Proof.
  intros Hl Hnd Hi. pose proof Hl as [[Hnd0 Hall] _]. apply (launchable_same c); [| |done].
  - split; [done|]. apply Forall_forall. intros [i e] Hin. cbn [snd].
    apply assoc_nodup in Hin; [|done]. rewrite Hi in Hin.
    destruct (assoc i c) as [e0|] eqn:E; [|done]. injection Hin as <-. apply stored_unique.
    apply assoc_elem_of in E. rewrite Forall_forall in Hall. by apply (Hall _ E).
  - intros i. rewrite !enabled_ids_spec by done. rewrite Hi. destruct (assoc i c); naive_solver.
Qed.

(** Any commands, each with any failures, from no file at all. *)
Inductive history : Disk → Prop :=
  | history_new tmp s : history (mkDisk None tmp s)
  | history_command d s a :
      history d →
      history (_extension_command decode discover dump a
                 (mkDisk (target d) (temporary d) s)).2.

Definition intent_ok (d : Disk) : Prop := ∃ c, loaded decode (target d) = Ok c ∧ launchable c.

Lemma command_ok a d : intent_ok d → intent_ok (_extension_command decode discover dump a d).2.
Proof.
  intros (c & Hc & Hl). unfold _extension_command, mbind, M_bind. rewrite load_config_eq, Hc.
  unfold lift_result. destruct (changed_config decode discover c a) as [c'|e] eqn:Ec;
    cbn [snd]; [|by exists c].
  apply (changed_launchable c) in Ec; [|done]. pose proof (save_cases dump c' d) as Hs.
  destruct (save_config dump c' d) as [[u|e] d']; cbn [snd].
  - destruct Hs as [Ht _]. pose proof Ec as [Hwf _].
    destruct (parse_payload c' Hwf) as (c2 & Hc2 & Hnd & Hi). exists c2. split.
    + rewrite Ht. unfold loaded, written. by rewrite decode_dump by by apply payload_unique.
    + by eapply reloaded_launchable.
  - exists c. by rewrite Hs.
Qed.

Lemma history_ok d : history d → intent_ok d.
Proof.
  induction 1 as [tmp s|d s a _ IH].
  - exists []. split; [done|]. split; [split; constructor|]. exists []. split; [constructor|].
    constructor; [|cbn; lia|constructor|constructor]. split.
    + by intros b x []%elem_of_nil.
    + intros x Hc. inversion Hc as [u w (b & []%elem_of_nil & _)|u w z (b & []%elem_of_nil & _) _].
  - by apply command_ok.
Qed.

(** C5. Whatever commands were given to the manager, in whatever order, refused, failed while the
    file was written, or cut off: the saved intent can be read, its enabled extensions are
    installed, their dependencies hold without a cycle, no ownership conflicts, and none is
    descriptor-only; so a launch passes these checks. *)
Theorem intent_always_launchable d :
  history d →
  ∃ c bs, (load_config decode d).1 = Ok c ∧ enabled_bundles discover c = Ok bs
    ∧ _validate_extension_dependencies bs = Ok tt ∧ _validate_process_ownership bs = Ok tt
    ∧ _validate_resource_ownership bs = Ok tt
    ∧ Forall (λ b, activation_blocker (manifest b) = Ok None) bs.
Proof.
  intros (c & Hc & [Hnd _] & bs & Hbs & Hok)%history_ok. exists c, bs.
  rewrite load_config_eq. split; [done|]. split; [by apply enabled_bundles_iff|].
  apply selection_checks; [|done]. rewrite (bundles_of_ids _ _ Hbs). by apply enabled_ids_nodup.
Qed.
End Intent.

(** ** A session *)

Module IntentDemo.
Import CompilerTheorems.ExactVersions DiscoveryDemo.

Definition dump (v : json) : string := canonical_bytes v +:+ newline.

Definition discover (ids : list string) : result (list InstalledBundle) :=
  DiscoveryDemo.discover (Some ids).
Definition named : string → result InstalledBundle :=
  bundle_named loads file_url is_file (λ _, false) read read registrations every.

#[export] Instance demo_discovers : Discovers discover named :=
  discovery_discovers loads file_url is_file (λ _, false) read read registrations every.

Definition command (a : action) (s : list (option exn)) (d : Disk) : Disk :=
  (_extension_command loads discover dump a (mkDisk (target d) (temporary d) s)).2.

(** Enabled, configured from a file, and a refusal: the name is not installed. *)
Definition session : Disk :=
  command (Enable "org.missing") []
    (command (Configure "org.a" (Ok "{}")) []
       (command (Enable "org.a") [] (mkDisk None None []))).

Definition saved : UserConfig := [("org.a", mkExtensionConfig true [])].

Example session_saved : target session = Some (dump (config_payload saved)).
Proof. vm_compute. reflexivity. Qed.

(** A full disk, and then a kill: the file is as it was, and the second leaves a temporary. *)
Example interrupted :
  let d := command (Disable "org.a") [None; None; Some (OSError "no space")] session in
  let d' := command (Disable "org.a") [None; None; None; Some Killed] d in
  (target d, temporary d) = (target session, None) ∧ target d' = target session
  ∧ temporary d' ≠ None.
Proof. vm_compute. done. Qed.

(** [true] passes for version 1 of the file. *)
Example true_is_version_one :
  parse_config (JObj [("schema_version", JBool true); ("enabled", JArr [JStr "org.a"])]) = Ok saved.
Proof. vm_compute. reflexivity. Qed.

Lemma config_roundtrip_witness :
  match save_config dump saved (mkDisk None None []) with
  | (Ok _, d') =>
      temporary d' = None
      ∧ ∃ c', (load_config loads d').1 = Ok c' ∧ NoDup (keys c')
          ∧ ∀ i, extension c' i = stored (extension saved i)
  | (Err _, d') => (load_config loads d').1 = (load_config loads (mkDisk None None [])).1
  end.
Proof.
  refine (config_roundtrip dump loads loads_canonical saved (mkDisk None None []) _).
  split; [by apply (bool_decide_unpack _)|by repeat constructor].
Defined.

Lemma intent_always_launchable_witness :
  ∃ c bs, (load_config loads session).1 = Ok c ∧ enabled_bundles discover c = Ok bs
    ∧ _validate_extension_dependencies bs = Ok tt ∧ _validate_process_ownership bs = Ok tt
    ∧ _validate_resource_ownership bs = Ok tt
    ∧ Forall (λ b, activation_blocker (manifest b) = Ok None) bs.
Proof.
  refine (intent_always_launchable discover named dump loads loads_canonical loads_unique session _).
  do 3 apply history_command. apply history_new.
Defined.
End IntentDemo.
