(* ===== verification/LaunchProofs.v ===== *)
(** * LaunchProofs: what a composed launch promises

    A launch is composed only for a selection that passed every gate; and what the accepted plans
    set is in the command line and the environment that are launched. *)

From stdpp Require Import relations.
From S2P Require Import Prelude Effects Json JsonText JsonFacts Manifest ManifestProofs ProviderPlans PlanConflicts LifecycleProofs VllmProvider Discovery DiscoveryProofs Config Commands CommandLine VllmProofs CommandProofs IntentProofs.
From S2P Require ContractParser CompilerTheorems.

Local Open Scope string_scope.
Local Open Scope list_scope.

(** ** Merges are edits *)

Lemma inert_brace r : inert (String "{" r).
Proof.
  split; [|done]. unfold key_of. cbn [partition Ascii.eqb].
  change (Ascii.eqb "{" "=") with false. cbn iota.
  destruct (partition "=" r) as [x y]. cbn. intros Hin. unfold scalar_options in Hin.
  repeat (apply elem_of_cons in Hin as [Hin|Hin]; [done|]). by apply elem_of_nil in Hin.
Qed.

Lemma dumps_inert kvs : inert (ascii_dumps (JObj kvs)).
Proof. apply inert_brace. Qed.

(** A fold of steps that keep an invariant and only go up in a preorder, each leaving behind
    something that going up keeps. *)
Lemma fold_grows {A B} (step : B → A → result B) (I : B → Prop) (R : relation B) `{!PreOrder R}
    (P : A → B → Prop) l c c' :
  (∀ x c c', P x c → R c c' → P x c') →
  (∀ c x c', x ∈ l → I c → step c x = Ok c' → I c' ∧ R c c' ∧ P x c') →
  I c → fold_result step c l = Ok c' → I c' ∧ R c c' ∧ ∀ x, x ∈ l → P x c'.
Proof.
  intros Hkeep. revert c. induction l as [|x l IH]; intros c Hstep Hi; cbn.
  - intros [= <-]. split_and!; [done|done|]. by intros x []%elem_of_nil.
  - intros (d & Hd & Hf)%result_bind_ok. apply Hstep in Hd as (Hid & Hcd & Hpd); [|by left|done].
    apply IH in Hf as (Hi' & Hdc & Hall); [|intros; by apply Hstep; [right|..]|done].
    split_and!; [done|by etrans|]. intros y [->|Hy]%elem_of_cons; [by eapply Hkeep|auto].
Qed.

Lemma fold_edits {A} (step : list string → A → result (list string))
    (P : A → list string → Prop) l c c' :
  (∀ x c c', P x c → edit c c' → P x c') →
  (∀ c x c', x ∈ l → step c x = Ok c' → rtc edit c c' ∧ P x c') →
  fold_result step c l = Ok c' → rtc edit c c' ∧ ∀ x, x ∈ l → P x c'.
Proof.
  intros Hkeep Hstep Hf.
  destruct (fold_grows step (λ _, True) (rtc edit) P l c c') as (_ & ? & ?); try done.
  - intros x d d' Hp Hd. induction Hd; [done|]. eauto.
  - intros d x d' Hx _ Hd. split; [done|]. by apply Hstep.
Qed.

Lemma locate_found option k c i sep raw :
  locate option k c = Ok (Some (i, sep, raw)) →
  ∃ j, i = (k + j)%nat
    ∧ if sep : bool then c !! j = Some option ∧ c !! S j = Some raw
      else c !! j = Some (option +:+ "=" +:+ raw).
Proof.
  revert k. induction c as [|a c IH]; intros k; cbn; [done|].
  destruct (String.eqb_spec a option) as [->|Hne].
  - destruct c as [|w c]; [done|]. intros [= <- <- <-]. exists 0%nat. by rewrite Nat.add_0_r.
  - destruct (strip_prefix (option +:+ "=") a) as [v|] eqn:Es.
    + intros [= <- <- <-]. exists 0%nat. rewrite Nat.add_0_r. split; [done|]. cbn.
      apply strip_prefix_inv in Es as ->. by rewrite <-str_app_assoc.
    + intros (j & -> & Hj)%IH. exists (S j). split; [lia|]. by destruct sep.
Qed.

Section Merges.
Context (decode : string → option json)
  (decode_inert : ∀ raw kvs, decode raw = Some (JObj kvs) → inert raw).

Lemma write_back_edit c found kvs :
  locate additional_option 0 c = Ok found →
  (∃ e, existing_config decode found = Ok e) →
  rtc edit c (write_back additional_option found (ascii_dumps (JObj kvs)) c).
Proof.
  intros Hl [e He]. destruct found as [[[i sep] raw]|]; cbn [write_back].
  - apply locate_found in Hl as (j & -> & Hj). cbn [existing_config] in He.
    apply result_bind_ok in He as (v & Hv & He). destruct v as [| | | | |raws]; try done.
    unfold json_value in Hv. destruct (decode raw) as [w|] eqn:Ed; [|done]. injection Hv as ->.
    apply decode_inert in Ed. destruct sep.
    + destruct Hj as [Hj Hs]. apply rtc_once. by eapply edit_value; [..|apply dumps_inert].
    + apply rtc_once. by eapply edit_inline.
  - apply rtc_once, edit_append; [by right; left|apply dumps_inert].
Qed.

Lemma merge_json_edits c o kvs c' :
  o ∈ appended_options → _merge_json_option decode c o (JObj kvs) = Ok c' → rtc edit c c'.
Proof.
  intros Ho (found & _ & Hc)%result_bind_ok. destruct found as [[[i sep] raw]|].
  - apply result_bind_ok in Hc as (v & _ & Hc). destruct (py_eqb v _); [|done]. by injection Hc as <-.
  - injection Hc as <-. apply rtc_once, edit_append; [done|apply dumps_inert].
Qed.

(** After a merge the option has the generated value before the separator. *)
Lemma merge_scalar_edits c o v c' :
  o ∈ scalar_options → inert v → _merge_scalar_option c o v = Ok c' →
  rtc edit c c' ∧ scan_option o v (before c') = Ok true.
Proof.
  intros Ho Hv. unfold _merge_scalar_option. destruct (split_boundary c) as [b a] eqn:Es.
  intros [_ [_ (found & Hf & [= <-])%result_bind_ok]%check_bind]%check_bind.
  assert (before c = b) as Eb by (unfold before; by rewrite Es). destruct found.
  - split; [done|]. by rewrite Eb.
  - assert (a = (split_boundary c).2) as -> by by rewrite Es. rewrite <-Eb in *. split.
    + by apply rtc_once, edit_insert.
    + destruct (managed_options o Ho) as (Hk & Hp & Hb). destruct Hv as [Hv1 Hv2].
      change (o :: v :: ?x) with ([o; v] ++ x). rewrite before_inserted.
      * apply (scan_app _ _ _ _ false true); [done|]. apply scan_cons. exists true, false.
        split_and!; [|by rewrite scan_other|done]. unfold use. rewrite Hk, String.eqb_refl, Hp. cbn.
        by rewrite Hv2, String.eqb_refl.
      * rewrite !elem_of_cons, elem_of_nil. intros [<-|[<-|[]]]; done.
Qed.

Lemma merge_flag_edits c f c' :
  merge_flag c (JStr f) = Ok c' →
  rtc edit c c' ∧ f ∈ flag_options ∧ f ∈ c'
  ∧ (f = "--enable-prefix-caching" → no_caching ∉ c').
Proof.
  unfold merge_flag. intros (known & [= <-] & [Hk%bool_decide_eq_true [= <-]]%check_bind)%result_bind_ok.
  set (d := if f =? "--enable-prefix-caching" then _ else c).
  assert (rtc edit c d) as Hd by (unfold d; destruct (f =? _); [apply rtc_once, edit_remove|done]).
  assert (f = "--enable-prefix-caching" → no_caching ∉ d) as Hn.
  { intros E. unfold d. rewrite E, String.eqb_refl. intros Hin.
    apply list_elem_of_In, filter_In in Hin as [_ Hin]. done. }
  destruct (decide (f ∈ d)) as [Hin|Hout].
  - by rewrite bool_decide_true.
  - rewrite bool_decide_false by done. split_and!; [|done|set_solver|].
    + etrans; [done|]. by apply rtc_once, edit_flag.
    + intros E. eapply edit_keeps_out; [by apply edit_flag|auto].
Qed.

Lemma merge_stateaxis_edits c p c' : merge_stateaxis decode c p = Ok c' → rtc edit c c'.
Proof.
  unfold merge_stateaxis. destruct (get_default _ _ _) as [| | | | |additional]; try done.
  intros [_ [_ [_ [_ Hc]%check_bind]%check_bind]%check_bind]%check_bind.
  unfold _merge_stateaxis_plan_config in Hc.
  destruct (get "stateaxis_mod" additional) as [| | | | |binding]; try done.
  destruct (get "mod_id" binding) as [| | |i| |]; try done.
  apply result_bind_ok in Hc as (found & Hl & Hc). apply result_bind_ok in Hc as (e & He & Hc).
  apply result_bind_ok in Hc as (m & _ & [= <-]).
  apply write_back_edit; [done|by eexists].
Qed.

(** ** Plans *)

(** The command line says what the plan set. *)
Definition delivers (p : ProviderPlan) (c : list string) : Prop :=
  composed p →
  (∀ o v, sets_option p o v → o ∈ scalar_options ∧ scan_option o v (before c) = Ok true)
  ∧ (∀ f, sets_flag p f → f ∈ flag_options ∧ f ∈ c)
  ∧ (sets_flag p "--enable-prefix-caching" → no_caching ∉ c).

Lemma delivers_edit p c c' : delivers p c → edit c c' → delivers p c'.
Proof.
  intros Hd He Hp. destruct (Hd Hp) as (Ho & Hf & Hn). split_and!.
  - intros o v [Hin Hs]%Ho. split; [done|]. by eapply edit_keeps.
  - intros f [Hin Hc]%Hf. split; [done|]. by eapply edit_keeps_flag.
  - intros Hc%Hn. by eapply edit_keeps_out.
Qed.

Lemma merge_vllm_edits c p c' :
  plan_inert p → merge_vllm decode c p = Ok c' →
  rtc edit c c' ∧ (∀ o v, sets_option p o v → o ∈ scalar_options ∧ scan_option o v (before c') = Ok true)
  ∧ (∀ f, sets_flag p f → f ∈ flag_options ∧ f ∈ c')
  ∧ (sets_flag p "--enable-prefix-caching" → no_caching ∉ c').
Proof.
  intros Hin Hc. unfold merge_vllm in Hc. unfold plan_inert, sets_option, sets_flag in *.
  apply result_bind_ok in Hc as (c1 & Hc1 & Hc). apply result_bind_ok in Hc as (c2 & Hc2 & Hc).
  destruct (get_default "vllm_json_options" _ _) as [| | | | |jopts]; try done.
  destruct (get_default "vllm_options" _ _) as [| | | | |opts]; try done.
  destruct (get_default "vllm_flags" _ _) as [| | | |flags|]; try done.
  apply (fold_edits _ (λ _ _, True)) in Hc1 as [H1 _]; [|done|].
  2:{ intros d [o v] d' _. unfold merge_json. cbn. destruct v; try done.
      destruct (decide (o ∈ json_options)); [rewrite bool_decide_true by done|by rewrite bool_decide_false].
      intros Hd. split; [|done]. eapply merge_json_edits; [|done]. by right. }
  apply (fold_edits _ (λ kv d, ∀ v, kv.2 = JStr v → kv.1 ∈ scalar_options
    ∧ scan_option kv.1 v (before d) = Ok true)) in Hc2 as [H2 Hs2].
  2:{ intros [o v] d d' Hd He w Hw. destruct (Hd w Hw) as [Ho Hv]. split; [done|].
      by eapply edit_keeps. }
  2:{ intros d [o v] d' Hel. unfold merge_scalar. cbn. destruct v as [| | |v| |]; try done.
      destruct (decide (o ∈ scalar_options)) as [Ho|];
        [rewrite bool_decide_true by done|by rewrite bool_decide_false].
      intros Hd. destruct (merge_scalar_edits _ _ _ _ Ho (Hin o v (ex_intro _ _ (conj eq_refl Hel))) Hd)
        as [He Hv]. split; [done|]. by intros w [= <-]. }
  apply (fold_edits _ (λ v d, ∀ f, v = JStr f → f ∈ flag_options ∧ f ∈ d
    ∧ (f = "--enable-prefix-caching" → no_caching ∉ d))) in Hc as [H3 Hs3].
  2:{ intros v d d' Hd He f Hf. destruct (Hd f Hf) as (Ho & Hfd & Hn). split_and!; [done|..].
      - by eapply edit_keeps_flag.
      - intros E. eapply edit_keeps_out; [done|auto]. }
  2:{ intros d v d' _ Hd. assert (∃ f, v = JStr f) as [f ->].
      { unfold merge_flag in Hd. apply result_bind_ok in Hd as (? & _ & Hd). destruct v; by eauto. }
      apply merge_flag_edits in Hd as (He & Hf & Hfd & Hn). split; [done|].
      by intros f' [= <-]. }
  split_and!.
  - by repeat (etrans; [done|]).
  - intros o v (opts' & [= <-] & Hel). destruct (Hs2 _ Hel v eq_refl) as [Ho Hv]. split; [done|].
    clear -Ho Hv H3. induction H3; [done|]. eauto using edit_keeps.
  - intros f (flags' & [= <-] & Hel). by destruct (Hs3 _ Hel f eq_refl) as (? & ? & _).
  - intros (flags' & [= <-] & Hel). by destruct (Hs3 _ Hel _ eq_refl) as (_ & _ & Hn); auto.
Qed.

Lemma merge_plan_edits c p c' :
  plan_inert p → _merge_provider_plan decode c p = Ok c' → rtc edit c c' ∧ delivers p c'.
Proof.
  intros Hin. unfold _merge_provider_plan, delivers, composed.
  destruct (get "kv_transfer_config" (generated_config p)) as [| | | | |kvs]; try done.
  - destruct (provider p =? "stateaxis") eqn:E1; reflect.
    + intros Hc%merge_stateaxis_edits. split; [done|]. intros [E _]. congruence.
    + destruct (provider p =? "vllm") eqn:E2; [|done]. intros Hc.
      destruct (merge_vllm_edits _ _ _ Hin Hc) as (He & Hs). done.
  - intros [_ Hc]%check_bind. split; [|by intros []]. eapply merge_json_edits; [by left|done].
Qed.
End Merges.

(** ** The environment *)

Definition owned_variables : list string := ["VLLM_PLUGINS"; "VLLMHUST_EXT_ENABLED_BUNDLES"].

Lemma assoc_remove_key {A} k k' (kvs : list (string * A)) :
  k ≠ k' → assoc k' (remove_key k kvs) = assoc k' kvs.
Proof.
  intros Hne. unfold remove_key. induction kvs as [|[x v] kvs IH]; [done|]. cbn.
  destruct (String.eqb_spec x k) as [->|]; cbn; rewrite IH; [|done].
  by apply String.eqb_neq in Hne as ->.
Qed.

(** Later entries do not change earlier ones. *)
Definition grows (e e' : list (string * string)) : Prop :=
  ∀ k v, assoc k e = Some v → assoc k e' = Some v.

#[export] Instance grows_preorder : PreOrder grows.
Proof. split; [by intros e k v|]. intros e1 e2 e3 H1 H2 k v Hk. by apply H2, H1. Qed.

Lemma add_variable_ok i e kv e' :
  add_variable i e kv = Ok e' → grows e e' ∧ ∀ v, kv.2 = JStr v → assoc kv.1 e' = Some v.
Proof.
  unfold add_variable, grows. destruct kv as [k v]. cbn. destruct v as [| | |v| |]; try done.
  intros He. assert (e' = dict_set k v e ∧ ∀ old, assoc k e = Some old → old = v) as [-> Hold].
  { revert He. destruct (assoc k e) as [old|]; [|by intros [= <-]].
    destruct (String.eqb_spec old v) as [->|]; [|done]. intros [= <-]. naive_solver. }
  split.
  - intros k' v' Hk. rewrite assoc_dict_set. destruct (String.eqb_spec k k') as [->|]; [|done].
    f_equal. symmetry. by apply Hold.
  - intros w [= <-]. by rewrite assoc_dict_set, String.eqb_refl.
Qed.

Lemma bundle_environments_ok plans bs e :
  fold_result (add_bundle_environment plans) [] bs = Ok e →
  ∀ b kvs k v, b ∈ bs → planned_environment plans b = JObj kvs → (k, JStr v) ∈ kvs →
    assoc k e = Some v.
Proof.
  intros Hf. set (P b e := ∀ kvs k v, planned_environment plans b = JObj kvs → (k, JStr v) ∈ kvs →
    assoc k e = Some v).
  destruct (fold_grows (add_bundle_environment plans) (λ _, True) grows P bs [] e)
    as (_ & _ & Hall); try done.
  - intros b d d' Hp Hd kvs k v Hb Hk. by eapply Hd, Hp.
  - intros d b d' _ _ Hd. split; [done|]. unfold add_bundle_environment in Hd. unfold P.
    destruct (planned_environment plans b) as [| | | | |kvs]; try done.
    apply (fold_grows _ (λ _, True) grows
      (λ kv e, ∀ v, kv.2 = JStr v → assoc kv.1 e = Some v)) in Hd as (_ & Hg & Hall); [|..|done].
    + split; [done|]. intros ? k v [= <-] Hin. by apply (Hall _ Hin).
    + intros kv c c' Hp Hc v Hv. by apply Hc, Hp.
    + intros c kv c' _ _ Hc. split; [done|]. by eapply add_variable_ok.
  - intros b kvs k v Hb. by apply Hall.
Qed.

(** The names of the activated plugins. *)
Definition owners_named (acc : list (string * string) * list string) : Prop :=
  ∀ n, is_Some (assoc n acc.1) → n ∈ acc.2.

Lemma claim_plugin_ok i acc n acc' :
  owners_named acc → claim_plugin i acc n = Ok acc' →
  owners_named acc' ∧ acc.2 ⊆ acc'.2 ∧ n ∈ acc'.2.
Proof.
  destruct acc as [owners names]. unfold claim_plugin, owners_named. cbn. intros Hi.
  destruct (assoc n owners) as [owner|] eqn:E.
  - destruct (owner =? i); [|done]. intros [= <-]. split_and!; [done|done|]. apply Hi. by eexists.
  - intros [= <-]. cbn. split_and!; [|set_solver|set_solver]. intros m.
    rewrite assoc_dict_set. destruct (String.eqb_spec n m) as [->|]; [set_solver|].
    intros Hm%Hi. set_solver.
Qed.

Definition more_names (a a' : list (string * string) * list string) : Prop := a.2 ⊆ a'.2.
#[export] Instance more_names_preorder : PreOrder more_names.
Proof. split; [by intros a x|]. intros a b c Hab Hbc x Hx. by apply Hbc, Hab. Qed.

Lemma declared_plugins_ok bs names :
  _declared_vllm_plugins bs = Ok names →
  ∀ b n, b ∈ bs → n ∈ declared_vllm_plugin_names (manifest b) → n ∈ names.
Proof.
  intros (acc & Hf & [= <-])%result_bind_ok.
  apply (fold_grows _ owners_named more_names (λ b a, ∀ n, n ∈ declared_vllm_plugin_names (manifest b) →
    n ∈ a.2)) in Hf as (_ & _ & Hall).
  - intros b n Hb Hn. apply (Hall b); [by rewrite sort_by_perm|done].
  - intros b a a' Hp Ha n Hn. by apply Ha, Hp.
  - intros a b a' _ Hi Ha.
    apply (fold_grows _ owners_named more_names (λ n a, n ∈ a.2)) in Ha as (? & ? & ?); [done|..|done].
    + intros n c c' Hn Hc. by apply Hc.
    + intros c n c' _. apply claim_plugin_ok.
  - intros n [? [=]].
Qed.

(**  The environment of a launch holds every variable that the plan of a bundle sets, with
    that value: bundles that disagree on one are refused; it names the launched bundles in
    order; and the allow-list of plugins holds every plugin that a bundle declares, the host's
    own, and those the caller allowed, each once. *)
Theorem environment_delivered process_plugins bs plans env :
  _activation_environment process_plugins bs plans = Ok env →
  (∀ b kvs k v, b ∈ bs → planned_environment plans b = JObj kvs → (k, JStr v) ∈ kvs →
     k ∉ owned_variables → assoc k env = Some v)
  ∧ assoc "VLLMHUST_EXT_ENABLED_BUNDLES" env = Some (String.concat "," (map ib_id bs))
  ∧ ∀ b n, b ∈ bs → n ∈ declared_vllm_plugin_names (manifest b) →
      ∃ names, assoc "VLLM_PLUGINS" env = Some (String.concat "," names) ∧ NoDup names
        ∧ n ∈ names ∧ _VLLM_BUILTIN_PLUGIN ∈ names
        ∧ ∀ m, m ∈ _comma_separated_names process_plugins → m ∈ names.
Proof.
  intros (e & He & (activated & Ha & [= <-])%result_bind_ok)%result_bind_ok. split_and!.
  - intros b kvs k v Hb Hkvs Hk Hout. rewrite assoc_dict_set.
    destruct (String.eqb_spec "VLLMHUST_EXT_ENABLED_BUNDLES" k) as [<-|_]; [set_solver|].
    unfold add_plugins. case_bool_decide; [by eapply bundle_environments_ok|].
    rewrite assoc_dict_set. destruct (String.eqb_spec "VLLM_PLUGINS" k) as [<-|Hne]; [set_solver|].
    rewrite assoc_remove_key by done. by eapply bundle_environments_ok.
  - by rewrite assoc_dict_set.
  - intros b n Hb Hn. pose proof (declared_plugins_ok _ _ Ha b n Hb Hn) as Hin.
    rewrite assoc_dict_set. cbn [String.eqb Ascii.eqb Bool.eqb].
    unfold add_plugins. rewrite bool_decide_false by (intros ->; by apply elem_of_nil in Hin).
    set (asked := _comma_separated_names process_plugins ++ _).
    eexists. split; [by rewrite assoc_dict_set|]. split; [apply from_keys_nodup|].
    split_and!; [|case_bool_decide|intros m Hm; case_bool_decide];
      rewrite elem_of_from_keys; unfold asked in *; set_solver.
Qed.

(** ** Words that decode to objects *)

Lemma inert_first c r : c ≠ "-"%char → c ≠ "_"%char → inert (String c r).
Proof.
  intros Hd Hu. split.
  - unfold key_of. cbn [partition]. destruct (Ascii.eqb_spec c "=") as [->|_].
    { by apply (bool_decide_unpack _). }
    destruct (partition "=" r) as [x y]. cbn. destruct (Ascii.eqb_spec c "_") as [|_]; [done|].
    unfold scalar_options. intros Hin.
    repeat (apply elem_of_cons in Hin as [[= ->]|Hin]; [done|]). by apply elem_of_nil in Hin.
  - unfold String.prefix. by destruct (Ascii.ascii_dec "-" c) as [<-|].
Qed.

Lemma scalar_no_object s kvs r : scalar no_constant s ≠ Ok (JObj kvs, r).
Proof.
  assert (∀ v, read_number s = Some v → ∃ z, v.1 = JInt z) as Hn.
  { unfold read_number. intros v.
    destruct (expect "-" s) as [t|]; [destruct (read_nat t) as [[z q]|]|
      destruct (read_nat s) as [[z q]|]]; cbn; try done; intros [= <-]; by eexists. }
  unfold scalar. destruct (strip_prefix "null" s); [done|]. destruct (strip_prefix "true" s); [done|].
  destruct (strip_prefix "false" s); [done|]. destruct (read_number s) as [v|].
  - destruct (Hn v eq_refl) as [z Hz]. intros [= ->]. done.
  - by destruct (find _ constants).
Qed.

Lemma value_scalar n c s : c = "-"%char ∨ c = "_"%char →
  value to_dict no_constant (S n) (String c s) = scalar no_constant (String c s).
Proof. by intros [->| ->]. Qed.

Lemma loads_first c raw kvs : c = "-"%char ∨ c = "_"%char → loads (String c raw) ≠ Some (JObj kvs).
Proof.
  intros Hc. unfold loads, loads_with. assert (utf8_decode (String c raw) = String c <$> utf8_decode raw
    ∧ ∀ s, skip_ws (String c s) = String c s) as [-> Hws] by by destruct Hc as [->| ->].
  destruct (utf8_decode raw) as [s|]; [|done]. cbn [fmap option_fmap option_map of_option mbind result_bind].
  rewrite Hws. unfold loads_fuel. rewrite Nat.add_comm. cbn [Nat.add].
  rewrite value_scalar by done. pose proof (scalar_no_object (String c s) kvs) as Hs.
  destruct (scalar no_constant (String c s)) as [[v r]|e]; [|done]. cbn.
  destruct (skip_ws r); [|done]. intros [= ->]. by destruct (Hs r).
Qed.

Lemma loads_inert raw kvs : loads raw = Some (JObj kvs) → inert raw.
Proof.
  destruct raw as [|c raw]; [done|]. destruct (decide (c = "-"%char)) as [->|Hd];
    [|destruct (decide (c = "_"%char)) as [->|Hu]; [|by intros _; apply inert_first]];
    intros Hl; exfalso; eapply loads_first; [by left|done|by right|done].
Qed.

(** ** Launches *)

Section Launches.
Context `{ContractParser.Packaging} (decode : string → option json)
  (find_provider : string → bool → result HostProvider)
  (runtime_effective_evidence : InstalledBundle → result (option string)) (inc : bool)
  (discover : list string → result (list InstalledBundle)).

Definition status_of (b : InstalledBundle) (e : ExtensionConfig) : result ExtensionStatus :=
  status_for find_provider runtime_effective_evidence b e inc.
Definition plan_of (b : InstalledBundle) (e : ExtensionConfig) : result ProviderPlan :=
  plan_for find_provider b e inc.

Notation compose := (compose_launch decode status_of plan_of discover).

(** What the provider of a bundle said of it before the launch. *)
Definition cleared (config : UserConfig) (b : InstalledBundle) : Prop :=
  ∃ p c,
    checked_provider find_provider b (extension config (ib_id b)) inc = Ok (p, c)
    ∧ activation_blocker (manifest b) = Ok None
    ∧ compatible c ≠ Some false
    ∧ (rt_isolation (m_runtime (manifest b)) = "trusted_in_process" → compatible c = Some true)
    ∧ (∀ s, s ∈ requires_services (manifest b) → Manifest.optional s = false → healthy c = Some true)
    ∧ (h_provider (m_host (manifest b)) = "stateaxis" → configured c = true).

Lemma healthy_in c blocked e effective :
  LifecycleState.HEALTHY ∈ states_of c blocked e effective → healthy c = Some true.
Proof.
  unfold states_of. rewrite !elem_of_app. intros Hin. destruct_or! Hin; repeat case_match;
    reflect; set_solver.
Qed.

Lemma configured_in c blocked e effective :
  LifecycleState.CONFIGURED ∈ states_of c blocked e effective → configured c = true.
Proof.
  unfold states_of. rewrite !elem_of_app. intros Hin. destruct_or! Hin; repeat case_match;
    reflect; set_solver.
Qed.

Lemma admitted_cleared config b : admit_launch status_of config b = Ok tt → cleared config b.
Proof.
  unfold admit_launch, cleared. intros (blocker & Hb & [->%bool_decide_eq_true Hs]%check_bind)%result_bind_ok.
  apply result_bind_ok in Hs as (status & Hs & Hc). apply check_bind in Hc as [Hi Hc].
  apply check_bind in Hc as [Hh Hc]. apply check_bind in Hc as [Hp Hc]. apply check_ok in Hc.
  apply negb_true_iff, bool_decide_eq_false in Hi.
  apply status_for_cases in Hs as [(e & _ & _ & E)|(p & c & bl & eff & Hck & _ & _ & E & _)];
    rewrite E in *; [exfalso; apply Hi; set_solver|].
  exists p, c. split; [done|]. split; [done|]. split; [by rewrite <-incompatible_in|]. split_and!.
  - intros Ei. rewrite Ei in Hp. by apply bool_decide_eq_true, compatible_in in Hp.
  - intros s Hin Hopt. apply orb_true_iff in Hh as [Hh|Hh]; reflect; [|by eapply healthy_in].
    assert (s ∈ List.filter (λ s, negb (Manifest.optional s)) (requires_services (manifest b))) as Hf.
    { apply list_elem_of_In, filter_In. split; [by apply list_elem_of_In|]. by rewrite Hopt. }
    rewrite Hh in Hf. by apply elem_of_nil in Hf.
  - intros Ei. rewrite Ei in Hc. by apply bool_decide_eq_true, configured_in in Hc.
Qed.

(** The parts of a composition. *)
Lemma compose_inv process_plugins config arguments bs l :
  compose process_plugins config arguments = Ok (bs, l) →
  ∃ c0 plans,
    enabled_bundles discover config = Ok bs
    ∧ _validate_extension_dependencies bs = Ok tt ∧ _validate_process_ownership bs = Ok tt
    ∧ Forall (λ b, admit_launch status_of config b = Ok tt) bs
    ∧ Forall2 (λ b p, plan_of b (extension config (ib_id b)) = Ok p) bs plans
    ∧ reject_conflicting_plans plans None = Ok tt
    ∧ fold_result (_merge_provider_plan decode) c0 plans = Ok (l_command l)
    ∧ _activation_environment process_plugins bs plans = Ok (l_environment l)
    ∧ l_native l = omap native_of plans.
Proof.
  unfold compose_launch. intros (bs' & Hbs & Hc)%result_bind_ok.
  apply result_bind_ok in Hc as ([] & Hd & Hc). apply result_bind_ok in Hc as ([] & Hp & Hc).
  apply result_bind_ok in Hc as ([] & Ha & Hc). apply result_bind_ok in Hc as (c1 & _ & Hc).
  apply result_bind_ok in Hc as (shared & _ & Hc). apply result_bind_ok in Hc as (c2 & _ & Hc).
  apply result_bind_ok in Hc as (plans & Hpl & Hc). apply result_bind_ok in Hc as ([] & Hr & Hc).
  apply result_bind_ok in Hc as (c3 & Hm & Hc). apply result_bind_ok in Hc as (env & He & [= <- <-]).
  exists c2, plans. split_and!; try done; [by apply fold_checks in Ha|by apply map_result_ok].
Qed.

(** C6.  Nothing is launched unless it was cleared: the selection is the saved intent, its
    dependencies hold, at most one bundle owns the process tree; no bundle is descriptor-only;
    the provider of each supports it and did not find it incompatible, found it compatible if
    it runs inside the host, healthy if it requires a service, configured if it belongs to
    StateAxis; and the plans that are merged mutate nothing and were accepted together. *)
Theorem launch_gated named `{!Discovers discover named} process_plugins config arguments bs l :
  NoDup (keys config) →
  compose process_plugins config arguments = Ok (bs, l) →
  Forall2 (λ i b, named i = Ok b) (enabled_ids config) bs
  ∧ dependencies_hold bs ∧ (length (List.filter owns_process_tree bs) ≤ 1)%nat
  ∧ Forall (cleared config) bs
  ∧ ∃ plans, Forall2 (λ b p, plan_of b (extension config (ib_id b)) = Ok p) bs plans
      ∧ reject_conflicting_plans plans None = Ok tt
      ∧ Forall (λ p, Forall (λ a, mutating a = false) (actions p)) plans
      ∧ l_native l = omap native_of plans.
Proof.
  intros Hnd (c0 & plans & Hbs & Hd & Hp & Ha & Hpl & Hr & _ & _ & Hn)%compose_inv.
  apply (enabled_bundles_iff discover named) in Hbs. split; [done|].
  assert (NoDup (map ib_id bs)) as Hids.
  { rewrite (bundles_of_ids discover named _ _ Hbs). by apply enabled_ids_nodup. }
  apply dependencies_checked in Hd; [|done]. apply process_ownership_iff in Hp.
  split_and!; [done|done| |].
  - eapply Forall_impl; [exact Ha|]. apply admitted_cleared.
  - exists plans. split_and!; [done|done| |done]. clear -Hpl.
    induction Hpl as [|b p bs plans Hp _ IH]; constructor; [|done].
    unfold plan_of, plan_for in Hp. apply result_bind_ok in Hp as ([r|] & _ & Hp).
    + injection Hp as <-. by repeat constructor.
    + apply result_bind_ok in Hp as (? & _ & Hp). apply result_bind_ok in Hp as (? & _ & Hp).
      apply check_bind in Hp as [_ Hp]. apply result_bind_ok in Hp as (q & _ & Hp).
      apply check_bind in Hp as [Hn%no_mutation Hp]. by apply check_bind in Hp as [_ [= <-]].
Qed.

(** C7.  The command that is launched says what the vLLM plans set, as long as no value of a plan
    and no text of a JSON object reads as an option itself ([plan_inert], which holds of the
    plans of parsed manifests, and the condition on [decode]): for each accepted vLLM plan without
    a KV transfer configuration, which is merged elsewhere, each managed option occurs before the
    separator, spelled with dashes or underscores, with the plan's value and no other; each flag
    occurs, before or behind the separator; and where the plan turns prefix caching on, the word
    [--no-enable-prefix-caching] is gone.  (Only that word: other spellings of it stay, see
    [caching_turned_off].)  So it is whatever the user's command line was and whatever was merged
    later. *)
Theorem launch_delivers process_plugins config arguments bs l :
  (∀ raw kvs, decode raw = Some (JObj kvs) → inert raw) →
  (∀ b p, b ∈ bs → plan_of b (extension config (ib_id b)) = Ok p → plan_inert p) →
  compose process_plugins config arguments = Ok (bs, l) →
  ∀ b p, b ∈ bs → plan_of b (extension config (ib_id b)) = Ok p → composed p →
    (∀ o v, sets_option p o v →
       let vs := values o (before (l_command l)) in vs ≠ [] ∧ Forall (λ w, w = v) vs)
    ∧ (∀ f, sets_flag p f → f ∈ l_command l)
    ∧ (sets_flag p "--enable-prefix-caching" → no_caching ∉ l_command l).
Proof.
  intros Hdec Hinert (c0 & plans & _ & _ & _ & _ & Hpl & _ & Hm & _)%compose_inv b p Hb Hp Hc.
  apply (fold_edits _ delivers) in Hm as [_ Hall].
  - assert (p ∈ plans) as Hin.
    { apply list_elem_of_lookup in Hb as [i Hi].
      destruct (Forall2_lookup_l _ _ _ _ _ Hpl Hi) as (q & Hq & Hbq).
      assert (q = p) as -> by congruence. by eapply list_elem_of_lookup_2. }
    destruct (Hall p Hin Hc) as (Ho & Hf & Hn). split_and!; [..|done].
    + intros o v [_ Hs]%Ho. cbn. by apply scan_values.
    + by intros f [_ ?]%Hf.
  - apply delivers_edit.
  - intros c q c' Hq. apply merge_plan_edits; [done|].
    apply list_elem_of_lookup in Hq as [i Hi].
    destruct (Forall2_lookup_r _ _ _ _ _ Hpl Hi) as (x & Hx & Hxq).
    eapply Hinert; [by eapply list_elem_of_lookup_2|done].
Qed.
End Launches.

(** ** A launch *)

Module LaunchDemo.
Import CompilerTheorems.ExactVersions.

(** Two bundles of vLLM: the first selects a preemption policy, the second needs the first. *)
Definition bundle_a : InstalledBundle :=
  mkBundle "org.a" "a" "1.0" "/lib/a.json"
    (mkManifest "org.a" "1.0" ">=0"
      [mkComponent "policy" ["vllm.preemption-policy.v1"] ["scheduler"] "trusted_in_process"
         "pkg.policy:Policy" []]
      (mkActivation [mkEntryPoint "vllm.general_plugins" "a_plugin"] [("A_MODE", "fast")] [])
      "0.3" "scheduler_policy" (mkHost "vllm" "vllm" ">=0" None)
      (mkRuntime "python" "vllm_processes" "trusted_in_process") "vllm" [] [] [] [] []).
Definition bundle_b : InstalledBundle :=
  mkBundle "org.b" "b" "2" "/lib/b.json"
    (mkManifest "org.b" "2" ">=0" []
      (mkActivation [] [("B_MODE", "1")]
         [("threads", JInt 4); ("_manager_runtime_qualification", JObj [("npu", JStr "910B")])])
      "0.3" "kv_connector" (mkHost "vllm" "vllm" ">=0" None)
      (mkRuntime "python" "vllm_processes" "process") "vllm" [] [] []
      [mkRequired "org.a" "==1.0"] []).

Definition named (i : string) : result InstalledBundle :=
  if i =? "org.a" then Ok bundle_a else if i =? "org.b" then Ok bundle_b
  else Err (DiscoveryError "not installed").
Definition discover : list string → result (list InstalledBundle) := map_result named.

#[export] Instance demo_discovers : Discovers discover named.
Proof.
  constructor; [intros ids bs; apply map_result_ok|]. unfold named. intros i b.
  repeat case_match; reflect; intros; by simplify_eq.
Qed.

Definition caching : list (string * json) :=
  [("launch_options", JObj [("enable_prefix_caching", JBool true)])].
Definition config : UserConfig :=
  [("org.a", mkExtensionConfig true caching); ("org.b", mkExtensionConfig true []);
   ("org.c", mkExtensionConfig false [])].

Definition host : HostProvider :=
  VllmProvider (mkCapabilities (Some "1.0") [] registry_module ["registry"])
    (λ _, Some "0.9").
Definition find : string → bool → result HostProvider := provider_for [("vllm", host)] [].
Definition no_evidence (b : InstalledBundle) : result (option string) := Ok None.

Definition compose (arguments : list string) : result (list InstalledBundle * Launch) :=
  compose_launch loads (status_of find no_evidence true) (plan_of find true) discover
    (Some "mine") config arguments.

Definition arguments : list string :=
  ["--"; "vllm"; "serve"; "--no-enable-prefix-caching"; "--additional-config={}"; "--"; "x"].

Definition launch : Launch := mkLaunch
  ["vllm"; "serve";
   "--additional-config=" +:+ ascii_dumps (JObj [("threads", JInt 4);
      ("_manager_runtime_qualification", JObj [("npu", JStr "910B")])]);
   "--preemption-policy"; "pkg.policy.Policy"; "--"; "x"; "--enable-prefix-caching"]
  [("A_MODE", "fast"); ("B_MODE", "1"); ("VLLM_PLUGINS", "mine,ascend,a_plugin");
   ("VLLMHUST_EXT_ENABLED_BUNDLES", "org.a,org.b")] [].
(** The key that the vLLM provider keeps to the manager is passed on to the host; and a flag that
    is added lands behind the separator. *)
Example launch_composed : compose arguments = Ok ([bundle_a; bundle_b], launch).
Proof. vm_compute. reflexivity. Qed.

(** The user's value differs from the policy of the plan. *)
Example launch_conflict :
  compose ["vllm"; "serve"; "--preemption_policy"; "other.Policy"]
  = Err (ValueError "extension activation conflicts with --preemption-policy").
Proof. vm_compute. reflexivity. Qed.

(** The flag that turns prefix caching off is taken out in one spelling only: with underscores,
    which the host reads as the same flag, it stays, before the flag that the plan adds. *)
Example caching_turned_off :
  (l ← compose ["vllm"; "serve"; "--no_enable_prefix_caching"; "--no-enable-prefix-caching"];
   Ok (l_command l.2)) =
  Ok ["vllm"; "serve"; "--no_enable_prefix_caching"; "--additional-config";
      ascii_dumps (JObj [("threads", JInt 4);
        ("_manager_runtime_qualification", JObj [("npu", JStr "910B")])]);
      "--preemption-policy"; "pkg.policy.Policy"; "--enable-prefix-caching"].
Proof. vm_compute. reflexivity. Qed.

Definition plan_a : ProviderPlan :=
  match plan_of find true bundle_a (extension config "org.a") with
  | Ok p => p
  | Err _ => ownership_plan bundle_a
  end.

Lemma launch_gated_witness :
  dependencies_hold [bundle_a; bundle_b]
  ∧ Forall (cleared find true config) [bundle_a; bundle_b].
Proof.
  destruct (launch_gated loads find no_evidence true discover named (Some "mine") config arguments
    [bundle_a; bundle_b] launch) as (_ & Hd & _ & Hc & _).
  - by apply (bool_decide_unpack _).
  - vm_compute. reflexivity.
  - by split.
Defined.

Lemma environment_delivered_witness :
  assoc "A_MODE" [("A_MODE", "fast"); ("VLLM_PLUGINS", "mine,ascend,a_plugin");
     ("VLLMHUST_EXT_ENABLED_BUNDLES", "org.a")] = Some "fast".
Proof.
  refine (proj1 (environment_delivered (Some "mine") [bundle_a] [plan_a]
    [("A_MODE", "fast"); ("VLLM_PLUGINS", "mine,ascend,a_plugin");
     ("VLLMHUST_EXT_ENABLED_BUNDLES", "org.a")] _) bundle_a [("A_MODE", JStr "fast")] "A_MODE" "fast"
    _ _ _ _).
  - vm_compute. reflexivity.
  - by left.
  - vm_compute. reflexivity.
  - by left.
  - by apply (bool_decide_unpack _).
Defined.

Lemma demo_plan_inert b p :
  b ∈ [bundle_a; bundle_b] → plan_of find true b (extension config (ib_id b)) = Ok p → plan_inert p.
Proof.
  intros Hb Hp.
  assert (∃ q, vllm_plan (manifest b) (configuration (extension config (ib_id b))) true = Ok q
    ∧ p = set_claims [] q) as (q & Hq & ->).
  { repeat (apply elem_of_cons in Hb as [->|Hb]; [vm_compute in Hp; injection Hp as <-|]);
      [eexists; split; [vm_compute; reflexivity|reflexivity]..|by apply elem_of_nil in Hb]. }
  intros o v Ho. eapply (vllm_plan_inert _ _ _ _) in Hq; [by apply (Hq o)|].
  repeat (apply elem_of_cons in Hb as [->|Hb]; [by repeat constructor|]). by apply elem_of_nil in Hb.
Qed.

Lemma launch_delivers_witness :
  values "--preemption-policy" (before (l_command launch)) ≠ []
  ∧ Forall (λ w, w = "pkg.policy.Policy") (values "--preemption-policy" (before (l_command launch))).
Proof.
  refine (proj1 (launch_delivers loads find no_evidence true discover (Some "mine") config arguments
    [bundle_a; bundle_b] launch loads_inert demo_plan_inert _ bundle_a plan_a _ _ _)
    "--preemption-policy" "pkg.policy.Policy" _).
  - vm_compute. reflexivity.
  - by left.
  - vm_compute. reflexivity.
  - by vm_compute.
  - eexists. split; [vm_compute; reflexivity|by left].
Defined.
End LaunchDemo.
