(* ===== verification/StateaxisProofs.v ===== *)
(** * StateaxisProofs: StateAxis's mods, from manifest to launch

    The provider's checks and plans rest on the manifest's digest and qualification; and the
    composition of several mods into one host configuration loses and mixes up none. *)

From S2P Require Import Prelude Effects Json Sha256 JsonText JsonFacts Manifest ProviderPlans StateaxisProvider Commands CommandLine LaunchProofs.
From S2P Require ContractParser CompilerTheorems Sha256.

Local Open Scope string_scope.
Local Open Scope list_scope.

(** ** The provider *)

Lemma mod_binding_ok m binding :
  _mod_binding m = Ok binding →
  get "stateaxis_mod" (additional_config (activation m)) = JObj binding
  ∧ ∃ digest, get "manifest_sha256" binding = JStr digest.
Proof.
  unfold _mod_binding. destruct (get _ _) as [| | | | |value]; try done.
  intros [_ [Hd [_ [= ->]]%check_bind]%check_bind]%check_bind. split; [done|].
  unfold is_digest in Hd. destruct (get "manifest_sha256" binding); try done. by eexists.
Qed.

(** What a launch of the mod rests on. *)
Definition entitled (binding configuration : list (string * json)) (experiment : bool) : Prop :=
  if experiment then
    get "experiment_mode" configuration = JBool true
    ∧ get "performance_qualified" binding ≠ JBool true
  else get "performance_qualified" binding = JBool true
    ∧ ∃ q, get "runtime_qualification" configuration = JObj q ∧ get "status" q = JStr "passed".

Lemma passed_ok configuration :
  is_Some (passed configuration) →
  ∃ q, get "runtime_qualification" configuration = JObj q ∧ get "status" q = JStr "passed".
Proof.
  unfold passed. intros [q Hq]. destruct (get _ _) as [| | | | |q']; try done.
  case_bool_decide; [by exists q'|done].
Qed.

Lemma launch_config_ok m e additional :
  _launch_additional_config m e = Ok additional →
  additional = dict_set "experiment_mode" (JBool e) (additional_config (activation m))
  ∧ "experiment_mode" ∉ keys (additional_config (activation m)).
Proof.
  unfold _launch_additional_config.
  intros [Hk (binding & _ & [_ [= <-]]%check_bind)%result_bind_ok]%check_bind. by reflect.
Qed.

Lemma launch_plan_ok m o d g w additional p :
  launch_plan m o d g w additional = Ok p → generated_config p = g ∧ operation <$> actions p = [o].
Proof. by intros (claims & _ & [= <-])%result_bind_ok. Qed.

Lemma is_true_spec v : is_true v = true ↔ v = JBool true.
Proof. apply bool_decide_eq_true. Qed.

(** The configuration for the host that a plan carries. *)
Definition carries (p : ProviderPlan) (additional : list (string * json)) : Prop :=
  get "stateaxis_additional_config" (generated_config p) = JObj additional.

Lemma stateaxis_plan_cases m configuration en p :
  stateaxis_plan m configuration en = Ok p →
  ∃ binding, _mod_binding m = Ok binding
    ∧ ((operation <$> actions p = ["inspect_only"]
        ∧ get "stateaxis_additional_config" (generated_config p) = JNull)
       ∨ ∃ e additional, activation_blocker m = Ok None ∧ entitled binding configuration e
           ∧ carries p additional ∧ _launch_additional_config m e = Ok additional).
Proof.
  unfold stateaxis_plan. intros (binding & Hb & Hp)%result_bind_ok.
  apply result_bind_ok in Hp as (blocker & Hbl & Hp). exists binding. split; [done|].
  destruct (_ || _) eqn:Eg; [injection Hp as <-; by left|]. right.
  apply orb_false_iff in Eg as [Hn%bool_decide_eq_false Eq].
  assert (blocker = None) as -> by by apply eq_None_not_Some.
  destruct (_ && _) eqn:Ee in Hp.
  - apply andb_true_iff in Ee as [Hm%is_true_spec Hq]. apply negb_true_iff in Hq.
    apply result_bind_ok in Hp as (additional & Ha & [Hg _]%launch_plan_ok).
    exists true, additional. split; [done|]. split.
    + split; [done|]. intros Hq'%is_true_spec. congruence.
    + split; [by unfold carries; rewrite Hg|done].
  - destruct (passed configuration) as [q|] eqn:Epass; [|done].
    apply result_bind_ok in Hp as (additional & Ha & [Hg _]%launch_plan_ok).
    exists false, additional. split; [done|]. split.
    + split; [|apply passed_ok; by rewrite Epass]. apply is_true_spec.
      destruct (is_true (get "performance_qualified" binding)); [done|].
      destruct (is_true (get "experiment_mode" configuration)); done.
    + split; [by unfold carries; rewrite Hg|done].
Qed.

Section Checks.
Context `{ContractParser.Packaging} `{Sha256.Sha256}
  (is_symlink is_file : string → bool) (read_bytes : string → result string).

(** The bytes of the research manifest have the digest of the binding. *)
Definition research_manifest_matches (configuration binding : list (string * json)) : Prop :=
  ∃ path content, get "research_manifest_path" configuration = JStr path
    ∧ is_file path = true ∧ is_symlink path = false ∧ read_bytes path = Ok content
    ∧ get "manifest_sha256" binding = JStr (Sha256.sha256_hexdigest content).

Lemma verified_ok configuration binding digest text :
  get "manifest_sha256" binding = JStr digest →
  _verify_manifest_file is_symlink is_file read_bytes configuration digest = Ok (Some true, text) →
  research_manifest_matches configuration binding.
Proof.
  intros Hd. unfold _verify_manifest_file, research_manifest_matches.
  destruct (get "research_manifest_path" configuration) as [| | |path| |]; try done.
  destruct (_ || _) eqn:Ef; [done|]. intros (content & Hc & Hv)%result_bind_ok.
  destruct (String.eqb_spec (Sha256.sha256_hexdigest content) digest) as [<-|]; [|done].
  exists path, content. apply orb_false_iff in Ef as [? ?%negb_false_iff]. by split_and!.
Qed.

(** What a check that reports the mod configured has tested. *)
Lemma stateaxis_check_cases m configuration c :
  stateaxis_check is_symlink is_file read_bytes m configuration = Ok c → configured c = true →
  ∃ binding, _mod_binding m = Ok binding ∧ activation_blocker m = Ok None
    ∧ research_manifest_matches configuration binding ∧ ∃ e, entitled binding configuration e.
Proof.
  unfold stateaxis_check. destruct (_mod_binding m) as [binding|e] eqn:Hb.
  2:{ destruct (is_value_error e); [by intros [= <-]|done]. }
  pose proof (mod_binding_ok _ _ Hb) as [_ [digest Hd]]. rewrite Hd. intros Hc Hcf.
  apply result_bind_ok in Hc as ([compat ev] & _ & Hc).
  apply result_bind_ok in Hc as ([verified text] & Hv & Hc).
  apply result_bind_ok in Hc as (blocker & Hbl & [= <-]). exists binding. split; [done|].
  destruct (_ || _) eqn:Eg in Hcf; [done|].
  apply orb_false_iff in Eg as [Hn%bool_decide_eq_false Eq].
  assert (blocker = None) as -> by by apply eq_None_not_Some. split; [done|].
  assert (∀ b, bool_decide (verified = Some true) && b = true →
    research_manifest_matches configuration binding) as Hmatch.
  { intros b [->%bool_decide_eq_true _]%andb_true_iff. by eapply verified_ok. }
  destruct (_ && _) eqn:Ee in Hcf; cbn in Hcf.
  - split; [by apply (Hmatch true); rewrite Hcf|].
    exists true. apply andb_true_iff in Ee as [He%is_true_spec Hq%negb_true_iff].
    split; [done|]. intros Hq'%is_true_spec. congruence.
  - split; [by apply (Hmatch _ Hcf)|]. exists false.
    apply andb_true_iff in Hcf as [_ Hpass%bool_decide_eq_true%passed_ok]. split; [|done].
    apply is_true_spec. destruct (is_true (get "performance_qualified" binding)); [done|].
    by destruct (is_true (get "experiment_mode" configuration)).
Qed.

(** C28. A mod of StateAxis is launched, as planned and as checked, only on evidence.  A plan that
    carries a host configuration is for an extension that is no descriptor, qualified with a
    passed runtime qualification or run as an experiment the user asked for; that
    configuration is the manifest's with the mode added and nothing else; every other plan
    only inspects.  And, whatever becomes of the plan, a check reports the mod configured only
    if the extension is no descriptor, the research manifest is a regular file whose bytes have
    the digest in the binding, and the same entitlement holds. *)
Theorem stateaxis_entitled m configuration :
  (∀ en p, stateaxis_plan m configuration en = Ok p →
     ∃ binding, get "stateaxis_mod" (additional_config (activation m)) = JObj binding
       ∧ ((operation <$> actions p = ["inspect_only"]
           ∧ get "stateaxis_additional_config" (generated_config p) = JNull)
          ∨ ∃ e additional, activation_blocker m = Ok None ∧ entitled binding configuration e
              ∧ carries p additional ∧ get "experiment_mode" additional = JBool e
              ∧ ∀ k, k ≠ "experiment_mode" →
                  get k additional = get k (additional_config (activation m))))
  ∧ ∀ c, stateaxis_check is_symlink is_file read_bytes m configuration = Ok c →
      configured c = true →
      ∃ binding, get "stateaxis_mod" (additional_config (activation m)) = JObj binding
        ∧ activation_blocker m = Ok None ∧ research_manifest_matches configuration binding
        ∧ ∃ e, entitled binding configuration e.
Proof.
  split.
  - intros en p (binding & Hb & Hp)%stateaxis_plan_cases. exists binding.
    pose proof (mod_binding_ok _ _ Hb) as [Hm _]. split; [done|].
    destruct Hp as [Hp|(e & additional & Hbl & He & Hca & [-> Hk]%launch_config_ok)]; [by left|].
    right. exists e, (dict_set "experiment_mode" (JBool e) (additional_config (activation m))).
    split_and!; [done..| |]; unfold get.
    + by rewrite assoc_dict_set.
    + intros k Hk'. rewrite assoc_dict_set. by apply not_eq_sym, String.eqb_neq in Hk' as ->.
  - intros c Hc Hcf. destruct (stateaxis_check_cases _ _ _ Hc Hcf) as (binding & Hb & Hrest).
    exists binding. split; [by apply mod_binding_ok in Hb as [? _]|done].
Qed.
End Checks.

(** ** Composition *)

(** Objects with the same members. *)
Definition same_members (v w : json) : Prop :=
  ∃ a b, v = JObj a ∧ w = JObj b ∧ ∀ k, assoc k a = assoc k b.

Lemma same_members_refl kvs : same_members (JObj kvs) (JObj kvs).
Proof. by exists kvs, kvs. Qed.

Definition binding_ok (i : string) (v : json) : Prop :=
  ∃ kvs, v = JObj kvs ∧ get "mod_id" kvs = JStr i ∧ "experiment_mode" ∈ keys kvs.

(** The bindings of a host configuration, well formed. *)
Definition bound (config bindings : list (string * json)) : Prop :=
  stateaxis_bindings config = Ok bindings ∧ NoDup (keys bindings)
  ∧ ∀ i v, (i, v) ∈ bindings → binding_ok i v.

Definition reserved : list string := ["stateaxis_mod"; "stateaxis_mods"; "experiment_mode"].

Lemma assoc_remove_key_eq {A} k (kvs : list (string * A)) : assoc k (remove_key k kvs) = None.
Proof.
  unfold remove_key. induction kvs as [|[x v] kvs IH]; [done|]. cbn.
  destruct (String.eqb_spec x k) as [->|Hne]; cbn; [done|].
  by apply String.eqb_neq in Hne as ->.
Qed.

Lemma update_ok existing added merged :
  NoDup (keys added) → update_config existing added = Ok merged →
  ∀ k, assoc k merged = match assoc k added with Some v => Some v | None => assoc k existing end.
Proof.
  intros Hnd [_ [= <-]]%check_bind k. revert existing. 
  induction added as [|[x v] added IH]; intros existing; [done|].
  cbn [fold_left fst snd]. apply NoDup_cons in Hnd as [Hx Hnd]. rewrite IH by done.
  rewrite assoc_dict_set. cbn. destruct (String.eqb_spec x k) as [->|Hne]; [|done].
  rewrite (proj2 (assoc_none k added)) by done. done.
Qed.

Lemma update_agrees existing added merged k v w :
  update_config existing added = Ok merged → assoc k existing = Some v → assoc k added = Some w →
  py_eqb v w = true.
Proof.
  intros [Hc _]%check_bind Hv Hw%assoc_elem_of. apply bool_decide_eq_true, map_eq_nil in Hc.
  destruct (py_eqb v w) eqn:E; [done|].
  assert ((k, w) ∈ ([] : list (string * json))) as []%elem_of_nil.
  rewrite <-Hc. apply list_elem_of_In, filter_In. split; [by apply list_elem_of_In|].
  cbn. by rewrite Hv, E.
Qed.

Lemma elem_of_remove_key {A} k x (kvs : list (string * A)) : x ∈ keys (remove_key k kvs) → x ∈ keys kvs.
Proof.
  rewrite !assoc_is_Some. destruct (decide (k = x)) as [<-|];
    [rewrite assoc_remove_key_eq; by intros []|by rewrite assoc_remove_key].
Qed.

Lemma remove_key_nodup {A} k (kvs : list (string * A)) : NoDup (keys kvs) → NoDup (keys (remove_key k kvs)).
Proof.
  induction kvs as [|[x v] kvs IH]; [done|]. intros [Hx Hnd]%NoDup_cons. apply IH in Hnd.
  unfold remove_key in *. cbn. destruct (negb _); [|done].
  apply NoDup_cons. split; [|done]. intros Hin. by apply (elem_of_remove_key k x kvs) in Hin.
Qed.

(** What is merged of a plan's configuration. *)
Lemma mechanism_ok additional :
  let mechanism : list (string * json) :=
    remove_key "experiment_mode" (remove_key "stateaxis_mod" additional) in
  assoc "stateaxis_mod" mechanism = None
  ∧ (∀ k, k ≠ "stateaxis_mod" → k ≠ "experiment_mode" → assoc k mechanism = assoc k additional)
  ∧ (NoDup (keys additional) → NoDup (keys mechanism)).
Proof.
  cbn. split_and!.
  - rewrite assoc_remove_key by done. apply assoc_remove_key_eq.
  - intros k H1 H2. by rewrite !assoc_remove_key by done.
  - intros Hnd. by do 2 apply remove_key_nodup.
Qed.

(** What is left of a configuration. *)
Lemma without_bindings_ok config :
  assoc "stateaxis_mod" (without_bindings config) = None
  ∧ assoc "stateaxis_mods" (without_bindings config) = None
  ∧ ∀ k, k ∉ reserved → assoc k (without_bindings config) = assoc k config.
Proof.
  unfold without_bindings. split_and!.
  - rewrite assoc_remove_key by done. destruct (truthy _);
      [rewrite assoc_remove_key by done|]; apply assoc_remove_key_eq.
  - apply assoc_remove_key_eq.
  - unfold reserved. intros k Hk. rewrite assoc_remove_key by set_solver.
    destruct (truthy _); rewrite ?assoc_remove_key by set_solver; done.
Qed.

Lemma elem_of_dict_set {A} i (v : A) k w d :
  (i, v) ∈ dict_set k w d → (i = k ∧ v = w) ∨ (i, v) ∈ d.
Proof.
  induction d as [|[x y] d IH]; cbn [dict_set].
  - rewrite list_elem_of_singleton. intros [= -> ->]. by left.
  - destruct (String.eqb_spec x k) as [->|]; rewrite !elem_of_cons; [|naive_solver].
    intros [[= -> ->]|?]; naive_solver.
Qed.

Lemma same_put_back kvs mode :
  assoc "experiment_mode" kvs = Some mode →
  same_members (JObj (dict_set "experiment_mode" mode (remove_key "experiment_mode" kvs))) (JObj kvs).
Proof.
  intros Hm. eexists _, _. split_and!; [done..|]. intros k. rewrite assoc_dict_set.
  destruct (String.eqb_spec "experiment_mode" k) as [<-|]; [done|by apply assoc_remove_key].
Qed.

Lemma read_many bindings rest :
  assoc "stateaxis_mod" rest = None →
  stateaxis_bindings (dict_set "stateaxis_mods" (JObj bindings) rest) = Ok bindings.
Proof. intros Hmod. unfold stateaxis_bindings, get. by rewrite !assoc_dict_set, Hmod. Qed.

Lemma read_single i kvs mode rest :
  get "mod_id" kvs = JStr i → assoc "stateaxis_mods" rest = None →
  stateaxis_bindings (dict_set "stateaxis_mod" (JObj (remove_key "experiment_mode" kvs))
                        (dict_set "experiment_mode" mode rest))
  = Ok [(i, JObj (dict_set "experiment_mode" mode (remove_key "experiment_mode" kvs)))].
Proof.
  intros Hi Hmods. unfold stateaxis_bindings, get. rewrite !assoc_dict_set, Hmods. cbn [String.eqb].
  unfold get in Hi.
  assert (assoc "mod_id" (remove_key "experiment_mode" kvs) = Some (JStr i)) as Hi'.
  { rewrite assoc_remove_key by done. by destruct (assoc "mod_id" kvs); cbn in *; subst. }
  assert (truthy (JObj (remove_key "experiment_mode" kvs)) = true) as Ht.
  { by destruct (remove_key "experiment_mode" kvs). }
  cbn -[truthy remove_key dict_set assoc]. by rewrite Ht, Hi'.
Qed.

(** How a host configuration holds bindings: the legacy fields for one, the table otherwise. *)
Definition laid_out (config bindings : list (string * json)) : Prop :=
  match bindings with
  | [(i, v)] =>
      assoc "stateaxis_mods" config = None
      ∧ ∃ kvs, assoc "stateaxis_mod" config = Some (JObj kvs) ∧ get "mod_id" kvs = JStr i
          ∧ assoc "experiment_mode" kvs = None ∧ is_Some (assoc "experiment_mode" config)
          ∧ same_members v (JObj (dict_set "experiment_mode" (get "experiment_mode" config) kvs))
  | _ => assoc "stateaxis_mod" config = None
         ∧ assoc "stateaxis_mods" config = Some (JObj bindings)
  end.

(** Written bindings are read back. *)
Lemma write_read bindings rest merged :
  assoc "stateaxis_mod" rest = None → assoc "stateaxis_mods" rest = None →
  NoDup (keys bindings) → (∀ i v, (i, v) ∈ bindings → binding_ok i v) →
  write_bindings bindings rest = Ok merged →
  (∃ bindings', bound merged bindings' ∧ laid_out merged bindings'
     ∧ ∀ i, option_Forall2 same_members (assoc i bindings') (assoc i bindings))
  ∧ ∀ k, k ∉ reserved → assoc k merged = assoc k rest.
Proof.
  intros Hmod Hmods Hnd Hok Hw.
  assert (∀ k v, assoc k bindings = Some v → same_members v v) as Hrefl.
  { intros k v (kvs & -> & _)%assoc_elem_of%Hok. apply same_members_refl. }
  assert ((merged = dict_set "stateaxis_mods" (JObj bindings) rest
      ∧ (laid_out merged bindings ↔ assoc "stateaxis_mod" merged = None
           ∧ assoc "stateaxis_mods" merged = Some (JObj bindings)))
    ∨ ∃ i v, bindings = [(i, v)]) as [[-> Hl]|(i & v & ->)].
  { destruct bindings as [|[i v] [|b2 bs]]; [by injection Hw as <-; left| |by destruct v; injection Hw as <-; left].
    right. by eexists _, _. }
  - split.
    + exists bindings. split; [by split_and!; [apply read_many|..]|].
      split; [rewrite Hl, !assoc_dict_set; by rewrite Hmod|]. intros i.
      destruct (assoc i bindings) eqn:Ei; constructor. by eapply Hrefl.
    + intros k Hk. rewrite assoc_dict_set. destruct (String.eqb_spec "stateaxis_mods" k) as [<-|]; [|done].
      destruct Hk. unfold reserved. set_solver.
  - destruct (Hok i v) as (kvs & -> & Hi & Hm); [by left|]. cbn in Hw.
    destruct (assoc "experiment_mode" kvs) as [mode|] eqn:Em; [|by apply assoc_none in Em].
    injection Hw as <-. split.
    + eexists. split; [split_and!; [by apply read_single|apply NoDup_singleton|]|split].
      * intros j w [= -> ->]%list_elem_of_singleton. eexists. split_and!; [done|..].
        -- unfold get in *. rewrite assoc_dict_set. by rewrite assoc_remove_key.
        -- rewrite keys_dict_set. destruct (decide _); set_solver.
      * split; [by rewrite !assoc_dict_set, Hmods|]. eexists. split_and!.
        -- by rewrite assoc_dict_set.
        -- unfold get in *. by rewrite assoc_remove_key.
        -- apply assoc_remove_key_eq.
        -- rewrite !assoc_dict_set. by eexists.
        -- unfold get. rewrite !assoc_dict_set. apply same_members_refl.
      * intros j. cbn. destruct (String.eqb_spec i j); constructor. by apply same_put_back.
    + intros k Hk. rewrite !assoc_dict_set. unfold reserved in Hk.
      destruct (String.eqb_spec "stateaxis_mod" k) as [<-|]; [set_solver|].
      destruct (String.eqb_spec "experiment_mode" k) as [<-|]; [set_solver|done].
Qed.

(** C8. Composing a mod into a host configuration loses and mixes up none: the result is again
    well formed, in the legacy fields for one mod (its binding in [stateaxis_mod] and its mode
    next to it, with no table) and in the table alone for several; it has the new binding, under its own mode, and every other binding with its members; where the mod was
    bound already the binding is the same; and every other key has the plan's value, which is
    the value it had if it was set, or else keeps its own.  The manifest must not write into the
    table itself. *)
Theorem stateaxis_composed existing bs mod_id binding additional merged :
  compose_binding existing mod_id binding additional = Ok merged →
  bound existing bs → get "mod_id" binding = JStr mod_id →
  NoDup (keys additional) → "stateaxis_mods" ∉ keys additional →
  let candidate := JObj (dict_set "experiment_mode" (get "experiment_mode" additional) binding) in
  (∃ bs', bound merged bs' ∧ laid_out merged bs'
     ∧ option_Forall2 same_members (assoc mod_id bs') (Some candidate)
     ∧ (∀ i, i ≠ mod_id → option_Forall2 same_members (assoc i bs') (assoc i bs)))
  ∧ (∀ v, assoc mod_id bs = Some v → py_eqb v candidate = true)
  ∧ ∀ k, k ∉ reserved →
      assoc k merged = (match assoc k additional with Some v => Some v | None => assoc k existing end)
      ∧ ∀ v w, assoc k existing = Some v → assoc k additional = Some w → py_eqb v w = true.
Proof.
  intros Hc (Hbs & Hnd & Hok) Hi Hadd Hmods candidate. unfold compose_binding in Hc.
  rewrite Hbs in Hc. apply check_bind in Hc as [Hsame Hc].
  apply result_bind_ok in Hc as (rest & Hrest & Hw).
  destruct (without_bindings_ok existing) as (Hw1 & Hw2 & Hkeep).
  destruct (mechanism_ok additional) as (Hm1 & Hm2 & Hm3). specialize (Hm3 Hadd).
  pose proof (λ k v w, update_agrees _ _ _ k v w Hrest) as Hagree.
  pose proof (update_ok _ _ _ Hm3 Hrest) as Hr.
  apply write_read in Hw as [(bs' & Hb' & Hl & Hm) Hk].
  - split_and!.
    + exists bs'. split_and!; [done|done|..].
      * specialize (Hm mod_id). by rewrite assoc_dict_set, String.eqb_refl in Hm.
      * intros i Hne. specialize (Hm i). rewrite assoc_dict_set in Hm.
        by apply not_eq_sym, String.eqb_neq in Hne as Hne'; rewrite Hne' in Hm.
    + intros v Hv. by rewrite Hv in Hsame.
    + intros k Hnr. rewrite (Hk k Hnr), Hr, (Hkeep k Hnr).
      assert (k ≠ "stateaxis_mod" ∧ k ≠ "experiment_mode") as [H1 H2] by (unfold reserved in Hnr; set_solver).
      rewrite (Hm2 k H1 H2). split; [done|].
      intros v w Hv Hv'. apply (Hagree k); [by rewrite Hkeep|by rewrite Hm2].
  - by rewrite Hr, Hm1, Hw1.
  - rewrite Hr, Hm2, Hw2 by done. by apply assoc_none in Hmods as ->.
  - by apply dict_set_nodup.
  - intros i v [[-> ->]|Hin]%elem_of_dict_set; [|by apply Hok].
    eexists. split_and!; [done|..].
    + unfold get in *. by rewrite assoc_dict_set.
    + rewrite keys_dict_set. destruct (decide _); set_solver.
Qed.

(** ** A demonstration *)

Module StateaxisDemo.
Import CompilerTheorems.ExactVersions.

Definition research : string := "research manifest".
Definition digest : string := Sha256.sha256_hexdigest research.

Definition mod_binding (i : string) (qualified : bool) : list (string * json) :=
  [("mod_id", JStr i); ("version", JStr "1"); ("manifest_sha256", JStr digest);
   ("performance_qualified", JBool qualified)].

Definition the_manifest (binding extra : list (string * json)) : BundleManifest :=
  mkManifest "org.mod" "1.0" ">=0" []
    (mkActivation [] [] (("stateaxis_mod", JObj binding) :: extra))
    "0.3" "research_mod" (mkHost "stateaxis" "stateaxis" ">=0" None)
    (mkRuntime "python" "stateaxis" "process") "stateaxis" [] [] [] [] [].
Definition manifest : BundleManifest := the_manifest (mod_binding "m1" false) [("depth", JInt 4)].

Definition configuration : list (string * json) :=
  [("experiment_mode", JBool true); ("host_version", JStr "1.0");
   ("research_manifest_path", JStr "/r.json")].
Definition is_file (path : string) : bool := path =? "/r.json".
Definition read_bytes (path : string) : result string := Ok research.

Definition the_plan : ProviderPlan :=
  match stateaxis_plan manifest configuration true with Ok p => p | Err _ => ownership_plan
    (mkBundle "" "" "" "" manifest) end.
Definition the_check : ProviderCheck :=
  match stateaxis_check (λ _, false) is_file read_bytes manifest configuration with
  | Ok c => c
  | Err _ => mkCheck None false None None true []
  end.

Lemma stateaxis_entitled_witness :
  operation <$> actions the_plan = ["configure_experiment_launch"]
  ∧ configured the_check = true
  ∧ research_manifest_matches (λ _, false) is_file read_bytes configuration (mod_binding "m1" false).
Proof.
  destruct (stateaxis_entitled (λ _, false) is_file read_bytes manifest configuration) as [_ Hc].
  destruct (Hc the_check) as (binding & [= <-] & _ & Hm & _).
  - vm_compute. reflexivity.
  - vm_compute. reflexivity.
  - split; [vm_compute; reflexivity|]. split; [vm_compute; reflexivity|done].
Defined.

(** A configuration that binds one mod, and a second mod for it. *)
Definition existing : list (string * json) :=
  [("threads", JInt 4); ("experiment_mode", JBool true);
   ("stateaxis_mod", JObj (mod_binding "m1" false))].
Definition bs : list (string * json) :=
  [("m1", JObj (mod_binding "m1" false ++ [("experiment_mode", JBool true)]))].
Definition additional : list (string * json) :=
  [("stateaxis_mod", JObj (mod_binding "m2" true)); ("depth", JInt 2);
   ("experiment_mode", JBool false)].
Definition composed : list (string * json) :=
  match compose_binding existing "m2" (mod_binding "m2" true) additional with
  | Ok merged => merged
  | Err _ => []
  end.

Example composed_is : composed =
  [("threads", JInt 4); ("depth", JInt 2);
   ("stateaxis_mods", JObj
      [("m1", JObj (mod_binding "m1" false ++ [("experiment_mode", JBool true)]));
       ("m2", JObj (mod_binding "m2" true ++ [("experiment_mode", JBool false)]))])].
Proof. vm_compute. reflexivity. Qed.

Lemma stateaxis_composed_witness :
  ∃ bs', bound composed bs' ∧ option_Forall2 same_members (assoc "m1" bs') (assoc "m1" bs).
Proof.
  destruct (stateaxis_composed existing bs "m2" (mod_binding "m2" true) additional composed)
    as ((bs' & Hb & _ & _ & Hm) & _).
  - vm_compute. reflexivity.
  - split_and!; [vm_compute; reflexivity|by apply (bool_decide_unpack _)|].
    intros i v [= -> ->]%list_elem_of_singleton. eexists. split_and!; [done|vm_compute; reflexivity|].
    by apply (bool_decide_unpack _).
  - vm_compute. reflexivity.
  - by apply (bool_decide_unpack _).
  - by apply (bool_decide_unpack _).
  - exists bs'. split; [done|by apply Hm].
Defined.

(** A manifest that declares the table itself puts bindings of other mods, unchecked, into the
    host's configuration. *)
Example table_injected :
  _launch_additional_config
    (the_manifest (mod_binding "m1" true) [("stateaxis_mods", JObj [("m9", JStr "anything")])]) false
    = Ok [("stateaxis_mod", JObj (mod_binding "m1" true));
          ("stateaxis_mods", JObj [("m9", JStr "anything")]); ("experiment_mode", JBool false)]
  ∧ assoc "stateaxis_mods"
      match compose_binding [] "m1" (mod_binding "m1" true)
              [("stateaxis_mod", JObj (mod_binding "m1" true));
               ("stateaxis_mods", JObj [("m9", JStr "anything")]); ("experiment_mode", JBool false)] with
      | Ok merged => merged
      | Err _ => []
      end = Some (JObj [("m9", JStr "anything")]).
Proof. split; vm_compute; reflexivity. Qed.

(** The user's own [experiment_mode] is overwritten, where every other conflicting key is
    refused. *)
Example mode_overwritten :
  assoc "experiment_mode"
    match compose_binding [("experiment_mode", JBool true)] "m2" (mod_binding "m2" true) additional with
    | Ok merged => merged
    | Err _ => []
    end = Some (JBool false).
Proof. vm_compute. reflexivity. Qed.

(** A [mod_id] that is no string passes the check of the binding and fails an assertion of the
    plan, which is no error that the command line catches. *)
Example mod_id_unchecked :
  stateaxis_plan
    (the_manifest (dict_set "mod_id" (JInt 7) (mod_binding "" true)) [])
    [("runtime_qualification", JObj [("status", JStr "passed")])] true = Err AssertionError.
Proof. vm_compute. reflexivity. Qed.
End StateaxisDemo.
