(* ===== verification/EvidenceProofs.v ===== *)
(** * EvidenceProofs: what runtime evidence proves

    A status says "runtime effective" only when live processes of one launch observed every
    declared module, or an entry point; and the window of the journal that is read holds whole
    lines only, the last record among them. *)

From S2P Require Import Prelude Effects Json Sha256 JsonText JsonFacts Manifest ManifestProofs ProviderPlans PlanConflicts LifecycleProofs RuntimeEvidence.
From S2P Require ContractParser CompilerTheorems.

Local Open Scope string_scope.
Local Open Scope list_scope.

(** ** Generic lemmas *)

(** What a reader of lines keeps comes from one of them. *)
Lemma map_omap_in {A B} (f : A → result (option B)) l ys y :
  map_result f l = Ok ys → y ∈ kept ys ↔ ∃ x, x ∈ l ∧ f x = Ok (Some y).
Proof.
  intros Hm%map_result_ok. unfold kept. rewrite list_elem_of_omap. split.
  - intros (o & Ho & Hy). apply list_elem_of_lookup in Ho as [i Hi].
    destruct (Forall2_lookup_r _ _ _ _ _ Hm Hi) as (x & Hx & Hf). exists x.
    split; [by eapply list_elem_of_lookup_2|]. cbn in Hy. by subst o.
  - intros (x & Hx & Hf). apply list_elem_of_lookup in Hx as [i Hi].
    destruct (Forall2_lookup_l _ _ _ _ _ Hm Hi) as (o & Ho & Hfo). exists o.
    split; [by eapply list_elem_of_lookup_2|]. cbn. congruence.
Qed.

(** Equal dictionaries have equal members. *)
Lemma py_eqb_get l k i :
  keys_unique (JObj l) = true → keys_unique (JObj k) = true → py_eqb (JObj l) (JObj k) = true →
  py_eqb (get i l) (get i k) = true.
Proof.
  rewrite !keys_unique_obj, py_eqb_obj. intros [Hl _] [Hk _] [Hlen Hall].
  rewrite Forall_forall in Hall. unfold get. destruct (assoc i l) as [v|] eqn:El.
  - apply assoc_elem_of in El. destruct (Hall _ El) as (w & Hw & Hvw). cbn in Hw, Hvw. by rewrite Hw.
  - destruct (assoc i k) as [w|] eqn:Ek; [|done].
    assert (i ∈ keys l) as [? ?]%assoc_is_Some; [|congruence].
    apply (same_size_keys l k Hl Hlen); [|apply assoc_is_Some; by eexists].
    intros j (x & Hx)%assoc_is_Some. apply assoc_elem_of in Hx.
    destruct (Hall _ Hx) as (y & Hy & _). apply assoc_is_Some. by eexists.
Qed.

(** ** Reading the journal *)

Definition ends_line (s : string) : Prop :=
  s = EmptyString ∨ ∃ t, s = t +:+ String newline EmptyString.

(** The text of some lines. *)
Fixpoint join (ls : list string) : string :=
  match ls with s :: ls' => s +:+ join ls' | [] => EmptyString end.

Lemma join_app l k : join (l ++ k) = join l +:+ join k.
Proof. induction l as [|s l IH]; [done|]. cbn. by rewrite IH, str_app_assoc. Qed.

Lemma readlines_join s : join (readlines s) = s.
Proof.
  induction s as [|c s IH]; [done|]. cbn [readlines]. destruct (Ascii.eqb c newline).
  - cbn. by rewrite IH.
  - destruct (readlines s) as [|l ls]; cbn [join] in *; rewrite <-IH; by rewrite ?str_app_nil_r.
Qed.

(** Lines of a text that ends a line, and of what follows it. *)
Lemma readlines_app s t : ends_line s → readlines (s +:+ t) = readlines s ++ readlines t.
Proof.
  intros Hs. assert (s = EmptyString ∨ ∃ u, s = u +:+ String newline EmptyString) as H by done.
  clear Hs. destruct H as [->|[u ->]]; [done|].
  induction u as [|c u IH]; [done|]. rewrite !str_app_cons. cbn [readlines].
  destruct (Ascii.eqb c newline); [by rewrite IH|]. rewrite IH.
  destruct (readlines (u +:+ String newline EmptyString)) as [|l ls] eqn:E; [|done].
  pose proof (readlines_join (u +:+ String newline EmptyString)) as Hj. rewrite E in Hj.
  by destruct u.
Qed.

Lemma readlines_nil s : readlines s = [] ↔ s = EmptyString.
Proof.
  split; [|by intros ->]. intros E. pose proof (readlines_join s) as Hj. by rewrite E in Hj.
Qed.

(** Dropping text in front only cuts the first line that is left. *)
Lemma readlines_suffix pre w :
  w ≠ EmptyString → ∃ x xs, readlines (pre +:+ w) = x :: xs ++ tail (readlines w).
Proof.
  intros Hw. induction pre as [|c pre IH].
  - change (EmptyString +:+ w) with w.
    destruct (readlines w) as [|l ls] eqn:E; [by apply readlines_nil in E|]. by exists l, [].
  - destruct IH as (x & xs & IH). rewrite str_app_cons. cbn [readlines]. rewrite IH. destruct (Ascii.eqb c newline).
    + by exists (String c EmptyString), (x :: xs).
    + by exists (String c x), xs.
Qed.

Lemma drop_chars_split n s : ∃ pre, s = pre +:+ drop_chars n s
  ∧ String.length (drop_chars n s) = (String.length s - n)%nat.
Proof.
  revert s. induction n as [|n IH]; intros s; [exists EmptyString; split; [done|cbn; lia]|].
  destruct s as [|c s]; [by exists EmptyString|]. destruct (IH s) as (pre & E & Hl).
  exists (String c pre). cbn [drop_chars String.length]. rewrite str_app_cons, <-E. done.
Qed.

Lemma drop_chars_app n s t :
  (n ≤ String.length s)%nat → drop_chars n (s +:+ t) = drop_chars n s +:+ t.
Proof.
  revert s. induction n as [|n IH]; intros [|c s] Hn; try done; cbn in Hn; [lia|].
  rewrite str_app_cons. apply IH. lia.
Qed.

Lemma ends_line_drop n s : (n < String.length s)%nat → ends_line s → ends_line (drop_chars n s).
Proof.
  intros Hn [->|[t ->]]; [cbn in Hn; lia|]. right.
  assert (n ≤ String.length t)%nat.
  { rewrite str_length_app in Hn. cbn in Hn. lia. }
  exists (drop_chars n t). by apply drop_chars_app.
Qed.

(** The bounded window of the journal shows whole lines only: each line that is read is a
    line of the file, never a cut one; and a record appended to a journal that ends a line is
    read, as the last one, when it is shorter than the window. *)
Theorem journal_window limit raw line :
  (∀ l, l ∈ tail_lines limit raw → l ∈ readlines raw)
  ∧ (ends_line raw → readlines line = [line] → (String.length line < limit)%nat →
     last (tail_lines limit (raw +:+ line)) = Some line).
Proof.
  split.
  - intros l. unfold tail_lines. destruct (drop_chars_split (String.length raw - limit) raw)
      as (pre & E & _). destruct (limit <? String.length raw)%nat eqn:Hs; intros Hl.
    + destruct (decide (drop_chars (String.length raw - limit) raw = EmptyString)) as [E0|Hne].
      { rewrite E0 in Hl. by apply elem_of_nil in Hl. }
      destruct (readlines_suffix pre _ Hne) as (x & xs & Er). rewrite <-E in Er. rewrite Er.
      right. apply elem_of_app. by right.
    + apply Nat.ltb_ge in Hs. replace (String.length raw - limit)%nat with 0%nat in Hl by lia. done.
  - intros He H1 Hlen. unfold tail_lines. rewrite str_length_app.
    destruct (limit <? _)%nat eqn:Hs.
    + apply Nat.ltb_lt in Hs. set (n := (_ + _ - limit)%nat).
      assert (n < String.length raw)%nat by (unfold n; lia).
      rewrite drop_chars_app by lia. rewrite readlines_app by by apply ends_line_drop.
      rewrite H1. destruct (drop_chars_split n raw) as (pre & _ & Hl).
      destruct (readlines (drop_chars n raw)) as [|x xs] eqn:E; cbn; [|by apply last_snoc].
      apply readlines_nil in E. rewrite E in Hl. cbn in Hl. lia.
    + apply Nat.ltb_ge in Hs.
      replace (String.length raw + String.length line - limit)%nat with 0%nat by lia.
      cbn [drop_chars]. rewrite readlines_app, H1 by done. by apply last_snoc.
Qed.

(** ** Components *)

Lemma valid_component_id i :
  valid_component (JObj i) = true → ∃ s, get "component_id" i = JStr s.
Proof.
  cbn [valid_component]. unfold same_keys. rewrite !andb_true_iff, !forallb_forall.
  intros [[[[_ Hin] _] Hs] _].
  assert (In "component_id" component_fields) as [v Ev]%Hin%bool_decide_eq_true%assoc_is_Some.
  { cbn. tauto. }
  unfold get. rewrite Ev. apply assoc_elem_of, list_elem_of_In, Hs in Ev. cbn in Ev.
  destruct v; try done. by eexists.
Qed.

(** Equal components have one identifier. *)
Lemma id_of_eq v w :
  keys_unique v = true → keys_unique w = true → valid_component w = true →
  py_eqb v w = true → id_of v = id_of w.
Proof.
  intros Hv Hu Hw He. destruct w as [| | | | |k]; try done. destruct v as [| | | | |l]; try done.
  pose proof (py_eqb_get l k "component_id" Hv Hu He) as Hg. cbn [id_of].
  destruct (valid_component_id k Hw) as [s Es]. rewrite Es in *. by rewrite (py_eqb_is_str _ _ Hg).
Qed.

(** ** Module evidence *)

Section Evidence.
Context `{Sha256} (machine : Machine) (decode : string → option json).

(** [json.loads] gives dictionaries, with one entry for each key. *)
Context (decode_unique : ∀ line v, decode line = Some v → keys_unique v = true).

Lemma records_unique journal records r :
  _module_records decode journal = Ok records → r ∈ records → keys_unique (JObj r) = true.
Proof.
  unfold _module_records. intros (ys & Hm & [= <-])%result_bind_ok Hr.
  apply (map_omap_in _ _ _ _ Hm) in Hr as (line & _ & Hl). unfold read_record in Hl.
  destruct (decode line) as [v|] eqn:E; [|done]. apply decode_unique in E.
  destruct v as [| | | | |item]; try done. apply result_bind_ok in Hl as ([] & _ & [= <-]); done.
Qed.

Lemma get_unique k kvs : keys_unique (JObj kvs) = true → keys_unique (get k kvs) = true.
Proof.
  intros [_ Hu]%keys_unique_obj. unfold get. destruct (assoc k kvs) as [v|] eqn:E; [|done].
  apply assoc_elem_of in E. rewrite Forall_forall in Hu. by apply (Hu _ E).
Qed.

(** A valid event of the launch is one of a live process. *)
Lemma observe_loop_ok i binding selected records observed pids obs ps :
  observe_loop machine i binding selected records observed pids = Some (obs, ps) →
  (∀ e, e ∈ records → concerns i binding e = true →
     valid_module_event machine binding selected (get "component" e) e = true)
  ∧ ∀ x, x ∈ obs → x ∈ observed
      ∨ ∃ e, e ∈ records ∧ concerns i binding e = true ∧ x = id_of (get "component" e).
Proof.
  revert observed pids. induction records as [|e records IH]; intros observed pids; cbn.
  - intros [= <- <-]. split; [set_solver|auto].
  - destruct (concerns i binding e) eqn:Hc.
    + destruct (valid_module_event _ _ _ _ _) eqn:Hv; [|done]. intros Ho.
      apply IH in Ho as [Hall Hin]. split.
      * intros e' [->|He']%elem_of_cons Hc'; [done|by apply Hall].
      * intros x [Hx|(e' & He' & ?)]%Hin; [|right; exists e'; split; [by right|done]].
        apply elem_of_app in Hx as [Hx|Hx]; [by left|]. apply list_elem_of_singleton in Hx as ->.
        right. exists e. split; [by left|done].
    + intros Ho. apply IH in Ho as [Hall Hin]. split.
      * intros e' [->|He']%elem_of_cons Hc'; [congruence|by apply Hall].
      * intros x [Hx|(e' & He' & ?)]%Hin; [by left|right; exists e'; split; [by right|done]].
Qed.

(** The components a bundle must have observed. *)
Definition expected_item (bundle : InstalledBundle) (item : json) : Prop :=
  keys_unique item = true ∧ ∃ c, c ∈ components (manifest bundle) ∧ id_of item = component_id c.

Lemma module_component_item bundle sha c v :
  module_component bundle sha c = Ok (Some v) → keys_unique v = true ∧ id_of v = component_id c.
Proof.
  unfold module_component. destruct (selected_contracts c) as [|k ks]; [done|].
  intros (? & _ & Hr)%result_bind_ok. by apply result_bind_ok in Hr as (role & _ & [= <-]).
Qed.

Lemma module_items (f : BundleComponent → result (option json)) cs ys :
  (∀ c v, f c = Ok (Some v) → id_of v = component_id c) →
  map_result f cs = Ok ys → id_of <$> kept ys `sublist_of` component_id <$> cs.
Proof.
  intros Hf Hm%map_result_ok. induction Hm as [|c o cs ys Hc _ IH]; [done|].
  destruct o as [v|]; cbn; [|by apply sublist_cons]. rewrite (Hf c v Hc). by apply sublist_skip.
Qed.

Lemma expected_ok read_bytes bundle expected payload `{ContractParser.Packaging} :
  parse_manifest payload = Ok (manifest bundle) →
  _module_components read_bytes bundle = Ok expected →
  Forall (λ item, keys_unique item = true) expected ∧ NoDup (id_of <$> expected).
Proof.
  intros Hp%manifest_parsed_ok. unfold _module_components. case_match.
  2:{ intros [= <-]. split; constructor. }
  intros (raw & _ & He)%result_bind_ok. apply result_bind_ok in He as (ys & Hm & [= <-]). split.
  - apply Forall_forall. intros item Hi. apply (map_omap_in _ _ _ _ Hm) in Hi as (c & _ & Hc).
    by apply module_component_item in Hc as [? _].
  - eapply sublist_NoDup; [|apply (module_items _ _ _ ltac:(intros c v Hc; by eapply module_component_item) Hm)].
    apply (mo_components _ Hp).
Qed.

Definition unique (v : json) : Prop := keys_unique v = true.

Lemma binding_components journal records binding :
  _module_records decode journal = Ok records → binding ∈ records →
  Forall unique (component_list binding).
Proof.
  intros Hr Hb. pose proof (records_unique _ _ _ Hr Hb) as Hu.
  pose proof (get_unique "components" _ Hu) as Hc. unfold component_list.
  destruct (get "components" binding); try constructor. by apply keys_unique_arr in Hc.
Qed.

(** Two sorted lists that are equal have equal members. *)
Lemma sorted_members selected expected item :
  py_eqb (JArr (sort_by id_of str_leb selected)) (JArr (sort_by id_of str_leb expected)) = true →
  item ∈ selected → ∃ x, x ∈ expected ∧ py_eqb item x = true.
Proof.
  rewrite py_eqb_arr. intros Hall Hi. rewrite <-(sort_by_perm id_of str_leb) in Hi.
  apply list_elem_of_lookup in Hi as [n Hn].
  destruct (Forall2_lookup_l _ _ _ _ _ Hall Hn) as (x & Hx & He). exists x. split; [|done].
  rewrite <-(sort_by_perm id_of str_leb). by eapply list_elem_of_lookup_2.
Qed.

(** A process that is still the one that was recorded: on this machine, neither a zombie nor
    dead, and started at the recorded tick. *)
Definition alive (process : json) : Prop :=
  ∃ p pid raw state ticks, process = JObj p
    ∧ get "pid" p = JInt pid ∧ (0 < pid)%Z ∧ get "host" p = JStr (gethostname machine)
    ∧ proc_stat machine pid = Some raw
    ∧ words (after_last ")" raw) !! 0%nat = Some state ∧ state ∉ ["Z"; "X"]
    ∧ words (after_last ")" raw) !! 19%nat = Some ticks
    ∧ get "start_identity" p = JStr ("pid:" +:+ z_str pid +:+ ":start_ticks:" +:+ ticks).

Lemma current_alive process : _process_is_current machine process = true → alive process.
Proof.
  unfold _process_is_current, alive. destruct process as [| | | | |p]; try done.
  destruct (get "pid" p) as [| |pid| | |] eqn:Epid; try done.
  rewrite !andb_true_iff, !bool_decide_eq_true. intros [[[Hp Hh] Hne] Hs].
  unfold _start_identity in Hs.
  destruct (proc_stat machine pid) as [raw|] eqn:Er; [|by rewrite Hs in Hne]. cbn [mbind option_bind] in Hs.
  destruct (words (after_last ")" raw) !! 0%nat) as [st|] eqn:E0; cbn in Hs; [|by rewrite Hs in Hne].
  destruct (bool_decide (st ∈ ["Z"; "X"])) eqn:Ez; [by rewrite Hs in Hne|].
  destruct (words (after_last ")" raw) !! 19%nat) as [ticks|] eqn:E19; cbn in Hs; [|by rewrite Hs in Hne].
  destruct (int_of_string ticks); cbn in Hs; [|by rewrite Hs in Hne].
  exists p, pid, raw, st, ticks. apply bool_decide_eq_false in Ez. split_and!; try done. lia.
Qed.

Definition some_text (v : json) : Prop := ∃ s, v = JStr s ∧ s ≠ "".

Lemma nonempty_text v : nonempty v = true → some_text v.
Proof.
  destruct v as [| | |s| |]; try done. cbn. intros Hs%negb_true_iff%String.eqb_neq. by exists s.
Qed.

(** A launch binding with all its fields, under the digest of the others. *)
Definition intact (binding : list (string * json)) : Prop :=
  (∀ k, k ∈ keys binding ↔ k ∈ binding_fields)
  ∧ get "schema" binding = JStr _LAUNCH_SCHEMA
  ∧ some_text (get "plan_id" binding) ∧ some_text (get "launch_id" binding)
  ∧ (∀ item, item ∈ component_list binding → ∃ i, item = JObj i
       ∧ (∀ k, k ∈ keys i ↔ k ∈ component_fields) ∧ (∀ k v, (k, v) ∈ i → some_text v)
       ∧ ∃ k role, get "contract" i = JStr k ∧ assoc k _MODULE_ROLES = Some role
           ∧ get "role" i = JStr role)
  ∧ get "binding_digest" binding = JStr (sha256_hexdigest (ascii_dumps
      (JObj (List.filter (λ kv, negb (kv.1 =? "binding_digest")) binding)))).

Lemma same_keys_members {A} fields (kvs : list (string * A)) :
  same_keys fields kvs = true → ∀ k, k ∈ keys kvs ↔ k ∈ fields.
Proof.
  unfold same_keys. rewrite !andb_true_iff, !forallb_forall. intros [[_ H1] H2] k.
  split; intros Hk%list_elem_of_In; [apply H2 in Hk|apply H1 in Hk]; by apply bool_decide_eq_true in Hk.
Qed.

Lemma valid_component_ok item :
  valid_component item = true → ∃ i, item = JObj i
    ∧ (∀ k, k ∈ keys i ↔ k ∈ component_fields) ∧ (∀ k v, (k, v) ∈ i → some_text v)
    ∧ ∃ k role, get "contract" i = JStr k ∧ assoc k _MODULE_ROLES = Some role
        ∧ get "role" i = JStr role.
Proof.
  destruct item as [| | | | |i]; try done. cbn [valid_component]. rewrite !andb_true_iff.
  intros [[Hk Hs] Hr]. exists i. split; [done|]. split; [by apply same_keys_members|]. split.
  - intros k v Hin. apply nonempty_text. rewrite forallb_forall in Hs.
    by apply list_elem_of_In, Hs in Hin.
  - destruct (get "contract" i) as [| | |k| |] eqn:Ec; try done.
    destruct (assoc k _MODULE_ROLES) as [role|] eqn:Ea; [|done]. exists k, role.
    by apply bool_decide_eq_true in Hr.
Qed.

Lemma valid_binding_ok binding :
  _valid_binding machine binding = true → intact binding ∧ alive (get "manager_process" binding).
Proof.
  unfold _valid_binding, intact, _digest. rewrite !andb_true_iff, !bool_decide_eq_true.
  intros [[[[[[[[Hk Hsch] Hp] Hl] _] _] Hc] Hd] Hm].
  split; [|by apply current_alive]. split; [by apply same_keys_members|].
  split_and!; try done; try by apply nonempty_text.
  intros item Hi. apply valid_component_ok. rewrite forallb_forall in Hc. by apply Hc, list_elem_of_In.
Qed.

Lemma find_first {A} (f : A → bool) l x :
  List.find f l = Some x →
  ∃ before after, l = before ++ x :: after ∧ f x = true ∧ ∀ y, y ∈ before → f y = false.
Proof.
  induction l as [|y l IH]; cbn; [done|]. destruct (f y) eqn:Ef.
  - intros [= ->]. exists [], l. split_and!; [done..|]. by intros y []%elem_of_nil.
  - intros (before & after & -> & Hf & Hb)%IH. exists (y :: before), after. split_and!; [done..|].
    by intros z [->|?]%elem_of_cons; [|apply Hb].
Qed.

(** The binding of the extension's last launch. *)
Definition mentions (i : string) (item : list (string * json)) : Prop :=
  get "schema" item = JStr _LAUNCH_SCHEMA
  ∧ ∃ c, JObj c ∈ component_list item ∧ get "extension_id" c = JStr i.
Definition last_launch (i : string) (records : list (list (string * json)))
    (binding : list (string * json)) : Prop :=
  ∃ before after, records = before ++ binding :: after ∧ mentions i binding
    ∧ ∀ r, r ∈ after → ¬ mentions i r.

Lemma of_extension_ok i c : of_extension i c = true ↔ ∃ kvs, c = JObj kvs ∧ get "extension_id" kvs = JStr i.
Proof.
  destruct c as [| | | | |kvs]; cbn; [split; [done|by intros (? & [=] & _)]..|].
  rewrite bool_decide_eq_true. naive_solver.
Qed.

Lemma launch_of_iff i item : launch_of i item = true ↔ mentions i item.
Proof.
  unfold launch_of, mentions. rewrite andb_true_iff, bool_decide_eq_true, existsb_exists.
  setoid_rewrite of_extension_ok. setoid_rewrite <-list_elem_of_In. naive_solver.
Qed.

Lemma find_last_launch i records binding :
  find_last (launch_of i) records = Some binding → last_launch i records binding.
Proof.
  unfold last_launch, find_last. intros (before & after & E & Hf & Hb)%find_first.
  exists (rev after), (rev before). split_and!.
  - rewrite <-(rev_involutive records), E, rev_app_distr. cbn. by rewrite <-app_assoc.
  - by apply launch_of_iff.
  - intros r Hr%list_elem_of_In%in_rev%list_elem_of_In Hm%launch_of_iff.
    rewrite (Hb _ Hr) in Hm. done.
Qed.

(** A record of this launch and extension. *)
Definition reports (i : string) (binding event : list (string * json)) : Prop :=
  get "schema" event = JStr _MODULE_SCHEMA
  ∧ py_eqb (get "binding_digest" event) (get "binding_digest" binding) = true
  ∧ ∃ c, get "component" event = JObj c ∧ get "extension_id" c = JStr i.

Lemma concerns_iff i binding event : concerns i binding event = true ↔ reports i binding event.
Proof.
  unfold concerns, reports. rewrite !andb_true_iff, bool_decide_eq_true, of_extension_ok. tauto.
Qed.

(** What an accepted event says of a component. *)
Definition witnesses (b : InstalledBundle) (binding event : list (string * json)) (item : json) : Prop :=
  reports (ib_id b) binding event
  ∧ py_eqb (get "component" event) item = true
  ∧ py_eqb (get "plan_id" event) (get "plan_id" binding) = true
  ∧ py_eqb (get "launch_id" event) (get "launch_id" binding) = true
  ∧ get "event" event = JStr "effective"
  ∧ positive (get "request_count" event) = true
  ∧ positive (get "output_token_count" event) = true
  ∧ alive (get "process" event).

Lemma valid_event_witnesses b binding selected event item :
  concerns (ib_id b) binding event = true →
  valid_module_event machine binding selected (get "component" event) event = true →
  py_eqb (get "component" event) item = true → witnesses b binding event item.
Proof.
  rewrite concerns_iff. unfold valid_module_event, witnesses. cbn [forallb].
  rewrite !andb_true_iff, !bool_decide_eq_true. intros Hc Hv He.
  split_and!; try done; try tauto. apply current_alive. tauto.
Qed.

(** An accepted event is of one of the expected components, with its identifier. *)
Lemma event_component binding event selected expected :
  Forall unique selected → Forall unique expected →
  forallb valid_component selected = true → unique (get "component" event) →
  py_eqb (JArr (sort_by id_of str_leb selected)) (JArr (sort_by id_of str_leb expected)) = true →
  valid_module_event machine binding selected (get "component" event) event = true →
  ∃ x, x ∈ expected ∧ py_eqb (get "component" event) x = true
     ∧ id_of x = id_of (get "component" event).
Proof.
  intros Hs Hx Hv Hu Hsort He. unfold valid_module_event in He. rewrite !andb_true_iff in He.
  destruct He as [[[_ Hin] _] _]. apply existsb_exists in Hin as (z & Hz%list_elem_of_In & Hcz).
  destruct (sorted_members _ _ _ Hsort Hz) as (x & Hxe & Hzx).
  rewrite Forall_forall in Hs, Hx. rewrite forallb_forall in Hv.
  pose proof (Hs _ Hz) as Huz. pose proof (Hx _ Hxe) as Hux.
  apply list_elem_of_In in Hz. pose proof (Hv _ Hz) as Hvz.
  exists x. split; [done|]. split; [exact (py_eqb_trans _ z _ Hu Huz Hux Hcz Hzx)|].
  rewrite (id_of_eq _ z Hu Huz Hvz Hcz). exact (id_of_eq x z Hux Huz Hvz (py_eqb_sym _ _ Huz Hux Hzx)).
Qed.

(** Evidence of modules rests on live events of one launch. *)
Lemma module_evidence_sound b journal expected text :
  Forall unique expected → NoDup (id_of <$> expected) →
  _module_effective_evidence machine decode journal b expected = Ok (Some text) →
  ∃ records binding,
    _module_records decode journal = Ok records ∧ last_launch (ib_id b) records binding
    ∧ intact binding ∧ alive (get "manager_process" binding)
    ∧ (∀ item, item ∈ expected → ∃ event, event ∈ records ∧ witnesses b binding event item)
    ∧ ∀ event, event ∈ records → reports (ib_id b) binding event → alive (get "process" event).
Proof.
  intros Hu Hnd. unfold _module_effective_evidence. intros (records & Hr & Hres)%result_bind_ok.
  destruct (find_last _ records) as [binding|] eqn:Hf; [|done].
  destruct (_valid_binding machine binding) eqn:Hv; [|done]. cbn [negb] in Hres.
  set (selected := List.filter _ (component_list binding)) in *.
  destruct (py_eqb _ _) eqn:Hsort; [|done]. cbn [negb] in Hres.
  destruct (observe_loop _ _ _ _ _ _ _) as [[observed pids]|] eqn:Ho; [|done].
  destruct (bool_decide (list_to_set observed = _)) eqn:Hobs; [|done]. clear Hres.
  apply bool_decide_eq_true in Hobs. apply observe_loop_ok in Ho as [Hall Hin].
  pose proof (find_last_Some _ _ _ Hf) as [Hb _].
  pose proof (binding_components _ _ _ Hr Hb) as Hcu.
  destruct (valid_binding_ok _ Hv) as [Hintact Halive].
  exists records, binding. split_and!; try done; [by apply find_last_launch|..].
  - intros item Hi.
    assert (id_of item ∈ observed) as Hid.
    { rewrite <-(elem_of_list_to_set (C:=gset string)), Hobs, elem_of_list_to_set.
      by apply list_elem_of_fmap_2. }
    apply Hin in Hid as [[]%elem_of_nil|(event & He & Hc & Hid)]. exists event. split; [done|].
    pose proof (Hall _ He Hc) as Hve.
    destruct (event_component binding event selected expected) as (x & Hx & Hex & Hidx); try done.
    + apply Forall_forall. intros y [Hy _]%list_elem_of_In%filter_In.
      rewrite Forall_forall in Hcu. by apply Hcu, list_elem_of_In.
    + unfold _valid_binding in Hv. rewrite !andb_true_iff, !forallb_forall in Hv.
      apply forallb_forall. intros y [Hy _]%filter_In. by apply Hv.
    + apply get_unique. by eapply records_unique.
    + assert (x = item) as <- by (eapply key_inj_of_nodup; [exact Hnd|done|done|congruence]).
      by eapply valid_event_witnesses.
  - intros event He Hc%concerns_iff. pose proof (Hall _ He Hc) as Hve.
    unfold valid_module_event in Hve. rewrite !andb_true_iff in Hve. apply current_alive. tauto.
Qed.

(** ** Declared components *)

(** A component with a module's contract, as evidence names it. *)
Definition described (b : InstalledBundle) (sha : string) (c : BundleComponent) (k role : string)
    : json :=
  JObj [("extension_id", JStr (ib_id b)); ("extension_version", JStr (bundle_version (manifest b)));
    ("manifest_sha256", JStr sha); ("component_id", JStr (component_id c)); ("contract", JStr k);
    ("implementation_ref", JStr (implementation_ref c)); ("role", JStr role)].

(** An active module of the manifest is the component's implementation. *)
Definition has_active_carrier (b : InstalledBundle) (c : BundleComponent) : Prop :=
  ∃ carrier, carrier ∈ implementation (manifest b) ∧ carrier_type carrier = "python_module"
    ∧ get "status" (attributes carrier) = JStr "active"
    ∧ implementation_ref c = py_str (get "module" (attributes carrier)) +:+ ":"
                             +:+ py_str (get "object" (attributes carrier)).

Lemma module_component_ok b sha c k role o :
  module_component b sha c = Ok o → k ∈ contracts c → assoc k _MODULE_ROLES = Some role →
  o = Some (described b sha c k role) ∧ has_active_carrier b c.
Proof.
  intros Hm Hk Hr.
  assert (k ∈ selected_contracts c) as Hsel.
  { unfold selected_contracts. apply elem_of_remove_dups, list_elem_of_In, filter_In.
    split; [by apply list_elem_of_In|]. apply bool_decide_eq_true, assoc_is_Some. by eexists. }
  unfold module_component in Hm. destruct (selected_contracts c) as [|k' ks]; [by apply elem_of_nil in Hsel|].
  apply check_bind in Hm as [Hone Hm]. rewrite andb_true_iff, !bool_decide_eq_true in Hone.
  destruct Hone as [-> Hact]. apply list_elem_of_singleton in Hsel as <-. rewrite Hr in Hm.
  injection Hm as <-. split; [done|]. unfold active_references in Hact.
  apply list_elem_of_fmap in Hact as (carrier & He & Hin%list_elem_of_In%filter_In).
  destruct Hin as [Hin Hc]. apply andb_true_iff in Hc as [Ht%String.eqb_eq Hs%bool_decide_eq_true].
  exists carrier. split; [by apply list_elem_of_In|]. done.
Qed.

(** The expected components are those of the manifest. *)
Lemma module_components_ok read_bytes b expected c0 k0 :
  _module_components read_bytes b = Ok expected →
  c0 ∈ components (manifest b) → k0 ∈ contracts c0 → k0 ∈ module_class_contracts →
  expected ≠ [] ∧ ∃ raw, read_bytes (manifest_path b) = Ok raw
    ∧ ∀ c k role, c ∈ components (manifest b) → k ∈ contracts c → assoc k _MODULE_ROLES = Some role →
        described b (sha256_hexdigest raw) c k role ∈ expected ∧ has_active_carrier b c.
Proof.
  intros Hx Hc0 Hk0 Hm0. unfold _module_components in Hx.
  assert (existsb (λ c, existsb (λ k, bool_decide (k ∈ module_class_contracts)) (contracts c))
       (components (manifest b)) = true) as Hex.
  { apply existsb_exists. exists c0. split; [by apply list_elem_of_In|]. apply existsb_exists.
    exists k0. split; [by apply list_elem_of_In|by apply bool_decide_eq_true]. }
  rewrite Hex in Hx. apply result_bind_ok in Hx as (raw & Hraw & Hx).
  apply result_bind_ok in Hx as (ys & Hm & [= <-]).
  assert (∀ c k role, c ∈ components (manifest b) → k ∈ contracts c → assoc k _MODULE_ROLES = Some role →
    described b (sha256_hexdigest raw) c k role ∈ kept ys ∧ has_active_carrier b c) as Hall.
  { intros c k role Hc Hk Hr. pose proof (proj1 (map_result_ok _ _ _) Hm) as HF.
    pose proof Hc as [n Hn]%list_elem_of_lookup.
    destruct (Forall2_lookup_l _ _ _ _ _ HF Hn) as (o & _ & Ho).
    destruct (module_component_ok _ _ _ _ _ _ Ho Hk Hr) as [-> Hcar]. split; [|done].
    apply (map_omap_in _ _ _ _ Hm). by exists c. }
  split; [|by exists raw].
  assert (is_Some (assoc k0 _MODULE_ROLES)) as [role Hrole].
  { apply assoc_is_Some. revert Hm0. unfold module_class_contracts. cbn. set_solver. }
  destruct (Hall c0 k0 role Hc0 Hk0 Hrole) as [Hin _]. intros E. rewrite E in Hin.
  by apply elem_of_nil in Hin.
Qed.

(** C18.  An extension that declares a scheduler or worker class is reported runtime effective only
    when it is enabled and the journal holds a launch binding of it, the last one, with the digest
    of its other fields, and whose Manager is alive, such that every component of the manifest
    with the contract of a module has an active carrier there and was observed, under the
    extension's version, the digest of the manifest's bytes, its own identifier, contract, role
    and implementation, with positive counts, by a process that is still alive; and no process
    that reported for that launch has exited. *)
Theorem module_effective_sound find_provider read_bytes journal payload b e inc s c0 k0
    `{ContractParser.Packaging} :
  parse_manifest payload = Ok (manifest b) →
  c0 ∈ components (manifest b) → k0 ∈ contracts c0 → k0 ∈ module_class_contracts →
  status_for find_provider (runtime_effective_evidence machine decode read_bytes journal)
    b e inc = Ok s →
  LifecycleState.RUNTIME_EFFECTIVE ∈ states s →
  enabled e = true
  ∧ ∃ raw records binding,
      read_bytes (manifest_path b) = Ok raw ∧ _module_records decode journal = Ok records
      ∧ last_launch (ib_id b) records binding
      ∧ intact binding ∧ alive (get "manager_process" binding)
      ∧ (∀ c k role, c ∈ components (manifest b) → k ∈ contracts c →
           assoc k _MODULE_ROLES = Some role →
           has_active_carrier b c ∧ ∃ event, event ∈ records
             ∧ witnesses b binding event (described b (sha256_hexdigest raw) c k role))
      ∧ ∀ event, event ∈ records → reports (ib_id b) binding event → alive (get "process" event).
Proof.
  intros Hp Hc0 Hk0 Hm0 Hs Hin.
  destruct (status_effective _ _ _ _ _ _ Hs Hin) as (Hen & text & Ht). split; [done|].
  unfold runtime_effective_evidence in Ht. apply result_bind_ok in Ht as (expected & Hx & Ht).
  destruct (module_components_ok _ _ _ _ _ Hx Hc0 Hk0 Hm0) as (Hne & raw & Hraw & Hall).
  rewrite bool_decide_eq_false_2 in Ht by done. cbn [negb] in Ht.
  destruct (expected_ok _ _ _ _ Hp Hx) as [Hu Hnd].
  destruct (module_evidence_sound _ _ _ _ Hu Hnd Ht) as (records & binding & Hr & Hl & Hi & Ha & He & Hrep).
  exists raw, records, binding. split_and!; try done. intros c k role Hc Hk Hrole.
  destruct (Hall c k role Hc Hk Hrole) as [Hd Hcar]. split; [done|]. by apply He.
Qed.
End Evidence.

(** ** A launch, observed *)

Module EvidenceDemo.

(** Every version satisfies every specifier. *)
#[export] Instance lenient : ContractParser.Packaging := {
  Version := string; parse_version := Some; version_local _ := None; version_str v := v;
  SpecifierSet := string; parse_specifiers := Some; specifier_versions _ := [];
  specifiers_str s := s; version_in _ _ := true;
}.

Definition carrier : json :=
  JObj [("type", JStr "python_module"); ("module", JStr "pkg.mod"); ("object", JStr "Sched");
        ("status", JStr "active")].
Definition component : json :=
  JObj [("component_id", JStr "sched"); ("contracts", JArr [JStr "vllm.scheduler-class.v1"]);
        ("execution_planes", JArr [JStr "scheduler"]); ("isolation", JStr "trusted_in_process");
        ("implementation_ref", JStr "pkg.mod:Sched")].

Definition payload : json :=
  JObj [("schema_version", JStr "0.3"); ("extension_id", JStr "org.a");
        ("extension_version", JStr "1.2"); ("kind", JStr "scheduler_policy");
        ("host", JObj [("provider", JStr "demo"); ("name", JStr "vLLM");
                       ("version_range", JStr ">=0")]);
        ("runtime", JObj [("type", JStr "python"); ("process_scope", JStr "worker");
                          ("isolation", JStr "trusted_in_process")]);
        ("lifecycle_owner", JStr "vllm"); ("protocols", JArr []);
        ("implementation", JArr [carrier]); ("requires_services", JArr []);
        ("resource_claims", JArr []); ("components", JArr [component])].

Definition demo_manifest : BundleManifest :=
  mkManifest "org.a" "1.2" ">=0"
    [mkComponent "sched" ["vllm.scheduler-class.v1"] ["scheduler"] "trusted_in_process"
       "pkg.mod:Sched" []]
    (mkActivation [] [] []) "0.3" "scheduler_policy"
    (mkHost "demo" "vLLM" ">=0" None) (mkRuntime "python" "worker" "trusted_in_process")
    "vllm" []
    [mkCarrier "python_module"
       [("module", JStr "pkg.mod"); ("object", JStr "Sched"); ("status", JStr "active")]]
    [] [] [].

Example demo_parsed : parse_manifest payload = Ok demo_manifest.
Proof. by vm_compute. Qed.

Definition bundle : InstalledBundle := mkBundle "org.a" "demo" "1.2" "/lib/a.json" demo_manifest.
Definition read_bytes (_ : string) : result string := Ok "{}".

(** Process 10 is the Manager, 11 the server; the server may have exited. *)
Definition stat : string := " (py) S 1 2 3 4 5 6 7 8 9 10 11 12 13 14 15 16 17 18 777 20".
Definition node (server_lives : bool) : Machine := mkMachine "node-1" (λ pid,
  if (pid =? 10)%Z then Some ("10" +:+ stat)
  else if (pid =? 11)%Z && server_lives then Some ("11" +:+ stat) else None).

(** The Manager launches, and the server reports. *)
Definition launched : result (list (string * string)) * Journal :=
  launch_environment (node true) read_bytes [] 10 "launch-1" "/run/j" None [bundle]
    (mkJournal None 5000 true).
Definition environment : list (string * string) :=
  match launched.1 with Ok env => env | Err _ => [] end.
Definition journal : Journal :=
  (emit_module_effective (node true) loads environment 11 5 "pkg.mod:Sched" true "scheduler"
     (JInt 1) (JInt 8) launched.2).2.

Definition provider : HostProvider := mkProvider "demo" (λ _, Ok true)
  (λ m _ _, Err (ValueError "no plan"))
  (λ m c, Ok (mkCheck (Some true) true None None false [])).
Definition find : string → bool → result HostProvider := provider_for [("demo", provider)] [].
Definition intent : ExtensionConfig := mkExtensionConfig true [].

Definition status (server_lives : bool) : result ExtensionStatus :=
  status_for find (runtime_effective_evidence (node server_lives) loads read_bytes (content journal))
    bundle intent true.
Definition quoted : string :=
  "live module runtime evidence launch_id=launch-1 components=1 pids=[11]; "
  +:+ "all declared modules observed, not an all-rank device qualification".

Definition effective_status : ExtensionStatus :=
  mkStatus "org.a" "demo"
    [LifecycleState.INSTALLED; LifecycleState.DISCOVERED; LifecycleState.COMPATIBLE;
     LifecycleState.CONFIGURED; LifecycleState.ENABLED; LifecycleState.RUNTIME_EFFECTIVE] [quoted].
Example reported : status true = Ok effective_status.
Proof. vm_compute. reflexivity. Qed.
(** Its exit revokes the evidence. *)
Example revoked : (s ← status false; Ok (states s)) = Ok
  [LifecycleState.INSTALLED; LifecycleState.DISCOVERED; LifecycleState.COMPATIBLE;
   LifecycleState.CONFIGURED; LifecycleState.ENABLED].
Proof. vm_compute. reflexivity. Qed.

Definition expected : list json :=
  [JObj [("extension_id", JStr "org.a"); ("extension_version", JStr "1.2");
     ("manifest_sha256", JStr (sha256_hexdigest "{}")); ("component_id", JStr "sched");
     ("contract", JStr "vllm.scheduler-class.v1"); ("implementation_ref", JStr "pkg.mod:Sched");
     ("role", JStr "scheduler")]].

Definition sched : BundleComponent := List.nth 0 (components demo_manifest)
  (mkComponent "" [] [] "" "" []).

Lemma module_effective_sound_witness :
  enabled intent = true
  ∧ ∃ records binding event,
      last_launch "org.a" records binding ∧ intact binding
      ∧ alive (node true) (get "manager_process" binding)
      ∧ witnesses (node true) bundle binding event
          (described bundle (sha256_hexdigest "{}") sched "vllm.scheduler-class.v1" "scheduler").
Proof.
  destruct (module_effective_sound (node true) loads loads_unique find read_bytes
    (content journal) payload bundle intent true effective_status sched "vllm.scheduler-class.v1")
    as (Hen & raw & records & binding & [= <-] & Hr & Hb & Hi & Ha & He & _).
  - vm_compute. reflexivity.
  - left.
  - left.
  - left.
  - vm_compute. reflexivity.
  - cbn. set_solver.
  - split; [exact Hen|].
    destruct (He sched "vllm.scheduler-class.v1" "scheduler") as [_ (event & _ & Hw)];
      [left|left|reflexivity|].
    exists records, binding, event. split; [exact Hb|]. split; [exact Hi|]. split; [exact Ha|exact Hw].
Defined.

(** A window of 12 characters on a journal of 20 sees its last two records only. *)
Definition lf : string := String newline EmptyString.
Lemma journal_window_witness :
  last (tail_lines 12 ((("first" +:+ lf) +:+ ("second" +:+ lf)) +:+ ("third" +:+ lf)))
  = Some ("third" +:+ lf).
Proof.
  refine (proj2 (journal_window 12 (("first" +:+ lf) +:+ ("second" +:+ lf)) ("third" +:+ lf)) _ _ _).
  - right. exists ("first" +:+ lf +:+ "second"). reflexivity.
  - reflexivity.
  - apply Nat.ltb_lt. reflexivity.
Defined.

(** A line whose schema is a list stops every later status of a module extension. *)
Example unhashable_schema_escapes :
  _module_records loads (Some (ascii_dumps (JObj [("schema", JArr [])]) +:+ lf)) = Err (TypeError "unhashable type: 'list'").
Proof. vm_compute. reflexivity. Qed.

(** So does a line that is no object, for extensions with entry points. *)
Example scalar_line_escapes :
  _events loads (Some ("5" +:+ lf)) = Err (AttributeError "object has no attribute 'get'").
Proof. vm_compute. reflexivity. Qed.
End EvidenceDemo.
