(* ===== verification/Supervisor.v ===== *)
(** * Supervisor: signal-safe supervision of a launched process tree

    src/vllm_hust_ext/process_supervisor.py on a POSIX system.  The main program, the signal
    handlers that interrupt it at any point (also inside another handler) and the operating
    system are one labelled step function: [step] says what a label does, so every interleaving
    is a list of labels.  Times are integers of milliseconds; the branches for other systems
    are not modelled.  The theorems are in SupervisorProofs.v. *)

From S2P Require Import Prelude Effects.

Local Open Scope string_scope.
Local Open Scope list_scope.
Local Open Scope Z_scope.

Definition SIGHUP : Z := 1.
Definition SIGINT : Z := 2.
Definition SIGKILL : Z := 9.
Definition SIGTERM : Z := 15.

(** [_POLL_SECONDS] and [_KILL_SIGNAL]. *)
Definition _POLL : Z := 50.
Definition _KILL_SIGNAL : Z := SIGKILL.

Definition DEFAULT_SHUTDOWN_GRACE : Z := 10000.
Definition FORMAL_SHUTDOWN_GRACE : Z := 30000.

Definition _managed_signals : list Z := [SIGTERM; SIGINT; SIGHUP].

(** ** The operating system *)

(** The direct child: not yet started, alive, a zombie, or waited for; a dead one keeps the time
    of its exit. *)
Variant leader_state :=
  | Unborn | Running | Exited (code exited_at : Z) | Reaped (code exited_at : Z).

#[export] Instance leader_state_eq_dec : EqDecision leader_state.
Proof. solve_decision. Defined.

(** Who a signal was sent to: the session leader alone, its group, or a group that took the
    same number after the launch's group was gone. *)
Variant recipient := Leader | Tree | Stranger.

(** [patience] bounds how many polls a killed leader still survives: SIGKILL cannot be caught.
    [sent] is the log of signals, the latest first. *)
Record os := mkOs {
  clock : Z; leader : leader_state; survivors : nat; recycled : bool; doomed : bool;
  patience : nat; sent : list (recipient * Z * Z) }.

Definition set_leader (l : leader_state) (w : os) : os :=
  mkOs (clock w) l (survivors w) (recycled w) (doomed w) (patience w) (sent w).
Definition set_survivors (n : nat) (w : os) : os :=
  mkOs (clock w) (leader w) n (recycled w) (doomed w) (patience w) (sent w).
Definition set_recycled (w : os) : os :=
  mkOs (clock w) (leader w) (survivors w) true (doomed w) (patience w) (sent w).
Definition advance (n : Z) (w : os) : os :=
  mkOs (clock w + n) (leader w) (survivors w) (recycled w) (doomed w) (patience w) (sent w).
Definition wear (w : os) : os :=
  mkOs (clock w) (leader w) (survivors w) (recycled w) (doomed w) (pred (patience w)) (sent w).

(** A signal in the log; a group that is sent SIGKILL is doomed. *)
Definition log (r : recipient) (signum : Z) (w : os) : os :=
  mkOs (clock w) (leader w) (survivors w) (recycled w)
    (doomed w || match r with Tree => signum =? SIGKILL | _ => false end)
    (patience w) ((r, signum, clock w) :: sent w).

Definition leader_in_group (w : os) : bool :=
  match leader w with Running | Exited _ _ => true | _ => false end.

(** The launch's process group has a member; a zombie counts until it is waited for. *)
Definition group_exists (w : os) : bool := leader_in_group w || (0 <? survivors w)%nat.

(** [_signal_launch_tree]: [os.killpg], a missing group ignored. *)
Definition _signal_launch_tree (signum : Z) (w : os) : os :=
  if group_exists w then log Tree signum w
  else if recycled w then log Stranger signum w else w.

(** [process.poll()]: waits for a zombie; [None] while the leader runs. *)
Definition poll (w : os) : os * option Z :=
  match leader w with
  | Exited c t => (set_leader (Reaped c t) w, Some c)
  | Reaped c _ => (w, Some c)
  | _ => (w, None)
  end.

(** [_signal_launch_leader]: only a leader that still runs is signalled. *)
Definition _signal_launch_leader (signum : Z) (w : os) : os :=
  match poll w with (w', Some _) => w' | (w', None) => log Leader signum w' end.

(** [_launch_tree_exists]: [os.killpg(pid, 0)] finds any group of that number. *)
Definition _launch_tree_exists (w : os) : bool := group_exists w || recycled w.

(** ** The program *)

(** How [supervise] ends. *)
Variant outcome := Returned (code : Z) | Raised (e : exn).

(** Where the main program is. *)
Variant pc :=
  | Install (todo : list Z)            (** Installing the handlers. *)
  | Spawn                              (** [subprocess.Popen(...)]. *)
  | Assign                             (** The child runs, [child] is still [None]. *)
  | CheckPending | NotifyTree | NotifyLeader
  | Wait (escalated : bool)            (** [child.wait(timeout=_POLL_SECONDS)]. *)
  | Expired (escalated : bool)         (** The [except] branch. *)
  | Escalate
  | SetDeadline (code : Z)
  | Survivors (code deadline : Z)      (** [_cleanup_survivors]. *)
  | TermSurvivors (code deadline : Z)
  | AwaitTree (code deadline : Z)      (** [_wait_for_launch_tree]. *)
  | KillSurvivors (code : Z)
  | Decide (code : Z)                  (** [if received: return 128 + received[0]]. *)
  | Finally (o : outcome)
  | FinallyKill (o : outcome)
  | FinallyWait (o : outcome)
  | RestoreHandlers (todo : list Z) (o : outcome)
  | Done (o : outcome).

(** Where a running handler is: before [first_signal], before the append, before the time is
    taken, before the child is signalled. *)
Variant frame :=
  | Enter (signum : Z)
  | Append (signum : Z) (first_signal : bool)
  | TakeTime (signum : Z) (first_signal : bool)
  | Act (signum : Z).

Record state := mkState {
  system : os; child : bool; received : list Z; signal_started_at : list Z;
  installed : list Z; frames : list frame; at_pc : pc }.

Definition with_os (w : os) (s : state) : state :=
  mkState w (child s) (received s) (signal_started_at s) (installed s) (frames s) (at_pc s).
Definition go (p : pc) (s : state) : state :=
  mkState (system s) (child s) (received s) (signal_started_at s) (installed s) (frames s) p.
Definition with_frames (fs : list frame) (s : state) : state :=
  mkState (system s) (child s) (received s) (signal_started_at s) (installed s) fs (at_pc s).
Definition with_child (s : state) : state :=
  mkState (system s) true (received s) (signal_started_at s) (installed s) (frames s) (at_pc s).
Definition with_installed (l : list Z) (s : state) : state :=
  mkState (system s) (child s) (received s) (signal_started_at s) l (frames s) (at_pc s).
Definition receive (signum : Z) (s : state) : state :=
  mkState (system s) (child s) (received s ++ [signum]) (signal_started_at s) (installed s)
    (frames s) (at_pc s).
Definition take_time (s : state) : state :=
  mkState (system s) (child s) (received s) (signal_started_at s ++ [clock (system s)])
    (installed s) (frames s) (at_pc s).

(** A signal sent by the program. *)
Definition send_tree (signum : Z) (s : state) : state :=
  with_os (_signal_launch_tree signum (system s)) s.
Definition send_leader (signum : Z) (s : state) : state :=
  with_os (_signal_launch_leader signum (system s)) s.

(** [signal_started_at[0]]. *)
Definition started (s : state) : option Z := hd_error (signal_started_at s).

Section Supervise.
Context (shutdown_grace : Z).

(** [if child is not None: ...]. *)
Definition act (signum : Z) (s : state) : state :=
  if child s then
    if (1 <? length (received s))%nat then send_tree _KILL_SIGNAL s else send_leader signum s
  else s.

(** [forward], one instruction at a time. *)
Definition forward (f : frame) (rest : list frame) (s : state) : state :=
  match f with
  | Enter n => with_frames (Append n (bool_decide (received s = [])) :: rest) s
  | Append n first => with_frames (TakeTime n first :: rest) (receive n s)
  | TakeTime n first =>
      with_frames (Act n :: rest) (if (first : bool) then take_time s else s)
  | Act n => with_frames rest (act n s)
  end.

(** [received and not escalated and time.monotonic() - signal_started_at[0] >= grace]; [None]
    is an [IndexError]. *)
Definition grace_over (escalated : bool) (s : state) : option bool :=
  if bool_decide (received s = []) || escalated then Some false
  else t ← started s; Some (shutdown_grace <=? clock (system s) - t).

Definition cleanup_deadline (s : state) : option Z :=
  if bool_decide (received s = []) then Some (clock (system s) + shutdown_grace)
  else t ← started s; Some (t + shutdown_grace).

Definition index_error : outcome := Raised (IndexError "list index out of range").

(** One poll of a leader that runs: time passes, and a killed leader wears out; [None] when it
    may not survive another poll. *)
Definition survive_poll (w : os) : option os :=
  if doomed w then if (0 <? patience w)%nat then Some (wear (advance _POLL w)) else None
  else Some (advance _POLL w).

(** One instruction of [supervise]; [None] when it blocks or is over. *)
Definition main (s : state) : option state :=
  let w := system s in
  match at_pc s with
  | Install (n :: todo) => Some (go (Install todo) (with_installed (n :: installed s) s))
  | Install [] => Some (go Spawn s)
  | Spawn => Some (go Assign (with_os (set_leader Running w) s))
  | Assign => Some (go CheckPending (with_child s))
  | CheckPending =>
      Some (go (if bool_decide (received s = []) then Wait false
                else if (1 <? length (received s))%nat then NotifyTree else NotifyLeader) s)
  | NotifyTree => Some (go (Wait false) (send_tree _KILL_SIGNAL s))
  | NotifyLeader => Some (go (Wait false) (send_leader (hd 0 (received s)) s))
  | Wait escalated =>
      match poll w with
      | (w', Some code) => Some (go (SetDeadline code) (with_os w' s))
      | (_, None) => w' ← survive_poll w; Some (go (Expired escalated) (with_os w' s))
      end
  | Expired escalated =>
      Some (go match grace_over escalated s with
               | None => Finally index_error
               | Some true => Escalate
               | Some false => Wait escalated
               end s)
  | Escalate => Some (go (Wait true) (send_tree _KILL_SIGNAL s))
  | SetDeadline code =>
      Some (go match cleanup_deadline s with
               | None => Finally index_error
               | Some d => Survivors code d
               end s)
  | Survivors code d =>
      Some (go (if _launch_tree_exists w then TermSurvivors code d else Decide code) s)
  | TermSurvivors code d => Some (go (AwaitTree code d) (send_tree SIGTERM s))
  | AwaitTree code d =>
      if _launch_tree_exists w then
        if d <=? clock w then Some (go (KillSurvivors code) s)
        else Some (with_os (advance _POLL w) s)
      else Some (go (Decide code) s)
  | KillSurvivors code => Some (go (Decide code) (send_tree _KILL_SIGNAL s))
  | Decide code =>
      Some (go (Finally (Returned (match received s with [] => code | n :: _ => 128 + n end))) s)
  | Finally o =>
      if child s then
        match poll w with
        | (w', Some _) => Some (go (RestoreHandlers _managed_signals o) (with_os w' s))
        | (_, None) => Some (go (FinallyKill o) s)
        end
      else Some (go (RestoreHandlers _managed_signals o) s)
  | FinallyKill o => Some (go (FinallyWait o) (send_tree _KILL_SIGNAL s))
  | FinallyWait o =>
      match poll w with
      | (w', Some _) => Some (go (RestoreHandlers _managed_signals o) (with_os w' s))
      | (_, None) => None
      end
  | RestoreHandlers (n :: todo) o =>
      Some (go (RestoreHandlers todo o)
             (with_installed (List.filter (λ m, negb (m =? n)) (installed s)) s))
  | RestoreHandlers [] o => Some (go (Done o) s)
  | Done _ => None
  end.

(** An exception raised at a point of the main program: the [finally] block runs for those of
    the [try] block, and is left by its own. *)
Definition raise_at (e : exn) (s : state) : state :=
  go match at_pc s with
     | Install _ | Finally _ | FinallyKill _ | FinallyWait _ | RestoreHandlers _ _ | Done _ =>
         Done (Raised e)
     | _ => Finally (Raised e)
     end (with_frames [] s).

Definition permission : exn := OSError "PermissionError".

(** A handler, or the main program, is about to make a system call that sends a signal. *)
Definition forward_sends (s : state) : bool :=
  child s && if (1 <? length (received s))%nat then _launch_tree_exists (system s)
             else bool_decide (leader (system s) = Running).

Definition main_sends (s : state) : bool :=
  match at_pc s with
  | NotifyLeader => bool_decide (leader (system s) = Running)
  | NotifyTree | Escalate | TermSurvivors _ _ | KillSurvivors _ | FinallyKill _ =>
      _launch_tree_exists (system s)
  | _ => false
  end.

(** What happens next: an instruction of the innermost handler or of the main program, a signal
    to the child that the system refuses, a failed start, or an event outside the Manager. *)
Variant label :=
  | Instruction | Refuse | SpawnFails
  | Deliver (signum : Z) | Tick (n : Z) | LeaderExits (code : Z) | MemberForks | MemberExits
  | Recycle.

Definition step (l : label) (s : state) : option state :=
  let w := system s in
  match l with
  | Instruction =>
      match frames s with f :: rest => Some (forward f rest s) | [] => main s end
  | Refuse =>
      match frames s with
      | Act _ :: _ => if forward_sends s then Some (raise_at permission s) else None
      | [] => if main_sends s then Some (raise_at permission s) else None
      | _ => None
      end
  | SpawnFails =>
      match frames s, at_pc s with
      | [], Spawn => Some (raise_at (FileNotFoundError "command") s)
      | _, _ => None
      end
  | Deliver n =>
      if bool_decide (n ∈ installed s) then Some (with_frames (Enter n :: frames s) s) else None
  | Tick n => if 0 <=? n then Some (with_os (advance n w) s) else None
  | LeaderExits c =>
      match leader w with Running => Some (with_os (set_leader (Exited c (clock w)) w) s) | _ => None end
  | MemberForks =>
      if negb (doomed w) && (bool_decide (leader w = Running) || (0 <? survivors w)%nat)
      then Some (with_os (set_survivors (S (survivors w)) w) s) else None
  | MemberExits =>
      match survivors w with
      | O => None
      | S n => Some (with_os (set_survivors n w) s)
      end
  | Recycle =>
      match leader w with
      | Reaped _ _ => if group_exists w then None else Some (with_os (set_recycled w) s)
      | _ => None
      end
  end.

(** [supervise] about to install its handlers, after the check of its argument. *)
Definition initial (w : os) : state := mkState w false [] [] [] [] (Install _managed_signals).

Definition supervise (w : os) : result state :=
  _ ← check (0 <=? shutdown_grace)
        (ValueError "shutdown grace period must not be negative");
  Ok (initial w).

(** An execution from [s] to [s']. *)
Inductive run : state → list label → state → Prop :=
  | run_nil s : run s [] s
  | run_cons s l s1 ls s2 : step l s = Some s1 → run s1 ls s2 → run s (l :: ls) s2.

(** The states [supervise] reaches. *)
Inductive reachable (w : os) : state → Prop :=
  | reachable_initial s : supervise w = Ok s → reachable w s
  | reachable_step l s s' : reachable w s → step l s = Some s' → reachable w s'.

(** Executing a list of labels. *)
Fixpoint execute (ls : list label) (s : state) : option state :=
  match ls with [] => Some s | l :: ls' => s' ← step l s; execute ls' s' end.
End Supervise.

