(* ===== verification/SupervisorProofs.v ===== *)
(** * SupervisorProofs: what supervision guarantees under every interleaving

    One invariant of the states [supervise] reaches, whatever signals arrive and whenever, and
    what follows from it: the result and what is left behind when it returns, when SIGKILL may
    be sent, and that it ends after a signal or after the child's exit. *)

From S2P Require Import Prelude Effects Supervisor.

Local Open Scope string_scope.
Local Open Scope list_scope.
Local Open Scope Z_scope.

Section Proofs.
Context (grace : Z).

(** ** The invariant *)

Definition in_try (p : pc) : bool :=
  match p with
  | Finally _ | FinallyKill _ | FinallyWait _ | RestoreHandlers _ _ | Done _ => false
  | _ => true
  end.

Definition raised (p : pc) : Prop :=
  match p with
  | Finally (Raised _) | FinallyKill (Raised _) | FinallyWait (Raised _)
  | RestoreHandlers _ (Raised _) | Done (Raised _) => True
  | _ => False
  end.

Definition reaped (code : Z) (w : os) : Prop :=
  ∃ t, leader w = Reaped code t ∧ t ≤ clock w.

(** No member of the launch's group is left alive, or all of them have been sent SIGKILL. *)
Definition settled (w : os) : Prop := survivors w = O ∨ doomed w = true.

(** A time the grace period of the first signal, or of the child's exit, ends at or before. *)
Definition grace_ends (s : state) (t : Z) : Prop :=
  (∃ t0, started s = Some t0 ∧ t0 + grace ≤ t)
  ∨ ∃ c t0, leader (system s) = Reaped c t0 ∧ t0 + grace ≤ t.

(** A SIGKILL of the group at time [t] is justified. *)
Definition kill_ok (s : state) (x : recipient * Z * Z) : Prop :=
  x.1.1 ≠ Leader → x.1.2 = SIGKILL →
  (2 ≤ length (received s))%nat ∨ grace_ends s x.2 ∨ raised (at_pc s).

Definition result_ok (s : state) (code rc : Z) : Prop :=
  match received s with [] => rc = code | n :: _ => rc = code ∨ rc = 128 + n end.

(** What holds at each point of the main program. *)
Definition pc_ok (s : state) : Prop :=
  let w := system s in
  match at_pc s with
  | Install todo => child s = false ∧ leader w = Unborn ∧ todo ⊆ _managed_signals
  | Spawn => child s = false ∧ leader w = Unborn
  | Assign => child s = false ∧ leader w ≠ Unborn
  | CheckPending | NotifyLeader | Wait false | Expired false => child s = true ∧ leader w ≠ Unborn
  | NotifyTree => child s = true ∧ leader w ≠ Unborn ∧ (2 ≤ length (received s))%nat
  | Wait true | Expired true =>
      child s = true ∧ leader w ≠ Unborn ∧ (leader w = Running → doomed w = true)
  | Escalate => child s = true ∧ leader w ≠ Unborn ∧ grace_ends s (clock w)
  | SetDeadline code => child s = true ∧ reaped code w
  | Survivors code d | TermSurvivors code d | AwaitTree code d =>
      child s = true ∧ reaped code w ∧ grace_ends s d ∧ d ≤ clock w + grace
  | KillSurvivors code => child s = true ∧ reaped code w ∧ grace_ends s (clock w)
  | Decide code => child s = true ∧ reaped code w ∧ settled w
  | Finally o | FinallyKill o | FinallyWait o | RestoreHandlers _ o | Done o =>
      match o with
      | Returned rc => child s = true ∧ settled w ∧ ∃ code, reaped code w ∧ result_ok s code rc
      | Raised e => (e = permission ∨ e = FileNotFoundError "command")
                    ∧ (child s = true → leader w ≠ Unborn)
      end
  end.

(** The handlers left installed, and a leader about to be waited for without a timeout. *)
Definition end_ok (s : state) : Prop :=
  match at_pc s with
  | Install todo => (length todo ≤ 3)%nat
  | RestoreHandlers todo _ => installed s ⊆ todo ∧ (length todo ≤ 3)%nat
  | Done (Returned _) => installed s = []
  | FinallyKill (Returned _) | FinallyWait (Returned _) => False
  | FinallyKill _ => child s = true
  | FinallyWait _ => child s = true ∧ (leader (system s) = Running → doomed (system s) = true)
  | _ => True
  end.

Definition takes_first (f : frame) : Prop := ∃ n, f = TakeTime n true.

Definition frame_ok (s : state) (f : frame) : Prop :=
  match f with Append _ first => received s = [] → first = true | _ => True end.

Record inv (s : state) : Prop := {
  i_started : in_try (at_pc s) = true → received s ≠ [] →
    signal_started_at s ≠ [] ∨ Exists takes_first (frames s);
  i_first : Forall (frame_ok s) (frames s);
  i_time : Forall (λ t, t ≤ clock (system s)) (signal_started_at s);
  i_installed : installed s ⊆ _managed_signals;
  i_exit : match leader (system s) with
           | Exited _ t | Reaped _ t => t ≤ clock (system s)
           | _ => True
           end;
  i_kills : Forall (kill_ok s) (sent (system s));
  i_pc : pc_ok s;
  i_end : end_ok s;
}.

(** ** Steps outside the main program *)

(** What a handler or the system may change between two instructions of the main program. *)
Record later (s s' : state) : Prop := {
  l_pc : at_pc s' = at_pc s;
  l_child : child s' = child s;
  l_installed : installed s' = installed s;
  l_clock : clock (system s) ≤ clock (system s');
  l_leader : leader (system s') = leader (system s)
    ∨ (leader (system s) = Running ∧ ∃ c, leader (system s') = Exited c (clock (system s)))
    ∨ ∃ c t, leader (system s) = Exited c t ∧ leader (system s') = Reaped c t;
  l_doomed : doomed (system s) = true → doomed (system s') = true;
  l_settled : ∀ c t, leader (system s) = Reaped c t → settled (system s) → settled (system s');
  l_received : received s `prefix_of` received s';
  l_started : ∀ t, started s = Some t → started s' = Some t;
  l_sent : ∃ new, sent (system s') = new ++ sent (system s) ∧ Forall (kill_ok s') new;
}.

Lemma reaped_later s s' code : later s s' → reaped code (system s) → reaped code (system s').
Proof.
  intros [_ _ _ ? Hl] (t & Ht & ?). exists t. split; [|lia].
  destruct Hl as [->|[[? _]|(? & ? & ? & _)]]; congruence.
Qed.

Lemma grace_ends_later s s' t t' :
  later s s' → t ≤ t' → grace_ends s t → grace_ends s' t'.
Proof.
  intros Hl Ht [(t0 & Hs & ?)|(c & t0 & Hr & ?)].
  - left. exists t0. split; [by apply (l_started _ _ Hl)|lia].
  - right. exists c, t0. split; [|lia].
    destruct (l_leader _ _ Hl) as [->|[[? _]|(? & ? & ? & _)]]; congruence.
Qed.

Lemma result_ok_later s s' code rc : later s s' → result_ok s code rc → result_ok s' code rc.
Proof.
  intros Hl. unfold result_ok. destruct (l_received _ _ Hl) as [r ->].
  destruct (received s); cbn; [|done]. intros ->. destruct r; auto.
Qed.

Lemma kill_ok_later s s' x : later s s' → kill_ok s x → kill_ok s' x.
Proof.
  intros Hl Hk H1 H2. destruct (Hk H1 H2) as [Hr|[Hg|Hr]].
  - left. destruct (l_received _ _ Hl) as [r ->]. rewrite length_app. lia.
  - right; left. by eapply grace_ends_later.
  - right; right. by rewrite (l_pc _ _ Hl).
Qed.

Lemma not_unborn_later s s' :
  later s s' → leader (system s) ≠ Unborn → leader (system s') ≠ Unborn.
Proof. intros Hl Hu. destruct (l_leader _ _ Hl) as [->|[[? [? ->]]|(? & ? & ? & ->)]]; done. Qed.

Lemma doomed_later s s' :
  later s s' → (leader (system s) = Running → doomed (system s) = true) →
  leader (system s') = Running → doomed (system s') = true.
Proof.
  intros Hl Hd Hr. apply (l_doomed _ _ Hl), Hd.
  destruct (l_leader _ _ Hl) as [E|[[? [? E]]|(? & ? & ? & E)]]; congruence.
Qed.

Lemma settled_later s s' code :
  later s s' → reaped code (system s) → settled (system s) → settled (system s').
Proof. intros Hl (t & Ht & _). by eapply l_settled. Qed.

Lemma unborn_later s s' :
  later s s' → leader (system s) = Unborn → leader (system s') = Unborn.
Proof. intros Hl Hu. destruct (l_leader _ _ Hl) as [->|[[? _]|(? & ? & ? & _)]]; congruence. Qed.

Hint Resolve reaped_later not_unborn_later doomed_later unborn_later : core.

Lemma pc_ok_later s s' : later s s' → pc_ok s → pc_ok s'.
Proof.
  intros Hl. pose proof (l_received _ _ Hl) as [r Hr]. pose proof (l_clock _ _ Hl).
  unfold pc_ok. rewrite (l_pc _ _ Hl), (l_child _ _ Hl), Hr, ?length_app.
  destruct (at_pc s) as [| | | | | |[]|[]| | | | | | | |[]|[]|[]|? []|[]]; intros Hp;
    destruct_and?; split_and?; eauto using settled_later; try lia;
    try (eapply grace_ends_later; [done| |done]; lia).
  all: try match goal with He : ∃ _, _ |- _ => destruct He as (? & ? & ?) end;
    eauto using settled_later, result_ok_later.
Qed.

Lemma end_ok_later s s' : later s s' → end_ok s → end_ok s'.
Proof.
  intros Hl. unfold end_ok. rewrite (l_pc _ _ Hl), (l_installed _ _ Hl), (l_child _ _ Hl).
  destruct (at_pc s) as [| | | | | | | | | | | | | | | |[]|[]| |[]]; try done. intros []. eauto.
Qed.

(** The parts of the invariant that speak of frames are checked for each step. *)
Lemma inv_later s s' :
  later s s' → inv s →
  (in_try (at_pc s') = true → received s' ≠ [] →
     signal_started_at s' ≠ [] ∨ Exists takes_first (frames s')) →
  Forall (frame_ok s') (frames s') →
  Forall (λ t, t ≤ clock (system s')) (signal_started_at s') →
  inv s'.
Proof.
  intros Hl Hi Hs Hf Ht. destruct Hi. constructor; try done.
  - by rewrite (l_installed _ _ Hl).
  - pose proof (l_clock _ _ Hl).
    destruct (l_leader _ _ Hl) as [->|[[? [? ->]]|(? & ? & E & ->)]]; [|done|rewrite E in *; lia].
    destruct (leader (system s)); try done; lia.
  - destruct (l_sent _ _ Hl) as (new & -> & Hn). apply Forall_app. split; [done|].
    eapply Forall_impl; [done|]. intros x. by apply kill_ok_later.
  - by eapply pc_ok_later.
  - by eapply end_ok_later.
Qed.

(** The parts of [later] that nothing has changed. *)
Ltac later_rest := constructor; cbn; try solve [auto | lia | reflexivity | by exists []].

(** *** Events outside the Manager *)

(** An event of the system: the log and the program's variables stay. *)
Lemma inv_os s w :
  inv s → later s (with_os w s) → inv (with_os w s).
Proof.
  intros Hi Hl. apply (inv_later s); [done..| | |].
  - apply (i_started _ Hi).
  - apply (i_first _ Hi).
  - eapply Forall_impl; [apply (i_time _ Hi)|]. intros t Ht.
    pose proof (l_clock _ _ Hl). cbn in *. lia.
Qed.

Lemma later_os s w :
  clock (system s) ≤ clock w → sent w = sent (system s) → doomed w = doomed (system s) →
  (leader w = leader (system s)
   ∨ leader (system s) = Running ∧ ∃ c, leader w = Exited c (clock (system s))) →
  (∀ c t, leader (system s) = Reaped c t → settled (system s) → settled w) →
  later s (with_os w s).
Proof.
  intros Hc Hs Hd Hl Hst. constructor; cbn; auto.
  - destruct Hl; auto.
  - by rewrite Hd.
  - exists []. by rewrite Hs.
Qed.

Lemma forks_disabled w :
  negb (doomed w) && (bool_decide (leader w = Running) || (0 <? survivors w)%nat) = true →
  ∀ c t, leader w = Reaped c t → settled w → False.
Proof.
  intros Hf c t Hl Hs. rewrite Hl in Hf. cbn in Hf. apply andb_true_iff in Hf as [Hd Hf].
  apply negb_true_iff in Hd. destruct Hs as [Hs|Hs]; rewrite Hs in *; done.
Qed.

Lemma inv_deliver s n : n ∈ installed s → inv s → inv (with_frames (Enter n :: frames s) s).
Proof.
  intros Hn Hi. apply (inv_later s); [|done|..].
  - later_rest.
  - intros Ht Hr. destruct (i_started _ Hi Ht Hr); [by left|right; by right].
  - constructor; [done|]. apply (i_first _ Hi).
  - apply (i_time _ Hi).
Qed.

(** *** Handlers *)

Lemma tree_sent signum w :
  (_signal_launch_tree signum w = w)
  ∨ ∃ r, r ≠ Leader ∧ _signal_launch_tree signum w = log r signum w.
Proof. unfold _signal_launch_tree. repeat case_match; [right; by eexists Tree|right; by eexists Stranger|by left]. Qed.

(** A SIGKILL that is not sent to the leader alone may be sent now. *)
Definition may_kill (s : state) : Prop :=
  (2 ≤ length (received s))%nat ∨ grace_ends s (clock (system s)) ∨ raised (at_pc s).

Lemma later_log s r signum :
  (r ≠ Leader → signum = SIGKILL → may_kill s) → later s (with_os (log r signum (system s)) s).
Proof.
  intros Hk. later_rest.
  - by intros ->.
  - intros c t _ [Hs|Hs]; [by left|right; cbn; by rewrite Hs].
  - eexists [_]. split; [done|]. apply Forall_singleton. intros H1 H2. by apply Hk.
Qed.

Lemma later_send_tree s signum :
  (signum = SIGKILL → may_kill s) → later s (send_tree signum s).
Proof.
  intros Hk. unfold send_tree. destruct (tree_sent signum (system s)) as [->|(r & Hr & ->)].
  - later_rest.
  - apply later_log. auto.
Qed.

Lemma later_send_leader s signum : later s (send_leader signum s).
Proof.
  unfold send_leader, _signal_launch_leader, poll.
  destruct (leader (system s)) eqn:El; try by apply later_log.
  - later_rest. rewrite El. eauto 10.
  - later_rest.
Qed.

Lemma later_act n s : later s (act n s).
Proof.
  unfold act. destruct (child s); [|by later_rest]. case_match; [|apply later_send_leader].
  apply later_send_tree. intros _. left. by apply Nat.ltb_lt.
Qed.

(** Signalling the child changes none of the program's variables, nor the time. *)
Lemma act_vars n s :
  received (act n s) = received s ∧ signal_started_at (act n s) = signal_started_at s
  ∧ clock (system (act n s)) = clock (system s).
Proof.
  unfold act. destruct (child s); [|done]. destruct (1 <? _)%nat.
  - unfold send_tree. by destruct (tree_sent _KILL_SIGNAL (system s)) as [->|(? & _ & ->)].
  - unfold send_leader, _signal_launch_leader, poll. by destruct (leader (system s)).
Qed.

Lemma later_forward f rest s :
  frames s = f :: rest → later s (forward f rest s).
Proof.
  intros _. destruct f as [n|n first|n first|n]; cbn [forward]; try by later_rest.
  - later_rest. by exists [n].
  - destruct first; [|by later_rest]. later_rest. unfold started. cbn.
    destruct (signal_started_at s); [done|]. by intros.
  - destruct (later_act n s); constructor; try assumption.
Qed.

Lemma inv_forward f rest s :
  frames s = f :: rest → inv s → inv (forward f rest s).
Proof.
  intros Hf Hi. pose proof (i_first _ Hi) as Hff. rewrite Hf in Hff.
  apply Forall_cons in Hff as [Hf1 Hrest]. pose proof (i_started _ Hi) as Hst. rewrite Hf in Hst.
  apply (inv_later s); [by apply later_forward|done|..].
  - destruct f as [n|n first|n first|n]; cbn.
    + intros Ht Hr. destruct (Hst Ht Hr) as [|Hex]; [by left|right].
      apply Exists_cons in Hex as [[? [=]]|]. by right.
    + intros Ht _. destruct (decide (received s = [])) as [E|Hr].
      * right. left. exists n. by rewrite (Hf1 E).
      * destruct (Hst Ht Hr) as [|Hex]; [by left|right].
        apply Exists_cons in Hex as [[? [=]]|]. by right.
    + destruct first; cbn; [intros _ _; left; by destruct (signal_started_at s)|].
      intros Ht Hr. destruct (Hst Ht Hr) as [|Hex]; [by left|right].
      apply Exists_cons in Hex as [[? [=]]|]. by right.
    + destruct (act_vars n s) as (-> & -> & _). rewrite (l_pc _ _ (later_act n s)).
      intros Ht Hr. destruct (Hst Ht Hr) as [|Hex]; [by left|right].
      apply Exists_cons in Hex as [[? [=]]|]. done.
  - destruct f as [n|n first|n first|n]; cbn.
    + constructor; [|done]. cbn. intros ->. by apply bool_decide_true.
    + constructor; [done|]. eapply Forall_impl; [done|]. intros [] Hg; cbn in *; try done.
      intros E. by apply app_nil in E as [_ [=]].
    + constructor; [done|]. by destruct first.
    + eapply Forall_impl; [done|]. intros [] Hg; cbn in *; try done.
      by destruct (act_vars n s) as (-> & _).
  - pose proof (i_time _ Hi) as Ht. destruct f as [n|n first|n first|n]; cbn; try done.
    + destruct first; cbn; [|done]. apply Forall_app. split; [done|]. by repeat constructor.
    + by destruct (act_vars n s) as (_ & -> & ->).
Qed.

(** *** The main program *)

(** Going to another point, all else unchanged. *)
Lemma inv_go s p :
  inv s → frames s = [] → (raised (at_pc s) → raised p) → (in_try p = true → in_try (at_pc s) = true) →
  pc_ok (go p s) → end_ok (go p s) → inv (go p s).
Proof.
  intros Hi Hf Hr Ht Hp He. constructor; try done.
  - intros Hin. apply (i_started _ Hi). auto.
  - apply (i_first _ Hi).
  - apply (i_time _ Hi).
  - apply (i_installed _ Hi).
  - apply (i_exit _ Hi).
  - eapply Forall_impl; [apply (i_kills _ Hi)|]. intros x Hk H1 H2.
    destruct (Hk H1 H2) as [?|[?|?]]; [by left|by right; left|right; right; auto].
Qed.

(** A signal sent by the main program leaves its variables alone. *)
Lemma inv_send_tree s signum :
  inv s → (signum = SIGKILL → may_kill s) → inv (send_tree signum s).
Proof.
  intros Hi Hk. apply (inv_later s); [by apply later_send_tree|done|..];
    unfold send_tree; destruct (tree_sent signum (system s)) as [->|(? & _ & ->)];
    first [apply (i_started _ Hi)|apply (i_first _ Hi)|apply (i_time _ Hi)].
Qed.

Lemma inv_send_leader s signum : inv s → inv (send_leader signum s).
Proof.
  intros Hi. apply (inv_later s); [by apply later_send_leader|done|..];
    unfold send_leader, _signal_launch_leader, poll; destruct (leader (system s));
    first [apply (i_started _ Hi)|apply (i_first _ Hi)|apply (i_time _ Hi)].
Qed.

(** What polling finds. *)
Lemma poll_some s w c :
  poll (system s) = (w, Some c) → inv s →
  later s (with_os w s) ∧ inv (with_os w s) ∧ ∃ t, leader w = Reaped c t.
Proof.
  intros Hp Hi. assert (later s (with_os w s)) as Hl.
  { unfold poll in Hp. destruct (leader (system s)) eqn:El; simplify_eq; later_rest.
    rewrite El. eauto 10. }
  split; [done|]. split.
  - apply (inv_later s); [done..|apply (i_started _ Hi)|apply (i_first _ Hi)|].
    eapply Forall_impl; [apply (i_time _ Hi)|]. intros t Ht. pose proof (l_clock _ _ Hl).
    cbn in *. lia.
  - unfold poll in Hp. destruct (leader (system s)) eqn:El; simplify_eq; by eexists.
Qed.

Lemma poll_none w w' : poll w = (w', None) → w' = w ∧ (leader w = Unborn ∨ leader w = Running).
Proof. unfold poll. destruct (leader w); intros; simplify_eq; auto. Qed.

(** The first signal's time, when no handler is running. *)
Lemma started_some s :
  inv s → frames s = [] → in_try (at_pc s) = true → received s ≠ [] →
  ∃ t, started s = Some t ∧ t ≤ clock (system s).
Proof.
  intros Hi Hf Ht Hr. destruct (i_started _ Hi Ht Hr) as [Hs|Hs].
  - pose proof (i_time _ Hi) as Htm. unfold started. destruct (signal_started_at s) as [|t l]; [done|].
    apply Forall_cons in Htm as [? _]. by exists t.
  - rewrite Hf in Hs. inversion Hs.
Qed.

Lemma grace_over_true s :
  inv s → frames s = [] → in_try (at_pc s) = true → ∀ esc,
  grace_over grace esc s = Some true → grace_ends s (clock (system s)).
Proof.
  intros Hi Hf Ht esc. unfold grace_over. case_bool_decide as Hr; [done|].
  destruct esc; [done|]. destruct (started_some s Hi Hf Ht Hr) as (t & Hs & _). rewrite Hs. cbn.
  intros [= Hle%Z.leb_le]. left. exists t. split; [done|lia].
Qed.

Lemma grace_over_some s esc :
  inv s → frames s = [] → in_try (at_pc s) = true → is_Some (grace_over grace esc s).
Proof.
  intros Hi Hf Ht. unfold grace_over. case_bool_decide as Hr; [by eexists|].
  destruct esc; [by eexists|]. destruct (started_some s Hi Hf Ht Hr) as (t & -> & _). by eexists.
Qed.

Lemma cleanup_deadline_some s code :
  inv s → frames s = [] → in_try (at_pc s) = true → reaped code (system s) →
  ∃ d, cleanup_deadline grace s = Some d ∧ grace_ends s d ∧ d ≤ clock (system s) + grace.
Proof.
  intros Hi Hf Ht (t & Hl & Htl). unfold cleanup_deadline. case_bool_decide as Hr.
  - eexists. split; [done|]. split; [|lia]. right. exists code, t. split; [done|lia].
  - destruct (started_some s Hi Hf Ht Hr) as (t0 & Hs & ?). rewrite Hs. eexists. split; [done|].
    split; [|lia]. left. exists t0. split; [done|lia].
Qed.

(** The exit of a leader that was polled. *)
Lemma poll_reaped s w c :
  poll (system s) = (w, Some c) → inv s → inv (with_os w s) ∧ later s (with_os w s) ∧ reaped c w.
Proof.
  intros Hp Hi. destruct (poll_some s w c Hp Hi) as (Hl & Hi' & t & Ht). split_and!; [done..|].
  exists t. split; [done|]. pose proof (i_exit _ Hi') as He. cbn in He. by rewrite Ht in He.
Qed.

(** The start of the leader is the one change of the system that is no event. *)
Lemma inv_spawn s :
  inv s → frames s = [] → at_pc s = Spawn → inv (go Assign (with_os (set_leader Running (system s)) s)).
Proof.
  intros Hi Hf Hpc. pose proof (i_pc _ Hi) as Hp. unfold pc_ok in Hp. rewrite Hpc in Hp.
  destruct Hp as [Hc Hu]. constructor; try done.
  - cbn. intros _. apply (i_started _ Hi). by rewrite Hpc.
  - apply (i_first _ Hi).
  - apply (i_time _ Hi).
  - apply (i_installed _ Hi).
  - eapply Forall_impl; [apply (i_kills _ Hi)|]. intros x Hk H1 H2.
    destruct (Hk H1 H2) as [?|[[?|(c & t & E & _)]|Hr]]; [by left|right; left; by left|congruence|].
    by rewrite Hpc in Hr.
Qed.

Lemma inv_with_child s : inv s → at_pc s = Assign → inv (go CheckPending (with_child s)).
Proof.
  intros Hi Hpc. pose proof (i_pc _ Hi) as Hp. unfold pc_ok in Hp. rewrite Hpc in Hp.
  destruct Hi. constructor; try done.
  - intros _. apply i_started0. by rewrite Hpc.
  - eapply Forall_impl; [done|]. intros x Hk H1 H2.
    destruct (Hk H1 H2) as [?|[?|Hr]]; [by left|by right; left|by rewrite Hpc in Hr].
  - by destruct Hp.
Qed.

Lemma inv_installed s l :
  inv s → l ⊆ _managed_signals → end_ok (with_installed l s) → inv (with_installed l s).
Proof. intros [] Hl He. by constructor. Qed.

(** What the point of the main program says of the state. *)
Ltac at_point Hi Hpc Hp :=
  pose proof (i_pc _ Hi) as Hp; unfold pc_ok in Hp; rewrite Hpc in Hp; cbn in Hp.

(** The parts of [inv_go] that follow from the two points. *)
Ltac go_to Hpc := apply inv_go; [try done|try done|try (by cbn; rewrite Hpc)|try (by cbn; rewrite Hpc)|
  unfold pc_ok; cbn|try done].

Lemma send_tree_pc signum s :
  at_pc (send_tree signum s) = at_pc s ∧ frames (send_tree signum s) = frames s
  ∧ child (send_tree signum s) = child s ∧ received (send_tree signum s) = received s
  ∧ leader (system (send_tree signum s)) = leader (system s)
  ∧ clock (system (send_tree signum s)) = clock (system s).
Proof. unfold send_tree. by destruct (tree_sent signum (system s)) as [->|(? & _ & ->)]. Qed.

Lemma kill_dooms s : leader_in_group (system s) = true → doomed (system (send_tree SIGKILL s)) = true.
Proof.
  intros Hg. unfold send_tree, _signal_launch_tree, group_exists. rewrite Hg. cbn.
  by rewrite orb_true_r.
Qed.

Lemma kill_settles s code :
  reaped code (system s) → settled (system (send_tree SIGKILL s)).
Proof.
  intros (t & Hl & _). unfold settled, send_tree, _signal_launch_tree, group_exists, leader_in_group.
  rewrite Hl. cbn. destruct (survivors (system s)) eqn:E; cbn.
  - left. by destruct (recycled (system s)).
  - right. by rewrite orb_true_r.
Qed.

Lemma no_group_settled w : _launch_tree_exists w = false → settled w.
Proof.
  unfold _launch_tree_exists, group_exists. intros [[_ H]%orb_false_iff _]%orb_false_iff.
  left. apply Nat.ltb_ge in H. lia.
Qed.

(** Sending a signal to the tree and going on. *)
Lemma inv_send_go s signum p :
  inv s → frames s = [] → (signum = SIGKILL → may_kill s) →
  (raised (at_pc s) → raised p) → (in_try p = true → in_try (at_pc s) = true) →
  pc_ok (go p (send_tree signum s)) → end_ok (go p (send_tree signum s)) →
  inv (go p (send_tree signum s)).
Proof.
  intros Hi Hf Hk Hr Ht Hp He. destruct (send_tree_pc signum s) as (Epc & Ef & _).
  apply inv_go; [by apply inv_send_tree|by rewrite Ef|by rewrite Epc..|done|done].
Qed.

Lemma survive_poll_os s w :
  survive_poll (system s) = Some w →
  leader w = leader (system s) ∧ clock w = clock (system s) + _POLL ∧ later s (with_os w s).
Proof.
  unfold survive_poll, _POLL. intros Es. repeat case_match; simplify_eq; split_and!; try done;
    apply later_os; cbn; auto; lia.
Qed.

Lemma main_wait s s' esc :
  inv s → frames s = [] → at_pc s = Wait esc → main grace s = Some s' → inv s'.
Proof.
  intros Hi Hf Hpc Hm. unfold main in Hm. rewrite Hpc in Hm. at_point Hi Hpc Hp.
  assert (child s = true) as Hc by by destruct esc; destruct_and?.
  assert (leader (system s) ≠ Unborn) as Hu by by destruct esc; destruct_and?.
  destruct (poll (system s)) as [w [code|]] eqn:E.
  - injection Hm as <-. destruct (poll_reaped s w code E Hi) as (Hi' & _ & Hr). go_to Hpc. done.
  - apply poll_none in E as [-> Hl]. destruct (survive_poll (system s)) as [w|] eqn:Es; [|done].
    injection Hm as <-.
    apply survive_poll_os in Es as (El & Et & Hlt). pose proof (inv_os s w Hi Hlt).
    go_to Hpc. rewrite El. destruct esc; destruct_and?; split_and?; try done. intros Hrun.
    apply (l_doomed _ _ Hlt). auto.
Qed.

Lemma main_expired s s' esc :
  inv s → frames s = [] → at_pc s = Expired esc → main grace s = Some s' → inv s'.
Proof.
  intros Hi Hf Hpc Hm. unfold main in Hm. rewrite Hpc in Hm. injection Hm as <-.
  at_point Hi Hpc Hp. assert (in_try (at_pc s) = true) as Ht by by rewrite Hpc.
  destruct (grace_over_some s esc Hi Hf Ht) as [b Hb]. rewrite Hb. destruct b; go_to Hpc.
  - apply (grace_over_true s Hi Hf Ht) in Hb. by destruct esc; destruct_and?.
  - by destruct esc.
Qed.

Lemma main_cleanup s s' :
  inv s → frames s = [] →
  match at_pc s with
  | SetDeadline _ | Survivors _ _ | TermSurvivors _ _ | AwaitTree _ _ | KillSurvivors _ | Decide _ => True
  | _ => False
  end → main grace s = Some s' → inv s'.
Proof.
  intros Hi Hf Hat Hm. unfold main in Hm. destruct (at_pc s) eqn:Hpc; try done; at_point Hi Hpc Hp;
    destruct_and?.
  - injection Hm as <-. destruct (cleanup_deadline_some s code Hi Hf) as (d & -> & Hg & ?);
      [by rewrite Hpc|done|]. by go_to Hpc.
  - injection Hm as <-. destruct (_launch_tree_exists (system s)) eqn:Ee; go_to Hpc; [done|].
    split_and!; [done..|]. by apply no_group_settled.
  - injection Hm as <-. apply inv_send_go; try done; try by rewrite Hpc.
    destruct (send_tree_pc SIGTERM s) as (_ & _ & _ & _ & _ & Et). cbn in Et.
    split_and!; [done|apply (reaped_later s (send_tree SIGTERM s))
      |apply (grace_ends_later s (send_tree SIGTERM s) deadline)|]; try done;
      try (by apply later_send_tree); cbn; by rewrite Et.
  - destruct (_launch_tree_exists (system s)) eqn:Ee.
    + destruct (deadline <=? clock (system s)) eqn:Ed; injection Hm as <-.
      * go_to Hpc. split_and!; [done..|]. rename select (grace_ends _ _) into Hg.
        destruct Hg as [(t & ? & ?)|(c & t & ? & ?)]; [left|right]; eexists _; try eexists _;
          split; try done; lia.
      * apply inv_os; [done|]. apply later_os; cbn; auto. unfold _POLL. lia.
    + injection Hm as <-. go_to Hpc. split_and!; [done..|]. by apply no_group_settled.
  - injection Hm as <-. assert (may_kill s) by (right; by left).
    apply inv_send_go; try done; try by rewrite Hpc.
    split_and!; [done| |by apply (kill_settles s code)].
    apply (reaped_later s (send_tree _KILL_SIGNAL s)); [by apply later_send_tree|done].
  - injection Hm as <-. go_to Hpc. split_and!; [done..|]. eexists. split; [done|].
    unfold result_ok; cbn. destruct (received s); [done|by right].
Qed.

Lemma main_start s s' :
  inv s → frames s = [] →
  match at_pc s with
  | Install _ | Spawn | Assign | CheckPending | NotifyTree | NotifyLeader | Escalate => True
  | _ => False
  end → main grace s = Some s' → inv s'.
Proof.
  intros Hi Hf Hat Hm. unfold main in Hm. destruct (at_pc s) as [[|n todo]| | | | | | | | | | | | | | | | | | |] eqn:Hpc;
    try done; at_point Hi Hpc Hp; simplify_eq.
  - go_to Hpc. by destruct_and?.
  - destruct Hp as (Hc & Hu & Hsub). pose proof (i_installed _ Hi).
    pose proof (i_end _ Hi) as He. unfold end_ok in He. rewrite Hpc in He. cbn in He.
    apply inv_go; cbn; try done; try by rewrite Hpc.
    + apply inv_installed; [done|set_solver|unfold end_ok; cbn; by rewrite Hpc].
    + split_and!; [done..|set_solver].
    + unfold end_ok; cbn. lia.
  - by apply inv_spawn.
  - by apply inv_with_child.
  - destruct Hp as [Hc Hu]. case_bool_decide; [by go_to Hpc|].
    destruct (1 <? length (received s))%nat eqn:El; go_to Hpc; [|done].
    apply Nat.ltb_lt in El. done.
  - destruct Hp as (Hc & Hu & Hl). assert (may_kill s) by by left.
    apply inv_send_go; try done; try by rewrite Hpc.
    split; [done|]. by apply (not_unborn_later s (send_tree _KILL_SIGNAL s)); [apply later_send_tree|].
  - destruct Hp as (Hc & Hu). apply inv_go; cbn; try done; try by rewrite Hpc.
    + by apply inv_send_leader.
    + split; [done|].
      by apply (not_unborn_later s (send_leader (hd 0 (received s)) s)); [apply later_send_leader|].
  - destruct Hp as (Hc & Hu & Hg). assert (may_kill s) by (right; by left).
    apply inv_send_go; try done; try by rewrite Hpc.
    split_and!; [done|by apply (not_unborn_later s (send_tree _KILL_SIGNAL s)); [apply later_send_tree|]|].
    intros Hr. apply kill_dooms. unfold leader_in_group.
    destruct (send_tree_pc _KILL_SIGNAL s) as (_ & _ & _ & _ & El & _). cbn in Hr, El.
    rewrite El in Hr. by rewrite Hr.
Qed.

Lemma main_finally s s' :
  inv s → frames s = [] → in_try (at_pc s) = false → main grace s = Some s' → inv s'.
Proof.
  intros Hi Hf Ht Hm. unfold main in Hm. pose proof (i_end _ Hi) as He. unfold end_ok in He.
  destruct (at_pc s) as [| | | | | | | | | | | | | | |o|o|o|[|n todo] o|o] eqn:Hpc; try done;
    at_point Hi Hpc Hp.
  - destruct (child s) eqn:Hc; [destruct (poll (system s)) as [w [c|]] eqn:E|]; simplify_eq.
    + destruct (poll_reaped s w c E Hi) as (Hi' & Hl & _).
      pose proof (pc_ok_later s (with_os w s) Hl (i_pc _ Hi)) as Hp'.
      unfold pc_ok in Hp'. cbn in Hp'. rewrite Hpc in Hp'.
      go_to Hpc; [by destruct o|]. split; [apply (i_installed _ Hi)|cbn; lia].
    + apply poll_none in E as [-> Hl]. go_to Hpc; [rewrite Hc; by destruct o|].
      unfold end_ok; cbn. destruct o; [|done]. destruct Hp as (_ & _ & ? & (? & ? & _) & _).
      destruct Hl; congruence.
    + go_to Hpc; [rewrite Hc; by destruct o|]. split; [apply (i_installed _ Hi)|cbn; lia].
  - simplify_eq. destruct o; [done|]. assert (may_kill s) by (right; right; by rewrite Hpc).
    apply inv_send_go; try done; try by rewrite Hpc.
    + split; [by destruct Hp|]. intros Hc. destruct Hp as [_ Hu].
      by apply (not_unborn_later s (send_tree _KILL_SIGNAL s)); [apply later_send_tree|auto].
    + split; [exact He|]. intros Hr. apply kill_dooms. unfold leader_in_group.
      destruct (send_tree_pc _KILL_SIGNAL s) as (_ & _ & _ & _ & El & _). cbn in Hr, El.
      rewrite El in Hr. by rewrite Hr.
  - destruct (poll (system s)) as [w [c|]] eqn:E; [|done]. simplify_eq.
    destruct (poll_reaped s w c E Hi) as (Hi' & Hl & _).
    pose proof (pc_ok_later s (with_os w s) Hl (i_pc _ Hi)) as Hp'.
    unfold pc_ok in Hp'. cbn in Hp'. rewrite Hpc in Hp'.
    go_to Hpc; [by destruct o|]. split; [apply (i_installed _ Hi)|cbn; lia].
  - simplify_eq. go_to Hpc; [by destruct o|]. unfold end_ok; cbn. destruct o; [|done].
    destruct He as [He _]. destruct (installed s) as [|m l]; [done|set_solver].
  - simplify_eq. destruct He as [He Hlen]. cbn in Hlen. apply inv_go; cbn; try done; try by rewrite Hpc.
    + apply inv_installed; [done| |].
      * intros m Hm. apply (i_installed _ Hi).
        apply list_elem_of_In, filter_In in Hm as [Hm _]. by apply list_elem_of_In.
      * unfold end_ok; cbn. rewrite Hpc. split; [|cbn; lia]. intros m Hm.
        apply list_elem_of_In, filter_In in Hm as [Hm _]. apply He. by apply list_elem_of_In.
    + split; [|lia]. intros m Hm. cbn in Hm. apply list_elem_of_In, filter_In in Hm as [Hm Hne].
      apply list_elem_of_In, He in Hm. apply negb_true_iff, Z.eqb_neq in Hne. set_solver.
Qed.

Lemma inv_main s s' : inv s → frames s = [] → main grace s = Some s' → inv s'.
Proof.
  intros Hi Hf Hm. destruct (at_pc s) eqn:Hpc;
    first [ apply (main_start s); [done|done|by rewrite Hpc|done]
          | by eapply main_wait
          | by eapply main_expired
          | apply (main_cleanup s); [done|done|by rewrite Hpc|done]
          | apply (main_finally s); [done|done|by rewrite Hpc|done] ].
Qed.

(** ** Exceptions *)

(** A child that was assigned has been started. *)
Lemma child_not_unborn s : inv s → child s = true → leader (system s) ≠ Unborn.
Proof.
  intros Hi Hc. pose proof (i_pc _ Hi) as Hp. unfold pc_ok in Hp.
  assert (∀ code, reaped code (system s) → leader (system s) ≠ Unborn) as Hr.
  { intros code (t & -> & _). done. }
  destruct (at_pc s) as [| | | | | |[]|[]| | | | | | | |[]|[]|[]|? []|[]]; destruct_and?;
    try congruence; eauto; by destruct_and?; match goal with He : ∃ _, _ |- _ =>
      destruct He as (? & ? & _) end; eauto.
Qed.

Lemma inv_raise s e :
  inv s → e = permission ∨ e = FileNotFoundError "command" → (child s = true → leader (system s) ≠ Unborn) →
  inv (raise_at e s).
Proof.
  intros Hi He Hu. constructor; cbn.
  - by destruct (at_pc s).
  - constructor.
  - apply (i_time _ Hi).
  - apply (i_installed _ Hi).
  - apply (i_exit _ Hi).
  - eapply Forall_impl; [apply (i_kills _ Hi)|]. intros x Hk H1 H2.
    destruct (Hk H1 H2) as [?|[?|?]]; [by left|by right; left|right; right]. cbn. by destruct (at_pc s).
  - unfold pc_ok; cbn. by destruct (at_pc s).
  - unfold end_ok; cbn. by destruct (at_pc s).
Qed.

Lemma supervisor_inv_step l s s' : inv s → step grace l s = Some s' → inv s'.
Proof.
  intros Hi Hs. destruct l as [| | |n|n|c| | |]; cbn in Hs.
  - destruct (frames s) as [|f rest] eqn:Hf; [by apply (inv_main s)|].
    injection Hs as <-. by apply inv_forward.
  - assert (raise_at permission s = s') as <-.
    { repeat case_match; by simplify_eq. }
    apply inv_raise; [done|by left|]. intros Hc Hu. apply (child_not_unborn s); done.
  - destruct (frames s) eqn:Hf; [|done]. destruct (at_pc s) eqn:Hpc; try done. simplify_eq.
    at_point Hi Hpc Hp. apply inv_raise; [done|by right|]. destruct Hp. congruence.
  - case_bool_decide; [|done]. simplify_eq. by apply inv_deliver.
  - destruct (0 <=? n) eqn:Hn; [|done]. simplify_eq. apply inv_os; [done|].
    apply later_os; cbn; auto. lia.
  - destruct (leader (system s)) eqn:El; try done. simplify_eq. apply inv_os; [done|].
    apply later_os; cbn; eauto; try lia; try congruence.
  - destruct (negb _ && _) eqn:Hf; [|done]. simplify_eq. apply inv_os; [done|].
    apply later_os; cbn; eauto; try lia. intros c t Hl Hst. by destruct (forks_disabled _ Hf c t).
  - destruct (survivors (system s)) as [|n] eqn:En; [done|]. simplify_eq. apply inv_os; [done|].
    apply later_os; cbn; eauto; try lia. intros c t Hl [Hst|Hst]; [congruence|by right].
  - destruct (leader (system s)) eqn:El; try done. destruct (group_exists _) eqn:Eg; [done|].
    simplify_eq. apply inv_os; [done|]. apply later_os; cbn; eauto. lia.
Qed.

(** ** Reachable states *)

(** The system before the launch. *)
Definition fresh (w : os) : Prop :=
  leader w = Unborn ∧ survivors w = O ∧ recycled w = false ∧ doomed w = false ∧ sent w = [].

Lemma inv_reachable w s : fresh w → reachable grace w s → inv s.
Proof.
  intros (Hl & _ & _ & _ & Hs). induction 1 as [s Hs0|l s s' _ IH Hstep]; [|by eapply supervisor_inv_step].
  apply check_bind in Hs0 as [_ [= <-]].
  constructor; cbn; try done; try (by constructor).
  - set_solver.
  - by rewrite Hl.
  - rewrite Hs. constructor.
Qed.

(** C15.  When [supervise] returns, the child has exited and been waited for, every other member
    of its process group is gone or has been sent SIGKILL, the Manager's own signal handlers are
    back, and the result is the child's exit code or, when a signal was received, 128 plus the
    first signal; without a signal it is the exit code.  Signals may arrive at any instruction,
    also inside handlers, and processes may fork, die or be refused a signal at any time. *)
Theorem supervise_returns w s rc :
  fresh w → reachable grace w s → at_pc s = Done (Returned rc) →
  settled (system s) ∧ installed s = []
  ∧ ∃ code t, leader (system s) = Reaped code t
      ∧ match received s with [] => rc = code | n :: _ => rc = code ∨ rc = 128 + n end.
Proof.
  intros Hw Hr Hpc. pose proof (inv_reachable w s Hw Hr) as Hi. at_point Hi Hpc Hp.
  destruct Hp as (_ & Hs & code & (t & Hl & _) & Hrc). split_and!; [done| |by exists code, t].
  pose proof (i_end _ Hi) as He. unfold end_ok in He. by rewrite Hpc in He.
Qed.

(** C16.  SIGKILL is never sent to the launch's processes early: whenever the group is sent
    SIGKILL, a second signal has been received, or the grace period has passed since the first
    signal or since the child's exit, or an exception has ended supervision. *)
Theorem kills_justified w s r t :
  fresh w → reachable grace w s → (r, SIGKILL, t) ∈ sent (system s) → r ≠ Leader →
  (2 ≤ length (received s))%nat
  ∨ (∃ t0, started s = Some t0 ∧ t0 + grace ≤ t)
  ∨ (∃ c t0, leader (system s) = Reaped c t0 ∧ t0 + grace ≤ t)
  ∨ raised (at_pc s).
Proof.
  intros Hw Hr Hin Hl. pose proof (i_kills _ (inv_reachable w s Hw Hr)) as Hk.
  rewrite Forall_forall in Hk. destruct (Hk _ Hin Hl eq_refl) as [?|[[?|?]|?]]; auto.
Qed.

(** Supervision raises only what a refused signal or a failed start raises; in particular
    the time of the first signal is always there when it is needed, although handlers may
    interrupt each other between receiving a signal and noting its time. *)
Theorem supervise_errors w s e :
  fresh w → reachable grace w s → at_pc s = Done (Raised e) →
  e = permission ∨ e = FileNotFoundError "command".
Proof.
  intros Hw Hr Hpc. pose proof (inv_reachable w s Hw Hr) as Hi. at_point Hi Hpc Hp. by destruct Hp.
Qed.
End Proofs.
