(* ===== verification/SupervisorEnds.v ===== *)
(** * SupervisorEnds: supervision ends after a signal or the child's exit

    A rank of the states that every instruction of the Manager lowers and no event of the system
    raises, except a new signal, which adds the four instructions of its handler. *)

From S2P Require Import Prelude Effects Supervisor SupervisorProofs.

Local Open Scope string_scope.
Local Open Scope list_scope.
Local Open Scope Z_scope.

Section Ends.
Context (grace : Z).

(** ** The rank *)

(** Polls left until the deadline [d] at the time [c]. *)
Definition polls (d c : Z) : nat := Z.to_nat ((d - c + (_POLL - 1)) / _POLL).

Definition polls_of_grace : nat := polls grace 0.

(** Polls left until the first signal's grace period is over. *)
Definition left_polls (s : state) : nat :=
  match started s with
  | Some t => polls (t + grace) (clock (system s))
  | None => polls_of_grace
  end.

Definition finished (w : os) : bool :=
  match leader w with Exited _ _ | Reaped _ _ => true | _ => false end.

(** A bound on the instructions of the main program that are left. *)
Definition main_rank (s : state) : nat :=
  let w := system s in
  let b := (14 + polls_of_grace)%nat in
  let p := left_polls s in
  let k := patience w in
  match at_pc s with
  | Done _ => 0
  | RestoreHandlers todo _ => 1 + length todo
  | FinallyWait _ => 5
  | FinallyKill _ => 6
  | Finally _ => 7
  | Decide _ => 8
  | KillSurvivors _ => 9
  | AwaitTree _ d => 10 + polls d (clock w)
  | TermSurvivors _ d => 11 + polls d (clock w)
  | Survivors _ d => 12 + polls d (clock w)
  | SetDeadline _ => 13 + polls_of_grace
  | Wait esc => if finished w then b else if esc then b + 4 + 3 * k else b + 8 + 3 * p + 3 * k
  | Expired esc =>
      if finished w then b + 2
      else if esc then b + 5 + 3 * k
      else match p with O => b + 7 + 3 * k | _ => b + 9 + 3 * p + 3 * k end
  | Escalate => if finished w then b + 1 else b + 6 + 3 * k
  | NotifyTree | NotifyLeader => if finished w then b + 1 else b + 10 + 3 * p + 3 * k
  | CheckPending => if finished w then b + 2 else b + 11 + 3 * p + 3 * k
  | Assign => if finished w then b + 3 else b + 12 + 3 * p + 3 * k
  | Spawn => b + 13 + 3 * p + 3 * k
  | Install todo => b + 14 + length todo + 3 * p + 3 * k
  end%nat.

Definition frame_rank (f : frame) : nat :=
  match f with Enter _ => 4 | Append _ _ => 3 | TakeTime _ _ => 2 | Act _ => 1 end.

Definition frames_rank (fs : list frame) : nat := foldr (λ f n, (frame_rank f + n)%nat) O fs.

Definition rank (s : state) : nat := (main_rank s + frames_rank (frames s))%nat.

(** A signal was received, or the child has exited. *)
Definition ending (s : state) : Prop := received s ≠ [] ∨ finished (system s) = true.

(** ** Polls *)

Local Ltac polls_lia :=
  unfold polls_of_grace, polls, _POLL; Z.to_euclidean_division_equations; lia.

Lemma polls_mono d c c' : c ≤ c' → (polls d c' ≤ polls d c)%nat.
Proof. polls_lia. Qed.

Lemma polls_grace d c : d ≤ c + grace → (polls d c ≤ polls_of_grace)%nat.
Proof. polls_lia. Qed.

Lemma polls_poll d c : c < d → polls d c = S (polls d (c + _POLL)).
Proof. polls_lia. Qed.

Lemma polls_zero d c : polls d c = O ↔ d ≤ c.
Proof. polls_lia. Qed.

(** ** Events and handlers do not raise the rank of the main program *)

Lemma left_later s s' :
  later grace s s' → (started s = None → ∀ t, started s' = Some t → t ≤ clock (system s')) →
  (left_polls s' ≤ left_polls s)%nat.
Proof.
  intros Hl Hn. pose proof (l_clock _ _ _ Hl). unfold left_polls.
  destruct (started s) as [t|] eqn:E.
  - rewrite (l_started _ _ _ Hl t E). by apply polls_mono.
  - destruct (started s') as [t|] eqn:E'; [|done]. apply polls_grace. specialize (Hn eq_refl t eq_refl). lia.
Qed.

Lemma finished_later s s' :
  later grace s s' → finished (system s) = true → finished (system s') = true.
Proof.
  intros Hl. unfold finished.
  destruct (l_leader _ _ _ Hl) as [->|[[-> [? ->]]|(? & ? & -> & ->)]]; done.
Qed.

Lemma main_rank_later s s' :
  later grace s s' → (started s = None → ∀ t, started s' = Some t → t ≤ clock (system s')) →
  (patience (system s') ≤ patience (system s))%nat → (main_rank s' ≤ main_rank s)%nat.
Proof.
  intros Hl Hn Hk. pose proof (left_later s s' Hl Hn) as Hp.
  pose proof (finished_later s s' Hl) as Hf. pose proof (l_clock _ _ _ Hl) as Hc.
  unfold main_rank. rewrite (l_pc _ _ _ Hl).
  destruct (at_pc s) as [| | | | | |[]|[]| | | | | | | | | | | |]; try lia;
    try (apply (polls_mono deadline) in Hc; lia);
    destruct (finished (system s)); try rewrite (Hf eq_refl); try lia;
    destruct (finished (system s')); try lia.
  all: destruct (left_polls s), (left_polls s'); lia.
Qed.

Lemma ending_later s s' : later grace s s' → ending s → ending s'.
Proof.
  intros Hl [Hr|Hf]; [left|right; by eapply finished_later].
  destruct (l_received _ _ _ Hl) as [r ->]. by destruct (received s).
Qed.

(** ** The main program lowers it *)

Lemma ending_go p s : ending s → ending (go p s).
Proof. done. Qed.

Lemma ending_os w s :
  ending s → (finished (system s) = true → finished w = true) → ending (with_os w s).
Proof. intros [?|?] Hf; [by left|right; cbn; auto]. Qed.

Lemma tree_os signum w :
  leader (_signal_launch_tree signum w) = leader w ∧ clock (_signal_launch_tree signum w) = clock w
  ∧ patience (_signal_launch_tree signum w) = patience w.
Proof. by destruct (tree_sent signum w) as [->|(? & _ & ->)]. Qed.

Lemma finished_tree signum w : finished (_signal_launch_tree signum w) = finished w.
Proof. unfold finished. by destruct (tree_os signum w) as (-> & _). Qed.

Lemma leader_os signum w :
  clock (_signal_launch_leader signum w) = clock w
  ∧ patience (_signal_launch_leader signum w) = patience w
  ∧ finished (_signal_launch_leader signum w) = finished w.
Proof.
  unfold _signal_launch_leader, poll, finished. destruct (leader w) eqn:E; cbn; by rewrite ?E.
Qed.

Lemma poll_finished w w' c : poll w = (w', Some c) → finished w = true ∧ finished w' = true.
Proof. unfold poll, finished. destruct (leader w) eqn:E; intros [= <- <-]; cbn; by rewrite ?E. Qed.

(** What the invariant says at a point of the main program. *)
Ltac at_point Hi Hpc Hp :=
  pose proof (i_pc _ _ Hi) as Hp; unfold pc_ok in Hp; rewrite Hpc in Hp; cbn in Hp.

(** The rank of a state some of whose parts are known. *)
Ltac rank_step Hpc :=
  unfold main_rank; rewrite Hpc; cbn [at_pc go with_os send_tree send_leader with_child
    with_installed system]; rewrite ?Hpc;
  unfold left_polls, started; cbn [signal_started_at go with_os send_tree send_leader with_child
    with_installed system];
  rewrite ?finished_tree.

Definition lowers (s s' : state) : Prop := (main_rank s' < main_rank s)%nat ∧ ending s'.

Lemma wait_lowers s s' esc :
  inv grace s → frames s = [] → ending s → at_pc s = Wait esc → main grace s = Some s' →
  lowers s s'.
Proof.
  intros Hi Hf He Hpc Hm. unfold main in Hm. rewrite Hpc in Hm. at_point Hi Hpc Hp.
  destruct (poll (system s)) as [w [code|]] eqn:E.
  - apply poll_finished in E as [Hw Hw']. simplify_eq. split; [|by right].
    rank_step Hpc. rewrite Hw. lia.
  - apply poll_none in E as [-> Hl].
    assert (leader (system s) = Running) as Hrun by (destruct esc; destruct_and?; by destruct Hl).
    assert (finished (system s) = false) as Hfin by (unfold finished; by rewrite Hrun).
    destruct (survive_poll (system s)) as [w|] eqn:Es; [|done]. injection Hm as <-.
    destruct He as [Hr|?]; [|congruence].
    destruct (started_some grace s Hi Hf) as (t & Hs & Ht); [by rewrite Hpc|done|].
    split; [|by left]. rank_step Hpc. unfold started in Hs. rewrite Hs, Hfin.
    assert (finished w = false ∧ clock w = clock (system s) + _POLL
      ∧ (patience w ≤ patience (system s))%nat
      ∧ (doomed (system s) = true → patience (system s) = S (patience w))) as (-> & -> & Hk & Hd).
    { unfold survive_poll in Es. unfold finished in *.
      destruct (doomed (system s)); [destruct (patience (system s)) eqn:Ep; [done|]|];
        cbn in Es; simplify_eq; cbn; rewrite ?Ep; split_and!; try done; lia. }
    destruct esc; [destruct Hp as (_ & _ & Hp); specialize (Hd (Hp Hrun)); lia|].
    destruct (decide (t + grace ≤ clock (system s))) as [Hle|Hlt].
    + rewrite (proj2 (polls_zero (t + grace) _) Hle).
      rewrite (proj2 (polls_zero (t + grace) (clock (system s) + _POLL))); [lia|unfold _POLL; lia].
    + rewrite (polls_poll (t + grace) (clock (system s))) by lia. case_match; lia.
Qed.

Lemma expired_lowers s s' esc :
  inv grace s → frames s = [] → ending s → at_pc s = Expired esc → main grace s = Some s' →
  lowers s s'.
Proof.
  intros Hi Hf He Hpc Hm. unfold main in Hm. rewrite Hpc in Hm. injection Hm as <-.
  split; [|done]. at_point Hi Hpc Hp. rank_step Hpc. unfold grace_over.
  destruct (finished (system s)) eqn:Hfin.
  { repeat case_match; simplify_eq; try lia; cbn; rewrite ?Hfin; lia. }
  destruct He as [Hr|?]; [|congruence]. rewrite (bool_decide_false (received s = [])) by done.
  destruct esc; cbn; [lia|].
  destruct (started_some grace s Hi Hf) as (t & Hs & Ht); [by rewrite Hpc|done|].
  rewrite Hs. unfold started in Hs. rewrite Hs. cbn.
  destruct (grace <=? clock (system s) - t) eqn:Hg; rewrite ?Hfin.
  - case_match; lia.
  - assert (polls (t + grace) (clock (system s)) ≠ O) as Hz by (rewrite polls_zero; lia).
    case_match; [done|lia].
Qed.

Lemma cleanup_lowers s s' :
  inv grace s → frames s = [] → ending s →
  match at_pc s with
  | SetDeadline _ | Survivors _ _ | TermSurvivors _ _ | AwaitTree _ _ | KillSurvivors _ | Decide _ => True
  | _ => False
  end → main grace s = Some s' → lowers s s'.
Proof.
  intros Hi Hf He Hat Hm. unfold main in Hm. destruct (at_pc s) eqn:Hpc; try done; at_point Hi Hpc Hp;
    simplify_eq.
  - split; [|done]. destruct Hp as [_ Hr].
    destruct (cleanup_deadline_some grace s code Hi Hf) as (d & -> & _ & Hd);
      [by rewrite Hpc|done|]. rank_step Hpc. apply polls_grace in Hd. lia.
  - split; [|done]. rank_step Hpc. destruct (_launch_tree_exists _); lia.
  - split; [|apply ending_os; [done|]; by rewrite finished_tree].
    rank_step Hpc. destruct (tree_os SIGTERM (system s)) as (_ & -> & _). lia.
  - destruct (_launch_tree_exists (system s)); [destruct (deadline <=? clock (system s)) eqn:Ed|];
      simplify_eq; (split; [|done]); rank_step Hpc; try lia.
    rewrite (polls_poll deadline (clock (system s))) by lia. cbn. lia.
  - split; [|apply ending_os; [done|]; by rewrite finished_tree]. rank_step Hpc. lia.
  - split; [|done]. rank_step Hpc. lia.
Qed.

Lemma start_lowers s s' :
  inv grace s → frames s = [] → ending s →
  match at_pc s with
  | Install _ | Spawn | Assign | CheckPending | NotifyTree | NotifyLeader | Escalate => True
  | _ => False
  end → main grace s = Some s' → lowers s s'.
Proof.
  intros Hi Hf He Hat Hm. unfold main in Hm.
  destruct (at_pc s) as [[|n todo]| | | | | | | | | | | | | | | | | | |] eqn:Hpc;
    try done; at_point Hi Hpc Hp; simplify_eq.
  - split; [rank_step Hpc; lia|done].
  - split; [rank_step Hpc; cbn; lia|done].
  - destruct Hp as [_ Hu]. split; [rank_step Hpc; cbn; lia|].
    apply ending_os; [done|]. unfold finished. by rewrite Hu.
  - split; [|done]. rank_step Hpc. case_match; lia.
  - split; [|done]. rank_step Hpc. destruct He as [Hr|Hfin].
    + rewrite (bool_decide_false (received s = [])) by done. destruct (1 <? _)%nat; case_match; lia.
    + rewrite Hfin. destruct (bool_decide _); [|destruct (1 <? _)%nat]; lia.
  - split; [|apply ending_os; [done|]; by rewrite finished_tree].
    rank_step Hpc. destruct (tree_os _KILL_SIGNAL (system s)) as (_ & -> & ->). case_match; lia.
  - destruct (leader_os (hd 0 (received s)) (system s)) as (Ec & Ep & Ef).
    split; [|apply ending_os; [done|]; by rewrite Ef].
    rank_step Hpc. rewrite Ec, Ep, Ef. case_match; lia.
  - split; [|apply ending_os; [done|]; by rewrite finished_tree].
    rank_step Hpc. destruct (tree_os _KILL_SIGNAL (system s)) as (_ & _ & ->). case_match; lia.
Qed.

Lemma finally_lowers s s' :
  ending s → in_try (at_pc s) = false → main grace s = Some s' → lowers s s'.
Proof.
  intros He Ht Hm. unfold main in Hm.
  destruct (at_pc s) as [| | | | | | | | | | | | | | |o|o|o|[|n todo] o|o] eqn:Hpc; try done.
  - destruct (child s); [destruct (poll (system s)) as [w [c|]] eqn:E|]; simplify_eq;
      (split; [rank_step Hpc; cbn; lia|]); [right; exact (proj2 (poll_finished _ _ _ E))|done..].
  - simplify_eq. split; [rank_step Hpc; lia|]. apply ending_os; [done|]. by rewrite finished_tree.
  - destruct (poll (system s)) as [w [c|]] eqn:E; [|done]. simplify_eq.
    split; [rank_step Hpc; cbn; lia|]. right. exact (proj2 (poll_finished _ _ _ E)).
  - simplify_eq. split; [rank_step Hpc; lia|done].
  - simplify_eq. split; [rank_step Hpc; cbn; lia|done].
Qed.

Lemma main_lowers s s' :
  inv grace s → frames s = [] → ending s → main grace s = Some s' → lowers s s'.
Proof.
  intros Hi Hf He Hm. destruct (at_pc s) eqn:Hpc;
    first [ apply start_lowers; [done..|by rewrite Hpc|done]
          | by eapply wait_lowers
          | by eapply expired_lowers
          | apply cleanup_lowers; [done..|by rewrite Hpc|done]
          | apply finally_lowers; [done|by rewrite Hpc|done] ].
Qed.

(** ** Every step *)

Definition is_instruction (l : label) : bool := match l with Instruction => true | _ => false end.
Definition is_deliver (l : label) : bool := match l with Deliver _ => true | _ => false end.

(** How often a label that satisfies [b] occurs. *)
Definition count (b : label → bool) (ls : list label) : nat := length (List.filter b ls).

Lemma rank_later s s' :
  later grace s s' → inv grace s' → (patience (system s') ≤ patience (system s))%nat →
  (main_rank s' ≤ main_rank s)%nat.
Proof.
  intros Hl Hi Hk. apply main_rank_later; [done| |done]. intros _ t Ht.
  pose proof (i_time _ _ Hi) as Htm. unfold started in Ht.
  destruct (signal_started_at s') as [|t0 l]; [done|]. injection Ht as ->.
  by apply Forall_cons in Htm as [? _].
Qed.

Lemma forward_patience f rest s : patience (system (forward f rest s)) = patience (system s).
Proof.
  destruct f as [|n []|n []|n]; try done. cbn. unfold act. destruct (child s); [|done].
  destruct (1 <? _)%nat; cbn; [by destruct (tree_os _KILL_SIGNAL (system s)) as (_ & _ & ->)|].
  by destruct (leader_os n (system s)) as (_ & -> & _).
Qed.

Lemma forward_frames f rest s : frames s = f :: rest →
  S (frames_rank (frames (forward f rest s))) = frames_rank (frames s).
Proof. intros ->. by destruct f as [|n []|n []|n]. Qed.

Lemma raise_rank e s : (main_rank (raise_at e s) ≤ main_rank s)%nat.
Proof. unfold main_rank, raise_at. cbn. destruct (at_pc s); repeat case_match; lia. Qed.

(** An instruction of the main program starts no handler. *)
Lemma main_frames s s' : main grace s = Some s' → frames s' = frames s.
Proof.
  unfold main. intros Hm.
  destruct (at_pc s) as [[]| | | | | |[]|[]| | | | | | | | | | |[]|]; simplify_eq; try done;
    try (destruct (poll (system s)) as [? [?|]]); try (destruct (survive_poll (system s)));
    repeat case_match; simplify_eq; try done; by injection Hm as <-.
Qed.

Lemma raise_frames e s : frames_rank (frames (raise_at e s)) = 0%nat.
Proof. done. Qed.

(** An event of the system. *)
Lemma event_rank s w :
  inv grace (with_os w s) → ending s → later grace s (with_os w s) → patience w = patience (system s) →
  ending (with_os w s) ∧ (rank (with_os w s) ≤ rank s)%nat.
Proof.
  intros Hi He Hl Hk. split; [by eapply ending_later|]. unfold rank.
  change (frames (with_os w s)) with (frames s).
  apply Nat.add_le_mono_r, rank_later; [done..|]. by rewrite <-Hk.
Qed.

(** A step: an instruction lowers the rank, a signal raises it by its handler's instructions. *)
Lemma step_rank l s s' :
  inv grace s → ending s → step grace l s = Some s' →
  ending s' ∧ (rank s' + (if is_instruction l then 1 else 0)
               ≤ rank s + (if is_deliver l then 4 else 0))%nat.
Proof.
  intros Hi He Hs. pose proof (supervisor_inv_step grace l s s' Hi Hs) as Hi'.
  assert (∀ e, raise_at e s = s' → ending s' ∧ (rank s' ≤ rank s)%nat) as Hraise.
  { intros e <-. split; [done|]. unfold rank. pose proof (raise_rank e s). cbn. lia. }
  assert (∀ w, with_os w s = s' → later grace s (with_os w s) → patience w = patience (system s) →
    ending s' ∧ (rank s' ≤ rank s)%nat) as Hevent.
  { intros w <-. by apply event_rank. }
  destruct l as [| | |n|n|c| | |]; cbn in Hs; rewrite ?Nat.add_0_r.
  - destruct (frames s) as [|f rest] eqn:Hf; unfold rank.
    + destruct (main_lowers s s' Hi Hf He Hs) as [Hlt ?]. split; [done|].
      apply main_frames in Hs. rewrite Hs, Hf. unfold lowers in *. cbn. lia.
    + injection Hs as <-. pose proof (later_forward grace f rest s Hf) as Hl.
      split; [by eapply ending_later|]. apply forward_frames in Hf as Hfr. rewrite Hf in Hfr.
      pose proof (rank_later _ _ Hl Hi' ltac:(by rewrite forward_patience)) as Hr.
      rewrite Hf. cbn [is_instruction is_deliver]. lia.
  - apply (Hraise permission). repeat case_match; by simplify_eq.
  - apply (Hraise (FileNotFoundError "command")). repeat case_match; by simplify_eq.
  - case_bool_decide; [|done]. simplify_eq. split; [done|]. unfold rank.
    change (main_rank (with_frames (Enter n :: frames s) s)) with (main_rank s).
    cbn [frames with_frames frames_rank foldr frame_rank is_instruction is_deliver].
    unfold frames_rank. lia.
  - destruct (0 <=? n) eqn:En; [|done]. simplify_eq. apply (Hevent _ eq_refl); [|done].
    apply later_os; cbn; auto; lia.
  - destruct (leader (system s)) eqn:El; try done. simplify_eq. apply (Hevent _ eq_refl); [|done].
    apply later_os; cbn; eauto; try lia; congruence.
  - destruct (negb _ && _) eqn:Hfk; [|done]. simplify_eq. apply (Hevent _ eq_refl); [|done].
    apply later_os; cbn; eauto; try lia. intros c t Hl Hst. by destruct (forks_disabled _ Hfk c t).
  - destruct (survivors (system s)) as [|n] eqn:En; [done|]. simplify_eq.
    apply (Hevent _ eq_refl); [|done]. apply later_os; cbn; eauto; try lia.
    intros c t Hl [Hst|Hst]; [congruence|by right].
  - destruct (leader (system s)) eqn:El; try done. destruct (group_exists _) eqn:Eg; [done|].
    simplify_eq. apply (Hevent _ eq_refl); [|done]. apply later_os; cbn; eauto; lia.
Qed.

Lemma run_rank s ls s' :
  run grace s ls s' → inv grace s → ending s →
  inv grace s' ∧ ending s' ∧ (rank s' + count is_instruction ls ≤ rank s + 4 * count is_deliver ls)%nat.
Proof.
  induction 1 as [|s l s1 ls s2 Hs Hrun IH]; intros Hi He; [split_and!; [done..|cbn; lia]|].
  destruct (step_rank l s s1 Hi He Hs) as [He1 Hr1].
  destruct (IH (supervisor_inv_step grace l s s1 Hi Hs) He1) as (Hi2 & He2 & Hr2). split_and!; [done..|].
  unfold count in *. cbn. destruct (is_instruction l), (is_deliver l); cbn in *; lia.
Qed.

(** ** Bounds and progress *)

Lemma left_polls_bound s : inv grace s → (left_polls s ≤ polls_of_grace)%nat.
Proof.
  intros Hi. unfold left_polls, started. pose proof (i_time _ _ Hi) as Ht.
  destruct (signal_started_at s) as [|t l]; [done|]. cbn. apply Forall_cons in Ht as [Ht _].
  apply polls_grace. lia.
Qed.

Lemma main_rank_bound s :
  inv grace s → (main_rank s ≤ 31 + 4 * polls_of_grace + 3 * patience (system s))%nat.
Proof.
  intros Hi. pose proof (left_polls_bound s Hi) as Hp. pose proof (i_pc _ _ Hi) as Hpc.
  pose proof (i_end _ _ Hi) as He. unfold pc_ok in Hpc. unfold end_ok in He. unfold main_rank.
  destruct (at_pc s) as [todo| | | | | |[]|[]| | | | | | | | | | |todo o|]; try lia.
  all: try (destruct Hpc as (_ & _ & _ & Hd); apply polls_grace in Hd; lia).
  all: try (destruct (finished (system s)); lia).
  destruct (finished (system s)), (left_polls s); lia.
Qed.

Lemma frames_rank_bound fs : (frames_rank fs ≤ 4 * length fs)%nat.
Proof.
  induction fs as [|f fs IH]; [done|]. unfold frames_rank in *. cbn [foldr length].
  destruct f; cbn [frame_rank]; lia.
Qed.

Definition over (s : state) : Prop := ∃ o, at_pc s = Done o.

(** The Manager can go on, or waits for a child that has been sent SIGKILL. *)
Lemma progress s :
  inv grace s → ending s → over s ∨ is_Some (step grace Instruction s)
    ∨ (leader (system s) = Running ∧ doomed (system s) = true).
Proof.
  intros Hi He. cbn. destruct (frames s) as [|f rest] eqn:Hf; [|right; left; by eexists].
  unfold main. pose proof (i_pc _ _ Hi) as Hp. pose proof (i_end _ _ Hi) as Hend.
  unfold pc_ok in Hp. unfold end_ok in Hend.
  destruct (at_pc s) as [[]| | | | | |esc| | | | | |code d| | | | |o|[] o|o] eqn:Hpc;
    try (right; left; by eexists); try (right; left; by repeat case_match; eexists).
  - destruct (poll (system s)) as [w [c|]] eqn:E; [right; left; by eexists|].
    apply poll_none in E as [-> Hl].
    assert (leader (system s) = Running) as Hrun by (destruct esc; destruct_and?; by destruct Hl).
    unfold survive_poll. destruct (doomed (system s)) eqn:Ed; [by right; right|].
    right; left; by eexists.
  - destruct (poll (system s)) as [w [c|]] eqn:E; [right; left; by eexists|].
    apply poll_none in E as [-> Hl]. destruct o as [|e]; [done|]. destruct Hend as [Hc Hd].
    destruct Hp as [_ Hu]. destruct Hl as [Hl|Hl]; [by destruct (Hu Hc)|right; right; auto].
  - left. by eexists.
Qed.

(** C17.  Supervision ends: once a signal has been received or the child has exited, in every
    interleaving the Manager executes at most four instructions per poll of the grace period,
    three per poll a killed child may survive, four per further signal and a constant; and
    until it is over it can go on, unless it waits for a child that has been sent SIGKILL. *)
Theorem supervise_terminates w s ls s' :
  fresh w → reachable grace w s →
  received s ≠ [] ∨ finished (system s) = true →
  run grace s ls s' →
  (count is_instruction ls
     ≤ 31 + 4 * polls_of_grace + 3 * patience (system s)
       + 4 * (length (frames s) + count is_deliver ls))%nat
  ∧ (over s' ∨ is_Some (step grace Instruction s')
     ∨ (leader (system s') = Running ∧ doomed (system s') = true)).
Proof.
  intros Hw Hr He Hrun. pose proof (inv_reachable grace w s Hw Hr) as Hi.
  destruct (run_rank s ls s' Hrun Hi He) as (Hi' & He' & Hrank). split; [|by apply progress].
  pose proof (main_rank_bound s Hi). pose proof (frames_rank_bound (frames s)).
  unfold rank in Hrank. lia.
Qed.
End Ends.

(** ** Executions *)

Lemma execute_run grace ls s s' : execute grace ls s = Some s' → run grace s ls s'.
Proof.
  revert s. induction ls as [|l ls IH]; intros s; cbn; [intros [= <-]; constructor|].
  destruct (step grace l s) as [s1|] eqn:E; [|done]. cbn. intros Hx. econstructor; eauto.
Qed.

Lemma reachable_run grace w s ls s' : reachable grace w s → run grace s ls s' → reachable grace w s'.
Proof.
  intros Hr Hrun. revert Hr. induction Hrun as [|s l s1 ls s2 Hs Hrun IH]; [done|].
  intros Hr. apply IH. by eapply reachable_step.
Qed.

(** A list of labels reaches a state. *)
Lemma executed grace w ls s :
  0 ≤ grace → execute grace ls (initial w) = Some s → reachable grace w s.
Proof.
  intros Hg Hx. eapply reachable_run; [|by apply execute_run]. constructor.
  unfold supervise. by rewrite (proj2 (Z.leb_le 0 grace) Hg).
Qed.

Module SupervisorDemo.
Definition machine : os := mkOs 0 Unborn 0 false false 2 [].

Lemma machine_fresh : fresh machine.
Proof. done. Qed.

(** [n] instructions. *)
Definition instructions (n : nat) : list label := repeat Instruction n.

(** Start the child and wait for it. *)
Definition launched : list label := instructions 7.

(** SIGTERM arrives while the Manager waits; its handler signals the leader, which exits with
    code 3; the Manager cleans up and returns. *)
Definition orderly : list label :=
  launched ++ Deliver SIGTERM :: instructions 4 ++ LeaderExits 3 :: instructions 9.

(** A state reached, or the launch's first one. *)
Definition after (ls : list label) : state :=
  default (initial machine) (execute 10000 ls (initial machine)).

Lemma after_reachable ls :
  is_Some (execute 10000 ls (initial machine)) → reachable 10000 machine (after ls).
Proof.
  intros [s Hs]. unfold after. rewrite Hs. by apply (executed 10000 machine ls).
Qed.

Lemma supervise_returns_witness :
  settled (system (after orderly)) ∧ installed (after orderly) = []
  ∧ ∃ code t, leader (system (after orderly)) = Reaped code t
      ∧ match received (after orderly) with
        | [] => 143 = code
        | n :: _ => 143 = code ∨ 143 = 128 + n
        end.
Proof.
  refine (supervise_returns 10000 machine (after orderly) 143 machine_fresh _ _).
  - apply after_reachable. vm_compute. by eexists.
  - vm_compute. reflexivity.
Defined.

(** Two signals: the second one kills the group. *)
Definition impatient : list label :=
  launched ++ Deliver SIGINT :: instructions 4 ++ Deliver SIGINT :: instructions 4.

Lemma kills_justified_witness :
  (2 ≤ length (received (after impatient)))%nat
  ∨ (∃ t0, started (after impatient) = Some t0 ∧ t0 + 10000 ≤ 0)
  ∨ (∃ c t0, leader (system (after impatient)) = Reaped c t0 ∧ t0 + 10000 ≤ 0)
  ∨ raised (at_pc (after impatient)).
Proof.
  refine (kills_justified 10000 machine (after impatient) Tree 0 machine_fresh _ _ _).
  - apply after_reachable. vm_compute. by eexists.
  - vm_compute. left.
  - discriminate.
Defined.

(** The child cannot be started. *)
Definition missing : list label := instructions 4 ++ SpawnFails :: instructions 5.

Lemma supervise_errors_witness :
  FileNotFoundError "command" = permission
  ∨ FileNotFoundError "command" = FileNotFoundError "command".
Proof.
  refine (supervise_errors 10000 machine (after missing) (FileNotFoundError "command")
    machine_fresh _ _).
  - apply after_reachable. vm_compute. by eexists.
  - vm_compute. reflexivity.
Defined.

Definition signalled : list label := launched ++ Deliver SIGTERM :: instructions 4.

Lemma supervise_terminates_witness :
  (count is_instruction (LeaderExits 3 :: instructions 9)
     ≤ 31 + 4 * polls_of_grace 10000 + 3 * patience (system (after signalled))
       + 4 * (length (frames (after signalled)) + count is_deliver (LeaderExits 3 :: instructions 9)))%nat.
Proof.
  refine (proj1 (supervise_terminates 10000 machine (after signalled)
    (LeaderExits 3 :: instructions 9) (after orderly) machine_fresh _ _ _)).
  - apply after_reachable. vm_compute. by eexists.
  - left. vm_compute. discriminate.
  - apply execute_run. vm_compute. reflexivity.
Defined.

(** A signal between the assignment of [child] and the test of [received] reaches the leader
    twice: from the handler and from the main program. *)
Definition racing : list label :=
  instructions 6 ++ Deliver SIGINT :: instructions 6.

Example signal_delivered_twice :
  sent (system (after racing)) = [(Leader, SIGINT, 0); (Leader, SIGINT, 0)]
  ∧ received (after racing) = [SIGINT].
Proof. by vm_compute. Qed.

(** The number of a group that is gone may be taken by another: the clean-up signals it. *)
Definition recycling : list label :=
  launched ++ [LeaderExits 0; Instruction; Instruction; Recycle] ++ instructions 2.

Example stranger_signalled : sent (system (after recycling)) = [(Stranger, SIGTERM, 0)].
Proof. by vm_compute. Qed.
End SupervisorDemo.
