(* ===== verification/Base64.v ===== *)
(** * Base64: the journal bytes inside an intent record

    [base64.b64encode] and [base64.b64decode(..., validate=True)] of quarantine_transaction.py,
    the decoder as the state machine of CPython 3.11's [binascii.a2b_base64] in strict mode
    ([quad] is the position in the current group of four, [left] the bits carried over).
    Encoding then decoding gives the bytes back, and the length of the encoding is known. *)

From S2P Require Import Prelude.

Local Open Scope N_scope.

(** The character of a 6-bit value, and the value of a character. *)
Definition b64_char (n : N) : ascii :=
  ascii_of_N (if n <? 26 then 65 + n else if n <? 52 then 71 + n
    else if n <? 62 then n - 4 else if n =? 62 then 43 else 47).

Definition b64_value (c : ascii) : option N :=
  let n := N_of_ascii c in
  if (65 <=? n) && (n <=? 90) then Some (n - 65)
  else if (97 <=? n) && (n <=? 122) then Some (n - 71)
  else if (48 <=? n) && (n <=? 57) then Some (n + 4)
  else if n =? 43 then Some 62 else if n =? 47 then Some 63 else None.

(** [b64encode(raw).decode()]. *)
Fixpoint b64encode (raw : string) : string :=
  match raw with
  | String a (String b (String c r)) =>
      let x := N_of_ascii a in let y := N_of_ascii b in let z := N_of_ascii c in
      String (b64_char (x / 4)) (String (b64_char (x mod 4 * 16 + y / 16))
        (String (b64_char (y mod 16 * 4 + z / 64)) (String (b64_char (z mod 64)) (b64encode r))))
  | String a (String b EmptyString) =>
      let x := N_of_ascii a in let y := N_of_ascii b in
      String (b64_char (x / 4)) (String (b64_char (x mod 4 * 16 + y / 16))
        (String (b64_char (y mod 16 * 4)) (String "=" EmptyString)))
  | String a EmptyString =>
      let x := N_of_ascii a in
      String (b64_char (x / 4)) (String (b64_char (x mod 4 * 16))
        (String "=" (String "=" EmptyString)))
  | EmptyString => EmptyString
  end.

(** The bytes one more character completes, the next group position and the carried bits. *)
Definition b64_step (quad left v : N) : string * (N * N) :=
  if quad =? 0 then (EmptyString, (1, v))
  else if quad =? 1 then (String (ascii_of_N (left * 4 + v / 16)) EmptyString, (2, v mod 16))
  else if quad =? 2 then (String (ascii_of_N (left * 16 + v / 4)) EmptyString, (3, v mod 4))
  else (String (ascii_of_N (left * 64 + v)) EmptyString, (0, 0)).

Fixpoint b64_run (quad left pads : N) (padding : bool) (s : string) : option string :=
  match s with
  | EmptyString => if quad =? 0 then Some EmptyString else None
  | String c s' =>
      if Ascii.eqb c "=" then
        if quad <? 2 then b64_run quad left pads true s'
        else if 4 <=? quad + (pads + 1) then
          match s' with EmptyString => Some EmptyString | _ => None end
        else b64_run quad left (pads + 1) true s'
      else
        v ← b64_value c;
        if padding then None
        else
          let '(out, (quad', left')) := b64_step quad left v in
          r ← b64_run quad' left' 0 false s'; Some (out +:+ r)
  end.

(** [None] is the [ValueError] ([binascii.Error]). *)
Definition b64decode (s : string) : option string :=
  match s with
  | String "=" _ => None
  | _ => b64_run 0 0 0 false s
  end.

(** CPython's answers on a few texts. *)
Example b64decode_ex :
  map b64decode ["YWI="; "YWI"; "YR=="; "abcd="; "ab=c"; "ab==cd"; "===="; EmptyString]
  = [Some "ab"; None; Some "a"; b64decode "abcd"; None; None; None; Some EmptyString]%string.
Proof. reflexivity. Qed.

(** ** Round trip *)

Lemma b64_char_value n :
  n < 64 → b64_value (b64_char n) = Some n ∧ Ascii.eqb (b64_char n) "=" = false.
Proof.
  intros Hn.
  assert (forallb (λ n, bool_decide (b64_value (b64_char n) = Some n)
    && negb (Ascii.eqb (b64_char n) "=")) (map N.of_nat (seq 0 64)) = true) as H
    by (vm_compute; reflexivity).
  rewrite forallb_forall in H. specialize (H n). cbv beta in H.
  assert (In n (map N.of_nat (seq 0 64))) as Hin.
  { apply in_map_iff. exists (N.to_nat n). split; [lia|]. apply in_seq. lia. }
  specialize (H Hin). by reflect.
Qed.

Lemma b64_run_char quad left pads n s :
  n < 64 → b64_run quad left pads false (String (b64_char n) s)
  = let '(out, (quad', left')) := b64_step quad left n in
    r ← b64_run quad' left' 0 false s; Some (out +:+ r).
Proof.
  intros Hn. destruct (b64_char_value n Hn) as [Hv He]. cbn [b64_run].
  by rewrite He, Hv.
Qed.

Lemma ascii_bound c : N_of_ascii c < 256.
Proof. apply N_ascii_bounded. Qed.

(** Splitting a byte at a power of two and joining the parts again. *)
Lemma byte_join c d : d ≠ 0 → ascii_of_N (N_of_ascii c / d * d + N_of_ascii c mod d) = c.
Proof.
  intros Hd. rewrite <-(ascii_N_embedding c) at 3. f_equal.
  rewrite (N.mul_comm _ d). symmetry. by apply N.div_mod.
Qed.

Lemma div_mul_add a b d : b < d → (a * d + b) / d = a ∧ (a * d + b) mod d = b.
Proof.
  intros Hb. split.
  - symmetry. apply N.div_unique with b; lia.
  - symmetry. apply N.mod_unique with a; lia.
Qed.

Lemma b64_first a : N_of_ascii a / 4 < 64.
Proof. apply N.Div0.div_lt_upper_bound. pose proof (ascii_bound a). lia. Qed.

(** What the decoder makes of the four characters of a group. *)
Lemma b64_run0 n s :
  n < 64 → b64_run 0 0 0 false (String (b64_char n) s) = b64_run 1 n 0 false s.
Proof. intros Hn. rewrite b64_run_char by done. cbn. by destruct (b64_run _ _ _ _ _). Qed.

Lemma b64_run1 a y s :
  y < 16 → b64_run 1 (N_of_ascii a / 4) 0 false (String (b64_char (N_of_ascii a mod 4 * 16 + y)) s)
  = String a <$> b64_run 2 y 0 false s.
Proof.
  intros Hy. pose proof (N.mod_lt (N_of_ascii a) 4 ltac:(lia)). rewrite b64_run_char by lia.
  unfold b64_step. cbn [N.eqb Pos.eqb].
  destruct (div_mul_add (N_of_ascii a mod 4) y 16 Hy) as [-> ->].
  rewrite byte_join by done. by destruct (b64_run _ _ _ _ _).
Qed.

Lemma b64_run2 b z s :
  z < 4 → b64_run 2 (N_of_ascii b / 16) 0 false (String (b64_char (N_of_ascii b mod 16 * 4 + z)) s)
  = String b <$> b64_run 3 z 0 false s.
Proof.
  intros Hz. pose proof (N.mod_lt (N_of_ascii b) 16 ltac:(lia)). rewrite b64_run_char by lia.
  unfold b64_step. cbn [N.eqb Pos.eqb].
  destruct (div_mul_add (N_of_ascii b mod 16) z 4 Hz) as [-> ->].
  rewrite byte_join by done. by destruct (b64_run _ _ _ _ _).
Qed.

Lemma b64_run3 c s :
  b64_run 3 (N_of_ascii c / 64) 0 false (String (b64_char (N_of_ascii c mod 64)) s)
  = String c <$> b64_run 0 0 0 false s.
Proof.
  rewrite b64_run_char by (apply N.mod_lt; lia). unfold b64_step. cbn [N.eqb Pos.eqb].
  rewrite byte_join by done. by destruct (b64_run _ _ _ _ _).
Qed.

(** Induction three bytes at a time. *)
Lemma triples_ind (P : string → Prop) :
  P EmptyString → (∀ a, P (String a EmptyString)) → (∀ a b, P (String a (String b EmptyString))) →
  (∀ a b c r, P r → P (String a (String b (String c r)))) → ∀ s, P s.
Proof.
  intros H0 H1 H2 H3. enough (∀ s, P s ∧ (∀ a, P (String a s)) ∧ ∀ a b, P (String a (String b s)))
    as H by (intros s; apply H).
  induction s as [|x s (IH1 & IH2 & IH3)]; [done|]. split_and!; auto.
Qed.

Lemma b64_run_encode s : b64_run 0 0 0 false (b64encode s) = Some s.
Proof.
  assert (∀ b, N_of_ascii b / 16 < 16) as B1
    by (intros b; apply N.Div0.div_lt_upper_bound; pose proof (ascii_bound b); lia).
  assert (∀ b, N_of_ascii b / 64 < 4) as B2
    by (intros b; apply N.Div0.div_lt_upper_bound; pose proof (ascii_bound b); lia).
  induction s as [|a|a b|a b c r IH] using triples_ind; [done|..]; cbn [b64encode].
  - rewrite b64_run0 by apply b64_first. rewrite <-(N.add_0_r (_ * 16)).
    by rewrite b64_run1 by lia.
  - rewrite b64_run0 by apply b64_first. rewrite b64_run1 by done. rewrite <-(N.add_0_r (_ * 4)).
    by rewrite b64_run2 by lia.
  - rewrite b64_run0 by apply b64_first. rewrite b64_run1, b64_run2, b64_run3 by done.
    by rewrite IH.
Qed.

Lemma b64decode_encode s : b64decode (b64encode s) = Some s.
Proof.
  rewrite <-(b64_run_encode s). destruct (b64encode s) as [|c t] eqn:E; [done|].
  unfold b64decode. assert (c ≠ "="%char) as Hne.
  { intros ->. destruct s as [|a [|b [|d r]]]; simpl in E; [done|..];
      injection E as E _; pose proof (proj2 (b64_char_value _ (b64_first a))) as H;
      rewrite E in H; done. }
  destruct c as [[] [] [] [] [] [] [] []]; try done.
Qed.

Lemma b64encode_length s :
  String.length (b64encode s) = (4 * ((String.length s + 2) / 3))%nat.
Proof.
  induction s as [|a|a b|a b c r IH] using triples_ind; [done..|].
  cbn [b64encode String.length]. rewrite IH.
  replace (S (S (S (String.length r))) + 2)%nat with (String.length r + 2 + 1 * 3)%nat by lia.
  rewrite Nat.div_add by lia. lia.
Qed.
