(* ===== verification/HostEvidence.v ===== *)
(** * HostEvidence: unsigned host lifecycle events (host_evidence.py)

    [parse_strict] of attestation/profile.py (JSON without repeated keys or constants),
    [parse_host_event], which accepts an event only when its identities are consistent and its
    digests match its content, and [translate_invocation], which turns an accepted event into an
    attestation statement (attestation/model.py).  The detail of a malformed text is not
    modelled, and [_validate_unicode] always passes, as no modelled string holds a surrogate. *)

From S2P Require Import Prelude Effects Json JsonText Sha256 EcpaModel.

Local Open Scope string_scope.

(** The codes of attestation/profile.py that these functions use. *)
Definition MALFORMED_JSON := "ATTESTATION_MALFORMED_JSON".
Definition DUPLICATE_KEY := "ATTESTATION_DUPLICATE_KEY".
Definition UNSUPPORTED_VALUE := "ATTESTATION_UNSUPPORTED_VALUE".
Definition BINDING_MISMATCH := "ATTESTATION_BINDING_MISMATCH".
Definition INVALID_STATEMENT := "ATTESTATION_INVALID_STATEMENT".

Definition SCHEMA := "ecpa-attestation-statement/0.1".
Definition PROFILE := "ecpa-jcs-jws-eddsa/0.1".

(** The first key that is in the dictionary already. *)
Fixpoint repeated (seen : list string) (kvs : list (string * json)) : option string :=
  match kvs with
  | [] => None
  | (k, _) :: kvs' => if bool_decide (k ∈ seen) then Some k else repeated (k :: seen) kvs'
  end.

Definition _pairs (pairs : list (string * json)) : result json :=
  match repeated [] pairs with
  | Some key => Err (AttestationError DUPLICATE_KEY key)
  | None => Ok (JObj pairs)
  end.

Definition unsupported_constant (value : string) : result json :=
  Err (AttestationError UNSUPPORTED_VALUE value).

Definition parse_strict (raw : string) : result (list (string * json)) :=
  match loads_with _pairs unsupported_constant raw with
  | Ok (JObj kvs) => Ok kvs
  | Ok _ => Err (AttestationError MALFORMED_JSON "top level must be object")
  | Err (AttestationError c d) => Err (AttestationError c d)
  | Err _ => Err (AttestationError MALFORMED_JSON "malformed")
  end.

Definition HOST_SCHEMA := "vllm-hust-plugin-evidence/0.1".
Definition EVENTS : list string :=
  ["discovered"; "resolved"; "invoked"; "failed"; "skipped"; "effective"].
Definition OBSERVATION_KINDS : list string :=
  ["loader_lifecycle"; "scheduler_resolution"; "scheduler_dispatch"; "runtime_effective"].

Definition _invalid {A} (detail : string) : result A :=
  Err (AttestationError INVALID_STATEMENT detail).

(** [if not b: _invalid(detail)]. *)
Definition demand (b : bool) (detail : string) : result unit :=
  check b (AttestationError INVALID_STATEMENT detail).

Definition event_fields : list string :=
  ["schema"; "event_id"; "event"; "observation_kind"; "entry_point"; "process";
   "observed_at_ns"; "delivery_attempt"; "plan_id"; "launch_id"; "binding_status";
   "occurrence_id"; "controller_instance_id"; "invocation_seq"; "dispatch_id"; "plugin_id";
   "artifact_digest"; "identity_status"; "detail"].

Definition legacy_process_fields : list string :=
  ["host"; "role"; "ordinal"; "pid"; "start_identity"; "process_epoch"].

Definition is_null (value : json) : bool := match value with JNull => true | _ => false end.
Definition is_str (value : json) : bool := match value with JStr _ => true | _ => false end.
Definition nonempty_str (value : json) : bool :=
  match value with JStr s => negb (s =? EmptyString) | _ => false end.

(** An integer that is no boolean and is at least [low]. *)
Definition int_from (low : Z) (value : json) : bool :=
  match value with JInt z => (low <=? z)%Z | _ => false end.

Definition members_of (value : json) : list (string * json) :=
  match value with JObj kvs => kvs | _ => [] end.

Definition is_object (fields : list string) (value : json) : bool :=
  match value with JObj kvs => same_keys fields kvs | _ => false end.

(** ** The checks of [parse_host_event], in order *)

(** Lines 97-133: fields, schema, entry point and process identity. *)
Definition check_shape (value : list (string * json)) : result unit :=
  demand (same_keys event_fields value) "host event fields do not match schema";;
  let unsupported := AttestationError INVALID_STATEMENT "unsupported host event schema or event" in
  check (py_eqb (get "schema" value) (JStr HOST_SCHEMA)) unsupported;;
  event ← in_set (get "event" value) EVENTS;
  check event unsupported;;
  observation ← in_set (get "observation_kind" value) OBSERVATION_KINDS;
  check observation unsupported;;
  let entry := get "entry_point" value in
  let process := get "process" value in
  demand (is_object ["group"; "name"; "value"] entry) "entry_point fields do not match schema";;
  demand (is_object legacy_process_fields process
          || is_object (legacy_process_fields ++ ["assignment_source"])%list process)
    "process fields do not match schema";;
  let process := members_of process in
  demand (forallb nonempty_str
            ([get "event_id" value; get "identity_status" value]
             ++ ((λ name, get name (members_of entry)) <$> ["group"; "name"; "value"])
             ++ ((λ name, get name process) <$> ["host"; "role"; "start_identity"]))%list)
    "required host event strings must be non-empty";;
  match assoc "assignment_source" process with
  | None => Ok tt
  | Some source =>
      known ← in_set source ["host"; "environment"];
      demand known "assignment_source must be host or environment"
  end.

(** The text of a string value. *)
Definition str_of (value : json) : string := match value with JStr s => s | _ => EmptyString end.
Definition int_of (value : json) : Z := match value with JInt z => z | _ => 0%Z end.

(** [try: r except ValueError: h]; [AttestationError] is a [ValueError], so the error of negative
    start ticks is replaced by the handler's. *)
Definition except_value_error {A} (r h : result A) : result A :=
  match r with
  | Err (ValueError _) | Err (AttestationError _ _) => h
  | _ => r
  end.

(** Lines 134-153: the integers, and the start identity that embeds the pid. *)
Definition check_integers (value : list (string * json)) : result unit :=
  let process := members_of (get "process" value) in
  demand (forallb (int_from 0)
            [get "ordinal" process; get "pid" process; get "process_epoch" process;
             get "observed_at_ns" value; get "delivery_attempt" value])
    "host event integer must be non-negative";;
  let prefix := "pid:" +:+ z_str (int_of (get "pid" process)) +:+ ":start_ticks:" in
  match strip_prefix prefix (str_of (get "start_identity" process)) with
  | None => _invalid "start_identity does not bind the process pid"
  | Some ticks =>
      except_value_error
        (match int_of_string ticks with
         | None => Err (ValueError "invalid literal for int() with base 10")
         | Some z => demand (0 <=? z)%Z "process start ticks must be non-negative"
         end)
        (_invalid "process start identity is unavailable")
  end;;
  demand (int_from 1 (get "delivery_attempt" value)) "delivery_attempt must be positive".

(** Lines 154-165: plan and launch identity. *)
Definition check_binding (value : list (string * json)) : result unit :=
  map_result (λ name,
      let item := get name value in
      demand (is_null item || nonempty_str item) (name +:+ " must be null or string"))
    ["plan_id"; "launch_id"; "detail"; "controller_instance_id"];;
  bound ← in_set (get "binding_status" value) ["bound"; "unbound"];
  demand bound "binding_status must be bound or unbound";;
  demand (Bool.eqb (is_null (get "plan_id" value)) (is_null (get "launch_id" value)))
    "plan and launch identity must both be present or both be absent";;
  demand (Bool.eqb (negb (is_null (get "plan_id" value)) && negb (is_null (get "launch_id" value)))
            (py_eqb (get "binding_status" value) (JStr "bound")))
    "binding_status does not match plan and launch identity".

(** Lines 166-189: the types of the occurrence, sequence and dispatch identities. *)
Definition check_identities (value : list (string * json)) : result unit :=
  let occurrence_id := get "occurrence_id" value in
  demand (is_null occurrence_id || int_from 1 occurrence_id || nonempty_str occurrence_id)
    "occurrence_id must be a positive integer, string, or null";;
  let invocation_seq := get "invocation_seq" value in
  demand (is_null invocation_seq || int_from 1 invocation_seq)
    "invocation_seq must be a positive integer or null";;
  let dispatch_id := get "dispatch_id" value in
  demand (match dispatch_id with
          | JNull => true
          | JStr s => (String.length s =? 64)%nat && string_forall is_hex s
          | _ => false
          end) "dispatch_id must be a lowercase SHA-256 hex digest or null".

Section Events.
Context `{Sha256}.

(** [hashlib.sha256(json.dumps(items, separators=(",", ":")).encode()).hexdigest()]. *)
Definition material_digest (items : list json) : string :=
  sha256_hexdigest (ascii_dumps (JArr items)).

Definition is_int (value : json) : bool := match value with JInt _ => true | _ => false end.

(** The dispatch digest binds host, process, plan and occurrence. *)
Definition dispatch_digest (value : list (string * json)) (controller : json) : string :=
  let process := members_of (get "process" value) in
  material_digest
    [get "host" process; get "start_identity" process; get "process_epoch" process;
     get "plan_id" value; get "launch_id" value; controller; get "occurrence_id" value].

(** Lines 190-259: what each kind of observation must identify. *)
Definition check_observation (value : list (string * json)) : result unit :=
  let occurrence_id := get "occurrence_id" value in
  let invocation_seq := get "invocation_seq" value in
  let dispatch_id := get "dispatch_id" value in
  let controller := get "controller_instance_id" value in
  let event := get "event" value in
  let kind := str_of (get "observation_kind" value) in
  if kind =? "loader_lifecycle" then
    demand (forallb is_null [occurrence_id; controller; invocation_seq; dispatch_id])
      "loader lifecycle event contains scheduler-only identity"
  else if kind =? "scheduler_resolution" then
    demand (py_eqb event (JStr "resolved") && is_str controller
            && py_eqb occurrence_id (JStr ("controller:" +:+ str_of controller))
            && is_null invocation_seq && is_null dispatch_id)
      "scheduler resolution identity is inconsistent"
  else if kind =? "scheduler_dispatch" then
    demand (py_eqb event (JStr "invoked") && is_str controller && is_int occurrence_id
            && py_eqb invocation_seq occurrence_id)
      "scheduler dispatch identity is inconsistent";;
    demand (py_eqb dispatch_id (JStr (dispatch_digest value controller)))
      "scheduler dispatch identity digest is inconsistent"
  else
    demand (py_eqb event (JStr "effective") && negb (is_null occurrence_id)
            && is_null controller) "runtime effective identity is inconsistent";;
    if is_int occurrence_id then
      demand (py_eqb invocation_seq occurrence_id)
        "runtime effective integer occurrence is inconsistent";;
      demand (py_eqb dispatch_id (JStr (dispatch_digest value JNull)))
        "runtime effective occurrence digest is inconsistent"
    else
      demand (is_null invocation_seq && is_null dispatch_id)
        "runtime effective string occurrence is inconsistent".

(** The items the event's identifier is the digest of. *)
Definition event_material_items (value : list (string * json)) : list json :=
  let process := members_of (get "process" value) in
  let entry := members_of (get "entry_point" value) in
  [get "host" process; get "pid" process; get "start_identity" process;
   get "process_epoch" process; get "role" process; get "ordinal" process;
   get "group" entry; get "name" entry; get "value" entry; get "event" value;
   get "detail" value; get "occurrence_id" value; get "plan_id" value; get "launch_id" value;
   get "observation_kind" value; get "controller_instance_id" value;
   get "delivery_attempt" value; get "observed_at_ns" value]
  ++ match assoc "assignment_source" process with
     | Some source => if is_null source then [] else [source]
     | None => []
     end.

Definition parse_host_event (raw : string) : result (list (string * json)) :=
  value ← parse_strict raw;
  check_shape value;;
  check_integers value;;
  check_binding value;;
  check_identities value;;
  check_observation value;;
  demand (py_eqb (get "event_id" value) (JStr (material_digest (event_material_items value))))
    "event_id does not match host event material";;
  demand (is_null (get "plugin_id" value) && is_null (get "artifact_digest" value))
    "Phase A host events must not invent plugin identity or digest";;
  Ok value.

(** ** Translation to an attestation statement *)

Record EntryPointBinding := mkBinding {
  b_group : string;
  b_name : string;
  b_value : string;
  b_plugin_id : string;
  b_obligation : string;
}.

Record ProcessStatement := mkProcessStatement {
  ps_host : json;
  ps_role : json;
  ps_ordinal : json;
  ps_start_identity : json;
  ps_epoch : Z;
}.

Record AttestationStatement := mkStatement {
  s_schema : string;
  s_profile : string;
  s_issuer : string;
  s_kid : string;
  s_subject : string;
  s_plan_id : string;
  s_launch_id : string;
  s_plugin_id : string;
  s_artifact_digest : string;
  s_process : ProcessStatement;
  s_obligation : string;
  s_event : string;
  s_observed_at : Z;
  s_issued_at : Z;
  s_expires_at : Z;
  s_challenge_nonce : string;
  s_evidence_digest : string;
  s_critical_claims : list string;
}.

Record HostReceipt := mkHostReceipt {
  hr_raw : string;
  hr_event : list (string * json);
  hr_statement : AttestationStatement;
}.

(** [if not b: raise AttestationError(BINDING_MISMATCH, detail)]. *)
Definition match_binding (b : bool) (detail : string) : result unit :=
  check b (AttestationError BINDING_MISMATCH detail).

Definition translate_invocation (raw : string) (plan : Plan) (launch_id : string)
    (process_epoch : Z) (binding : EntryPointBinding) (issuer kid challenge_nonce : string)
    (issued_at expires_at : Z) : result HostReceipt :=
  event ← parse_host_event raw;
  demand (py_eqb (get "event" event) (JStr "invoked"))
    "only host-observed invoked events satisfy invocation evidence";;
  match_binding (py_eqb (get "binding_status" event) (JStr "bound"))
    "unbound host events cannot satisfy invocation evidence";;
  let process := members_of (get "process" event) in
  match_binding (py_eqb (get "assignment_source" process) (JStr "host"))
    "formal invocation evidence requires host-assigned process identity";;
  match_binding (py_eqb (get "plan_id" event) (JStr (plan_id plan))
                 && py_eqb (get "launch_id" event) (JStr launch_id)) "plan or launch mismatch";;
  match_binding (py_eqb (get "process_epoch" process) (JInt process_epoch))
    "process epoch mismatch";;
  let entry := members_of (get "entry_point" event) in
  match_binding (py_eqb (get "group" entry) (JStr (b_group binding))
                 && py_eqb (get "name" entry) (JStr (b_name binding))
                 && py_eqb (get "value" entry) (JStr (b_value binding))) "entry point mismatch";;
  match find (λ item, plugin_id item =? b_plugin_id binding) (plugins plan) with
  | None => Err (AttestationError BINDING_MISMATCH "plugin is absent from Plan")
  | Some plugin =>
      Ok (mkHostReceipt raw event
        (mkStatement SCHEMA PROFILE issuer kid "host-runtime" (plan_id plan) launch_id
           (plugin_id plugin) ("sha256:" +:+ artifact_sha256 plugin)
           (mkProcessStatement (get "host" process) (get "role" process) (get "ordinal" process)
              (get "start_identity" process) process_epoch)
           (b_obligation binding) "invoked"
           (int_of (get "observed_at_ns" event) / 1000000000)%Z issued_at expires_at
           challenge_nonce ("sha256:" +:+ sha256_hexdigest raw) []))
  end.
End Events.
