(* ===== verification/AttestationProfile.v ===== *)
(** * AttestationProfile: signed attestation statements (attestation/profile.py, attestation/model.py)

    A statement travels as its canonical JSON and a detached JWS over it.  Canonicalization (the
    [jcs] package) and Ed25519 (the [cryptography] package) are the operations of the classes
    [Jcs] and [Ed25519], with the laws the code relies on; that a signature cannot be forged is
    not a law of the model.  Type tests on the fields of typed records are left out.  Where the
    code walks over a set of field names, the model takes the order of the declarations: only
    the detail of a refusal depends on it.  [parse_strict] and the records are in HostEvidence.v. *)

From S2P Require Import Prelude Effects Json Sha256 JsonText Base64 ProviderPlans EcpaModel HostEvidence.
From S2P Require Manifest.

Local Open Scope string_scope.
Local Open Scope list_scope.

Definition TYPE : string := "application/ecpa-attestation+jws".
Definition ALGORITHM : string := "EdDSA".
Definition KNOWN_CRITICAL_CLAIMS : list string := [].
Definition MAX_SAFE_INTEGER : Z := 2 ^ 53 - 1.
Definition DEFAULT_MAX_TTL : Z := 300.
Definition DEFAULT_MAX_OBSERVATION_AGE : Z := 300.

(** The codes that HostEvidence.v has not. *)
Definition NONCANONICAL_PAYLOAD := "ATTESTATION_NONCANONICAL_PAYLOAD".
Definition MALFORMED_JWS := "ATTESTATION_MALFORMED_JWS".
Definition WRONG_ALGORITHM := "ATTESTATION_WRONG_ALGORITHM".
Definition WRONG_TYPE := "ATTESTATION_WRONG_TYPE".
Definition WRONG_PROFILE := "ATTESTATION_WRONG_PROFILE".
Definition UNKNOWN_CRITICAL_HEADER := "ATTESTATION_UNKNOWN_CRITICAL_HEADER".
Definition UNKNOWN_CRITICAL_CLAIM := "ATTESTATION_UNKNOWN_CRITICAL_CLAIM".
Definition UNKNOWN_KEY := "ATTESTATION_UNKNOWN_KEY".
Definition KEY_MISMATCH := "ATTESTATION_KEY_MISMATCH".
Definition INVALID_SIGNATURE := "ATTESTATION_INVALID_SIGNATURE".
Definition NOT_YET_VALID := "ATTESTATION_NOT_YET_VALID".
Definition EXPIRED := "ATTESTATION_EXPIRED".
Definition INVALID_TIME := "ATTESTATION_INVALID_TIME".
Definition TRUST_POLICY := "ATTESTATION_TRUST_POLICY".
Definition TRUST_STORE_CONFIG := "ATTESTATION_TRUST_STORE_CONFIG".

(** [if not b: raise AttestationError(code, detail)]. *)
Definition require (b : bool) (code detail : string) : result unit :=
  check b (AttestationError code detail).

(** ** Third-party code *)

(** [jcs.canonicalize]; an error is whatever exception it raises. *)
Class Jcs := jcs_canonicalize : json → result string.

(** Keys, and signatures over bytes. *)
Class Ed25519 (SK PK : Type) := {
  public_key_of : SK → PK;
  ed_sign : SK → string → string;
  ed_verify : PK → string → string → bool }.

Class Ed25519Laws SK PK `{Ed25519 SK PK} :=
  ed_verify_sign (key : SK) message : ed_verify (public_key_of key) (ed_sign key message) message = true.

(** ** base64url *)

Fixpoint string_map (f : ascii → ascii) (s : string) : string :=
  match s with
  | EmptyString => EmptyString
  | String c s' => String (f c) (string_map f s')
  end.

(** [value.rstrip(b"=")]. *)
Fixpoint rstrip_pad (s : string) : string :=
  match s with
  | EmptyString => EmptyString
  | String c s' =>
      match rstrip_pad s' with
      | EmptyString => if Ascii.eqb c "=" then EmptyString else String c EmptyString
      | r => String c r
      end
  end.

Definition to_url (c : ascii) : ascii :=
  if Ascii.eqb c "+" then "-" else if Ascii.eqb c "/" then "_" else c.
Definition of_url (c : ascii) : ascii :=
  if Ascii.eqb c "-" then "+" else if Ascii.eqb c "_" then "/" else c.

Definition _b64url (value : string) : string := rstrip_pad (string_map to_url (b64encode value)).

(** [[A-Za-z0-9_-]], which has neither the pad nor a character that is not ASCII. *)
Definition BASE64URL (c : ascii) : bool :=
  let n := N_of_ascii c in
  (65 <=? n)%N && (n <=? 90)%N || (97 <=? n)%N && (n <=? 122)%N
  || (48 <=? n)%N && (n <=? 57)%N || Ascii.eqb c "_" || Ascii.eqb c "-".

Definition pad_of (length : nat) : string :=
  match (length mod 4)%nat with 2%nat => "==" | 3%nat => "=" | _ => "" end.

(** What the tests leave is decoded in the same way by the strict decoder of Base64.v and by the
    lenient one of [urlsafe_b64decode]. *)
Definition _b64url_decode (value : string) : result string :=
  _ ← require (negb (String.length value mod 4 =? 1)%nat && string_forall BASE64URL value)
        MALFORMED_JWS "non-canonical base64url";
  match b64decode (string_map of_url (value +:+ pad_of (String.length value))) with
  | None => Err (AttestationError MALFORMED_JWS "invalid base64url")
  | Some decoded =>
      _ ← require (_b64url decoded =? value) MALFORMED_JWS "non-canonical base64url";
      Ok decoded
  end.

(** ** Canonical JSON *)

(** Strings always encode: no modelled string has a surrogate. *)
Fixpoint _validate_values (value : json) : result unit :=
  match value with
  | JInt z =>
      require ((- MAX_SAFE_INTEGER <=? z)%Z && (z <=? MAX_SAFE_INTEGER)%Z)
        UNSUPPORTED_VALUE "integer exceeds I-JSON safe range"
  | JObj kvs =>
      fold_left (λ r kv, _ ← r; _validate_values kv.2) kvs (Ok tt)
  | JArr l => fold_left (λ r item, _ ← r; _validate_values item) l (Ok tt)
  | _ => Ok tt
  end.

Definition canonicalize `{Jcs} (value : json) : result string :=
  _ ← _validate_values value;
  match jcs_canonicalize value with
  | Ok text => Ok text
  | Err e => Err (AttestationError UNSUPPORTED_VALUE (exn_str e))
  end.

(** RFC 8785: the canonical text of a value whose integers are within the safe range (outside it
    a number is rounded to a double) is read back, its members sorted, and depends neither on
    the order of members nor on anything else but the value. *)
Class JcsLaws `{Jcs} := {
  jcs_reads kvs text : keys_unique (JObj kvs) = true → _validate_values (JObj kvs) = Ok tt →
    jcs_canonicalize (JObj kvs) = Ok text →
    ∃ kvs', parse_strict text = Ok kvs' ∧ norm (JObj kvs) = JObj kvs';
  jcs_norm v : keys_unique v = true → _validate_values v = Ok tt →
    jcs_canonicalize (norm v) = jcs_canonicalize v }.

(** ** Trust *)

Record SignedEnvelope := mkEnvelope { payload : string; detached_jws : string }.

Record TrustEntry (PK : Type) := mkTrustEntry {
  te_issuer : string; te_kid : string; te_public_key : PK; te_subjects : list string;
  te_not_before : Z; te_not_after : Z; te_enabled : bool }.
Arguments mkTrustEntry {PK}.
Arguments te_issuer {PK}. Arguments te_kid {PK}. Arguments te_public_key {PK}.
Arguments te_subjects {PK}. Arguments te_not_before {PK}. Arguments te_not_after {PK}.
Arguments te_enabled {PK}.

Definition TrustStore (PK : Type) : Type := gmap (string * string) (TrustEntry PK).

Definition valid_entry {PK} (item : TrustEntry PK) : bool :=
  negb (te_issuer item =? "") && negb (te_kid item =? "")
  && negb (bool_decide (te_subjects item = []))
  && forallb (λ x, negb (x =? "")) (te_subjects item)
  && (0 <=? te_not_before item)%Z && (te_not_before item <=? te_not_after item)%Z.

Definition add_entry {PK} (entries : TrustStore PK) (item : TrustEntry PK) : result (TrustStore PK) :=
  _ ← require (valid_entry item) TRUST_STORE_CONFIG "invalid trust entry";
  let identity := (te_issuer item, te_kid item) in
  _ ← require (bool_decide (entries !! identity = None)) TRUST_STORE_CONFIG
        ("duplicate trust entry: " +:+ te_issuer item +:+ "/" +:+ te_kid item);
  Ok (<[identity := item]> entries).

Definition trust_store {PK} (entries : list (TrustEntry PK)) : result (TrustStore PK) :=
  fold_result add_entry ∅ entries.

Definition lookup_key {PK} (entries : TrustStore PK) (issuer kid subject : string) (now : Z)
    : result (TrustEntry PK) :=
  match entries !! (issuer, kid) with
  | None => Err (AttestationError UNKNOWN_KEY kid)
  | Some entry =>
      _ ← require (te_enabled entry && bool_decide (subject ∈ te_subjects entry)
                   && (te_not_before entry <=? now)%Z && (now <=? te_not_after entry)%Z)
            TRUST_POLICY (issuer +:+ "/" +:+ kid +:+ "/" +:+ subject);
      Ok entry
  end.

(** ** Statements *)

Definition process_members (p : ProcessStatement) : list (string * json) :=
  [("host", ps_host p); ("role", ps_role p); ("ordinal", ps_ordinal p);
   ("start_identity", ps_start_identity p); ("epoch", JInt (ps_epoch p))].

(** [AttestationStatement.to_dict]. *)
Definition statement_dict (s : AttestationStatement) : list (string * json) :=
  [("schema", JStr (s_schema s)); ("profile", JStr (s_profile s)); ("issuer", JStr (s_issuer s));
   ("kid", JStr (s_kid s)); ("subject", JStr (s_subject s)); ("plan_id", JStr (s_plan_id s));
   ("launch_id", JStr (s_launch_id s)); ("plugin_id", JStr (s_plugin_id s));
   ("artifact_digest", JStr (s_artifact_digest s)); ("process", JObj (process_members (s_process s)));
   ("obligation", JStr (s_obligation s)); ("event", JStr (s_event s));
   ("observed_at", JInt (s_observed_at s)); ("issued_at", JInt (s_issued_at s));
   ("expires_at", JInt (s_expires_at s)); ("challenge_nonce", JStr (s_challenge_nonce s));
   ("evidence_digest", JStr (s_evidence_digest s));
   ("critical_claims", JArr (JStr <$> s_critical_claims s))].

Definition string_fields : list string :=
  ["schema"; "profile"; "issuer"; "kid"; "subject"; "plan_id"; "launch_id"; "plugin_id";
   "artifact_digest"; "obligation"; "event"; "challenge_nonce"; "evidence_digest"].
Definition time_fields : list string := ["observed_at"; "issued_at"; "expires_at"].
Definition top_fields : list string := string_fields ++ time_fields ++ ["process"; "critical_claims"].
Definition process_fields : list string := ["host"; "role"; "ordinal"; "start_identity"; "epoch"].

(** An integer that is no boolean, from 0 to the largest safe one. *)
Definition safe_integer (value : json) : bool :=
  match value with JInt z => (0 <=? z)%Z && (z <=? MAX_SAFE_INTEGER)%Z | _ => false end.

Definition DIGEST (value : json) : bool :=
  match value with
  | JStr s =>
      match strip_prefix "sha256:" s with
      | Some h => (String.length h =? 64)%nat && string_forall Sha256.is_hex h
      | None => false
      end
  | _ => false
  end.

(** The record of the members, those of the process and the claims. *)
Definition read_statement (value process : list (string * json)) (critical_claims : list string)
    : AttestationStatement :=
  let text field := str_of (get field value) in
  mkStatement (text "schema") (text "profile") (text "issuer") (text "kid") (text "subject")
    (text "plan_id") (text "launch_id") (text "plugin_id") (text "artifact_digest")
    (mkProcessStatement (get "host" process) (get "role" process) (get "ordinal" process)
       (get "start_identity" process) (int_of (get "epoch" process)))
    (text "obligation") (text "event") (int_of (get "observed_at" value))
    (int_of (get "issued_at" value)) (int_of (get "expires_at" value)) (text "challenge_nonce")
    (text "evidence_digest") critical_claims.

(** [AttestationStatement.from_dict]; its [ValueError]s become [AttestationError]s. *)
Definition from_dict (value : list (string * json)) : result AttestationStatement :=
  _ ← demand (same_keys top_fields value && is_object process_fields (get "process" value))
        "statement fields do not match schema";
  Ok (read_statement value (members_of (get "process" value))
        (match get "critical_claims" value with JArr l => str_of <$> l | _ => [] end)).

Definition demand_each (test : json → bool) (value : list (string * json)) (fields : list string)
    (detail : string → string) : result unit :=
  fold_result (λ _ name, demand (test (get name value)) (detail name)) tt fields.

Definition validate_statement (value : list (string * json)) : result AttestationStatement :=
  _ ← demand (same_keys top_fields value) "missing or additional statement property";
  _ ← demand (is_object process_fields (get "process" value))
        "missing or additional process property";
  let process := members_of (get "process" value) in
  let must_be why name := name +:+ " must be " +:+ why in
  let in_process why name := "process." +:+ must_be why name in
  _ ← demand_each nonempty_str value string_fields (must_be "a non-empty string");
  _ ← demand_each nonempty_str process ["host"; "role"; "start_identity"]
        (in_process "a non-empty string");
  _ ← demand_each safe_integer process ["ordinal"; "epoch"]
        (in_process "a non-negative safe integer");
  _ ← demand_each safe_integer value time_fields (must_be "a non-negative safe integer");
  critical ← match get "critical_claims" value with
    | JArr l => _ ← demand (forallb is_str l) "critical_claims must be an array of strings"; Ok l
    | _ => _invalid "critical_claims must be an array of strings"
    end;
  _ ← demand (negb (has_dups (map str_of critical))) "critical_claims must be unique";
  _ ← demand (DIGEST (get "artifact_digest" value) && DIGEST (get "evidence_digest" value))
        "digest must be sha256:<64 lowercase hex>";
  from_dict value.

(** ** Signing *)

Definition _protected (kid : string) : list (string * json) :=
  [("alg", JStr ALGORITHM); ("crit", JArr [JStr "ecpa_profile"]); ("ecpa_profile", JStr PROFILE);
   ("kid", JStr kid); ("typ", JStr TYPE)].

Definition of_profile (s : AttestationStatement) : result unit :=
  require ((s_schema s =? SCHEMA) && (s_profile s =? PROFILE)) WRONG_PROFILE (s_profile s).

Section Profile.
Context `{Jcs} {SK PK : Type} `{Ed25519 SK PK}.

Definition sign (statement : AttestationStatement) (key : SK) : result SignedEnvelope :=
  _ ← of_profile statement;
  let value := statement_dict statement in
  _ ← validate_statement value;
  payload ← canonicalize (JObj value);
  protected ← canonicalize (JObj (_protected (s_kid statement)));
  let encoded_header := _b64url protected in
  let signature := _b64url (ed_sign key (encoded_header +:+ "." +:+ _b64url payload)) in
  Ok (mkEnvelope payload (encoded_header +:+ ".." +:+ signature)).

(** ** Verification *)

(** The protected header, of which the key identifier varies. *)
Definition read_header (encoded : string) : result string :=
  header_raw ← _b64url_decode encoded;
  header ← parse_strict header_raw;
  _ ← require (same_keys ["alg"; "crit"; "ecpa_profile"; "kid"; "typ"] header)
        UNKNOWN_CRITICAL_HEADER "protected header fields do not match profile";
  canonical ← canonicalize (JObj header);
  _ ← require (header_raw =? canonical) MALFORMED_JWS "protected header is not canonical";
  let is_value name v := py_eqb (get name header) v in
  let text name := ProviderPlans.py_str (get name header) in
  _ ← require (is_value "alg" (JStr ALGORITHM)) WRONG_ALGORITHM (text "alg");
  _ ← require (is_value "typ" (JStr TYPE)) WRONG_TYPE (text "typ");
  _ ← require (is_value "crit" (JArr [JStr "ecpa_profile"])) UNKNOWN_CRITICAL_HEADER (text "crit");
  _ ← require (is_value "ecpa_profile" (JStr PROFILE)) WRONG_PROFILE (text "ecpa_profile");
  match get "kid" header with
  | JStr kid => Ok kid
  | _ => Err (AttestationError UNKNOWN_KEY (text "kid"))
  end.

Definition read_payload (text kid : string) : result AttestationStatement :=
  value ← parse_strict text;
  canonical ← canonicalize (JObj value);
  _ ← require (text =? canonical) NONCANONICAL_PAYLOAD "payload must be JCS bytes";
  statement ← validate_statement value;
  _ ← of_profile statement;
  _ ← require (s_kid statement =? kid) KEY_MISMATCH (s_kid statement);
  let unknown_claims := Manifest.minus (s_critical_claims statement) KNOWN_CRITICAL_CLAIMS in
  _ ← require (bool_decide (unknown_claims = [])) UNKNOWN_CRITICAL_CLAIM
        (String.concat "," (Manifest.sorted_names unknown_claims));
  Ok statement.

Definition check_times (s : AttestationStatement) (now clock_skew max_ttl max_observation_age : Z)
    : result unit :=
  _ ← require ((s_issued_at s <=? now + clock_skew)%Z && (s_observed_at s <=? now + clock_skew)%Z)
        NOT_YET_VALID (s_kid s);
  _ ← require (now - clock_skew <=? s_expires_at s)%Z EXPIRED (s_kid s);
  _ ← require ((s_observed_at s <=? s_issued_at s)%Z && (s_issued_at s <=? s_expires_at s)%Z)
        INVALID_TIME "expected observed <= issued <= expires";
  _ ← require (s_expires_at s - s_issued_at s <=? max_ttl)%Z INVALID_TIME "TTL exceeds policy";
  require (now - s_observed_at s <=? max_observation_age + clock_skew)%Z
    INVALID_TIME "observation exceeds maximum age".

Definition verify (envelope : SignedEnvelope) (store : TrustStore PK)
    (now clock_skew max_ttl max_observation_age : Z) : result AttestationStatement :=
  match Manifest.split_on "." (detached_jws envelope) with
  | [encoded; ""; encoded_signature] =>
      kid ← read_header encoded;
      statement ← read_payload (payload envelope) kid;
      entry ← lookup_key store (s_issuer statement) kid (s_subject statement) now;
      signature ← _b64url_decode encoded_signature;
      _ ← require (ed_verify (te_public_key entry) signature
                     (encoded +:+ "." +:+ _b64url (payload envelope))) INVALID_SIGNATURE kid;
      _ ← check_times statement now clock_skew max_ttl max_observation_age;
      Ok statement
  | _ => Err (AttestationError MALFORMED_JWS "expected detached compact JWS")
  end.

(** ** The coordinator's verifier *)

Record SignedAttestationVerifier := mkVerifier {
  envelopes : gmap string SignedEnvelope; trusted : TrustStore PK;
  clock_skew : Z; max_ttl : Z; max_observation_age : Z }.

(** What a receipt expects of its statement, and what the statement says. *)
Definition expected_binding (a : Attestation) : list (string * json) :=
  [("subject", JStr (authority a)); ("issuer", JStr (issuer a)); ("kid", JStr (kid a));
   ("plan_id", JStr (att_plan_id a)); ("launch_id", JStr (att_launch_id a));
   ("plugin_id", JStr (artifact_id a)); ("host", JStr (host (process a)));
   ("role", JStr (role (process a))); ("ordinal", JInt (ordinal (process a)));
   ("start_identity", JStr (start_id (process a))); ("epoch", JInt (epoch (process a)));
   ("obligation", JStr (att_obligation_id a)); ("event", JStr (att_event a));
   ("issued_at", JInt (issued_at a)); ("observed_at", JInt (observed_at a));
   ("expires_at", JInt (expires_at a)); ("challenge_nonce", JStr (nonce a));
   ("evidence_digest", JStr (evidence_digest a)); ("artifact_digest", JStr (artifact_digest a))].

Definition actual_binding (s : AttestationStatement) : list (string * json) :=
  [("subject", JStr (s_subject s)); ("issuer", JStr (s_issuer s)); ("kid", JStr (s_kid s));
   ("plan_id", JStr (s_plan_id s)); ("launch_id", JStr (s_launch_id s));
   ("plugin_id", JStr (s_plugin_id s)); ("host", ps_host (s_process s));
   ("role", ps_role (s_process s)); ("ordinal", ps_ordinal (s_process s));
   ("start_identity", ps_start_identity (s_process s)); ("epoch", JInt (ps_epoch (s_process s)));
   ("obligation", JStr (s_obligation s)); ("event", JStr (s_event s));
   ("issued_at", JInt (s_issued_at s)); ("observed_at", JInt (s_observed_at s));
   ("expires_at", JInt (s_expires_at s)); ("challenge_nonce", JStr (s_challenge_nonce s));
   ("evidence_digest", JStr (s_evidence_digest s)); ("artifact_digest", JStr (s_artifact_digest s))].

Definition verify_receipt `{Sha256.Sha256} (v : SignedAttestationVerifier) (attestation : Attestation)
    (now : Z) (plan : Plan) : result unit :=
  match envelopes v !! nonce attestation with
  | None => Err (AttestationError BINDING_MISMATCH "missing signed envelope")
  | Some envelope =>
      statement ← verify envelope (trusted v) now (clock_skew v) (max_ttl v) (max_observation_age v);
      _ ← require
            match List.find (λ item, plugin_id item =? artifact_id attestation) (plugins plan) with
            | None => false
            | Some plugin => s_artifact_digest statement =? "sha256:" +:+ artifact_sha256 plugin
            end BINDING_MISMATCH "statement does not bind the expected artifact digest";
      require (py_eqb (JObj (actual_binding statement)) (JObj (expected_binding attestation)))
        BINDING_MISMATCH "statement does not bind receipt"
  end.
End Profile.
