(* ===== verification/AttestationProofs.v ===== *)
(** * AttestationProofs: what a signature on a statement promises

    A signed envelope is verified exactly when it is the canonical text of a well-formed, fresh
    statement, with a signature over it by a key that is trusted for its subject. *)

From S2P Require Import Prelude Effects Json Sha256 JsonText JsonFacts Base64 Manifest ProviderPlans EcpaModel HostEvidence AttestationProfile.

Local Open Scope string_scope.
Local Open Scope list_scope.

(** ** base64url *)

Lemma url_char n :
  (n < 64)%N →
  let c := to_url (b64_char n) in
  Ascii.eqb c "=" = false ∧ of_url c = b64_char n ∧ BASE64URL c = true.
Proof.
  intros Hn.
  assert (forallb (λ n, let c := to_url (b64_char n) in
    negb (Ascii.eqb c "=") && Ascii.eqb (of_url c) (b64_char n) && BASE64URL c)
    (map N.of_nat (seq 0 64)) = true) as H by (vm_compute; reflexivity).
  rewrite forallb_forall in H. specialize (H n). cbv beta zeta in H.
  assert (In n (map N.of_nat (seq 0 64))) as Hin.
  { apply in_map_iff. exists (N.to_nat n). split; [lia|]. apply in_seq. lia. }
  specialize (H Hin). reflect. split_and!; [done| |done]. by apply Ascii.eqb_eq.
Qed.

(** A text of base64url characters that decodes to [e] once it is padded. *)
Definition encodes (u e : string) : Prop :=
  string_map of_url (u +:+ pad_of (String.length u)) = e
  ∧ (String.length u mod 4 =? 1)%nat = false ∧ string_forall BASE64URL u = true.

Lemma rstrip_char c s :
  Ascii.eqb c "=" = false → rstrip_pad (String c s) = String c (rstrip_pad s).
Proof. intros Hc. cbn [rstrip_pad]. destruct (rstrip_pad s); [by rewrite Hc|done]. Qed.

Lemma encodes_group w x y z u e :
  (w < 64)%N → (x < 64)%N → (y < 64)%N → (z < 64)%N → encodes u e →
  encodes (String (to_url (b64_char w)) (String (to_url (b64_char x))
      (String (to_url (b64_char y)) (String (to_url (b64_char z)) u))))
    (String (b64_char w) (String (b64_char x) (String (b64_char y) (String (b64_char z) e)))).
Proof.
  intros Hw Hx Hy Hz (<- & Hm & Hu).
  assert ((String.length u + 4) mod 4 = String.length u mod 4)%nat as Hm4.
  { exact (Nat.Div0.mod_add _ 1 4). }
  assert (String.length u + 4 = S (S (S (S (String.length u)))))%nat as Hs by lia.
  rewrite Hs in Hm4. unfold encodes, pad_of. cbn [String.length]. rewrite Hm4.
  rewrite !str_app_cons. cbn [string_map string_forall].
  destruct (url_char w Hw) as (_ & -> & ->), (url_char x Hx) as (_ & -> & ->),
    (url_char y Hy) as (_ & -> & ->), (url_char z Hz) as (_ & -> & ->).
  by split_and!.
Qed.

Lemma encode_bounds a b c :
  let x := N_of_ascii a in let y := N_of_ascii b in let z := N_of_ascii c in
  (x / 4 < 64)%N ∧ (x mod 4 * 16 + y / 16 < 64)%N ∧ (y mod 16 * 4 + z / 64 < 64)%N
  ∧ (z mod 64 < 64)%N ∧ (x mod 4 * 16 < 64)%N ∧ (y mod 16 * 4 < 64)%N.
Proof.
  cbn. pose proof (ascii_bound a). pose proof (ascii_bound b). pose proof (ascii_bound c).
  assert (N_of_ascii a / 4 < 64 ∧ N_of_ascii b / 16 < 16 ∧ N_of_ascii c / 64 < 4)%N as (?&?&?).
  { split_and!; apply N.Div0.div_lt_upper_bound; lia. }
  pose proof (N.mod_lt (N_of_ascii a) 4 ltac:(lia)).
  pose proof (N.mod_lt (N_of_ascii b) 16 ltac:(lia)).
  pose proof (N.mod_lt (N_of_ascii c) 64 ltac:(lia)). lia.
Qed.

Lemma b64url_encodes s : encodes (_b64url s) (b64encode s).
Proof.
  unfold _b64url. induction s as [|a|a b|a b c r IH] using triples_ind.
  - by split_and!.
  - destruct (encode_bounds a a a) as (H1 & _ & _ & _ & H2 & _). cbn [b64encode string_map].
    destruct (url_char _ H1) as (E1 & O1 & U1), (url_char _ H2) as (E2 & O2 & U2).
    rewrite !rstrip_char by done. split_and!; [|done|cbn [string_forall]; by rewrite U1, U2].
    rewrite !str_app_cons. cbn [string_map]. by rewrite O1, O2.
  - destruct (encode_bounds a b b) as (H1 & H2 & _ & _ & _ & H3). cbn [b64encode string_map].
    destruct (url_char _ H1) as (E1 & O1 & U1), (url_char _ H2) as (E2 & O2 & U2),
      (url_char _ H3) as (E3 & O3 & U3).
    rewrite !rstrip_char by done. split_and!; [|done|cbn [string_forall]; by rewrite U1, U2, U3].
    rewrite !str_app_cons. cbn [string_map]. by rewrite O1, O2, O3.
  - destruct (encode_bounds a b c) as (H1 & H2 & H3 & H4 & _). cbn [b64encode string_map].
    rewrite !rstrip_char by (by apply url_char). by apply encodes_group.
Qed.

(** Exactly the texts that [_b64url] makes are decoded. *)
Lemma b64url_decode_iff u s : _b64url_decode u = Ok s ↔ u = _b64url s.
Proof.
  split.
  - intros [_ H]%check_bind. destruct (b64decode _) as [d|]; [|done].
    apply check_bind in H as [Hd [= <-]]. by reflect.
  - intros ->. destruct (b64url_encodes s) as (He & Hm & Hu). unfold _b64url_decode, require.
    rewrite Hm, Hu. cbn [negb andb check mbind result_bind]. rewrite He, b64decode_encode.
    by rewrite String.eqb_refl.
Qed.

Lemma b64url_chars s : string_forall BASE64URL (_b64url s) = true.
Proof. apply b64url_encodes. Qed.

(** ** A detached JWS *)

Lemma split_on_none c s : string_forall (λ x, negb (Ascii.eqb x c)) s = true → split_on c s = [s].
Proof.
  induction s as [|x s IH]; [done|]. cbn [string_forall split_on].
  intros [Hx%negb_true_iff Hs]%andb_true_iff. by rewrite Hx, IH.
Qed.

Lemma split_on_app c s t :
  string_forall (λ x, negb (Ascii.eqb x c)) s = true →
  split_on c (s +:+ String c t) = s :: split_on c t.
Proof.
  induction s as [|x s IH].
  { intros _. change ("" +:+ ?x) with x. cbn [split_on]. by rewrite Ascii.eqb_refl. }
  rewrite str_app_cons.
  cbn [string_forall split_on]. intros [Hx%negb_true_iff Hs]%andb_true_iff. by rewrite Hx, IH.
Qed.

Lemma split_on_join c s x l : split_on c s = x :: l → s = String.concat (String c "") (x :: l).
Proof.
  revert x l. induction s as [|a s IH]; intros x l; [by intros [= <- <-]|]. cbn [split_on].
  destruct (Ascii.eqb_spec a c) as [->|Hne].
  - intros [= <- Hs]. destruct l as [|y l]; [by destruct s; cbn in Hs; repeat case_match|].
    rewrite (IH _ _ Hs). destruct l; done.
  - destruct (split_on c s) as [|y l'] eqn:E.
    + intros [= <- <-]. cbn. destruct s; [done|]. cbn in E. by repeat case_match.
    + intros [= <- <-]. rewrite (IH y l' eq_refl). by destruct l'.
Qed.

Lemma url_no_dot s : string_forall (λ x, negb (Ascii.eqb x ".")) (_b64url s) = true.
Proof.
  eapply string_forall_impl; [|apply b64url_chars]. intros c Hc.
  destruct (Ascii.eqb_spec c ".") as [->|]; done.
Qed.

Lemma detached_split h s :
  split_on "." (_b64url h +:+ ".." +:+ _b64url s) = [_b64url h; ""; _b64url s].
Proof.
  change (".." +:+ ?x) with (String "." (String "." x)).
  rewrite split_on_app by apply url_no_dot. f_equal. cbn [split_on].
  change (Ascii.eqb "." ".") with true. cbv iota. f_equal. apply split_on_none, url_no_dot.
Qed.

Lemma split_detached jws h s : split_on "." jws = [h; ""; s] → jws = h +:+ ".." +:+ s.
Proof. intros ->%split_on_join. reflexivity. Qed.

(** ** Well-formed statements *)

(** What a statement must be, whatever it is read from. *)
Definition good (s : AttestationStatement) : bool :=
  forallb nonempty_str
    [JStr (s_schema s); JStr (s_profile s); JStr (s_issuer s); JStr (s_kid s); JStr (s_subject s);
     JStr (s_plan_id s); JStr (s_launch_id s); JStr (s_plugin_id s); JStr (s_artifact_digest s);
     JStr (s_obligation s); JStr (s_event s); JStr (s_challenge_nonce s); JStr (s_evidence_digest s);
     ps_host (s_process s); ps_role (s_process s); ps_start_identity (s_process s)]
  && forallb safe_integer
       [ps_ordinal (s_process s); JInt (ps_epoch (s_process s)); JInt (s_observed_at s);
        JInt (s_issued_at s); JInt (s_expires_at s)]
  && negb (has_dups (s_critical_claims s))
  && (DIGEST (JStr (s_artifact_digest s)) && DIGEST (JStr (s_evidence_digest s))).

Lemma nonempty_str_ok v : nonempty_str v = true → v = JStr (str_of v).
Proof. by destruct v. Qed.
Lemma safe_integer_ok v : safe_integer v = true → v = JInt (int_of v).
Proof. by destruct v. Qed.

Lemma demand_each_ok test value fields detail :
  demand_each test value fields detail = Ok tt ↔ forallb test ((λ f, get f value) <$> fields) = true.
Proof.
  unfold demand_each. induction fields as [|f fields IH]; [done|].
  cbn [fold_result]. unfold demand at 1. cbn [fmap list_fmap forallb].
  destruct (test (get f value)); [exact IH|done].
Qed.

(** The members of an object that prints like [fs]. *)
Lemma get_member fs value k v :
  NoDup (keys fs) → NoDup (keys value) → norm (JObj value) = norm (JObj fs) → (k, v) ∈ fs →
  norm (get k value) = norm v.
Proof.
  intros Hf Hv E Hk. apply (assoc_nodup _ _ _ Hf) in Hk.
  pose proof (proj1 (norm_obj_eq _ _ Hv Hf) E k) as H. rewrite Hk in H. unfold get.
  destruct (assoc k value); by simplify_eq/=.
Qed.

Lemma has_member value k v : get k value = v → v ≠ JNull → assoc k value = Some v.
Proof. unfold get. by destruct (assoc k value); cbn; intros ->. Qed.

Lemma strings_back l : forallb is_str l = true → JStr <$> (str_of <$> l) = l.
Proof.
  induction l as [|v l IH]; [done|]. cbn. intros [Hv Hl]%andb_true_iff.
  rewrite IH by done. by destruct v.
Qed.

(** The keys of a statement's dictionary and of its process. *)
Lemma dict_keys s : NoDup (keys (statement_dict s)) ∧ same_keys top_fields (statement_dict s) = true.
Proof. split; [by apply (bool_decide_unpack _)|reflexivity]. Qed.

Lemma process_keys p : NoDup (keys (process_members p)).
Proof. by apply (bool_decide_unpack _). Qed.

(** Members with given values, none of them null. *)
Lemma members_given value fs :
  NoDup (keys fs) → NoDup (keys value) → same_keys (keys fs) value = true →
  Forall (λ kv, norm (get kv.1 value) = norm kv.2 ∧ get kv.1 value ≠ JNull) fs →
  norm (JObj value) = norm (JObj fs).
Proof.
  intros Hf Hv Hk Hall. apply fields_of; [done..|]. split; [done|].
  eapply Forall_impl; [done|]. intros [k v] [E Hn]. cbn in *.
  rewrite (has_member _ _ _ eq_refl Hn). cbn. by rewrite E.
Qed.

Lemma same_keys_swap fs gs {A} (kvs : list (string * A)) :
  NoDup fs → NoDup (keys kvs) → gs ≡ₚ fs → same_keys fs kvs = true → same_keys gs kvs = true.
Proof.
  intros Hf Hk Hp. rewrite !same_keys_iff; [intros ->; done|by rewrite Hp|done..].
Qed.

Lemma process_validated value p :
  is_object process_fields (JObj value) = true → NoDup (keys value) →
  forallb nonempty_str ((λ f, get f value) <$> ["host"; "role"; "start_identity"]) = true →
  forallb safe_integer ((λ f, get f value) <$> ["ordinal"; "epoch"]) = true →
  p = mkProcessStatement (get "host" value) (get "role" value) (get "ordinal" value)
        (get "start_identity" value) (int_of (get "epoch" value)) →
  norm (JObj value) = norm (JObj (process_members p)).
Proof.
  intros Hk Hv Hs Hi ->. cbn in Hs, Hi. reflect. apply members_given; [apply process_keys|done..|].
  repeat (constructor; cbn [fst snd ps_host ps_role ps_ordinal ps_start_identity ps_epoch]);
    try (split; [done|]); try (intros E; by rewrite E in *).
  - f_equal. by apply safe_integer_ok.
Qed.

Lemma string_given v : nonempty_str v = true → norm v = norm (JStr (str_of v)) ∧ v ≠ JNull.
Proof. by destruct v. Qed.
Lemma integer_given v : safe_integer v = true → norm v = norm (JInt (int_of v)) ∧ v ≠ JNull.
Proof. by destruct v. Qed.

Lemma good_fields value pv l :
  forallb nonempty_str ((λ f, get f value) <$> string_fields) = true →
  forallb nonempty_str ((λ f, get f pv) <$> ["host"; "role"; "start_identity"]) = true →
  forallb safe_integer ((λ f, get f pv) <$> ["ordinal"; "epoch"]) = true →
  forallb safe_integer ((λ f, get f value) <$> time_fields) = true →
  negb (has_dups l) = true → DIGEST (get "artifact_digest" value) && DIGEST (get "evidence_digest" value) = true →
  good (read_statement value pv l) = true.
Proof.
  intros Hstr Hpstr Hpint Htime Hdup Hdig. unfold string_fields, time_fields in *.
  cbn in Hstr, Hpstr, Hpint, Htime. unfold read_statement, good. cbn -[get has_dups DIGEST nonempty_str safe_integer].
  repeat match goal with
  | H : _ && _ = true |- _ => apply andb_true_iff in H as [? H]
  end.
  repeat match goal with
  | H : nonempty_str ?v = true |- _ => rewrite <-?(nonempty_str_ok v H); revert H
  | H : safe_integer ?v = true |- _ => rewrite <-?(safe_integer_ok v H); revert H
  end.
  intros. by repeat (apply andb_true_iff; split).
Qed.

(** The tests that a validated dictionary passed, and the statement that was read. *)
Lemma validate_tests value st :
  validate_statement value = Ok st →
  ∃ pv critical, get "process" value = JObj pv ∧ get "critical_claims" value = JArr critical
    ∧ forallb is_str critical = true ∧ same_keys top_fields value = true
    ∧ is_object process_fields (JObj pv) = true
    ∧ forallb nonempty_str ((λ f, get f value) <$> string_fields) = true
    ∧ forallb nonempty_str ((λ f, get f pv) <$> ["host"; "role"; "start_identity"]) = true
    ∧ forallb safe_integer ((λ f, get f pv) <$> ["ordinal"; "epoch"]) = true
    ∧ forallb safe_integer ((λ f, get f value) <$> time_fields) = true
    ∧ st = read_statement value pv (str_of <$> critical) ∧ good st = true.
Proof.
  intros [Htop [Hpo H]%check_bind]%check_bind.
  apply result_bind_ok in H as ([] & Hstr%demand_each_ok & H).
  apply result_bind_ok in H as ([] & Hpstr%demand_each_ok & H).
  apply result_bind_ok in H as ([] & Hpint%demand_each_ok & H).
  apply result_bind_ok in H as ([] & Htime%demand_each_ok & H).
  apply result_bind_ok in H as (critical & Hcr & H).
  apply check_bind in H as [Hdup [Hdig H]%check_bind].
  apply check_bind in H as [_ [= <-]].
  destruct (get "process" value) as [| | | | |pv] eqn:Ep; try done.
  assert (get "critical_claims" value = JArr critical ∧ forallb is_str critical = true) as [Ec Hcs].
  { destruct (get "critical_claims" value); try done. by apply check_bind in Hcr as [? [= ->]]. }
  rewrite Ec. exists pv, critical. split_and!; [done..|]. by apply good_fields.
Qed.

(** What is validated is well formed and has the fields of the statement and no others. *)
Lemma validated value st :
  keys_unique (JObj value) = true → validate_statement value = Ok st →
  norm (JObj value) = norm (JObj (statement_dict st)) ∧ good st = true.
Proof.
  rewrite keys_unique_obj.
  intros [Hnd Hu] (pv & critical & Ep & Ec & Hcs & Htop & Hpo & Hstr & Hpstr & Hpint & Htime & -> & Hg)%validate_tests.
  split; [|done].
  assert (NoDup (keys pv)) as Hpv.
  { rewrite Forall_forall in Hu. eapply (keys_unique_obj pv), (Hu ("process", JObj pv)).
    by apply assoc_elem_of, has_member. }
  pose proof (process_validated pv _ Hpo Hpv Hpstr Hpint eq_refl) as Hproc.
  apply members_given; [apply dict_keys|done| |].
  { eapply same_keys_swap; [| | |done]; [by apply (bool_decide_unpack _)|done|].
    by apply (bool_decide_unpack _). }
  unfold string_fields, time_fields in *. cbn in Hstr, Htime.
  repeat (apply andb_true_iff in Hstr as [? Hstr]). repeat (apply andb_true_iff in Htime as [? Htime]).
  unfold statement_dict. cbn -[norm get process_members].
  repeat (apply Forall_cons_2; [cbn -[norm get process_members];
    first [by apply string_given|by apply integer_given|idtac]|]); [..|by apply Forall_nil].
  - by rewrite Ep.
  - rewrite Ec, strings_back by done. done.
Qed.

(** The other way: a dictionary that prints like a well-formed statement is validated as it. *)
Lemma good_inv st :
  good st = true →
  Forall (λ v, nonempty_str v = true)
    [JStr (s_schema st); JStr (s_profile st); JStr (s_issuer st); JStr (s_kid st);
     JStr (s_subject st); JStr (s_plan_id st); JStr (s_launch_id st); JStr (s_plugin_id st);
     JStr (s_artifact_digest st); JStr (s_obligation st); JStr (s_event st);
     JStr (s_challenge_nonce st); JStr (s_evidence_digest st); ps_host (s_process st);
     ps_role (s_process st); ps_start_identity (s_process st)]
  ∧ Forall (λ v, safe_integer v = true)
      [ps_ordinal (s_process st); JInt (ps_epoch (s_process st)); JInt (s_observed_at st);
       JInt (s_issued_at st); JInt (s_expires_at st)]
  ∧ has_dups (s_critical_claims st) = false
  ∧ DIGEST (JStr (s_artifact_digest st)) && DIGEST (JStr (s_evidence_digest st)) = true.
Proof.
  unfold good. intros [[[Hs Hi]%andb_true_iff Hd%negb_true_iff]%andb_true_iff Hg]%andb_true_iff.
  rewrite forallb_forall in Hs, Hi. split_and!; [..|done|done];
    apply Forall_forall; intros v Hv%list_elem_of_In; auto.
Qed.

Lemma strings_str (l : list string) : forallb is_str (JStr <$> l) = true ∧ map str_of (JStr <$> l) = l.
Proof. induction l as [|s l [IH1 IH2]]; [done|]. cbn. by rewrite IH1, IH2. Qed.

Lemma norm_strings v l : norm v = norm (JArr (JStr <$> l)) → v = JArr (JStr <$> l).
Proof.
  intros (l' & -> & E)%norm_is_arr. f_equal. revert l' E.
  induction l as [|s l IH]; intros [|x l'] E; try done. injection E as Ex E.
  cbn. f_equal; [by apply norm_is_str|by apply IH].
Qed.

Lemma atom_norm v w : nonempty_str w = true ∨ safe_integer w = true → norm v = norm w → v = w.
Proof. intros [H|H]; destruct w; try done; [apply norm_is_str|apply norm_is_int]. Qed.

(** The members of a dictionary that prints like [fs], one of them an atom. *)
Lemma get_atom fs value k v :
  NoDup (keys fs) → NoDup (keys value) → norm (JObj value) = norm (JObj fs) → (k, v) ∈ fs →
  nonempty_str v = true ∨ safe_integer v = true → get k value = v.
Proof. intros Hf Hv E Hk Ha. apply atom_norm; [done|]. by apply (get_member fs). Qed.

Lemma process_given pv p :
  NoDup (keys pv) → norm (JObj pv) = norm (JObj (process_members p)) →
  Forall (λ v, nonempty_str v = true) [ps_host p; ps_role p; ps_start_identity p] →
  Forall (λ v, safe_integer v = true) [ps_ordinal p; JInt (ps_epoch p)] →
  is_object process_fields (JObj pv) = true
  ∧ (λ f, get f pv) <$> ["host"; "role"; "start_identity"] = [ps_host p; ps_role p; ps_start_identity p]
  ∧ (λ f, get f pv) <$> ["ordinal"; "epoch"] = [ps_ordinal p; JInt (ps_epoch p)].
Proof.
  intros Hnd E Hs Hi. repeat setoid_rewrite Forall_cons in Hs. repeat setoid_rewrite Forall_cons in Hi.
  destruct Hs as (? & ? & ? & _), Hi as (? & ? & _). split.
  - cbn [is_object]. by apply fields_of in E as [? _]; [|apply process_keys|].
  - cbn. split; repeat f_equal; (eapply (get_atom (process_members p)); [apply process_keys|done|done|
      by repeat constructor|by auto]).
Qed.

Lemma statement_given value st :
  keys_unique (JObj value) = true → norm (JObj value) = norm (JObj (statement_dict st)) →
  good st = true →
  same_keys top_fields value = true
  ∧ (λ f, get f value) <$> string_fields =
      [JStr (s_schema st); JStr (s_profile st); JStr (s_issuer st); JStr (s_kid st);
       JStr (s_subject st); JStr (s_plan_id st); JStr (s_launch_id st); JStr (s_plugin_id st);
       JStr (s_artifact_digest st); JStr (s_obligation st); JStr (s_event st);
       JStr (s_challenge_nonce st); JStr (s_evidence_digest st)]
  ∧ (λ f, get f value) <$> time_fields =
      [JInt (s_observed_at st); JInt (s_issued_at st); JInt (s_expires_at st)]
  ∧ get "critical_claims" value = JArr (JStr <$> s_critical_claims st)
  ∧ ∃ pv, get "process" value = JObj pv ∧ NoDup (keys pv)
      ∧ norm (JObj pv) = norm (JObj (process_members (s_process st))).
Proof.
  intros [Hnd Hu]%keys_unique_obj E (Hs & Hi & _)%good_inv. destruct (dict_keys st) as [Hd _].
  repeat setoid_rewrite Forall_cons in Hs. repeat setoid_rewrite Forall_cons in Hi.
  assert (∀ k v, (k, v) ∈ statement_dict st → norm (get k value) = norm v) as Hget
    by (intros k v; by apply get_member).
  split_and!.
  - apply fields_of in E as [Hk _]; [|done..].
    eapply same_keys_swap; [| | |done]; [by apply (bool_decide_unpack _)|done|].
    by apply (bool_decide_unpack _).
  - destruct_and! Hs. cbn. repeat f_equal;
      (eapply (get_atom (statement_dict st)); [done..|by repeat constructor|by auto]).
  - destruct_and! Hi. cbn. repeat f_equal;
      (eapply (get_atom (statement_dict st)); [done..|by repeat constructor|by auto]).
  - apply norm_strings, Hget. by repeat constructor.
  - assert (norm (get "process" value) = norm (JObj (process_members (s_process st)))) as Ep
      by (apply Hget; by repeat constructor).
    destruct (norm_is_obj _ _ Ep) as [pv Epv]. exists pv. rewrite Epv in Ep. split_and!; [done| |done].
    rewrite Forall_forall in Hu. eapply (keys_unique_obj pv), (Hu ("process", JObj pv)).
    by apply assoc_elem_of, has_member.
Qed.

Lemma read_back value pv st :
  (λ f, get f value) <$> string_fields =
      [JStr (s_schema st); JStr (s_profile st); JStr (s_issuer st); JStr (s_kid st);
       JStr (s_subject st); JStr (s_plan_id st); JStr (s_launch_id st); JStr (s_plugin_id st);
       JStr (s_artifact_digest st); JStr (s_obligation st); JStr (s_event st);
       JStr (s_challenge_nonce st); JStr (s_evidence_digest st)] →
  (λ f, get f value) <$> time_fields =
      [JInt (s_observed_at st); JInt (s_issued_at st); JInt (s_expires_at st)] →
  (λ f, get f pv) <$> ["host"; "role"; "start_identity"]
    = [ps_host (s_process st); ps_role (s_process st); ps_start_identity (s_process st)] →
  (λ f, get f pv) <$> ["ordinal"; "epoch"]
    = [ps_ordinal (s_process st); JInt (ps_epoch (s_process st))] →
  read_statement value pv (s_critical_claims st) = st.
Proof.
  destruct st as [? ? ? ? ? ? ? ? ? [] ? ? ? ? ? ? ? ?]. cbn. unfold read_statement.
  intros [= -> -> -> -> -> -> -> -> -> -> -> -> ->] [= -> -> ->] [= -> -> ->] [= -> ->]. done.
Qed.

Lemma demand_all test value fields detail vs :
  (λ f, get f value) <$> fields = vs → forallb test vs = true →
  demand_each test value fields detail = Ok tt.
Proof. intros <- Hvs. by apply demand_each_ok. Qed.

Lemma validates value st :
  keys_unique (JObj value) = true → norm (JObj value) = norm (JObj (statement_dict st)) →
  good st = true → validate_statement value = Ok st.
Proof.
  intros Hu E Hg. destruct (statement_given value st Hu E Hg) as (Hk & Hs & Ht & Hc & pv & Ep & Hnd & Hp).
  apply good_inv in Hg as (Gs & Gi & Gd & Gg).
  repeat setoid_rewrite Forall_cons in Gs. repeat setoid_rewrite Forall_cons in Gi.
  destruct_and! Gs. destruct_and! Gi.
  destruct (process_given pv (s_process st)) as (Po & Ps & Pi); [done|done|by auto..|].
  unfold validate_statement. rewrite Hk, Ep, Po, Hc. cbn [demand check mbind result_bind members_of].
  rewrite (demand_all _ _ _ _ _ Hs), (demand_all _ _ _ _ _ Ps), (demand_all _ _ _ _ _ Pi),
    (demand_all _ _ _ _ _ Ht); [|cbn -[nonempty_str safe_integer]; by repeat (apply andb_true_iff; split; [done|])..].
  cbn [mbind result_bind]. destruct (strings_str (s_critical_claims st)) as [Hb Hm]. rewrite Hb.
  unfold demand. cbn [check mbind result_bind]. rewrite Hm, Gd. cbn [negb check mbind result_bind].
  pose proof Hs as Hs'. cbn in Hs'. injection Hs' as _ _ _ _ _ _ _ _ -> _ _ _ ->. rewrite Gg.
  cbn [check mbind result_bind]. unfold from_dict, demand. rewrite Hk, Ep, Po, Hc.
  cbn [andb check mbind result_bind members_of].
  change (str_of <$> (JStr <$> s_critical_claims st)) with (map str_of (JStr <$> s_critical_claims st)).
  by rewrite Hm, (read_back value pv st).
Qed.

Lemma atom_unique v : nonempty_str v = true ∨ safe_integer v = true → keys_unique v = true.
Proof. by intros [H|H]; destruct v. Qed.

Lemma dict_unique st : good st = true → keys_unique (JObj (statement_dict st)) = true.
Proof.
  intros (Hs & Hi & _)%good_inv. repeat setoid_rewrite Forall_cons in Hs.
  repeat setoid_rewrite Forall_cons in Hi. destruct_and! Hs. destruct_and! Hi.
  apply keys_unique_obj. split; [apply dict_keys|].
  unfold statement_dict. repeat (apply Forall_cons_2; [cbn [snd]; try done|]); [| |by apply Forall_nil].
  - apply keys_unique_obj. split; [apply process_keys|].
    unfold process_members. repeat (apply Forall_cons_2; [cbn [snd]; apply atom_unique; by auto|]).
    by apply Forall_nil.
  - apply keys_unique_arr, Forall_fmap, Forall_forall. done.
Qed.

(** Exactly the dictionaries that print like a well-formed statement are validated. *)
Lemma validate_iff value st :
  keys_unique (JObj value) = true →
  validate_statement value = Ok st ↔
  norm (JObj value) = norm (JObj (statement_dict st)) ∧ good st = true.
Proof. intros Hu. split; [by apply validated|intros []; by apply validates]. Qed.

(** ** Canonical text *)

Lemma fold_unit {A} (f : A → result unit) l :
  fold_left (λ r x, _ ← r; f x) l (Ok tt) = Ok tt ↔ Forall (λ x, f x = Ok tt) l.
Proof.
  induction l as [|x l IH]; [done|]. cbn [fold_left mbind result_bind]. rewrite Forall_cons.
  destruct (f x) as [[]|e] eqn:E; [rewrite IH; naive_solver|]. split; [|by intros [? _]].
  assert (fold_left (λ r x, _ ← r; f x) l (Err e) = Err e) as -> by (clear; by induction l). done.
Qed.

Lemma validate_norm v : _validate_values (norm v) = Ok tt ↔ _validate_values v = Ok tt.
Proof.
  induction v as [|b|z|s|l IH|kvs IH] using json_ind'; [done..| |].
  - cbn [norm _validate_values]. rewrite !fold_unit, Forall_fmap.
    rewrite !Forall_forall in *. split; intros H x Hx; by apply IH, H.
  - rewrite norm_obj. cbn [_validate_values].
    rewrite !(fold_unit (λ kv, _validate_values kv.2)), Forall_fmap, (sort_by_perm fst str_leb kvs).
    rewrite !Forall_forall in *. split; intros H x Hx; by apply (IH x Hx), (H x Hx).
Qed.

Lemma canonicalize_iff `{Jcs} v text :
  canonicalize v = Ok text ↔ _validate_values v = Ok tt ∧ jcs_canonicalize v = Ok text.
Proof.
  unfold canonicalize. destruct (_validate_values v) as [[]|e]; [|split; [done|by intros []]].
  cbn [mbind result_bind]. destruct (jcs_canonicalize v); naive_solver.
Qed.

(** ** Strict reading *)

Lemma repeated_none seen kvs :
  repeated seen kvs = None ↔ NoDup (keys kvs) ∧ ∀ k, k ∈ keys kvs → k ∉ seen.
Proof.
  revert seen. induction kvs as [|[k v] kvs IH]; intros seen.
  { split; [|done]. split; [constructor|by intros k []%elem_of_nil]. }
  cbn [repeated]. change (keys ((k, v) :: kvs)) with (k :: keys kvs). rewrite NoDup_cons.
  destruct (bool_decide (k ∈ seen)) eqn:Ek.
  - apply bool_decide_eq_true in Ek. split; [done|]. intros [_ H]. by destruct (H k (list_elem_of_here _ _)).
  - apply bool_decide_eq_false in Ek. rewrite IH. setoid_rewrite elem_of_cons. split.
    + intros [Hnd H]. split_and!; [|done|]; [intros Hk; by apply (H k Hk); left|].
      intros j [->|Hj]; [done|]. intros Hs. by apply (H j Hj); right.
    + intros [[Hk Hnd] H]. split; [done|]. intros j Hj [->|Hs]; [done|]. by apply (H j); [right|].
Qed.

Lemma pairs_keep kvs : NoDup (keys kvs) → _pairs kvs = Ok (JObj kvs).
Proof.
  intros Hnd. unfold _pairs. rewrite (proj2 (repeated_none [] kvs)); [done|].
  split; [done|]. by intros k _ []%elem_of_nil.
Qed.

Lemma parse_strict_unique raw kvs : parse_strict raw = Ok kvs → keys_unique (JObj kvs) = true.
Proof.
  unfold parse_strict. destruct (loads_with _ _ raw) as [v|[]] eqn:E; try done.
  destruct v as [| | | | |kvs']; try done. intros [= ->].
  eapply loads_with_unique; [| |exact E]; [|done].
  intros l v Hl. unfold _pairs. destruct (repeated [] l) eqn:Er; [done|]. intros [= <-].
  apply keys_unique_obj. split; [|done]. by apply repeated_none in Er as [? _].
Qed.

Section Canonical.
Context {J : Jcs} {JL : @JcsLaws J}.

Lemma canonicalize_like v w text :
  keys_unique v = true → keys_unique w = true → norm v = norm w →
  canonicalize v = Ok text → canonicalize w = Ok text.
Proof.
  intros Hv Hw E [Hval Ht]%canonicalize_iff. apply canonicalize_iff.
  assert (_validate_values w = Ok tt) as Hval' by by rewrite <-validate_norm, <-E, validate_norm.
  split; [done|]. by rewrite <-(jcs_norm w), <-E, (jcs_norm v) by done.
Qed.

(** A canonical text is read back. *)
Lemma canonical_read kvs text :
  keys_unique (JObj kvs) = true → canonicalize (JObj kvs) = Ok text →
  ∃ kvs', parse_strict text = Ok kvs' ∧ norm (JObj kvs) = JObj kvs'
    ∧ canonicalize (JObj kvs') = Ok text.
Proof.
  intros Hu Hc. pose proof (proj1 (canonicalize_iff _ _) Hc) as [Hval Ht].
  destruct (jcs_reads _ _ Hu Hval Ht) as (kvs' & Hp & E). exists kvs'. split_and!; [done..|].
  eapply canonicalize_like; [exact Hu| | |done].
  - rewrite <-E. by apply norm_keys_unique.
  - rewrite <-E. by rewrite norm_norm.
Qed.

(** ** The two parts of an envelope *)

Lemma protected_norm kid : norm (JObj (_protected kid)) = JObj (_protected kid).
Proof. reflexivity. Qed.
Lemma protected_unique kid : keys_unique (JObj (_protected kid)) = true.
Proof. reflexivity. Qed.

Lemma read_header_iff encoded kid :
  read_header encoded = Ok kid ↔
  ∃ text, canonicalize (JObj (_protected kid)) = Ok text ∧ encoded = _b64url text.
Proof.
  split.
  - intros (raw & ->%b64url_decode_iff & H)%result_bind_ok.
    apply result_bind_ok in H as (header & Hp & H). apply check_bind in H as [Hk H].
    apply result_bind_ok in H as (canonical & Hc & H).
    apply check_bind in H as [->%String.eqb_eq Hm].
    apply check_bind in Hm as [Ha%py_eqb_is_str [Ht%py_eqb_is_str [Hcr [Hpr%py_eqb_is_str Hd]%check_bind]%check_bind]%check_bind].
    destruct (get "kid" header) as [| | |kid'| |] eqn:Ekid; try done. injection Hd as ->.
    exists canonical. split; [|done]. pose proof (parse_strict_unique _ _ Hp) as Hu.
    eapply canonicalize_like; [exact Hu|done| |exact Hc].
    apply fields_of; [by apply (bool_decide_unpack _)|by apply keys_unique_obj in Hu as [? _]|].
    split; [done|].
    assert (get "crit" header = JArr [JStr "ecpa_profile"]) as Ecr.
    { destruct (get "crit" header) as [| | | |[|v [|]]|]; try done;
        cbn -[py_eqb] in Hcr; cbn in Hcr; apply andb_true_iff in Hcr as [Hv Hcr]; [|done].
      by rewrite (py_eqb_is_str v "ecpa_profile"). }
    unfold _protected. repeat (apply Forall_cons_2; [cbn [fst snd]; by erewrite has_member|]).
    by apply Forall_nil.
  - intros (text & Hc & ->). destruct (canonical_read _ _ (protected_unique kid) Hc) as (kvs & Hp & E & Hc').
    rewrite protected_norm in E. injection E as <-.
    unfold read_header. rewrite (proj2 (b64url_decode_iff _ _) eq_refl). cbn [mbind result_bind].
    rewrite Hp. cbn [mbind result_bind]. unfold require. rewrite Hc'. cbn -[canonicalize].
    rewrite String.eqb_refl. reflexivity.
Qed.

(** A statement of the profile, without critical claims, for none is known. *)
Definition statement_ok (st : AttestationStatement) : Prop :=
  good st = true ∧ s_schema st = SCHEMA ∧ s_profile st = PROFILE ∧ s_critical_claims st = [].

Lemma minus_nothing l : minus l [] = [] ↔ l = [].
Proof. unfold minus. induction l as [|x l IH]; [done|]. cbn. split; done. Qed.

Lemma of_profile_iff st : of_profile st = Ok tt ↔ s_schema st = SCHEMA ∧ s_profile st = PROFILE.
Proof.
  unfold of_profile, require, check.
  destruct (String.eqb_spec (s_schema st) SCHEMA), (String.eqb_spec (s_profile st) PROFILE); naive_solver.
Qed.

Lemma read_payload_iff text kid st :
  read_payload text kid = Ok st ↔
  canonicalize (JObj (statement_dict st)) = Ok text ∧ statement_ok st ∧ s_kid st = kid.
Proof.
  unfold read_payload. split.
  - intros (value & Hp & H)%result_bind_ok. pose proof (parse_strict_unique _ _ Hp) as Hu.
    apply result_bind_ok in H as (canonical & Hc & H). apply check_bind in H as [->%String.eqb_eq H].
    apply result_bind_ok in H as (st' & Hv & H). apply result_bind_ok in H as ([] & Ho%of_profile_iff & H).
    apply check_bind in H as [Hk%String.eqb_eq H]. apply check_bind in H as [Hcr%bool_decide_eq_true H].
    injection H as ->. apply (validate_iff value) in Hv as [E Hg]; [|done].
    destruct Ho as [Ho1 Ho2]. split.
    + eapply canonicalize_like; [exact Hu|by apply dict_unique|done|done].
    + split; [|done]. split_and!; [done..|by apply minus_nothing].
  - intros (Hc & (Hg & Ho1 & Ho2 & Hcr) & Hk).
    destruct (canonical_read _ _ (dict_unique _ Hg) Hc) as (value & Hp & E & Hc').
    assert (keys_unique (JObj value) = true) as Hu by by eapply parse_strict_unique.
    rewrite Hp. cbn [mbind result_bind]. rewrite Hc'. unfold require. cbn [mbind result_bind].
    rewrite String.eqb_refl. cbn [check mbind result_bind].
    rewrite (proj2 (validate_iff value st Hu)) by (split; [by rewrite <-E, norm_norm|done]).
    cbn [mbind result_bind]. rewrite (proj2 (of_profile_iff st)) by done. cbn [mbind result_bind].
    by rewrite Hk, String.eqb_refl, Hcr.
Qed.

(** ** Signing and verifying *)

Context {SK PK : Type} `{Ed25519 SK PK}.

Definition signing_input (header text : string) : string := _b64url header +:+ "." +:+ _b64url text.

Definition envelope_of (header text signature : string) : SignedEnvelope :=
  mkEnvelope text (_b64url header +:+ ".." +:+ _b64url signature).

(** The two texts of a statement. *)
Definition texts_of (st : AttestationStatement) (header text : string) : Prop :=
  canonicalize (JObj (_protected (s_kid st))) = Ok header
  ∧ canonicalize (JObj (statement_dict st)) = Ok text.

Definition trusts (store : TrustStore PK) (st : AttestationStatement) (now : Z)
    (entry : TrustEntry PK) : Prop :=
  store !! (s_issuer st, s_kid st) = Some entry ∧ te_enabled entry = true
  ∧ s_subject st ∈ te_subjects entry ∧ (te_not_before entry ≤ now ≤ te_not_after entry)%Z.

Definition fresh (st : AttestationStatement) (now clock_skew max_ttl max_observation_age : Z) : Prop :=
  (s_observed_at st ≤ s_issued_at st ≤ s_expires_at st
   ∧ s_issued_at st ≤ now + clock_skew ∧ now - clock_skew ≤ s_expires_at st
   ∧ s_expires_at st - s_issued_at st ≤ max_ttl
   ∧ now - s_observed_at st ≤ max_observation_age + clock_skew)%Z.

Lemma lookup_iff (store : TrustStore PK) st now entry :
  lookup_key store (s_issuer st) (s_kid st) (s_subject st) now = Ok entry ↔ trusts store st now entry.
Proof.
  unfold lookup_key, trusts. destruct (store !! _) as [e|]; [|naive_solver]. split.
  - intros [Hb [= ->]]%check_bind. reflect. split_and!; [done..|lia|lia].
  - intros ([= ->] & He & Hs & Hb). unfold require. rewrite He, bool_decide_true by done.
    by rewrite (proj2 (Z.leb_le _ _) (proj1 Hb)), (proj2 (Z.leb_le _ _) (proj2 Hb)).
Qed.

Lemma times_iff st now skew ttl age : check_times st now skew ttl age = Ok tt ↔ fresh st now skew ttl age.
Proof.
  unfold check_times, fresh. split.
  - intros [H1 [H2 [H3 [H4 H5]%check_bind]%check_bind]%check_bind]%check_bind.
    unfold require, check in H5. case_match; [|done]. reflect. lia.
  - intros H1. unfold require, check.
    repeat match goal with
    | |- context [(?a <=? ?b)%Z] => rewrite (proj2 (Z.leb_le a b)) by lia
    end. done.
Qed.

(** The whole of [verify]. *)
Lemma verify_spec env store now skew ttl age st :
  verify env store now skew ttl age = Ok st ↔
  statement_ok st ∧ fresh st now skew ttl age
  ∧ ∃ header text signature entry,
      texts_of st header text ∧ env = envelope_of header text signature
      ∧ trusts store st now entry
      ∧ ed_verify (te_public_key entry) signature (signing_input header text) = true.
Proof.
  unfold verify, texts_of, envelope_of, signing_input. destruct env as [raw jws]. cbn [payload detached_jws]. split.
  - destruct (split_on "." jws) as [|h [|[|] [|s [|]]]] eqn:Es; try done.
    apply split_detached in Es as ->. intros (kid & (header & Hh & ->)%read_header_iff & H')%result_bind_ok.
    apply result_bind_ok in H' as (st' & (Ht & Hok & <-)%read_payload_iff & H').
    apply result_bind_ok in H' as (entry & Htr%lookup_iff & H').
    apply result_bind_ok in H' as (signature & ->%b64url_decode_iff & H').
    apply check_bind in H' as [Hv H']. apply result_bind_ok in H' as ([] & Hf%times_iff & [= ->]).
    split_and!; [done..|]. by exists header, raw, signature, entry.
  - intros (Hok & Hf & header & text & signature & entry & [Hh Ht] & [= -> ->] & Htr & Hv).
    rewrite detached_split. rewrite (proj2 (read_header_iff _ (s_kid st))) by by exists header.
    cbn [mbind result_bind]. rewrite (proj2 (read_payload_iff _ _ _)) by done. cbn [mbind result_bind].
    rewrite (proj2 (lookup_iff _ _ _ _)) by done. cbn [mbind result_bind].
    rewrite (proj2 (b64url_decode_iff _ _) eq_refl). cbn [mbind result_bind]. rewrite Hv.
    cbn [require check mbind result_bind]. by rewrite (proj2 (times_iff _ _ _ _ _)).
Qed.

Lemma signed_good st st' : validate_statement (statement_dict st) = Ok st' → good st = true.
Proof.
  intros (pv & critical & Ep & Ec & _ & _ & _ & _ & _ & _ & _ & -> & Hg)%validate_tests.
  injection Ep as <-. injection Ec as <-.
  change (str_of <$> (JStr <$> s_critical_claims st)) with (map str_of (JStr <$> s_critical_claims st)) in Hg.
  rewrite (proj2 (strings_str _)) in Hg. by destruct st as [? ? ? ? ? ? ? ? ? [] ? ? ? ? ? ? ? ?].
Qed.

Lemma sign_spec st key env :
  sign st key = Ok env ↔
  s_schema st = SCHEMA ∧ s_profile st = PROFILE ∧ good st = true
  ∧ ∃ header text, texts_of st header text
      ∧ env = envelope_of header text (ed_sign key (signing_input header text)).
Proof.
  unfold sign, texts_of, envelope_of, signing_input. split.
  - intros ([] & [Ho1 Ho2]%of_profile_iff & H')%result_bind_ok.
    apply result_bind_ok in H' as (st' & Hv & H'). apply result_bind_ok in H' as (text & Ht & H').
    apply result_bind_ok in H' as (header & Hh & [= <-]).
    assert (good st = true) as Hg by by eapply signed_good.
    split_and!; [done..|]. by exists header, text.
  - intros (Ho1 & Ho2 & Hg & header & text & [Hh Ht] & ->).
    rewrite (proj2 (of_profile_iff st)) by done. cbn [mbind result_bind].
    rewrite (validates _ st) by (try apply dict_unique; done). cbn [mbind result_bind].
    rewrite Ht. cbn [mbind result_bind]. by rewrite Hh.
Qed.

(** C25. A verifier accepts exactly the envelopes of the statements that it should: the payload is
    the canonical text of a well-formed statement of the profile without critical claims, the
    JWS is the canonical header for its key with a signature of header and payload, the key is
    in the trust store under the issuer of the statement, enabled, in force and trusted for its
    subject, the signature is valid under that key, and the statement is fresh.  There is one
    envelope for a statement and a signature: no other encoding is accepted. *)
Theorem verify_iff env store now skew ttl age st :
  verify env store now skew ttl age = Ok st ↔
  statement_ok st ∧ fresh st now skew ttl age
  ∧ ∃ header text signature entry,
      texts_of st header text ∧ env = envelope_of header text signature
      ∧ trusts store st now entry
      ∧ ed_verify (te_public_key entry) signature (signing_input header text) = true.
Proof. apply verify_spec. Qed.

(** What is signed is verified: an envelope made by [sign] is accepted, as the statement that
    was signed, by every verifier that trusts the key for the statement's issuer, key identifier
    and subject at a time when the statement is fresh; and it is refused as soon as it is
    stale. *)
Theorem signed_verified `{!Ed25519Laws SK PK} st key env store now skew ttl age entry :
  sign st key = Ok env → s_critical_claims st = [] → trusts store st now entry →
  te_public_key entry = public_key_of key →
  verify env store now skew ttl age = Ok st ↔ fresh st now skew ttl age.
Proof.
  intros (Ho1 & Ho2 & Hg & header & text & Htx & ->)%sign_spec Hc Htr Hk. rewrite verify_spec. split.
  - by intros (_ & Hf & _).
  - intros Hf. split_and!; [by split_and!|done|]. eexists header, text, _, entry.
    split_and!; [done..|]. rewrite Hk. apply ed_verify_sign.
Qed.
End Canonical.
