(* ===== verification/SignedCommit.v ===== *)
(** * SignedCommit: the coordinator with the signed verifier

    The activation coordinator of DurableCoordinator.v over the verifier of
    AttestationProfile.v.  The receipts it accepts are exactly those with a signed statement
    that says the same; so is all the evidence in its store, and what it commits rests on
    signatures by trusted keys. *)

From S2P Require Import Prelude Effects Json Sha256 JsonText JsonFacts Base64 Manifest ProviderPlans EcpaModel HostEvidence AttestationProfile AttestationProofs.
From S2P Require Import ExposureGate GateInvariant DurableCoordinator CoordinatorProofs.

Local Open Scope string_scope.
Local Open Scope list_scope.

(** ** Receipts *)

(** The only statement that a receipt accepts. *)
Definition statement_of (a : Attestation) : AttestationStatement :=
  mkStatement SCHEMA PROFILE (issuer a) (kid a) (authority a) (att_plan_id a) (att_launch_id a)
    (artifact_id a) (EcpaModel.artifact_digest a)
    (mkProcessStatement (JStr (host (process a))) (JStr (role (process a)))
       (JInt (ordinal (process a))) (JStr (start_id (process a))) (EcpaModel.epoch (process a)))
    (att_obligation_id a) (att_event a) (EcpaModel.observed_at a) (EcpaModel.issued_at a)
    (EcpaModel.expires_at a) (nonce a) (EcpaModel.evidence_digest a) [].

(** The plugin of the plan that a receipt names, by the digest of its artifact. *)
Definition bound_artifact `{Sha256.Sha256} (plan : Plan) (a : Attestation) : Prop :=
  ∃ plugin, List.find (λ item, plugin_id item =? artifact_id a) (plugins plan) = Some plugin
    ∧ EcpaModel.artifact_digest a = "sha256:" +:+ artifact_sha256 plugin.

Lemma binding_eq st a :
  statement_ok st →
  py_eqb (JObj (actual_binding st)) (JObj (expected_binding a)) = true ↔ st = statement_of a.
Proof.
  intros (Hg & Hs & Hp & Hc). apply good_inv in Hg as (Gs & Gi & _).
  repeat setoid_rewrite Forall_cons in Gs. repeat setoid_rewrite Forall_cons in Gi.
  destruct st as [? ? ? ? ? ? ? ? ? [ho ro n si ep] ? ? ? ? ? ? ? ?].
  cbn -[nonempty_str safe_integer] in Gs, Gi, Hs, Hp, Hc.
  destruct_and! Gs. destruct_and! Gi. subst.
  destruct ho, ro, si; try done. destruct n; try done. split.
  - cbn. intros. reflect. subst. done.
  - unfold statement_of. intros [= -> -> -> -> -> -> -> -> -> -> -> -> -> -> -> -> -> -> ->].
    cbn. by rewrite !String.eqb_refl, !Z.eqb_refl.
Qed.

Section Signed.
Context `{Sha256.Sha256} {J : Jcs} {JL : @JcsLaws J} {SK PK : Type} {ED : Ed25519 SK PK}.
Context (v : SignedAttestationVerifier (PK := PK)).

(** The envelope under the receipt's nonce carries the statement of the receipt. *)
Definition signed_receipt (a : Attestation) (now : Z) : Prop :=
  ∃ env, envelopes v !! nonce a = Some env
    ∧ verify env (trusted v) now (clock_skew v) (max_ttl v) (max_observation_age v)
      = Ok (statement_of a).

Lemma receipt_spec a now plan :
  verify_receipt v a now plan = Ok tt ↔ signed_receipt a now ∧ bound_artifact plan a.
Proof.
  unfold verify_receipt, signed_receipt, bound_artifact.
  destruct (envelopes v !! nonce a) as [env|]; [|naive_solver]. split.
  - intros (st & Hv & [Hd Hb]%check_bind)%result_bind_ok.
    unfold require, check in Hb. case_match eqn:E; [|done].
    apply binding_eq in E as ->; [|by apply verify_spec in Hv as [? _]].
    split; [by exists env|]. destruct (List.find _ _) as [plugin|]; [|done].
    exists plugin. split; [done|]. by apply String.eqb_eq in Hd.
  - intros [(env' & [= <-] & Hv) (plugin & Hf & Hd)]. rewrite Hv. cbn [mbind result_bind].
    rewrite Hf. cbn [s_artifact_digest statement_of]. rewrite <-Hd, String.eqb_refl.
    unfold require. cbn [check mbind result_bind].
    apply verify_spec in Hv as [Hok _]. by rewrite (proj2 (binding_eq _ a Hok)).
Qed.

(** A receipt is accepted exactly when the envelope under its nonce carries the statement
    that says what the receipt says, and nothing else, signed and trusted and fresh as
    [verify] demands, and the receipt names a plugin of the plan with the digest of its
    artifact. *)
Theorem receipt_iff a now plan :
  verify_receipt v a now plan = Ok tt ↔ signed_receipt a now ∧ bound_artifact plan a.
Proof. apply receipt_spec. Qed.

(** ** The coordinator *)

(** Any adapters, with the signed verifier in the place of theirs. *)
Definition signed_adapters {E} (A : Adapters E) : Adapters E := {|
  host_prepare := host_prepare; host_launch := host_launch; host_rollback := host_rollback;
  verifier_verify item now plan := lift_result (verify_receipt v item now plan);
  verifier_signed _ := true;
  external_lease_valid := external_lease_valid; hold_predecessor := hold_predecessor;
  activate := activate; restore_predecessor := restore_predecessor |}.

Section Coordinator.
Context {E T : Type} {A : Adapters E} `{!TrafficAuthorityAdapter T} (clock gate_clock : nat → Z).

#[local] Instance signed : Adapters E := signed_adapters A.
#[local] Abbreviation C := (M (CWorld E T)).

(** A row of evidence that is the record of an accepted receipt for a stored plan. *)
Definition backed (s : Store) (e : Evidence.t) : Prop :=
  ∃ item now p ep row, row ∈ activation s
    ∧ Activation.plan_id row = Evidence.plan_id e ∧ Activation.plan_json row = to_json p
    ∧ att_plan_id item = Evidence.plan_id e
    ∧ signed_receipt item now ∧ bound_artifact p item
    ∧ evidence_le (evidence_row (Evidence.plan_id e) item ep) e.

(** Since [s0], evidence has only been invalidated or recorded from accepted receipts. *)
Definition accounted (s0 s : Store) : Prop :=
  ∀ e, e ∈ evidence s → (∃ e0, e0 ∈ evidence s0 ∧ evidence_le e0 e) ∨ backed s0 e.

Lemma accounted_invalidate s0 s f :
  (∀ e, f e = e ∨ f e = invalidate e) → accounted s0 s →
  accounted s0 (with_evidence (f <$> evidence s) s).
Proof.
  intros Hf Hs e (e1 & -> & He1)%list_elem_of_fmap.
  assert (evidence_le e1 (f e1)) as Hle by (destruct (Hf e1) as [->| ->]; [by left|by right]).
  destruct (Hs e1 He1) as [(e0 & Hin & He0)|(item & now & p & ep & row & H1 & H2 & H3 & H4 & H5 & H6 & H7)].
  - left. exists e0. split; [done|by etrans].
  - right. assert (Evidence.plan_id (f e1) = Evidence.plan_id e1) as Ep by by destruct (Hf e1) as [->| ->].
    exists item, now, p, ep, row. rewrite Ep. split_and!; try done. by etrans.
Qed.

Section Keep.
Context (ep : Z) (s0 : Store).

Lemma keeps_frame f : (∀ s, evidence (f s) = evidence s) → keeps ep (accounted s0) (update_store f : C unit).
Proof. intros Hf s Hs. apply swp_update_store. unfold accounted. by rewrite Hf. Qed.

Lemma keeps_invalidated (g : Evidence.t → bool) :
  keeps ep (accounted s0)
    (update_store (λ s, with_evidence ((λ e, if g e then invalidate e else e) <$> evidence s) s) : C unit).
Proof.
  intros s Hs. apply swp_update_store. apply accounted_invalidate; [|done].
  intros e. destruct (g e); [by right|by left].
Qed.

Ltac accounts_step :=
  match goal with
  | |- keeps _ _ (mret _) => apply keeps_ret
  | |- keeps _ _ (raise _) => apply keeps_raise
  | |- keeps _ _ (_ ≫= _) => apply keeps_bind; [|intros ?]
  | |- keeps _ _ (raise_if _ _) => apply keeps_raise_if
  | |- keeps _ _ (when _ _) => apply keeps_when
  | |- keeps _ _ (lift_result _) => apply keeps_lift
  | |- keeps _ _ (try_else _ _ _) => apply keeps_try_else; [|intros ?|intros ?]
  | |- keeps _ _ (catch _ _) => apply keeps_catch; [|intros ?]
  | |- keeps _ _ (zoom _) => apply keeps_env
  | |- keeps _ _ (on_gate _) => apply keeps_on_gate
  | |- keeps _ _ (hit _) => apply keeps_hit
  | |- keeps _ _ (_now _) => apply keeps_now
  | |- keeps _ _ has_gate => apply keeps_has_gate
  | |- keeps _ _ (gets (λ w, verifier_signed _)) => apply keeps_signed
  | |- keeps _ _ (gets manager_epoch) => apply keeps_epoch
  | |- keeps _ _ get_store => apply keeps_get_store
  | |- keeps _ _ (in_transaction _) => apply keeps_transaction
  | |- keeps _ _ (_row _) => apply keeps_row
  | |- keeps _ _ (stored_plan _) => apply keeps_stored_plan
  | |- keeps _ _ (_journal _ _ _ _ _) => unfold _journal
  | |- keeps _ _ (_transition _ _ _) => unfold _transition
  | |- keeps _ _ (insert_outcome _ _ _ _) => unfold insert_outcome
  | |- keeps _ _ (update_store (λ s, with_evidence _ _)) => apply keeps_invalidated
  | |- keeps _ _ (update_store _) => apply keeps_frame; reflexivity
  | |- keeps _ _ (if ?b then _ else _) => destruct b
  | |- keeps _ _ (match ?x with _ => _ end) => destruct x
  end.
Ltac accounts := repeat (accounts_step; cbn beta iota).

Lemma accounts_inventory pid ps : keeps ep (accounted s0) (insert_inventory pid ps : C unit).
Proof. induction ps as [|p ps IH]; cbn [insert_inventory]; accounts. exact IH. Qed.

Lemma accounts_replace pid ps : keeps ep (accounted s0) (replace_inventory pid ps : C unit).
Proof. unfold replace_inventory. accounts. apply accounts_inventory. Qed.

Lemma accounts_rollback pid reason : keeps ep (accounted s0) (rollback clock gate_clock pid reason : C _).
Proof. unfold rollback, rollback_with_gate, rollback_gate, rollback_plain. accounts. Qed.

Lemma accounts_lease_lost pid : keeps ep (accounted s0) (external_lease_lost clock gate_clock pid : C _).
Proof. unfold external_lease_lost. accounts. apply accounts_rollback. Qed.

Lemma accounts_commit pid g : keeps ep (accounted s0) (commit clock gate_clock pid g : C _).
Proof.
  unfold commit, commit_intent, commit_effect, _open_proof, _evidence_complete. accounts.
  apply accounts_lease_lost.
Qed.

Lemma accounts_recover pid : keeps ep (accounted s0) (recover clock gate_clock pid : C _).
Proof.
  unfold recover, recover_rollback, recover_commit, recover_other, recovered_target. accounts.
Qed.

Lemma accounts_plan p : keeps ep (accounted s0) (plan clock gate_clock p : C _).
Proof. unfold plan, insert_activation. accounts. Qed.

Lemma accounts_others pid :
  keeps ep (accounted s0) (prepare clock gate_clock pid : C _)
  ∧ (∀ l, keeps ep (accounted s0) (launch clock pid l : C _))
  ∧ (∀ ps, keeps ep (accounted s0) (refresh_inventory clock pid ps : C _))
  ∧ keeps ep (accounted s0) (resume_observing clock pid : C _).
Proof.
  unfold prepare, launch, refresh_inventory, resume_observing.
  split_and!; [|intros l|intros ps|]; accounts; apply accounts_replace.
Qed.
End Keep.

Lemma swp_verified ep item now p (Q : unit → Store → Prop) (S : exn → Store → Prop) s :
  (verify_receipt v item now p = Ok tt → Q tt s) → (∀ e, S e s) →
  swp ep (zoom (verifier_verify (E := E) item now p) : C unit) Q S s.
Proof.
  intros H1 H2 w <- He. apply wp_zoom. unfold wp. cbn [verifier_verify signed signed_adapters].
  unfold lift_result. destruct (verify_receipt v item now p) as [[]|e]; split; auto.
Qed.

Lemma accounted_refl s : accounted s s.
Proof. intros e He. left. by exists e. Qed.

(** What [observe] records is the receipt that was verified. *)
Lemma accounts_observe ep pid item now s :
  store_ok s → swp ep (observe clock pid item now : C unit) (λ _, accounted s) (λ _, accounted s) s.
Proof.
  intros Hok. pose proof (accounted_refl s) as Hr. unfold observe.
  apply swp_bind, swp_row; [|done]. intros row Hrow. destruct (find_plan_elem _ _ _ Hrow) as [Hin Hpid].
  apply swp_bind, swp_raise_if; [done|]. intros Ho. reflect.
  apply swp_bind, swp_lift; [intros p Hp|done]. apply swp_bind.
  eapply (swp_mono _ _ (λ _ s', s' = s) _ (λ _ s', s' = s)); [|intros n s' ->|by intros ? ? ->].
  { destruct now; [by apply swp_ret|by apply swp_now]. }
  apply swp_bind, swp_verified; [|done]. intros [Hsig Hart]%receipt_spec.
  apply swp_bind, swp_get_store.
  apply swp_bind, swp_raise_if; [done|]. intros Hb. reflect.
  apply swp_bind, swp_epoch, swp_catch, swp_transaction, swp_bind, swp_bind, swp_get_store.
  apply swp_bind, swp_raise_if; [by intros _; apply swp_raise|]. intros Hnew.
  apply swp_update_store, swp_journal. intros n2 e [He|He%list_elem_of_singleton]%elem_of_app.
  { left. by exists e. }
  subst e. right. pose proof (so_rows _ Hok) as Hrows. rewrite Forall_forall in Hrows.
  destruct (Hrows row Hin) as (p' & Hj & Hid & _). rewrite Hj, Plan_of_to_json in Hp. injection Hp as ->.
  exists item, n, p, ep, row. unfold evidence_bound in Hb. reflect. split_and!; try done.
Qed.

Lemma cexec_accounted ep c s :
  store_ok s → swp ep (cexec clock gate_clock c : C unit) (λ _, accounted s) (λ _, accounted s) s.
Proof.
  intros Hok. pose proof (accounted_refl s) as Hr. destruct c; cbn [cexec]; try apply swp_unit.
  - by apply accounts_plan.
  - by apply accounts_others.
  - by apply accounts_others.
  - by apply accounts_observe.
  - by apply accounts_others.
  - by apply accounts_commit.
  - by apply accounts_recover.
  - by apply accounts_others.
  - by apply accounts_rollback.
  - by apply accounts_lease_lost.
Qed.

(** ** Reachable stores *)

Definition all_backed (s : Store) : Prop := ∀ e, e ∈ evidence s → backed s e.

Lemma backed_later s s' e e' :
  store_le s s' → evidence_le e e' → backed s e → backed s' e'.
Proof.
  intros Hle He (item & now & p & ep & row & Hin & Hid & Hj & Hpid & Hsig & Hart & Hrow).
  destruct (sle_activation _ _ Hle) as (old & new & Ha & Hf).
  apply list_elem_of_lookup in Hin as [i Hi].
  destruct (Forall2_lookup_l _ _ _ _ _ Hf Hi) as (row' & Hi' & Hid' & Hj' & _).
  assert (Evidence.plan_id e' = Evidence.plan_id e) as Ee by by destruct He as [->| ->].
  exists item, now, p, ep, row'. rewrite Ee. split_and!; try congruence; try done.
  - rewrite Ha. apply elem_of_app. left. by eapply list_elem_of_lookup_2.
  - by etrans.
Qed.

Lemma creachable_backed w : creachable clock gate_clock (w : CWorld E T) → all_backed (store w).
Proof.
  induction 1 as [f e g|w w' Hw IH Hn]; [by intros e' []%elem_of_nil|].
  pose proof (creachable_ok _ _ _ Hw) as [Hok He]. destruct Hn as [c|w2 Hst Hep|f e g].
  - intros e Hin. pose proof (cexec_accounted (manager_epoch w) c _ Hok w eq_refl eq_refl) as Hacc.
    destruct (cexec_step clock gate_clock c w) as [[[_ Hle] _] _]; [by split|].
    assert (accounted (store w) (store (cexec clock gate_clock c w).2)) as Ha.
    { unfold wp in Hacc. destruct (cexec clock gate_clock c w) as [[[]|x] w']; apply Hacc. }
    destruct (Ha e Hin) as [(e0 & Hin0 & He0)|Hb].
    + eapply backed_later; [done..|]. by apply IH.
    + by eapply backed_later.
  - unfold all_backed. rewrite Hst. exact IH.
  - intros e' (e0 & -> & Hin)%list_elem_of_fmap. destruct (IH e0 Hin) as (item & now & p & ep & row & Hb).
    exists item, now, p, ep, row. destruct Hb as (H1 & H2 & H3 & H4 & H5 & H6 & H7).
    split_and!; try done. etrans; [exact H7|by right].
Qed.

Lemma same_row s row row' :
  store_ok s → row ∈ activation s → row' ∈ activation s →
  Activation.plan_id row = Activation.plan_id row' → row = row'.
Proof.
  intros Hok [i Hi]%list_elem_of_lookup [j Hj]%list_elem_of_lookup Eid.
  assert (i = j) as ->; [|congruence].
  eapply (NoDup_lookup (plan_ids s)); [apply Hok|..]; unfold plan_ids; rewrite list_lookup_fmap.
  - by rewrite Hi.
  - rewrite Hj. cbn. by rewrite Eid.
Qed.

(** A signed statement that the obligation [o] of the plan is met by the process of [i]. *)
Definition signed_for (p : Plan) (o : EvidenceObligation) (n : Z) (i : Inventory.t) (at_commit : Z)
    : Prop :=
  ∃ env st seen plugin, envelopes v !! s_challenge_nonce st = Some env
    ∧ verify env (trusted v) seen (clock_skew v) (max_ttl v) (max_observation_age v) = Ok st
    ∧ s_plan_id st = plan_id p ∧ s_obligation st = obligation_id o ∧ s_event st = event o
    ∧ ps_role (s_process st) = JStr (ob_role o) ∧ ps_ordinal (s_process st) = JInt n
    ∧ ps_epoch (s_process st) = EcpaModel.epoch (Inventory.process i)
    ∧ plugin ∈ plugins p ∧ s_artifact_digest st = "sha256:" +:+ artifact_sha256 plugin
    ∧ (at_commit ≤ s_expires_at st)%Z.

(** What a commit requires, for every obligation and every process of it. *)
Definition all_signed (s : Store) (p : Plan) (now : Z) : Prop :=
  ∀ o, o ∈ obligations p → required_ordinals o ≠ [] ∧ ∀ n, n ∈ required_ordinals o →
    ∃ i, i ∈ inventory s ∧ Inventory.plan_id i = plan_id p
      ∧ role (Inventory.process i) = ob_role o ∧ ordinal (Inventory.process i) = n
      ∧ signed_for p o n i now.

Lemma some_signed s p now :
  obligations p ≠ [] → all_signed s p now → ∃ q o n i at_, signed_for q o n i at_.
Proof.
  intros Hne Ho. destruct (obligations p) as [|o os] eqn:Eo; [done|].
  destruct (Ho o) as [Hreq Hn]; [rewrite Eo; left|]. destruct (required_ordinals o) as [|n ns]; [done|].
  destruct (Hn n) as (i & _ & _ & _ & _ & Hs); [left|]. by exists p, o, n, i, now.
Qed.

(** C24. Over the signed verifier a commit rests on signatures: after any calls, errors, faults and
    restarts, [commit] returns only if, for every process that every obligation of the plan
    requires, the envelopes hold a statement, verified when it was observed under a key
    trusted for its subject, that names the plan, the obligation and its event, the role, the
    ordinal and the very epoch of the process in the current inventory, and the digest of the
    artifact of a plugin of the plan, and that has not expired at the time the clock tells when
    [commit] is called. *)
Theorem commit_signed (w w' : CWorld E T) pid expected g :
  creachable clock gate_clock w → commit clock gate_clock pid expected w = (Ok g, w') →
  ∃ row p, find (is_plan pid) (activation (store w)) = Some row
    ∧ Activation.plan_json row = to_json p ∧ obligations p ≠ []
    ∧ all_signed (store w) p (clock (cticks w)).
Proof.
  intros Hw Hc. pose proof (creachable_ok _ _ _ Hw) as [Hok _].
  pose proof (creachable_backed _ Hw) as Hback. apply commit_committed in Hc; [|done].
  destruct Hc as (row & p & _ & Hrow & Hj & _ & _ & _ & [Hne Hcov] & _).
  exists row, p. split_and!; [done..|]. intros o Ho.
  destruct (Hcov o Ho) as [Hreq Hcov']. split; [done|]. intros n Hn. destruct (Hcov' n Hn) as (i & e & Hi & He & (Hi1 & Hi2 & Hi3) &
    (Hp & _ & _ & Hexp) & Her & Heo & Hee & Heob & Heev).
  exists i. split_and!; [done..|].
  destruct (Hback e He) as (item & seen & q & ep & row' & Hin & Hid & Hj' & Hpid & (env & Henv & Hv) & (plugin & Hf & Hd) & Hrow').
  destruct (find_plan_elem _ _ _ Hrow) as [Hin0 Hid0].
  pose proof (so_rows _ Hok) as Hrows. rewrite Forall_forall in Hrows.
  destruct (Hrows row Hin0) as (p' & Hjp & Hidp & _).
  assert (p' = p) as ->.
  { pose proof (Plan_of_to_json p) as H1. rewrite <-Hj, Hjp, Plan_of_to_json in H1. by injection H1. }
  assert (row' = row) as -> by (eapply same_row; [done..|congruence]).
  assert (q = p) as ->.
  { pose proof (Plan_of_to_json p) as H1. rewrite <-Hj, Hj', Plan_of_to_json in H1. by injection H1. }
  apply find_some in Hf as [Hf _].
  exists env, (statement_of item), seen, plugin.
  assert (nonce item = Evidence.nonce e ∧ att_obligation_id item = Evidence.obligation_id e
    ∧ att_event item = Evidence.event e ∧ role (process item) = Evidence.role e
    ∧ ordinal (process item) = Evidence.ordinal e ∧ EcpaModel.epoch (process item) = Evidence.epoch e
    ∧ EcpaModel.expires_at item = Evidence.expires_at e) as (E1 & E2 & E3 & E4 & E5 & E6 & E7)
    by by destruct Hrow' as [->| ->].
  cbn. split_and!; try congruence; try done. by apply list_elem_of_In.
Qed.
End Coordinator.
End Signed.
