(* ===== verification/SignedRuns.v ===== *)
(** * SignedRuns: concrete runs with signed receipts

    Witnesses for AttestationProofs.v and SignedCommit.v: canonical JSON as Json.v prints it, the
    FIPS 180-4 digest, and a keyed digest in the place of Ed25519. *)

From S2P Require Import Prelude Effects Json Sha256 JsonText JsonFacts Base64 Manifest ProviderPlans EcpaModel HostEvidence AttestationProfile AttestationProofs.
From S2P Require Import ExposureGate GateInvariant GateRecovery DurableCoordinator CoordinatorProofs SignedCommit.

Local Open Scope string_scope.
Local Open Scope list_scope.

Module SignedDemo.

#[export] Instance printed : Jcs := λ v, Ok (canonical_bytes v).
#[export] Instance printed_laws : @JcsLaws printed.
Proof.
  split.
  - intros kvs text Hu _ [= <-]. rewrite norm_obj. eexists. split; [|reflexivity].
    unfold parse_strict. rewrite loads_with_canonical; [by rewrite norm_obj|apply pairs_keep|done].
  - intros v _ _. unfold jcs_canonicalize, printed. by rewrite canonical_bytes_norm.
Qed.

#[export] Instance keyed : Ed25519 string string := {|
  public_key_of key := key;
  ed_sign key message := sha256_hexdigest (key +:+ message);
  ed_verify key signature message := signature =? sha256_hexdigest (key +:+ message) |}.
#[export] Instance keyed_laws : Ed25519Laws string string.
Proof. intros key message. apply String.eqb_refl. Qed.

Definition plugin : PluginIdentity :=
  mkPluginIdentity "org.acme" "attention" "1.0.0" (sha256_hexdigest "wheel").
Definition worker : ProcessIdentity := mkProcessIdentity "node0" "worker" 0 "boot-1" 7.
Definition plan : Plan :=
  mkPlan [plugin] EcpaModel.Demo.the_host [] [EcpaModel.Demo.obligation]
    (mkPredecessorSnapshot 0 None []) false.
Definition pid : string := plan_id plan.

Definition receipt : Attestation := mkAttestation pid "launch-1" worker "ob-1" "patch-applied" "n1"
  110 400 (plugin_id plugin) "host-runtime" "issuer" "k1" 100
  ("sha256:" +:+ sha256_hexdigest "event") ("sha256:" +:+ sha256_hexdigest "wheel").

Definition entry : TrustEntry string := mkTrustEntry "issuer" "k1" "secret" ["host-runtime"] 0 1000 true.
Definition store_of (entries : list (TrustEntry string)) : TrustStore string :=
  match trust_store entries with Ok s => s | Err _ => ∅ end.
Definition envelope : SignedEnvelope :=
  match sign (statement_of receipt) "secret" with Ok e => e | Err _ => mkEnvelope "" "" end.
Definition verifier : SignedAttestationVerifier (PK := string) :=
  mkVerifier {["n1" := envelope]} (store_of [entry]) 0 DEFAULT_MAX_TTL DEFAULT_MAX_OBSERVATION_AGE.

Example accepted :
  verify envelope (trusted verifier) 150 0 300 300 = Ok (statement_of receipt)
  ∧ verify envelope (trusted verifier) 500 0 300 300 = Err (AttestationError EXPIRED "k1")
  ∧ verify (mkEnvelope (payload envelope +:+ " ") (detached_jws envelope)) (trusted verifier) 150 0
      300 300 = Err (AttestationError NONCANONICAL_PAYLOAD "payload must be JCS bytes").
Proof. vm_compute. done. Qed.

Lemma signed_verified_witness : verify envelope (trusted verifier) 150 0 300 300 = Ok (statement_of receipt).
Proof.
  apply (signed_verified (statement_of receipt) "secret" envelope (trusted verifier) 150 0 300 300 entry).
  - vm_compute. reflexivity.
  - reflexivity.
  - unfold trusts. repeat apply conj.
    + vm_compute. reflexivity.
    + reflexivity.
    + left.
    + apply Z.leb_le. vm_compute. reflexivity.
    + apply Z.leb_le. vm_compute. reflexivity.
  - reflexivity.
  - unfold fresh. repeat apply conj; apply Z.leb_le; vm_compute; reflexivity.
Defined.

Lemma verify_iff_witness : fresh (statement_of receipt) 150 0 300 300.
Proof.
  apply (verify_iff envelope (trusted verifier) 150 0 300 300 (statement_of receipt)).
  vm_compute. reflexivity.
Defined.

Lemma receipt_iff_witness : signed_receipt verifier receipt 150 ∧ bound_artifact plan receipt.
Proof. apply (proj1 (receipt_iff verifier receipt 150 plan)). vm_compute. reflexivity. Defined.

(** ** A commit over the signed verifier *)

Definition clock (n : nat) : Z := 150 + Z.of_nat n.
Definition fakes : Fake.t := Fake.mk [worker] false false true None None true false.

#[export] Instance adapters : Adapters Fake.t := signed_adapters verifier fake_adapters.

Definition W : Type := CWorld Fake.t D.t.
Definition ready : W :=
  foldl (λ w c, (cexec clock GateDemo.clock c w).2) (new_coordinator new_store ∅ fakes None)
    [KPlan plan; KPrepare pid; KLaunch pid "launch-1"; KObserve pid receipt (Some 150%Z)].

Lemma ready_reachable : creachable clock GateDemo.clock ready.
Proof. unfold ready. cbn [foldl]. do 4 (eapply cr_next; [|apply cn_call]). apply cr_new. Qed.

Lemma commit_signed_witness : ∃ p o n i now, signed_for verifier p o n i now.
Proof.
  destruct (commit clock GateDemo.clock pid 0 ready) as [[g|e] w'] eqn:Hc.
  - destruct (commit_signed verifier clock GateDemo.clock ready w' pid 0 g) as (row & p & _ & _ & Hne & Ho).
    + exact ready_reachable.
    + exact Hc.
    + exact (some_signed verifier _ p _ Hne Ho).
  - exfalso. revert Hc. vm_compute. discriminate.
Defined.
End SignedDemo.
