(* ===== verification/JournalFs.v ===== *)
(** * JournalFs: the file system under the journals, with failures and SIGKILL

    The part of the operating system host_event_sink.py and quarantine_transaction.py use.  A
    directory is known by its identity (device and inode number) and holds named files; a file
    keeps its inode number when it is renamed.  A descriptor is modelled by the directory and
    name it was opened under: nothing is renamed while it is open.  Only directories are found
    through [fs_paths], so [S_ISDIR] always holds.

    Every system call consumes one [outcome] of the world's script: it is done, it fails with an
    [OSError], a write is short, or the process is killed there.  After a kill nothing the
    program still runs (handlers, [finally] blocks) can touch the world, as every further call
    is killed too.  An empty script means that every call is done. *)

From S2P Require Import Prelude Effects.
From stdpp Require Import gmap.

Local Open Scope string_scope.

Definition ident : Type := Z * Z.

Variant kind := Regular | Symlink | Special.

#[global] Instance kind_eq_dec : EqDecision kind.
Proof. solve_decision. Defined.

Record file := File {
  f_ino : Z;
  f_kind : kind;
  f_uid : Z;
  f_mode : Z;  (* the permission bits, S_IMODE *)
  f_data : string;
}.

#[global] Instance file_eq_dec : EqDecision file.
Proof. solve_decision. Defined.

Record directory := Directory {
  d_uid : Z;
  d_mode : Z;
  d_entries : gmap string file;
}.

Record fsys := Fsys {
  fs_links : gset string;           (* the paths that are symbolic links *)
  fs_real : gmap string string;     (* what a path resolves to *)
  fs_paths : gmap string ident;     (* the directory at a path *)
  fs_dirs : gmap ident directory;
  fs_next : Z;                      (* the next inode number *)
}.

Variant outcome := Done | Fail | Short (n : nat) | Kill.

Record World := mkWorld {
  w_fs : fsys;
  w_locks : gset (ident * string);  (* the files an open descriptor holds an exclusive lock on *)
  w_script : list outcome;
  w_euid : Z;
  w_pid : Z;
  w_token : nat;                    (* tokens drawn so far *)
}.

Definition set_fs (fs : fsys) (w : World) : World :=
  mkWorld fs (w_locks w) (w_script w) (w_euid w) (w_pid w) (w_token w).
Definition set_locks (l : gset (ident * string)) (w : World) : World :=
  mkWorld (w_fs w) l (w_script w) (w_euid w) (w_pid w) (w_token w).
Definition set_script (s : list outcome) (w : World) : World :=
  mkWorld (w_fs w) (w_locks w) s (w_euid w) (w_pid w) (w_token w).
Definition set_token (n : nat) (w : World) : World :=
  mkWorld (w_fs w) (w_locks w) (w_script w) (w_euid w) (w_pid w) n.

(** [secrets.token_hex(16)]: the [n]-th token drawn, 32 lower-case hexadecimal digits. *)
Class Entropy := token_hex : nat → string.

(** ** Directory entries *)

Definition entry (fs : fsys) (d : ident) (name : string) : option file :=
  dir ← fs_dirs fs !! d; d_entries dir !! name.

Definition set_entry (d : ident) (name : string) (o : option file) (fs : fsys) : fsys :=
  Fsys (fs_links fs) (fs_real fs) (fs_paths fs)
    (alter (λ dir, Directory (d_uid dir) (d_mode dir)
       (partial_alter (λ _, o) name (d_entries dir))) d (fs_dirs fs))
    (fs_next fs).

Definition set_next (n : Z) (fs : fsys) : fsys :=
  Fsys (fs_links fs) (fs_real fs) (fs_paths fs) (fs_dirs fs) n.

Definition file_id (d : ident) (f : file) : ident := (d.1, f_ino f).

(** ** System calls *)

Definition syscall {A} (f : M World A) : M World A := λ w,
  match w_script w with
  | [] => f w
  | Done :: s | Short _ :: s => f (set_script s w)
  | Fail :: s => (Err (OSError "system call failed"), set_script s w)
  | Kill :: _ => (Err Killed, w)
  end.

Definition enoent (name : string) : exn := FileNotFoundError name.
Definition eexist (name : string) : exn := FileExistsError name.

(** [Path.is_symlink], [Path.resolve(strict=True)], [os.open] of a directory and its [fstat]. *)
Definition sys_is_symlink (path : string) : M World bool :=
  syscall (gets (λ w, bool_decide (path ∈ fs_links (w_fs w)))).

Definition sys_resolve (path : string) : M World string :=
  syscall (o ← gets (λ w, fs_real (w_fs w) !! path);
    match o with Some p => mret p | None => raise (enoent path) end).

Definition sys_opendir (path : string) : M World ident :=
  syscall (o ← gets (λ w, fs_paths (w_fs w) !! path);
    match o with Some d => mret d | None => raise (OSError path) end).

Definition sys_fstat_dir (d : ident) : M World directory :=
  syscall (o ← gets (λ w, fs_dirs (w_fs w) !! d);
    match o with Some dir => mret dir | None => raise (OSError "stale descriptor") end).

(** [os.stat(name, dir_fd=d, follow_symlinks=False)]. *)
Definition sys_stat (d : ident) (name : string) : M World file :=
  syscall (o ← gets (λ w, entry (w_fs w) d name);
    match o with Some f => mret f | None => raise (enoent name) end).

(** [os.open(name, O_RDONLY | O_NOFOLLOW, dir_fd=d)]; the same without [O_CREAT] for writing. *)
Definition sys_open (d : ident) (name : string) : M World unit :=
  syscall (o ← gets (λ w, entry (w_fs w) d name);
    match o with
    | Some f => raise_if (bool_decide (f_kind f = Symlink)) (OSError name)
    | None => raise (enoent name)
    end).

Definition sys_fstat (d : ident) (name : string) : M World file :=
  syscall (o ← gets (λ w, entry (w_fs w) d name);
    match o with Some f => mret f | None => raise (OSError "stale descriptor") end).

(** The first [n] bytes of a string. *)
Definition str_take (n : nat) (s : string) : string := String.substring 0 n s.

(** [stream.read(n)]. *)
Definition sys_read (d : ident) (name : string) (n : Z) : M World string :=
  syscall (o ← gets (λ w, entry (w_fs w) d name);
    match o with
    | Some f => mret (str_take (Z.to_nat n) (f_data f))
    | None => raise (OSError "stale descriptor")
    end).

(** [os.open(name, O_CREAT | O_EXCL | O_WRONLY | O_NOFOLLOW, mode, dir_fd=d)]. *)
Definition sys_create (d : ident) (name : string) (mode : Z) : M World unit :=
  syscall (o ← gets (λ w, entry (w_fs w) d name);
    match o with
    | Some _ => raise (eexist name)
    | None => modify (λ w, set_fs (set_next (fs_next (w_fs w) + 1) (set_entry d name
        (Some (File (fs_next (w_fs w)) Regular (w_euid w) mode EmptyString)) (w_fs w))) w)
    end).

(** [os.open(name, O_RDWR | O_CREAT | O_NOFOLLOW, mode, dir_fd=d)]. *)
Definition sys_open_create (d : ident) (name : string) (mode : Z) : M World unit :=
  syscall (o ← gets (λ w, entry (w_fs w) d name);
    match o with
    | Some f => raise_if (bool_decide (f_kind f = Symlink)) (OSError name)
    | None => modify (λ w, set_fs (set_next (fs_next (w_fs w) + 1) (set_entry d name
        (Some (File (fs_next (w_fs w)) Regular (w_euid w) mode EmptyString)) (w_fs w))) w)
    end).

Definition append_data (s : string) (f : file) : file :=
  File (f_ino f) (f_kind f) (f_uid f) (f_mode f) (f_data f +:+ s).

(** [os.write(fd, view)]: the number of bytes written. *)
Definition sys_write (d : ident) (name : string) (view : string) : M World nat := λ w,
  let n := match w_script w with Short n :: _ => n `min` String.length view
           | _ => String.length view end in
  syscall (o ← gets (λ w, entry (w_fs w) d name);
    match o with
    | Some f =>
        modify (λ w, set_fs (set_entry d name (Some (append_data (str_take n view) f)) (w_fs w)) w);;
        mret n
    | None => raise (OSError "stale descriptor")
    end) w.

Definition sys_fchmod (d : ident) (name : string) (mode : Z) : M World unit :=
  syscall (o ← gets (λ w, entry (w_fs w) d name);
    match o with
    | Some f => modify (λ w, set_fs (set_entry d name
        (Some (File (f_ino f) (f_kind f) (f_uid f) mode (f_data f))) (w_fs w)) w)
    | None => raise (OSError "stale descriptor")
    end).

(** [os.fsync(fd)]: a killed process loses nothing it has written, a lost machine would. *)
Definition sys_fsync : M World unit := syscall (mret tt).

Definition sys_unlink (d : ident) (name : string) : M World unit :=
  syscall (o ← gets (λ w, entry (w_fs w) d name);
    match o with
    | Some _ => modify (λ w, set_fs (set_entry d name None (w_fs w)) w)
    | None => raise (enoent name)
    end).

(** [os.listdir(d)]. *)
Definition sys_listdir (d : ident) : M World (list string) :=
  syscall (o ← gets (λ w, fs_dirs (w_fs w) !! d);
    match o with
    | Some dir => mret (map_to_list (d_entries dir)).*1
    | None => raise (OSError "stale descriptor")
    end).

(** [renameat2(..., RENAME_NOREPLACE)]; the error number selects the [OSError] subclass. *)
Definition _rename_noreplace (source_directory : ident) (source : string)
    (destination_directory : ident) (destination : string) : M World unit :=
  syscall (s ← gets (λ w, entry (w_fs w) source_directory source);
    t ← gets (λ w, entry (w_fs w) destination_directory destination);
    match s, t with
    | None, _ => raise (enoent destination)
    | Some _, Some _ => raise (eexist destination)
    | Some f, None =>
        if (source_directory.1 =? destination_directory.1)%Z
        then modify (λ w, set_fs (set_entry destination_directory destination (Some f)
               (set_entry source_directory source None (w_fs w))) w)
        else raise (OSError destination)
    end).

(** ** Handlers *)

(** [try: m except <p>: h]. *)
Definition except {A} (p : exn → bool) (m : M World A) (h : exn → M World A) : M World A :=
  catch m (λ e, if p e then h e else raise e).

(** [try: m except OSError as exc: raise e from exc]. *)
Definition os_error_as {A} (e : exn) (m : M World A) : M World A :=
  except is_oserror m (λ _, raise e).

Definition is_enoent (e : exn) : bool :=
  match e with FileNotFoundError _ => true | _ => false end.
Definition is_eexist (e : exn) : bool :=
  match e with FileExistsError _ => true | _ => false end.
Definition is_sink_error (e : exn) : bool :=
  match e with HostEventSinkError _ => true | _ => false end.

(** [try: m finally: f]; an exception of [f] replaces the outcome of [m]. *)
Definition finally {A} (m : M World A) (f : M World unit) : M World A :=
  try_else m (λ e, f;; raise e) (λ a, f;; mret a).

(** [for x in l: f(x)]. *)
Fixpoint for_each {A} (l : list A) (f : A → M World unit) : M World unit :=
  match l with
  | [] => mret tt
  | x :: l' => f x;; for_each l' f
  end.

(** The write loop: [while view: written = os.write(fd, view); ...].  [stalled] is raised when a
    call writes nothing.  The fuel bounds the calls; [write_all] gives one per byte. *)
Fixpoint write_loop (fuel : nat) (d : ident) (name view : string) (stalled : exn)
    : M World unit :=
  match view, fuel with
  | EmptyString, _ => mret tt
  | _, O => raise AssertionError
  | _, S fuel' =>
      written ← sys_write d name view;
      raise_if (written <=? 0)%nat stalled;;
      write_loop fuel' d name (String.substring written (String.length view - written) view)
        stalled
  end.

Definition write_all (d : ident) (name view : string) (stalled : exn) : M World unit :=
  write_loop (String.length view) d name view stalled.

(** ** Frames and layouts *)

Lemma entry_set d n o fs d' n' :
  is_Some (fs_dirs fs !! d) →
  entry (set_entry d n o fs) d' n' = if bool_decide (d' = d ∧ n' = n) then o else entry fs d' n'.
Proof.
  intros [dir Hd]. unfold entry, set_entry. cbn [fs_dirs].
  destruct (decide (d' = d)) as [->|Hne].
  - rewrite lookup_alter_eq, Hd. cbn [fmap option_fmap option_map mbind option_bind d_entries].
    destruct (decide (n' = n)) as [->|Hn].
    + by rewrite lookup_partial_alter_eq, bool_decide_true.
    + rewrite lookup_partial_alter_ne by done. rewrite bool_decide_false by naive_solver. done.
  - rewrite lookup_alter_ne by done. by rewrite bool_decide_false by naive_solver.
Qed.

Lemma entry_dir fs d n f : entry fs d n = Some f → is_Some (fs_dirs fs !! d).
Proof. unfold entry. destruct (fs_dirs fs !! d); [by eexists|done]. Qed.

Lemma entry_set_next n fs : entry (set_next n fs) = entry fs.
Proof. done. Qed.

(** Two file systems with the same directories at the same paths, whatever their files. *)
Record same_layout (fs fs' : fsys) : Prop := {
  sl_links : fs_links fs' = fs_links fs;
  sl_real : fs_real fs' = fs_real fs;
  sl_paths : fs_paths fs' = fs_paths fs;
  sl_dirs : ∀ d, (λ dir, (d_uid dir, d_mode dir)) <$> fs_dirs fs' !! d
                 = (λ dir, (d_uid dir, d_mode dir)) <$> fs_dirs fs !! d;
}.

#[global] Instance same_layout_preorder : PreOrder same_layout.
Proof.
  split.
  - intros fs. by split.
  - intros f1 f2 f3 [] []. split; congruence.
Qed.

Lemma same_layout_set d n o fs : same_layout fs (set_entry d n o fs).
Proof.
  split; [done..|]. intros d'. unfold set_entry. cbn [fs_dirs].
  destruct (decide (d' = d)) as [->|]; [|by rewrite lookup_alter_ne].
  rewrite lookup_alter_eq. by destruct (fs_dirs fs !! d).
Qed.

Lemma same_layout_next n fs : same_layout fs (set_next n fs).
Proof. by split. Qed.

Lemma same_layout_dir fs fs' d :
  same_layout fs fs' → is_Some (fs_dirs fs !! d) ↔ is_Some (fs_dirs fs' !! d).
Proof.
  intros [_ _ _ H]. specialize (H d). unfold is_Some.
  destruct (fs_dirs fs !! d), (fs_dirs fs' !! d); naive_solver.
Qed.
