(* ===== verification/HostEventSink.v ===== *)
(** * HostEventSink: moving and reading journals (host_event_sink.py)

    The journal operations the quarantine transaction is built from: opening a journal root,
    the writer lock, appending to a journal, [snapshot_journal], [quarantine_journal] with its
    rollback, and [restore_quarantined_journal].  The environment variables are an argument,
    [getenv]. *)

From S2P Require Import Prelude Effects Json Sha256 JsonText HostEvidence JournalFs.

Local Open Scope string_scope.

Definition QUARANTINE_LOCK : string := ".ecpa-quarantine.lock".

Record QuarantinedJournal := mkJournal {
  journal : string;
  raw : string;
  device : Z;
  inode : Z;
}.

#[global] Instance QuarantinedJournal_eq_dec : EqDecision QuarantinedJournal.
Proof. solve_decision. Defined.

Definition sink_error {A} (msg : string) : M World A := raise (HostEventSinkError msg).

(** [root.is_absolute()]. *)
Definition is_absolute (path : string) : bool := String.prefix "/" path.

(** [s.endswith(suffix)]. *)
Definition endswith (suffix s : string) : bool :=
  (String.length suffix <=? String.length s)%nat
  && (String.substring (String.length s - String.length suffix) (String.length suffix) s
      =? suffix).

(** [Path(name).name == name]. *)
Definition is_file_name (name : string) : bool :=
  negb (name =? EmptyString) && negb (name =? ".")
  && string_forall (λ c, negb (Ascii.eqb c "/")) name.

(** [stat.S_IMODE(mode) & 0o022]. *)
Definition others_write (mode : Z) : bool := negb (Z.land mode 18 =? 0)%Z.

Definition MODE_0600 : Z := 384.

Definition _open_journal_root (root : string) (expected_identity : option ident)
    : M World (string * ident) :=
  raise_if (negb (is_absolute root))
    (HostEventSinkError "host event directory must be an existing real path");;
  link ← sys_is_symlink root;
  raise_if link (HostEventSinkError "host event directory must be an existing real path");;
  resolved ← os_error_as (HostEventSinkError "host event directory is unavailable")
    (sys_resolve root);
  raise_if (negb (resolved =? root))
    (HostEventSinkError "host event directory must be canonical");;
  descriptor ← os_error_as (HostEventSinkError "cannot open host event directory")
    (sys_opendir root);
  metadata ← os_error_as (HostEventSinkError "cannot inspect host event directory")
    (sys_fstat_dir descriptor);
  euid ← gets w_euid;
  raise_if (negb (d_uid metadata =? euid)%Z || others_write (d_mode metadata))
    (HostEventSinkError "host event directory must be private and owned");;
  raise_if (match expected_identity with
            | Some id => negb (bool_decide (descriptor = id))
            | None => false
            end) (HostEventSinkError "host event directory identity changed");;
  mret (resolved, descriptor).

Section Names.
Context `{Sha256}.

Definition _quarantine_fence_name (journal : string) : string :=
  ".ecpa-quarantine-" +:+ sha256_hexdigest journal +:+ ".fence".
End Names.

(** The lock file and [flock] on it.  An exclusive lock is recorded; a shared one is given up
    before anything else can run, so it only waits for the exclusive one.  A call that waits for
    ever is ended by a kill. *)
Definition _acquire_quarantine_lock (directory : ident) (exclusive nonblocking : bool)
    : M World (ident * string) :=
  let lock := (directory, QUARANTINE_LOCK) in
  os_error_as (HostEventSinkError "cannot acquire host event quarantine lock")
    (sys_open_create directory QUARANTINE_LOCK MODE_0600;;
     metadata ← sys_fstat directory QUARANTINE_LOCK;
     euid ← gets w_euid;
     raise_if (negb (bool_decide (f_kind metadata = Regular)) || negb (f_uid metadata =? euid)%Z
       || negb (f_mode metadata =? MODE_0600)%Z)
       (HostEventSinkError "host event quarantine lock is unsafe");;
     syscall (held ← gets (λ w, bool_decide (lock ∈ w_locks w));
       raise_if held (if nonblocking
         then HostEventSinkError "host event journal is fenced for quarantine" else Killed);;
       when exclusive (modify (λ w, set_locks ({[lock]} ∪ w_locks w) w)));;
     mret lock).

Definition release (lock : ident * string) : M World unit :=
  modify (λ w, set_locks (w_locks w ∖ {[lock]}) w).

Section Journals.
Context `{Sha256}.

Definition canonical_event (event : json) : result string :=
  let raw := ascii_dumps event in
  parse_host_event raw;; Ok raw.

Section Environment.
Context (getenv : string → option string).

Definition _expected_directory_identity : result (option ident) :=
  let invalid := Err (HostEventSinkError "host event directory identity is invalid") in
  match getenv "ECPA_HOST_EVENT_DEVICE", getenv "ECPA_HOST_EVENT_INODE" with
  | None, None => Ok None
  | Some device, Some inode =>
      match int_of_string device, int_of_string inode with
      | Some d, Some i => if (d <? 0)%Z || (i <? 0)%Z then invalid else Ok (Some (d, i))
      | _, _ => invalid
      end
  | _, _ => invalid
  end.

Definition _configured_journal_root : M World (string * ident) :=
  match getenv "ECPA_HOST_EVENT_DIR" with
  | None | Some EmptyString => sink_error "ECPA_HOST_EVENT_DIR is required"
  | Some configured =>
      identity ← lift_result _expected_directory_identity;
      _open_journal_root configured identity
  end.

(** [event["process"]], an event [canonical_event] has accepted. *)
Definition _journal_name (event : json) : string :=
  let value := members_of event in
  let process := members_of (get "process" value) in
  material_digest
    [get "plan_id" value; get "launch_id" value; get "host" process; get "role" process;
     get "ordinal" process; get "pid" process; get "start_identity" process;
     get "process_epoch" process] +:+ ".jsonl".

(** The file part of [append_event]: [name] and [raw] are the event's journal and line. *)
Definition append_line (directory : ident) (fsync name raw : string) : M World unit :=
  fenced ← catch (sys_stat directory (_quarantine_fence_name name);; mret true)
    (λ e, if is_enoent e then mret false
          else if is_oserror e then sink_error "cannot inspect journal quarantine fence"
          else raise e);
  raise_if fenced (HostEventSinkError "host event journal is durably quarantined");;
  created ← os_error_as (HostEventSinkError "cannot open host event journal")
    (except is_eexist (sys_create directory name MODE_0600;; mret true)
       (λ _, sys_open directory name;; mret false));
  os_error_as (HostEventSinkError "cannot write or sync host event journal")
    (metadata ← sys_fstat directory name;
     euid ← gets w_euid;
     raise_if (negb (bool_decide (f_kind metadata = Regular)) || negb (f_uid metadata =? euid)%Z)
       (HostEventSinkError "host event journal is not an owned regular file");;
     when (negb (f_mode metadata =? MODE_0600)%Z)
       (sys_fchmod directory name MODE_0600;;
        again ← sys_fstat directory name;
        raise_if (negb (f_mode again =? MODE_0600)%Z)
          (HostEventSinkError "host event journal mode is not 0600"));;
     write_all directory name raw (HostEventSinkError "host event journal append made no progress");;
     when (fsync =? "1") sys_fsync);;
  when ((fsync =? "1") && created)
    (os_error_as (HostEventSinkError "cannot sync host event directory") sys_fsync).

Definition append_event (event : json) : M World unit :=
  raw ← lift_result (canonical_event event);
  '(_, directory) ← _configured_journal_root;
  _acquire_quarantine_lock directory false false;;
  let fsync := default "0" (getenv "ECPA_HOST_EVENT_FSYNC") in
  raise_if (negb (bool_decide (fsync ∈ ["0"; "1"])))
    (HostEventSinkError "ECPA_HOST_EVENT_FSYNC must be 0 or 1");;
  append_line directory fsync (_journal_name event) (raw +:+ newline).

(** ** Reading the journals *)

Record JournalEvent := mkJournalEvent {
  je_journal : string;
  je_line_number : Z;
  je_raw : string;
  je_event : list (string * json);
}.

(** [bytes.splitlines()]: lines end in a line feed, a carriage return or both. *)
Fixpoint splitlines (line : string) (s : string) : list string :=
  match s with
  | EmptyString => match line with EmptyString => [] | _ => [line] end
  | String c s' =>
      let n := N_of_ascii c in
      if (n =? 10)%N then line :: splitlines EmptyString s'
      else if (n =? 13)%N then
        line :: splitlines EmptyString
                  (match s' with
                   | String d s'' => if (N_of_ascii d =? 10)%N then s'' else s'
                   | EmptyString => s'
                   end)
      else splitlines (line +:+ String c EmptyString) s'
  end.

(** The lines of one journal: [records] and [event_ids] so far, and the new ones. *)
Fixpoint parse_lines (name : string) (line_number : Z) (lines : list string)
    (records : list JournalEvent) (event_ids : list json)
    : result (list JournalEvent * list json) :=
  match lines with
  | [] => Ok (records, event_ids)
  | raw :: lines' =>
      check (negb (raw =? EmptyString))
        (HostEventSinkError "host event journal contains an empty record");;
      event ← parse_host_event raw;
      let id := get "event_id" event in
      check (negb (bool_decide (id ∈ event_ids)))
        (HostEventSinkError "duplicate host event id across journals");;
      parse_lines name (line_number + 1) lines'
        (records ++ [mkJournalEvent name line_number raw event])%list (id :: event_ids)
  end.

Definition read_journal (directory : ident) (name : string) (remaining : option Z)
    : M World string :=
  os_error_as (HostEventSinkError "cannot open host event journal") (sys_open directory name);;
  metadata ← sys_fstat directory name;
  euid ← gets w_euid;
  raise_if (negb (bool_decide (f_kind metadata = Regular)) || negb (f_uid metadata =? euid)%Z)
    (HostEventSinkError "host event journal is not an owned regular file");;
  match remaining with
  | None => sys_read directory name (Z.of_nat (String.length (f_data metadata)))
  | Some remaining =>
      journal_bytes ← sys_read directory name (remaining + 1);
      raise_if (remaining <? Z.of_nat (String.length journal_bytes))%Z
        (HostEventSinkError "host event journals exceed the read limit");;
      mret journal_bytes
  end.

Fixpoint read_journals (directory : ident) (max_total_bytes : option Z) (total_bytes : Z)
    (names : list string) (records : list JournalEvent) (event_ids : list json)
    : M World (list JournalEvent) :=
  match names with
  | [] => mret records
  | name :: names' =>
      journal_bytes ← read_journal directory name ((λ m, m - total_bytes)%Z <$> max_total_bytes);
      raise_if (negb (journal_bytes =? EmptyString)
          && negb (endswith newline journal_bytes))
        (HostEventSinkError "host event journal has a partial final record");;
      '(records, event_ids) ← lift_result
        (parse_lines name 1 (splitlines EmptyString journal_bytes) records event_ids);
      read_journals directory max_total_bytes
        (total_bytes + Z.of_nat (String.length journal_bytes))%Z names' records event_ids
  end.

Definition read_events (root : string) (expected_identity : option ident)
    (max_total_bytes : option Z) : M World (list JournalEvent) :=
  raise_if (match max_total_bytes with Some m => (m <=? 0)%Z | None => false end)
    (HostEventSinkError "host event read limit must be a positive integer");;
  identity ← match expected_identity with
    | Some id => mret (Some id)
    | None =>
        if bool_decide (getenv "ECPA_HOST_EVENT_DIR" = Some root)
        then lift_result _expected_directory_identity else mret None
    end;
  '(_, directory) ← _open_journal_root root identity;
  names ← sys_listdir directory;
  read_journals directory max_total_bytes 0
    (List.filter (endswith ".jsonl") (sort_by id str_leb names)) [] [].
End Environment.

Definition snapshot_journal (root name : string) (expected_root_identity : ident)
    (max_bytes : Z) : M World QuarantinedJournal :=
  raise_if (negb (is_file_name name) || negb (endswith ".jsonl" name) || (max_bytes <=? 0)%Z)
    (HostEventSinkError "journal snapshot request is invalid");;
  '(_, directory) ← _open_journal_root root (Some expected_root_identity);
  os_error_as (HostEventSinkError "cannot open journal for snapshot") (sys_open directory name);;
  before ← sys_fstat directory name;
  euid ← gets w_euid;
  raise_if (negb (bool_decide (f_kind before = Regular)) || negb (f_uid before =? euid)%Z)
    (HostEventSinkError "journal snapshot source is not an owned regular file");;
  raw ← sys_read directory name (max_bytes + 1);
  raise_if (max_bytes <? Z.of_nat (String.length raw))%Z
    (HostEventSinkError "journal snapshot source exceeds the limit");;
  raise_if (negb (raw =? EmptyString) && negb (endswith newline raw))
    (HostEventSinkError "journal snapshot source is partial");;
  after ← os_error_as (HostEventSinkError "journal snapshot source disappeared")
    (sys_stat directory name);
  raise_if (negb (bool_decide (file_id directory after = file_id directory before))
      || negb (String.length (f_data after) =? String.length (f_data before))%nat)
    (HostEventSinkError "journal snapshot source identity changed");;
  mret (mkJournal name raw directory.1 (f_ino before)).

(** What [quarantine_journal] checks before the move: the bytes and metadata of the source. *)
Definition read_movable (source_directory : ident) (name : string) (max_bytes : Z)
    (expected_journal : option QuarantinedJournal) : M World (string * file) :=
  os_error_as (HostEventSinkError "cannot open journal for quarantine")
    (sys_open source_directory name);;
  file_metadata ← sys_fstat source_directory name;
  euid ← gets w_euid;
  raise_if (negb (bool_decide (f_kind file_metadata = Regular))
      || negb (f_uid file_metadata =? euid)%Z)
    (HostEventSinkError "journal quarantine source is not an owned regular file");;
  raw ← sys_read source_directory name (max_bytes + 1);
  raise_if (max_bytes <? Z.of_nat (String.length raw))%Z
    (HostEventSinkError "journal quarantine source exceeds the limit");;
  raise_if (negb (raw =? EmptyString) && negb (endswith newline raw))
    (HostEventSinkError "journal quarantine source is partial");;
  raise_if (match expected_journal with
            | Some j => negb (bool_decide
                (j = mkJournal name raw source_directory.1 (f_ino file_metadata)))
            | None => false
            end)
    (HostEventSinkError "journal quarantine source differs from the expected receipt");;
  current ← os_error_as (HostEventSinkError "journal quarantine source disappeared")
    (sys_stat source_directory name);
  raise_if (negb (bool_decide (file_id source_directory current
                               = file_id source_directory file_metadata))
      || negb (String.length (f_data current) =? String.length (f_data file_metadata))%nat)
    (HostEventSinkError "journal quarantine source identity changed");;
  mret (raw, file_metadata).

(** The checks after the rename; [OSError]s are turned into the error of the move. *)
Definition verify_moved (source_directory quarantine_directory : ident) (name raw : string)
    (file_metadata : file) (max_bytes : Z) : M World unit :=
  sys_fsync;;
  sys_fsync;;
  destination ← sys_stat quarantine_directory name;
  raise_if (negb (bool_decide (file_id quarantine_directory destination
                               = file_id source_directory file_metadata)))
    (HostEventSinkError "quarantined journal identity changed");;
  os_error_as (HostEventSinkError "cannot open quarantined journal")
    (sys_open quarantine_directory name);;
  retained_metadata ← sys_fstat quarantine_directory name;
  raise_if (negb (bool_decide (file_id quarantine_directory retained_metadata
                               = file_id source_directory file_metadata)))
    (HostEventSinkError "quarantined journal changed before validation");;
  retained ← sys_read quarantine_directory name (max_bytes + 1);
  raise_if (negb (retained =? raw)) (HostEventSinkError "quarantined journal bytes changed");;
  visible ← except is_enoent (sys_stat source_directory name;; mret true) (λ _, mret false);
  raise_if visible (HostEventSinkError "quarantined journal remains visible").

(** The [except BaseException] clause once the journal has moved. *)
Definition move_back (source_directory quarantine_directory : ident) (name : string)
    (original : exn) : M World QuarantinedJournal :=
  try_else (sys_stat source_directory name)
    (λ e,
      if is_enoent e then
        os_error_as (HostEventSinkError "journal quarantine failed and rollback failed")
          (_rename_noreplace quarantine_directory name source_directory name;;
           sys_fsync;; sys_fsync);;
        raise original
      else if is_oserror e then
        sink_error "journal quarantine failed and rollback target is unsafe"
      else raise e)
    (λ _, sink_error "journal quarantine failed and rollback target exists").

Definition quarantine_journal (root quarantine_root name : string)
    (expected_root_identity expected_quarantine_identity : ident) (max_bytes : Z)
    (expected_journal : option QuarantinedJournal) : M World QuarantinedJournal :=
  raise_if (negb (is_file_name name) || negb (endswith ".jsonl" name) || (max_bytes <=? 0)%Z)
    (HostEventSinkError "journal quarantine request is invalid");;
  '(source_path, source_directory) ← _open_journal_root root (Some expected_root_identity);
  '(quarantine_path, quarantine_directory) ←
    _open_journal_root quarantine_root (Some expected_quarantine_identity);
  sys_fstat_dir source_directory;;
  sys_fstat_dir quarantine_directory;;
  raise_if (source_path =? quarantine_path)
    (HostEventSinkError "journal quarantine must use another directory");;
  raise_if (negb (source_directory.1 =? quarantine_directory.1)%Z)
    (HostEventSinkError "journal quarantine must share a filesystem");;
  exists_ ← catch (sys_stat quarantine_directory name;; mret true)
    (λ e, if is_enoent e then mret false
          else if is_oserror e then sink_error "cannot inspect journal quarantine target"
          else raise e);
  raise_if exists_ (HostEventSinkError "journal quarantine target already exists");;
  '(raw, file_metadata) ← read_movable source_directory name max_bytes expected_journal;
  os_error_as (HostEventSinkError "cannot atomically quarantine journal")
    (_rename_noreplace source_directory name quarantine_directory name);;
  catch
    (os_error_as (HostEventSinkError "cannot atomically quarantine journal")
       (verify_moved source_directory quarantine_directory name raw file_metadata max_bytes);;
     mret (mkJournal name raw source_directory.1 (f_ino file_metadata)))
    (move_back source_directory quarantine_directory name).

Definition restore_quarantined_journal (root quarantine_root : string)
    (quarantined : QuarantinedJournal)
    (expected_root_identity expected_quarantine_identity : ident) (max_bytes : Z)
    : M World unit :=
  restored ← quarantine_journal quarantine_root root (journal quarantined)
    expected_quarantine_identity expected_root_identity max_bytes (Some quarantined);
  raise_if (negb (raw restored =? raw quarantined)
      || negb (device restored =? device quarantined)%Z
      || negb (inode restored =? inode quarantined)%Z)
    (HostEventSinkError "restored journal differs from quarantine receipt").
End Journals.
