(* ===== verification/Quarantine.v ===== *)
(** * Quarantine: crash-consistent quarantine transactions (quarantine_transaction.py)

    A transaction withholds one journal: an intent record with the journal's bytes is published
    in the quarantine directory, a fence stops the writers, the journal is renamed into the
    quarantine directory, an applied record confirms it, and the runner finalizes or a
    reconciliation restores.  Records are canonical JSON files published by rename;
    [reconcile_quarantine_transactions] settles what a crash left.  [reconcile_one] is the body
    of its loop, split by the kind of record found. *)

From S2P Require Import Prelude Effects Json JsonText Base64 Sha256 JournalFs HostEventSink.

Local Open Scope string_scope.

Definition INTENT_SCHEMA := "ecpa-quarantine-intent/v1".
Definition APPLIED_SCHEMA := "ecpa-quarantine-applied/v1".
Definition FINALIZED_SCHEMA := "ecpa-quarantine-finalized/v1".
Definition RESTORED_SCHEMA := "ecpa-quarantine-restored/v1".
Definition BLOCKED_SCHEMA := "ecpa-quarantine-blocked/v1".
Definition FENCE_SCHEMA := "ecpa-quarantine-source-fence/v1".
Definition MAX_TRANSACTION_RECORD_BYTES : Z := 2 * 1024 * 1024.
Definition _DIGEST_PREFIX := "sha256:".

Definition _INTENT_FIELDS : list string :=
  ["schema"; "transaction_id"; "binding"; "source_directory"; "quarantine_directory";
   "journal"; "journal_device"; "journal_inode"; "journal_bytes"; "journal_base64";
   "journal_sha256"].
Definition _APPLIED_FIELDS : list string :=
  ["schema"; "transaction_id"; "intent_digest"; "journal"; "journal_device"; "journal_inode";
   "journal_bytes"; "journal_sha256"].
Definition _TERMINAL_FIELDS : list string :=
  ["schema"; "transaction_id"; "intent_digest"; "applied_digest"; "reason"; "finalized_digest"].
Definition _FINALIZED_FIELDS : list string :=
  ["schema"; "transaction_id"; "intent_digest"; "applied_digest"; "fact_receipt_sha256";
   "source_process_identity"].
Definition _RESTORE_REASONS : list string :=
  ["catchable-post-move-failure"; "no-move-observed"; "restored-after-applied";
   "restored-after-move"].
Definition _BLOCK_REASONS : list string :=
  ["journal-missing-from-both-roots"; "restore-verification-failed";
   "source-changed-before-recovery"; "source-replacement-collision";
   "source-replacement-after-finalize"].
Definition _FENCE_FIELDS : list string :=
  ["schema"; "transaction_id"; "intent_digest"; "journal"; "journal_device"; "journal_inode";
   "journal_sha256"].

Definition stages : list string := ["intent"; "applied"; "finalized"; "restored"; "blocked"].

(** ** The names of temporary files *)

(** The longest run of characters in a class. *)
Fixpoint span (f : ascii → bool) (s : string) : string * string :=
  match s with
  | String c s' => if f c then let '(a, b) := span f s' in (String c a, b) else (EmptyString, s)
  | EmptyString => (EmptyString, EmptyString)
  end.

Definition is_digit (c : ascii) : bool := match digit_of c with Some _ => true | None => false end.

(** [[1-9][0-9]*\.[0-9a-f]{32}\.tmp\Z]. *)
Definition temp_tail (s : string) : bool :=
  let '(pid, r) := span is_digit s in
  match pid with
  | EmptyString => false
  | String c _ => negb (Ascii.eqb c "0")
  end
  && match expect "." r with
     | Some r' =>
         let '(token, r2) := span is_hex r' in
         (String.length token =? 32)%nat && (r2 =? ".tmp")
     | None => false
     end.

(** [[0-9a-f]{64}\.] and what follows. *)
Definition after_txid (s : string) : option string :=
  let '(txid, r) := span is_hex s in
  if (String.length txid =? 64)%nat then expect "." r else None.

Definition TRANSACTION_TEMP_PREFIX := ".ecpa-transaction-".
Definition FENCE_TEMP_PREFIX := ".ecpa-fence-temp-".

(** [_TRANSACTION_TEMP_PATTERN.fullmatch(name)]. *)
Definition _TRANSACTION_TEMP_PATTERN (name : string) : bool :=
  match r ← strip_prefix TRANSACTION_TEMP_PREFIX name; after_txid r with
  | Some r =>
      existsb (λ stage, match strip_prefix (stage +:+ ".") r with
                        | Some r' => temp_tail r'
                        | None => false
                        end) stages
  | None => false
  end.

(** [_FENCE_TEMP_PATTERN.fullmatch(name)]. *)
Definition _FENCE_TEMP_PATTERN (name : string) : bool :=
  match r ← strip_prefix FENCE_TEMP_PREFIX name; after_txid r with
  | Some r => temp_tail r
  | None => false
  end.

Definition transaction_error {A} (msg : string) : M World A :=
  raise (QuarantineTransactionError msg).

Definition invalid_record {A} (msg : string) : result A := Err (QuarantineTransactionError msg).

Record DurableRecord := mkRecord {
  r_name : string;
  r_raw : string;
  r_digest : string;
  r_value : list (string * json);
}.

Record ReconciliationResult := mkReconciliation {
  restored : list string;
  finalized : list string;
}.

(** [descriptor] is [None] once the lease is closed. *)
Record QuarantineTransactionLease := mkLease {
  l_root : string;
  l_identity : ident;
  descriptor : option (ident * string);
}.

Definition close (lease : QuarantineTransactionLease) : M World QuarantineTransactionLease :=
  match descriptor lease with
  | Some d => release d;; mret (mkLease (l_root lease) (l_identity lease) None)
  | None => mret lease
  end.

Definition acquire_quarantine_transaction_lease (root : string) (expected_identity : ident)
    : M World QuarantineTransactionLease :=
  '(resolved, directory) ← _open_journal_root root (Some expected_identity);
  descriptor ← except is_sink_error (_acquire_quarantine_lock directory true true)
    (λ _, transaction_error "another quarantine transaction is active");
  sys_fsync;;
  mret (mkLease resolved expected_identity (Some descriptor)).

Definition _require_lease (lease : QuarantineTransactionLease) (root : string)
    (expected_identity : ident) : M World unit :=
  let invalid := QuarantineTransactionError "quarantine transaction lease is invalid" in
  raise_if (match descriptor lease with None => true | Some _ => false end) invalid;;
  raise_if (negb (bool_decide (l_identity lease = expected_identity))) invalid;;
  resolved ← sys_resolve root;
  raise_if (negb (resolved =? l_root lease)) invalid.

(** Run with the caller's lease, or with one of its own. *)
Definition with_lease {A} (lease : option QuarantineTransactionLease) (root : string)
    (identity : ident) (body : M World A) : M World A :=
  match lease with
  | Some l => _require_lease l root identity;; body
  | None =>
      l ← acquire_quarantine_transaction_lease root identity;
      finally (_require_lease l root identity;; body) (close l;; mret tt)
  end.

Section Transactions.
Context `{Sha256} `{Entropy}.

Definition quarantine_transaction_id (binding : json) : string :=
  sha256_hexdigest (canonical_bytes binding).

Definition _digest (raw : string) : string := "sha256:" +:+ sha256_hexdigest raw.

Definition _is_digest (value : json) : bool :=
  match value with
  | JStr s =>
      match strip_prefix _DIGEST_PREFIX s with
      | Some hex => (String.length s =? 7 + 64)%nat && string_forall is_hex hex
      | None => false
      end
  | _ => false
  end.

Definition _directory_value (identity : ident) : json :=
  JObj [("device", JInt identity.1); ("inode", JInt identity.2)].

Definition _record_name (transaction_id stage : string) : result string :=
  if negb (String.length transaction_id =? 64)%nat
     || negb (string_forall is_hex transaction_id) || negb (bool_decide (stage ∈ stages))
  then invalid_record "quarantine transaction name is invalid"
  else Ok ("ecpa-" +:+ transaction_id +:+ "." +:+ stage +:+ ".json").

(** The JSON part of reading a record. *)
Definition parse_record (name raw : string) : result DurableRecord :=
  match loads raw with
  | None => invalid_record ("quarantine transaction record is invalid JSON: " +:+ name)
  | Some value =>
      let noncanonical :=
        invalid_record ("quarantine transaction record is not canonical: " +:+ name) in
      match value with
      | JObj kvs =>
          if (raw =? canonical_bytes value +:+ newline)
          then Ok (mkRecord name raw (_digest raw) kvs) else noncanonical
      | _ => noncanonical
      end
  end.

(** A regular file of the manager's own with mode 0600. *)
Definition unsafe (metadata : file) (euid : Z) : bool :=
  negb (bool_decide (f_kind metadata = Regular)) || negb (f_uid metadata =? euid)%Z
  || negb (f_mode metadata =? MODE_0600)%Z.

Definition _read_record_from_directory (directory : ident) (name : string) (required : bool)
    : M World (option DurableRecord) :=
  opened ← catch (sys_open directory name;; mret true)
    (λ e, if is_enoent e then
            if negb required then mret false
            else transaction_error ("quarantine transaction record is missing: " +:+ name)
          else if is_oserror e then
            transaction_error ("cannot open quarantine transaction record: " +:+ name)
          else raise e);
  if negb opened then mret None
  else
    metadata ← sys_fstat directory name;
    euid ← gets w_euid;
    raise_if (unsafe metadata euid)
      (QuarantineTransactionError ("quarantine transaction record is unsafe: " +:+ name));;
    raw ← sys_read directory name (MAX_TRANSACTION_RECORD_BYTES + 1);
    raise_if (MAX_TRANSACTION_RECORD_BYTES <? Z.of_nat (String.length raw))%Z
      (QuarantineTransactionError ("quarantine transaction record is oversized: " +:+ name));;
    record ← lift_result (parse_record name raw);
    mret (Some record).

Definition read_quarantine_record (root : string) (expected_identity : ident)
    (transaction_id stage : string) (required : bool) : M World (option DurableRecord) :=
  '(_, directory) ← _open_journal_root root (Some expected_identity);
  name ← lift_result (_record_name transaction_id stage);
  _read_record_from_directory directory name required.

(** [assert record is not None]. *)
Definition assert_some (o : option DurableRecord) : M World DurableRecord :=
  match o with Some r => mret r | None => raise AssertionError end.

Definition next_token : M World string :=
  n ← gets w_token; modify (set_token (S n));; mret (token_hex n).

(** [os.unlink(temporary); os.fsync(directory)], an [OSError] ignored. *)
Definition unlink_quietly (directory : ident) (name : string) : M World unit :=
  except is_oserror (sys_unlink directory name;; sys_fsync) (λ _, mret tt).

(** The [finally] clause that removes the temporary unless it was renamed ([None]). *)
Definition with_temporary (directory : ident) (temporary : string)
    (m : M World (option DurableRecord)) : M World (option DurableRecord) :=
  try_else m (λ e, unlink_quietly directory temporary;; raise e)
    (λ o, match o with
          | None => mret None
          | Some r => unlink_quietly directory temporary;; mret (Some r)
          end).

(** Writing the temporary and renaming it: [None] when the record is published, the record
    found there when one of that name appeared; [conflict] when it differs. *)
Definition publish (directory : ident) (temporary name raw : string) (persist : M World unit)
    (rename : M World unit) (conflict : exn) : M World (option DurableRecord) :=
  with_temporary directory temporary
    (persist;;
     renamed ← except is_eexist (rename;; mret true) (λ _, (mret false : M World bool));
     if (renamed : bool) then mret None
     else
       existing ← _read_record_from_directory directory name true;
       existing ← assert_some existing;
       raise_if (negb (r_raw existing =? raw)) conflict;;
       mret (Some existing)).

(** The record just published, read back. *)
Definition read_back (directory : ident) (name raw : string) (differs : exn)
    : M World DurableRecord :=
  sys_fsync;;
  published ← _read_record_from_directory directory name true;
  published ← assert_some published;
  raise_if (negb (r_raw published =? raw)) differs;;
  mret published.

Definition _write_record (root : string) (expected_identity : ident)
    (transaction_id stage : string) (value : json) : M World DurableRecord :=
  name ← lift_result (_record_name transaction_id stage);
  let raw := canonical_bytes value +:+ newline in
  raise_if (MAX_TRANSACTION_RECORD_BYTES <? Z.of_nat (String.length raw))%Z
    (QuarantineTransactionError ("quarantine transaction record is oversized: " +:+ name));;
  '(_, directory) ← _open_journal_root root (Some expected_identity);
  pid ← gets w_pid;
  token ← next_token;
  let temporary := TRANSACTION_TEMP_PREFIX +:+ transaction_id +:+ "." +:+ stage +:+ "."
                   +:+ z_str pid +:+ "." +:+ token +:+ ".tmp" in
  let conflict :=
    QuarantineTransactionError ("quarantine transaction record conflicts: " +:+ name) in
  existing ← _read_record_from_directory directory name false;
  match existing with
  | Some existing =>
      raise_if (negb (r_raw existing =? raw)) conflict;;
      mret existing
  | None =>
      os_error_as (QuarantineTransactionError
        ("cannot create quarantine transaction temporary record: " +:+ name))
        (sys_create directory temporary MODE_0600);;
      found ← publish directory temporary name raw
        (os_error_as (QuarantineTransactionError
           ("cannot persist quarantine transaction record: " +:+ name))
           (write_all directory temporary raw (QuarantineTransactionError
              ("quarantine transaction write made no progress: " +:+ name));;
            sys_fsync))
        (except (λ e, is_oserror e && negb (is_eexist e))
           (_rename_noreplace directory temporary directory name)
           (λ _, transaction_error
              ("cannot publish quarantine transaction record: " +:+ name)))
        conflict;
      match found with
      | Some existing => mret existing
      | None =>
          read_back directory name raw (QuarantineTransactionError
            ("published quarantine transaction record differs: " +:+ name))
      end
  end.

(** ** The writer fence *)

Definition _fence_value (transaction_id intent_digest : string) (snapshot : QuarantinedJournal)
    : json :=
  JObj [("schema", JStr FENCE_SCHEMA);
        ("transaction_id", JStr transaction_id);
        ("intent_digest", JStr intent_digest);
        ("journal", JStr (journal snapshot));
        ("journal_device", JInt (device snapshot));
        ("journal_inode", JInt (inode snapshot));
        ("journal_sha256", JStr (_digest (raw snapshot)))].

Definition install_quarantine_source_fence (source_root : string) (source_identity : ident)
    (transaction_id intent_digest : string) (snapshot : QuarantinedJournal)
    : M World DurableRecord :=
  let name := _quarantine_fence_name (journal snapshot) in
  let value := _fence_value transaction_id intent_digest snapshot in
  let raw := canonical_bytes value +:+ newline in
  '(_, directory) ← _open_journal_root source_root (Some source_identity);
  pid ← gets w_pid;
  token ← next_token;
  let temporary := FENCE_TEMP_PREFIX +:+ transaction_id +:+ "." +:+ z_str pid +:+ "."
                   +:+ token +:+ ".tmp" in
  let conflict :=
    QuarantineTransactionError "source journal has another quarantine fence" in
  os_error_as (QuarantineTransactionError "cannot publish source journal fence")
    (existing ← _read_record_from_directory directory name false;
     match existing with
     | Some existing =>
         raise_if (negb (r_raw existing =? raw)) conflict;;
         mret existing
     | None =>
         sys_create directory temporary MODE_0600;;
         found ← publish directory temporary name raw
           (write_all directory temporary raw
              (QuarantineTransactionError "source fence write made no progress");;
            sys_fsync)
           (_rename_noreplace directory temporary directory name)
           conflict;
         match found with
         | Some existing => mret existing
         | None =>
             read_back directory name raw
               (QuarantineTransactionError "published source fence differs")
         end
     end).

Definition _read_source_fence (source_directory : ident) (transaction_id intent_digest : string)
    (snapshot : QuarantinedJournal) (required : bool) : M World (option DurableRecord) :=
  record ← _read_record_from_directory source_directory
    (_quarantine_fence_name (journal snapshot)) required;
  raise_if (match record with
            | Some r =>
                negb (same_keys _FENCE_FIELDS (r_value r))
                || negb (py_eqb (JObj (r_value r))
                     (_fence_value transaction_id intent_digest snapshot))
            | None => false
            end) (QuarantineTransactionError "source journal fence is inconsistent");;
  mret record.

Definition _remove_source_fence (source_directory : ident) (transaction_id intent_digest : string)
    (snapshot : QuarantinedJournal) : M World unit :=
  record ← _read_source_fence source_directory transaction_id intent_digest snapshot false;
  match record with
  | None => mret tt
  | Some r =>
      os_error_as (QuarantineTransactionError "cannot remove restored source journal fence")
        (sys_unlink source_directory (r_name r);; sys_fsync)
  end.

Definition remove_quarantine_source_fence (source_root : string) (source_identity : ident)
    (transaction_id intent_digest : string) (snapshot : QuarantinedJournal) : M World unit :=
  '(_, directory) ← _open_journal_root source_root (Some source_identity);
  _remove_source_fence directory transaction_id intent_digest snapshot.

(** ** The records of a transaction *)

Definition intent_value (expected_identity : ident) (transaction_id : string) (binding : json)
    (source_identity : ident) (snapshot : QuarantinedJournal) : json :=
  JObj [("schema", JStr INTENT_SCHEMA);
        ("transaction_id", JStr transaction_id);
        ("binding", binding);
        ("source_directory", _directory_value source_identity);
        ("quarantine_directory", _directory_value expected_identity);
        ("journal", JStr (journal snapshot));
        ("journal_device", JInt (device snapshot));
        ("journal_inode", JInt (inode snapshot));
        ("journal_bytes", JInt (Z.of_nat (String.length (raw snapshot))));
        ("journal_base64", JStr (b64encode (raw snapshot)));
        ("journal_sha256", JStr (_digest (raw snapshot)))].

Definition prepare_quarantine_transaction (root : string) (expected_identity : ident)
    (transaction_id : string) (binding : json) (source_identity : ident)
    (snapshot : QuarantinedJournal) : M World DurableRecord :=
  _write_record root expected_identity transaction_id "intent"
    (intent_value expected_identity transaction_id binding source_identity snapshot).

Definition applied_value (transaction_id intent_digest : string)
    (quarantined : QuarantinedJournal) : json :=
  JObj [("schema", JStr APPLIED_SCHEMA);
        ("transaction_id", JStr transaction_id);
        ("intent_digest", JStr intent_digest);
        ("journal", JStr (journal quarantined));
        ("journal_device", JInt (device quarantined));
        ("journal_inode", JInt (inode quarantined));
        ("journal_bytes", JInt (Z.of_nat (String.length (raw quarantined))));
        ("journal_sha256", JStr (_digest (raw quarantined)))].

Definition mark_quarantine_applied (root : string) (expected_identity : ident)
    (transaction_id intent_digest : string) (quarantined : QuarantinedJournal)
    : M World DurableRecord :=
  _write_record root expected_identity transaction_id "applied"
    (applied_value transaction_id intent_digest quarantined).

(** The restored and blocked records. *)
Definition terminal_value (schema transaction_id intent_digest : string)
    (applied_digest finalized_digest : option string) (reason : string) : json :=
  JObj [("schema", JStr schema);
        ("transaction_id", JStr transaction_id);
        ("intent_digest", JStr intent_digest);
        ("applied_digest", to_json applied_digest);
        ("finalized_digest", to_json finalized_digest);
        ("reason", JStr reason)].

Definition mark_quarantine_restored (root : string) (expected_identity : ident)
    (transaction_id intent_digest : string) (applied_digest : option string) (reason : string)
    : M World DurableRecord :=
  _write_record root expected_identity transaction_id "restored"
    (terminal_value RESTORED_SCHEMA transaction_id intent_digest applied_digest None reason).

Definition _mark_blocked (root : string) (expected_identity : ident)
    (transaction_id intent_digest : string) (applied_digest finalized_digest : option string)
    (reason : string) : M World unit :=
  _write_record root expected_identity transaction_id "blocked"
    (terminal_value BLOCKED_SCHEMA transaction_id intent_digest applied_digest finalized_digest
       reason);;
  mret tt.

Definition finalized_value (transaction_id intent_digest applied_digest : string)
    (fact_receipt_sha256 source_process_identity : json) : json :=
  JObj [("schema", JStr FINALIZED_SCHEMA);
        ("transaction_id", JStr transaction_id);
        ("intent_digest", JStr intent_digest);
        ("applied_digest", JStr applied_digest);
        ("fact_receipt_sha256", fact_receipt_sha256);
        ("source_process_identity", source_process_identity)].

(** ** Validation of what was read *)

Definition positive_int (value : json) : bool :=
  match value with JInt z => (0 <? z)%Z | _ => false end.

Definition _valid_process_identity (value : json) : bool :=
  match value with
  | JObj kvs =>
      same_keys ["pid"; "start_ticks"; "argv"; "executable_device"; "executable_inode"] kvs
      && forallb (λ field, positive_int (get field kvs))
           ["pid"; "start_ticks"; "executable_device"; "executable_inode"]
      && match get "argv" kvs with
         | JArr (x :: l) =>
             forallb (λ item, match item with
                              | JStr s => negb (s =? EmptyString)
                              | _ => false
                              end) (x :: l)
         | _ => false
         end
  | _ => false
  end.

(** [value["journal_base64"]] decoded, and the other three items of the snapshot. *)
Definition snapshot_items (value : list (string * json))
    : option (string * (json * (json * json))) :=
  j64 ← assoc "journal_base64" value;
  raw ← match j64 with JStr s => b64decode s | _ => None end;
  name ← assoc "journal" value;
  device ← assoc "journal_device" value;
  inode ← assoc "journal_inode" value;
  Some (raw, (name, (device, inode))).

Definition has_fields (fields : list string) (value : json) : bool :=
  match value with JObj kvs => same_keys fields kvs | _ => false end.

Definition _intent_snapshot (intent : DurableRecord) (transaction_id : string)
    : result QuarantinedJournal :=
  let value := r_value intent in
  let inconsistent := QuarantineTransactionError "quarantine intent snapshot is inconsistent" in
  match snapshot_items value with
  | None => invalid_record "quarantine intent snapshot is malformed"
  | Some (raw, (name, (device, inode))) =>
      let binding_id := quarantine_transaction_id (default (JObj []) (assoc "binding" value)) in
      check (same_keys _INTENT_FIELDS value
             && py_eqb (get "schema" value) (JStr INTENT_SCHEMA)
             && py_eqb (get "transaction_id" value) (JStr transaction_id)) inconsistent;;
      record_name ← _record_name transaction_id "intent";
      match name, device, inode with
      | JStr name, JInt device, JInt inode =>
          check ((r_name intent =? record_name)
                 && (binding_id =? transaction_id)
                 && endswith ".jsonl" name && is_file_name name
                 && (0 <? device)%Z && (0 <? inode)%Z
                 && py_eqb (get "journal_bytes" value) (JInt (Z.of_nat (String.length raw)))
                 && py_eqb (get "journal_sha256" value) (JStr (_digest raw))
                 && has_fields ["device"; "inode"] (get "source_directory" value)
                 && has_fields ["device"; "inode"] (get "quarantine_directory" value))
            inconsistent;;
          Ok (mkJournal name raw device inode)
      | _, _, _ => Err inconsistent
      end
  end.

Definition _validate_applied (applied : DurableRecord) (transaction_id : string)
    (intent : DurableRecord) (snapshot : QuarantinedJournal) : result unit :=
  let value := r_value applied in
  let inconsistent := QuarantineTransactionError "quarantine applied record is inconsistent" in
  check (same_keys _APPLIED_FIELDS value) inconsistent;;
  record_name ← _record_name transaction_id "applied";
  check ((r_name applied =? record_name)
         && py_eqb (get "schema" value) (JStr APPLIED_SCHEMA)
         && py_eqb (get "transaction_id" value) (JStr transaction_id)
         && py_eqb (get "intent_digest" value) (JStr (r_digest intent))
         && py_eqb (get "journal" value) (JStr (journal snapshot))
         && py_eqb (get "journal_device" value) (JInt (device snapshot))
         && py_eqb (get "journal_inode" value) (JInt (inode snapshot))
         && py_eqb (get "journal_bytes" value) (JInt (Z.of_nat (String.length (raw snapshot))))
         && py_eqb (get "journal_sha256" value) (JStr (_digest (raw snapshot)))) inconsistent.

Definition _validate_terminal (record : DurableRecord) (transaction_id schema stage : string)
    (intent_digest : string) (applied_digest finalized_digest : option string) : result unit :=
  let value := r_value record in
  let wrong := QuarantineTransactionError
    (stage +:+ " quarantine transaction chain is invalid") in
  check (same_keys _TERMINAL_FIELDS value) wrong;;
  record_name ← _record_name transaction_id stage;
  check ((r_name record =? record_name)
         && py_eqb (get "schema" value) (JStr schema)
         && py_eqb (get "transaction_id" value) (JStr transaction_id)
         && py_eqb (get "intent_digest" value) (JStr intent_digest)
         && py_eqb (get "applied_digest" value) (to_json applied_digest)
         && py_eqb (get "finalized_digest" value) (to_json finalized_digest)) wrong;;
  known ← in_set (get "reason" value)
    (if schema =? RESTORED_SCHEMA then _RESTORE_REASONS else _BLOCK_REASONS);
  check known wrong;;
  check (negb (schema =? BLOCKED_SCHEMA)
         || Bool.eqb (py_eqb (get "reason" value) (JStr "source-replacement-after-finalize"))
              (match finalized_digest with Some _ => true | None => false end)) wrong.

Definition _validate_finalized (record : DurableRecord)
    (transaction_id intent_digest applied_digest : string) : result unit :=
  let value := r_value record in
  let wrong := QuarantineTransactionError "finalized quarantine transaction chain is invalid" in
  check (same_keys _FINALIZED_FIELDS value) wrong;;
  record_name ← _record_name transaction_id "finalized";
  check ((r_name record =? record_name)
         && py_eqb (get "schema" value) (JStr FINALIZED_SCHEMA)
         && py_eqb (get "transaction_id" value) (JStr transaction_id)
         && py_eqb (get "intent_digest" value) (JStr intent_digest)
         && py_eqb (get "applied_digest" value) (JStr applied_digest)
         && _is_digest (get "fact_receipt_sha256" value)
         && _valid_process_identity (get "source_process_identity" value)) wrong.

Definition _exists (directory : ident) (name : string) : M World bool :=
  catch (sys_stat directory name;; mret true)
    (λ e, if is_enoent e then mret false
          else if is_oserror e then
            transaction_error ("cannot inspect quarantine transaction artifact: " +:+ name)
          else raise e).

Definition _is_same_append_only_journal (current snapshot : QuarantinedJournal) : bool :=
  (journal current =? journal snapshot) && (device current =? device snapshot)%Z
  && (inode current =? inode snapshot)%Z && String.prefix (raw snapshot) (raw current).
End Transactions.
