(* ===== verification/QuarantineRecovery.v ===== *)
(** * QuarantineRecovery: finalizing and reconciling quarantine transactions

    [finalize_quarantine_transaction] accepts an applied transaction,
    [reconcile_quarantine_transactions] settles every transaction of the directory: it removes
    unpublished temporaries, refuses unknown and orphan records, and runs [reconcile_one] on each
    intent, in name order. *)

From S2P Require Import Prelude Effects Json JsonText Base64 Sha256 JournalFs HostEventSink Quarantine.

Local Open Scope string_scope.

Section Recovery.
Context `{Sha256} `{Entropy}.

Definition is_some {A} (o : option A) : bool := match o with Some _ => true | None => false end.

(** ** Finalization *)

Definition cannot_finalize : exn :=
  QuarantineTransactionError "quarantine transaction cannot be finalized from this state".

Definition _finalize_quarantine_transaction_locked (root : string) (expected_identity : ident)
    (transaction_id source_root : string) (source_identity : ident) (applied_digest : string)
    (fact_receipt_sha256 source_process_identity : json) : M World DurableRecord :=
  intent ← read_quarantine_record root expected_identity transaction_id "intent" true;
  applied ← read_quarantine_record root expected_identity transaction_id "applied" true;
  intent ← assert_some intent;
  applied ← assert_some applied;
  snapshot ← lift_result (_intent_snapshot intent transaction_id);
  lift_result (_validate_applied applied transaction_id intent snapshot);;
  raise_if (negb (py_eqb (get "source_directory" (r_value intent))
                    (_directory_value source_identity))
      || negb (py_eqb (get "quarantine_directory" (r_value intent))
                 (_directory_value expected_identity))
      || negb (r_digest applied =? applied_digest)
      || negb (_is_digest fact_receipt_sha256)
      || negb (_valid_process_identity source_process_identity)) cannot_finalize;;
  restored ← read_quarantine_record root expected_identity transaction_id "restored" false;
  raise_if (is_some restored) cannot_finalize;;
  blocked ← read_quarantine_record root expected_identity transaction_id "blocked" false;
  raise_if (is_some blocked) cannot_finalize;;
  retained ← except is_sink_error
    (snapshot_journal root (journal snapshot) expected_identity
       (Z.max (Z.of_nat (String.length (raw snapshot))) 1))
    (λ _, transaction_error "quarantine artifact is unavailable during finalization");
  raise_if (negb (bool_decide (retained = snapshot)))
    (QuarantineTransactionError "quarantine artifact differs from the durable intent");;
  '(_, source_directory) ← _open_journal_root source_root (Some source_identity);
  _read_source_fence source_directory transaction_id (r_digest intent) snapshot true;;
  replaced ← _exists source_directory (journal snapshot);
  when replaced
    (_mark_blocked root expected_identity transaction_id (r_digest intent)
       (Some (r_digest applied)) None "source-replacement-collision";;
     transaction_error "source journal reappeared before transaction finalization");;
  _write_record root expected_identity transaction_id "finalized"
    (finalized_value transaction_id (r_digest intent) (r_digest applied) fact_receipt_sha256
       source_process_identity).

Definition finalize_quarantine_transaction (root : string) (expected_identity : ident)
    (transaction_id source_root : string) (source_identity : ident) (applied_digest : string)
    (fact_receipt_sha256 source_process_identity : json)
    (lease : option QuarantineTransactionLease) : M World DurableRecord :=
  with_lease lease source_root source_identity
    (_finalize_quarantine_transaction_locked root expected_identity transaction_id source_root
       source_identity applied_digest fact_receipt_sha256 source_process_identity).

(** ** Reconciliation *)

(** What the settled transactions of a reconciliation are: [restored.append] or
    [finalized.append]. *)
Variant settled := SettledRestored | SettledFinalized.

Section Reconcile.
Context (source_root quarantine_root : string).
Context (source_id quarantine_id : ident).
Context (max_bytes : Z).

(** Unlinking the unpublished temporaries of a directory; [malformed], [inspect], [unsafe_] and
    [remove] are the messages. *)
Definition remove_temporary (directory : ident) (pattern : string → bool)
    (malformed inspect unsafe_ remove : string) (name : string) : M World unit :=
  raise_if (negb (pattern name)) (QuarantineTransactionError malformed);;
  metadata ← os_error_as (QuarantineTransactionError inspect) (sys_stat directory name);
  euid ← gets w_euid;
  raise_if (unsafe metadata euid) (QuarantineTransactionError unsafe_);;
  os_error_as (QuarantineTransactionError remove) (sys_unlink directory name).

Definition clean_source (source_directory : ident) : M World unit :=
  names ← sys_listdir source_directory;
  let source_temporary_names := List.filter (String.prefix FENCE_TEMP_PREFIX) names in
  for_each source_temporary_names
    (remove_temporary source_directory _FENCE_TEMP_PATTERN
       "source fence temporary name is malformed" "cannot inspect incomplete source fence"
       "incomplete source fence is unsafe" "cannot remove incomplete source fence");;
  when (negb (bool_decide (source_temporary_names = []))) sys_fsync.

(** The names left in the quarantine directory, sorted. *)
Definition clean_quarantine (quarantine_directory : ident) : M World (list string) :=
  names ← sys_listdir quarantine_directory;
  let directory_names := sort_by id str_leb names in
  let temporary_names := List.filter (String.prefix TRANSACTION_TEMP_PREFIX) directory_names in
  for_each temporary_names
    (remove_temporary quarantine_directory _TRANSACTION_TEMP_PATTERN
       "transaction temporary name is malformed"
       "cannot inspect incomplete transaction record"
       "incomplete transaction record is unsafe"
       "cannot remove incomplete transaction record");;
  when (negb (bool_decide (temporary_names = []))) sys_fsync;;
  mret (List.filter (λ name, negb (bool_decide (name ∈ temporary_names))) directory_names).

(** [name.split(".", 1)[0]]. *)
Definition before_dot (s : string) : string := (span (λ c, negb (Ascii.eqb c ".")) s).1.

(** [name.removeprefix(p)] and [name.removesuffix(s)]. *)
Definition removeprefix (p s : string) : string := default s (strip_prefix p s).
Definition removesuffix (p s : string) : string :=
  if endswith p s then str_take (String.length s - String.length p) s else s.

Definition is_transaction_name (name : string) : bool :=
  String.prefix "ecpa-" name && endswith ".json" name.

(** The intent names of a directory without unknown or orphan records. *)
Definition intent_names (directory_names : list string) : result (list string) :=
  let transaction_names := List.filter is_transaction_name directory_names in
  check (forallb (λ name, existsb (λ stage, endswith ("." +:+ stage +:+ ".json") name) stages)
           transaction_names)
    (QuarantineTransactionError "quarantine transaction directory has an unknown record");;
  let intents := List.filter (endswith ".intent.json") transaction_names in
  map_result (λ name,
    intent ← _record_name (before_dot (removeprefix "ecpa-" name)) "intent";
    check (bool_decide (intent ∈ intents))
      (QuarantineTransactionError "quarantine transaction directory has an orphan record"))
    transaction_names;;
  Ok intents.

Definition intent_transaction_id (name : string) : string :=
  removesuffix ".intent.json" (removeprefix "ecpa-" name).

Definition applied_digest_of (applied : option DurableRecord) : option string :=
  r_digest <$> applied.

(** A record that is there settles the transaction or stops the reconciliation. *)
Definition settle_blocked (transaction_id : string) (intent : DurableRecord)
    (applied finalized_record : option DurableRecord) (blocked_record : DurableRecord)
    : M World settled :=
  finalized_digest ← (match finalized_record with
    | Some f =>
        match applied with
        | None => transaction_error "blocked finalized transaction has no applied record"
        | Some a =>
            lift_result (_validate_finalized f transaction_id (r_digest intent) (r_digest a));;
            mret (Some (r_digest f))
        end
    | None => mret None
    end : M World (option string));
  lift_result (_validate_terminal blocked_record transaction_id BLOCKED_SCHEMA "blocked"
    (r_digest intent) (applied_digest_of applied) finalized_digest);;
  transaction_error ("quarantine transaction requires operator resolution: "
                     +:+ transaction_id).

Definition settle_finalized (source_directory : ident) (transaction_id : string)
    (intent : DurableRecord) (snapshot : QuarantinedJournal) (applied : option DurableRecord)
    (finalized_record : DurableRecord) : M World settled :=
  match applied with
  | None => transaction_error "finalized quarantine transaction chain is invalid"
  | Some applied =>
      lift_result (_validate_finalized finalized_record transaction_id (r_digest intent)
        (r_digest applied));;
      retained ← except is_sink_error
        (snapshot_journal quarantine_root (journal snapshot) quarantine_id max_bytes)
        (λ _, transaction_error "finalized quarantine artifact is missing or unsafe");
      raise_if (negb (bool_decide (retained = snapshot)))
        (QuarantineTransactionError "finalized quarantine artifact differs from intent");;
      _read_source_fence source_directory transaction_id (r_digest intent) snapshot true;;
      replaced ← _exists source_directory (journal snapshot);
      when replaced
        (_mark_blocked quarantine_root quarantine_id transaction_id (r_digest intent)
           (Some (r_digest applied)) (Some (r_digest finalized_record))
           "source-replacement-after-finalize";;
         transaction_error "finalized quarantine has a replacement source journal");;
      mret SettledFinalized
  end.

Definition settle_restored (source_directory quarantine_directory : ident)
    (transaction_id : string) (intent : DurableRecord) (snapshot : QuarantinedJournal)
    (applied : option DurableRecord) (restored_record : DurableRecord) : M World settled :=
  lift_result (_validate_terminal restored_record transaction_id RESTORED_SCHEMA "restored"
    (r_digest intent) (applied_digest_of applied) None);;
  fence ← _read_source_fence source_directory transaction_id (r_digest intent) snapshot false;
  raise_if (is_some fence)
    (QuarantineTransactionError "restored transaction still has a source journal fence");;
  withheld ← _exists quarantine_directory (journal snapshot);
  raise_if withheld
    (QuarantineTransactionError
       "restored quarantine transaction still has quarantined bytes");;
  restored_snapshot ← except is_sink_error
    (snapshot_journal source_root (journal snapshot) source_id max_bytes)
    (λ _, transaction_error "restored quarantine source is missing or unsafe");
  raise_if (negb (_is_same_append_only_journal restored_snapshot snapshot))
    (QuarantineTransactionError
       "restored quarantine source is not an append-only continuation");;
  mret SettledRestored.

(** Recording that an operator is needed, and failing. *)
Definition block {A} (transaction_id : string) (intent : DurableRecord)
    (applied : option DurableRecord) (reason message : string) : M World A :=
  _mark_blocked quarantine_root quarantine_id transaction_id (r_digest intent)
    (applied_digest_of applied) None reason;;
  transaction_error message.

(** No terminal record: the journal is brought back, or found in place, and the reason given. *)
Definition bring_back (source_directory quarantine_directory : ident) (transaction_id : string)
    (intent : DurableRecord) (snapshot : QuarantinedJournal) (applied : option DurableRecord)
    : M World string :=
  source_exists ← _exists source_directory (journal snapshot);
  quarantine_exists ← _exists quarantine_directory (journal snapshot);
  if source_exists && quarantine_exists then
    block transaction_id intent applied "source-replacement-collision"
      "quarantine recovery refuses to overwrite replacement evidence"
  else if (quarantine_exists : bool) then
    _read_source_fence source_directory transaction_id (r_digest intent) snapshot true;;
    except is_sink_error
      (restore_quarantined_journal source_root quarantine_root snapshot source_id quarantine_id
         max_bytes)
      (λ _, block transaction_id intent applied "restore-verification-failed"
         "quarantine crash recovery failed closed");;
    mret (if is_some applied then "restored-after-applied" else "restored-after-move")
  else if (source_exists : bool) then
    current ← snapshot_journal source_root (journal snapshot) source_id max_bytes;
    when (negb (_is_same_append_only_journal current snapshot))
      (block transaction_id intent applied "source-changed-before-recovery"
         "quarantine intent source changed before recovery");;
    mret "no-move-observed"
  else
    block transaction_id intent applied "journal-missing-from-both-roots"
      "quarantine journal is missing from both roots".

Definition settle_open (source_directory quarantine_directory : ident) (transaction_id : string)
    (intent : DurableRecord) (snapshot : QuarantinedJournal) (applied : option DurableRecord)
    : M World settled :=
  reason ← bring_back source_directory quarantine_directory transaction_id intent snapshot
    applied;
  _remove_source_fence source_directory transaction_id (r_digest intent) snapshot;;
  mark_quarantine_restored quarantine_root quarantine_id transaction_id (r_digest intent)
    (applied_digest_of applied) reason;;
  mret SettledRestored.

(** [_read_record_from_directory(directory, _record_name(transaction_id, stage), required=False)]. *)
Definition read_stage (quarantine_directory : ident) (transaction_id stage : string)
    : M World (option DurableRecord) :=
  name ← lift_result (_record_name transaction_id stage);
  _read_record_from_directory quarantine_directory name false.

Definition reconcile_one (source_directory quarantine_directory : ident) (name : string)
    : M World settled :=
  let transaction_id := intent_transaction_id name in
  intent ← _read_record_from_directory quarantine_directory name true;
  intent ← assert_some intent;
  snapshot ← lift_result (_intent_snapshot intent transaction_id);
  raise_if (negb (py_eqb (get "source_directory" (r_value intent)) (_directory_value source_id))
      || negb (py_eqb (get "quarantine_directory" (r_value intent))
                 (_directory_value quarantine_id)))
    (QuarantineTransactionError "quarantine transaction directory identity differs");;
  applied ← read_stage quarantine_directory transaction_id "applied";
  match applied with
  | Some a => lift_result (_validate_applied a transaction_id intent snapshot)
  | None => mret tt
  end;;
  finalized_record ← read_stage quarantine_directory transaction_id "finalized";
  restored_record ← read_stage quarantine_directory transaction_id "restored";
  blocked_record ← read_stage quarantine_directory transaction_id "blocked";
  raise_if (is_some restored_record && (is_some finalized_record || is_some blocked_record))
    (QuarantineTransactionError "quarantine transaction has conflicting terminal records");;
  match blocked_record, finalized_record, restored_record with
  | Some b, _, _ => settle_blocked transaction_id intent applied finalized_record b
  | None, Some f, _ =>
      settle_finalized source_directory transaction_id intent snapshot applied f
  | None, None, Some r =>
      settle_restored source_directory quarantine_directory transaction_id intent snapshot
        applied r
  | None, None, None =>
      settle_open source_directory quarantine_directory transaction_id intent snapshot applied
  end.

(** The loop over the intents. *)
Fixpoint reconcile_all (source_directory quarantine_directory : ident) (names : list string)
    (restored finalized : list string) : M World ReconciliationResult :=
  match names with
  | [] => mret (mkReconciliation restored finalized)
  | name :: names' =>
      outcome ← reconcile_one source_directory quarantine_directory name;
      match outcome with
      | SettledRestored =>
          reconcile_all source_directory quarantine_directory names'
            (restored ++ [intent_transaction_id name])%list finalized
      | SettledFinalized =>
          reconcile_all source_directory quarantine_directory names' restored
            (finalized ++ [intent_transaction_id name])%list
      end
  end.

Definition _reconcile_quarantine_transactions_locked : M World ReconciliationResult :=
  '(_, source_directory) ← _open_journal_root source_root (Some source_id);
  '(_, quarantine_directory) ← _open_journal_root quarantine_root (Some quarantine_id);
  sys_fstat_dir source_directory;;
  sys_fstat_dir quarantine_directory;;
  raise_if (negb (source_directory.1 =? quarantine_directory.1)%Z
      || bool_decide (source_id = quarantine_id))
    (QuarantineTransactionError
       "quarantine recovery requires distinct roots on one filesystem");;
  clean_source source_directory;;
  directory_names ← clean_quarantine quarantine_directory;
  names ← lift_result (intent_names directory_names);
  reconcile_all source_directory quarantine_directory names [] [].

Definition reconcile_quarantine_transactions (lease : option QuarantineTransactionLease)
    : M World ReconciliationResult :=
  with_lease lease source_root source_id _reconcile_quarantine_transactions_locked.
End Reconcile.
End Recovery.
