(* ===== verification/JournalProofs.v ===== *)
(** * JournalProofs: reasoning about file-system code under faults

    [runs fs m Q R]: from a world whose file system is [fs], code [m] ends in a file system
    satisfying [Q] with its result, or raises with [R], whatever the script of the given [mode]
    does: [Healthy] scripts let every system call succeed, if only after short writes, [Calm]
    ones may kill the process at any call, [Wild] ones may also make calls fail.  [reads fs m r] says that [m] changes
    nothing and computes [r] unless a fault stops it.  The specifications of the journal
    operations of HostEventSink.v follow. *)

From S2P Require Import Prelude Effects Json Sha256 JsonText JournalFs HostEventSink.

Local Open Scope string_scope.

Variant mode := Healthy | Calm | Wild.

Definition mode_ok (md : mode) (w : World) : Prop :=
  match md with
  | Healthy => Forall (λ o, o ≠ Fail ∧ o ≠ Short 0 ∧ o ≠ Kill) (w_script w)
  | Calm => Forall (λ o, o ≠ Fail ∧ o ≠ Short 0) (w_script w)
  | Wild => True
  end.

(** The exceptions a fault can surface as. *)
Definition fault (md : mode) (e : exn) : Prop :=
  match md with Healthy => False | Calm => e = Killed | Wild => True end.

(** The exceptions a faulty system call raises. *)
Definition sysfault (md : mode) (e : exn) : Prop :=
  e = Killed ∧ md ≠ Healthy ∨ e = OSError "system call failed" ∧ md = Wild.

Lemma sysfault_fault md e : sysfault md e → fault md e.
Proof. intros [[-> H]|[-> ->]]; [by destruct md|done]. Qed.

#[export] Hint Resolve sysfault_fault : py_db.

Section Runs.
Context (md : mode) (eu : Z).

Definition at_fs (fs : fsys) (w : World) : Prop :=
  w_fs w = fs ∧ w_euid w = eu ∧ (0 < w_pid w)%Z ∧ mode_ok md w.

Definition runs {A} (fs : fsys) (m : M World A) (Q : A → fsys → Prop) (R : exn → fsys → Prop)
    : Prop :=
  ∀ w, at_fs fs w →
    wp m (λ a w', ∃ fs', at_fs fs' w' ∧ Q a fs') (λ e w', ∃ fs', at_fs fs' w' ∧ R e fs') w.

Lemma runs_mono {A} fs (m : M World A) (Q Q' : A → fsys → Prop) (R R' : exn → fsys → Prop) :
  runs fs m Q R → (∀ a fs', Q a fs' → Q' a fs') → (∀ e fs', R e fs' → R' e fs') →
  runs fs m Q' R'.
Proof.
  intros H HQ HR w Hw. eapply wp_mono; [by apply H|..].
  - intros a w' (fs' & ? & ?). eauto.
  - intros e w' (fs' & ? & ?). eauto.
Qed.

Lemma runs_ret {A} fs (a : A) (Q : A → fsys → Prop) R : Q a fs → runs fs (mret a) Q R.
Proof. intros HQ w Hw. apply wp_ret. eauto. Qed.

Lemma runs_raise {A} fs e (Q : A → fsys → Prop) R : R e fs → runs fs (raise e) Q R.
Proof. intros HR w Hw. apply wp_raise. eauto. Qed.

Lemma runs_bind {A B} fs (m : M World A) (f : A → M World B) Q R :
  runs fs m (λ a fs', runs fs' (f a) Q R) R → runs fs (m ≫= f) Q R.
Proof.
  intros H w Hw. apply wp_bind. eapply wp_mono; [by apply H|..]; [|done].
  intros a w' (fs' & Hw' & Ha). by apply Ha.
Qed.

Lemma runs_catch {A} fs (m : M World A) h Q R :
  runs fs m Q (λ e fs', runs fs' (h e) Q R) → runs fs (catch m h) Q R.
Proof.
  intros H w Hw. apply wp_catch. eapply wp_mono; [by apply H|..]; [done|].
  intros e w' (fs' & Hw' & He). by apply He.
Qed.

Lemma runs_try_else {A B} fs (m : M World A) (h : exn → M World B) k Q R :
  runs fs m (λ a fs', runs fs' (k a) Q R) (λ e fs', runs fs' (h e) Q R) →
  runs fs (try_else m h k) Q R.
Proof.
  intros H w Hw. apply wp_try_else. eapply wp_mono; [by apply H|..].
  - intros a w' (fs' & Hw' & Ha). by apply Ha.
  - intros e w' (fs' & Hw' & He). by apply He.
Qed.

Lemma runs_except {A} fs (p : exn → bool) (m : M World A) h Q R :
  runs fs m Q (λ e fs', if p e then runs fs' (h e) Q R else R e fs') →
  runs fs (except p m h) Q R.
Proof.
  intros H. apply runs_catch. eapply runs_mono; [done..|]. intros e fs'. simpl.
  destruct (p e); [done|]. apply runs_raise.
Qed.

Lemma runs_os_error_as {A} fs e0 (m : M World A) Q R :
  runs fs m Q (λ e fs', R (if is_oserror e then e0 else e) fs') →
  runs fs (os_error_as e0 m) Q R.
Proof.
  intros H. apply runs_except. eapply runs_mono; [done..|]. intros e fs'. simpl.
  destruct (is_oserror e); [apply runs_raise|done].
Qed.

Lemma runs_raise_if fs b e (Q : unit → fsys → Prop) R :
  (b = true → R e fs) → (b = false → Q tt fs) → runs fs (raise_if b e) Q R.
Proof. intros H1 H2. destruct b; [apply runs_raise|apply runs_ret]; auto. Qed.

Lemma runs_when fs b m (Q : unit → fsys → Prop) R :
  (b = true → runs fs m Q R) → (b = false → Q tt fs) → runs fs (when b m) Q R.
Proof. intros H1 H2. destruct b; [|apply runs_ret]; auto. Qed.

Lemma runs_lift_result {A} fs (r : result A) (Q : A → fsys → Prop) R :
  (∀ a, r = Ok a → Q a fs) → (∀ e, r = Err e → R e fs) → runs fs (lift_result r) Q R.
Proof. intros H1 H2 w Hw. destruct r; unfold wp, lift_result; eauto. Qed.

Lemma runs_gets_fs {A} fs (f : fsys → A) (Q : A → fsys → Prop) R :
  Q (f fs) fs → runs fs (gets (λ w, f (w_fs w))) Q R.
Proof. intros HQ w Hw. apply wp_gets. destruct Hw as (<- & Hw). eexists. by split. Qed.

Lemma runs_euid fs (Q : Z → fsys → Prop) R : Q eu fs → runs fs (gets w_euid) Q R.
Proof. intros HQ w (Hf & <- & Hw). apply wp_gets. eexists. by split. Qed.

Lemma runs_pid fs (Q : Z → fsys → Prop) R :
  (∀ pid, (0 < pid)%Z → Q pid fs) → runs fs (gets w_pid) Q R.
Proof. intros HQ w Hw. apply wp_gets. exists fs. split; [done|]. apply HQ, Hw. Qed.

Lemma runs_set_fs fs fs' (Q : unit → fsys → Prop) R :
  Q tt fs' → runs fs (modify (λ w, set_fs fs' w)) Q R.
Proof. intros HQ w (H1 & H2 & H3 & H4). apply wp_modify. exists fs'. by repeat split. Qed.

Lemma runs_syscall {A} fs (f : M World A) Q R :
  runs fs f Q R → (∀ e, sysfault md e → R e fs) → runs fs (syscall f) Q R.
Proof.
  intros Hf HR w Hw. pose proof Hw as (H1 & H2 & H3 & H4). unfold wp, syscall.
  destruct (w_script w) as [|o s] eqn:Es; [by apply Hf|].
  assert (mode_ok md (set_script s w)) as H4'.
  { unfold mode_ok in *. rewrite Es in H4.
    destruct md; [by apply Forall_cons in H4 as [_ ?]..|done]. }
  assert (at_fs fs (set_script s w)) as Hw' by by repeat split.
  destruct o; [by apply Hf| |by apply Hf|].
  - exists fs. split; [done|]. apply HR. right. split; [done|].
    unfold mode_ok in H4. rewrite Es in H4.
    destruct md; [by apply Forall_cons in H4 as [[K _] _]..|done].
  - exists fs. split; [done|]. apply HR. left. split; [done|]. intros ->.
    unfold mode_ok in H4. rewrite Es in H4. by apply Forall_cons in H4 as [(_ & _ & K) _].
Qed.

(** ** Code that only reads *)

Definition reads {A} (fs : fsys) (m : M World A) (r : result A) : Prop :=
  runs fs m (λ a fs', fs' = fs ∧ r = Ok a) (λ e fs', fs' = fs ∧ (r = Err e ∨ fault md e)).

Lemma reads_ret {A} fs (a : A) : reads fs (mret a) (Ok a).
Proof. by apply runs_ret. Qed.

Lemma reads_raise {A} fs e : reads fs (raise e : M World A) (Err e).
Proof. apply runs_raise. auto. Qed.

Lemma reads_lift {A} fs (r : result A) : reads fs (lift_result r) r.
Proof. apply runs_lift_result; auto. Qed.

Lemma reads_bind {A B} fs (m : M World A) (f : A → M World B) r q :
  reads fs m r → (∀ a, r = Ok a → reads fs (f a) q) → (∀ e, r = Err e → q = Err e) →
  reads fs (m ≫= f) q.
Proof.
  intros Hm Hf He. apply runs_bind. eapply runs_mono; [exact Hm|..].
  - intros a fs' [-> Ha]. by apply Hf.
  - intros e fs' [-> [H|H]]; split; auto.
Qed.

(** The common case: the first part succeeds. *)
Lemma reads_bind_ok {A B} fs (m : M World A) (f : A → M World B) a q :
  reads fs m (Ok a) → reads fs (f a) q → reads fs (m ≫= f) q.
Proof. intros Hm Hf. eapply reads_bind; [done|by intros ? [= <-]|done]. Qed.

Lemma reads_bind_err {A B} fs (m : M World A) (f : A → M World B) e :
  reads fs m (Err e) → reads fs (m ≫= f) (Err e).
Proof. intros Hm. eapply reads_bind; [done|done|]. by intros ? [= ->]. Qed.

Lemma reads_raise_if fs b e : reads fs (raise_if b e) (check (negb b) e).
Proof. apply runs_raise_if; intros ->; simpl; auto. Qed.

(** The part after a reader that succeeds: the reader's faults remain. *)
Lemma runs_reads {A B} fs (m : M World A) (f : A → M World B) a Q R :
  reads fs m (Ok a) → runs fs (f a) Q R → (∀ e, fault md e → R e fs) →
  runs fs (m ≫= f) Q R.
Proof.
  intros Hm Hf HR. apply runs_bind. eapply runs_mono; [exact Hm|..].
  - by intros b fs' [-> [= <-]].
  - intros e fs' [-> [[=]|H]]. auto.
Qed.

Lemma runs_reads_any {A B} fs (m : M World A) (f : A → M World B) r Q R :
  reads fs m r → (∀ a, r = Ok a → runs fs (f a) Q R) → (∀ e, r = Err e → R e fs) →
  (∀ e, fault md e → R e fs) → runs fs (m ≫= f) Q R.
Proof.
  intros Hm Hf HE HR. apply runs_bind. eapply runs_mono; [exact Hm|..].
  - intros b fs' [-> Hb]. by apply Hf.
  - intros e fs' [-> [H|H]]; auto.
Qed.

(** A system call that looks at the file system only. *)
Lemma reads_syscall {A B} fs (g : fsys → A) (k : A → M World B) r :
  reads fs (k (g fs)) r → reads fs (syscall (gets (λ w, g (w_fs w)) ≫= k)) r.
Proof.
  intros H. apply runs_syscall.
  - apply runs_bind, runs_gets_fs. done.
  - eauto with py_db.
Qed.

(** [os_error_as] around a reader. *)
Definition as_error {A} (e0 : exn) (r : result A) : result A :=
  match r with Err e => Err (if is_oserror e then e0 else e) | Ok a => Ok a end.

Lemma fault_as e0 e : fault md e → fault md (if is_oserror e then e0 else e).
Proof. unfold fault. destruct md; [done| |done]. by intros ->. Qed.

Lemma reads_os_error_as {A} fs e0 (m : M World A) r :
  reads fs m r → reads fs (os_error_as e0 m) (as_error e0 r).
Proof.
  intros H. apply runs_os_error_as. eapply runs_mono; [exact H|..].
  - by intros a fs' [-> ->].
  - intros e fs' [-> [->|He]]; split; auto using fault_as.
Qed.

Lemma reads_os_error_as_ok {A} fs e0 (m : M World A) a :
  reads fs m (Ok a) → reads fs (os_error_as e0 m) (Ok a).
Proof. intros H. exact (reads_os_error_as fs e0 m (Ok a) H). Qed.
End Runs.

(** The world after a run, its file system in the right mode. *)
Lemma runs_elim eu md fs {A} (m : M World A) Post R w :
  runs md eu fs m Post R → at_fs md eu fs w →
  match m w with
  | (Ok a, w') => at_fs md eu (w_fs w') w' ∧ Post a (w_fs w')
  | (Err e, w') => at_fs md eu (w_fs w') w' ∧ R e (w_fs w')
  end.
Proof.
  intros Hm Hw. specialize (Hm w Hw). unfold wp in Hm.
  destruct (m w) as [[a|e] w']; destruct Hm as (fs' & Ha & HQ); pose proof Ha as (<- & _); by split.
Qed.

#[global] Opaque runs.

(** ** System calls *)

Section Syscalls.
Context (md : mode) (eu : Z).

Abbreviation runs := (runs md eu).
Abbreviation reads := (reads md eu).

Definition stat_of (fs : fsys) (d : ident) (name : string) : result file :=
  match entry fs d name with Some f => Ok f | None => Err (enoent name) end.

Definition open_of (fs : fsys) (d : ident) (name : string) : result unit :=
  match entry fs d name with
  | Some f => check (negb (bool_decide (f_kind f = Symlink))) (OSError name)
  | None => Err (enoent name)
  end.

Lemma reads_stat fs d name : reads fs (sys_stat d name) (stat_of fs d name).
Proof.
  apply (reads_syscall md eu fs (λ fs, entry fs d name)). unfold stat_of.
  destruct (entry fs d name); [apply reads_ret|apply reads_raise].
Qed.

Lemma reads_open fs d name : reads fs (sys_open d name) (open_of fs d name).
Proof.
  apply (reads_syscall md eu fs (λ fs, entry fs d name)). unfold open_of.
  destruct (entry fs d name); [apply reads_raise_if|apply reads_raise].
Qed.

Lemma reads_fstat fs d name f :
  entry fs d name = Some f → reads fs (sys_fstat d name) (Ok f).
Proof.
  intros Hf. apply (reads_syscall md eu fs (λ fs, entry fs d name)). rewrite Hf. apply reads_ret.
Qed.

Lemma reads_read fs d name f n :
  entry fs d name = Some f →
  reads fs (sys_read d name n) (Ok (str_take (Z.to_nat n) (f_data f))).
Proof.
  intros Hf. apply (reads_syscall md eu fs (λ fs, entry fs d name)). rewrite Hf. apply reads_ret.
Qed.

Lemma reads_fstat_dir fs d dir :
  fs_dirs fs !! d = Some dir → reads fs (sys_fstat_dir d) (Ok dir).
Proof.
  intros Hf. apply (reads_syscall md eu fs (λ fs, fs_dirs fs !! d)). rewrite Hf. apply reads_ret.
Qed.

Lemma reads_fsync fs : reads fs sys_fsync (Ok tt).
Proof. apply runs_syscall; [by apply runs_ret|]. eauto with py_db. Qed.

Lemma runs_sync {A} fs (m : M World A) Q R :
  runs fs m Q R → (∀ e, fault md e → R e fs) → runs fs (sys_fsync;; m) Q R.
Proof. intros. by apply (runs_reads md eu fs sys_fsync (λ _, m) tt); [apply reads_fsync|..]. Qed.

(** Whether a name is taken, the way the code asks: [FileNotFoundError] means no. *)
Lemma reads_taken fs d name (h : exn → M World bool) :
  (∀ e, is_enoent e = true → h e = mret false) →
  (∀ e, is_enoent e = false → ∃ e', h e = raise e' ∧ (e = Killed → e' = Killed)) →
  reads fs (catch (sys_stat d name;; mret true) h)
    (Ok (match entry fs d name with Some _ => true | None => false end)).
Proof.
  intros Hno Hyes. apply runs_catch, runs_bind, runs_syscall.
  - apply runs_bind, (runs_gets_fs md eu fs (λ fs, entry fs d name)).
    destruct (entry fs d name) as [f|] eqn:E.
    + apply runs_ret. by apply runs_ret.
    + apply runs_raise. rewrite Hno by done. by apply runs_ret.
  - intros e [[-> Hm]|[-> Hm]].
    + destruct (Hyes Killed) as (e' & -> & He'); [done|]. apply runs_raise.
      rewrite He' by done. split; [done|]. right. by destruct md.
    + destruct (Hyes (OSError "system call failed")) as (e' & -> & _); [done|].
      apply runs_raise. split; [done|]. right. by rewrite Hm.
Qed.

(** Opening a name that may be missing. *)
Lemma reads_open_or fs d name (h : exn → M World bool) r :
  (∀ e, is_enoent e = false → ∃ e', h e = raise e' ∧ (e = Killed → e' = Killed)) →
  match entry fs d name with
  | None => reads fs (h (enoent name)) r
  | Some _ => r = Ok true
  end →
  (∀ f, entry fs d name = Some f → f_kind f ≠ Symlink) →
  reads fs (catch (sys_open d name;; mret true) h) r.
Proof.
  intros Hyes Hr Hk. apply runs_catch, runs_bind, runs_syscall.
  - apply runs_bind, (runs_gets_fs md eu fs (λ fs, entry fs d name)).
    destruct (entry fs d name) as [f|] eqn:E.
    + rewrite bool_decide_false by eauto. apply runs_ret. by apply runs_ret.
    + by apply runs_raise.
  - intros e [[-> Hm]|[-> Hm]].
    + destruct (Hyes Killed) as (e' & -> & He'); [done|]. apply runs_raise.
      rewrite He' by done. split; [done|]. right. by destruct md.
    + destruct (Hyes (OSError "system call failed")) as (e' & -> & _); [done|].
      apply runs_raise. split; [done|]. right. by rewrite Hm.
Qed.

(** The calls that change one entry. *)
Lemma runs_create fs d name mode (Q : unit → fsys → Prop) R :
  (entry fs d name = None →
   Q tt (set_next (fs_next fs + 1)
           (set_entry d name (Some (File (fs_next fs) Regular eu mode EmptyString)) fs))) →
  (∀ f, entry fs d name = Some f → R (eexist name) fs) →
  (∀ e, sysfault md e → R e fs) →
  runs fs (sys_create d name mode) Q R.
Proof.
  intros HQ HR He. apply runs_syscall; [|done].
  apply runs_bind, (runs_gets_fs md eu fs (λ fs, entry fs d name)).
  destruct (entry fs d name) as [f|] eqn:E; [apply runs_raise; eauto|].
  Transparent JournalProofs.runs. intros w (<- & <- & H3 & H4). apply wp_modify.
  eexists. split; [|by apply HQ]. by repeat split. Opaque JournalProofs.runs.
Qed.

Lemma runs_unlink fs d name (Q : unit → fsys → Prop) R :
  Q tt (set_entry d name None fs) → is_Some (entry fs d name) →
  (∀ e, sysfault md e → R e fs) →
  runs fs (sys_unlink d name) Q R.
Proof.
  intros HQ [f Hf] He. apply runs_syscall; [|done].
  apply runs_bind, (runs_gets_fs md eu fs (λ fs, entry fs d name)). rewrite Hf.
  Transparent JournalProofs.runs. intros w (<- & <- & H3 & H4). apply wp_modify.
  eexists. split; [|by apply HQ]. by repeat split. Opaque JournalProofs.runs.
Qed.

Lemma runs_rename fs sd s dd d (Q : unit → fsys → Prop) R :
  (∀ f, entry fs sd s = Some f → entry fs dd d = None → sd.1 = dd.1 →
     Q tt (set_entry dd d (Some f) (set_entry sd s None fs))) →
  (entry fs sd s = None → R (enoent d) fs) →
  (∀ f, entry fs sd s = Some f → is_Some (entry fs dd d) → R (eexist d) fs) →
  (sd.1 ≠ dd.1 → R (OSError d) fs) →
  (∀ e, sysfault md e → R e fs) →
  runs fs (_rename_noreplace sd s dd d) Q R.
Proof.
  intros HQ H1 H2 H3 He. apply runs_syscall; [|done].
  apply runs_bind, (runs_gets_fs md eu fs (λ fs, entry fs sd s)).
  apply runs_bind, (runs_gets_fs md eu fs (λ fs, entry fs dd d)).
  destruct (entry fs sd s) as [f|]; [|by apply runs_raise; auto].
  destruct (entry fs dd d) as [g|]; [apply runs_raise; eauto|].
  destruct (Z.eqb_spec sd.1 dd.1); [|by apply runs_raise; auto].
  Transparent JournalProofs.runs. intros w (<- & <- & H4 & H5). apply wp_modify.
  eexists. split; [|by apply HQ]. by repeat split. Opaque JournalProofs.runs.
Qed.
End Syscalls.

(** ** Strings as bytes *)

Lemma substring_0_all s n : (String.length s ≤ n)%nat → String.substring 0 n s = s.
Proof.
  revert n. induction s as [|c s IH]; intros [|n]; simpl; try done; try lia.
  intros H. rewrite IH; [done|lia].
Qed.

Lemma substring_0_length s n : String.length (String.substring 0 n s) = (n `min` String.length s)%nat.
Proof.
  revert n. induction s as [|c s IH]; intros [|n]; simpl; try done. by rewrite IH.
Qed.

Lemma substring_split s n :
  (n ≤ String.length s)%nat →
  String.substring 0 n s +:+ String.substring n (String.length s - n) s = s.
Proof.
  revert n. induction s as [|c s IH]; intros [|n] H; simpl in *; try done; try lia.
  - change (String c (String.substring 0 (String.length s) s) = String c s).
    by rewrite substring_0_all.
  - rewrite str_app_cons. by rewrite IH by lia.
Qed.

Lemma substring_length s n m :
  (n + m ≤ String.length s)%nat → String.length (String.substring n m s) = m.
Proof.
  revert n m. induction s as [|c s IH]; intros [|n] [|m] H; simpl in *; try done; try lia.
  - rewrite IH; lia.
  - apply IH. lia.
  - apply IH. lia.
Qed.

(** Reading one byte more than allowed tells whether everything was read. *)
Lemma read_limit s max_bytes :
  (0 ≤ max_bytes)%Z →
  (Z.of_nat (String.length (str_take (Z.to_nat (max_bytes + 1)) s)) ≤ max_bytes
   ↔ Z.of_nat (String.length s) ≤ max_bytes)%Z.
Proof. intros H. unfold str_take. rewrite substring_0_length. lia. Qed.

Lemma read_whole s max_bytes :
  (Z.of_nat (String.length s) ≤ max_bytes)%Z → str_take (Z.to_nat (max_bytes + 1)) s = s.
Proof. intros H. apply substring_0_all. lia. Qed.

(** ** Equivalent file systems *)

(** The same entries in the same directories; only the next inode number may differ. *)
Definition eqv (fs fs' : fsys) : Prop :=
  same_layout fs fs' ∧ ∀ d n, entry fs' d n = entry fs d n.

#[global] Instance eqv_equiv : Equivalence eqv.
Proof.
  split.
  - intros fs. by split.
  - intros fs fs' [[] H]. split; [|done]. split; congruence.
  - intros f1 f2 f3 [H1 H2] [H3 H4]. split; [by etrans|]. intros d n. by rewrite H4, H2.
Qed.

(** [name] moved from [sd] to [dd]. *)
Definition moved (sd dd : ident) (name : string) (f : file) (fs : fsys) : fsys :=
  set_entry dd name (Some f) (set_entry sd name None fs).

Lemma same_layout_moved sd dd name f fs : same_layout fs (moved sd dd name f fs).
Proof. etrans; apply same_layout_set. Qed.

(** A directory that is open: it exists, whatever it holds. *)
Definition has_dir (fs : fsys) (d : ident) : Prop := is_Some (fs_dirs fs !! d).

Lemma has_dir_layout fs fs' d : same_layout fs fs' → has_dir fs d → has_dir fs' d.
Proof. intros H. unfold has_dir. by rewrite (same_layout_dir fs fs'). Qed.

Lemma entry_moved sd dd name f fs d n :
  sd ≠ dd → has_dir fs sd → has_dir fs dd →
  entry (moved sd dd name f fs) d n =
    if bool_decide (d = dd ∧ n = name) then Some f
    else if bool_decide (d = sd ∧ n = name) then None else entry fs d n.
Proof.
  intros Hne Hs Hd. unfold moved. rewrite entry_set.
  - by rewrite entry_set.
  - eapply has_dir_layout; [apply same_layout_set|done].
Qed.

Lemma entry_moved_dst sd dd name f fs :
  sd ≠ dd → has_dir fs sd → has_dir fs dd → entry (moved sd dd name f fs) dd name = Some f.
Proof. intros. by rewrite entry_moved, bool_decide_true. Qed.

Lemma entry_moved_src sd dd name f fs :
  sd ≠ dd → has_dir fs sd → has_dir fs dd → entry (moved sd dd name f fs) sd name = None.
Proof.
  intros. rewrite entry_moved by done. rewrite bool_decide_false by naive_solver.
  by rewrite bool_decide_true.
Qed.

Lemma moved_back sd dd name f fs :
  sd ≠ dd → has_dir fs sd → has_dir fs dd → entry fs sd name = Some f →
  entry fs dd name = None → eqv fs (moved dd sd name f (moved sd dd name f fs)).
Proof.
  intros Hne Hs Hd Hf Hn. split; [etrans; apply same_layout_moved|]. intros d n.
  rewrite entry_moved; [|done|by eapply has_dir_layout; [apply same_layout_moved|]..].
  rewrite entry_moved by done. repeat case_bool_decide; naive_solver.
Qed.

(** ** Journal roots *)

(** [root] names the private directory [id]. *)
Record root_ok (eu : Z) (fs : fsys) (root : string) (id : ident) : Prop := {
  ro_absolute : is_absolute root = true;
  ro_real : fs_real fs !! root = Some root;
  ro_link : root ∉ fs_links fs;
  ro_path : fs_paths fs !! root = Some id;
  ro_dir : ∃ dir, fs_dirs fs !! id = Some dir ∧ d_uid dir = eu ∧ others_write (d_mode dir) = false;
}.

Lemma root_ok_layout eu fs fs' root id :
  same_layout fs fs' → root_ok eu fs root id → root_ok eu fs' root id.
Proof.
  intros [L1 L2 L3 L4] [H1 H2 H3 H4 (dir & Hd & Hu & Hm)].
  split; [done|by rewrite L2|by rewrite L1|by rewrite L3|].
  specialize (L4 id). rewrite Hd in L4. destruct (fs_dirs fs' !! id) as [dir'|]; [|done].
  exists dir'. simpl in L4. simplify_eq. split; [done|]. split; congruence.
Qed.

Lemma root_ok_has_dir eu fs root id : root_ok eu fs root id → has_dir fs id.
Proof. intros [_ _ _ _ (dir & Hd & _)]. by exists dir. Qed.

#[export] Hint Resolve root_ok_has_dir : py_db.

Section Roots.
Context (md : mode) (eu : Z).

(** The directory is opened, unless another one is expected. *)
Lemma reads_root_expected fs root id expected :
  root_ok eu fs root id →
  reads md eu fs (_open_journal_root root expected)
    (match expected with
     | Some id' =>
         if bool_decide (id = id') then Ok (root, id)
         else Err (HostEventSinkError "host event directory identity changed")
     | None => Ok (root, id)
     end).
Proof.
  intros [H1 H2 H3 H4 (dir & Hd & Hu & Hm)]. unfold _open_journal_root. rewrite H1.
  eapply reads_bind_ok; [apply reads_ret|].
  eapply reads_bind_ok.
  { set (linked := λ fs, bool_decide (root ∈ fs_links fs)).
    assert (linked fs = false) as Hl by by apply bool_decide_eq_false.
    apply runs_syscall; [apply (runs_gets_fs md eu fs linked); rewrite Hl; by split|].
    eauto with py_db. }
  eapply reads_bind_ok; [apply reads_ret|].
  eapply reads_bind_ok.
  { apply reads_os_error_as_ok, (reads_syscall md eu fs (λ fs, fs_real fs !! root)).
    rewrite H2. apply reads_ret. }
  rewrite String.eqb_refl. eapply reads_bind_ok; [apply reads_ret|].
  eapply reads_bind_ok.
  { apply reads_os_error_as_ok, (reads_syscall md eu fs (λ fs, fs_paths fs !! root)).
    rewrite H4. apply reads_ret. }
  eapply reads_bind_ok; [by apply reads_os_error_as_ok, reads_fstat_dir|].
  eapply reads_bind_ok; [apply runs_euid; by split|].
  rewrite Hu, Z.eqb_refl, Hm. eapply reads_bind_ok; [apply reads_ret|].
  destruct expected as [id'|]; [destruct (bool_decide (id = id')) eqn:E|].
  - eapply reads_bind_ok; [apply reads_ret|]. apply reads_ret.
  - apply reads_bind_err, reads_raise.
  - eapply reads_bind_ok; [apply reads_ret|]. apply reads_ret.
Qed.

Lemma reads_root fs root id :
  root_ok eu fs root id →
  reads md eu fs (_open_journal_root root (Some id)) (Ok (root, id)).
Proof.
  intros Hr. pose proof (reads_root_expected fs root id (Some id) Hr) as K. cbv iota in K.
  destruct (bool_decide (id = id)) eqn:E; [done|]. by apply bool_decide_eq_false in E.
Qed.
End Roots.
