(* ===== verification/SinkProofs.v ===== *)
(** * SinkProofs: the journal operations of host_event_sink.py

    What writing, [snapshot_journal], [quarantine_journal] and [restore_quarantined_journal] do
    to the file system under any faults: a move is all or nothing, the bytes and the inode are
    the ones validated, and nothing else is touched. *)

From S2P Require Import Prelude Effects Json Sha256 JsonText JournalFs HostEventSink JournalProofs.

Local Open Scope string_scope.

(** Only [name] of [d] may differ. *)
Definition only_entry (d : ident) (name : string) (fs fs' : fsys) : Prop :=
  same_layout fs fs' ∧ ∀ d' n', ¬ (d' = d ∧ n' = name) → entry fs' d' n' = entry fs d' n'.

#[global] Instance only_entry_preorder d name : PreOrder (only_entry d name).
Proof.
  split.
  - intros fs. by split.
  - intros f1 f2 f3 [H1 H2] [H3 H4]. split; [by etrans|]. intros d' n' H. by rewrite H4, H2.
Qed.

Lemma only_entry_set d name o fs : has_dir fs d → only_entry d name fs (set_entry d name o fs).
Proof.
  intros Hd. split; [apply same_layout_set|]. intros d' n' H.
  rewrite entry_set by done. by rewrite bool_decide_false.
Qed.

Lemma only_entry_create d name o n fs :
  has_dir fs d → only_entry d name fs (set_next n (set_entry d name o fs)).
Proof.
  intros Hd. etrans; [by apply only_entry_set|]. split; [apply same_layout_next|done].
Qed.

Lemma append_data_nil f : append_data EmptyString f = f.
Proof. destruct f. unfold append_data. simpl. by rewrite str_app_nil_r. Qed.

Lemma append_data_app s t f : append_data t (append_data s f) = append_data (s +:+ t) f.
Proof. unfold append_data. simpl. by rewrite str_app_assoc. Qed.

Section Writing.
Context (md : mode) (eu : Z).
Abbreviation runs := (JournalProofs.runs md eu).
Abbreviation reads := (JournalProofs.reads md eu).

(** One [os.write]: a positive number of bytes (zero only among wild faults). *)
Lemma runs_write fs d name view f (Q : nat → fsys → Prop) R :
  entry fs d name = Some f →
  (∀ n, (n ≤ String.length view)%nat → (0 < n)%nat ∨ view = EmptyString ∨ md = Wild →
     Q n (set_entry d name (Some (append_data (str_take n view) f)) fs)) →
  (∀ e, fault md e → R e fs) →
  runs fs (sys_write d name view) Q R.
Proof.
  intros Hf HQ HR.
  assert (∀ n, (n ≤ String.length view)%nat → (0 < n)%nat ∨ view = EmptyString ∨ md = Wild →
    runs fs (syscall (o ← gets (λ w, entry (w_fs w) d name);
      match o with
      | Some f => modify (λ w, set_fs (set_entry d name
                    (Some (append_data (str_take n view) f)) (w_fs w)) w);; mret n
      | None => raise (OSError "stale descriptor")
      end)) Q R) as Hall.
  { intros n Hle Hn. apply runs_syscall; [|eauto with py_db].
    apply runs_bind, (runs_gets_fs md eu fs (λ fs, entry fs d name)). rewrite Hf.
    Transparent JournalProofs.runs. intros w (<- & <- & H3 & H4). Opaque JournalProofs.runs.
    apply wp_bind, wp_modify, wp_ret. eexists. split; [|by apply HQ]. by repeat split. }
  Transparent JournalProofs.runs. intros w Hw.
  set (n := match w_script w with Short n :: _ => n `min` String.length view
            | _ => String.length view end).
  enough ((n ≤ String.length view)%nat ∧ ((0 < n)%nat ∨ view = EmptyString ∨ md = Wild))
    as [Hle Hn] by exact (Hall n Hle Hn w Hw).
  Opaque JournalProofs.runs. clear Hall. destruct Hw as (_ & _ & _ & Hw). unfold mode_ok in Hw.
  assert (∀ k : nat, k = String.length view → (k ≤ String.length view)%nat
    ∧ ((0 < k)%nat ∨ view = EmptyString ∨ md = Wild)) as Hlen.
  { intros k ->. split; [done|]. destruct view; simpl; [auto|left; lia]. }
  subst n. destruct (w_script w) as [|[| |k|] s]; [by apply Hlen..| |by apply Hlen].
  split; [lia|].
  assert (md = Wild ∨ k ≠ 0%nat) as [->|Hk]; [|by auto|].
  { destruct md; [right..|by left].
    - apply Forall_cons in Hw as [(_ & Hk & _) _]. congruence.
    - apply Forall_cons in Hw as [[_ Hk] _]. congruence. }
  destruct view; simpl; [auto|left; lia].
Qed.

(** The loop writes everything, in as many calls as it takes; cut short, it leaves a prefix. *)
Lemma runs_write_all fs d name view stalled f :
  has_dir fs d → entry fs d name = Some f →
  runs fs (write_all d name view stalled)
    (λ _ fs', only_entry d name fs fs' ∧ entry fs' d name = Some (append_data view f))
    (λ e fs', only_entry d name fs fs' ∧ (∃ s, entry fs' d name = Some (append_data s f))
              ∧ fault md e).
Proof.
  unfold write_all. generalize (le_n (String.length view)).
  generalize (String.length view) at 2 3 as fuel. intros fuel Hfuel Hd Hf.
  revert fs view f Hfuel Hd Hf. induction fuel as [|fuel IH]; intros fs view f Hfuel Hd Hf.
  { destruct view; [|simpl in Hfuel; lia]. apply runs_ret. split; [done|].
    by rewrite append_data_nil. }
  destruct view as [|c view].
  { apply runs_ret. split; [done|]. by rewrite append_data_nil. }
  set (v := String c view) in *. change (write_loop (S fuel) d name v stalled) with
    (written ← sys_write d name v;
     raise_if (written <=? 0)%nat stalled;;
     write_loop fuel d name (String.substring written (String.length v - written) v) stalled).
  apply runs_bind. eapply runs_write; [done|..].
  - intros n Hn Hpos. apply runs_bind, runs_raise_if.
    + intros Hz%Nat.leb_le. split; [by apply only_entry_set|].
      rewrite entry_set, bool_decide_true by done. split; [by eexists|].
      destruct Hpos as [Hpos|[Hpos|Hpos]]; [lia|done|by rewrite Hpos].
    + intros Hz%Nat.leb_gt.
      eapply runs_mono; [apply (IH _ _ (append_data (str_take n v) f))|..].
      * rewrite substring_length by lia. lia.
      * eapply has_dir_layout; [apply same_layout_set|done].
      * by rewrite entry_set, bool_decide_true.
      * cbv beta. intros _ fs' [H1 H2]. split; [etrans; [by apply only_entry_set|done]|].
        rewrite H2. unfold append_data, str_take. cbn [f_ino f_kind f_uid f_mode f_data].
        rewrite <-str_app_assoc.
        by rewrite substring_split.
      * cbv beta. intros e fs' (H1 & [s Hs] & H3).
        split; [etrans; [by apply only_entry_set|done]|]. split; [|done].
        exists (str_take n v +:+ s). rewrite Hs, append_data_app. done.
  - intros e He. split; [done|]. split; [|done]. exists EmptyString.
    by rewrite append_data_nil.
Qed.
End Writing.

(** ** Snapshots *)

Definition terminated (s : string) : bool := (s =? EmptyString) || endswith newline s.

(** A journal the manager may read: a regular file of its own, complete and not too long. *)
Record readable (eu max_bytes : Z) (f : file) : Prop := {
  rd_kind : f_kind f = Regular;
  rd_uid : f_uid f = eu;
  rd_size : (Z.of_nat (String.length (f_data f)) ≤ max_bytes)%Z;
  rd_terminated : terminated (f_data f) = true;
}.

Definition journal_name_ok (name : string) : bool := is_file_name name && endswith ".jsonl" name.

Definition journal_of (d : ident) (name : string) (f : file) : QuarantinedJournal :=
  mkJournal name (f_data f) d.1 (f_ino f).

Lemma partial_test s :
  negb (s =? EmptyString) && negb (endswith newline s) = negb (terminated s).
Proof. unfold terminated. by rewrite negb_orb. Qed.

Section Snapshots.
Context (md : mode) (eu : Z).
Abbreviation runs := (JournalProofs.runs md eu).
Abbreviation reads := (JournalProofs.reads md eu).

(** The result of the checks and the read, common to snapshots and moves. *)
Definition snapshot_checks (fs : fsys) (d : ident) (name : string) (max_bytes : Z) : Prop :=
  ∃ f, entry fs d name = Some f ∧ readable eu max_bytes f.

Lemma reads_snapshot fs root d name max_bytes f :
  root_ok eu fs root d → journal_name_ok name = true → (0 < max_bytes)%Z →
  entry fs d name = Some f → readable eu max_bytes f →
  reads fs (snapshot_journal root name d max_bytes) (Ok (journal_of d name f)).
Proof.
  intros Hroot Hname Hmax Hf [Hk Hu Hs Ht]. unfold snapshot_journal.
  apply andb_true_iff in Hname as [-> ->]. rewrite (proj2 (Z.leb_gt _ _)) by lia.
  eapply reads_bind_ok; [apply reads_ret|]. eapply reads_bind_ok; [by apply reads_root|].
  cbv iota beta. eapply reads_bind_ok.
  { apply reads_os_error_as_ok. pose proof (reads_open md eu fs d name) as H.
    unfold open_of in H. rewrite Hf, bool_decide_false in H by congruence. exact H. }
  eapply reads_bind_ok; [by apply reads_fstat|].
  eapply reads_bind_ok; [apply runs_euid; by split|].
  rewrite bool_decide_true, Hu, Z.eqb_refl by done. eapply reads_bind_ok; [apply reads_ret|].
  eapply reads_bind_ok; [by apply reads_read|].
  rewrite read_whole by done. rewrite (proj2 (Z.ltb_ge _ _)) by lia.
  eapply reads_bind_ok; [apply reads_ret|].
  rewrite partial_test, Ht. eapply reads_bind_ok; [apply reads_ret|].
  eapply reads_bind_ok.
  { apply reads_os_error_as_ok. pose proof (reads_stat md eu fs d name) as H.
    unfold stat_of in H. rewrite Hf in H. exact H. }
  rewrite bool_decide_true, Nat.eqb_refl by done. eapply reads_bind_ok; [apply reads_ret|].
  apply reads_ret.
Qed.

(** Whatever is there: a snapshot that is taken is exact, and nothing changes. *)
Lemma runs_snapshot fs root d name max_bytes :
  root_ok eu fs root d →
  runs fs (snapshot_journal root name d max_bytes)
    (λ j fs', fs' = fs ∧ ∃ f, entry fs d name = Some f ∧ readable eu max_bytes f
              ∧ j = journal_of d name f)
    (λ e fs', fs' = fs).
Proof.
  intros Hroot. unfold snapshot_journal.
  apply runs_bind, runs_raise_if; [done|]. intros Hreq. reflect.
  eapply runs_reads; [by apply reads_root| |done]. cbv iota beta.
  eapply runs_reads_any; [apply reads_os_error_as, reads_open|..|done|done].
  intros [] Hopen. destruct (entry fs d name) as [f|] eqn:Hf.
  2:{ unfold open_of in Hopen. by rewrite Hf in Hopen. }
  eapply runs_reads; [by apply reads_fstat| |done].
  apply runs_bind, runs_euid, runs_bind, runs_raise_if; [done|]. intros Hown. reflect.
  eapply runs_reads; [by apply reads_read| |done].
  apply runs_bind, runs_raise_if; [done|]. intros Hsize. reflect.
  rewrite read_limit in Hsize by lia. rewrite read_whole by done.
  apply runs_bind, runs_raise_if; [done|]. rewrite partial_test. intros Hterm. reflect.
  eapply runs_reads_any; [apply reads_os_error_as, reads_stat|..|done|done].
  intros after Ha. apply runs_bind, runs_raise_if; [done|]. intros _. apply runs_ret.
  split; [done|]. exists f. split; [done|]. by split.
Qed.
End Snapshots.

(** ** Moves *)

(** The errors of a move that could not be undone. *)
Definition undo_failed (x : exn) : Prop :=
  x = Killed ∨ x = HostEventSinkError "journal quarantine failed and rollback failed"
  ∨ x = HostEventSinkError "journal quarantine failed and rollback target is unsafe".

Section Moves.
Context (md : mode) (eu : Z).
Abbreviation runs := (JournalProofs.runs md eu).
Abbreviation reads := (JournalProofs.reads md eu).

Definition expected (e : option QuarantinedJournal) (j : QuarantinedJournal) : Prop :=
  match e with Some j' => j' = j | None => True end.

(** Reading before a move: exact when it succeeds, and it succeeds on a readable journal. *)
Lemma runs_read_movable fs d name max_bytes e :
  (0 < max_bytes)%Z →
  runs fs (read_movable d name max_bytes e)
    (λ p fs', fs' = fs ∧ entry fs d name = Some p.2 ∧ p.1 = f_data p.2
              ∧ readable eu max_bytes p.2 ∧ expected e (journal_of d name p.2))
    (λ x fs', fs' = fs ∧ (fault md x ∨ ∀ f, entry fs d name = Some f →
       readable eu max_bytes f → expected e (journal_of d name f) → False)).
Proof.
  intros Hmax. unfold read_movable.
  assert (∀ x, fault md x → fs = fs ∧ (fault md x ∨ ∀ f, entry fs d name = Some f →
    readable eu max_bytes f → expected e (journal_of d name f) → False)) as HF by auto.
  eapply runs_reads_any; [apply reads_os_error_as, reads_open|..|done].
  2:{ intros x Hx. split; [done|]. right. intros f Hf [Hk _ _ _] _. unfold open_of in Hx.
      rewrite Hf, bool_decide_false in Hx by congruence. done. }
  intros [] Hopen. destruct (entry fs d name) as [f|] eqn:Hf.
  2:{ unfold open_of in Hopen. by rewrite Hf in Hopen. }
  eapply runs_reads; [by apply reads_fstat| |done].
  apply runs_bind, runs_euid, runs_bind, runs_raise_if.
  { intros Hb. split; [done|]. right. intros g [= <-] [Hk Hu _ _] _.
    rewrite bool_decide_true, Hu, Z.eqb_refl in Hb by done. done. }
  intros Hown. reflect. eapply runs_reads; [by apply reads_read| |done].
  apply runs_bind, runs_raise_if.
  { intros Hb. reflect. split; [done|]. right. intros g [= <-] [_ _ Hs _] _.
    rewrite <-read_limit in Hs by lia. lia. }
  intros Hsize. reflect. rewrite read_limit in Hsize by lia. rewrite read_whole by done.
  apply runs_bind, runs_raise_if; rewrite partial_test.
  { intros Hb. split; [done|]. right. intros g [= <-] [_ _ _ Ht] _. by rewrite Ht in Hb. }
  intros Hterm. reflect. apply runs_bind, runs_raise_if.
  { intros Hb. split; [done|]. right. intros g [= <-] _ He. unfold expected in He.
    destruct e as [j|]; [|done]. subst. by rewrite bool_decide_true in Hb. }
  intros Hexp. eapply runs_reads_any; [apply reads_os_error_as, reads_stat|..|done].
  2:{ intros x Hx. unfold stat_of in Hx. by rewrite Hf in Hx. }
  intros after Ha. unfold stat_of in Ha. rewrite Hf in Ha. injection Ha as <-.
  rewrite bool_decide_true, Nat.eqb_refl by done.
  apply runs_bind, runs_ret, runs_ret. cbn [fst snd].
  split; [done|]. split; [done|]. split; [done|]. split; [by split|].
  unfold expected. destruct e as [j|]; [|done]. by reflect.
Qed.

(** The checks after a move pass. *)
Lemma reads_verify_moved fs sd dd name max_bytes f :
  entry fs dd name = Some f → entry fs sd name = None → readable eu max_bytes f →
  sd.1 = dd.1 →
  reads fs (verify_moved sd dd name (f_data f) f max_bytes) (Ok tt).
Proof.
  intros Hf Hs Hr Hdev. unfold verify_moved.
  do 2 (eapply reads_bind_ok; [apply reads_fsync|]).
  assert (file_id dd f = file_id sd f) as Hid by (unfold file_id; by rewrite Hdev).
  eapply reads_bind_ok.
  { pose proof (reads_stat md eu fs dd name) as H. unfold stat_of in H. by rewrite Hf in H. }
  rewrite bool_decide_true by done. eapply reads_bind_ok; [apply reads_ret|].
  eapply reads_bind_ok.
  { apply reads_os_error_as_ok. pose proof (reads_open md eu fs dd name) as H.
    unfold open_of in H. destruct Hr as [Hk _ _ _].
    rewrite Hf, bool_decide_false in H by congruence. exact H. }
  eapply reads_bind_ok; [by apply reads_fstat|].
  rewrite bool_decide_true by done. eapply reads_bind_ok; [apply reads_ret|].
  eapply reads_bind_ok; [by apply reads_read|].
  rewrite read_whole by apply Hr. rewrite String.eqb_refl.
  eapply reads_bind_ok; [apply reads_ret|].
  eapply (reads_bind_ok _ _ _ _ _ false); [|apply reads_ret].
  unfold except. pose proof (reads_taken md eu fs sd name
    (λ e, if is_enoent e then mret false else raise e)) as H. rewrite Hs in H. apply H.
  - by intros e ->.
  - intros e ->. by exists e.
Qed.

Lemma runs_stat_exact fs d name :
  runs fs (sys_stat d name) (λ f fs', fs' = fs ∧ stat_of fs d name = Ok f)
    (λ e fs', fs' = fs ∧ (stat_of fs d name = Err e ∨ sysfault md e)).
Proof.
  unfold sys_stat. apply runs_syscall; [|auto].
  apply runs_bind, (runs_gets_fs md eu fs (λ fs, entry fs d name)). unfold stat_of.
  destruct (entry fs d name); [by apply runs_ret|apply runs_raise; auto].
Qed.

(** Undoing a move: the journal is put back, or the error says that it was not. *)
Lemma runs_move_back fs sd dd name f x (Q : QuarantinedJournal → fsys → Prop) R :
  let fs1 := moved sd dd name f fs in
  sd ≠ dd → sd.1 = dd.1 → has_dir fs sd → has_dir fs dd →
  entry fs sd name = Some f → entry fs dd name = None →
  (∀ e fs', e = x ∨ fault md e → eqv fs fs' ∨ undo_failed e ∧ fault md e ∧ fs' = fs1 → R e fs') →
  runs fs1 (move_back sd dd name x) Q R.
Proof.
  intros fs1 Hne Hdev Hs Hd Hf Hn HR. unfold move_back.
  assert (entry fs1 sd name = None ∧ entry fs1 dd name = Some f) as [E1 E2].
  { split; [by apply entry_moved_src|by apply entry_moved_dst]. }
  apply runs_try_else. eapply runs_mono; [apply runs_stat_exact|..]; cbv beta.
  - intros a fs' [-> Ha]. unfold stat_of in Ha. by rewrite E1 in Ha.
  - intros e fs' [-> He]. unfold stat_of in He. rewrite E1 in He.
    destruct (is_enoent e) eqn:Ee.
    + apply runs_bind, runs_os_error_as, runs_bind, runs_rename.
      * intros g Hg _ _. rewrite E2 in Hg. injection Hg as <-.
        assert (eqv fs (moved dd sd name f fs1)) as Hq by by apply moved_back.
        fold (moved dd sd name f fs1).
        apply runs_sync; [|intros; apply HR; [right; by apply fault_as|by left]].
        eapply runs_mono; [apply reads_fsync|..]; cbv beta.
        -- intros _ fs' [-> _]. apply runs_raise, HR; auto.
        -- intros e' fs' [-> [[=]|He']]. apply HR; [right; by apply fault_as|by left].
      * by rewrite E2.
      * intros g _ [h Hh]. by rewrite E1 in Hh.
      * congruence.
      * intros e' He'. assert (fault md (if is_oserror e'
          then HostEventSinkError "journal quarantine failed and rollback failed" else e')) as Hft
          by (apply fault_as; eauto with py_db).
        apply HR; [by right|]. right. split_and!; [|done..].
        destruct He' as [[-> _]|[-> _]]; [by left|by right; left].
    + destruct He as [[= <-]|[[-> Hm]|[-> ->]]]; [done|..]; cbn [is_oserror].
      * assert (fault md Killed) by by destruct md. apply runs_raise, HR; [by right|].
        right. split_and!; [by left|done..].
      * apply runs_raise, HR; [by right|]. right. split_and!; [by right; right|done..].
Qed.

(** A move is all or nothing: on success the validated journal has moved, unchanged; otherwise
    it is where it was, or (after a fault) where it went.  Without faults a readable journal
    moves. *)
Lemma runs_quarantine fs root qroot sd dd name max_bytes e :
  root_ok eu fs root sd → root_ok eu fs qroot dd → root ≠ qroot → sd ≠ dd → sd.1 = dd.1 →
  runs fs (quarantine_journal root qroot name sd dd max_bytes e)
    (λ j fs', ∃ f, entry fs sd name = Some f ∧ entry fs dd name = None
       ∧ readable eu max_bytes f ∧ j = journal_of sd name f ∧ expected e j
       ∧ fs' = moved sd dd name f fs)
    (λ x fs',
       (eqv fs fs' ∨ undo_failed x ∧ ∃ f, entry fs sd name = Some f ∧ entry fs dd name = None
          ∧ expected e (journal_of sd name f) ∧ fs' = moved sd dd name f fs)
       ∧ (fault md x ∨ ∀ f, journal_name_ok name = true → (0 < max_bytes)%Z →
          entry fs sd name = Some f → entry fs dd name = None → readable eu max_bytes f →
          expected e (journal_of sd name f) → False)).
Proof.
  intros Hroot Hq Hpaths Hne Hdev. unfold quarantine_journal.
  assert (eqv fs fs) as Hrefl by done.
  apply runs_bind, runs_raise_if.
  { intros Hb. split; [by left|]. right. intros f [H1 H2]%andb_true_iff Hm.
    rewrite H1, H2 in Hb. simpl in Hb. reflect. lia. }
  intros Hreq. reflect.
  eapply runs_reads; [by apply reads_root| |auto]. cbv iota beta.
  eapply runs_reads; [by apply reads_root| |auto]. cbv iota beta.
  destruct (ro_dir _ _ _ _ Hroot) as (dir & Hdir & _), (ro_dir _ _ _ _ Hq) as (qdir & Hqdir & _).
  eapply runs_reads; [by apply reads_fstat_dir| |auto].
  eapply runs_reads; [by apply reads_fstat_dir| |auto].
  rewrite (proj2 (String.eqb_neq _ _)) by done. rewrite (proj2 (Z.eqb_eq _ _) Hdev).
  do 2 (apply runs_bind, runs_ret).
  eapply runs_reads; [apply reads_taken| |auto].
  { by intros x ->. }
  { intros x ->. destruct (is_oserror x) eqn:Ex; eexists; split; try done. by intros ->. }
  apply runs_bind, runs_raise_if.
  { intros Hb. split; [by left|]. right. intros f _ _ _ Hn. by rewrite Hn in Hb. }
  intros Hn. destruct (entry fs dd name) eqn:En; [done|]. clear Hn.
  apply runs_bind. eapply runs_mono; [apply runs_read_movable; lia|..]; cbv beta.
  2:{ intros x fs' [-> Hx]. split; [by left|]. naive_solver. }
  intros [raw f] fs' (-> & Hf & Hraw & Hr & He). cbn [fst snd] in *. subst raw.
  apply runs_bind, runs_os_error_as, runs_rename.
  - intros g Hg _ _. rewrite Hf in Hg. injection Hg as <-. fold (moved sd dd name f fs).
    set (fs1 := moved sd dd name f fs).
    assert (has_dir fs sd ∧ has_dir fs dd) as [Hs Hd] by eauto with py_db.
    assert (reads fs1 (verify_moved sd dd name (f_data f) f max_bytes) (Ok tt)) as Hv.
    { by apply reads_verify_moved; [apply entry_moved_dst|apply entry_moved_src|..]. }
    apply runs_catch, runs_bind.
    eapply runs_mono; [exact (reads_os_error_as md eu fs1 _ _ _ Hv)|..].
    + cbv beta. intros _ fs' [-> _]. apply runs_ret. exists f. by split_and!.
    + cbv beta. intros x fs' [-> [[=]|Hx]]. eapply runs_move_back; [done..|].
      intros x' fs' Hx' Hx2. assert (fault md x') as Hft by (by destruct Hx' as [->|]).
      split; [|by left]. destruct Hx2 as [Hx2|(Hu & _ & Hx2)]; [by left|].
      right. split; [done|]. exists f. by split_and!.
  - by rewrite Hf.
  - intros g _ [h Hh]. by rewrite En in Hh.
  - done.
  - intros x Hx. split; [by left|]. left. apply fault_as. eauto with py_db.
Qed.
End Moves.
