(* ===== verification/RecordProofs.v ===== *)
(** * RecordProofs: publishing and reading transaction records

    A record or a fence is written to a temporary and renamed: under any faults the name holds
    either nothing or the whole record, every other file is as it was, and what is left behind is
    at most a temporary that the next reconciliation recognises and removes.  A record that is
    read back is the value that was written. *)

From S2P Require Import Prelude Effects Json JsonText Base64 Sha256 HostEvidence JournalFs HostEventSink Quarantine JournalProofs SinkProofs.

Local Open Scope string_scope.

(** What the code relies on: tokens are 32 hexadecimal digits. *)
Class EntropyLaws `{Entropy} : Prop := {
  token_length n : String.length (token_hex n) = 32%nat;
  token_is_hex n : string_forall is_hex (token_hex n) = true;
}.

(** ** Names *)

Lemma prefix_app p s : String.prefix p (p +:+ s) = true.
Proof.
  induction p as [|c p IH]; [by destruct s|]. rewrite str_app_cons. cbn [String.prefix].
  by destruct (ascii_dec c c).
Qed.

Lemma strip_prefix_app p s : strip_prefix p (p +:+ s) = Some s.
Proof.
  induction p as [|c p IH]; [done|]. rewrite str_app_cons. cbn [strip_prefix].
  by rewrite Ascii.eqb_refl.
Qed.

Lemma span_app f a b :
  string_forall f a = true → match b with String c _ => f c = false | EmptyString => True end →
  span f (a +:+ b) = (a, b).
Proof.
  intros Ha Hb. induction a as [|c a IH].
  - destruct b as [|c b]; [done|]. change ("" +:+ String c b) with (String c b). cbn [span].
    by rewrite Hb.
  - simpl in Ha. reflect. rewrite str_app_cons. cbn [span]. by rewrite H, IH.
Qed.

Lemma pretty_N_go_digits x s :
  string_forall is_digit s = true → string_forall is_digit (pretty_N_go x s) = true.
Proof.
  revert s. induction (N.lt_wf_0 x) as [x _ IH]; intros s Hs.
  destruct (decide (x = 0)%N) as [->|]; [done|].
  rewrite pretty_N_go_step by lia. apply IH; [apply N.div_lt; lia|].
  simpl. unfold is_digit at 1. rewrite digit_of_pretty by (apply N.mod_lt; lia). done.
Qed.

(** A printed process id: digits, the first not "0". *)
Lemma z_str_pid pid :
  (0 < pid)%Z → string_forall is_digit (z_str pid) = true
  ∧ ∃ c t, z_str pid = String c t ∧ Ascii.eqb c "0" = false.
Proof.
  intros Hp. destruct pid as [|p|p]; try lia. unfold z_str, pretty, pretty_Z.
  unfold pretty, pretty_positive, pretty, pretty_N. rewrite decide_False by done.
  split; [by apply pretty_N_go_digits|].
  destruct (read_digits_go (Npos p) "") as (c & t & d & -> & Hc & Hd & _); [lia|].
  exists c, t. split; [done|]. apply Ascii.eqb_neq. intros ->. by injection Hc as <-.
Qed.

Lemma temp_tail_ok pid token :
  (0 < pid)%Z → String.length token = 32%nat → string_forall is_hex token = true →
  temp_tail (z_str pid +:+ "." +:+ token +:+ ".tmp") = true.
Proof.
  intros Hp Hl Hh. destruct (z_str_pid pid Hp) as (Hd & c & t & E & Hc).
  unfold temp_tail. rewrite span_app; [|done|done]. rewrite E, Hc.
  change (expect "." ("." +:+ ?s)) with (Some s). cbv iota.
  rewrite span_app; [|done|done]. by rewrite Hl.
Qed.

Lemma after_txid_ok txid s :
  String.length txid = 64%nat → string_forall is_hex txid = true →
  after_txid (txid +:+ "." +:+ s) = Some s.
Proof.
  intros Hl Hh. unfold after_txid. rewrite span_app; [|done|done]. by rewrite Hl.
Qed.

Definition txid_ok (txid : string) : Prop :=
  String.length txid = 64%nat ∧ string_forall is_hex txid = true.

(** The temporaries the program makes are recognised by the patterns it removes them by. *)
Lemma transaction_temp_ok txid stage pid token :
  txid_ok txid → stage ∈ stages → (0 < pid)%Z → String.length token = 32%nat →
  string_forall is_hex token = true →
  _TRANSACTION_TEMP_PATTERN (TRANSACTION_TEMP_PREFIX +:+ txid +:+ "." +:+ stage +:+ "."
    +:+ z_str pid +:+ "." +:+ token +:+ ".tmp") = true.
Proof.
  intros [H1 H2] Hs Hp H3 H4. unfold _TRANSACTION_TEMP_PATTERN. rewrite strip_prefix_app.
  cbn [mbind option_bind]. rewrite after_txid_ok by done. apply existsb_exists.
  exists stage. split; [by apply list_elem_of_In|].
  rewrite (str_app_assoc stage "."), strip_prefix_app. by apply temp_tail_ok.
Qed.

Lemma fence_temp_ok txid pid token :
  txid_ok txid → (0 < pid)%Z → String.length token = 32%nat →
  string_forall is_hex token = true →
  _FENCE_TEMP_PATTERN (FENCE_TEMP_PREFIX +:+ txid +:+ "." +:+ z_str pid +:+ "." +:+ token
    +:+ ".tmp") = true.
Proof.
  intros [H1 H2] Hp H3 H4. unfold _FENCE_TEMP_PATTERN. rewrite strip_prefix_app.
  cbn [mbind option_bind]. rewrite after_txid_ok by done. by apply temp_tail_ok.
Qed.

Definition is_temp (name : string) : bool :=
  String.prefix TRANSACTION_TEMP_PREFIX name || String.prefix FENCE_TEMP_PREFIX name.

(** The files that are not evidence: temporaries and the lock. *)
Definition scratch (name : string) : bool := is_temp name || (name =? QUARANTINE_LOCK).

Lemma temp_scratch name : is_temp name = true → scratch name = true.
Proof. unfold scratch. by intros ->. Qed.

Lemma scratch_false_temp name : scratch name = false → is_temp name = false.
Proof. unfold scratch. intros. by reflect. Qed.

#[export] Hint Resolve temp_scratch scratch_false_temp : py_db.

(** ** Records on disk *)

Section Records.
Context `{Sha256} (eu : Z).

Definition text (v : json) : string := canonical_bytes v +:+ newline.

Definition record_file (content : string) (f : file) : Prop :=
  f_kind f = Regular ∧ f_uid f = eu ∧ f_mode f = MODE_0600 ∧ f_data f = content.

Definition has_rec (fs : fsys) (d : ident) (name : string) (v : json) : Prop :=
  ∃ f, entry fs d name = Some f ∧ record_file (text v) f.

(** A value a record can hold: an object without repeated keys, short enough. *)
Record fits (v : json) : Prop := {
  fit_object : ∃ kvs, v = JObj kvs;
  fit_keys : keys_unique v = true;
  fit_size : (Z.of_nat (String.length (text v)) ≤ MAX_TRANSACTION_RECORD_BYTES)%Z;
}.

(** The record [v] is read back as. *)
Definition rec_of (name : string) (v : json) : DurableRecord :=
  mkRecord name (text v) (_digest (text v)) (members_of (norm v)).

Lemma parse_text name v : fits v → parse_record name (text v) = Ok (rec_of name v).
Proof.
  intros [[kvs ->] Hu _]. unfold parse_record, text. rewrite loads_canonical by done.
  destruct (norm (JObj kvs)) as [| | | | |l] eqn:E; try by rewrite norm_obj in E.
  rewrite <-E, canonical_bytes_norm, String.eqb_refl. unfold rec_of, text. by rewrite E.
Qed.

(** Scratch files the next reconciliation can clean up, or lock. *)
Definition temp_ok (name : string) (f : file) : Prop :=
  f_kind f = Regular ∧ f_uid f = eu ∧ f_mode f = MODE_0600
  ∧ (String.prefix TRANSACTION_TEMP_PREFIX name = true → _TRANSACTION_TEMP_PATTERN name = true)
  ∧ (String.prefix FENCE_TEMP_PREFIX name = true → _FENCE_TEMP_PATTERN name = true).

Definition temps_ok (fs : fsys) : Prop :=
  ∀ d n f, scratch n = true → entry fs d n = Some f → temp_ok n f.

(** No temporaries of the kind [p] in a directory. *)
Definition clear (d : ident) (p : string) (fs : fsys) : Prop :=
  ∀ n, String.prefix p n = true → entry fs d n = None.

Definition temp_prefix (p : string) : Prop :=
  p = TRANSACTION_TEMP_PREFIX ∨ p = FENCE_TEMP_PREFIX.

Lemma prefix_temp p n : temp_prefix p → String.prefix p n = true → is_temp n = true.
Proof. unfold is_temp. by intros [-> | ->] ->; rewrite ?orb_true_r. Qed.

(** Nothing but scratch files changed. *)
Record quiet (fs fs' : fsys) : Prop := {
  q_layout : same_layout fs fs';
  q_same d n : scratch n = false → entry fs' d n = entry fs d n;
  q_temps : temps_ok fs → temps_ok fs';
}.

#[global] Instance quiet_preorder : PreOrder quiet.
Proof.
  split.
  - intros fs. by split.
  - intros f1 f2 f3 [L1 S1 T1] [L2 S2 T2]. split; [by etrans| |auto].
    intros d n Hn. by rewrite S2, S1.
Qed.

Lemma eqv_quiet fs fs' : eqv fs fs' → quiet fs fs'.
Proof.
  intros [L E]. split; [done|by intros; apply E|]. intros HT d n f Hn Hf. rewrite E in Hf.
  by eapply HT.
Qed.

(** [v] was published as [name]; besides, nothing but scratch files changed. *)
Record wrote (d : ident) (name : string) (v : json) (fs fs' : fsys) : Prop := {
  wr_layout : same_layout fs fs';
  wr_rec : has_rec fs' d name v;
  wr_same d' n : ¬ (d' = d ∧ n = name) → scratch n = false → entry fs' d' n = entry fs d' n;
  wr_temps : temps_ok fs → temps_ok fs';
  wr_clean d' p : temp_prefix p → clear d' p fs → clear d' p fs';
}.

Lemma quiet_temp fs fs' d tmp f :
  is_temp tmp = true → only_entry d tmp fs fs' → entry fs' d tmp = Some f → temp_ok tmp f →
  quiet fs fs'.
Proof.
  intros Ht [L E] Hf Hok. split; [done| |].
  - intros d' n Hn. apply E. intros [-> ->]. by rewrite temp_scratch in Hn.
  - intros HT d' n g Hn Hg. destruct (decide (d' = d ∧ n = tmp)) as [[-> ->]|Hne].
    + by simplify_eq.
    + rewrite E in Hg by done. by eapply HT.
Qed.

Lemma quiet_removed fs fs' d tmp :
  is_temp tmp = true → only_entry d tmp fs fs' → entry fs' d tmp = None → quiet fs fs'.
Proof.
  intros Ht [L E] Hf. split; [done| |].
  - intros d' n Hn. apply E. intros [-> ->]. by rewrite temp_scratch in Hn.
  - intros HT d' n g Hn Hg. destruct (decide (d' = d ∧ n = tmp)) as [[-> ->]|Hne].
    + by simplify_eq.
    + rewrite E in Hg by done. by eapply HT.
Qed.

Context (md : mode).
Abbreviation runs := (JournalProofs.runs md eu).
Abbreviation reads := (JournalProofs.reads md eu).

(** ** Reading *)

Lemma reads_record fs d name v required :
  has_rec fs d name v → fits v →
  reads fs (_read_record_from_directory d name required) (Ok (Some (rec_of name v))).
Proof.
  intros (f & Hf & Hk & Hu & Hm & Hd) Hv. unfold _read_record_from_directory.
  eapply reads_bind_ok.
  { apply reads_open_or; [|by rewrite Hf|intros g Hg; by simplify_eq; congruence].
    intros e ->. destruct (is_oserror e) eqn:Ee; eexists; split; try done. by intros ->. }
  cbn [negb]. eapply reads_bind_ok; [by apply reads_fstat|].
  eapply reads_bind_ok; [apply runs_euid; by split|].
  unfold unsafe. rewrite bool_decide_true, Hu, Hm, !Z.eqb_refl by done.
  eapply reads_bind_ok; [apply reads_ret|]. eapply reads_bind_ok; [by apply reads_read|].
  pose proof (fit_size v Hv) as Hs. rewrite <-Hd in Hs.
  rewrite read_whole, (proj2 (Z.ltb_ge _ _)) by lia.
  eapply reads_bind_ok; [apply reads_ret|]. rewrite Hd.
  eapply reads_bind_ok; [rewrite parse_text by done; apply reads_lift|]. apply reads_ret.
Qed.

Lemma reads_no_record fs d name :
  entry fs d name = None → reads fs (_read_record_from_directory d name false) (Ok None).
Proof.
  intros Hf. unfold _read_record_from_directory. eapply (reads_bind_ok _ _ _ _ _ false).
  - apply reads_open_or; [|rewrite Hf; simpl; apply reads_ret|by rewrite Hf].
    intros e ->. destruct (is_oserror e) eqn:Ee; eexists; split; try done. by intros ->.
  - apply reads_ret.
Qed.

(** A record that is there, or none, as the model of a transaction knows it. *)
Definition rec_at (fs : fsys) (d : ident) (name : string) (o : option json) : Prop :=
  match o with
  | Some v => has_rec fs d name v ∧ fits v
  | None => entry fs d name = None
  end.

Lemma reads_rec_at fs d name o :
  rec_at fs d name o →
  reads fs (_read_record_from_directory d name false) (Ok (rec_of name <$> o)).
Proof. destruct o as [v|]; [intros []; by apply reads_record|by apply reads_no_record]. Qed.
End Records.

(** ** Writing *)

Section Publishing.
Context `{Sha256} `{Entropy} (md : mode) (eu : Z).
Abbreviation runs := (JournalProofs.runs md eu).
Abbreviation reads := (JournalProofs.reads md eu).

Lemma runs_unlink_quietly fs d name (Q : unit → fsys → Prop) R :
  has_dir fs d →
  Q tt fs → Q tt (set_entry d name None fs) →
  (∀ e, fault md e → R e fs ∧ R e (set_entry d name None fs)) → is_Some (entry fs d name) →
  runs fs (unlink_quietly d name) Q R.
Proof.
  intros Hd H1 H2 HR Hs. apply runs_except, runs_bind, runs_unlink; [|done|].
  - eapply runs_mono; [apply reads_fsync|..]; cbv beta.
    + by intros [] fs' [-> _].
    + intros e fs' [-> [[=]|He]]. destruct (is_oserror e); [by apply runs_ret|].
      by apply HR.
  - intros e He. destruct (is_oserror e); [by apply runs_ret|]. apply HR. eauto with py_db.
Qed.

(** The file system with the temporary gone and the record in its place. *)
Definition published (d : ident) (tmp name : string) (f : file) (fs : fsys) : fsys :=
  set_entry d name (Some f) (set_entry d tmp None fs).

Lemma entry_published d tmp name f fs d' n :
  has_dir fs d →
  entry (published d tmp name f fs) d' n =
    if bool_decide (d' = d ∧ n = name) then Some f
    else if bool_decide (d' = d ∧ n = tmp) then None else entry fs d' n.
Proof.
  intros Hd. unfold published. rewrite entry_set.
  - by rewrite entry_set.
  - eapply has_dir_layout; [apply same_layout_set|done].
Qed.

Lemma published_wrote fs fs1 d tmp name v f :
  is_temp tmp = true → scratch name = false → has_dir fs d →
  only_entry d tmp fs fs1 → record_file eu (text v) f →
  wrote eu d name v fs (published d tmp name f fs1).
Proof.
  intros Ht Hn Hd [L E] Hf.
  assert (has_dir fs1 d) as Hd1 by by eapply has_dir_layout.
  split.
  - etrans; [done|]. etrans; apply same_layout_set.
  - exists f. split; [|done]. by rewrite entry_published, bool_decide_true.
  - intros d' n Hne Hs. rewrite entry_published by done. rewrite bool_decide_false by done.
    case_bool_decide as Htmp; [destruct Htmp as [-> ->]; by rewrite temp_scratch in Hs|].
    by apply E.
  - intros HT d' n g Hg. rewrite entry_published by done. case_bool_decide as H1.
    + destruct H1 as [-> ->]. congruence.
    + case_bool_decide; [done|]. rewrite E by done. by apply HT.
  - intros d' p Hp HT n Hg. rewrite entry_published by done. case_bool_decide as H1.
    + destruct H1 as [-> ->]. apply scratch_false_temp in Hn.
      by rewrite (prefix_temp p name Hp Hg) in Hn.
    + case_bool_decide; [done|]. rewrite E by done. by apply HT.
Qed.

(** Writing the temporary, renaming it, reading the record back. *)
Lemma runs_publish base fs d tmp name v persist rename conflict differs (f0 : file)
    (Q : DurableRecord → fsys → Prop) R :
  has_dir base d → only_entry d tmp base fs → is_temp tmp = true → scratch name = false → fits v →
  (∀ g, f_kind g = Regular → f_uid g = eu → f_mode g = MODE_0600 → temp_ok eu tmp g) →
  entry base d name = None → entry fs d tmp = Some f0 → record_file eu "" f0 →
  runs fs persist
    (λ _ fs', only_entry d tmp fs fs' ∧ entry fs' d tmp = Some (append_data (text v) f0))
    (λ e fs', only_entry d tmp fs fs' ∧ (∃ s, entry fs' d tmp = Some (append_data s f0))
              ∧ fault md e) →
  (∀ fs1 f1, entry fs1 d tmp = Some f1 → entry fs1 d name = None →
     runs fs1 rename (λ _ fs', fs' = published d tmp name f1 fs1)
       (λ e fs', fs' = fs1 ∧ fault md e ∧ is_eexist e = false)) →
  (∀ e fs', fault md e → quiet eu base fs' ∨ wrote eu d name v base fs' → R e fs') →
  (∀ fs', wrote eu d name v base fs' → Q (rec_of name v) fs') →
  runs fs (found ← publish d tmp name (text v) persist rename conflict;
           match found with
           | Some existing => mret existing
           | None => read_back d name (text v) differs
           end) Q R.
Proof.
  intros Hd Hbase Htmp Hname Hv Hok Hnone Htf Hf0 Hp Hr HR HQ.
  assert (tmp ≠ name) as Hne by (intros ->; by rewrite temp_scratch in Hname).
  assert (∀ s, temp_ok eu tmp (append_data s f0)) as Happ by (intros s; apply Hok; apply Hf0).
  (* a fault before the rename *)
  assert (∀ fs1 g e, only_entry d tmp base fs1 → entry fs1 d tmp = Some g → temp_ok eu tmp g →
    fault md e →
    runs fs1 (unlink_quietly d tmp;; raise e : M World (option DurableRecord))
      (λ o fs', False) R) as Hback.
  { intros fs1 g e Ho Hg Hgok He.
    assert (has_dir fs1 d) as Hd1 by (destruct Ho; by eapply has_dir_layout).
    assert (quiet eu base fs1) as Hq1 by by eapply quiet_temp.
    assert (quiet eu base (set_entry d tmp None fs1)) as Hq2.
    { eapply quiet_removed; [done| |].
      - etrans; [exact Ho|by apply only_entry_set].
      - by rewrite entry_set, bool_decide_true. }
    apply runs_bind, runs_unlink_quietly; [done|..].
    - apply runs_raise, HR; auto.
    - apply runs_raise, HR; auto.
    - intros e' He'. split; apply HR; auto.
    - by eexists. }
  apply runs_bind. unfold publish, with_temporary. apply runs_try_else, runs_bind.
  eapply runs_mono; [exact Hp|..]; cbv beta.
  2:{ intros e fs1 (Ho & (s & Hs) & He). assert (only_entry d tmp base fs1) by by etrans. eapply runs_mono; [by eapply Hback|by intros|done]. }
  intros _ fs1 [Ho Hf1]. assert (only_entry d tmp base fs1) as Hob by by etrans. clear Ho.
  rename Hob into Ho.
  assert (entry fs1 d name = None) as Hn1.
  { destruct Ho as [_ E]. rewrite E by naive_solver. done. }
  assert (has_dir fs1 d) as Hd1 by (destruct Ho; by eapply has_dir_layout).
  apply runs_bind, runs_except, runs_bind. eapply runs_mono; [by apply Hr|..]; cbv beta.
  2:{ intros e fs' (-> & He & ->). eapply runs_mono; [by eapply Hback|by intros|done]. }
  intros _ fs' ->. set (f1 := append_data (text v) f0) in *.
  assert (record_file eu (text v) f1) as Hf1'.
  { destruct Hf0 as (? & ? & ? & Hdata). repeat split; [done..|]. subst f1. simpl.
    by rewrite Hdata. }
  assert (wrote eu d name v base (published d tmp name f1 fs1)) as Hw
    by by apply published_wrote.
  apply runs_ret, runs_ret, runs_ret. unfold read_back. apply runs_sync.
  - eapply runs_reads; [apply reads_record; [apply Hw|done]| |intros; apply HR; auto].
    apply runs_bind, runs_ret. cbn [r_raw rec_of]. rewrite String.eqb_refl.
    apply runs_bind, runs_ret, runs_ret. auto.
  - intros. apply HR; auto.
Qed.
End Publishing.

Section WriteRecord.
Context `{Sha256} `{!Sha256Laws} `{Entropy} `{!EntropyLaws} (md : mode) (eu : Z).
Abbreviation runs := (JournalProofs.runs md eu).
Abbreviation reads := (JournalProofs.reads md eu).

Definition record_name (txid stage : string) : string :=
  "ecpa-" +:+ txid +:+ "." +:+ stage +:+ ".json".

Lemma record_name_ok txid stage :
  txid_ok txid → stage ∈ stages → _record_name txid stage = Ok (record_name txid stage).
Proof. intros [K1 K2] Hs. unfold _record_name. by rewrite K1, K2, bool_decide_true. Qed.

Lemma record_name_scratch txid stage : scratch (record_name txid stage) = false.
Proof. done. Qed.

Lemma runs_next_token fs (Q : string → fsys → Prop) R :
  (∀ t, String.length t = 32%nat → string_forall is_hex t = true → Q t fs) →
  runs fs next_token Q R.
Proof.
  intros HQ. Transparent JournalProofs.runs. intros w (K1 & K2 & K3 & K4).
  Opaque JournalProofs.runs. unfold next_token. apply wp_bind, wp_gets, wp_bind, wp_modify, wp_ret.
  exists fs. split; [by repeat split|]. apply HQ; [apply token_length|apply token_is_hex].
Qed.

(** The state before the rename of [tmp]: renaming publishes, unless a fault stops it. *)
Lemma runs_rename_temp fs1 d tmp name f1 :
  entry fs1 d tmp = Some f1 → entry fs1 d name = None →
  runs fs1 (_rename_noreplace d tmp d name) (λ _ fs', fs' = published d tmp name f1 fs1)
    (λ e fs', fs' = fs1 ∧ fault md e ∧ is_eexist e = false).
Proof.
  intros Hf Hn. apply runs_rename.
  - intros g Hg _ _. by simplify_eq.
  - by rewrite Hf.
  - intros g _ [h Hh]. by simplify_eq.
  - done.
  - intros e He. split; [done|]. split; [by apply sysfault_fault|]. by destruct He as [[-> _]|[-> _]].
Qed.

(** What may stand between a write and its success, besides faults: an old temporary of the
    same name, another record, or the size limit. *)
Definition obstructed (fs : fsys) (d : ident) (p name : string) (v : json) : Prop :=
  ¬ clear d p fs ∨ (∃ v', has_rec eu fs d name v' ∧ text v' ≠ text v) ∨ ¬ fits v.

Lemma runs_write_record fs root d txid stage v o :
  root_ok eu fs root d → txid_ok txid → stage ∈ stages →
  (∃ kvs, v = JObj kvs) → keys_unique v = true →
  rec_at eu fs d (record_name txid stage) o →
  runs fs (_write_record root d txid stage v)
    (λ r fs', fits v ∧ r = rec_of (record_name txid stage) v ∧ wrote eu d (record_name txid stage) v fs fs')
    (λ e fs', (quiet eu fs fs' ∨ fits v ∧ o = None ∧ wrote eu d (record_name txid stage) v fs fs')
              ∧ (fault md e ∨ obstructed fs d TRANSACTION_TEMP_PREFIX (record_name txid stage) v)).
Proof.
  intros Hroot Ht Hs Hobj Hkeys Ho. unfold _write_record.
  set (name := record_name txid stage) in *.
  assert (quiet eu fs fs) as Hrefl by done.
  apply runs_bind, runs_lift_result; rewrite (record_name_ok txid stage Ht Hs); [|done].
  intros _ [= <-]. fold name. fold (text v).
  apply runs_bind, runs_raise_if.
  { intros Hb. reflect. split; [by left|]. do 3 right. intros [_ _ Hf]. lia. }
  intros Hsize. reflect. assert (fits v) as Hv by by split.
  eapply runs_reads; [by apply reads_root| |auto]. cbv iota beta.
  apply runs_bind, runs_pid. intros pid Hpid. apply runs_bind, runs_next_token.
  intros token Hlen Hhex.
  set (tmp := TRANSACTION_TEMP_PREFIX +:+ _).
  eapply runs_reads; [by apply reads_rec_at| |auto].
  destruct o as [v'|]; cbn [fmap option_fmap option_map].
  { destruct Ho as [Hrec Hv']. apply runs_bind, runs_raise_if.
    - intros Hne. reflect. split; [by left|]. right. right. left. by exists v'.
    - intros Heq. reflect. cbn [r_raw rec_of] in Heq. apply runs_ret.
      unfold rec_of. rewrite Heq. split; [done|]. split.
      { f_equal. apply (f_equal loads) in Heq. unfold text in Heq.
        rewrite !loads_canonical in Heq by by apply fit_keys. by injection Heq as ->. }
      split; try done. destruct Hrec as (f & Hf & Hk). exists f. split; [done|].
      by rewrite <-Heq. }
  assert (is_temp tmp = true) as Htmp.
  { unfold is_temp, tmp. by rewrite prefix_app. }
  assert (has_dir fs d) as Hd by eauto with py_db.
  assert (∀ g, f_kind g = Regular → f_uid g = eu → f_mode g = MODE_0600 → temp_ok eu tmp g)
    as Hok.
  { intros g K1 K2 K3. repeat split; [done..| |done]. intros _. by apply transaction_temp_ok. }
  apply runs_bind, runs_os_error_as, runs_create.
  - intros Hno. set (f0 := File _ _ _ _ _). set (fs0 := set_next _ _).
    assert (only_entry d tmp fs fs0) as Ho0 by by apply only_entry_create.
    assert (entry fs0 d tmp = Some f0) as Hf0.
    { unfold fs0. rewrite entry_set_next, entry_set, bool_decide_true by done. done. }
    assert (quiet eu fs fs0) as Hq0 by (eapply quiet_temp; [done..|by apply Hok]).
    eapply (runs_publish md eu fs fs0 d tmp name v _ _ _ _ f0); try done.
    + apply runs_os_error_as, runs_bind. eapply runs_mono.
      * apply runs_write_all; [|done]. destruct Ho0; by eapply has_dir_layout.
      * cbv beta. intros _ fs' [K1 K2]. eapply runs_mono; [apply reads_fsync|..]; cbv beta.
        -- by intros _ ? [-> _].
        -- intros e ? [-> [[=]|He]]. split; [done|]. split; [by eexists|by apply fault_as].
      * cbv beta. intros e fs' (K1 & K2 & He). split; [done|]. split; [done|by apply fault_as].
    + intros fs1 f1 K1 K2. apply runs_except. eapply runs_mono; [by apply runs_rename_temp|..].
      * done.
      * cbv beta. intros e fs' (-> & He & Hx). rewrite Hx. destruct (is_oserror e) eqn:Eo; simpl.
        -- apply runs_raise. split; [done|]. split; [|done]. pose proof (fault_as md
             (QuarantineTransactionError "") e He) as Hf. rewrite Eo in Hf.
           unfold fault in *. by destruct md.
        -- done.
    + intros e fs' He [Hq|Hw]; (split; [|by left]); [by left|by right].
  - intros f Hf. split; [by left|]. right. left. intros Hc.
    by rewrite Hc in Hf by apply prefix_app.
  - intros e He. split; [by left|]. left. apply fault_as. eauto with py_db.
Qed.

(** ** The fence *)

Lemma fence_name_scratch j : scratch (_quarantine_fence_name j) = false.
Proof. done. Qed.

Lemma runs_install_fence fs root d txid dg snap o :
  let v := _fence_value txid dg snap in
  let name := _quarantine_fence_name (journal snap) in
  root_ok eu fs root d → txid_ok txid → fits v → rec_at eu fs d name o →
  runs fs (install_quarantine_source_fence root d txid dg snap)
    (λ r fs', wrote eu d name v fs fs')
    (λ e fs', (quiet eu fs fs' ∨ o = None ∧ wrote eu d name v fs fs')
              ∧ (fault md e ∨ obstructed fs d FENCE_TEMP_PREFIX name v)).
Proof.
  intros v name Hroot Ht Hv Ho. unfold install_quarantine_source_fence. fold v name. fold (text v).
  assert (quiet eu fs fs) as Hrefl by done.
  eapply runs_reads; [by apply reads_root| |auto]. cbv iota beta.
  apply runs_bind, runs_pid. intros pid Hpid. apply runs_bind, runs_next_token.
  intros token Hlen Hhex.
  set (tmp := FENCE_TEMP_PREFIX +:+ _). apply runs_os_error_as.
  eapply runs_reads; [by apply reads_rec_at| |auto using fault_as].
  destruct o as [v'|]; cbn [fmap option_fmap option_map].
  { destruct Ho as [Hrec Hv']. apply runs_bind, runs_raise_if.
    - intros Hne. reflect. split; [by left|]. right. right. left. by exists v'.
    - intros Heq. reflect. cbn [r_raw rec_of] in Heq. apply runs_ret.
      split; try done. destruct Hrec as (f & Hf & Hk). exists f. split; [done|].
      by rewrite <-Heq. }
  assert (is_temp tmp = true) as Htmp.
  { unfold is_temp, tmp. by rewrite (prefix_app FENCE_TEMP_PREFIX), orb_true_r. }
  assert (has_dir fs d) as Hd by eauto with py_db.
  assert (∀ g, f_kind g = Regular → f_uid g = eu → f_mode g = MODE_0600 → temp_ok eu tmp g)
    as Hok.
  { intros g K1 K2 K3. repeat split; [done..| |]; [done|]. intros _. by apply fence_temp_ok. }
  apply runs_bind, runs_create.
  - intros Hno. set (f0 := File _ _ _ _ _). set (fs0 := set_next _ _).
    assert (only_entry d tmp fs fs0) as Ho0 by by apply only_entry_create.
    assert (entry fs0 d tmp = Some f0) as Hf0.
    { unfold fs0. rewrite entry_set_next, entry_set, bool_decide_true by done. done. }
    assert (quiet eu fs fs0) as Hq0 by (eapply quiet_temp; [done..|by apply Hok]).
    eapply (runs_publish md eu fs fs0 d tmp name v _ _ _ _ f0); try done.
    + apply runs_bind. eapply runs_mono.
      * apply runs_write_all; [|done]. destruct Ho0; by eapply has_dir_layout.
      * cbv beta. intros _ fs' [K1 K2]. eapply runs_mono; [apply reads_fsync|..]; cbv beta.
        -- by intros _ ? [-> _].
        -- intros e ? [-> [[=]|He]]. split; [done|]. by split; [eexists|].
      * cbv beta. intros e fs' (K1 & K2 & He). done.
    + intros fs1 f1 K1 K2. by apply runs_rename_temp.
    + intros e fs' He [Hq|Hw]; (split; [|left; by apply fault_as]); [by left|by right].
  - intros f Hf. split; [by left|]. right. left. intros Hc.
    by rewrite Hc in Hf by apply prefix_app.
  - intros e He. split; [by left|]. left. apply fault_as. eauto with py_db.
Qed.

(** A fence that is there is the transaction's own. *)
Lemma reads_source_fence fs d txid dg snap o required :
  let name := _quarantine_fence_name (journal snap) in
  rec_at eu fs d name o → (∀ v, o = Some v → v = _fence_value txid dg snap) →
  (o = None → required = false) →
  reads fs (_read_source_fence d txid dg snap required) (Ok (rec_of name <$> o)).
Proof.
  intros name Ho Hv Hreq. unfold _read_source_fence. fold name.
  eapply (reads_bind_ok _ _ _ _ _ (rec_of name <$> o)).
  { destruct o as [v|]; [destruct Ho; by apply reads_record|].
    rewrite Hreq by done. by apply reads_no_record. }
  destruct o as [v|]; [|apply (reads_bind_ok _ _ _ _ _ tt); apply reads_ret].
  rewrite (Hv v) in * by done. destruct Ho as [_ Hfit]. cbn [fmap option_fmap option_map rec_of r_value].
  set (fv := _fence_value txid dg snap) in *.
  pose proof (py_eqb_norm fv (fit_keys _ Hfit)) as Heq.
  destruct (norm fv) as [| | | | |l] eqn:El; try (by unfold fv, _fence_value in El; rewrite norm_obj in El).
  cbn [members_of]. rewrite Heq.
  assert (same_keys _FENCE_FIELDS l = true) as ->.
  { unfold fv, _fence_value in El. rewrite (same_keys_perm _ _ _ (keys_norm _ _ El)).
    by vm_compute. }
  apply (reads_bind_ok _ _ _ _ _ tt); apply reads_ret.
Qed.

Lemma runs_remove_fence fs d txid dg snap o :
  let name := _quarantine_fence_name (journal snap) in
  has_dir fs d → rec_at eu fs d name o → (∀ v, o = Some v → v = _fence_value txid dg snap) →
  runs fs (_remove_source_fence d txid dg snap)
    (λ _ fs', only_entry d name fs fs' ∧ entry fs' d name = None)
    (λ e fs', (fs' = fs ∨ only_entry d name fs fs' ∧ entry fs' d name = None) ∧ fault md e).
Proof.
  intros name Hd Ho Hv. unfold _remove_source_fence.
  eapply runs_reads; [by apply (reads_source_fence fs d txid dg snap o)| |auto].
  destruct o as [v|]; cbn [fmap option_fmap option_map]; [|by apply runs_ret].
  assert (only_entry d name fs (set_entry d name None fs)) as Hone by by apply only_entry_set.
  assert (entry (set_entry d name None fs) d name = None) as Hnone
    by by rewrite entry_set, bool_decide_true.
  destruct Ho as [(f & Hf & _) _].
  apply runs_os_error_as, runs_bind, runs_unlink; [|by eexists|].
  - eapply runs_mono; [apply reads_fsync|..]; cbv beta.
    + by intros _ fs' [-> _].
    + intros e fs' [-> [[=]|He]]. split; [by right|by apply fault_as].
  - intros e He. split; [by left|]. apply fault_as. eauto with py_db.
Qed.
End WriteRecord.
