(* ===== verification/QuarantineState.v ===== *)
(** * QuarantineState: the abstract quarantine transaction and its concrete states

    [state] is what a transaction is, abstractly: which records exist, whether the fence stands
    and where the journal is; [step] is the abstract machine, and [inv] what its reachable states
    satisfy.  [holds fs t s] says that the file system is in abstract state [s] for transaction
    [t]: every record has its exact content, the withheld journal its exact bytes and inode, and
    a journal in place continues the intent's bytes. *)

From stdpp Require Import relations.
From S2P Require Import Prelude Effects Json JsonText Base64 Sha256 HostEvidence JournalFs HostEventSink Quarantine QuarantineRecovery JournalProofs SinkProofs RecordProofs.

Local Open Scope string_scope.

(** ** Suffixes *)

Lemma endswith_app q s : endswith q s = true ↔ ∃ p, s = p +:+ q.
Proof.
  unfold endswith. rewrite andb_true_iff, Nat.leb_le, String.eqb_eq. split.
  - intros [Hl Hs]. exists (String.substring 0 (String.length s - String.length q) s).
    pose proof (substring_split s (String.length s - String.length q) ltac:(lia)) as E.
    replace (String.length s - (String.length s - String.length q))%nat with (String.length q)
      in E by lia.
    by rewrite Hs in E.
  - intros [p ->]. rewrite str_length_app. split; [lia|].
    replace (String.length p + String.length q - String.length q)%nat with (String.length p)
      by lia.
    induction p as [|c p IH]; [by apply substring_0_all|]. exact IH.
Qed.

Lemma last_char p q a b :
  p +:+ String a EmptyString = q +:+ String b EmptyString → a = b.
Proof.
  revert q. induction p as [|c p IH]; intros [|d q] E; rewrite ?str_app_cons in E.
  - by injection E.
  - injection E as _ E. by destruct q.
  - injection E as _ E. by destruct p.
  - injection E as _ E. by eapply IH.
Qed.

(** ** The abstract machine *)

(** Where the journal is; [replaced] tells that another file took its name meanwhile. *)
Variant place := AtSource | Withheld (replaced : bool).

Record state := mkState {
  s_applied : bool;
  s_finalized : option (json * json);  (* receipt digest and process identity *)
  s_restored : option string;          (* the reason *)
  s_blocked : option string;           (* the reason *)
  s_fence : bool;
  s_place : place;
}.

Definition unsettled (s : state) : Prop :=
  s_finalized s = None ∧ s_restored s = None ∧ s_blocked s = None.

Definition with_fence (b : bool) (s : state) : state :=
  mkState (s_applied s) (s_finalized s) (s_restored s) (s_blocked s) b (s_place s).
Definition with_place (p : place) (s : state) : state :=
  mkState (s_applied s) (s_finalized s) (s_restored s) (s_blocked s) (s_fence s) p.
Definition with_applied (s : state) : state :=
  mkState true (s_finalized s) (s_restored s) (s_blocked s) (s_fence s) (s_place s).
Definition with_finalized (f : json * json) (s : state) : state :=
  mkState (s_applied s) (Some f) (s_restored s) (s_blocked s) (s_fence s) (s_place s).
Definition with_restored (reason : string) (s : state) : state :=
  mkState (s_applied s) (s_finalized s) (Some reason) (s_blocked s) (s_fence s) (s_place s).
Definition with_blocked (reason : string) (s : state) : state :=
  mkState (s_applied s) (s_finalized s) (s_restored s) (Some reason) (s_fence s) (s_place s).

Definition after_finalize : string := "source-replacement-after-finalize".

(** [wild] tells that system calls may fail: only then can a transaction be blocked without a
    replacement of its journal. *)
Inductive step (wild : bool) (s : state) : state → Prop :=
  | step_fence : unsettled s → s_place s = AtSource → step wild s (with_fence true s)
  | step_withhold : unsettled s → s_fence s = true → s_place s = AtSource →
      step wild s (with_place (Withheld false) s)
  | step_apply r : unsettled s → s_place s = Withheld r → step wild s (with_applied s)
  | step_return : unsettled s → s_place s = Withheld false → step wild s (with_place AtSource s)
  | step_unfence : unsettled s → s_place s = AtSource → step wild s (with_fence false s)
  | step_restore reason : unsettled s → s_place s = AtSource → s_fence s = false →
      step wild s (with_restored reason s)
  | step_finalize f : unsettled s → s_applied s = true → s_place s = Withheld false →
      step wild s (with_finalized f s)
  | step_block reason : unsettled s → wild = true ∨ s_place s = Withheld true →
      step wild s (with_blocked reason s)
  | step_block_finalized f : s_finalized s = Some f → s_blocked s = None →
      s_place s = Withheld true → step wild s (with_blocked after_finalize s).

Definition steps (wild : bool) : state → state → Prop := rtc (step wild).

(** What others may do: another file takes the name of a withheld journal. *)
Inductive env (s : state) : state → Prop :=
  | env_replace : s_place s = Withheld false → env s (with_place (Withheld true) s).

(** The intent is published, nothing else has happened. *)
Definition prepared : state := mkState false None None None false AtSource.

(** A withheld journal is fenced, and so it stays once finalized; a restored one is in place
    without a fence; no transaction is both finalized and restored. *)
Record inv (s : state) : Prop := {
  inv_withheld r : s_place s = Withheld r → s_fence s = true;
  inv_finalized f : s_finalized s = Some f →
    s_applied s = true ∧ s_restored s = None ∧ ∃ r, s_place s = Withheld r;
  inv_restored reason : s_restored s = Some reason →
    s_place s = AtSource ∧ s_fence s = false ∧ s_blocked s = None;
}.

Lemma inv_prepared : inv prepared.
Proof. by split. Qed.

Lemma inv_step wild s s' : step wild s s' → inv s → inv s'.
Proof.
  intros Hs [I1 I2 I3]. destruct Hs as [(U1 & U2 & U3) Hp|(U1 & U2 & U3) Hf Hp|r (U1 & U2 & U3) Hp
    |(U1 & U2 & U3) Hp|(U1 & U2 & U3) Hp|reason (U1 & U2 & U3) Hp Hf|f (U1 & U2 & U3) Ha Hp
    |reason (U1 & U2 & U3) _|f Hf Hb Hp];
    split; simpl; intros; simplify_eq; try congruence; eauto.
  destruct (I3 reason) as (K1 & K2 & K3); [done|]. congruence.
Qed.

Lemma inv_env s s' : env s s' → inv s → inv s'.
Proof.
  intros [Hp] [I1 I2 I3]. split; simpl; intros; simplify_eq; eauto.
  - destruct (I2 f) as (K1 & K2 & r & Hr); [done|]. eauto.
  - destruct (I3 reason) as (K1 & K2 & K3); [done|]. congruence.
Qed.

Lemma inv_steps wild s s' : steps wild s s' → inv s → inv s'.
Proof. induction 1; eauto using inv_step. Qed.

Lemma steps_wild wild s s' : steps wild s s' → steps true s s'.
Proof.
  intros H. induction H as [|s1 s2 s3 Hs _ IH]; [constructor|]. eapply rtc_l; [|done].
  destruct Hs; try (by econstructor; eauto).
Qed.

(** A settled transaction: restored, or finalized with its journal withheld. *)
Definition done_state (s : state) : Prop :=
  is_Some (s_restored s) ∨ is_Some (s_finalized s) ∧ s_blocked s = None ∧ s_place s = Withheld false.

(** Nothing more happens to it, whatever fails. *)
Lemma done_final wild s s' : inv s → done_state s → steps wild s s' → s' = s.
Proof.
  intros Hi Hd Hs. destruct Hs as [|s1 s2 s3 Hs _]; [done|]. exfalso.
  destruct Hd as [[r Hr]|([f Hf] & Hb & Hp)];
    destruct Hs as [(U1 & U2 & U3) |(U1 & U2 & U3) |r' (U1 & U2 & U3) |(U1 & U2 & U3) |(U1 & U2 & U3)
      |reason (U1 & U2 & U3) |f' (U1 & U2 & U3) |reason (U1 & U2 & U3) |f' Hf' Hb' Hp']; try congruence.
  by destruct (inv_finalized _ Hi f' Hf') as (_ & ? & _); congruence.
Qed.

(** Without failures nothing is blocked unless the journal was replaced. *)
Lemma steps_unblocked s s' :
  steps false s s' → s_blocked s = None → s_place s ≠ Withheld true →
  s_blocked s' = None ∧ s_place s' ≠ Withheld true.
Proof.
  induction 1 as [|s1 s2 s3 Hs _ IH]; [done|]. intros Hb Hp. apply IH; destruct Hs; simpl; try done;
    naive_solver.
Qed.

(** ** A concrete transaction *)

Section Transaction.
Context `{Sha256} `{!Sha256Laws} (eu : Z).
Context (sid qid : ident).

Record tx := mkTx {
  t_binding : json;
  t_snapshot : QuarantinedJournal;
}.

Definition t_id (t : tx) : string := quarantine_transaction_id (t_binding t).
Definition t_journal (t : tx) : string := journal (t_snapshot t).
Definition t_intent (t : tx) : json :=
  intent_value qid (t_id t) (t_binding t) sid (t_snapshot t).
Definition t_intent_digest (t : tx) : string := _digest (text (t_intent t)).
Definition t_applied (t : tx) : json :=
  applied_value (t_id t) (t_intent_digest t) (t_snapshot t).
Definition t_applied_digest (t : tx) (applied : bool) : option string :=
  if applied then Some (_digest (text (t_applied t))) else None.
Definition t_fence (t : tx) : json := _fence_value (t_id t) (t_intent_digest t) (t_snapshot t).
Definition t_fence_name (t : tx) : string := _quarantine_fence_name (t_journal t).
Definition t_finalized (t : tx) (f : json * json) : json :=
  finalized_value (t_id t) (t_intent_digest t) (_digest (text (t_applied t))) f.1 f.2.
Definition t_restored (t : tx) (applied : bool) (reason : string) : json :=
  terminal_value RESTORED_SCHEMA (t_id t) (t_intent_digest t) (t_applied_digest t applied) None
    reason.
Definition t_blocked (t : tx) (applied : bool) (f : option (json * json)) (reason : string)
    : json :=
  terminal_value BLOCKED_SCHEMA (t_id t) (t_intent_digest t) (t_applied_digest t applied)
    ((λ f, _digest (text (t_finalized t f))) <$> f) reason.

Definition t_record (t : tx) (stage : string) : string := record_name (t_id t) stage.

(** What makes a transaction one the program can have prepared: a snapshot of a journal with an
    acceptable name, and records within the size limit. *)
Record tx_ok (t : tx) : Prop := {
  ok_binding : keys_unique (t_binding t) = true;
  ok_name : journal_name_ok (t_journal t) = true;
  ok_scratch : scratch (t_journal t) = false;
  ok_device : device (t_snapshot t) = sid.1;
  ok_device_pos : (0 < sid.1)%Z;
  ok_inode : (0 < inode (t_snapshot t))%Z;
  ok_terminated : terminated (raw (t_snapshot t)) = true;
  ok_intent : fits (t_intent t);
  ok_applied : fits (t_applied t);
  ok_fence : fits (t_fence t);
  ok_restored applied reason : reason ∈ _RESTORE_REASONS → fits (t_restored t applied reason);
}.

Lemma t_id_ok t : txid_ok (t_id t).
Proof. split; [apply sha256_length|apply sha256_is_hex]. Qed.

(** A file that is the transaction's journal. *)
Record journal_file (t : tx) (f : file) : Prop := {
  jf_kind : f_kind f = Regular;
  jf_uid : f_uid f = eu;
  jf_inode : f_ino f = inode (t_snapshot t);
}.

Definition finalized_ok (f : json * json) : Prop :=
  _is_digest f.1 = true ∧ _valid_process_identity f.2 = true ∧ keys_unique f.2 = true.

Definition holds_place (fs : fsys) (t : tx) (p : place) : Prop :=
  match p with
  | AtSource =>
      entry fs qid (t_journal t) = None
      ∧ ∃ f, entry fs sid (t_journal t) = Some f ∧ journal_file t f
             ∧ String.prefix (raw (t_snapshot t)) (f_data f) = true
  | Withheld replaced =>
      (∃ f, entry fs qid (t_journal t) = Some f ∧ journal_file t f
            ∧ f_data f = raw (t_snapshot t))
      ∧ if replaced then is_Some (entry fs sid (t_journal t))
        else entry fs sid (t_journal t) = None
  end.

Record holds (fs : fsys) (t : tx) (s : state) : Prop := {
  h_intent : has_rec eu fs qid (t_record t "intent") (t_intent t);
  h_applied : rec_at eu fs qid (t_record t "applied")
    (if s_applied s then Some (t_applied t) else None);
  h_finalized : rec_at eu fs qid (t_record t "finalized") (t_finalized t <$> s_finalized s);
  h_finalized_ok f : s_finalized s = Some f → finalized_ok f;
  h_restored : rec_at eu fs qid (t_record t "restored")
    (t_restored t (s_applied s) <$> s_restored s);
  h_restored_ok reason : s_restored s = Some reason → reason ∈ _RESTORE_REASONS;
  h_blocked : rec_at eu fs qid (t_record t "blocked")
    (t_blocked t (s_applied s) (s_finalized s) <$> s_blocked s);
  h_blocked_ok reason : s_blocked s = Some reason → reason ∈ _BLOCK_REASONS
    ∧ (reason = after_finalize ↔ is_Some (s_finalized s));
  h_fence : rec_at eu fs sid (t_fence_name t) (if s_fence s then Some (t_fence t) else None);
  h_place : holds_place fs t (s_place s);
}.

(** ** Frames *)

(** The files of a transaction. *)
Definition owned (t : tx) (d : ident) (n : string) : Prop :=
  d = qid ∧ (n = t_journal t ∨ ∃ stage, stage ∈ stages ∧ n = t_record t stage)
  ∨ d = sid ∧ (n = t_journal t ∨ n = t_fence_name t).

(** Two transactions without a file in common. *)
Definition apart (t t' : tx) : Prop :=
  t_id t ≠ t_id t' ∧ t_journal t ≠ t_journal t' ∧ t_fence_name t ≠ t_fence_name t'.

(** The journal of a transaction, wherever it is. *)
Definition journal_at (fs : fsys) (t : tx) : option file :=
  match entry fs qid (t_journal t) with
  | Some f => Some f
  | None => entry fs sid (t_journal t)
  end.

(** Only files of [t] and scratch files may have changed; the journal is the file it was, byte
    for byte, wherever it is now. *)
Record touched (t : tx) (fs fs' : fsys) : Prop := {
  tc_layout : same_layout fs fs';
  tc_same d n : scratch n = false → ¬ owned t d n → entry fs' d n = entry fs d n;
  tc_temps : temps_ok eu fs → temps_ok eu fs';
  tc_journal : journal_at fs' t = journal_at fs t;
}.

#[global] Instance touched_preorder t : PreOrder (touched t).
Proof.
  split.
  - intros fs. by split.
  - intros f1 f2 f3 [L1 S1 T1 J1] [L2 S2 T2 J2]. split; [by etrans| |auto|congruence].
    intros d n Hn Ho. by rewrite S2, S1.
Qed.

Lemma journal_at_same fs fs' t :
  (∀ d, entry fs' d (t_journal t) = entry fs d (t_journal t)) →
  journal_at fs' t = journal_at fs t.
Proof. intros E. unfold journal_at. by rewrite !E. Qed.

Lemma quiet_touched t fs fs' :
  scratch (t_journal t) = false → quiet eu fs fs' → touched t fs fs'.
Proof. intros Hj [L S T]. split; auto. apply journal_at_same. auto. Qed.

Lemma wrote_touched t d name v fs fs' :
  scratch (t_journal t) = false → name ≠ t_journal t → owned t d name →
  wrote eu d name v fs fs' → touched t fs fs'.
Proof.
  intros Hj Hne Ho [L R S T _]. split; [done| |done|].
  - intros d' n Hn Hno. apply S; [|done]. by intros [-> ->].
  - apply journal_at_same. intros d'. apply S; [|done]. by intros [_ <-].
Qed.

Lemma owned_record t stage : stage ∈ stages → owned t qid (t_record t stage).
Proof. intros Hs. left. split; [done|]. right. by exists stage. Qed.

Lemma owned_fence t : owned t sid (t_fence_name t).
Proof. right. auto. Qed.

Lemma rec_at_same fs fs' d n o :
  entry fs' d n = entry fs d n → rec_at eu fs d n o → rec_at eu fs' d n o.
Proof. intros E. destruct o; simpl; [|by rewrite E]. unfold has_rec. by rewrite E. Qed.

(** [holds] looks at the transaction's files only. *)
Lemma holds_same fs fs' t s :
  (∀ d n, owned t d n → entry fs' d n = entry fs d n) → holds fs t s → holds fs' t s.
Proof.
  intros E [H1 H2 H3 H4 H5 H6 H7 H8 H9 H10].
  assert (∀ stage, stage ∈ stages → entry fs' qid (t_record t stage) = entry fs qid (t_record t stage))
    as Er by (intros; apply E; by apply owned_record).
  assert (∀ stage, bool_decide (stage ∈ stages) = true → stage ∈ stages) as Hst
    by (intros; by reflect).
  split; try done.
  - unfold has_rec. by rewrite Er by by apply Hst.
  - eapply rec_at_same; [by apply Er, Hst|done].
  - eapply rec_at_same; [by apply Er, Hst|done].
  - eapply rec_at_same; [by apply Er, Hst|done].
  - eapply rec_at_same; [by apply Er, Hst|done].
  - eapply rec_at_same; [apply E, owned_fence|done].
  - unfold holds_place in *. rewrite !(E qid (t_journal t)) by (left; auto).
    rewrite !(E sid (t_journal t)) by (right; auto). done.
Qed.

Lemma record_name_inj x y a b :
  txid_ok x → txid_ok y → record_name x a = record_name y b → x = y ∧ a = b.
Proof.
  intros [Hx _] [Hy _]. unfold record_name. intros E%str_app_inv_l.
  assert (∀ p q s t : string, String.length p = String.length q → p +:+ s = q +:+ t →
    p = q ∧ s = t) as Hsplit.
  { clear. induction p as [|c p IH]; intros [|d q] s t Hl E; simpl in Hl; try done.
    rewrite !str_app_cons in E. injection E as -> E. injection Hl as Hl.
    by destruct (IH _ _ _ Hl E) as [-> ->]. }
  apply Hsplit in E as [-> E]; [|congruence]. split; [done|].
  apply str_app_inv_l in E.
  assert (String.length a = String.length b) as Hl.
  { apply (f_equal String.length) in E. rewrite !str_length_app in E. lia. }
  by apply Hsplit in E as [-> _].
Qed.

(** A journal has neither the name of a record nor that of a fence. *)
Lemma jsonl_not_record t t' stage :
  journal_name_ok (t_journal t) = true → t_journal t ≠ t_record t' stage.
Proof.
  unfold journal_name_ok. intros [_ Hj]%andb_true_iff E. apply endswith_app in Hj as [p Hp].
  rewrite Hp in E. unfold t_record, record_name in E. rewrite !str_app_assoc in E.
  change ".json" with (".jso" +:+ "n") in E. change ".jsonl" with (".json" +:+ "l") in E.
  rewrite !str_app_assoc in E. by apply last_char in E.
Qed.

Lemma jsonl_not_fence t t' :
  journal_name_ok (t_journal t) = true → t_journal t ≠ t_fence_name t'.
Proof.
  unfold journal_name_ok. intros [_ Hj]%andb_true_iff E. apply endswith_app in Hj as [p Hp].
  rewrite Hp in E. unfold t_fence_name, _quarantine_fence_name in E.
  rewrite !str_app_assoc in E.
  change ".fence" with (".fenc" +:+ "e") in E. change ".jsonl" with (".json" +:+ "l") in E.
  rewrite !str_app_assoc in E. by apply last_char in E.
Qed.

Lemma t_record_inj t t' stage stage' :
  t_record t stage = t_record t' stage' → t_id t = t_id t' ∧ stage = stage'.
Proof. apply record_name_inj; apply t_id_ok. Qed.

End Transaction.
