(* ===== verification/RecordBounds.v ===== *)
(** * RecordBounds: the size of intent records

    A journal of the size the fault actuator accepts (512 KiB) always fits, base64-encoded, in
    an intent record below the 2 MiB limit, so preparing its quarantine never fails for size. *)

From S2P Require Import Prelude Effects Json JsonText Base64 Sha256 HostEvidence JournalFs HostEventSink Quarantine JournalProofs SinkProofs RecordProofs QuarantineState.

Local Open Scope string_scope.

(** [MAX_JOURNAL_BYTES] of formal_lifecycle_source.py. *)
Definition MAX_JOURNAL_BYTES : Z := 512 * 1024.

(** The length of the printed value. *)
Definition printed (v : json) : nat := String.length (dumps false v).

Fixpoint sum_nat (l : list nat) : nat := match l with [] => 0 | x :: l' => x + sum_nat l' end.

Lemma sum_nat_perm l k : l ≡ₚ k → sum_nat l = sum_nat k.
Proof. induction 1; simpl; lia. Qed.

Lemma concat_length l :
  (String.length (String.concat "," l) ≤ sum_nat (map String.length l) + length l)%nat.
Proof.
  induction l as [|x [|y l] IH]; [simpl; lia|simpl; lia|].
  change (String.concat "," (x :: y :: l)) with (x +:+ "," +:+ String.concat "," (y :: l)).
  rewrite !str_length_app. cbn [map sum_nat length String.length] in *. lia.
Qed.

Lemma escape_length b s : (String.length (escape b s) ≤ 6 * String.length s)%nat.
Proof.
  induction s as [|c s IH]; [done|]. cbn [escape String.length]. rewrite str_length_app.
  assert (String.length (escape_char b c) ≤ 6)%nat; [|lia].
  unfold escape_char, escape_u, escape_pair. repeat case_match; cbn [String.length]; lia.
Qed.

(** Printable ASCII other than the quote and the backslash is not escaped. *)
Lemma escape_plain s :
  string_forall (λ c, bool_decide (escape_char false c = String c EmptyString)) s = true →
  escape false s = s.
Proof.
  induction s as [|c s IH]; [done|]. cbn [string_forall escape]. intros Hs. reflect.
  rewrite H, IH by done. by rewrite str_app_cons.
Qed.

Lemma b64_char_plain n :
  (n < 64)%N → bool_decide (escape_char false (b64_char n) = String (b64_char n) EmptyString) = true.
Proof.
  intros Hn.
  assert (forallb (λ n, bool_decide (escape_char false (b64_char n) = String (b64_char n) EmptyString))
    (map N.of_nat (seq 0 64)) = true) as K by (vm_compute; reflexivity).
  rewrite forallb_forall in K. apply K, in_map_iff. exists (N.to_nat n).
  split; [lia|]. apply in_seq. lia.
Qed.

Lemma b64_plain s :
  string_forall (λ c, bool_decide (escape_char false c = String c EmptyString)) (b64encode s) = true.
Proof.
  assert (∀ a, N_of_ascii a / 4 < 64)%N as B0 by apply b64_first.
  assert (∀ a x, x < 16 → N_of_ascii a mod 4 * 16 + x < 64)%N as B1
    by (intros a x Hx; pose proof (N.mod_lt (N_of_ascii a) 4 ltac:(lia)); lia).
  assert (∀ a x, x < 4 → N_of_ascii a mod 16 * 4 + x < 64)%N as B2
    by (intros a x Hx; pose proof (N.mod_lt (N_of_ascii a) 16 ltac:(lia)); lia).
  assert (∀ a, N_of_ascii a mod 64 < 64)%N as B3 by (intros a; apply N.mod_lt; lia).
  assert (∀ b, N_of_ascii b / 16 < 16)%N as B4
    by (intros b; apply N.Div0.div_lt_upper_bound; pose proof (ascii_bound b); lia).
  assert (∀ b, N_of_ascii b / 64 < 4)%N as B5
    by (intros b; apply N.Div0.div_lt_upper_bound; pose proof (ascii_bound b); lia).
  induction s as [|a|a b|a b c r IH] using triples_ind; [done|..]; cbn [b64encode string_forall];
    rewrite ?b64_char_plain; auto; try lia.
  - pose proof (B1 a 0%N ltac:(lia)). by rewrite N.add_0_r in *.
  - pose proof (B2 b 0%N ltac:(lia)). by rewrite N.add_0_r in *.
Qed.

Lemma printed_obj kvs :
  (printed (JObj kvs)
   ≤ 2 + sum_nat (map (λ kv, 4 + 6 * String.length kv.1 + printed kv.2) kvs))%nat.
Proof.
  unfold printed at 1. cbn [dumps]. rewrite !str_length_app. cbn [String.length].
  set (l := map (λ kv : string * json, (kv.1, dumps false kv.2)) kvs).
  set (g := λ kv : string * string, print_str false kv.1 +:+ ":" +:+ kv.2).
  pose proof (concat_length (map g (sort_by fst str_leb l))) as K.
  assert (sum_nat (map String.length (map g (sort_by fst str_leb l)))
    + length (map g (sort_by fst str_leb l))
    = sum_nat (map (λ kv, S (String.length (g kv))) l))%nat as E.
  { assert (∀ k, sum_nat (map String.length (map g k)) + length (map g k)
      = sum_nat (map (λ kv, S (String.length (g kv))) k))%nat as Hk
      by (induction k; cbn [map sum_nat length]; lia).
    rewrite Hk. apply sum_nat_perm, Permutation_map, sort_by_perm. }
  assert (sum_nat (map (λ kv, S (String.length (g kv))) l)
    ≤ sum_nat (map (λ kv, 4 + 6 * String.length kv.1 + printed kv.2) kvs))%nat as Hle.
  { unfold l. clear. induction kvs as [|[k v] kvs IH]; [done|].
    cbn [map sum_nat fst snd] in *. unfold g at 1. cbn [fst snd].
    rewrite !str_length_app. cbn [print_str String.length]. rewrite str_length_app.
    cbn [String.length]. pose proof (escape_length false k). unfold printed at 1. lia. }
  lia.
Qed.

Lemma printed_str s : (printed (JStr s) ≤ 2 + 6 * String.length s)%nat.
Proof.
  unfold printed. cbn [dumps print_str String.length]. rewrite str_length_app.
  pose proof (escape_length false s). cbn [String.length]. lia.
Qed.

Lemma printed_base64 s :
  printed (JStr (b64encode s)) = (2 + 4 * ((String.length s + 2) / 3))%nat.
Proof.
  unfold printed. cbn [dumps print_str String.length]. rewrite str_length_app, escape_plain.
  - rewrite b64encode_length. cbn [String.length]. lia.
  - apply b64_plain.
Qed.

Lemma pretty_go_length k : ∀ x s,
  (x < 10 ^ N.of_nat k)%N → (String.length (pretty_N_go x s) ≤ k + String.length s)%nat.
Proof.
  induction k as [|k IH]; intros x s Hx.
  - assert (x = 0)%N as -> by (change (10 ^ N.of_nat 0)%N with 1%N in Hx; lia).
    rewrite pretty_N_go_0. lia.
  - destruct (decide (x = 0)%N) as [->|Hne]; [rewrite pretty_N_go_0; lia|].
    rewrite pretty_N_go_step by lia.
    etrans; [apply IH|cbn [String.length]; lia].
    apply N.Div0.div_lt_upper_bound. rewrite <-N.pow_succ_r'.
    by replace (N.succ (N.of_nat k)) with (N.of_nat (S k)) by lia.
Qed.

(** A 64-bit number has at most 20 digits. *)
Lemma printed_int z : (0 ≤ z < 2 ^ 64)%Z → (printed (JInt z) ≤ 20)%nat.
Proof.
  intros Hz. unfold printed. cbn [dumps]. unfold z_str, pretty, pretty_Z.
  destruct z as [|p|p]; [vm_compute; lia| |lia].
  unfold pretty, pretty_positive, pretty, pretty_N. rewrite decide_False by done.
  etrans; [apply (pretty_go_length 20)|cbn [String.length]; lia].
  assert (N.pos p < 2 ^ 64)%N as Hp by lia. etrans; [exact Hp|]. vm_compute. reflexivity.
Qed.

Lemma utf8_length s : (String.length (utf8 s) ≤ 2 * String.length s)%nat.
Proof.
  induction s as [|c s IH]; [done|]. cbn [utf8]. case_match; cbn [String.length]; lia.
Qed.

Section Bounds.
Context `{Sha256} `{!Sha256Laws}.

Definition word (z : Z) : Prop := (0 ≤ z < 2 ^ 64)%Z.

(** C36. Every journal the fault actuator accepts fits in an intent record: up to 512 KiB of
    journal, base64-encoded, with a binding of up to 300,000 printed characters and a file name
    of up to 255 bytes stay below the 2 MiB record limit, so the size check of [_write_record]
    never stops [prepare_quarantine_transaction]. *)
Theorem intent_fits sid qid t :
  keys_unique (t_binding t) = true →
  (Z.of_nat (String.length (raw (t_snapshot t))) ≤ MAX_JOURNAL_BYTES)%Z →
  (Z.of_nat (printed (t_binding t)) ≤ 300000)%Z →
  (Z.of_nat (String.length (t_journal t)) ≤ 255)%Z →
  word sid.1 → word sid.2 → word qid.1 → word qid.2 →
  word (device (t_snapshot t)) → word (inode (t_snapshot t)) →
  fits (t_intent sid qid t).
Proof.
  intros Hkeys Hraw Hbind Hname D1 D2 D3 D4 D5 D6. split.
  - by eexists.
  - unfold t_intent, intent_value. cbn [keys_unique map keys fst snd forallb].
    rewrite Hkeys. by rewrite bool_decide_true by (apply (proj1 (bool_decide_eq_true _)); by vm_compute).
  - unfold text, canonical_bytes. rewrite str_length_app.
    pose proof (utf8_length (dumps false (t_intent sid qid t))) as Hu.
    change (String.length newline) with 1%nat.
    change (String.length (dumps false (t_intent sid qid t))) with (printed (t_intent sid qid t)) in Hu.
    unfold MAX_TRANSACTION_RECORD_BYTES.
    enough (Z.of_nat (printed (t_intent sid qid t)) ≤ 1048575)%Z by lia.
    assert (∀ d, word d.1 → word d.2 → printed (_directory_value d) ≤ 200)%nat as Hdir.
    { intros d K1 K2. unfold _directory_value. etrans; [apply printed_obj|].
      cbn [map sum_nat fst snd String.length].
      pose proof (printed_int _ K1). pose proof (printed_int _ K2). lia. }
    assert (∀ s, String.length (_digest s) = 71%nat) as Hdig.
    { intros s. unfold _digest. rewrite str_length_app, sha256_length. done. }
    assert (String.length (t_id t) = 64%nat) as Hid by apply sha256_length.
    assert (Z.of_nat (printed (JStr (b64encode (raw (t_snapshot t))))) ≤ 699054)%Z as Hb.
    { rewrite printed_base64. unfold MAX_JOURNAL_BYTES in Hraw.
      pose proof (Nat.Div0.mul_div_le (String.length (raw (t_snapshot t)) + 2) 3). lia. }
    assert (∀ s k, String.length s = k → printed (JStr s) ≤ 2 + 6 * k)%nat as Hstr
      by (intros s k <-; apply printed_str).
    pose proof (Hdir sid D1 D2) as E1. pose proof (Hdir qid D3 D4) as E2.
    pose proof (Hstr _ _ Hid) as E3. pose proof (printed_str (journal (t_snapshot t))) as E4.
    pose proof (Hstr _ _ (Hdig (raw (t_snapshot t)))) as E5.
    pose proof (printed_int _ D5) as E6. pose proof (printed_int _ D6) as E7.
    assert (printed (JInt (Z.of_nat (String.length (raw (t_snapshot t))))) ≤ 20)%nat as E8
      by (apply printed_int; unfold MAX_JOURNAL_BYTES in Hraw; lia).
    pose proof (printed_str INTENT_SCHEMA) as E9. unfold t_journal in Hname.
    pose proof (printed_obj (members_of (t_intent sid qid t))) as E.
    change (JObj (members_of (t_intent sid qid t))) with (t_intent sid qid t) in E.
    unfold t_intent at 2 in E. cbn [members_of intent_value map sum_nat fst snd] in E.
    cbn [String.length] in E, E9. change (String.length INTENT_SCHEMA) with 25%nat in E9. lia.
Qed.
End Bounds.
