(* ===== verification/QuarantineSteps.v ===== *)
(** * QuarantineSteps: the records of a transaction are accepted when they are read back

    Each validator of quarantine_transaction.py accepts the records the transaction wrote, for
    the transaction they belong to. *)

From stdpp Require Import relations.
From S2P Require Import Prelude Effects Json JsonText Base64 Sha256 HostEvidence JournalFs HostEventSink Quarantine QuarantineRecovery JournalProofs SinkProofs RecordProofs QuarantineState.

Local Open Scope string_scope.

(** ** Values read back *)

Lemma get_norm k kvs :
  NoDup (keys kvs) → get k (members_of (norm (JObj kvs))) = norm (get k kvs).
Proof.
  intros Hnd. destruct (norm (JObj kvs)) as [| | | | |l] eqn:E; try by rewrite norm_obj in E.
  cbn [members_of]. unfold get. rewrite (assoc_norm k kvs l Hnd E).
  by destruct (assoc k kvs).
Qed.

Lemma same_keys_norm fs kvs :
  same_keys fs (members_of (norm (JObj kvs))) = same_keys fs kvs.
Proof.
  destruct (norm (JObj kvs)) as [| | | | |l] eqn:E; try by rewrite norm_obj in E.
  apply same_keys_perm. by eapply keys_norm.
Qed.

Lemma has_fields_norm fs v : has_fields fs (norm v) = has_fields fs v.
Proof.
  destruct v as [| | | | |kvs]; try done. pose proof (same_keys_norm fs kvs) as H.
  destruct (norm (JObj kvs)) as [| | | | |l] eqn:E; by rewrite norm_obj in E || exact H.
Qed.

Lemma py_eqb_str s : py_eqb (JStr s) (JStr s) = true.
Proof. apply String.eqb_refl. Qed.

Lemma py_eqb_int z : py_eqb (JInt z) (JInt z) = true.
Proof. apply Z.eqb_refl. Qed.

Lemma valid_identity_norm v :
  keys_unique v = true → _valid_process_identity v = true →
  _valid_process_identity (norm v) = true.
Proof.
  destruct v as [| | | | |kvs]; try done. intros Hu Hv. cbn [keys_unique] in Hu.
  apply andb_true_iff in Hu as [Hu _]. reflect.
  pose proof (same_keys_norm ["pid"; "start_ticks"; "argv"; "executable_device"; "executable_inode"]
    kvs) as Hk.
  assert (∀ k, get k (members_of (norm (JObj kvs))) = norm (get k kvs)) as Hg
    by (intros; by apply get_norm).
  destruct (norm (JObj kvs)) as [| | | | |l] eqn:E; try by rewrite norm_obj in E.
  cbn [members_of] in *. unfold _valid_process_identity in *. rewrite Hk.
  apply andb_true_iff in Hv as [Hv Ha]. apply andb_true_iff in Hv as [-> Hp]. simpl.
  apply andb_true_iff. split.
  - cbn [forallb] in *. rewrite !Hg. reflect.
    assert (∀ v, positive_int (norm v) = positive_int v) as Hpos.
    { intros v. destruct v as [| | | | |kvs']; done. }
    rewrite !Hpos. by repeat (apply andb_true_iff; split).
  - rewrite Hg. destruct (get "argv" kvs) as [| | | |[|x a]|]; try done.
    cbn [norm map forallb] in *. reflect.
    assert (∀ y, match y with JStr s => negb (s =? EmptyString) | _ => false end = true →
      match norm y with JStr s => negb (s =? EmptyString) | _ => false end = true) as Hn
      by (intros []; done).
    apply andb_true_iff. split; [by apply Hn|]. rewrite forallb_forall in *.
    intros y (z & <- & Hz)%in_map_iff. by apply Hn, H0.
Qed.

Section Values.
Context `{Sha256} `{!Sha256Laws} (eu : Z) (sid qid : ident).
Abbreviation t_intent := (t_intent sid qid).
Abbreviation t_applied := (t_applied sid qid).
Abbreviation t_intent_digest := (t_intent_digest sid qid).
Abbreviation t_finalized := (t_finalized sid qid).
Abbreviation t_restored := (t_restored sid qid).
Abbreviation t_blocked := (t_blocked sid qid).
Abbreviation tx_ok := (tx_ok sid qid).

Definition rec_intent (t : tx) := rec_of (t_record t "intent") (t_intent t).
Definition rec_applied (t : tx) := rec_of (t_record t "applied") (t_applied t).

Lemma nodup_dec (l : list string) : bool_decide (NoDup l) = true → NoDup l.
Proof. intros. by reflect. Qed.

Ltac read_fields := rewrite !get_norm by (apply nodup_dec; vm_compute; reflexivity).

Lemma stage_ok stage : bool_decide (stage ∈ stages) = true → stage ∈ stages.
Proof. intros. by reflect. Qed.

Lemma t_record_ok t stage :
  bool_decide (stage ∈ stages) = true → _record_name (t_id t) stage = Ok (t_record t stage).
Proof. intros Hs. apply record_name_ok; [apply t_id_ok|by apply stage_ok]. Qed.

Lemma directory_value_eq d : py_eqb (norm (_directory_value d)) (_directory_value d) = true.
Proof. by apply py_eqb_norm. Qed.

Lemma intent_snapshot t :
  tx_ok t → _intent_snapshot (rec_intent t) (t_id t) = Ok (t_snapshot t).
Proof.
  intros [K1 K2 K3 K4 K5 K6 K7 K8 K9 K10 K11].
  set (kvs := members_of (t_intent t)).
  assert (t_intent t = JObj kvs) as Ek by done.
  assert (NoDup (keys kvs)) as Hnd by (apply nodup_dec; by vm_compute).
  unfold _intent_snapshot, rec_intent. cbn [rec_of r_value r_name]. rewrite Ek.
  destruct (norm (JObj kvs)) as [| | | | |l] eqn:El; try by rewrite norm_obj in El.
  cbn [members_of].
  assert (∀ k, assoc k l = norm <$> assoc k kvs) as Ha by (intros; by eapply assoc_norm).
  assert (∀ k, get k l = norm (get k kvs)) as Hg.
  { intros k. pose proof (get_norm k kvs Hnd) as Hk. by rewrite El in Hk. }
  unfold snapshot_items. rewrite !Ha.
  change (assoc "journal_base64" kvs) with (Some (JStr (b64encode (raw (t_snapshot t))))).
  change (assoc "journal" kvs) with (Some (JStr (journal (t_snapshot t)))).
  change (assoc "journal_device" kvs) with (Some (JInt (device (t_snapshot t)))).
  change (assoc "journal_inode" kvs) with (Some (JInt (inode (t_snapshot t)))).
  change (assoc "binding" kvs) with (Some (t_binding t)).
  cbn [fmap option_fmap option_map mbind option_bind norm from_option id].
  rewrite b64decode_encode. cbn [mbind option_bind].
  assert (same_keys _INTENT_FIELDS l = true) as ->.
  { rewrite (same_keys_perm _ l kvs) by by eapply keys_norm. by vm_compute. }
  rewrite !Hg.
  change (get "schema" kvs) with (JStr INTENT_SCHEMA).
  change (get "transaction_id" kvs) with (JStr (t_id t)).
  change (get "journal_bytes" kvs) with (JInt (Z.of_nat (String.length (raw (t_snapshot t))))).
  change (get "journal_sha256" kvs) with (JStr (_digest (raw (t_snapshot t)))).
  change (get "source_directory" kvs) with (_directory_value sid).
  change (get "quarantine_directory" kvs) with (_directory_value qid).
  cbn [norm]. rewrite !py_eqb_str, py_eqb_int. cbn [andb check mbind result_bind].
  rewrite t_record_ok by done. cbn [mbind result_bind].
  rewrite !has_fields_norm.
  assert (quarantine_transaction_id (norm (t_binding t)) = t_id t) as ->.
  { unfold t_id, quarantine_transaction_id. by rewrite canonical_bytes_norm. }
  unfold journal_name_ok, t_journal in K2. apply andb_true_iff in K2 as [-> ->].
  rewrite K4, (proj2 (Z.ltb_lt _ _)), (proj2 (Z.ltb_lt _ _)), !String.eqb_refl by lia.
  cbn [andb]. change (has_fields ["device"; "inode"] (_directory_value sid)) with true.
  change (has_fields ["device"; "inode"] (_directory_value qid)) with true.
  cbn [andb check mbind result_bind]. rewrite <-K4. by destruct (t_snapshot t).
Qed.

Lemma validate_applied t :
  _validate_applied (rec_applied t) (t_id t) (rec_intent t) (t_snapshot t) = Ok tt.
Proof.
  unfold _validate_applied, rec_applied. cbn [rec_of r_value r_name].
  unfold QuarantineState.t_applied, applied_value. rewrite same_keys_norm.
  change (same_keys _APPLIED_FIELDS _) with true. cbn [check mbind result_bind].
  rewrite t_record_ok by done. cbn [mbind result_bind]. read_fields.
  cbn [get assoc String.eqb Ascii.eqb Bool.eqb from_option id norm].
  rewrite String.eqb_refl. cbn [get assoc norm from_option id].
  repeat (rewrite py_eqb_str || rewrite py_eqb_int). done.
Qed.

Lemma py_eqb_option (o : option string) : py_eqb (norm (to_json o)) (to_json o) = true.
Proof. destruct o; [apply py_eqb_str|done]. Qed.

(** A restored or blocked record satisfies its validator. *)
Lemma validate_terminal t schema stage ad fd reason :
  bool_decide (stage ∈ stages) = true →
  reason ∈ (if schema =? RESTORED_SCHEMA then _RESTORE_REASONS else _BLOCK_REASONS) →
  (schema = BLOCKED_SCHEMA → reason = after_finalize ↔ is_Some fd) →
  _validate_terminal
    (rec_of (t_record t stage) (terminal_value schema (t_id t) (t_intent_digest t) ad fd reason))
    (t_id t) schema stage (t_intent_digest t) ad fd = Ok tt.
Proof.
  intros Hs Hr Hb. unfold _validate_terminal. cbn [rec_of r_value r_name].
  unfold terminal_value. rewrite same_keys_norm.
  change (same_keys _TERMINAL_FIELDS _) with true. cbn [check mbind result_bind].
  rewrite t_record_ok by done. cbn [mbind result_bind]. read_fields.
  cbn [get assoc String.eqb Ascii.eqb Bool.eqb from_option id norm].
  unfold get. cbn [assoc String.eqb Ascii.eqb Bool.eqb from_option id].
  rewrite !String.eqb_refl, !py_eqb_option.
  cbn [norm]. rewrite !py_eqb_str. cbn [andb check mbind result_bind in_set].
  rewrite bool_decide_true by done. cbn [check mbind result_bind].
  destruct (String.eqb_spec schema BLOCKED_SCHEMA) as [E|]; [|done]. cbn [negb orb].
  specialize (Hb E). cbn [py_eqb]. fold after_finalize.
  destruct (String.eqb_spec reason after_finalize) as [E2|E2], fd as [d|]; try done.
  - by destruct (proj1 Hb E2).
  - destruct E2. apply Hb. by eexists.
Qed.

Lemma validate_finalized t f :
  finalized_ok f →
  _validate_finalized (rec_of (t_record t "finalized") (t_finalized t f)) (t_id t)
    (t_intent_digest t) (r_digest (rec_applied t)) = Ok tt.
Proof.
  intros (F1 & F2 & F3). unfold _validate_finalized. cbn [rec_of r_value r_name].
  unfold QuarantineState.t_finalized, finalized_value. rewrite same_keys_norm.
  change (same_keys _FINALIZED_FIELDS _) with true. cbn [check mbind result_bind].
  rewrite t_record_ok by done. cbn [mbind result_bind]. read_fields.
  unfold get. cbn [assoc String.eqb Ascii.eqb Bool.eqb from_option id].
  rewrite valid_identity_norm by done. cbn [norm]. rewrite !String.eqb_refl, !py_eqb_str.
  destruct f.1; try done. cbn [norm]. by rewrite F1.
Qed.
End Values.
