(* ===== verification/QuarantinePaths.v ===== *)
(** * QuarantinePaths: each operation is a path of the abstract machine

    Each operation of Quarantine.v and QuarantineRecovery.v, run under any faults from a file
    system in abstract state [s], ends (returning or raising) in one whose abstract state is
    reached from [s] by [steps], having touched only the transaction's own files; without faults
    it returns. *)

From stdpp Require Import relations.
From S2P Require Import Prelude Effects Json JsonText Base64 Sha256 HostEvidence JournalFs HostEventSink Quarantine QuarantineRecovery JournalProofs SinkProofs RecordProofs QuarantineState QuarantineSteps.

Local Open Scope string_scope.

Section Updates.
Context `{Sha256} `{!Sha256Laws} (eu : Z) (sid qid : ident).
Context (Hids : sid ≠ qid).
Abbreviation tx_ok := (tx_ok sid qid).
Abbreviation holds := (holds eu sid qid).
Abbreviation touched := (touched eu sid qid).

Lemma t_record_ne t a b : a ≠ b → t_record t a ≠ t_record t b.
Proof. intros Hne E. by destruct (t_record_inj t t a b E). Qed.

Lemma owned_scratch t d n : tx_ok t → owned sid qid t d n → scratch n = false.
Proof.
  intros Ht [[_ [->|(stage & _ & ->)]]|[_ [-> | ->]]]; [apply Ht|done|apply Ht|done].
Qed.

Lemma holds_quiet fs fs' t s : tx_ok t → quiet eu fs fs' → holds fs t s → holds fs' t s.
Proof.
  intros Ht Hq. apply holds_same. intros d n Ho. apply Hq. by eapply owned_scratch.
Qed.

(** All files of the transaction but one are as they were. *)
Definition all_but (t : tx) (d : ident) (name : string) (fs fs' : fsys) : Prop :=
  ∀ d' n, owned sid qid t d' n → ¬ (d' = d ∧ n = name) → entry fs' d' n = entry fs d' n.

Lemma wrote_all_but t d name v fs fs' :
  tx_ok t → wrote eu d name v fs fs' → all_but t d name fs fs'.
Proof. intros Ht Hw d' n Ho Hne. apply Hw; [done|]. by eapply owned_scratch. Qed.

Lemma all_but_record t d name fs fs' stage :
  all_but t d name fs fs' → bool_decide (stage ∈ stages) = true →
  ¬ (d = qid ∧ name = t_record t stage) →
  entry fs' qid (t_record t stage) = entry fs qid (t_record t stage).
Proof.
  intros Hb Hs Hne. apply Hb; [apply owned_record; by reflect|].
  intros [E1 E2]. by apply Hne.
Qed.

Lemma all_but_journal t name fs fs' d :
  tx_ok t → all_but t d name fs fs' → name ≠ t_journal t →
  entry fs' qid (t_journal t) = entry fs qid (t_journal t)
  ∧ entry fs' sid (t_journal t) = entry fs sid (t_journal t).
Proof.
  intros Ht Hb Hne. split; apply Hb; try (intros [_ E]; by rewrite E in Hne); [left|right]; auto.
Qed.

Lemma all_but_fence t d name fs fs' :
  all_but t d name fs fs' → ¬ (d = sid ∧ name = t_fence_name t) →
  entry fs' sid (t_fence_name t) = entry fs sid (t_fence_name t).
Proof. intros Hb Hne. apply Hb; [apply owned_fence|]. intros [E1 E2]. by apply Hne. Qed.

Lemma place_same t fs fs' p :
  entry fs' qid (t_journal t) = entry fs qid (t_journal t) →
  entry fs' sid (t_journal t) = entry fs sid (t_journal t) →
  holds_place eu sid qid fs t p → holds_place eu sid qid fs' t p.
Proof. intros E1 E2. unfold holds_place. by rewrite E1, E2. Qed.

(** A record of the quarantine directory changed from [o] to what [rec_at] now says; the rest of
    the state is as it was. *)
Lemma holds_record t s s' stage fs fs' :
  tx_ok t → stage ∈ stages → stage ≠ "intent" → holds fs t s →
  all_but t qid (t_record t stage) fs fs' →
  s_fence s' = s_fence s → s_place s' = s_place s →
  (stage ≠ "applied" → s_applied s' = s_applied s) →
  (stage = "applied" → s_restored s = None ∧ s_blocked s = None
     ∧ rec_at eu fs' qid (t_record t "applied")
         (if s_applied s' then Some (t_applied sid qid t) else None)) →
  (stage ≠ "finalized" → s_finalized s' = s_finalized s) →
  (stage = "finalized" → s_blocked s = None
     ∧ rec_at eu fs' qid (t_record t "finalized") (t_finalized sid qid t <$> s_finalized s')
     ∧ ∀ f, s_finalized s' = Some f → finalized_ok f) →
  (stage ≠ "restored" → s_restored s' = s_restored s) →
  (stage = "restored" →
     rec_at eu fs' qid (t_record t "restored")
       (t_restored sid qid t (s_applied s') <$> s_restored s')
     ∧ ∀ r, s_restored s' = Some r → r ∈ _RESTORE_REASONS) →
  (stage ≠ "blocked" → s_blocked s' = s_blocked s) →
  (stage = "blocked" →
     rec_at eu fs' qid (t_record t "blocked")
       (t_blocked sid qid t (s_applied s') (s_finalized s') <$> s_blocked s')
     ∧ ∀ r, s_blocked s' = Some r → r ∈ _BLOCK_REASONS
         ∧ (r = after_finalize ↔ is_Some (s_finalized s'))) →
  holds fs' t s'.
Proof.
  intros Ht Hst Hi Hh Hb Ef Ep Na Ya Nf Yf Nr Yr Nb Yb.
  destruct Hh as [H1 H2 H3 H4 H5 H6 H7 H8 H9 H10].
  assert (∀ st, bool_decide (st ∈ stages) = true → st ≠ stage →
    entry fs' qid (t_record t st) = entry fs qid (t_record t st)) as Hsame.
  { intros st Hst' Hne. apply Hb; [apply owned_record; by reflect|]. intros [_ E].
    by apply t_record_ne in E. }
  destruct (all_but_journal t (t_record t stage) fs fs' qid Ht Hb) as [J1 J2].
  { intros E. symmetry in E. by apply jsonl_not_record in E; [|apply Ht]. }
  split.
  - unfold has_rec. by rewrite Hsame.
  - destruct (decide (stage = "applied")); [by apply Ya|]. rewrite Na by done.
    by eapply rec_at_same; [apply Hsame|].
  - destruct (decide (stage = "finalized")); [by apply Yf|]. rewrite Nf by done.
    by eapply rec_at_same; [apply Hsame|].
  - destruct (decide (stage = "finalized")); [by apply Yf|]. by rewrite Nf.
  - destruct (decide (stage = "restored")); [by apply Yr|]. rewrite Nr by done.
    replace (t_restored sid qid t (s_applied s') <$> s_restored s)
      with (t_restored sid qid t (s_applied s) <$> s_restored s).
    { by eapply rec_at_same; [apply Hsame|]. }
    destruct (decide (stage = "applied")) as [E|E]; [by destruct (Ya E) as (-> & _)|].
    by rewrite Na.
  - destruct (decide (stage = "restored")); [by apply Yr|]. by rewrite Nr.
  - destruct (decide (stage = "blocked")); [by apply Yb|]. rewrite Nb by done.
    replace (t_blocked sid qid t (s_applied s') (s_finalized s') <$> s_blocked s)
      with (t_blocked sid qid t (s_applied s) (s_finalized s) <$> s_blocked s).
    { by eapply rec_at_same; [apply Hsame|]. }
    destruct (decide (stage = "applied")) as [E|E]; [by destruct (Ya E) as (_ & -> & _)|].
    rewrite Na by done.
    destruct (decide (stage = "finalized")) as [E2|E2]; [by destruct (Yf E2) as (-> & _)|].
    by rewrite Nf.
  - destruct (decide (stage = "blocked")); [by apply Yb|]. rewrite Nb by done.
    destruct (decide (stage = "finalized")) as [E2|E2]; [by destruct (Yf E2) as (-> & _)|].
    by rewrite Nf.
  - rewrite Ef. eapply rec_at_same; [|done]. eapply all_but_fence; [done|].
    intros [E _]. by apply Hids.
  - rewrite Ep. by eapply place_same.
Qed.

(** The fence went up or down. *)
Lemma holds_fence t s (b : bool) fs fs' :
  tx_ok t → holds fs t s → all_but t sid (t_fence_name t) fs fs' →
  rec_at eu fs' sid (t_fence_name t) (if b then Some (t_fence sid qid t) else None) →
  holds fs' t (with_fence b s).
Proof.
  intros Ht [H1 H2 H3 H4 H5 H6 H7 H8 H9 H10] Hb Hr.
  destruct (all_but_journal t (t_fence_name t) fs fs' sid Ht Hb) as [J1 J2].
  { intros E. symmetry in E. by apply jsonl_not_fence in E; [|apply Ht]. }
  assert (∀ st, bool_decide (st ∈ stages) = true →
    entry fs' qid (t_record t st) = entry fs qid (t_record t st)) as Hsame.
  { intros st Hst. eapply all_but_record; [done..|]. by intros [? _]. }
  split; cbn [with_fence s_applied s_finalized s_restored s_blocked s_fence s_place]; try done;
    try (by eapply rec_at_same; [apply Hsame|]).
  - unfold has_rec. by rewrite Hsame.
  - by eapply place_same.
Qed.

(** The journal moved. *)
Lemma holds_moved t s p fs fs' :
  tx_ok t → holds fs t s →
  (∀ d n, owned sid qid t d n → n ≠ t_journal t → entry fs' d n = entry fs d n) →
  holds_place eu sid qid fs' t p → holds fs' t (with_place p s).
Proof.
  intros Ht [H1 H2 H3 H4 H5 H6 H7 H8 H9 H10] Hb Hp.
  assert (∀ st, bool_decide (st ∈ stages) = true →
    entry fs' qid (t_record t st) = entry fs qid (t_record t st)) as Hsame.
  { intros st Hst. apply Hb; [apply owned_record; by reflect|]. intros E. symmetry in E.
    by apply jsonl_not_record in E; [|apply Ht]. }
  split; cbn [with_place s_applied s_finalized s_restored s_blocked s_fence s_place]; try done;
    try (by eapply rec_at_same; [apply Hsame|]).
  - unfold has_rec. by rewrite Hsame.
  - eapply rec_at_same; [|done]. apply Hb; [apply owned_fence|]. intros E. symmetry in E.
    by apply jsonl_not_fence in E; [|apply Ht].
Qed.
End Updates.

Section Operations.
Context `{Sha256} `{!Sha256Laws} `{Entropy} `{!EntropyLaws} (md : mode) (eu : Z).
Context (S Q : string) (sid qid : ident) (max_bytes : Z).
Context (Hids : sid ≠ qid) (Hdev : sid.1 = qid.1) (Hpaths : S ≠ Q) (Hmax : (0 < max_bytes)%Z).
Abbreviation tx_ok := (tx_ok sid qid).
Abbreviation holds := (holds eu sid qid).
Abbreviation touched := (touched eu sid qid).
Abbreviation runs := (JournalProofs.runs md eu).
Abbreviation reads := (JournalProofs.reads md eu).
Abbreviation t_intent_digest := (t_intent_digest sid qid).
Abbreviation t_applied_digest := (t_applied_digest sid qid).
Abbreviation rec_intent := (rec_intent sid qid).
Abbreviation rec_applied := (rec_applied sid qid).

Definition wild : bool := match md with Wild => true | _ => false end.
Abbreviation steps := (QuarantineState.steps wild).
Abbreviation step := (QuarantineState.step wild).

(** The two journal roots are open. *)
Definition roots (fs : fsys) : Prop := root_ok eu fs S sid ∧ root_ok eu fs Q qid.

Lemma roots_layout fs fs' : same_layout fs fs' → roots fs → roots fs'.
Proof. intros L [? ?]. split; by eapply root_ok_layout. Qed.

Lemma touched_roots t fs fs' : touched t fs fs' → roots fs → roots fs'.
Proof. intros [L _ _ _]. by apply roots_layout. Qed.

(** The journal of the transaction is small enough to be read again. *)
Definition sized (t : tx) : Prop :=
  tx_ok t ∧ (Z.of_nat (String.length (raw (t_snapshot t))) ≤ max_bytes)%Z.

(** The file system is now in an abstract state reached from [s]. *)
Definition path (t : tx) (s : state) (fs fs' : fsys) : Prop :=
  ∃ s', steps s s' ∧ holds fs' t s' ∧ touched t fs fs'.

Lemma path_refl t s fs : holds fs t s → path t s fs fs.
Proof. intros Hh. exists s. split; [constructor|]. by split. Qed.

Lemma path_quiet t s fs fs' : tx_ok t → holds fs t s → quiet eu fs fs' → path t s fs fs'.
Proof.
  intros Ht Hh Hq. exists s. split; [constructor|]. split; [by eapply holds_quiet|].
  by apply quiet_touched; [apply Ht|].
Qed.

Lemma path_step t s s' fs fs' fs'' :
  steps s s' → touched t fs fs' → path t s' fs' fs'' → path t s fs fs''.
Proof.
  intros Hs Ht (s'' & Hs' & Hh & Ht'). exists s''. split; [by etrans|]. split; [done|].
  by etrans.
Qed.

Lemma wrote_record_touched t stage v fs fs' :
  tx_ok t → stage ∈ stages → wrote eu qid (t_record t stage) v fs fs' → touched t fs fs'.
Proof.
  intros Ht Hst. apply wrote_touched; [apply Ht| |by apply owned_record].
  intros E. symmetry in E. by apply jsonl_not_record in E; [|apply Ht].
Qed.

(** No temporaries are left where the next ones will be written. *)
Definition no_temps (fs : fsys) : Prop :=
  clear sid FENCE_TEMP_PREFIX fs ∧ clear qid TRANSACTION_TEMP_PREFIX fs.

Lemma wrote_no_temps d name v fs fs' : wrote eu d name v fs fs' → no_temps fs → no_temps fs'.
Proof. intros Hw [? ?]. split; apply Hw; try done; [by right|by left]. Qed.

Lemma same_no_temps fs fs' :
  (∀ d n, is_temp n = true → entry fs' d n = entry fs d n) → no_temps fs → no_temps fs'.
Proof.
  intros E [K1 K2]. split; intros n Hn.
  - rewrite E; [by apply K1|]. by eapply prefix_temp; [right|].
  - rewrite E; [by apply K2|]. by eapply prefix_temp; [left|].
Qed.

(** Writing one more record of the transaction. *)
Lemma runs_write_step fs t s s' stage v :
  roots fs → tx_ok t → holds fs t s → stage ∈ stages →
  rec_at eu fs qid (t_record t stage) None →
  (∃ kvs, v = JObj kvs) → keys_unique v = true → step s s' →
  (∀ fs', fits v → wrote eu qid (t_record t stage) v fs fs' → holds fs' t s') →
  runs fs (_write_record Q qid (t_id t) stage v)
    (λ r fs', r = rec_of (t_record t stage) v ∧ fits v ∧ holds fs' t s' ∧ touched t fs fs'
              ∧ (no_temps fs → no_temps fs'))
    (λ e fs', path t s fs fs' ∧ (fault md e ∨ ¬ no_temps fs ∨ ¬ fits v)).
Proof.
  intros [_ Hroot] Ht Hh Hst Hnone Hobj Hkeys Hstep Hnew.
  eapply runs_mono; [apply (runs_write_record md eu fs Q qid (t_id t) stage v None);
    try done; apply t_id_ok|..]; cbv beta.
  - intros r fs' (Hf & -> & Hw). split; [done|]. split; [done|]. split; [by apply Hnew|].
    split; [by eapply wrote_record_touched|].
    by eapply wrote_no_temps.
  - intros e fs' [Hfs He]. split.
    + destruct Hfs as [Hq|(Hf & _ & Hw)]; [by apply path_quiet|].
      exists s'. split; [by apply rtc_once|]. split; [by apply Hnew|].
      by eapply wrote_record_touched.
    + destruct He as [He|[He|[He|He]]]; [auto| |..|auto].
      { right. left. by intros [_ K]. }
      destruct He as (v' & (f & Hf & _) & _).
      unfold rec_at in Hnone. unfold t_record in *. by rewrite Hnone in Hf.
Qed.

Lemma terminal_keys schema id dg ad fd reason :
  keys_unique (terminal_value schema id dg ad fd reason) = true.
Proof. by destruct ad, fd. Qed.

Lemma runs_mark_blocked fs t s reason :
  roots fs → tx_ok t → holds fs t s → s_restored s = None → s_blocked s = None →
  reason ∈ _BLOCK_REASONS → (reason = after_finalize ↔ is_Some (s_finalized s)) →
  step s (with_blocked reason s) →
  runs fs (_mark_blocked Q qid (t_id t) (t_intent_digest t) (t_applied_digest t (s_applied s))
      ((λ f, _digest (text (t_finalized sid qid t f))) <$> s_finalized s) reason)
    (λ _ fs', path t s fs fs') (λ _ fs', path t s fs fs').
Proof.
  intros Hr Ht Hh Hres Hbl Hreason Hfin Hstep. unfold _mark_blocked. apply runs_bind.
  eapply runs_mono.
  - apply (runs_write_step fs t s (with_blocked reason s) "blocked"); try done.
    + by apply stage_ok.
    + pose proof (h_blocked _ _ _ _ _ _ Hh) as Hb. by rewrite Hbl in Hb.
    + by eexists.
    + apply terminal_keys.
    + intros fs' Hf Hw. eapply (holds_record eu sid qid Hids t s _ "blocked"); try done.
      * by apply stage_ok.
      * by eapply wrote_all_but.
      * intros _. cbn [with_blocked s_blocked s_applied s_finalized fmap option_fmap option_map].
        split; [split; [apply Hw|done]|]. by intros r [= <-].
  - cbv beta. intros r fs' (_ & _ & Hh' & Htc & _). apply runs_ret.
    exists (with_blocked reason s). split; [by apply rtc_once|]. done.
  - cbv beta. intros e fs' [Hp _]. done.
Qed.

(** ** Restoring *)

(** A withheld journal is read as the snapshot of the intent. *)
Lemma withheld_readable fs t s r :
  sized t → holds fs t s → s_place s = Withheld r →
  ∃ f, entry fs qid (t_journal t) = Some f ∧ readable eu max_bytes f ∧ journal_file eu t f
       ∧ f_data f = raw (t_snapshot t) ∧ journal_of qid (t_journal t) f = t_snapshot t.
Proof.
  intros [Ht Hsize] Hh Hp. pose proof (h_place _ _ _ _ _ _ Hh) as Hpl.
  rewrite Hp in Hpl. destruct Hpl as [(f & Hf & Hj & Jd) _]. pose proof Hj as [Jk Ju Ji].
  exists f. split; [done|]. split; [|split; [done|split; [done|]]].
  - split; [done..|by rewrite Jd|]. rewrite Jd. apply Ht.
  - unfold journal_of, t_journal in *. rewrite Ji, Jd, <-Hdev, <-(ok_device _ _ _ Ht).
    by destruct (t_snapshot t).
Qed.

(** The move back of a withheld journal. *)
Lemma runs_restore fs t s :
  roots fs → sized t → holds fs t s → s_place s = Withheld false →
  runs fs (restore_quarantined_journal S Q (t_snapshot t) sid qid max_bytes)
    (λ _ fs', holds fs' t (with_place AtSource s) ∧ touched t fs fs'
              ∧ (no_temps fs → no_temps fs')
              ∧ ∃ f, entry fs' sid (t_journal t) = Some f ∧ readable eu max_bytes f)
    (λ e fs', (holds fs' t s ∨ holds fs' t (with_place AtSource s)) ∧ touched t fs fs'
              ∧ fault md e).
Proof.
  intros [HS HQ] Hsz Hh Hp. pose proof Hsz as [Ht _].
  destruct (withheld_readable fs t s _ Hsz Hh Hp) as (f & Hf & Hread & Hjf & Jd & Hj).
  pose proof (h_place _ _ _ _ _ _ Hh) as Hpl. rewrite Hp in Hpl. destruct Hpl as [_ Hnone].
  assert (has_dir fs qid ∧ has_dir fs sid) as [Dq Ds] by eauto with py_db.
  set (fs1 := moved qid sid (t_journal t) f fs).
  assert (∀ d n, entry fs1 d n = if bool_decide (d = sid ∧ n = t_journal t) then Some f
    else if bool_decide (d = qid ∧ n = t_journal t) then None else entry fs d n) as E1
    by (intros; by apply entry_moved).
  assert (touched t fs fs1) as Htc.
  { split; [apply same_layout_moved|..].
    - intros d n _ Ho. rewrite E1, !bool_decide_false; [done|..]; intros [-> ->]; apply Ho;
        [left|right]; auto.
    - intros HT d n g Hn. rewrite E1. repeat case_bool_decide; [|done|apply HT; done].
      destruct H3 as [-> ->]. by rewrite (ok_scratch _ _ _ Ht) in Hn.
    - unfold journal_at. by rewrite !E1, bool_decide_false, !bool_decide_true, Hf by naive_solver. }
  assert (holds fs1 t (with_place AtSource s)) as Hh1.
  { apply (holds_moved eu sid qid t s AtSource fs fs1 Ht Hh).
    - intros d n _ Hn. rewrite E1, !bool_decide_false by naive_solver. done.
    - split; [rewrite E1, bool_decide_false, bool_decide_true by naive_solver; done|].
      exists f. rewrite E1, bool_decide_true by done. split; [done|]. split; [done|].
      rewrite Jd. rewrite <-(str_app_nil_r (raw (t_snapshot t))) at 2. apply prefix_app. }
  unfold restore_quarantined_journal. fold (t_journal t).
  apply runs_bind. eapply runs_mono; [apply (runs_quarantine md eu fs Q S qid sid); done|..];
    cbv beta.
  - intros j fs' (g & Hg & _ & _ & -> & He & ->). rewrite Hf in Hg. injection Hg as <-.
    rewrite Hj, String.eqb_refl, !Z.eqb_refl. apply runs_ret. fold fs1.
    split; [done|]. split; [done|]. split.
    + apply same_no_temps. intros d n Hn.
      rewrite E1, !bool_decide_false; [done|..]; intros [-> ->];
        by rewrite (scratch_false_temp _ (ok_scratch _ _ _ Ht)) in Hn.
    + exists f. rewrite E1, bool_decide_true by done. done.
  - intros e fs' [Hfs He]. split; [|split].
    + destruct Hfs as [Heq|(_ & g & Hg & _ & _ & ->)].
      * left. eapply holds_quiet; [done|by apply eqv_quiet|done].
      * right. rewrite Hf in Hg. by injection Hg as <-.
    + destruct Hfs as [Heq|(_ & g & Hg & _ & _ & ->)].
      * by apply quiet_touched, eqv_quiet; [apply Ht|].
      * rewrite Hf in Hg. by injection Hg as <-.
    + destruct He as [He|He]; [done|]. destruct (He f); try done; apply Ht.
Qed.

Lemma reads_exists fs d name :
  reads fs (_exists d name) (Ok (match entry fs d name with Some _ => true | None => false end)).
Proof.
  apply reads_taken; [by intros e ->|]. intros e ->.
  destruct (is_oserror e) eqn:Ee; eexists; split; try done. by intros ->.
Qed.

Lemma member_ok (x : string) (l : list string) : bool_decide (x ∈ l) = true → x ∈ l.
Proof. intros. by reflect. Qed.

Definition applied_record (t : tx) (s : state) : option DurableRecord :=
  if s_applied s then Some (rec_applied t) else None.

Lemma applied_record_digest t s :
  applied_digest_of (applied_record t s) = t_applied_digest t (s_applied s).
Proof. unfold applied_record. by destruct (s_applied s). Qed.

Lemma runs_block {A} fs t s reason message (Post : A → fsys → Prop) :
  roots fs → tx_ok t → holds fs t s → unsettled s →
  reason ∈ _BLOCK_REASONS → reason ≠ after_finalize → step s (with_blocked reason s) →
  runs fs (block Q qid (t_id t) (rec_intent t) (applied_record t s) reason message : M World A)
    Post (λ _ fs', path t s fs fs').
Proof.
  intros Hr Ht Hh (U1 & U2 & U3) Hreason Hne Hstep. unfold block.
  rewrite applied_record_digest. apply runs_bind.
  pose proof (runs_mark_blocked fs t s reason Hr Ht Hh U2 U3 Hreason) as H'. rewrite U1 in H'.
  eapply runs_mono; [apply H'|..]; try done.
  intros [] fs' Hp. by apply runs_raise.
Qed.

(** What keeps a healthy reconciliation from settling a transaction: an operator is needed,
    the journal was replaced, or the journal in place cannot be read. *)
Definition settleable (fs : fsys) (t : tx) (s : state) : Prop :=
  s_blocked s = None ∧ s_place s ≠ Withheld true
  ∧ (s_place s = AtSource → ∃ f, entry fs sid (t_journal t) = Some f ∧ readable eu max_bytes f).

Lemma with_place_at_source s : s_place s = AtSource → with_place AtSource s = s.
Proof. by destruct s; cbn; intros ->. Qed.

(** The journal in place, read again. *)
Lemma runs_source_snapshot fs t s :
  roots fs → tx_ok t → holds fs t s → s_place s = AtSource →
  runs fs (snapshot_journal S (t_journal t) sid max_bytes)
    (λ j fs', fs' = fs ∧ _is_same_append_only_journal j (t_snapshot t) = true
              ∧ ∃ f, entry fs sid (t_journal t) = Some f ∧ readable eu max_bytes f)
    (λ e fs', fs' = fs ∧ (fault md e ∨ ¬ settleable fs t s)).
Proof.
  intros [HS _] Ht Hh Hp. pose proof (h_place _ _ _ _ _ _ Hh) as Hpl. rewrite Hp in Hpl.
  destruct Hpl as (_ & f & Hf & [Jk Ju Ji] & Hpre).
  assert (_is_same_append_only_journal (journal_of sid (t_journal t) f) (t_snapshot t) = true)
    as Hsame.
  { unfold _is_same_append_only_journal. cbn [journal_of journal device inode raw].
    unfold t_journal. by rewrite String.eqb_refl, (ok_device _ _ _ Ht), Ji, !Z.eqb_refl. }
  destruct (decide (Z.of_nat (String.length (f_data f)) ≤ max_bytes)%Z) as [Hsz|Hsz];
    [destruct (terminated (f_data f)) eqn:Hterm|].
  - assert (readable eu max_bytes f) as Hread by by split.
    eapply runs_mono; [apply (reads_snapshot md eu fs S sid (t_journal t) max_bytes f); try done;
      apply Ht|..]; cbv beta.
    + intros j fs' [-> [= <-]]. eauto.
    + intros e fs' [-> [[=]|He]]. auto.
  - eapply runs_mono; [by apply runs_snapshot|..]; cbv beta.
    + intros j fs' (_ & g & Hg & [_ _ _ Hr] & _). simplify_eq. congruence.
    + intros e fs' ->. split; [done|]. right. intros (_ & _ & Hs). destruct Hs as (g & Hg & [_ _ _ Hr]);
        [done|]. simplify_eq. congruence.
  - eapply runs_mono; [by apply runs_snapshot|..]; cbv beta.
    + intros j fs' (_ & g & Hg & [_ _ Hr _] & _). simplify_eq.
    + intros e fs' ->. split; [done|]. right. intros (_ & _ & Hs). destruct Hs as (g & Hg & [_ _ Hr _]);
        [done|]. by simplify_eq.
Qed.

(** The journal is in place when a reason is given. *)
Lemma runs_bring_back fs t s :
  roots fs → sized t → holds fs t s → inv s → unsettled s →
  runs fs (bring_back S Q sid qid max_bytes sid qid (t_id t) (rec_intent t) (t_snapshot t)
             (applied_record t s))
    (λ reason fs', reason ∈ _RESTORE_REASONS ∧ holds fs' t (with_place AtSource s)
       ∧ steps s (with_place AtSource s) ∧ touched t fs fs' ∧ (no_temps fs → no_temps fs')
       ∧ ∃ f, entry fs' sid (t_journal t) = Some f ∧ readable eu max_bytes f)
    (λ e fs', path t s fs fs' ∧ (fault md e ∨ ¬ settleable fs t s)).
Proof.
  intros Hr [Ht Hsize] Hh Hinv Hu. pose proof (h_place _ _ _ _ _ _ Hh) as Hpl.
  assert (path t s fs fs) as Hrefl by by apply path_refl.
  unfold bring_back. fold (t_journal t).
  eapply runs_reads; [apply reads_exists| |auto]. eapply runs_reads; [apply reads_exists| |auto].
  destruct (s_place s) as [|replaced] eqn:Hp; simpl in Hpl.
  - destruct Hpl as (-> & f & Hf & _). rewrite Hf. cbn [andb].
    apply runs_bind. eapply runs_mono; [by apply (runs_source_snapshot fs t s)|..]; cbv beta.
    + intros j fs' (-> & -> & Hread). apply runs_bind, runs_ret, runs_ret.
      rewrite with_place_at_source by done. split; [by apply member_ok|].
      split; [done|]. split; [constructor|]. done.
    + intros e fs' [-> He]. done.
  - destruct Hpl as [(f & -> & _) Hsrc]. destruct replaced.
    + destruct Hsrc as [g ->]. cbn [andb]. eapply runs_mono; [apply (runs_block fs t s _ _ (λ _ _, False)); try done|..].
      * by apply member_ok.
      * apply step_block; auto.
      * done.
      * cbv beta. intros e fs' Hpath. split; [done|]. right. by intros (_ & Hne & _).
    + rewrite Hsrc. cbn [andb].
      pose proof (inv_withheld s Hinv _ Hp) as Hfence.
      eapply runs_reads; [|..|auto].
      { apply (reads_source_fence md eu fs sid (t_id t) (t_intent_digest t) (t_snapshot t)
          (Some (t_fence sid qid t))); [|by intros v [= <-]|done].
        pose proof (h_fence _ _ _ _ _ _ Hh) as Hf. by rewrite Hfence in Hf. }
      apply runs_bind, runs_except. eapply runs_mono; [by apply (runs_restore fs t s)|..]; cbv beta.
      * intros _ fs' (Hh' & Htc & Hnt & Hread). apply runs_ret.
        split; [by unfold applied_record; destruct (s_applied s); apply member_ok|].
        split; [done|]. split; [|done]. apply rtc_once. by apply step_return.
      * intros e fs' (Hh' & Htc & He).
        assert (∃ s', steps s s' ∧ holds fs' t s' ∧ unsettled s' ∧ s_applied s' = s_applied s)
          as (s' & Hs' & Hh1 & Hu' & Ha).
        { destruct Hh' as [Hh'|Hh']; [by exists s; split; [constructor|]|].
          exists (with_place AtSource s). split; [by apply rtc_once, step_return|done]. }
        destruct (is_sink_error e) eqn:Esink; [|by split; [exists s'|left]].
        assert (md = Wild) as Hw by (unfold fault in He; destruct md; [done| |done]; by subst).
        replace (applied_record t s) with (applied_record t s')
          by (unfold applied_record; by rewrite Ha).
        eapply runs_mono; [apply (runs_block fs' t s' _ _ (λ _ _, False)); try done|done|].
        -- by eapply touched_roots.
        -- by apply member_ok.
        -- apply step_block; [done|]. left. unfold wild. by rewrite Hw.
        -- cbv beta. intros e' fs'' Hpath. split; [by eapply path_step|]. left. by rewrite Hw.
Qed.

(** A transaction that reached [s'], with nothing new in the way of the next operation. *)
Definition reached (t : tx) (s s' : state) (fs fs' : fsys) : Prop :=
  steps s s' ∧ holds fs' t s' ∧ touched t fs fs' ∧ (no_temps fs → no_temps fs').

Lemma reached_path t s s' fs fs' : reached t s s' fs fs' → path t s fs fs'.
Proof. intros (Hs & Hh & Ht & _). by exists s'. Qed.

Lemma reached_refl t s fs : holds fs t s → reached t s s fs fs.
Proof. intros Hh. split; [constructor|]. by split. Qed.

Lemma reached_trans t s s' s'' fs fs' fs'' :
  reached t s s' fs fs' → reached t s' s'' fs' fs'' → reached t s s'' fs fs''.
Proof.
  intros (S1 & _ & T1 & N1) (S2 & H2' & T2 & N2). split; [by etrans|]. split; [done|].
  split; [by etrans|auto].
Qed.

Lemma reached_then t s s' fs fs' fs'' :
  reached t s s' fs fs' → path t s' fs' fs'' → path t s fs fs''.
Proof. intros (Hs & _ & Ht & _). by apply path_step. Qed.

(** A journal in place stays the same file. *)
Lemma in_place_same t s s' fs fs' f :
  touched t fs fs' → holds fs t s → holds fs' t s' → s_place s = AtSource →
  s_place s' = AtSource → entry fs sid (t_journal t) = Some f →
  entry fs' sid (t_journal t) = Some f.
Proof.
  intros Ht Hh Hh' Hp Hp' Hf. pose proof (tc_journal _ _ _ _ _ _ Ht) as Hj.
  pose proof (h_place _ _ _ _ _ _ Hh) as K1. pose proof (h_place _ _ _ _ _ _ Hh') as K2.
  rewrite Hp in K1. rewrite Hp' in K2. destruct K1 as [K1 _], K2 as [K2 _].
  unfold journal_at in Hj. rewrite K1, K2, Hf in Hj. done.
Qed.

Lemma only_fence_touched t fs fs' :
  tx_ok t → only_entry sid (t_fence_name t) fs fs' → entry fs' sid (t_fence_name t) = None →
  touched t fs fs' ∧ (no_temps fs → no_temps fs').
Proof.
  intros Ht [L E] Hnone. split; [split; [done|..]|].
  - intros d n _ Ho. apply E. intros [-> ->]. apply Ho, owned_fence.
  - intros HT d n f Hn Hf. rewrite E in Hf; [by eapply HT|]. by intros [-> ->].
  - apply journal_at_same. intros d. apply E. intros [_ Eq].
    by apply jsonl_not_fence in Eq; [|apply Ht].
  - apply same_no_temps. intros d n Hn. apply E. by intros [-> ->].
Qed.

Lemma runs_unfence fs t s :
  roots fs → tx_ok t → holds fs t s → unsettled s → s_place s = AtSource →
  runs fs (_remove_source_fence sid (t_id t) (t_intent_digest t) (t_snapshot t))
    (λ _ fs', reached t s (with_fence false s) fs fs')
    (λ e fs', path t s fs fs' ∧ fault md e).
Proof.
  intros [HS HQ] Ht Hh Hu Hp.
  assert (∀ fs', only_entry sid (t_fence_name t) fs fs' → entry fs' sid (t_fence_name t) = None →
    reached t s (with_fence false s) fs fs') as Hdone.
  { intros fs' Ho Hn. destruct (only_fence_touched t fs fs' Ht Ho Hn) as [Htc Hnt].
    split; [by apply rtc_once, step_unfence|]. split; [|done].
    eapply (holds_fence eu sid qid Hids t s false); [done..| |exact Hn].
    intros d n _ Hne. by apply Ho. }
  pose proof (h_fence _ _ _ _ _ _ Hh) as Hf.
  eapply runs_mono; [eapply (runs_remove_fence md eu); [by eauto with py_db|exact Hf|]|..];
    cbv beta.
  - intros v. destruct (s_fence s); by intros [= <-].
  - intros _ fs' [Ho Hn]. by apply Hdone.
  - intros e fs' [[->|[Ho Hn]] He]; (split; [|done]); [by apply path_refl|].
    by eapply reached_path, Hdone.
Qed.

Lemma runs_mark_restored fs t s reason :
  roots fs → tx_ok t → holds fs t s → unsettled s → s_place s = AtSource → s_fence s = false →
  reason ∈ _RESTORE_REASONS →
  runs fs (mark_quarantine_restored Q qid (t_id t) (t_intent_digest t)
             (t_applied_digest t (s_applied s)) reason)
    (λ _ fs', reached t s (with_restored reason s) fs fs')
    (λ e fs', path t s fs fs' ∧ (fault md e ∨ ¬ no_temps fs)).
Proof.
  intros Hr Ht Hh Hu Hp Hf Hreason. pose proof Hu as (U1 & U2 & U3).
  assert (step s (with_restored reason s)) as Hstep by by apply step_restore.
  unfold mark_quarantine_restored. eapply runs_mono;
    [apply (runs_write_step fs t s (with_restored reason s) "restored"); try done|..].
  - by apply member_ok.
  - pose proof (h_restored _ _ _ _ _ _ Hh) as Hb. by rewrite U2 in Hb.
  - by eexists.
  - apply terminal_keys.
  - intros fs' Hfit Hw. eapply (holds_record eu sid qid Hids t s _ "restored"); try done.
    + by apply member_ok.
    + by eapply wrote_all_but.
    + intros _. cbn [with_restored s_restored s_applied fmap option_fmap option_map].
      split; [split; [apply Hw|done]|]. by intros r [= <-].
  - cbv beta. intros r fs' (_ & _ & Hh' & Htc & Hnt). split; [by apply rtc_once|]. done.
  - cbv beta. intros e fs' [Hpath He]. split; [done|]. destruct He as [He|[He|He]]; [auto..|].
    destruct He. by apply (ok_restored _ _ _ Ht).
Qed.

(** A settled transaction, and what the reconciliation says of it. *)
Definition settled_as (o : settled) (s : state) : Prop :=
  match o with
  | SettledRestored => is_Some (s_restored s)
  | SettledFinalized => is_Some (s_finalized s) ∧ s_blocked s = None ∧ s_place s = Withheld false
  end.

Lemma runs_settle_open fs t s :
  roots fs → sized t → holds fs t s → inv s → unsettled s →
  runs fs (settle_open S Q sid qid max_bytes sid qid (t_id t) (rec_intent t) (t_snapshot t)
             (applied_record t s))
    (λ o fs', ∃ s', reached t s s' fs fs' ∧ settled_as o s' ∧ settleable fs' t s')
    (λ e fs', path t s fs fs' ∧ (fault md e ∨ ¬ settleable fs t s ∨ ¬ no_temps fs)).
Proof.
  intros Hr Hsz Hh Hinv Hu. pose proof Hsz as [Ht _]. unfold settle_open.
  apply runs_bind. eapply runs_mono; [by apply (runs_bring_back fs t s)|..]; cbv beta.
  2:{ intros e fs' [Hp He]. tauto. }
  intros reason fs1 (Hreason & Hh1 & Hs1 & Htc1 & Hnt1 & f & Hf & Hread).
  set (s1 := with_place AtSource s) in *.
  assert (reached t s s1 fs fs1) as R1 by by split.
  assert (unsettled s1) as Hu1 by done.
  apply runs_bind. eapply runs_mono; [apply (runs_unfence fs1 t s1); try done|..]; cbv beta.
  { by eapply touched_roots. }
  2:{ intros e fs' [Hp He]. split; [by eapply reached_then|auto]. }
  intros _ fs2 R2. set (s2 := with_fence false s1) in *.
  pose proof R2 as (_ & Hh2 & Htc2 & _).
  apply runs_bind. rewrite applied_record_digest.
  eapply runs_mono; [apply (runs_mark_restored fs2 t s2 reason); try done|..]; cbv beta.
  { eapply touched_roots; [|done]. by etrans. }
  - intros _ fs3 R3. apply runs_ret. exists (with_restored reason s2).
    pose proof R3 as (_ & Hh3 & Htc3 & _).
    split; [by do 2 (eapply reached_trans; [done|])|]. split; [by eexists|].
    split; [apply Hu1|]. split; [done|]. intros _. exists f. split; [|done].
    eapply (in_place_same t s1 (with_restored reason s2) fs1); [by etrans|done..].
  - intros e fs' [Hp He]. split; [by do 2 (eapply reached_then; [done|])|].
    destruct He as [He|He]; [by left|]. right. right. intros Hnt. apply He, R2, Hnt1, Hnt.
Qed.
End Operations.
