(* ===== verification/QuarantineSettle.v ===== *)
(** * QuarantineSettle: one transaction of a reconciliation

    [reconcile_one] on a transaction in any reachable state: it follows the abstract machine
    whatever fails, and without faults it settles every transaction that can be settled. *)

From stdpp Require Import relations.
From S2P Require Import Prelude Effects Json JsonText Base64 Sha256 HostEvidence JournalFs HostEventSink Quarantine QuarantineRecovery JournalProofs SinkProofs RecordProofs QuarantineState QuarantineSteps QuarantinePaths.

Local Open Scope string_scope.

Lemma strip_prefix_removed p s : removeprefix p (p +:+ s) = s.
Proof. unfold removeprefix. by rewrite strip_prefix_app. Qed.

Lemma removesuffix_app p s : removesuffix p (s +:+ p) = s.
Proof.
  unfold removesuffix. rewrite (proj2 (endswith_app p (s +:+ p))) by by eexists.
  rewrite str_length_app. replace (_ + _ - _)%nat with (String.length s) by lia.
  unfold str_take. induction s as [|c s IH]; [by destruct p|]. rewrite str_app_cons. simpl.
  by rewrite IH.
Qed.

Lemma intent_id txid : intent_transaction_id (record_name txid "intent") = txid.
Proof.
  unfold intent_transaction_id, record_name. rewrite strip_prefix_removed.
  exact (removesuffix_app ".intent.json" txid).
Qed.

Lemma reads_sink_ok md eu fs {A} (m : M World A) x a :
  reads md eu fs m (Ok a) → reads md eu fs (except is_sink_error m (λ _, raise x)) (Ok a).
Proof.
  intros Hm. apply runs_except. eapply runs_mono; [exact Hm|done|]. cbv beta.
  intros e fs' [-> [[=]|He]]. destruct (is_sink_error e) eqn:Es; [|auto].
  apply runs_raise. split; [done|]. right. unfold fault in *. destruct md; [done| |done]. by subst.
Qed.

Section Settle.
Context `{Sha256} `{!Sha256Laws} `{Entropy} `{!EntropyLaws} (md : mode) (eu : Z).
Context (S Q : string) (sid qid : ident) (max_bytes : Z).
Context (Hids : sid ≠ qid) (Hdev : sid.1 = qid.1) (Hpaths : S ≠ Q) (Hmax : (0 < max_bytes)%Z).
Abbreviation tx_ok := (tx_ok sid qid).
Abbreviation holds := (holds eu sid qid).
Abbreviation touched := (touched eu sid qid).
Abbreviation runs := (JournalProofs.runs md eu).
Abbreviation reads := (JournalProofs.reads md eu).
Abbreviation t_intent_digest := (t_intent_digest sid qid).
Abbreviation t_applied_digest := (t_applied_digest sid qid).
Abbreviation rec_intent := (rec_intent sid qid).
Abbreviation rec_applied := (rec_applied sid qid).
Abbreviation roots := (roots eu S Q sid qid).
Abbreviation sized := (sized sid qid max_bytes).
Abbreviation steps := (QuarantineState.steps (wild md)).
Abbreviation path := (path md eu sid qid).
Abbreviation reached := (reached md eu sid qid).
Abbreviation settleable := (settleable eu sid max_bytes).
Abbreviation applied_record := (applied_record sid qid).

(** ** Records already there *)

Definition finalized_record (t : tx) (f : json * json) : DurableRecord :=
  rec_of (t_record t "finalized") (t_finalized sid qid t f).
Definition restored_record (t : tx) (s : state) (reason : string) : DurableRecord :=
  rec_of (t_record t "restored") (t_restored sid qid t (s_applied s) reason).
Definition blocked_record (t : tx) (s : state) (reason : string) : DurableRecord :=
  rec_of (t_record t "blocked") (t_blocked sid qid t (s_applied s) (s_finalized s) reason).

Lemma reads_fence fs t s required :
  tx_ok t → holds fs t s → (s_fence s = false → required = false) →
  reads fs (_read_source_fence sid (t_id t) (t_intent_digest t) (t_snapshot t) required)
    (Ok (if s_fence s then Some (rec_of (t_fence_name t) (t_fence sid qid t)) else None)).
Proof.
  intros Ht Hh Hreq. pose proof (h_fence _ _ _ _ _ _ Hh) as Hf.
  pose proof (reads_source_fence md eu fs sid (t_id t) (t_intent_digest t) (t_snapshot t)
    (if s_fence s then Some (t_fence sid qid t) else None) required Hf) as K.
  destruct (s_fence s); apply K; try done; [by intros v [= <-]|auto].
Qed.

Lemma settle_blocked_raises fs t s reason applied finalized :
  runs fs (settle_blocked (t_id t) (rec_intent t) applied finalized
             (blocked_record t s reason)) (λ _ _, False) (λ _ fs', fs' = fs).
Proof.
  unfold settle_blocked. apply runs_bind. eapply runs_mono with (Q := λ _ fs', fs' = fs)
    (R := λ _ fs', fs' = fs); [| |done].
  - destruct finalized as [f|]; [|by apply runs_ret].
    destruct applied as [a|]; [|by apply runs_raise].
    apply runs_bind, runs_lift_result; [|done]. intros _ _. by apply runs_ret.
  - cbv beta. intros d fs' ->. apply runs_bind, runs_lift_result; [|done]. intros _ _.
    by apply runs_raise.
Qed.

Lemma runs_settle_restored fs t s reason :
  roots fs → sized t → holds fs t s → inv s → s_restored s = Some reason →
  runs fs (settle_restored S sid max_bytes sid qid (t_id t) (rec_intent t) (t_snapshot t)
             (applied_record t s) (restored_record t s reason))
    (λ o fs', o = SettledRestored ∧ fs' = fs ∧ settleable fs t s)
    (λ e fs', fs' = fs ∧ (fault md e ∨ ¬ settleable fs t s)).
Proof.
  intros Hr Hsz Hh Hinv Hres. pose proof Hsz as [Ht _].
  destruct (inv_restored s Hinv _ Hres) as (Hp & Hf & Hb). unfold settle_restored.
  rewrite applied_record_digest. unfold restored_record, t_restored.
  change (r_digest (rec_intent t)) with (t_intent_digest t).
  rewrite validate_terminal; [|done|by apply (h_restored_ok _ _ _ _ _ _ Hh)|done].
  apply runs_bind, runs_ret.
  eapply runs_reads; [by apply (reads_fence fs t s)| |auto]. rewrite Hf.
  apply runs_bind, runs_ret.
  eapply runs_reads; [apply reads_exists| |auto]. fold (t_journal t).
  pose proof (h_place _ _ _ _ _ _ Hh) as Hpl. rewrite Hp in Hpl. destruct Hpl as [-> _].
  apply runs_bind, runs_ret, runs_bind, runs_except.
  eapply runs_mono; [by apply (runs_source_snapshot md eu S Q sid qid max_bytes)|..]; cbv beta.
  - intros j fs' (-> & Hsame & Hread). apply runs_bind. rewrite Hsame. apply runs_ret, runs_ret.
    split; [done|]. split; [done|]. split; [done|]. split; [by rewrite Hp|done].
  - intros e fs' [-> He]. destruct (is_sink_error e) eqn:Es; [|done]. apply runs_raise.
    split; [done|]. destruct He as [He|He]; [|by right]. left. unfold fault in *.
    destruct md; [done| |done]. by subst.
Qed.

Lemma runs_settle_finalized fs t s f :
  roots fs → sized t → holds fs t s → inv s → s_finalized s = Some f → s_blocked s = None →
  runs fs (settle_finalized Q qid max_bytes sid (t_id t) (rec_intent t) (t_snapshot t)
             (applied_record t s) (finalized_record t f))
    (λ o fs', o = SettledFinalized ∧ fs' = fs ∧ settleable fs t s ∧ s_place s = Withheld false)
    (λ e fs', path t s fs fs' ∧ (fault md e ∨ ¬ settleable fs t s)).
Proof.
  intros Hr Hsz Hh Hinv Hfin Hb. pose proof Hsz as [Ht _].
  destruct (inv_finalized s Hinv _ Hfin) as (Ha & Hres & r & Hp).
  assert (path t s fs fs) as Hrefl by by apply path_refl.
  unfold settle_finalized, QuarantinePaths.applied_record. rewrite Ha.
  change (r_digest (rec_intent t)) with (t_intent_digest t).
  unfold finalized_record. rewrite validate_finalized by by apply (h_finalized_ok _ _ _ _ _ _ Hh).
  apply runs_bind, runs_ret.
  destruct (withheld_readable eu sid qid max_bytes Hdev fs t s r Hsz Hh Hp)
    as (g & Hg & Hread & _ & _ & Hj).
  eapply runs_reads; [apply reads_sink_ok, (reads_snapshot md eu fs Q qid _ max_bytes g)| |auto];
    try done; [apply Hr|apply Ht|].
  unfold t_journal in Hj. rewrite Hj, bool_decide_true by done. apply runs_bind, runs_ret.
  eapply runs_reads; [apply (reads_fence fs t s); [done..|]| |auto].
  { rewrite (inv_withheld s Hinv _ Hp). done. }
  eapply runs_reads; [apply reads_exists| |auto]. fold (t_journal t).
  pose proof (h_place _ _ _ _ _ _ Hh) as Hpl. rewrite Hp in Hpl. destruct Hpl as [_ Hsrc].
  destruct r.
  - destruct Hsrc as [h ->]. apply runs_bind, runs_when; [intros _|done].
    apply runs_bind.
    pose proof (runs_mark_blocked md eu S Q sid qid Hids fs t s after_finalize) as K.
    rewrite Hfin, Ha in K. eapply runs_mono; [apply K|..]; try done.
    + by apply member_ok.
    + by eapply step_block_finalized.
    + cbv beta. intros [] fs' Hpath. apply runs_raise. split; [done|]. right.
      by intros (_ & Hne & _).
    + cbv beta. intros e fs' Hpath. split; [done|]. right. by intros (_ & Hne & _).
  - rewrite Hsrc. apply runs_bind, runs_ret, runs_ret.
    split; [done|]. split; [done|]. split; [|done]. split; [done|]. split; congruence.
Qed.

(** ** One intent *)

Lemma reads_stage fs t stage o :
  bool_decide (stage ∈ stages) = true → rec_at eu fs qid (t_record t stage) o →
  reads fs (read_stage qid (t_id t) stage) (Ok (rec_of (t_record t stage) <$> o)).
Proof.
  intros Hs Ho. unfold read_stage.
  eapply reads_bind_ok; [rewrite (t_record_ok t stage Hs); apply reads_lift|].
  by apply reads_rec_at.
Qed.

Lemma directory_matches kvs k d :
  NoDup (keys kvs) → get k kvs = _directory_value d →
  py_eqb (get k (members_of (norm (JObj kvs)))) (_directory_value d) = true.
Proof. intros Hnd Hk. rewrite get_norm, Hk by done. apply directory_value_eq. Qed.

(** The directories of the intent are the ones of the reconciliation. *)
Lemma intent_directories t :
  py_eqb (get "source_directory" (r_value (rec_intent t))) (_directory_value sid) = true
  ∧ py_eqb (get "quarantine_directory" (r_value (rec_intent t))) (_directory_value qid) = true.
Proof.
  unfold QuarantineSteps.rec_intent. cbn [rec_of r_value].
  change (t_intent sid qid t) with (JObj (members_of (t_intent sid qid t))).
  assert (NoDup (keys (members_of (t_intent sid qid t)))) as Hnd
    by (apply nodup_dec; by vm_compute).
  by split; apply directory_matches.
Qed.

Lemma applied_record_at fs t s :
  holds fs t s →
  reads fs (read_stage qid (t_id t) "applied") (Ok (applied_record t s)).
Proof.
  intros Hh. pose proof (reads_stage fs t "applied" _ eq_refl (h_applied _ _ _ _ _ _ Hh)) as K.
  unfold QuarantinePaths.applied_record. by destruct (s_applied s).
Qed.

(** Reconciling one transaction: settled if it can be; a path of the machine in any case. *)
Lemma runs_reconcile_one fs t s :
  roots fs → sized t → holds fs t s → inv s →
  runs fs (reconcile_one S Q sid qid max_bytes sid qid (t_record t "intent"))
    (λ o fs', ∃ s', reached t s s' fs fs' ∧ settled_as o s' ∧ settleable fs' t s')
    (λ e fs', path t s fs fs' ∧ (fault md e ∨ ¬ settleable fs t s ∨ ¬ no_temps sid qid fs)).
Proof.
  intros Hr Hsz Hh Hinv. pose proof Hsz as [Ht _].
  assert (path t s fs fs) as Hrefl by by apply path_refl.
  assert (reached t s s fs fs) as Rrefl by by apply reached_refl.
  assert (∀ e, fault md e → path t s fs fs ∧
    (fault md e ∨ ¬ settleable fs t s ∨ ¬ no_temps sid qid fs)) as HF by auto.
  unfold reconcile_one. rewrite (intent_id (t_id t) : intent_transaction_id (t_record t "intent") = _).
  eapply runs_reads; [apply (reads_record eu md fs qid _ (t_intent sid qid t));
    [apply Hh|apply Ht]| |done].
  apply runs_bind, runs_ret. fold (rec_intent t).
  rewrite intent_snapshot by done. apply runs_bind, runs_ret.
  destruct (intent_directories t) as [-> ->]. apply runs_bind, runs_ret.
  eapply runs_reads; [by apply applied_record_at| |done].
  eapply runs_reads with (a := tt); [| |done].
  { unfold QuarantinePaths.applied_record. destruct (s_applied s); [|apply reads_ret].
    rewrite validate_applied. apply reads_lift. }
  eapply runs_reads; [apply reads_stage; [done|apply Hh]| |done].
  eapply runs_reads; [apply reads_stage; [done|apply Hh]| |done].
  eapply runs_reads; [apply reads_stage; [done|apply Hh]| |done].
  destruct (s_blocked s) as [b|] eqn:Hb.
  { pose proof (inv_restored s Hinv) as Ir. destruct (s_restored s) as [r|] eqn:Hres.
    { destruct (Ir r) as (_ & _ & ?); [done|congruence]. }
    apply runs_bind, runs_ret. eapply runs_mono;
      [apply (settle_blocked_raises fs t s b)|done|]; cbv beta.
    intros e fs' ->. split; [done|]. right. left. intros (K & _). congruence. }
  pose proof (inv_finalized s Hinv) as If.
  destruct (s_finalized s) as [f|] eqn:Hf, (s_restored s) as [r|] eqn:Hres;
    cbn [fmap option_fmap option_map].
  - destruct (If f) as (_ & ? & _); [done|congruence].
  - apply runs_bind, runs_ret. eapply runs_mono; [by apply (runs_settle_finalized fs t s f)|..];
      cbv beta.
    + intros o fs' (-> & -> & Hset & Hp). exists s. split; [done|]. split; [|done].
      split; [by eexists|]. done.
    + intros e fs' [Hpath He]. tauto.
  - apply runs_bind, runs_ret. eapply runs_mono; [by apply (runs_settle_restored fs t s r)|..];
      cbv beta.
    + intros o fs' (-> & -> & Hset). exists s. split; [done|]. split; [by eexists|done].
    + intros e fs' [-> He]. tauto.
  - apply runs_bind, runs_ret. by apply runs_settle_open.
Qed.
End Settle.
