(* ===== verification/QuarantineClean.v ===== *)
(** * QuarantineClean: what a reconciliation does before the first intent

    The unpublished temporaries of both directories are removed, whatever the faults nothing else
    is touched, and the names that remain are the records of the known transactions. *)

From stdpp Require Import relations sorting.
From S2P Require Import Prelude Effects Json JsonText Base64 Sha256 HostEvidence JournalFs HostEventSink Quarantine QuarantineRecovery JournalProofs SinkProofs RecordProofs QuarantineState QuarantineSteps QuarantinePaths QuarantineSettle.

Local Open Scope string_scope.

(** The names of [l] gone from [d], everything else as it was. *)
Record swept (d : ident) (l : list string) (fs fs' : fsys) : Prop := {
  sw_layout : same_layout fs fs';
  sw_entry d' n : entry fs' d' n = if bool_decide (d' = d ∧ n ∈ l) then None else entry fs d' n;
}.

Lemma swept_nil d fs : swept d [] fs fs.
Proof. split; [done|]. intros d' n. rewrite bool_decide_false; [done|]. intros [_ H]. by apply elem_of_nil in H. Qed.

Lemma swept_cons d n l fs fs' :
  has_dir fs d → swept d l (set_entry d n None fs) fs' → swept d (n :: l) fs fs'.
Proof.
  intros Hd [L E]. split; [etrans; [apply same_layout_set|done]|]. intros d' m.
  rewrite E, entry_set by done. repeat case_bool_decide; set_solver.
Qed.

Section Clean.
Context `{Sha256} `{!Sha256Laws} (md : mode) (eu : Z).
Abbreviation runs := (JournalProofs.runs md eu).
Abbreviation reads := (JournalProofs.reads md eu).

Definition names_of (fs : fsys) (d : ident) : list string :=
  match fs_dirs fs !! d with Some dir => (map_to_list (d_entries dir)).*1 | None => [] end.

Lemma names_of_nodup fs d : NoDup (names_of fs d).
Proof. unfold names_of. destruct (fs_dirs fs !! d); [apply NoDup_fst_map_to_list|constructor]. Qed.

Lemma elem_of_names_of fs d n : n ∈ names_of fs d ↔ is_Some (entry fs d n).
Proof.
  unfold names_of, entry. destruct (fs_dirs fs !! d) as [dir|]; simpl.
  - rewrite list_elem_of_fmap. split.
    + intros ([n' f] & -> & Hf%elem_of_map_to_list). by exists f.
    + intros [f Hf]. exists (n, f). split; [done|]. by apply elem_of_map_to_list.
  - split; [by intros ?%elem_of_nil|by intros []].
Qed.

Lemma reads_listdir fs d : has_dir fs d → reads fs (sys_listdir d) (Ok (names_of fs d)).
Proof.
  intros [dir Hd]. apply (reads_syscall md eu fs (λ fs, fs_dirs fs !! d)).
  unfold names_of. rewrite Hd. apply reads_ret.
Qed.

Lemma runs_remove_temporary fs d pattern e1 e2 e3 e4 name f
    (Q : unit → fsys → Prop) (R : exn → fsys → Prop) :
  has_dir fs d → entry fs d name = Some f → temp_ok eu name f → pattern name = true →
  Q tt (set_entry d name None fs) → (∀ e, fault md e → R e fs) →
  runs fs (remove_temporary d pattern e1 e2 e3 e4 name) Q R.
Proof.
  intros Hd Hf (Hk & Hu & Hm & _) Hp HQ HR. unfold remove_temporary. rewrite Hp.
  apply runs_bind, runs_ret.
  eapply runs_reads; [apply reads_os_error_as_ok| |done].
  { pose proof (reads_stat md eu fs d name) as K. unfold stat_of in K. rewrite Hf in K. exact K. }
  apply runs_bind, runs_euid.
  unfold unsafe. rewrite bool_decide_true, Hu, Hm, !Z.eqb_refl by done.
  apply runs_bind, runs_ret, runs_os_error_as, runs_unlink; [done|by eexists|].
  intros e He. apply HR, fault_as. eauto with py_db.
Qed.

(** All of them, or those before the fault. *)
Lemma runs_remove_all fs d pattern e1 e2 e3 e4 l :
  has_dir fs d → NoDup l →
  (∀ n, n ∈ l → pattern n = true ∧ ∃ f, entry fs d n = Some f ∧ temp_ok eu n f) →
  runs fs (for_each l (remove_temporary d pattern e1 e2 e3 e4))
    (λ _ fs', swept d l fs fs')
    (λ e fs', fault md e ∧ ∃ l', l' ⊆ l ∧ swept d l' fs fs').
Proof.
  revert fs. induction l as [|n l IH]; intros fs Hd Hnd Hl.
  { apply runs_ret, swept_nil. }
  apply NoDup_cons in Hnd as [Hn Hnd]. destruct (Hl n) as (Hp & f & Hf & Hok); [by left|].
  cbn [for_each]. apply runs_bind. eapply runs_remove_temporary; try done.
  - eapply runs_mono; [apply IH; [by eapply has_dir_layout; [apply same_layout_set|]|done|]|..].
    + intros m Hm. destruct (Hl m) as (Hpm & g & Hg & Hgok); [by right|]. split; [done|].
      exists g. split; [|done]. rewrite entry_set, bool_decide_false by (done || naive_solver).
      done.
    + cbv beta. intros _ fs' Hs. by apply swept_cons.
    + cbv beta. intros e fs' (He & l' & Hl' & Hs). split; [done|]. exists (n :: l').
      split; [set_solver|by apply swept_cons].
  - intros e He. split; [done|]. exists []. split; [set_solver|apply swept_nil].
Qed.

Lemma swept_quiet d l fs fs' :
  (∀ n, n ∈ l → is_temp n = true) → swept d l fs fs' → quiet eu fs fs'.
Proof.
  intros Hl [L E]. split; [done|..].
  - intros d' n Hn. rewrite E, bool_decide_false; [done|]. intros [_ Hin].
    apply Hl in Hin. apply scratch_false_temp in Hn. congruence.
  - intros HT d' n f Hn Hf. rewrite E in Hf. case_bool_decide; [done|]. by eapply HT.
Qed.

Lemma swept_clear d l d' p fs fs' : swept d l fs fs' → clear d' p fs → clear d' p fs'.
Proof. intros [_ E] Hc n Hn. rewrite E. case_bool_decide; [done|by apply Hc]. Qed.

Lemma elem_of_prefix_filter p n l :
  n ∈ List.filter (String.prefix p) l ↔ String.prefix p n = true ∧ n ∈ l.
Proof. rewrite !list_elem_of_In, filter_In. tauto. Qed.

Lemma nodup_filter {A} (f : A → bool) l : NoDup l → NoDup (List.filter f l).
Proof. rewrite !NoDup_ListNoDup. apply List.NoDup_filter. Qed.

(** Both cleaning passes. *)
Lemma runs_clean fs d p pattern e1 e2 e3 e4 l :
  has_dir fs d → temps_ok eu fs → NoDup l → (∀ n, n ∈ l ↔ n ∈ names_of fs d) →
  temp_prefix p →
  (∀ n f, String.prefix p n = true → temp_ok eu n f → pattern n = true) →
  runs fs (for_each (List.filter (String.prefix p) l) (remove_temporary d pattern e1 e2 e3 e4))
    (λ _ fs', swept d (List.filter (String.prefix p) l) fs fs' ∧ quiet eu fs fs' ∧ clear d p fs')
    (λ e fs', fault md e ∧ quiet eu fs fs').
Proof.
  intros Hd HT Hnd Hl Hp Hpat. set (temps := List.filter (String.prefix p) l).
  assert (∀ n, n ∈ temps → is_temp n = true) as Htemp.
  { intros n [Hn _]%elem_of_prefix_filter. by eapply prefix_temp. }
  eapply runs_mono; [apply runs_remove_all; [done|by apply nodup_filter|]|..]; cbv beta.
  - intros n Hn. pose proof (Htemp n Hn) as Ht. apply elem_of_prefix_filter in Hn as [Hpn Hn].
    apply Hl, elem_of_names_of in Hn as [f Hf]. pose proof (HT d n f (temp_scratch n Ht) Hf) as Hok.
    split; [by eapply Hpat|]. by exists f.
  - intros _ fs' Hs. split; [done|]. split; [by eapply swept_quiet|].
    intros n Hn. rewrite (sw_entry _ _ _ _ Hs). case_bool_decide as Hin; [done|].
    destruct (entry fs d n) as [f|] eqn:Hf; [|done]. destruct Hin. split; [done|].
    apply elem_of_prefix_filter. split; [done|]. apply Hl, elem_of_names_of. by exists f.
  - intros e fs' (He & l' & Hl' & Hs). split; [done|]. eapply swept_quiet; [|done].
    intros n Hn. by apply Htemp, Hl'.
Qed.

Lemma reads_fsync_when fs b : reads fs (when b sys_fsync) (Ok tt).
Proof. destruct b; [apply reads_fsync|apply reads_ret]. Qed.

Lemma runs_clean_source fs d :
  has_dir fs d → temps_ok eu fs →
  runs fs (clean_source d)
    (λ _ fs', quiet eu fs fs' ∧ clear d FENCE_TEMP_PREFIX fs')
    (λ e fs', fault md e ∧ quiet eu fs fs').
Proof.
  intros Hd HT. unfold clean_source. assert (quiet eu fs fs) as Hrefl by done.
  eapply runs_reads; [by apply reads_listdir| |auto].
  apply runs_bind. eapply runs_mono; [apply (runs_clean fs d); try done|..]; cbv beta.
  - apply names_of_nodup.
  - by right.
  - intros n f Hp Hok. by apply Hok.
  - intros _ fs' (_ & Hq & Hc). eapply runs_mono; [apply reads_fsync_when|..]; cbv beta.
    + by intros _ fs'' [-> _].
    + by intros e fs'' [-> [[=]|He]].
  - done.
Qed.

Lemma runs_clean_quarantine fs d :
  has_dir fs d → temps_ok eu fs →
  runs fs (clean_quarantine d)
    (λ names fs', quiet eu fs fs' ∧ clear d TRANSACTION_TEMP_PREFIX fs'
       ∧ (∀ d' p, clear d' p fs → clear d' p fs')
       ∧ NoDup names ∧ ∀ n, n ∈ names ↔ is_Some (entry fs' d n))
    (λ e fs', fault md e ∧ quiet eu fs fs').
Proof.
  intros Hd HT. unfold clean_quarantine. assert (quiet eu fs fs) as Hrefl by done.
  eapply runs_reads; [by apply reads_listdir| |auto].
  set (l := sort_by id str_leb (names_of fs d)).
  assert (NoDup l) as Hnd by (unfold l; rewrite sort_by_perm; apply names_of_nodup).
  apply runs_bind. eapply runs_mono; [apply (runs_clean fs d _ _ _ _ _ _ l); try done|..];
    cbv beta.
  - intros n. apply elem_of_sort_by.
  - by left.
  - intros n f Hp Hok. by apply Hok.
  - intros _ fs' (Hs & Hq & Hc). eapply runs_reads; [apply reads_fsync_when| |auto].
    apply runs_ret. split; [done|]. split; [done|]. split; [intros d' p; by eapply swept_clear|].
    split; [by apply nodup_filter|]. intros n.
    rewrite list_elem_of_In, filter_In, <-list_elem_of_In, (sw_entry _ _ _ _ Hs).
    unfold l at 1. rewrite elem_of_sort_by, elem_of_names_of. repeat case_bool_decide; naive_solver.
  - done.
Qed.
End Clean.

(** ** The intents *)

Lemma span_hex_dot txid s :
  string_forall is_hex txid = true → before_dot (txid +:+ "." +:+ s) = txid.
Proof.
  intros Hh. unfold before_dot. rewrite span_app; [done| |done].
  induction txid as [|c t IH]; [done|]. simpl in *. reflect. rewrite IH by done.
  rewrite andb_true_r. destruct (Ascii.eqb_spec c "."); [by subst|done].
Qed.

Lemma record_name_prefix txid stage : String.prefix "ecpa-" (record_name txid stage) = true.
Proof. apply prefix_app. Qed.

Lemma record_name_suffix txid stage :
  endswith ("." +:+ stage +:+ ".json") (record_name txid stage) = true.
Proof.
  apply endswith_app. exists ("ecpa-" +:+ txid). unfold record_name. by rewrite !str_app_assoc.
Qed.

Lemma record_is_transaction txid stage : is_transaction_name (record_name txid stage) = true.
Proof.
  unfold is_transaction_name. rewrite record_name_prefix. apply endswith_app.
  exists ("ecpa-" +:+ txid +:+ "." +:+ stage). unfold record_name. by rewrite !str_app_assoc.
Qed.

Lemma endswith_tail q a s :
  (String.length q ≤ String.length s)%nat → endswith q (a +:+ s) = endswith q s.
Proof.
  intros Hl. unfold endswith. rewrite str_length_app.
  rewrite !(proj2 (Nat.leb_le _ _)) by lia. do 2 f_equal.
  replace (String.length a + String.length s - String.length q)%nat
    with (String.length a + (String.length s - String.length q))%nat by lia.
  induction a as [|c a IH]; [done|]. exact IH.
Qed.

(** Among the stages, only the intent's name ends in [.intent.json]. *)
Lemma record_intent_suffix txid stage :
  stage ∈ stages → endswith ".intent.json" (record_name txid stage) = (stage =? "intent").
Proof.
  intros Hs. unfold record_name. rewrite str_app_assoc.
  unfold stages in Hs. set_unfold in Hs.
  destruct_or! Hs; subst; by rewrite endswith_tail by (vm_compute; lia).
Qed.

Section Names.
Context `{Sha256} `{!Sha256Laws} (eu : Z) (sid qid : ident).

(** The transactions of a quarantine directory: those with records in it. *)
Definition population (fs : fsys) (ts : list tx) : Prop :=
  NoDup (map t_id ts)
  ∧ (∀ t, t ∈ ts → is_Some (entry fs qid (t_record t "intent")))
  ∧ ∀ n, is_transaction_name n = true → is_Some (entry fs qid n) →
      ∃ t stage, t ∈ ts ∧ stage ∈ stages ∧ n = t_record t stage.

Lemma map_result_units {A} (f : A → result unit) l :
  (∀ x, x ∈ l → f x = Ok tt) → ∃ us, map_result f l = Ok us.
Proof.
  induction l as [|x l IH]; intros Hf; [by eexists|]. simpl. rewrite Hf by by left.
  destruct IH as [us ->]; [intros; apply Hf; by right|]. by eexists.
Qed.

(** No unknown and no orphan records: the intents of the transactions, each once. *)
Lemma intent_names_ok fs ts names :
  population fs ts → NoDup names → (∀ n, n ∈ names ↔ is_Some (entry fs qid n)) →
  ∃ ts', intent_names names = Ok (map (λ t, t_record t "intent") ts') ∧ ts' ≡ₚ ts.
Proof.
  intros (Hnd & Hint & Hall) Hnames Hin. unfold intent_names.
  set (tnames := List.filter is_transaction_name names).
  assert (∀ n, n ∈ tnames → ∃ t stage, t ∈ ts ∧ stage ∈ stages ∧ n = t_record t stage) as Ht.
  { intros n [Hn1 Hn2]%list_elem_of_In%filter_In. apply Hall; [done|].
    by apply Hin, list_elem_of_In. }
  set (intents := List.filter (endswith ".intent.json") tnames).
  assert (∀ n, n ∈ intents ↔ ∃ t, t ∈ ts ∧ n = t_record t "intent") as Hintents.
  { intros n. unfold intents. rewrite list_elem_of_In, filter_In, <-list_elem_of_In. split.
    - intros [(t & stage & Hts & Hs & ->)%Ht He]. exists t. split; [done|].
      unfold t_record in *. rewrite record_intent_suffix in He by done. reflect. by subst.
    - intros (t & Hts & ->). split.
      + unfold tnames. rewrite list_elem_of_In, filter_In, <-list_elem_of_In. split.
        * by apply Hin, Hint.
        * apply record_is_transaction.
      + exact (record_name_suffix (t_id t) "intent"). }
  rewrite (proj2 (forallb_forall _ _)).
  2:{ intros n Hn%list_elem_of_In. destruct (Ht n Hn) as (t & stage & _ & Hs & ->).
      apply existsb_exists. exists stage. split; [by apply list_elem_of_In|].
      apply record_name_suffix. }
  cbn [check mbind result_bind].
  edestruct (map_result_units (λ name, intent ← _record_name (before_dot (removeprefix "ecpa-" name)) "intent";
    check (bool_decide (intent ∈ intents)) (QuarantineTransactionError
      "quarantine transaction directory has an orphan record")) tnames) as [us Hus].
  { intros n Hn. destruct (Ht n Hn) as (t & stage & Hts & Hs & ->).
    unfold t_record, record_name at 1. rewrite strip_prefix_removed.
    destruct (t_id_ok t) as [Hl Hh]. rewrite span_hex_dot by done.
    rewrite (t_record_ok t "intent") by done. cbn [mbind result_bind].
    rewrite bool_decide_true; [done|]. apply Hintents. by exists t. }
  rewrite Hus. cbn [mbind result_bind].
  assert (intents ≡ₚ map (λ t, t_record t "intent") ts) as Hp.
  { apply NoDup_Permutation.
    - by do 2 apply nodup_filter.
    - change (NoDup ((λ t, record_name (t_id t) "intent") <$> ts)).
      rewrite (list_fmap_compose t_id (λ x, record_name x "intent") ts : (λ t, record_name (t_id t) "intent") <$> ts = _).
      apply NoDup_fmap_2_strong; [|done].
      intros x y (t & -> & _)%list_elem_of_fmap (t' & -> & _)%list_elem_of_fmap E.
      by apply record_name_inj in E as [-> _]; [|apply t_id_ok..].
    - intros n. rewrite Hintents, list_elem_of_fmap. naive_solver. }
  apply Permutation_map_inv in Hp as (ts' & E & Hp').
  exists ts'. split; [by rewrite E|]. by symmetry.
Qed.
End Names.
