(* ===== verification/QuarantineReconcile.v ===== *)
(** * QuarantineReconcile: reconciling a directory of transactions

    [known] transactions that share no file are reconciled one after the other; each follows the
    abstract machine, none disturbs another, and without faults all that can be settled are. *)

From stdpp Require Import relations sorting.
From S2P Require Import Prelude Effects Json JsonText Base64 Sha256 HostEvidence JournalFs HostEventSink Quarantine QuarantineRecovery JournalProofs SinkProofs RecordProofs QuarantineState QuarantineSteps QuarantinePaths QuarantineSettle QuarantineClean.

Local Open Scope string_scope.

Section Reconcile.
Context `{Sha256} `{!Sha256Laws} `{Entropy} `{!EntropyLaws} (md : mode) (eu : Z).
Context (S Q : string) (sid qid : ident) (max_bytes : Z).
Context (Hids : sid ≠ qid) (Hdev : sid.1 = qid.1) (Hpaths : S ≠ Q) (Hmax : (0 < max_bytes)%Z).
Abbreviation tx_ok := (tx_ok sid qid).
Abbreviation holds := (holds eu sid qid).
Abbreviation owned := (owned sid qid).
Abbreviation touched := (touched eu sid qid).
Abbreviation runs := (JournalProofs.runs md eu).
Abbreviation reads := (JournalProofs.reads md eu).
Abbreviation roots := (roots eu S Q sid qid).
Abbreviation sized := (sized sid qid max_bytes).
Abbreviation steps := (QuarantineState.steps (wild md)).
Abbreviation reached := (reached md eu sid qid).
Abbreviation settleable := (settleable eu sid max_bytes).
Abbreviation no_temps := (no_temps sid qid).
Abbreviation journal_at := (journal_at sid qid).

(** ** Transactions that share no file *)

Definition separate (ts : list tx) : Prop :=
  NoDup (map t_id ts) ∧ ∀ t t', t ∈ ts → t' ∈ ts → t_id t ≠ t_id t' → apart t t'.

Lemma nodup_map_inj {A B} (f : A → B) l x y :
  NoDup (map f l) → x ∈ l → y ∈ l → f x = f y → x = y.
Proof.
  induction l as [|z l IH]; intros Hnd Hx Hy E; [by apply elem_of_nil in Hx|].
  apply NoDup_cons in Hnd as [Hz Hnd].
  apply elem_of_cons in Hx as [-> | Hx], Hy as [-> | Hy]; auto.
  - destruct Hz. rewrite E. by apply list_elem_of_fmap_2.
  - destruct Hz. rewrite <-E. by apply list_elem_of_fmap_2.
Qed.

Lemma owned_apart t t' d n :
  tx_ok t → tx_ok t' → apart t t' → owned t' d n → ¬ owned t d n.
Proof.
  intros Ht Ht' (K1 & K2 & K3) [[-> [->|(st & Hst & ->)]]|[-> [-> | ->]]];
    (intros [[E1 [E2|(st' & Hst' & E2)]]|[E1 [E2|E2]]]); try done.
  - by apply jsonl_not_record in E2; [|apply Ht'].
  - symmetry in E2. by apply jsonl_not_record in E2; [|apply Ht].
  - by apply t_record_inj in E2 as [E2 _].
  - by apply jsonl_not_fence in E2; [|apply Ht'].
  - symmetry in E2. by apply jsonl_not_fence in E2; [|apply Ht].
Qed.

(** What is known of the transactions of a directory. *)
Definition known (fs : fsys) (ts : list tx) (σ : tx → state) : Prop :=
  ∀ t, t ∈ ts → sized t ∧ holds fs t (σ t) ∧ inv (σ t).

Definition upd (t : tx) (s : state) (σ : tx → state) : tx → state :=
  λ t', if decide (t_id t' = t_id t) then s else σ t'.

Lemma upd_eq t s σ : upd t s σ t = s.
Proof. unfold upd. by rewrite decide_True. Qed.

Lemma upd_ne t t' s σ : t_id t' ≠ t_id t → upd t s σ t' = σ t'.
Proof. intros. unfold upd. by rewrite decide_False. Qed.

Record progress (ts : list tx) (σ : tx → state) (fs : fsys) (σ' : tx → state) (fs' : fsys)
    : Prop := {
  pg_steps t : t ∈ ts → steps (σ t) (σ' t);
  pg_known : known fs' ts σ';
  pg_layout : same_layout fs fs';
  pg_temps : temps_ok eu fs → temps_ok eu fs';
  pg_journal t : t ∈ ts → journal_at fs' t = journal_at fs t;
  pg_frame d n : scratch n = false → (∀ t, t ∈ ts → ¬ owned t d n) →
    entry fs' d n = entry fs d n;
}.

Lemma progress_refl ts σ fs : known fs ts σ → progress ts σ fs σ fs.
Proof. intros Hk. split; try done. Qed.

Lemma progress_trans ts σ1 fs1 σ2 fs2 σ3 fs3 :
  progress ts σ1 fs1 σ2 fs2 → progress ts σ2 fs2 σ3 fs3 → progress ts σ1 fs1 σ3 fs3.
Proof.
  intros [A1 B1 C1 D1 E1 F1] [A2 B2 C2 D2 E2 F2]. split; auto.
  - intros t Ht. etrans; [by apply A1|by apply A2].
  - by etrans.
  - intros t Ht. rewrite E2, E1; done.
  - intros d n Hn Ho. rewrite F2, F1; done.
Qed.

Lemma progress_quiet ts σ fs fs' :
  known fs ts σ → quiet eu fs fs' → progress ts σ fs σ fs'.
Proof.
  intros Hk Hq. split; try apply Hq; try done.
  - intros t Ht. destruct (Hk t Ht) as ([Hok Hsz] & Hh & Hi).
    split; [done|]. split; [by eapply holds_quiet|done].
  - intros t Ht. destruct (Hk t Ht) as ([Hok Hsz] & Hh & Hi).
    apply journal_at_same. intros d. apply Hq, Hok.
  - intros d n Hn _. by apply Hq.
Qed.

Lemma apart_same ts σ fs t t' fs' :
  separate ts → known fs ts σ → t ∈ ts → t' ∈ ts → t_id t' ≠ t_id t → touched t fs fs' →
  ∀ d n, owned t' d n → entry fs' d n = entry fs d n.
Proof.
  intros [_ Hsep] Hk Ht Ht' Hne Htc d n Ho.
  destruct (Hk t Ht) as ([Hok _] & _), (Hk t' Ht') as ([Hok' _] & _).
  apply Htc; [by eapply owned_scratch|]. eapply owned_apart; [..|done]; try done.
  apply Hsep; [done..|]. congruence.
Qed.

Lemma separate_inj ts t t' : separate ts → t ∈ ts → t' ∈ ts → t_id t' = t_id t → t' = t.
Proof. intros [Hnd _] Ht Ht' E. exact (nodup_map_inj t_id ts t' t Hnd Ht' Ht E). Qed.

(** One transaction moved on, the others stay. *)
Lemma progress_one ts σ fs t s' fs' :
  separate ts → known fs ts σ → t ∈ ts → steps (σ t) s' → holds fs' t s' → touched t fs fs' →
  progress ts σ fs (upd t s' σ) fs'.
Proof.
  intros Hsep Hk Ht Hs Hh Htc.
  assert (∀ t', t' ∈ ts → t_id t' = t_id t → t' = t) as Hinj by (intros; by eapply separate_inj).
  split; try apply Htc.
  - intros t' Ht'. unfold upd. case_decide as E; [|constructor]. by rewrite (Hinj t' Ht' E).
  - intros t' Ht'. destruct (Hk t' Ht') as (Hsz & Hh' & Hi). split; [done|].
    unfold upd. case_decide as E.
    + pose proof (Hinj t' Ht' E). subst t'. split; [done|]. by apply (inv_steps _ _ _ Hs).
    + split; [|done]. eapply holds_same; [|done].
      exact (apart_same ts σ fs t t' fs' Hsep Hk Ht Ht' E Htc).
  - intros t' Ht'. destruct (decide (t_id t' = t_id t)) as [E|E].
    + rewrite (Hinj t' Ht' E). apply Htc.
    + unfold QuarantineState.journal_at.
      pose proof (apart_same ts σ fs t t' fs' Hsep Hk Ht Ht' E Htc) as K.
      rewrite !K; [done|right; auto|left; auto].
  - intros d n Hn Ho. apply Htc; [done|]. by apply Ho.
Qed.

(** ** The loop *)

Definition was_restored (σ : tx → state) (t : tx) : bool := is_some (s_restored (σ t)).

Definition result_of (σ : tx → state) (ts : list tx) (r0 f0 : list string)
    : ReconciliationResult :=
  mkReconciliation (r0 ++ map t_id (List.filter (was_restored σ) ts))%list
    (f0 ++ map t_id (List.filter (λ t, negb (was_restored σ t)) ts))%list.

(** The journal of a transaction in place being the same, so is what can be done with it. *)
Lemma settleable_same fs fs' t s :
  journal_at fs' t = journal_at fs t → holds fs t s → holds fs' t s →
  settleable fs t s → settleable fs' t s.
Proof.
  intros Hj Hh Hh' (K1 & K2 & K3). split; [done|]. split; [done|]. intros Hp.
  destruct (K3 Hp) as (f & Hf & Hread). exists f. split; [|done].
  pose proof (h_place _ _ _ _ _ _ Hh) as P1. pose proof (h_place _ _ _ _ _ _ Hh') as P2.
  rewrite Hp in P1, P2. destruct P1 as [P1 _], P2 as [P2 _].
  unfold QuarantineState.journal_at in Hj. by rewrite P1, P2, Hf in Hj.
Qed.

Definition restored_outcome (o : settled) : bool :=
  match o with SettledRestored => true | SettledFinalized => false end.

Lemma settled_done o s :
  inv s → settled_as o s → done_state s ∧ is_some (s_restored s) = restored_outcome o.
Proof.
  intros Hinv Ho. destruct o.
  - split; [by left|]. by destruct Ho as [r ->].
  - destruct Ho as ([f Hf] & Hb & Hp). split; [right; split; [by eexists|done]|].
    destruct (inv_finalized s Hinv f Hf) as (_ & -> & _). done.
Qed.

(** What a part of the loop leaves: the given transactions settled, the others in the states
    they were in. *)
Definition settles (ts todo : list tx) (σ : tx → state) (fs : fsys) (σ' : tx → state)
    (fs' : fsys) : Prop :=
  progress ts σ fs σ' fs' ∧ (no_temps fs → no_temps fs')
  ∧ (∀ t, t ∈ todo → done_state (σ' t) ∧ settleable fs' t (σ' t))
  ∧ ∀ t, t ∈ ts → t ∉ todo → σ' t = σ t.

Lemma runs_reconcile_all ts todo : ∀ fs σ r0 f0,
  separate ts → NoDup todo → todo ⊆ ts → roots fs → known fs ts σ →
  runs fs (reconcile_all S Q sid qid max_bytes sid qid
             (map (λ t, t_record t "intent") todo) r0 f0)
    (λ r fs', ∃ σ', r = result_of σ' todo r0 f0 ∧ settles ts todo σ fs σ' fs')
    (λ e fs', ∃ σ', progress ts σ fs σ' fs'
       ∧ (fault md e ∨ (∃ t, t ∈ todo ∧ ¬ settleable fs t (σ t)) ∨ ¬ no_temps fs)).
Proof.
  induction todo as [|t todo IH]; intros fs σ r0 f0 Hsep Hnd Hsub Hr Hk.
  { apply runs_ret. exists σ. unfold result_of. rewrite !app_nil_r. split; [done|].
    split; [by apply progress_refl|]. split; [done|]. split; [|done].
    by intros t Ht%elem_of_nil. }
  apply NoDup_cons in Hnd as [Hnt Hnd]. assert (t ∈ ts) as Ht by set_solver.
  destruct (Hk t Ht) as (Hsz & Hh & Hi). cbn [map reconcile_all].
  apply runs_bind. eapply runs_mono; [by apply (runs_reconcile_one md eu S Q sid qid max_bytes
    Hids Hdev Hpaths Hmax fs t (σ t))|..]; cbv beta.
  2:{ intros e fs' [(s' & Hs' & Hh' & Htc) He]. exists (upd t s' σ).
      split; [by apply progress_one|]. destruct He as [He|[He|He]]; [auto| |auto].
      right. left. exists t. split; [by left|done]. }
  intros o fs1 (s1 & (Hs1 & Hh1 & Htc1 & Hnt1) & Ho & Hset).
  set (σ1 := upd t s1 σ). assert (progress ts σ fs σ1 fs1) as P1 by by apply progress_one.
  assert (inv s1) as Hi1 by by eapply inv_steps.
  assert (∀ t', t' ∈ todo → t_id t' ≠ t_id t) as Hne.
  { intros t' Ht' E. destruct Hnt. by rewrite <-(separate_inj ts t t' Hsep Ht) by set_solver. }
  destruct (settled_done o s1 Hi1 Ho) as [Hdone Hwas].
  set (r1 := if restored_outcome o then (r0 ++ [t_id t])%list else r0).
  set (f1 := if restored_outcome o then f0 else (f0 ++ [t_id t])%list).
  rewrite (intent_id (t_id t) : intent_transaction_id (t_record t "intent") = _).
  replace (match o with SettledRestored => _ | SettledFinalized => _ end) with
    (reconcile_all S Q sid qid max_bytes sid qid (map (λ t, t_record t "intent") todo) r1 f1)
    by by destruct o.
  eapply runs_mono; [apply (IH fs1 σ1 r1 f1)|..]; try done; cbv beta.
  - set_solver.
  - by eapply touched_roots.
  - apply P1.
  - intros r fs' (σ' & -> & P2 & Hnt2 & Hall & Hrest). exists σ'.
    assert (σ' t = s1) as Et by (rewrite Hrest by done; apply upd_eq).
    split.
    { assert (was_restored σ' t = restored_outcome o) as Hr' by (unfold was_restored; by rewrite Et).
      unfold result_of. cbn [List.filter]. rewrite Hr'. unfold r1, f1. destruct o; cbn [restored_outcome negb map]; by rewrite <-app_assoc. }
    split; [by eapply progress_trans|]. split; [auto|]. split.
    + intros t' [-> | Ht']%elem_of_cons; [|by apply Hall]. rewrite Et. split; [done|].
      eapply (settleable_same fs1); [by apply P2|done| |done].
      destruct (pg_known _ _ _ _ _ P2 t Ht) as (_ & K & _). by rewrite Et in K.
    + intros t' Ht' Hno. rewrite Hrest by set_solver. apply upd_ne.
      intros E. apply Hno. rewrite (separate_inj ts t t' Hsep Ht Ht' E). by left.
  - intros e fs' (σ' & P2 & He). exists σ'. split; [by eapply progress_trans|].
    destruct He as [He|[(t' & Ht' & He)|He]]; [by left| |].
    + right. left. exists t'. split; [by right|]. intros Hset'. apply He.
      assert (t' ∈ ts) as Hts by set_solver. destruct (Hk t' Hts) as (_ & Hh' & _).
      unfold σ1. rewrite upd_ne in * by by apply Hne.
      eapply (settleable_same fs); [by apply P1|done| |done].
      destruct (pg_known _ _ _ _ _ P1 t' Hts) as (_ & K & _). unfold σ1 in K.
      by rewrite upd_ne in K by by apply Hne.
    + right. right. auto.
Qed.

(** ** The whole reconciliation *)

Lemma transaction_not_scratch n : is_transaction_name n = true → scratch n = false.
Proof.
  unfold is_transaction_name. intros [Hn _]%andb_true_iff. destruct n as [|c n]; [done|].
  cbn [String.prefix] in Hn. by destruct (ascii_dec "e" c) as [<-|].
Qed.

Lemma population_quiet fs fs' ts :
  quiet eu fs fs' → population qid fs ts → population qid fs' ts.
Proof.
  intros Hq (Hnd & Hi & Hall). split; [done|]. split.
  - intros t Ht. rewrite (q_same _ _ _ Hq); [by apply Hi|]. apply record_name_scratch.
  - intros n Hn. rewrite (q_same _ _ _ Hq) by by apply transaction_not_scratch. by apply Hall.
Qed.

(** No record appears but those of the transactions. *)
Lemma population_progress ts σ fs σ' fs' :
  progress ts σ fs σ' fs' → population qid fs ts → population qid fs' ts.
Proof.
  intros P (Hnd & Hi & Hall). split; [done|]. split.
  - intros t Ht. destruct (pg_known _ _ _ _ _ P t Ht) as (_ & Hh & _).
    destruct (h_intent _ _ _ _ _ _ Hh) as (f & Hf & _). by exists f.
  - intros n Hn He.
    destruct (decide (Exists (λ t, Exists (λ st, n = t_record t st) stages) ts)) as [Hex|Hno].
    + apply Exists_exists in Hex as (t & Ht & (st & Hst & ->)%Exists_exists). by exists t, st.
    + apply Hall; [done|]. rewrite <-(pg_frame _ _ _ _ _ P); [done|..].
      * by apply transaction_not_scratch.
      * intros t Ht [[_ [->|(st & Hst & ->)]]|[E _]]; [| |by apply Hids].
        -- unfold is_transaction_name in Hn. apply andb_true_iff in Hn as [_ Hn].
           apply endswith_app in Hn as [p Hp].
           destruct (pg_known _ _ _ _ _ P t Ht) as ([Hok _] & _).
           pose proof (ok_name _ _ _ Hok) as Hj. unfold journal_name_ok in Hj.
           apply andb_true_iff in Hj as [_ Hj]. apply endswith_app in Hj as [q Hq].
           rewrite Hp in Hq. change ".json" with (".jso" +:+ "n") in Hq.
           change ".jsonl" with (".json" +:+ "l") in Hq. rewrite !str_app_assoc in Hq.
           by apply last_char in Hq.
        -- apply Hno, Exists_exists. exists t. split; [done|]. apply Exists_exists. by exists st.
Qed.

(** What the directories hold when a reconciliation starts. *)
Record recoverable (fs : fsys) (ts : list tx) (σ : tx → state) : Prop := {
  rv_roots : roots fs;
  rv_separate : separate ts;
  rv_known : known fs ts σ;
  rv_population : population qid fs ts;
  rv_temps : temps_ok eu fs;
}.

Lemma recoverable_progress ts σ fs σ' fs' :
  recoverable fs ts σ → progress ts σ fs σ' fs' → recoverable fs' ts σ'.
Proof.
  intros [K1 K2 K3 K4 K5] P. split; [|done|by apply P|by eapply population_progress|by apply P].
  eapply roots_layout; [apply P|done].
Qed.

Lemma recoverable_quiet ts σ fs fs' :
  recoverable fs ts σ → quiet eu fs fs' → recoverable fs' ts σ.
Proof.
  intros Hrec Hq. eapply recoverable_progress; [done|]. by apply progress_quiet; [apply Hrec|].
Qed.

(** All settled, and the result says which way. *)
Definition all_settled (ts : list tx) (σ : tx → state) (fs : fsys) (r : ReconciliationResult)
    (σ' : tx → state) (fs' : fsys) : Prop :=
  (∃ ts', ts' ≡ₚ ts ∧ r = result_of σ' ts' [] [])
  ∧ progress ts σ fs σ' fs' ∧ no_temps fs'
  ∧ ∀ t, t ∈ ts → done_state (σ' t) ∧ settleable fs' t (σ' t).

Lemma runs_reconcile_locked fs ts σ :
  recoverable fs ts σ →
  runs fs (_reconcile_quarantine_transactions_locked S Q sid qid max_bytes)
    (λ r fs', ∃ σ', all_settled ts σ fs r σ' fs')
    (λ e fs', ∃ σ', progress ts σ fs σ' fs'
       ∧ (fault md e ∨ ∃ t, t ∈ ts ∧ ¬ settleable fs t (σ t))).
Proof.
  intros Hrec. pose proof Hrec as [[HS HQ] Hsep Hk Hpop HT].
  assert (∀ e, fault md e → ∃ σ', progress ts σ fs σ' fs
       ∧ (fault md e ∨ ∃ t, t ∈ ts ∧ ¬ settleable fs t (σ t))) as HF.
  { intros e He. exists σ. split; [by apply progress_refl|by left]. }
  unfold _reconcile_quarantine_transactions_locked.
  eapply runs_reads; [by apply reads_root| |done]. cbv iota beta.
  eapply runs_reads; [by apply reads_root| |done]. cbv iota beta.
  destruct (ro_dir _ _ _ _ HS) as (dir & Hdir & _), (ro_dir _ _ _ _ HQ) as (qdir & Hqdir & _).
  eapply runs_reads; [by apply reads_fstat_dir| |done].
  eapply runs_reads; [by apply reads_fstat_dir| |done].
  rewrite (proj2 (Z.eqb_eq _ _) Hdev), bool_decide_false by done. apply runs_bind, runs_ret.
  apply runs_bind. eapply runs_mono; [by apply (runs_clean_source md eu fs sid); [eauto with py_db|]|..];
    cbv beta.
  2:{ intros e fs' [He Hq]. exists σ. split; [by apply progress_quiet|by left]. }
  intros _ fs1 [Hq1 Hc1]. assert (recoverable fs1 ts σ) as [[HS1 HQ1] _ Hk1 Hpop1 HT1]
    by by eapply recoverable_quiet.
  apply runs_bind. eapply runs_mono;
    [by apply (runs_clean_quarantine md eu fs1 qid); [eauto with py_db|]|..]; cbv beta.
  2:{ intros e fs' [He Hq]. exists σ. split; [by apply progress_quiet; [|by etrans]|by left]. }
  intros names fs2 (Hq2 & Hc2 & Hkeep & Hnd & Hnames).
  assert (quiet eu fs fs2) as Hq by by etrans.
  destruct (recoverable_quiet ts σ fs fs2 Hrec Hq) as [Hr2 _ Hk2 Hpop2 HT2].
  assert (no_temps fs2) as Hnt by by split; [apply Hkeep|].
  destruct (intent_names_ok qid fs2 ts names Hpop2 Hnd Hnames) as (ts' & Hin & Hp).
  apply runs_bind. rewrite Hin. apply runs_ret.
  eapply runs_mono; [apply (runs_reconcile_all ts ts' fs2 σ); try done|..]; cbv beta.
  - destruct Hsep as [Hids' _]. rewrite <-Hp in Hids'. by eapply NoDup_fmap_1.
  - intros t. by rewrite Hp.
  - intros r fs' (σ' & -> & P & Hnt' & Hall & _). exists σ'. split; [by exists ts'|].
    split; [eapply progress_trans; [by apply progress_quiet|done]|]. split; [auto|].
    intros t Ht. apply Hall. by rewrite Hp.
  - intros e fs' (σ' & P & He). exists σ'.
    split; [eapply progress_trans; [by apply progress_quiet|done]|].
    destruct He as [He|[(t & Ht & He)|He]]; [by left| |done]. right. exists t. rewrite Hp in Ht.
    split; [done|]. intros Hset. apply He. destruct (Hk t Ht) as (_ & Hh & _).
    destruct (Hk2 t Ht) as (_ & Hh2 & _). eapply (settleable_same fs); try done.
    apply (pg_journal ts σ fs σ fs2); [by apply progress_quiet|done].
Qed.
End Reconcile.
