(* ===== verification/QuarantineTheorems.v ===== *)
(** * QuarantineTheorems: what the quarantine transactions guarantee

    Reconciliation under any faults and after any crash, the operations of a transaction as steps
    of the abstract machine, and what the reachable states promise. *)

From stdpp Require Import relations sorting.
From S2P Require Import Prelude Effects Json JsonText Base64 Sha256 HostEvidence JournalFs HostEventSink Quarantine QuarantineRecovery JournalProofs SinkProofs RecordProofs QuarantineState QuarantineSteps QuarantinePaths QuarantineSettle QuarantineClean QuarantineReconcile.

Local Open Scope string_scope.

(** How a run ends: with a result, or with an exception. *)
Definition ends {A} (o : result A * World) (Q : A → World → Prop) (R : exn → World → Prop) : Prop :=
  match o with
  | (Ok a, w') => Q a w'
  | (Err e, w') => R e w'
  end.

(** ** The lease *)

Section Lease.
Context `{Sha256} (md : mode) (eu : Z) (S : string) (sid : ident).
Abbreviation runs := (JournalProofs.runs md eu).
Abbreviation reads := (JournalProofs.reads md eu).

Definition busy : exn := QuarantineTransactionError "another quarantine transaction is active".
Definition invalid_lease : exn :=
  QuarantineTransactionError "quarantine transaction lease is invalid".

Lemma runs_open_create fs d name mode (Q : unit → fsys → Prop) R :
  (∀ f, entry fs d name = Some f → f_kind f ≠ Symlink) →
  (∀ f, entry fs d name = Some f → Q tt fs) →
  (entry fs d name = None →
   Q tt (set_next (fs_next fs + 1)
           (set_entry d name (Some (File (fs_next fs) Regular eu mode EmptyString)) fs))) →
  (∀ e, sysfault md e → R e fs) →
  runs fs (sys_open_create d name mode) Q R.
Proof.
  intros Hk HQ HN He. apply runs_syscall; [|done].
  apply runs_bind, (runs_gets_fs md eu fs (λ fs, entry fs d name)).
  destruct (entry fs d name) as [f|] eqn:E.
  - rewrite bool_decide_false by by apply Hk. apply runs_ret. by eapply HQ.
  - Transparent JournalProofs.runs. intros w (<- & <- & H3 & H4). apply wp_modify.
    eexists. split; [|by apply HN]. by repeat split. Opaque JournalProofs.runs.
Qed.

Lemma runs_locks fs f (Q : unit → fsys → Prop) R :
  Q tt fs → runs fs (modify (λ w, set_locks (f w) w)) Q R.
Proof.
  intros HQ. Transparent JournalProofs.runs. intros w Hw. apply wp_modify. exists fs.
  by split. Opaque JournalProofs.runs.
Qed.

Lemma runs_gets_world {A} fs (f : World → A) (Q : A → fsys → Prop) R :
  (∀ a, Q a fs) → runs fs (gets f) Q R.
Proof.
  intros HQ. Transparent JournalProofs.runs. intros w Hw. apply wp_gets. exists fs. by split.
  Opaque JournalProofs.runs.
Qed.

(** The lock is taken, or another holds it. *)
Lemma runs_acquire_lock fs d exclusive nonblocking :
  has_dir fs d → temps_ok eu fs →
  runs fs (_acquire_quarantine_lock d exclusive nonblocking)
    (λ _ fs', quiet eu fs fs')
    (λ e fs', quiet eu fs fs' ∧ (fault md e ∨ is_sink_error e = true ∨ nonblocking = false)).
Proof.
  intros Hd HT. unfold _acquire_quarantine_lock.
  assert (∀ f, entry fs d QUARANTINE_LOCK = Some f → temp_ok eu QUARANTINE_LOCK f) as Hlock
    by (intros f; by apply HT).
  assert (∀ fs1 f1, quiet eu fs fs1 → entry fs1 d QUARANTINE_LOCK = Some f1 →
    temp_ok eu QUARANTINE_LOCK f1 → ∀ Post : ident * string → fsys → Prop,
    (∀ a, Post a fs1) →
    runs fs1 (metadata ← sys_fstat d QUARANTINE_LOCK;
     euid ← gets w_euid;
     raise_if (negb (bool_decide (f_kind metadata = Regular)) || negb (f_uid metadata =? euid)%Z
       || negb (f_mode metadata =? MODE_0600)%Z)
       (HostEventSinkError "host event quarantine lock is unsafe");;
     syscall (held ← gets (λ w, bool_decide ((d, QUARANTINE_LOCK) ∈ w_locks w));
       raise_if held (if nonblocking
         then HostEventSinkError "host event journal is fenced for quarantine" else Killed);;
       when exclusive (modify (λ w, set_locks ({[(d, QUARANTINE_LOCK)]} ∪ w_locks w) w)));;
     mret (d, QUARANTINE_LOCK)) Post
     (λ e fs', quiet eu fs fs' ∧ (fault md (if is_oserror e then HostEventSinkError "" else e)
                                   ∨ is_sink_error e = true ∨ nonblocking = false))) as Hrest.
  { intros fs1 f1 Hq Hf (Hk & Hu & Hm & _) Post HP.
    eapply runs_reads; [by apply reads_fstat| |]; [|intros; split; auto using fault_as].
    apply runs_bind, runs_euid. rewrite bool_decide_true, Hu, Hm, !Z.eqb_refl by done.
    apply runs_bind, runs_ret, runs_bind, runs_syscall.
    - apply runs_bind, runs_gets_world. intros held. apply runs_bind, runs_raise_if; intros _.
      + split; [done|]. right. destruct nonblocking; [by left|by right].
      + apply runs_when; [intros _; by apply runs_locks, runs_ret, HP|intros _; apply runs_ret, HP].
    - intros e He. split; [done|]. left. apply fault_as. eauto with py_db. }
  apply runs_os_error_as. eapply runs_mono with (Q := λ _ fs', quiet eu fs fs') (R := λ e fs', quiet eu fs fs' ∧
    (fault md (if is_oserror e then HostEventSinkError "" else e) ∨ is_sink_error e = true
     ∨ nonblocking = false)).
  - apply runs_bind, runs_open_create.
    + intros f Hf. destruct (Hlock f Hf) as (Hk & _). congruence.
    + intros f Hf. eapply (Hrest fs f); [done..|by apply Hlock|done].
    + intros Hn. set (f0 := File _ _ _ _ _).
      assert (only_entry d QUARANTINE_LOCK fs (set_next (fs_next fs + 1)
        (set_entry d QUARANTINE_LOCK (Some f0) fs))) as [L E] by by apply only_entry_create.
      assert (temp_ok eu QUARANTINE_LOCK f0) as Hok by by repeat split.
      assert (entry (set_next (fs_next fs + 1) (set_entry d QUARANTINE_LOCK (Some f0) fs)) d
        QUARANTINE_LOCK = Some f0) as Hf0 by by rewrite entry_set_next, entry_set, bool_decide_true.
      assert (quiet eu fs (set_next (fs_next fs + 1) (set_entry d QUARANTINE_LOCK (Some f0) fs)))
        as Hq.
      { split; [done|..].
        - intros d' n Hn'. apply E. by intros [-> ->].
        - intros _ d' n g Hs Hg. destruct (decide (d' = d ∧ n = QUARANTINE_LOCK)) as [[-> ->]|Hne].
          + by simplify_eq.
          + rewrite E in Hg by done. by eapply HT. }
      eapply (Hrest _ f0 Hq Hf0 Hok). done.
    + intros e He. split; [done|]. left. apply fault_as. eauto with py_db.
  - done.
  - cbv beta. intros e fs' [Hq He]. split; [done|]. destruct (is_oserror e) eqn:Ee; [by right; left|done].
Qed.

(** A lease, a lock held by another, or a fault. *)
Lemma runs_acquire_lease fs :
  root_ok eu fs S sid → temps_ok eu fs →
  runs fs (acquire_quarantine_transaction_lease S sid)
    (λ l fs', quiet eu fs fs' ∧ l = mkLease S sid (descriptor l) ∧ is_Some (descriptor l))
    (λ e fs', quiet eu fs fs' ∧ (fault md e ∨ e = busy)).
Proof.
  intros Hr HT. unfold acquire_quarantine_transaction_lease.
  assert (quiet eu fs fs) as Hrefl by done.
  eapply runs_reads; [by apply reads_root| |auto]. cbv iota beta.
  apply runs_bind, runs_except. eapply runs_mono;
    [apply runs_acquire_lock; [eauto with py_db|done]|..]; cbv beta.
  - intros d fs' Hq. apply runs_sync; [|auto]. apply runs_ret. split; [done|].
    split; [done|by eexists].
  - intros e fs' [Hq He]. destruct (is_sink_error e) eqn:Ee.
    + apply runs_raise. split; [done|by right].
    + split; [done|]. by destruct He as [He|[He|He]]; [left|..].
Qed.

Lemma reads_require_lease fs l :
  root_ok eu fs S sid → l_root l = S → l_identity l = sid → is_Some (descriptor l) →
  reads fs (_require_lease l S sid) (Ok tt).
Proof.
  intros Hr K1 K2 [d Hd]. unfold _require_lease. rewrite Hd, bool_decide_true by done.
  eapply reads_bind_ok; [apply reads_ret|]. eapply reads_bind_ok; [apply reads_ret|].
  eapply reads_bind_ok.
  { apply (reads_syscall md eu fs (λ fs, fs_real fs !! S)). rewrite (ro_real _ _ _ _ Hr).
    apply reads_ret. }
  rewrite K1, String.eqb_refl. apply reads_ret.
Qed.

Lemma runs_release fs l (Q : unit → fsys → Prop) R :
  Q tt fs → runs fs (close l;; mret tt) Q R.
Proof.
  intros HQ. unfold close. destruct (descriptor l) as [d|].
  - apply runs_bind, runs_bind. unfold release. by apply runs_locks, runs_ret, runs_ret.
  - by apply runs_bind, runs_ret, runs_ret.
Qed.

(** The lease of the caller is a valid one, if there is one. *)
Definition lease_ok (lease : option QuarantineTransactionLease) : Prop :=
  match lease with
  | Some l => l_root l = S ∧ l_identity l = sid ∧ is_Some (descriptor l)
  | None => True
  end.

Lemma runs_with_lease {A} fs lease (body : M World A) (Q : A → fsys → Prop) R :
  root_ok eu fs S sid → temps_ok eu fs → lease_ok lease →
  (∀ fs', quiet eu fs fs' → runs fs' body Q R) →
  (∀ e fs', quiet eu fs fs' → fault md e ∨ e = busy ∧ lease = None → R e fs') →
  runs fs (with_lease lease S sid body) Q R.
Proof.
  intros Hr HT Hl HQ HR. assert (quiet eu fs fs) as Hrefl by done. destruct lease as [l|].
  - destruct Hl as (K1 & K2 & K3). eapply runs_reads; [by apply reads_require_lease|by apply HQ|].
    intros e He. apply HR; auto.
  - unfold with_lease. apply runs_bind. eapply runs_mono; [by apply runs_acquire_lease|..]; cbv beta.
    2:{ intros e fs' [Hq He]. apply HR; [done|]. by destruct He; auto. }
    intros l fs' (Hq & El & Hd). assert (root_ok eu fs' S sid) as Hr'.
    { eapply root_ok_layout; [apply Hq|done]. }
    unfold finally. apply runs_try_else. eapply runs_reads;
      [apply (reads_require_lease fs' l); [done|by rewrite El..|done]| |].
    + eapply runs_mono; [by apply HQ|..].
      * intros a fs'' Ha. by apply runs_bind, runs_release, runs_ret.
      * intros e fs'' He. by apply runs_bind, runs_release, runs_raise.
    + intros e He. apply runs_bind, runs_release, runs_raise, HR; auto.
Qed.
End Lease.

(** ** Reconciliation *)

Section Reconciliation.
Context `{Sha256} `{!Sha256Laws} `{Entropy} `{!EntropyLaws} (eu : Z).
Context (S Q : string) (sid qid : ident) (max_bytes : Z).
Context (Hids : sid ≠ qid) (Hdev : sid.1 = qid.1) (Hpaths : S ≠ Q) (Hmax : (0 < max_bytes)%Z).
Abbreviation holds := (holds eu sid qid).
Abbreviation settleable := (settleable eu sid max_bytes).
Abbreviation journal_at := (journal_at sid qid).
Abbreviation progress md := (progress md eu sid qid max_bytes).
Abbreviation recoverable := (recoverable eu S Q sid qid max_bytes).
Abbreviation all_settled md := (all_settled md eu sid qid max_bytes).
Abbreviation reconcile := (reconcile_quarantine_transactions S Q sid qid max_bytes).

Lemma runs_reconcile md fs ts σ lease :
  recoverable fs ts σ → lease_ok S sid lease →
  runs md eu fs (reconcile lease)
    (λ r fs', ∃ σ', all_settled md ts σ fs r σ' fs')
    (λ e fs', ∃ σ', progress md ts σ fs σ' fs'
       ∧ (fault md e ∨ e = busy ∧ lease = None ∨ ∃ t, t ∈ ts ∧ ¬ settleable fs t (σ t))).
Proof.
  intros Hrec Hl. unfold reconcile_quarantine_transactions.
  assert (∀ fs', quiet eu fs fs' → progress md ts σ fs σ fs') as Hquiet
    by (intros fs' Hq; apply progress_quiet; [apply Hrec|done]).
  apply runs_with_lease; [apply Hrec|apply Hrec|done|..].
  - intros fs1 Hq. eapply runs_mono; [apply (runs_reconcile_locked md eu S Q sid qid max_bytes
      Hids Hdev Hpaths Hmax fs1 ts σ)|..]; cbv beta.
    + by eapply (recoverable_quiet md).
    + intros r fs' (σ' & Hr & P & Hnt & Hall). exists σ'. split; [done|].
      split; [by eapply progress_trans; [apply Hquiet|]|done].
    + intros e fs' (σ' & P & He). exists σ'.
      split; [by eapply progress_trans; [apply Hquiet|]|].
      destruct He as [He|(t & Ht & He)]; [by left|]. right. right. exists t. split; [done|].
      intros Hset. apply He. destruct (rv_known _ _ _ _ _ _ _ _ _ Hrec t Ht) as (_ & Hh & _).
      pose proof (Hquiet fs1 Hq) as P1. destruct (pg_known _ _ _ _ _ _ _ _ _ _ P1 t Ht) as (_ & Hh1 & _).
      eapply (settleable_same eu sid qid max_bytes fs fs1); [|done..].
      by eapply (pg_journal _ _ _ _ _ _ _ _ _ _ P1).
  - intros e fs' Hq He. exists σ. split; [by apply Hquiet|].
    destruct He as [He|He]; auto.
Qed.

(** Without failing calls, what can be settled stays so. *)
Lemma settleable_progress md ts σ fs σ' fs' t :
  wild md = false → known eu sid qid max_bytes fs ts σ → progress md ts σ fs σ' fs' → t ∈ ts →
  settleable fs t (σ t) → settleable fs' t (σ' t).
Proof.
  intros Hw Hk P Ht (K1 & K2 & K3). destruct (Hk t Ht) as (Hsz & Hh & Hi).
  destruct (pg_known _ _ _ _ _ _ _ _ _ _ P t Ht) as (_ & Hh' & _).
  pose proof (pg_steps _ _ _ _ _ _ _ _ _ _ P t Ht) as Hs. rewrite Hw in Hs.
  destruct (steps_unblocked _ _ Hs K1 K2) as [L1 L2]. split; [done|]. split; [done|].
  intros Hp'. pose proof (h_place _ _ _ _ _ _ Hh') as P'. rewrite Hp' in P'. destruct P' as [P' _].
  pose proof (pg_journal _ _ _ _ _ _ _ _ _ _ P t Ht) as Hj. unfold QuarantineState.journal_at in Hj.
  rewrite P' in Hj. destruct (s_place (σ t)) as [|r] eqn:Hp.
  - destruct (K3 eq_refl) as (f & Hf & Hread). exists f.
    pose proof (h_place _ _ _ _ _ _ Hh) as P1. rewrite Hp in P1. destruct P1 as [P1 _].
    by rewrite P1, Hf in Hj.
  - destruct (withheld_readable eu sid qid max_bytes Hdev fs t (σ t) r Hsz Hh Hp)
      as (f & Hf & Hread & _). exists f. by rewrite Hf in Hj.
Qed.

(** The reconciliation run once for each script, whatever becomes of it. *)
Fixpoint crashes {A} (scripts : list (list outcome)) (m : M World A) (w : World) : World :=
  match scripts with
  | [] => w
  | s :: scripts' => crashes scripts' m (m (set_script s w)).2
  end.

Definition kills (s : list outcome) : Prop := Forall (λ o, o ≠ Fail ∧ o ≠ Short 0) s.

(** Every call succeeds, a write perhaps only in part. *)
Definition undisturbed (s : list outcome) : Prop :=
  Forall (λ o, o ≠ Fail ∧ o ≠ Short 0 ∧ o ≠ Kill) s.

Lemma progress_mode md md' ts σ fs σ' fs' :
  wild md = wild md' → progress md ts σ fs σ' fs' → progress md' ts σ fs σ' fs'.
Proof. intros E [P1 P2 P3 P4 P5 P6]. rewrite E in P1. by split. Qed.

(** Every crashed run is progress, after which everything can still be settled. *)
Lemma crashes_progress ts l scripts : ∀ w σ,
  w_euid w = eu → (0 < w_pid w)%Z → Forall kills scripts →
  recoverable (w_fs w) ts σ → lease_ok S sid (Some l) →
  ∃ σ', progress Healthy ts σ (w_fs w) σ' (w_fs (crashes scripts (reconcile (Some l)) w))
    ∧ w_euid (crashes scripts (reconcile (Some l)) w) = eu
    ∧ (0 < w_pid (crashes scripts (reconcile (Some l)) w))%Z.
Proof.
  induction scripts as [|s scripts IH]; intros w σ He Hp Hs Hrec Hl.
  { exists σ. split; [by apply progress_refl, Hrec|]. done. }
  apply Forall_cons in Hs as [Hs Hss]. cbn [crashes].
  assert (at_fs Calm eu (w_fs w) (set_script s w)) as Hw by by repeat split.
  pose proof (runs_elim eu Calm (w_fs w) _ _ _ _ (runs_reconcile Calm (w_fs w) ts σ (Some l) Hrec Hl) Hw)
    as Hrun.
  assert (∃ σ1, progress Healthy ts σ (w_fs w) σ1 (w_fs (reconcile (Some l) (set_script s w)).2)
    ∧ w_euid (reconcile (Some l) (set_script s w)).2 = eu
    ∧ (0 < w_pid (reconcile (Some l) (set_script s w)).2)%Z) as (σ1 & P & He1 & Hp1).
  { destruct (reconcile (Some l) (set_script s w)) as [[r|e] w']; cbn [snd].
    - destruct Hrun as [(_ & He1 & Hp1 & _) (σ1 & _ & P & _)]. exists σ1.
      split; [by eapply (progress_mode Calm)|done].
    - destruct Hrun as [(_ & He1 & Hp1 & _) (σ1 & P & _)]. exists σ1.
      split; [by eapply (progress_mode Calm)|done]. }
  destruct (IH _ σ1 He1 Hp1 Hss) as (σ2 & P2 & He2 & Hp2); [|done|].
  { by eapply recoverable_progress. }
  exists σ2. split; [by eapply progress_trans|done].
Qed.

Definition running (md : mode) (w : World) : Prop :=
  w_euid w = eu ∧ (0 < w_pid w)%Z ∧ mode_ok md w.

(** C1. Reconciliation refines the abstract machine.  Whatever system calls fail and wherever
    the process is killed, every transaction of the directory ends in a state the machine
    reaches from the one it was in, its journal is still the same file, and no file is touched
    but those of the transactions and scratch files.  When [reconcile_quarantine_transactions]
    returns, every transaction is settled and the result names it on the right list; it raises
    only after a fault, when another process holds the lock, or when a transaction needs an
    operator. *)
Theorem reconcile_refines md w ts σ lease :
  running md w → recoverable (w_fs w) ts σ → lease_ok S sid lease →
  ends (reconcile lease w)
    (λ r w', ∃ σ', all_settled md ts σ (w_fs w) r σ' (w_fs w'))
    (λ e w', ∃ σ', progress md ts σ (w_fs w) σ' (w_fs w')
      ∧ (fault md e ∨ e = busy ∧ lease = None ∨ ∃ t, t ∈ ts ∧ ¬ settleable (w_fs w) t (σ t))).
Proof.
  intros (He & Hp & Hm) Hrec Hl.
  pose proof (runs_elim eu md (w_fs w) _ _ _ w (runs_reconcile md (w_fs w) ts σ lease Hrec Hl)) as K.
  unfold ends. destruct (reconcile lease w) as [[r|e] w']; by apply K.
Qed.

(** C2. Crash recovery.  The reconciliation is killed at arbitrary system calls any number of
    times; once it runs undisturbed it settles every transaction that could be settled at the
    start (so its write loops end, even when every write is short), and every journal is the file
    it was, byte for byte: back in place when its transaction is restored, withheld when it is
    finalized. *)
Theorem crash_recovery w ts σ l scripts s :
  w_euid w = eu → (0 < w_pid w)%Z → Forall kills scripts → undisturbed s → lease_ok S sid (Some l) →
  recoverable (w_fs w) ts σ → (∀ t, t ∈ ts → settleable (w_fs w) t (σ t)) →
  ∃ r w' σ',
    reconcile (Some l) (set_script s (crashes scripts (reconcile (Some l)) w)) = (Ok r, w')
    ∧ ∀ t, t ∈ ts → holds (w_fs w') t (σ' t) ∧ done_state (σ' t)
        ∧ journal_at (w_fs w') t = journal_at (w_fs w) t.
Proof.
  intros He Hp Hs Hquiet Hl Hrec Hset.
  destruct (crashes_progress ts l scripts w σ He Hp Hs Hrec Hl) as (σ1 & P1 & He1 & Hp1).
  set (w1 := crashes scripts (reconcile (Some l)) w) in *.
  assert (recoverable (w_fs w1) ts σ1) as Hrec1 by by eapply recoverable_progress.
  assert (at_fs Healthy eu (w_fs w1) (set_script s w1)) as Hw by by repeat split.
  pose proof (runs_elim eu Healthy _ _ _ _ _ (runs_reconcile Healthy _ ts σ1 (Some l) Hrec1 Hl) Hw)
    as K.
  destruct (reconcile (Some l) (set_script s w1)) as [[r|e] w'].
  - destruct K as [_ (σ' & _ & P2 & _ & Hall)]. exists r, w', σ'. split; [done|].
    intros t Ht. destruct (pg_known _ _ _ _ _ _ _ _ _ _ P2 t Ht) as (_ & Hh & _).
    split; [done|]. split; [by apply Hall|].
    rewrite (pg_journal _ _ _ _ _ _ _ _ _ _ P2 t Ht).
    by rewrite (pg_journal _ _ _ _ _ _ _ _ _ _ P1 t Ht).
  - destruct K as [_ (σ' & _ & [[]|[[_ [=]]|(t & Ht & Hno)]])]. destruct Hno.
    eapply (settleable_progress Healthy); [done|apply Hrec|done..|by apply Hset].
Qed.

(** The records, the fence and the journal of every transaction are as they were. *)
Definition unchanged (ts : list tx) (σ : tx → state) (w w' : World) : Prop :=
  ∀ t, t ∈ ts → holds (w_fs w') t (σ t) ∧ journal_at (w_fs w') t = journal_at (w_fs w) t.

(** A settled transaction stays as it is.  Once every transaction is restored, or
    finalized with its journal withheld, no reconciliation changes any of them, whatever fails:
    the records, the fence and the place of the journal stay, and without faults the
    reconciliation succeeds again. *)
Theorem reconcile_idempotent md w ts σ lease :
  running md w → recoverable (w_fs w) ts σ → lease_ok S sid lease →
  (∀ t, t ∈ ts → done_state (σ t) ∧ settleable (w_fs w) t (σ t)) →
  ends (reconcile lease w) (λ _ w', unchanged ts σ w w')
    (λ e w', unchanged ts σ w w' ∧ (fault md e ∨ e = busy ∧ lease = None)).
Proof.
  intros (He & Hp & Hm) Hrec Hl Hdone.
  pose proof (runs_elim eu md (w_fs w) _ _ _ w (runs_reconcile md (w_fs w) ts σ lease Hrec Hl)) as K.
  assert (∀ σ' fs', progress md ts σ (w_fs w) σ' fs' → ∀ t, t ∈ ts →
    holds fs' t (σ t) ∧ journal_at fs' t = journal_at (w_fs w) t) as Hkeep.
  { intros σ' fs' P t Ht. destruct (rv_known _ _ _ _ _ _ _ _ _ Hrec t Ht) as (_ & _ & Hi).
    destruct (pg_known _ _ _ _ _ _ _ _ _ _ P t Ht) as (_ & Hh & _).
    rewrite (done_final _ _ _ Hi (proj1 (Hdone t Ht)) (pg_steps _ _ _ _ _ _ _ _ _ _ P t Ht)) in Hh.
    split; [done|]. by apply (pg_journal _ _ _ _ _ _ _ _ _ _ P). }
  unfold ends. destruct (reconcile lease w) as [[r|e] w'].
  - destruct K as [_ (σ' & _ & P & _)]; [done|]. intros t. by eapply Hkeep.
  - destruct K as [_ (σ' & P & Hx)]; [done|]. split; [intros t; by eapply Hkeep|].
    destruct Hx as [Hx|[Hx|(t & Ht & Hno)]]; [auto..|]. by destruct (Hno (proj2 (Hdone t Ht))).
Qed.
End Reconciliation.
