(* ===== verification/QuarantineOperations.v ===== *)
(** * QuarantineOperations: the operations of the runner as steps of the abstract machine

    Preparing, fencing, withholding, applying and finalizing: each, under any faults, either
    takes its step of the abstract machine or leaves the transaction where it was, and touches
    nothing else; without faults it takes the step. *)

From stdpp Require Import relations sorting.
From S2P Require Import Prelude Effects Json JsonText Base64 Sha256 HostEvidence JournalFs HostEventSink Quarantine QuarantineRecovery JournalProofs SinkProofs RecordProofs QuarantineState QuarantineSteps QuarantinePaths QuarantineSettle QuarantineClean QuarantineReconcile QuarantineTheorems.

Local Open Scope string_scope.

Section Operations.
Context `{Sha256} `{!Sha256Laws} `{Entropy} `{!EntropyLaws} (md : mode) (eu : Z).
Context (S Q : string) (sid qid : ident) (max_bytes : Z).
Context (Hids : sid ≠ qid) (Hdev : sid.1 = qid.1) (Hpaths : S ≠ Q) (Hmax : (0 < max_bytes)%Z).
Abbreviation tx_ok := (tx_ok sid qid).
Abbreviation holds := (holds eu sid qid).
Abbreviation touched := (touched eu sid qid).
Abbreviation runs := (JournalProofs.runs md eu).
Abbreviation reads := (JournalProofs.reads md eu).
Abbreviation t_intent_digest := (t_intent_digest sid qid).
Abbreviation rec_intent := (rec_intent sid qid).
Abbreviation rec_applied := (rec_applied sid qid).
Abbreviation roots := (roots eu S Q sid qid).
Abbreviation sized := (sized sid qid max_bytes).
Abbreviation step := (QuarantineState.step (wild md)).
Abbreviation path := (path md eu sid qid).
Abbreviation reached := (reached md eu sid qid).
Abbreviation no_temps := (no_temps sid qid).

(** Nothing of the transaction is there but its journal, in place. *)
Record unprepared (fs : fsys) (t : tx) : Prop := {
  un_record stage : stage ∈ stages → entry fs qid (t_record t stage) = None;
  un_fence : entry fs sid (t_fence_name t) = None;
  un_place : holds_place eu sid qid fs t AtSource;
}.

Lemma intent_keys t : keys_unique (t_binding t) = true → keys_unique (t_intent sid qid t) = true.
Proof.
  intros Hb. unfold t_intent, intent_value. cbn [keys_unique map keys fst snd forallb].
  rewrite Hb. by rewrite bool_decide_true by (apply nodup_dec; by vm_compute).
Qed.

(** The intent is published as a whole or not at all. *)
Lemma runs_prepare fs t :
  roots fs → tx_ok t → unprepared fs t →
  runs fs (prepare_quarantine_transaction Q qid (t_id t) (t_binding t) sid (t_snapshot t))
    (λ r fs', r = rec_intent t ∧ holds fs' t prepared ∧ touched t fs fs'
       ∧ (no_temps fs → no_temps fs'))
    (λ e fs', (unprepared fs' t ∨ holds fs' t prepared) ∧ touched t fs fs'
       ∧ (fault md e ∨ ¬ no_temps fs)).
Proof.
  intros [HS HQ] Ht [U1 U2 U3]. unfold prepare_quarantine_transaction. fold (t_intent sid qid t).
  assert ("intent" ∈ stages) as Hst by by apply member_ok.
  assert (∀ fs', wrote eu qid (t_record t "intent") (t_intent sid qid t) fs fs' →
    holds fs' t prepared) as Hnew.
  { intros fs' Hw. assert (all_but sid qid t qid (t_record t "intent") fs fs') as Hb
      by by eapply wrote_all_but.
    destruct (all_but_journal sid qid t (t_record t "intent") fs fs' qid Ht Hb) as [J1 J2].
    { intros E. symmetry in E. by apply jsonl_not_record in E; [|apply Ht]. }
    assert (∀ stage, bool_decide (stage ∈ stages) = true → stage ≠ "intent" →
      rec_at eu fs' qid (t_record t stage) None) as Hnone.
    { intros stage Hs Hne. simpl. rewrite (all_but_record sid qid t qid (t_record t "intent") fs).
      - apply U1. by apply member_ok.
      - done.
      - done.
      - intros [_ E]. by apply t_record_ne in E. }
    split; try (by apply Hnone); try done.
    - apply Hw.
    - simpl. rewrite (all_but_fence sid qid t qid (t_record t "intent") fs); [done..|].
      intros [E _]. by apply Hids.
    - by eapply place_same. }
  assert (fits (t_intent sid qid t)) as Hfit by apply Ht.
  eapply runs_mono; [apply (runs_write_record md eu fs Q qid (t_id t) "intent" _ None); try done|..];
    cbv beta.
  - apply t_id_ok.
  - apply Hfit.
  - apply Hfit.
  - simpl. by apply U1.
  - intros r fs' (_ & -> & Hw). split; [done|]. split; [by apply Hnew|].
    split; [by eapply (wrote_record_touched eu sid qid)|]. by eapply wrote_no_temps.
  - intros e fs' [Hfs He]. split_and!.
    + destruct Hfs as [Hq|(_ & _ & Hw)]; [left|right; by apply Hnew].
      split.
      * intros stage Hs. rewrite (q_same _ _ _ Hq); [by apply U1|]. apply record_name_scratch.
      * by rewrite (q_same _ _ _ Hq).
      * eapply place_same; [..|exact U3]; apply (q_same _ _ _ Hq), Ht.
    + destruct Hfs as [Hq|(_ & _ & Hw)]; [by apply quiet_touched; [apply Ht|]|].
      by eapply (wrote_record_touched eu sid qid).
    + destruct He as [He|[He|[He|He]]]; [auto| | |done].
      * right. by intros [_ K].
      * destruct He as (v' & (f & Hf & _) & _). pose proof (U1 _ Hst) as K.
        unfold t_record in K. by rewrite K in Hf.
Qed.

(** The fence goes up, or was up. *)
Lemma runs_fence fs t s :
  roots fs → tx_ok t → holds fs t s → unsettled s → s_place s = AtSource →
  runs fs (install_quarantine_source_fence S sid (t_id t) (t_intent_digest t) (t_snapshot t))
    (λ _ fs', reached t s (with_fence true s) fs fs')
    (λ e fs', path t s fs fs' ∧ (fault md e ∨ ¬ no_temps fs)).
Proof.
  intros [HS HQ] Ht Hh Hu Hp. pose proof (h_fence _ _ _ _ _ _ Hh) as Hf.
  assert (∀ fs', wrote eu sid (t_fence_name t) (t_fence sid qid t) fs fs' →
    reached t s (with_fence true s) fs fs') as Hnew.
  { intros fs' Hw. split; [by apply rtc_once, step_fence|]. split_and!.
    - eapply (holds_fence eu sid qid Hids t s true); [done..|by eapply wrote_all_but|].
      split; [apply Hw|apply Ht].
    - eapply (wrote_touched eu sid qid); [apply Ht| |apply owned_fence|done].
      intros E. symmetry in E. by apply jsonl_not_fence in E; [|apply Ht].
    - by eapply wrote_no_temps. }
  eapply runs_mono; [apply (runs_install_fence md eu fs S sid (t_id t) (t_intent_digest t)
    (t_snapshot t) (if s_fence s then Some (t_fence sid qid t) else None)); try done|..]; cbv beta.
  - apply t_id_ok.
  - apply Ht.
  - intros _ fs' Hw. by apply Hnew.
  - intros e fs' [Hfs He]. split.
    + destruct Hfs as [Hq|[_ Hw]]; [by apply path_quiet|]. by eapply reached_path, Hnew.
    + destruct He as [He|[He|[(v' & Hv' & Hne)|He]]]; [auto| | |].
      * right. by intros [K _].
      * destruct (s_fence s); simpl in Hf.
        -- destruct Hf as [(f & Hf & Hrec) _], Hv' as (f' & Hf' & Hrec').
           destruct Hne. unfold t_fence_name, t_journal in *. rewrite Hf in Hf'. injection Hf' as <-.
           destruct Hrec as (_ & _ & _ & K), Hrec' as (_ & _ & _ & K'). etrans; [symmetry; exact K'|exact K].
        -- destruct Hv' as (f' & Hf' & _). unfold t_fence_name, t_journal in *. by rewrite Hf in Hf'.
      * destruct He. apply Ht.
Qed.

(** The fenced journal moves, if it is still what the intent says. *)
Lemma runs_withhold fs t s :
  roots fs → tx_ok t → holds fs t s → unsettled s → s_place s = AtSource → s_fence s = true →
  runs fs (quarantine_journal S Q (t_journal t) sid qid max_bytes (Some (t_snapshot t)))
    (λ j fs', j = t_snapshot t ∧ reached t s (with_place (Withheld false) s) fs fs')
    (λ e fs', path t s fs fs'
       ∧ (fault md e ∨ ∀ f, entry fs sid (t_journal t) = Some f → readable eu max_bytes f →
            f_data f = raw (t_snapshot t) → False)).
Proof.
  intros [HS HQ] Ht Hh Hu Hp Hfence. pose proof (h_place _ _ _ _ _ _ Hh) as Hpl.
  rewrite Hp in Hpl. destruct Hpl as (Hnone & f & Hf & Hjf & _).
  assert (has_dir fs qid ∧ has_dir fs sid) as [Dq Ds] by eauto with py_db.
  assert (expected (Some (t_snapshot t)) (journal_of sid (t_journal t) f) →
    reached t s (with_place (Withheld false) s) fs (moved sid qid (t_journal t) f fs)) as Hnew.
  { intros Hexp. set (fs1 := moved sid qid (t_journal t) f fs).
    assert (∀ d n, entry fs1 d n = if bool_decide (d = qid ∧ n = t_journal t) then Some f
      else if bool_decide (d = sid ∧ n = t_journal t) then None else entry fs d n) as E1
      by (intros; by apply entry_moved).
    assert (∀ d n, n ≠ t_journal t → entry fs1 d n = entry fs d n) as Eo.
    { intros d n Hne. rewrite E1, !bool_decide_false; [done|..]; by intros [_ ->]. }
    split; [by apply rtc_once, step_withhold|]. split_and!.
    - apply (holds_moved eu sid qid t s (Withheld false) fs fs1 Ht Hh).
      + intros d n _ Hn. by apply Eo.
      + split.
        * exists f. rewrite E1, bool_decide_true by done. split; [done|]. split; [done|].
          simpl in Hexp. by rewrite Hexp.
        * rewrite E1, bool_decide_false, bool_decide_true by naive_solver. done.
    - split; [apply same_layout_moved|..].
      + intros d n _ Ho. rewrite E1, !bool_decide_false; [done|..]; intros [-> ->]; apply Ho;
          [right|left]; auto.
      + intros HT d n g Hn Hg. rewrite Eo in Hg; [by eapply HT|]. intros ->.
        by rewrite (ok_scratch _ _ _ Ht) in Hn.
      + unfold journal_at. rewrite E1, bool_decide_true, Hnone, Hf by done. done.
    - apply same_no_temps. intros d n Hn. apply Eo. intros ->. apply temp_scratch in Hn.
      by rewrite (ok_scratch _ _ _ Ht) in Hn. }
  eapply runs_mono; [by apply (runs_quarantine md eu fs S Q sid qid)|..]; cbv beta.
  - intros j fs' (g & Hg & _ & _ & -> & He & ->). rewrite Hf in Hg. injection Hg as <-.
    split; [symmetry; exact He|]. by apply Hnew.
  - intros e fs' [Hfs He]. split.
    + destruct Hfs as [Heq|(_ & g & Hg & _ & Hexp & ->)]; [by apply path_quiet, eqv_quiet|].
      rewrite Hf in Hg. injection Hg as <-. by eapply reached_path, Hnew.
    + destruct He as [He|He]; [by left|]. right. intros g Hg Hread Hd.
      rewrite Hf in Hg. injection Hg as <-. eapply He; try done; [apply Ht|].
      unfold expected, journal_of, t_journal. destruct Hjf as [_ _ Ji].
      rewrite Hd, Ji, <-(ok_device _ _ _ Ht). by destruct (t_snapshot t).
Qed.

(** The applied record. *)
Lemma runs_apply fs t s r :
  roots fs → tx_ok t → holds fs t s → unsettled s → s_place s = Withheld r →
  s_applied s = false →
  runs fs (mark_quarantine_applied Q qid (t_id t) (t_intent_digest t) (t_snapshot t))
    (λ a fs', a = rec_applied t ∧ reached t s (with_applied s) fs fs')
    (λ e fs', path t s fs fs' ∧ (fault md e ∨ ¬ no_temps fs)).
Proof.
  intros Hr Ht Hh Hu Hp Ha. pose proof Hu as (U1 & U2 & U3).
  assert (step s (with_applied s)) as Hstep by by eapply step_apply.
  unfold mark_quarantine_applied. eapply runs_mono;
    [apply (runs_write_step md eu S Q sid qid fs t s (with_applied s) "applied"); try done|..].
  - by apply member_ok.
  - pose proof (h_applied _ _ _ _ _ _ Hh) as Hb. by rewrite Ha in Hb.
  - by eexists.
  - intros fs' Hfit Hw. eapply (holds_record eu sid qid Hids t s _ "applied"); try done.
    + by apply member_ok.
    + by eapply wrote_all_but.
    + intros _. split; [done|]. split; [done|]. split; [apply Hw|done].
  - cbv beta. intros a fs' (-> & _ & Hh' & Htc & Hnt). split; [done|].
    split; [by apply rtc_once|]. done.
  - cbv beta. intros e fs' [Hpath He]. split; [done|]. destruct He as [He|[He|He]]; [auto..|].
    destruct He. apply Ht.
Qed.

Lemma runs_write_finalized fs t s f :
  roots fs → tx_ok t → holds fs t s → unsettled s → s_applied s = true →
  s_place s = Withheld false → finalized_ok f → fits (t_finalized sid qid t f) →
  runs fs (_write_record Q qid (t_id t) "finalized" (t_finalized sid qid t f))
    (λ r fs', reached t s (with_finalized f s) fs fs')
    (λ e fs', path t s fs fs' ∧ (fault md e ∨ ¬ no_temps fs)).
Proof.
  intros Hr Ht Hh Hu Ha Hp Hfin Hfits. pose proof Hu as (U1 & U2 & U3).
  assert (step s (with_finalized f s)) as Hstep by by apply step_finalize.
  eapply runs_mono;
    [apply (runs_write_step md eu S Q sid qid fs t s (with_finalized f s) "finalized"); try done|..].
  - by apply member_ok.
  - pose proof (h_finalized _ _ _ _ _ _ Hh) as Hb. by rewrite U1 in Hb.
  - by eexists.
  - apply Hfits.
  - intros fs' _ Hw. eapply (holds_record eu sid qid Hids t s _ "finalized"); try done.
    + by apply member_ok.
    + by eapply wrote_all_but.
    + intros _. split; [done|]. split; [split; [apply Hw|done]|]. by intros g [= <-].
  - cbv beta. intros a fs' (-> & _ & Hh' & Htc & Hnt). split; [by apply rtc_once|]. done.
  - cbv beta. intros e fs' [Hpath He]. split; [done|]. destruct He as [He|[He|He]]; [auto..|].
    by destruct He.
Qed.

(** Accepting an applied transaction. *)
Lemma runs_finalize fs t s f :
  roots fs → sized t → holds fs t s → inv s → unsettled s → s_applied s = true →
  (∃ r, s_place s = Withheld r) → finalized_ok f → fits (t_finalized sid qid t f) →
  runs fs (_finalize_quarantine_transaction_locked Q qid (t_id t) S sid
             (_digest (text (t_applied sid qid t))) f.1 f.2)
    (λ r fs', s_place s = Withheld false ∧ reached t s (with_finalized f s) fs fs')
    (λ e fs', path t s fs fs' ∧ (fault md e ∨ ¬ no_temps fs ∨ s_place s = Withheld true)).
Proof.
  intros Hr Hsz Hh Hinv Hu Ha [r Hp] Hfin Hfits. pose proof Hsz as [Ht Hlen].
  pose proof Hu as (U1 & U2 & U3). pose proof Hr as [HS HQ].
  assert (path t s fs fs) as Hrefl by by apply path_refl.
  assert (∀ stage o, bool_decide (stage ∈ stages) = true → rec_at eu fs qid (t_record t stage) o →
    ∀ required, (o = None → required = false) →
    reads fs (read_quarantine_record Q qid (t_id t) stage required)
      (Ok (rec_of (t_record t stage) <$> o))) as Hread.
  { intros stage o Hs Ho required Hreq. unfold read_quarantine_record.
    eapply reads_bind_ok; [by apply reads_root|]. cbv iota beta.
    eapply reads_bind_ok; [rewrite (t_record_ok t stage Hs); apply reads_lift|].
    destruct o as [v|]; [destruct Ho; by apply reads_record|]. rewrite Hreq by done.
    by apply reads_no_record. }
  pose proof (h_applied _ _ _ _ _ _ Hh) as Happ. rewrite Ha in Happ.
  unfold _finalize_quarantine_transaction_locked.
  eapply runs_reads; [apply (Hread "intent" (Some (t_intent sid qid t))); [done| |done];
    split; [apply Hh|apply Ht]| |auto].
  eapply runs_reads; [apply (Hread "applied" (Some (t_applied sid qid t))); [done..|done]| |auto].
  cbn [fmap option_fmap option_map assert_some]. do 2 apply runs_bind, runs_ret.
  fold (rec_intent t). fold (rec_applied t).
  rewrite intent_snapshot by done. apply runs_bind, runs_ret.
  rewrite validate_applied. apply runs_bind, runs_ret.
  destruct (intent_directories sid qid t) as [-> ->].
  change (r_digest (rec_applied t)) with (_digest (text (t_applied sid qid t))).
  change (r_digest (rec_intent t)) with (t_intent_digest t).
  destruct Hfin as (F1 & F2 & F3). rewrite String.eqb_refl, F1, F2. apply runs_bind, runs_ret.
  pose proof (h_restored _ _ _ _ _ _ Hh) as Hres. rewrite U2 in Hres.
  eapply runs_reads; [by apply (Hread "restored" None)| |auto]. apply runs_bind, runs_ret.
  pose proof (h_blocked _ _ _ _ _ _ Hh) as Hblk. rewrite U3 in Hblk.
  eapply runs_reads; [by apply (Hread "blocked" None)| |auto]. apply runs_bind, runs_ret.
  set (bound := Z.max (Z.of_nat (String.length (raw (t_snapshot t)))) 1).
  assert (QuarantinePaths.sized sid qid bound t) as Hszb by (split; [done|unfold bound; lia]).
  destruct (withheld_readable eu sid qid bound Hdev fs t s r Hszb Hh Hp)
    as (g & Hg & Hrd & _ & _ & Hj).
  eapply runs_reads; [apply reads_sink_ok, (reads_snapshot md eu fs Q qid _ bound g)| |auto];
    try done; [apply Ht|unfold bound; lia|].
  unfold t_journal in Hj. rewrite Hj, bool_decide_true by done. apply runs_bind, runs_ret.
  eapply runs_reads; [by apply reads_root| |auto]. cbv iota beta.
  eapply runs_reads; [apply (reads_fence md eu sid qid fs t s); [done..|]| |auto].
  { by rewrite (inv_withheld s Hinv _ Hp). }
  eapply runs_reads; [apply reads_exists| |auto]. fold (t_journal t).
  pose proof (h_place _ _ _ _ _ _ Hh) as Hpl. rewrite Hp in Hpl. destruct Hpl as [_ Hsrc].
  destruct r.
  - destruct Hsrc as [h ->]. apply runs_bind, runs_when; [intros _|done]. apply runs_bind.
    pose proof (runs_mark_blocked md eu S Q sid qid Hids fs t s "source-replacement-collision") as K.
    rewrite U1, Ha in K. eapply runs_mono; [apply K|..]; try done.
    + by apply member_ok.
    + apply step_block; auto.
    + cbv beta. intros [] fs' Hpath. apply runs_raise. auto.
    + cbv beta. intros e fs' Hpath. auto.
  - rewrite Hsrc. apply runs_bind, runs_ret.
    eapply runs_mono; [by apply (runs_write_finalized fs t s f)|..]; cbv beta.
    + done.
    + intros e fs' [Hpath He]. tauto.
Qed.

(** ** The operations together *)

Variant operation := OpFence | OpWithhold | OpApply | OpFinalize (f : json * json)
  | OpReturn | OpUnfence | OpRestored (reason : string).

(** The call the runner makes, with the values the earlier calls returned. *)
Definition run_operation (t : tx) (s : state) (o : operation) : M World unit :=
  let id := t_id t in
  let intent_digest := t_intent_digest t in
  let applied_digest := t_applied_digest sid qid t (s_applied s) in
  match o with
  | OpFence => install_quarantine_source_fence S sid id intent_digest (t_snapshot t);; mret tt
  | OpWithhold =>
      quarantine_journal S Q (t_journal t) sid qid max_bytes (Some (t_snapshot t));; mret tt
  | OpApply => mark_quarantine_applied Q qid id intent_digest (t_snapshot t);; mret tt
  | OpFinalize f =>
      _finalize_quarantine_transaction_locked Q qid id S sid
        (_digest (text (t_applied sid qid t))) f.1 f.2;; mret tt
  | OpReturn => restore_quarantined_journal S Q (t_snapshot t) sid qid max_bytes;; mret tt
  | OpUnfence => remove_quarantine_source_fence S sid id intent_digest (t_snapshot t)
  | OpRestored reason => mark_quarantine_restored Q qid id intent_digest applied_digest reason;;
      mret tt
  end.

Definition enabled (t : tx) (s : state) (o : operation) : Prop :=
  match o with
  | OpFence => s_place s = AtSource
  | OpWithhold => s_place s = AtSource ∧ s_fence s = true
  | OpApply => s_place s = Withheld false ∧ s_applied s = false
  | OpFinalize f => s_applied s = true ∧ s_place s = Withheld false ∧ finalized_ok f
      ∧ fits (t_finalized sid qid t f)
  | OpReturn => s_place s = Withheld false
  | OpUnfence => s_place s = AtSource
  | OpRestored reason => s_place s = AtSource ∧ s_fence s = false ∧ reason ∈ _RESTORE_REASONS
  end.

Definition after (s : state) (o : operation) : state :=
  match o with
  | OpFence => with_fence true s
  | OpWithhold => with_place (Withheld false) s
  | OpApply => with_applied s
  | OpFinalize f => with_finalized f s
  | OpReturn => with_place AtSource s
  | OpUnfence => with_fence false s
  | OpRestored reason => with_restored reason s
  end.

Lemma runs_operation fs t s o :
  roots fs → sized t → holds fs t s → inv s → unsettled s → enabled t s o →
  runs fs (run_operation t s o)
    (λ _ fs', holds fs' t (after s o) ∧ touched t fs fs' ∧ step s (after s o))
    (λ e fs', path t s fs fs').
Proof.
  intros Hr Hsz Hh Hinv Hu He. pose proof Hsz as [Ht _].
  destruct o as [| | |f| | |reason]; simpl in He |- *.
  - apply runs_bind. eapply runs_mono; [by apply (runs_fence fs t s)|..]; cbv beta.
    + intros _ fs' (_ & ? & ? & _). apply runs_ret. split; [done|]. split; [done|].
      by apply step_fence.
    + by intros e fs' [? _].
  - destruct He as [Hp Hf]. apply runs_bind.
    eapply runs_mono; [by apply (runs_withhold fs t s)|..]; cbv beta.
    + intros j fs' (_ & _ & ? & ? & _). apply runs_ret. split; [done|]. split; [done|].
      by apply step_withhold.
    + by intros e fs' [? _].
  - destruct He as [Hp Ha]. apply runs_bind.
    eapply runs_mono; [by apply (runs_apply fs t s false)|..]; cbv beta.
    + intros j fs' (_ & _ & ? & ? & _). apply runs_ret. split; [done|]. split; [done|].
      by eapply step_apply.
    + by intros e fs' [? _].
  - destruct He as (Ha & Hp & Hfin & Hfits). apply runs_bind.
    eapply runs_mono; [by apply (runs_finalize fs t s f); [..|exists false| |]|..]; cbv beta.
    + intros j fs' (_ & _ & ? & ? & _). apply runs_ret. split; [done|]. split; [done|].
      by apply step_finalize.
    + by intros e fs' [? _].
  - apply runs_bind. eapply runs_mono; [by apply (runs_restore md eu S Q sid qid max_bytes
      Hids Hdev Hpaths Hmax fs t s)|..]; cbv beta.
    + intros j fs' (? & ? & _). apply runs_ret. split; [done|]. split; [done|].
      by apply step_return.
    + intros e fs' ([Hh'|Hh'] & Htc & _); [by exists s; split; [constructor|]|].
      exists (with_place AtSource s). split; [by apply rtc_once, step_return|done].
  - unfold remove_quarantine_source_fence.
    eapply runs_reads; [apply reads_root, Hr| |intros; by apply path_refl]. cbv iota beta.
    eapply runs_mono; [by apply (runs_unfence md eu S Q sid qid Hids fs t s)|..]; cbv beta.
    + intros _ fs' (_ & ? & ? & _). split; [done|]. split; [done|]. by apply step_unfence.
    + by intros e fs' [? _].
  - destruct He as (Hp & Hf & Hreason). apply runs_bind.
    eapply runs_mono; [by apply (runs_mark_restored md eu S Q sid qid Hids fs t s reason)|..];
      cbv beta.
    + intros j fs' (_ & ? & ? & _). apply runs_ret. split; [done|]. split; [done|].
      by apply step_restore.
    + by intros e fs' [? _].
Qed.

(** C3. Every operation of a transaction implements a step of the abstract machine, under any
    faults.  Preparing a transaction of which nothing is there returns the intent that it has
    published, with which the machine starts; if it raises (or is killed), still nothing is there,
    or the whole intent.  Fencing, withholding, applying, finalizing, returning, unfencing and
    recording a restoration have taken their step when they return; one that raises leaves the
    transaction in a state the machine reaches.  Either way the journal is intact and no other
    file is touched. *)
Theorem operations_refine w t :
  w_euid w = eu → (0 < w_pid w)%Z → mode_ok md w → roots (w_fs w) →
  (tx_ok t → unprepared (w_fs w) t →
     ends (prepare_quarantine_transaction Q qid (t_id t) (t_binding t) sid (t_snapshot t) w)
       (λ r w', r = rec_intent t ∧ holds (w_fs w') t prepared ∧ touched t (w_fs w) (w_fs w'))
       (λ e w', (unprepared (w_fs w') t ∨ holds (w_fs w') t prepared)
          ∧ touched t (w_fs w) (w_fs w')))
  ∧ ∀ s o, sized t → holds (w_fs w) t s → inv s → unsettled s → enabled t s o →
      ends (run_operation t s o w)
        (λ _ w', holds (w_fs w') t (after s o) ∧ touched t (w_fs w) (w_fs w') ∧ step s (after s o))
        (λ e w', ∃ s', QuarantineState.steps (wild md) s s' ∧ holds (w_fs w') t s'
          ∧ touched t (w_fs w) (w_fs w')).
Proof.
  intros Hw Hp Hm Hr. split.
  - intros Ht Hun. pose proof (runs_elim eu md (w_fs w) _ _ _ w
      (runs_prepare (w_fs w) t Hr Ht Hun)) as K.
    unfold ends. destruct (prepare_quarantine_transaction _ _ _ _ _ _ w) as [[r|e] w'];
      destruct K as [_ K]; [done| |done|]; by split_and!; apply K.
  - intros s o Hsz Hh Hinv Hu He. pose proof (runs_elim eu md (w_fs w) _ _ _ w
      (runs_operation (w_fs w) t s o Hr Hsz Hh Hinv Hu He)) as K.
    unfold ends. destruct (run_operation t s o w) as [[[]|e] w']; by apply K.
Qed.
End Operations.
