(* ===== verification/QuarantineLife.v ===== *)
(** * QuarantineLife: transactions among writers, crashes and reconciliations

    What the writers' [append_event] does to a directory under any faults, and the histories of a
    quarantine: operations of the runner, reconciliations and appends in any order, every system
    call of which may fail or be the last before a kill, and foreign files taking the names of
    withheld journals. *)

From stdpp Require Import relations sorting.
From S2P Require Import Prelude Effects Json JsonText Base64 Sha256 HostEvidence JournalFs HostEventSink Quarantine QuarantineRecovery JournalProofs SinkProofs RecordProofs QuarantineState QuarantineSteps QuarantinePaths QuarantineSettle QuarantineClean QuarantineReconcile QuarantineTheorems QuarantineOperations.

Local Open Scope string_scope.

(** ** Appending *)

(** [g] is [f] with more data. *)
Record continues (f g : file) : Prop := {
  ct_inode : f_ino g = f_ino f;
  ct_kind : f_kind g = f_kind f;
  ct_uid : f_uid g = f_uid f;
  ct_data : ∃ s, f_data g = f_data f +:+ s;
}.

#[global] Instance continues_preorder : PreOrder continues.
Proof.
  split.
  - intros f. split; [done..|]. exists EmptyString. by rewrite str_app_nil_r.
  - intros f g h [A1 B1 C1 [s Hs]] [A2 B2 C2 [t Ht]]. split; [congruence..|].
    exists (s +:+ t). by rewrite Ht, Hs, str_app_assoc.
Qed.

Lemma continues_append s f : continues f (append_data s f).
Proof. split; [done..|]. by exists s. Qed.

Lemma prefix_grows p s r : String.prefix p s = true → String.prefix p (s +:+ r) = true.
Proof.
  revert s. induction p as [|c p IH]; intros s Hp; [by destruct (s +:+ r)|].
  destruct s as [|d s]; [done|]. rewrite str_app_cons. cbn [String.prefix] in *.
  destruct (ascii_dec c d); [by apply IH|done].
Qed.

Section Append.
Context `{Sha256} (md : mode) (eu : Z).
Abbreviation runs := (JournalProofs.runs md eu).
Abbreviation reads := (JournalProofs.reads md eu).

(** Only the journal [name] changed, and what it held is still there. *)
Definition grown (d : ident) (name : string) (fs fs' : fsys) : Prop :=
  only_entry d name fs fs'
  ∧ ∀ f, entry fs d name = Some f → ∃ g, entry fs' d name = Some g ∧ continues f g.

#[global] Instance grown_preorder d name : PreOrder (grown d name).
Proof.
  split.
  - intros fs. split; [done|]. intros f Hf. by exists f.
  - intros f1 f2 f3 [O1 G1] [O2 G2]. split; [by etrans|]. intros f Hf.
    destruct (G1 f Hf) as (g & Hg & C1). destruct (G2 g Hg) as (h & Hh & C2).
    exists h. split; [done|]. by etrans.
Qed.

Lemma grown_set d name f g fs :
  has_dir fs d → entry fs d name = Some f → continues f g →
  grown d name fs (set_entry d name (Some g) fs).
Proof.
  intros Hd Hf Hc. split; [by apply only_entry_set|]. intros f' Hf'.
  rewrite Hf in Hf'. injection Hf' as <-. exists g.
  by rewrite entry_set, bool_decide_true.
Qed.

Lemma runs_fchmod fs d name mode f (Q : unit → fsys → Prop) R :
  entry fs d name = Some f →
  Q tt (set_entry d name (Some (File (f_ino f) (f_kind f) (f_uid f) mode (f_data f))) fs) →
  (∀ e, sysfault md e → R e fs) →
  runs fs (sys_fchmod d name mode) Q R.
Proof.
  intros Hf HQ He. apply runs_syscall; [|done].
  apply runs_bind, (runs_gets_fs md eu fs (λ fs, entry fs d name)). rewrite Hf.
  Transparent JournalProofs.runs. intros w (<- & <- & H3 & H4). apply wp_modify.
  eexists. split; [|by apply HQ]. by repeat split. Opaque JournalProofs.runs.
Qed.

(** The journal is opened, created if it is missing. *)
Lemma runs_open_journal fs d name (Q : bool → fsys → Prop) R :
  has_dir fs d →
  (∀ b fs' f, grown d name fs fs' → entry fs' d name = Some f →
     (b = true → f_data f = EmptyString ∧ entry fs d name = None)
     → (b = false → fs' = fs) → Q b fs') →
  (∀ e, R e fs) →
  runs fs (except is_eexist (sys_create d name MODE_0600;; mret true)
             (λ _, sys_open d name;; mret false)) Q R.
Proof.
  intros Hd HQ HR. apply runs_except, runs_bind, runs_create.
  - intros Hn. apply runs_ret. set (f0 := File _ _ _ _ _).
    apply (HQ true _ f0); [| |done|done].
    + split; [by apply only_entry_create|]. intros f Hf. congruence.
    + by rewrite entry_set_next, entry_set, bool_decide_true.
  - intros f Hf. cbn [is_eexist eexist]. apply runs_bind.
    eapply runs_mono; [apply reads_open|..]; cbv beta.
    + intros [] fs' [-> _]. by apply runs_ret, (HQ false fs f).
    + intros e fs' [-> _]. apply HR.
  - intros e He. destruct (is_eexist e) eqn:Ee; [|apply HR].
    destruct He as [[-> _]|[-> _]]; done.
Qed.

(** The mode is set right, the line is written, the file is flushed. *)
Lemma runs_append_body fs d name line fsync f :
  has_dir fs d → entry fs d name = Some f →
  runs fs
    (metadata ← sys_fstat d name;
     euid ← gets w_euid;
     raise_if (negb (bool_decide (f_kind metadata = Regular)) || negb (f_uid metadata =? euid)%Z)
       (HostEventSinkError "host event journal is not an owned regular file");;
     when (negb (f_mode metadata =? MODE_0600)%Z)
       (sys_fchmod d name MODE_0600;;
        again ← sys_fstat d name;
        raise_if (negb (f_mode again =? MODE_0600)%Z)
          (HostEventSinkError "host event journal mode is not 0600"));;
     write_all d name line (HostEventSinkError "host event journal append made no progress");;
     when (fsync =? "1") sys_fsync)
    (λ _ fs', grown d name fs fs'
       ∧ ∃ g, entry fs' d name = Some g ∧ f_data g = f_data f +:+ line)
    (λ _ fs', grown d name fs fs').
Proof.
  intros Hd Hf. assert (grown d name fs fs) as Hrefl by done.
  eapply runs_reads; [by apply reads_fstat| |done]. apply runs_bind, runs_euid.
  apply runs_bind, runs_raise_if; [done|]. intros _. apply runs_bind.
  assert (∀ fs1 g, grown d name fs fs1 → entry fs1 d name = Some g → f_data g = f_data f →
    runs fs1
      (write_all d name line (HostEventSinkError "host event journal append made no progress");;
       when (fsync =? "1") sys_fsync)
      (λ _ fs', grown d name fs fs' ∧ ∃ g, entry fs' d name = Some g ∧ f_data g = f_data f +:+ line)
      (λ _ fs', grown d name fs fs')) as Hwrite.
  { intros fs1 g Hg1 Hg Hdata. assert (has_dir fs1 d) as Hd1
      by (eapply has_dir_layout; [apply Hg1|done]).
    assert (∀ s fs', only_entry d name fs1 fs' → entry fs' d name = Some (append_data s g) →
      grown d name fs fs') as Hgrow.
    { intros s fs' Ho Hg'. etrans; [done|]. split; [done|]. intros h Hh.
      rewrite Hg in Hh. injection Hh as <-. exists (append_data s g). split; [done|].
      apply continues_append. }
    apply runs_bind. eapply runs_mono; [by apply runs_write_all|..]; cbv beta.
    - intros _ fs2 [Ho Hg2].
      assert (grown d name fs fs2
        ∧ ∃ h, entry fs2 d name = Some h ∧ f_data h = f_data f +:+ line) as Hdone.
      { split; [by eapply Hgrow|]. eexists. split; [done|]. simpl. by rewrite Hdata. }
      apply runs_when; [intros _|done].
      eapply runs_mono; [apply reads_fsync|..]; cbv beta.
      + by intros _ fs' [-> _].
      + intros e fs' [-> _]. apply Hdone.
    - intros e fs2 (Ho & [s Hs] & _). by eapply Hgrow. }
  apply runs_when.
  - intros _. apply runs_bind, (runs_fchmod fs d name MODE_0600 f); [done| |done].
    set (f1 := File _ _ _ _ _).
    assert (entry (set_entry d name (Some f1) fs) d name = Some f1) as Hf1
      by by rewrite entry_set, bool_decide_true.
    assert (grown d name fs (set_entry d name (Some f1) fs)) as Hg1.
    { eapply grown_set; [done..|]. split; [done..|]. exists EmptyString.
      by rewrite str_app_nil_r. }
    eapply runs_reads; [by apply reads_fstat| |done].
    apply runs_raise_if; [done|]. intros _. by apply (Hwrite _ f1).
  - intros _. by apply (Hwrite fs f).
Qed.

(** A fenced journal is left alone; another grows by the line, or by a part of it when a call
    fails. *)
Lemma runs_append_line fs d fsync name line :
  has_dir fs d →
  runs fs (append_line d fsync name line)
    (λ _ fs', entry fs d (_quarantine_fence_name name) = None ∧ grown d name fs fs'
       ∧ ∃ g, entry fs' d name = Some g
           ∧ f_data g = match entry fs d name with Some f => f_data f | None => EmptyString end
                        +:+ line)
    (λ _ fs', (is_Some (entry fs d (_quarantine_fence_name name)) → fs' = fs)
       ∧ grown d name fs fs').
Proof.
  intros Hd. assert (grown d name fs fs) as Hrefl by done. unfold append_line.
  eapply runs_reads; [apply reads_taken| |done].
  { by intros e ->. }
  { intros e ->. destruct (is_oserror e) eqn:Ee; [|by exists e].
    eexists. split; [done|]. by intros ->. }
  destruct (entry fs d (_quarantine_fence_name name)) as [g|] eqn:Hfence;
    [by apply runs_bind, runs_raise|].
  apply runs_bind, runs_ret, runs_bind, runs_os_error_as, runs_open_journal; [done| |].
  2:{ intros e. split; [by intros [? ?]|done]. }
  intros created fs1 f Hg Hf Hnew Hold.
  assert (f_data f = match entry fs d name with Some f => f_data f | None => EmptyString end) as Hdata.
  { destruct created; [by destruct Hnew as [-> ->]|]. by rewrite <-(Hold eq_refl), Hf. }
  apply runs_bind, runs_os_error_as. eapply runs_mono;
    [apply (runs_append_body fs1 d name line fsync f)|..]; cbv beta.
  - eapply has_dir_layout; [apply Hg|done].
  - done.
  - intros _ fs2 [Hg2 (h & Hh & Hl)].
    assert (grown d name fs fs2) as Hg3 by by etrans. rewrite Hdata in Hl.
    apply runs_when; [intros _|eauto]. apply runs_os_error_as.
    eapply runs_mono; [apply reads_fsync|..]; cbv beta.
    + intros _ fs' [-> _]. eauto.
    + intros e fs' [-> _]. split; [by intros [? ?]|done].
  - intros e fs2 Hg2. split; [by intros [? ?]|]. by etrans.
Qed.
End Append.

Section AppendEvent.
Context `{Sha256} (md : mode) (eu : Z) (S : string) (sid : ident).
Context (getenv : string → option string).
Context (Hdir : getenv "ECPA_HOST_EVENT_DIR" = Some S).
Abbreviation runs := (JournalProofs.runs md eu).

(** The configured directory is the source directory, or the call fails. *)
Lemma runs_configured_root fs (Q : string * ident → fsys → Prop) R :
  root_ok eu fs S sid → Q (S, sid) fs → (∀ e, R e fs) →
  runs fs (_configured_journal_root getenv) Q R.
Proof.
  intros Hr HQ HR. unfold _configured_journal_root. rewrite Hdir.
  destruct S as [|c s] eqn:ES; [by apply runs_raise|]. rewrite <-ES in *.
  apply runs_bind, runs_lift_result; [|auto]. intros o _.
  eapply runs_mono; [by apply reads_root_expected|..]; cbv beta.
  - intros r fs' [-> Er]. destruct o; [case_bool_decide|]; by simplify_eq.
  - intros e fs' [-> _]. apply HR.
Qed.

(** An event changes its journal only, and a fenced journal not at all. *)
Lemma runs_append_event fs event :
  root_ok eu fs S sid → temps_ok eu fs →
  let name := _journal_name event in
  let after fs' := ∃ fs1, quiet eu fs fs1 ∧ grown sid name fs1 fs'
    ∧ (is_Some (entry fs1 sid (_quarantine_fence_name name)) → fs' = fs1) in
  runs fs (append_event getenv event) (λ _ fs', after fs') (λ _ fs', after fs').
Proof.
  intros Hr HT name after.
  assert (∀ fs1, quiet eu fs fs1 → after fs1) as Hq by (intros fs1 Hq; by exists fs1).
  unfold append_event. apply runs_bind, runs_lift_result; [|intros; by apply Hq].
  intros line _. apply runs_bind, runs_configured_root; [done| |intros; by apply Hq].
  cbv beta iota. apply runs_bind.
  eapply runs_mono; [apply runs_acquire_lock; [eauto with py_db|done]|..]; cbv beta.
  2:{ intros e fs1 [Hq1 _]. by apply Hq. }
  intros _ fs1 Hq1. apply runs_bind, runs_raise_if; [intros _; by apply Hq|]. intros _.
  assert (root_ok eu fs1 S sid) as Hr1 by (eapply root_ok_layout; [apply Hq1|done]).
  eapply runs_mono; [apply runs_append_line; eauto with py_db|..]; cbv beta.
  - intros _ fs2 (Hf & Hg & _). exists fs1. split; [done|]. split; [done|].
    intros [? E]. exfalso. unfold name in E. congruence.
  - intros e fs2 [Hf Hg]. by exists fs1.
Qed.
End AppendEvent.

(** ** Histories *)

Section Life.
Context `{Sha256} `{!Sha256Laws} `{Entropy} `{!EntropyLaws} (eu : Z).
Context (S Q : string) (sid qid : ident) (max_bytes : Z).
Context (Hids : sid ≠ qid) (Hdev : sid.1 = qid.1) (Hpaths : S ≠ Q) (Hmax : (0 < max_bytes)%Z).
Abbreviation holds := (holds eu sid qid).
Abbreviation has_rec := (has_rec eu).
Abbreviation recoverable := (recoverable eu S Q sid qid max_bytes).
Abbreviation known := (known eu sid qid max_bytes).
Abbreviation journal_at := (journal_at sid qid).
Abbreviation reconcile := (reconcile_quarantine_transactions S Q sid qid max_bytes).
Abbreviation run_operation := (run_operation S Q sid qid max_bytes).
Abbreviation enabled := (enabled sid qid).

(** One thing that happens to the directories: an operation of the runner on a transaction in
    a state that allows it, a reconciliation, a writer's event, each under an arbitrary script
    of faults; a foreign file taking the name of a withheld journal; another process starting,
    or taking or losing locks. *)
Inductive acts (ts : list tx) (w : World) : World → Prop :=
  | acts_operation t s o script :
      t ∈ ts → holds (w_fs w) t s → unsettled s → enabled t s o →
      acts ts w (run_operation t s o (set_script script w)).2
  | acts_reconcile lease script :
      lease_ok S sid lease → acts ts w (reconcile lease (set_script script w)).2
  | acts_append getenv event script :
      getenv "ECPA_HOST_EVENT_DIR" = Some S →
      acts ts w (append_event getenv event (set_script script w)).2
  | acts_replace t f :
      t ∈ ts → is_Some (entry (w_fs w) qid (t_journal t)) →
      entry (w_fs w) sid (t_journal t) = None →
      acts ts w (set_fs (set_entry sid (t_journal t) (Some f) (w_fs w)) w)
  | acts_process locks pid n :
      (0 < pid)%Z → acts ts w (mkWorld (w_fs w) locks [] (w_euid w) pid n).

(** What holds throughout. *)
Definition alive (ts : list tx) (w : World) : Prop :=
  w_euid w = eu ∧ (0 < w_pid w)%Z ∧ ∃ σ, recoverable (w_fs w) ts σ.

Lemma rec_at_is_some fs d n o : rec_at eu fs d n o → is_Some (entry fs d n) ↔ is_Some o.
Proof.
  destruct o; simpl.
  - intros [(f & -> & _) _]. by split; eexists.
  - by intros ->.
Qed.

Lemma rec_at_bool fs d n (a b : bool) v v' :
  rec_at eu fs d n (if a then Some v else None) → rec_at eu fs d n (if b then Some v' else None) →
  a = b.
Proof.
  intros Ha%rec_at_is_some Hb%rec_at_is_some. rewrite Ha in Hb.
  assert (∀ (c : bool) x, is_Some (if c then Some x else @None json) ↔ c = true) as K.
  { intros [] x; split; try done; intros [? [=]]. }
  rewrite !K in Hb. destruct a, b; naive_solver.
Qed.

Lemma rec_at_fmap {A B} fs d n (f : A → json) (g : B → json) x y :
  rec_at eu fs d n (f <$> x) → rec_at eu fs d n (g <$> y) → is_Some x ↔ is_Some y.
Proof.
  intros Ha%rec_at_is_some Hb%rec_at_is_some. rewrite fmap_is_Some in Ha. rewrite fmap_is_Some in Hb. by rewrite <-Ha.
Qed.

Lemma not_some {A B} (x : option A) (y : option B) : (is_Some x ↔ is_Some y) → x = None → y = None.
Proof. intros E ->. rewrite eq_None_not_Some, <-E. by intros [? ?]. Qed.

(** The file system decides the place of the journal. *)
Lemma holds_place_eq fs t p p' :
  holds_place eu sid qid fs t p → holds_place eu sid qid fs t p' → p = p'.
Proof.
  destruct p as [|r], p' as [|r']; simpl; [done|..].
  - intros [E _] [(f & Hf & _) _]. congruence.
  - intros [(f & Hf & _) _] [E _]. congruence.
  - intros [_ K] [_ K']. destruct r, r'; try done.
    + destruct K as [? K]. congruence.
    + destruct K' as [? K']. congruence.
Qed.

(** Whether the invariant holds is decided by the files. *)
Lemma holds_inv fs t s s' : holds fs t s → holds fs t s' → inv s → inv s'.
Proof.
  intros Hh Hh' [I1 I2 I3].
  pose proof (rec_at_bool _ _ _ _ _ _ _ (h_applied _ _ _ _ _ _ Hh) (h_applied _ _ _ _ _ _ Hh')) as Ea.
  pose proof (rec_at_bool _ _ _ _ _ _ _ (h_fence _ _ _ _ _ _ Hh) (h_fence _ _ _ _ _ _ Hh')) as Ef.
  pose proof (rec_at_fmap _ _ _ _ _ _ _ (h_finalized _ _ _ _ _ _ Hh) (h_finalized _ _ _ _ _ _ Hh')) as En.
  pose proof (rec_at_fmap _ _ _ _ _ _ _ (h_restored _ _ _ _ _ _ Hh) (h_restored _ _ _ _ _ _ Hh')) as Er.
  pose proof (rec_at_fmap _ _ _ _ _ _ _ (h_blocked _ _ _ _ _ _ Hh) (h_blocked _ _ _ _ _ _ Hh')) as Eb.
  pose proof (holds_place_eq _ _ _ _ (h_place _ _ _ _ _ _ Hh) (h_place _ _ _ _ _ _ Hh')) as Ep.
  split.
  - intros r Hr. rewrite <-Ef. apply (I1 r). congruence.
  - intros f Hf. destruct (proj2 En (ex_intro _ f Hf)) as [g Hg]. destruct (I2 g Hg) as (K1 & K2 & K3).
    split; [congruence|]. split; [by eapply not_some|]. by rewrite <-Ep.
  - intros r Hr. destruct (proj2 Er (ex_intro _ r Hr)) as [g Hg]. destruct (I3 g Hg) as (K1 & K2 & K3).
    split; [congruence|]. split; [congruence|]. by eapply not_some.
Qed.

(** Any view of a transaction's state the files allow will do. *)
Lemma recoverable_view fs ts σ t s :
  recoverable fs ts σ → t ∈ ts → holds fs t s → inv s ∧ recoverable fs ts (upd t s σ).
Proof.
  intros [K1 K2 K3 K4 K5] Ht Hh. destruct (K3 t Ht) as (Hsz & Hh' & Hi).
  assert (inv s) as His by by eapply holds_inv. split; [done|]. split; try done.
  intros t' Ht'. unfold upd. case_decide as E; [|by apply K3].
  rewrite (separate_inj ts t t' K2 Ht Ht' E). by split.
Qed.

(** Something happened to a journal name in the source directory only. *)
Lemma recoverable_source ts σ fs fs' t p :
  recoverable fs ts σ → t ∈ ts → only_entry sid (t_journal t) fs fs' →
  holds_place eu sid qid fs' t p → inv (with_place p (σ t)) → ∃ σ', recoverable fs' ts σ'.
Proof.
  intros [K1 K2 K3 K4 K5] Ht [Hl He] Hp Hi'. destruct (K3 t Ht) as (Hsz & Hh & Hi).
  exists (upd t (with_place p (σ t)) σ). split; [by eapply roots_layout|done|..].
  - intros t' Ht'. destruct (K3 t' Ht') as (Hsz' & Hh2 & Hi2). split; [done|].
    unfold upd. case_decide as E.
    + rewrite (separate_inj ts t t' K2 Ht Ht' E). split; [|done].
      apply (holds_moved eu sid qid t (σ t) p fs fs'); [apply Hsz|done| |done].
      intros d n _ Hn. apply He. by intros [_ ->].
    + split; [|done]. eapply holds_same; [|done]. intros d n Ho. apply He. intros [-> ->].
      eapply (owned_apart sid qid Hids t t'); [by apply Hsz|by apply Hsz'| |done|right; auto].
      apply K2; [done..|congruence].
  - destruct K4 as (N1 & N2 & N3). split; [done|]. split.
    + intros t' Ht'. rewrite He; [by apply N2|]. intros [E _]. congruence.
    + intros n Hn. rewrite He; [by apply N3|]. intros [E _]. congruence.
  - intros d n f Hs Hf. apply (K5 d n f Hs). rewrite <-He; [done|]. intros [-> ->].
    rewrite (ok_scratch sid qid t) in Hs; [done|apply Hsz].
Qed.

(** Something happened to another journal. *)
Lemma recoverable_other ts σ fs fs' name :
  recoverable fs ts σ → endswith ".jsonl" name = true → scratch name = false →
  (∀ t, t ∈ ts → t_journal t ≠ name) → only_entry sid name fs fs' → recoverable fs' ts σ.
Proof.
  intros [K1 K2 K3 K4 K5] Hend Hscratch Hne [Hl He]. split; [by eapply roots_layout|done|..].
  - intros t Ht. destruct (K3 t Ht) as (Hsz & Hh & Hi). split; [done|]. split; [|done].
    eapply holds_same; [|done]. intros d n Ho. apply He. intros [-> ->].
    destruct Ho as [[E _]|[_ [E|E]]]; [by apply Hids|by destruct (Hne t Ht)|].
    apply endswith_app in Hend as [p Hp]. rewrite E in Hp.
    unfold t_fence_name, _quarantine_fence_name in Hp. rewrite ?str_app_assoc in Hp.
    change ".fence" with (".fenc" +:+ "e") in Hp. change ".jsonl" with (".json" +:+ "l") in Hp.
    rewrite !str_app_assoc in Hp. by apply last_char in Hp.
  - destruct K4 as (N1 & N2 & N3). split; [done|]. split.
    + intros t' Ht'. rewrite He; [by apply N2|]. intros [E _]. congruence.
    + intros n Hn. rewrite He; [by apply N3|]. intros [E _]. congruence.
  - intros d n f Hs Hf. apply (K5 d n f Hs). rewrite <-He; [done|]. intros [-> ->].
    by rewrite Hscratch in Hs.
Qed.

Lemma journal_name_shape event :
  endswith ".jsonl" (_journal_name event) = true ∧ scratch (_journal_name event) = false.
Proof.
  unfold _journal_name, material_digest. set (m := ascii_dumps _).
  split; [apply endswith_app; by eexists|].
  pose proof (sha256_length m) as Hl. pose proof (sha256_is_hex m) as Hx.
  destruct (sha256_hexdigest m) as [|c s]; [done|]. cbn [string_forall] in Hx.
  apply andb_true_iff in Hx as [Hc _]. rewrite str_app_cons.
  unfold scratch, is_temp, TRANSACTION_TEMP_PREFIX, FENCE_TEMP_PREFIX, QUARANTINE_LOCK.
  cbn [String.prefix]. destruct (ascii_dec "." c) as [<-|Hne]; [done|]. simpl.
  destruct (Ascii.eqb_spec c "."); [congruence|done].
Qed.

(** The writers keep a directory recoverable. *)
Lemma recoverable_append ts σ fs fs1 fs' event :
  recoverable fs ts σ → quiet eu fs fs1 → grown sid (_journal_name event) fs1 fs' →
  (is_Some (entry fs1 sid (_quarantine_fence_name (_journal_name event))) → fs' = fs1) →
  ∃ σ', recoverable fs' ts σ'.
Proof.
  set (name := _journal_name event). intros Hrec Hq [Ho Hg] Hfence.
  destruct (journal_name_shape event) as [Hend Hscr]. fold name in Hend, Hscr.
  apply (recoverable_quiet Wild eu S Q sid qid max_bytes Hids _ _ _ fs1) in Hrec; [|done].
  destruct (decide (Exists (λ t, t_journal t = name) ts)) as [Hex|Hno].
  2:{ exists σ. eapply (recoverable_other ts σ fs1 fs' name); try done.
      intros t Ht E. apply Hno, Exists_exists. by exists t. }
  apply Exists_exists in Hex as (t & Ht & En). rewrite <-En in *.
  destruct (rv_known _ _ _ _ _ _ _ _ _ Hrec t Ht) as (Hsz & Hh & Hi).
  pose proof (h_place _ _ _ _ _ _ Hh) as Hp. destruct (s_place (σ t)) as [|r] eqn:Er.
  - destruct Hp as (Hn & f & Hf & Hj & Hpre). destruct (Hg f Hf) as (g & Hge & [C1 C2 C3 [s C4]]).
    eapply (recoverable_source ts σ fs1 fs' t AtSource); try done.
    + split.
      * rewrite <-Hn. apply Ho. intros [E _]. by apply Hids.
      * exists g. split; [done|]. destruct Hj. split; [split; congruence|].
        rewrite C4. by apply prefix_grows.
    + by rewrite with_place_at_source.
  - exists σ. rewrite Hfence; [done|]. pose proof (h_fence _ _ _ _ _ _ Hh) as Hf.
    rewrite (inv_withheld _ Hi r Er) in Hf. destruct Hf as [(f & Hf & _) _]. by exists f.
Qed.

(** The journals are where they were or moved, and hold at least what they held. *)
Definition kept (ts : list tx) (fs fs' : fsys) : Prop :=
  ∀ t f, t ∈ ts → journal_at fs t = Some f → ∃ g, journal_at fs' t = Some g ∧ continues f g.

#[local] Instance kept_preorder ts : PreOrder (kept ts).
Proof.
  split.
  - intros fs t f _ Hf. by exists f.
  - intros f1 f2 f3 K1 K2 t f Ht Hf. destruct (K1 t f Ht Hf) as (g & Hg & C1).
    destruct (K2 t g Ht Hg) as (h & Hh & C2). exists h. split; [done|]. by etrans.
Qed.

Lemma progress_kept md ts σ fs σ' fs' :
  progress md eu sid qid max_bytes ts σ fs σ' fs' → kept ts fs fs'.
Proof. intros P t f Ht Hf. rewrite (pg_journal _ _ _ _ _ _ _ _ _ _ P t Ht). by exists f. Qed.

Lemma grown_kept ts name fs fs' : grown sid name fs fs' → kept ts fs fs'.
Proof.
  intros [[_ He] Hg] t f _ Hf. unfold QuarantineState.journal_at in *.
  rewrite (He qid) by (intros [E _]; by apply Hids).
  destruct (entry fs qid (t_journal t)); [by exists f|].
  destruct (decide (t_journal t = name)) as [<-|Hne]; [by apply Hg|].
  rewrite He by (by intros [_ ?]). by exists f.
Qed.

Lemma at_wild w : w_euid w = eu → (0 < w_pid w)%Z → at_fs Wild eu (w_fs w) w.
Proof. by repeat split. Qed.

(** Nothing that happens leaves the recoverable directories or loses what a journal holds. *)
Lemma acts_operation_ok ts σ w t s o script :
  w_euid w = eu → (0 < w_pid w)%Z → recoverable (w_fs w) ts σ →
  t ∈ ts → holds (w_fs w) t s → unsettled s → enabled t s o →
  let w' := (run_operation t s o (set_script script w)).2 in
  alive ts w' ∧ kept ts (w_fs w) (w_fs w').
Proof.
  intros He Hp Hrec Ht Hh Hu Hen w'.
  destruct (recoverable_view _ _ _ _ _ Hrec Ht Hh) as [Hi Hrec'].
  destruct (rv_known _ _ _ _ _ _ _ _ _ Hrec t Ht) as (Hsz & _ & _).
  pose proof (runs_elim eu Wild _ _ _ _ _ (runs_operation Wild eu S Q sid qid max_bytes Hids Hdev
    Hpaths Hmax (w_fs w) t s o (rv_roots _ _ _ _ _ _ _ _ _ Hrec) Hsz Hh Hi Hu Hen)
    (at_wild (set_script script w) He Hp)) as K.
  assert (∀ s' fs', steps (wild Wild) s s' → holds fs' t s' → touched eu sid qid t (w_fs w) fs' →
    (∃ σ', recoverable fs' ts σ') ∧ kept ts (w_fs w) fs') as Hdone.
  { intros s' fs' Hs Hh' Htc.
    assert (progress Wild eu sid qid max_bytes ts (upd t s σ) (w_fs w) (upd t s' (upd t s σ)) fs') as P.
    { eapply (progress_one _ _ _ _ _ Hids _ _ _ t s'); [apply Hrec|apply Hrec'|done| |done..].
      rewrite upd_eq. exact Hs. }
    split; [|by eapply progress_kept]. eexists.
    by eapply (recoverable_progress Wild eu S Q sid qid max_bytes Hids). }
  subst w'. unfold alive. destruct (run_operation t s o (set_script script w)) as [[u|e] w1];
    cbn [snd]; destruct K as [(_ & K1 & K2 & _) K].
  - destruct K as (K3 & K4 & K5). destruct (Hdone _ _ (rtc_once _ _ K5) K3 K4). by split_and!.
  - destruct K as (s' & K3 & K4 & K5). destruct (Hdone _ _ K3 K4 K5). by split_and!.
Qed.

Lemma acts_reconcile_ok ts σ w lease script :
  w_euid w = eu → (0 < w_pid w)%Z → recoverable (w_fs w) ts σ → lease_ok S sid lease →
  let w' := (reconcile lease (set_script script w)).2 in
  alive ts w' ∧ kept ts (w_fs w) (w_fs w').
Proof.
  intros He Hp Hrec Hl w'.
  pose proof (runs_elim eu Wild _ _ _ _ _ (runs_reconcile eu S Q sid qid max_bytes Hids Hdev Hpaths
    Hmax Wild (w_fs w) ts σ lease Hrec Hl) (at_wild (set_script script w) He Hp)) as K.
  assert (∃ σ', progress Wild eu sid qid max_bytes ts σ (w_fs w) σ' (w_fs w')
    ∧ w_euid w' = eu ∧ (0 < w_pid w')%Z) as (σ' & P & K1 & K2).
  { subst w'. destruct (reconcile lease (set_script script w)) as [[r|e] w1]; cbn [snd];
      destruct K as [(_ & K1 & K2 & _) (σ' & K)]; exists σ'; (split; [|done]).
    - by destruct K as (_ & K & _).
    - by destruct K as [K _]. }
  split; [|by eapply progress_kept]. split; [done|]. split; [done|]. exists σ'.
  by eapply (recoverable_progress Wild eu S Q sid qid max_bytes Hids).
Qed.

Lemma acts_append_ok ts σ w getenv event script :
  w_euid w = eu → (0 < w_pid w)%Z → recoverable (w_fs w) ts σ →
  getenv "ECPA_HOST_EVENT_DIR" = Some S →
  let w' := (append_event getenv event (set_script script w)).2 in
  alive ts w' ∧ kept ts (w_fs w) (w_fs w').
Proof.
  intros He Hp Hrec Hdir w'.
  pose proof (runs_elim eu Wild _ _ _ _ _ (runs_append_event Wild eu S sid getenv Hdir (w_fs w) event
    (proj1 (rv_roots _ _ _ _ _ _ _ _ _ Hrec)) (rv_temps _ _ _ _ _ _ _ _ _ Hrec))
    (at_wild (set_script script w) He Hp)) as K.
  assert (∃ fs1, quiet eu (w_fs w) fs1 ∧ grown sid (_journal_name event) fs1 (w_fs w')
    ∧ (is_Some (entry fs1 sid (_quarantine_fence_name (_journal_name event))) → w_fs w' = fs1)
    ∧ w_euid w' = eu ∧ (0 < w_pid w')%Z) as (fs1 & K1 & K2 & K3 & K4 & K5).
  { subst w'. destruct (append_event getenv event (set_script script w)) as [[r|e] w1]; cbn [snd];
      destruct K as [(_ & K1 & K2 & _) (fs1 & K3 & K4 & K5)]; by exists fs1. }
  split.
  - split; [done|]. split; [done|]. by eapply recoverable_append.
  - etrans; [|by eapply grown_kept]. eapply (progress_kept Wild), progress_quiet; [apply Hrec|done].
Qed.

Lemma acts_replace_ok ts σ w t f :
  w_euid w = eu → (0 < w_pid w)%Z → recoverable (w_fs w) ts σ → t ∈ ts →
  is_Some (entry (w_fs w) qid (t_journal t)) → entry (w_fs w) sid (t_journal t) = None →
  let w' := set_fs (set_entry sid (t_journal t) (Some f) (w_fs w)) w in
  alive ts w' ∧ kept ts (w_fs w) (w_fs w').
Proof.
  intros He Hp Hrec Ht [g Hg] Hn w'.
  destruct (rv_known _ _ _ _ _ _ _ _ _ Hrec t Ht) as (Hsz & Hh & Hi).
  assert (has_dir (w_fs w) sid) as Hd by (eapply root_ok_has_dir, Hrec).
  assert (only_entry sid (t_journal t) (w_fs w) (w_fs w')) as Ho by by apply only_entry_set.
  pose proof (h_place _ _ _ _ _ _ Hh) as Hpl.
  assert (s_place (σ t) = Withheld false) as Ep.
  { destruct (s_place (σ t)) as [|[]] eqn:Ep; [|..|done].
    - destruct Hpl as [Hpl _]. congruence.
    - destruct Hpl as [_ [? Hpl]]. congruence. }
  rewrite Ep in Hpl. destruct Hpl as [(h & Hh1 & Hh2) _].
  assert (entry (w_fs w') qid (t_journal t) = Some h) as Hh1'.
  { destruct Ho as [_ Ho]. rewrite Ho; [done|]. intros [E _]. by apply Hids. }
  split.
  - split; [done|]. split; [done|].
    eapply (recoverable_source ts σ _ _ t (Withheld true)); try done.
    + split; [by exists h|]. cbn [w_fs w' set_fs]. rewrite entry_set, bool_decide_true by done.
      by eexists.
    + eapply inv_env; [by apply env_replace|done].
  - eapply (grown_kept ts (t_journal t)). split; [done|]. intros f' Hf'. congruence.
Qed.

Lemma alive_acts ts w w' :
  alive ts w → acts ts w w' → alive ts w' ∧ kept ts (w_fs w) (w_fs w').
Proof.
  intros (He & Hp & σ & Hrec) Ha.
  destruct Ha; [by eapply acts_operation_ok|by eapply acts_reconcile_ok|by eapply acts_append_ok
    |by eapply acts_replace_ok|].
  split; [|done]. split; [done|]. split; [done|]. by exists σ.
Qed.

Lemma alive_history ts w w' :
  alive ts w → rtc (acts ts) w w' → alive ts w' ∧ kept ts (w_fs w) (w_fs w').
Proof.
  intros Ha Hs. induction Hs as [w|w w1 w2 Hs _ IH]; [by split|].
  destruct (alive_acts _ _ _ Ha Hs) as [Ha1 K1]. destruct (IH Ha1) as [Ha2 K2].
  split; [done|]. by etrans.
Qed.

(** Where the journal is, and what goes with it. *)
Definition journal_safe (fs : fsys) (t : tx) : Prop :=
  ∃ f, journal_file eu t f ∧ String.prefix (raw (t_snapshot t)) (f_data f) = true
    ∧ (entry fs sid (t_journal t) = Some f ∧ entry fs qid (t_journal t) = None
       ∨ entry fs qid (t_journal t) = Some f ∧ f_data f = raw (t_snapshot t)
         ∧ has_rec fs sid (t_fence_name t) (t_fence sid qid t)).

(** A finalized transaction was applied, is not restored, and its journal is withheld. *)
Definition finalized_safe (fs : fsys) (t : tx) : Prop :=
  is_Some (entry fs qid (t_record t "finalized")) →
  has_rec fs qid (t_record t "applied") (t_applied sid qid t)
  ∧ is_Some (entry fs qid (t_journal t)) ∧ entry fs qid (t_record t "restored") = None.

(** A restored one has its journal in place without a fence, and is nothing else. *)
Definition restored_safe (fs : fsys) (t : tx) : Prop :=
  is_Some (entry fs qid (t_record t "restored")) →
  entry fs qid (t_journal t) = None ∧ entry fs sid (t_fence_name t) = None
  ∧ entry fs qid (t_record t "finalized") = None ∧ entry fs qid (t_record t "blocked") = None.

Lemma holds_safe fs t s :
  holds fs t s → inv s → journal_safe fs t ∧ finalized_safe fs t ∧ restored_safe fs t.
Proof.
  intros Hh [I1 I2 I3]. pose proof (h_place _ _ _ _ _ _ Hh) as Hp.
  pose proof (h_fence _ _ _ _ _ _ Hh) as Hf. split_and!.
  - destruct (s_place s) as [|r] eqn:Ep.
    + destruct Hp as (Hn & f & Hf' & Hj & Hpre). exists f. auto.
    + destruct Hp as [(f & Hf' & Hj & Hd) _]. exists f. split; [done|].
      rewrite (I1 r eq_refl) in Hf. destruct Hf as [Hf _]. rewrite Hd. split; [|by right].
      pose proof (prefix_grows (raw (t_snapshot t)) (raw (t_snapshot t)) EmptyString) as K.
      rewrite str_app_nil_r in K. apply K. clear. induction (raw (t_snapshot t)) as [|c x IH]; [done|].
      cbn [String.prefix]. by destruct (ascii_dec c c).
  - intros Hs. pose proof (rec_at_is_some _ _ _ _ (h_finalized _ _ _ _ _ _ Hh)) as E.
    rewrite fmap_is_Some in E. apply E in Hs as [x Hx].
    destruct (I2 x Hx) as (K1 & K2 & r & K3). rewrite K3 in Hp. destruct Hp as [(f & Hf' & _) _].
    pose proof (h_applied _ _ _ _ _ _ Hh) as Ha. rewrite K1 in Ha.
    pose proof (h_restored _ _ _ _ _ _ Hh) as Hr. rewrite K2 in Hr.
    split; [apply Ha|]. split; [by eexists|done].
  - intros Hs. pose proof (rec_at_is_some _ _ _ _ (h_restored _ _ _ _ _ _ Hh)) as E.
    rewrite fmap_is_Some in E. apply E in Hs as [x Hx].
    destruct (I3 x Hx) as (K1 & K2 & K3). rewrite K1 in Hp. rewrite K2 in Hf.
    pose proof (h_blocked _ _ _ _ _ _ Hh) as Hb. rewrite K3 in Hb.
    pose proof (h_finalized _ _ _ _ _ _ Hh) as Hn. destruct (s_finalized s) as [y|] eqn:Ey.
    { destruct (I2 y eq_refl) as (_ & K & _). congruence. }
    split; [apply Hp|]. by split_and!.
Qed.

(** C4. No history loses a journal.  From prepared transactions, let the runner's operations,
    reconciliations and the writers' events follow one another in any order, every system call
    of them failing, falling short or being the last before a kill, other processes starting and
    foreign files taking the names of withheld journals.  Every journal is then still the same
    file, in exactly one of the two directories as far as the transaction is concerned, and
    holds everything that was ever written to it; withheld, it is exactly what the intent says
    and fenced against its writers.  A finalized transaction was applied, is not restored and
    keeps its journal withheld; a restored one has its journal back, without a fence, and is
    neither finalized nor blocked. *)
Theorem journal_never_lost ts σ w w' t :
  w_euid w = eu → (0 < w_pid w)%Z → recoverable (w_fs w) ts σ → rtc (acts ts) w w' → t ∈ ts →
  journal_safe (w_fs w') t ∧ finalized_safe (w_fs w') t ∧ restored_safe (w_fs w') t
  ∧ ∀ f, journal_at (w_fs w) t = Some f →
      ∃ g, journal_at (w_fs w') t = Some g ∧ continues f g.
Proof.
  intros He Hp Hrec Hs Ht.
  destruct (alive_history ts w w') as [(_ & _ & σ' & Hrec') Hk]; [by split_and!; [..|exists σ]|done|].
  destruct (rv_known _ _ _ _ _ _ _ _ _ Hrec' t Ht) as (_ & Hh & Hi).
  destruct (holds_safe _ _ _ Hh Hi) as (K1 & K2 & K3). split_and!; [done..|].
  intros f Hf. by apply Hk.
Qed.
End Life.
