(* ===== verification/JournalTheorems.v ===== *)
(** * JournalTheorems: what records, journals and host events guarantee

    Round trips of the JSON, base64 and record layers, the termination of the JSON reader, the
    atomicity of journal moves, and what an accepted host event and the receipt made of it
    promise. *)

From S2P Require Import Prelude Effects Json JsonText Base64 Sha256 EcpaModel HostEvidence JournalFs HostEventSink Quarantine JournalProofs SinkProofs RecordProofs QuarantineState QuarantineSteps QuarantineTheorems.

Local Open Scope string_scope.

(** ** Text *)

(** Canonical JSON is read back as the value that was printed, up to the order of the
    keys, and printing it again gives the same bytes: the comparison
    [raw == canonical_bytes(value) + newline] that every record passes through accepts exactly
    what was written. *)
Theorem canonical_roundtrip v :
  keys_unique v = true →
  ∃ v', loads (canonical_bytes v +:+ newline) = Some v'
    ∧ canonical_bytes v' = canonical_bytes v ∧ py_eqb v' v = true.
Proof.
  intros Hv. exists (norm v). split; [by apply loads_canonical|].
  split; [apply canonical_bytes_norm|by apply py_eqb_norm].
Qed.

Lemma canonical_roundtrip_witness :
  let v := JObj [("b", JArr [JInt 3; JNull; JStr "x"]); ("a", JObj [("c", JBool true)])] in
  ∃ v', loads (canonical_bytes v +:+ newline) = Some v'
    ∧ canonical_bytes v' = canonical_bytes v ∧ py_eqb v' v = true.
Proof. apply canonical_roundtrip. vm_compute. reflexivity. Defined.

(** The JSON reader always ends: it looks at each character a bounded number of times, so
    more fuel than [loads] gives never changes the answer, whatever the text, the object hook
    and the constant hook. *)
Theorem reader_terminates hook constant n s :
  (loads_fuel s ≤ n)%nat → value hook constant n s = value hook constant (loads_fuel s) s.
Proof. apply value_fuel. Qed.

Lemma reader_terminates_witness :
  value to_dict no_constant 100 "[[1,[]],{" = value to_dict no_constant (loads_fuel "[[1,[]],{") "[[1,[]],{".
Proof. apply reader_terminates. vm_compute. lia. Defined.

(** Base64 as CPython decodes it: decoding the encoding gives the bytes back, and the
    encoding has four characters for every three bytes begun. *)
Theorem base64_roundtrip s :
  b64decode (b64encode s) = Some s
  ∧ String.length (b64encode s) = (4 * ((String.length s + 2) / 3))%nat.
Proof. split; [apply b64decode_encode|apply b64encode_length]. Qed.

(** ** Records and journals *)

Section Files.
Context `{Sha256} `{!Sha256Laws} `{Entropy} `{!EntropyLaws}.

(** C35. Publishing a record is atomic, and what was published is read back.  If
    [_write_record] returns, any later reading of the record gives the same [DurableRecord],
    whose value equals the one written; if it raises or is killed, the name is still free or
    holds the complete record. *)
Theorem record_roundtrip md w root d txid stage v :
  let eu := w_euid w in
  let name := record_name txid stage in
  running eu md w → root_ok eu (w_fs w) root d → txid_ok txid → stage ∈ stages →
  (∃ kvs, v = JObj kvs) → keys_unique v = true → entry (w_fs w) d name = None →
  ends (_write_record root d txid stage v w)
    (λ r w', r_name r = name ∧ r_raw r = canonical_bytes v +:+ newline
       ∧ py_eqb (JObj (r_value r)) v = true
       ∧ ∀ w2, w_fs w2 = w_fs w' → running eu Healthy w2 →
           ∃ w3, read_quarantine_record root d txid stage true w2 = (Ok (Some r), w3))
    (λ e w', entry (w_fs w') d name = None ∨ has_rec eu (w_fs w') d name v).
Proof.
  intros eu name (He & Hp & Hm) Hroot Ht Hs Hobj Hkeys Hnone.
  pose proof (runs_elim eu md (w_fs w) _ _ _ w
    (runs_write_record md eu (w_fs w) root d txid stage v None Hroot Ht Hs Hobj Hkeys Hnone)) as K.
  unfold ends. destruct (_write_record root d txid stage v w) as [[r|e] w'].
  - destruct K as [_ (Hfit & -> & Hw)]; [done|]. split; [done|]. split; [done|]. split.
    { destruct Hobj as [kvs ->]. cbn [rec_of r_value].
      pose proof (py_eqb_norm (JObj kvs) Hkeys) as E.
      destruct (norm (JObj kvs)) as [| | | | |l] eqn:El; try by rewrite norm_obj in El. }
    intros w2 E (He2 & Hp2 & Hm2).
    assert (reads Healthy eu (w_fs w2) (read_quarantine_record root d txid stage true)
      (Ok (Some (rec_of name v)))) as Hread.
    { unfold read_quarantine_record. rewrite E.
      eapply reads_bind_ok; [apply reads_root; eapply root_ok_layout; [apply Hw|done]|].
      cbv iota beta. eapply reads_bind_ok; [rewrite record_name_ok by done; apply reads_lift|].
      apply reads_record; [apply Hw|done]. }
    pose proof (runs_elim eu Healthy (w_fs w2) _ _ _ w2 Hread) as K2.
    destruct (read_quarantine_record root d txid stage true w2) as [[o|x] w3].
    + destruct K2 as [_ [_ [= <-]]]; [done|]. by exists w3.
    + destruct K2 as [_ [_ [[=]|[]]]]; done.
  - destruct K as [_ [[Hq|(_ & _ & Hw)] _]]; [done| |right; apply Hw].
    left. rewrite (q_same _ _ _ Hq); [done|]. apply record_name_scratch.
Qed.

(** C14. Moving a journal is all or nothing.  On success exactly the journal that was checked
    has moved, with its inode and bytes; on an error the directories are as they were or, when
    the process was killed or the error says that the undoing failed too, hold the complete
    journal at the other place: no failure loses, duplicates or changes a byte.  Undisturbed,
    every acceptable journal moves, and the undoing of a move puts everything back and raises the
    error that led to it. *)
Theorem journal_move_atomic md w root qroot sd dd name max_bytes e :
  let eu := w_euid w in
  running eu md w → root_ok eu (w_fs w) root sd → root_ok eu (w_fs w) qroot dd →
  root ≠ qroot → sd ≠ dd → sd.1 = dd.1 →
  ends (quarantine_journal root qroot name sd dd max_bytes e w)
    (λ j w', ∃ f, entry (w_fs w) sd name = Some f ∧ readable eu max_bytes f
       ∧ j = journal_of sd name f ∧ expected e j ∧ w_fs w' = moved sd dd name f (w_fs w))
    (λ x w', (eqv (w_fs w) (w_fs w') ∨ undo_failed x ∧ ∃ f, entry (w_fs w) sd name = Some f
         ∧ entry (w_fs w) dd name = None ∧ w_fs w' = moved sd dd name f (w_fs w))
       ∧ (fault md x ∨ ∀ f, journal_name_ok name = true → (0 < max_bytes)%Z →
          entry (w_fs w) sd name = Some f → entry (w_fs w) dd name = None →
          readable eu max_bytes f → expected e (journal_of sd name f) → False))
  ∧ ∀ f x w1, entry (w_fs w) sd name = Some f → entry (w_fs w) dd name = None →
      running eu Healthy w1 → w_fs w1 = moved sd dd name f (w_fs w) →
      ∃ w2, move_back sd dd name x w1 = (Err x, w2) ∧ eqv (w_fs w) (w_fs w2).
Proof.
  intros eu (He & Hp & Hm) Hr Hq Hpaths Hne Hdev. split.
  - pose proof (runs_elim eu md (w_fs w) _ _ _ w
      (runs_quarantine md eu (w_fs w) root qroot sd dd name max_bytes e Hr Hq Hpaths Hne Hdev)) as K.
    unfold ends. destruct (quarantine_journal root qroot name sd dd max_bytes e w) as [[j|x] w'].
    + destruct K as [_ (f & Hf & _ & Hread & Hj & Hexp & Hfs)]; [done|]. by exists f.
    + destruct K as [_ [Hfs Hx]]; [done|]. split; [|done].
      destruct Hfs as [Heq|(Hu & f & Hf & Hn & _ & Hfs)]; [by left|]. right. split; [done|].
      by exists f.
  - intros f x w1 Hf Hn (He1 & Hp1 & Hm1) E1.
    assert (at_fs Healthy eu (moved sd dd name f (w_fs w)) w1) as Hw1 by by split_and!.
    pose proof (runs_elim eu Healthy _ _ _ _ w1 (runs_move_back Healthy eu (w_fs w) sd dd name f x
      (λ _ _, False) (λ e fs', e = x ∧ eqv (w_fs w) fs') Hne Hdev (root_ok_has_dir _ _ _ _ Hr)
      (root_ok_has_dir _ _ _ _ Hq) Hf Hn ltac:(naive_solver)) Hw1) as K.
    destruct (move_back sd dd name x w1) as [[?|?] w2]; [by destruct K|].
    destruct K as (_ & -> & ?). by exists w2.
Qed.

End Files.

(** ** Host events *)

Section HostEvents.
Context `{Sha256}.

Lemma py_eqb_str_inv v s : py_eqb v (JStr s) = true → v = JStr s.
Proof. destruct v; try done. cbn [py_eqb]. intros E. reflect. by subst. Qed.

Lemma py_eqb_int_inv v z : py_eqb v (JInt z) = true → v = JInt z ∨ ∃ b, v = JBool b ∧ z = Z.b2z b.
Proof. destruct v; try done; cbn [py_eqb]; intros E; reflect; subst; eauto. Qed.

Lemma demand_ok b d u : demand b d = Ok u → b = true.
Proof. unfold demand, check. by destruct b. Qed.

Lemma bind_ok {A B} (m : result A) (f : A → result B) b :
  (m ≫= f) = Ok b → ∃ a, m = Ok a ∧ f a = Ok b.
Proof. destruct m as [a|e]; [|done]. by exists a. Qed.

Lemma check_passed b e u : check b e = Ok u → b = true.
Proof. unfold check. by destruct b. Qed.

Lemma in_set_ok v l : in_set v l = Ok true → ∃ s, v = JStr s ∧ s ∈ l.
Proof.
  unfold in_set. destruct v; try done. intros [= E]. reflect. eauto.
Qed.

Ltac step H x := apply bind_ok in H as (x & ?E & H).

(** What an accepted host event is. *)
Record host_event (value : list (string * json)) : Prop := {
  he_fields : same_keys event_fields value = true;
  he_schema : get "schema" value = JStr HOST_SCHEMA;
  he_event : ∃ s, get "event" value = JStr s ∧ s ∈ EVENTS;
  he_kind : ∃ s, get "observation_kind" value = JStr s ∧ s ∈ OBSERVATION_KINDS;
  he_id : get "event_id" value = JStr (material_digest (event_material_items value));
  he_bound : get "binding_status" value = JStr "bound"
    ↔ get "plan_id" value ≠ JNull ∧ get "launch_id" value ≠ JNull;
  he_both : get "plan_id" value = JNull ↔ get "launch_id" value = JNull;
  he_pid : ∃ pid ticks, get "pid" (members_of (get "process" value)) = JInt pid ∧ (0 ≤ pid)%Z
    ∧ get "start_identity" (members_of (get "process" value))
      = JStr ("pid:" +:+ z_str pid +:+ ":start_ticks:" +:+ ticks);
  he_epoch : ∃ n, get "process_epoch" (members_of (get "process" value)) = JInt n ∧ (0 ≤ n)%Z;
  he_plugin : get "plugin_id" value = JNull ∧ get "artifact_digest" value = JNull;
  he_loader : get "observation_kind" value = JStr "loader_lifecycle" →
    get "controller_instance_id" value = JNull ∧ get "invocation_seq" value = JNull
    ∧ get "dispatch_id" value = JNull;
}.

Lemma check_shape_ok value u :
  check_shape value = Ok u →
  same_keys event_fields value = true ∧ get "schema" value = JStr HOST_SCHEMA
  ∧ (∃ s, get "event" value = JStr s ∧ s ∈ EVENTS)
  ∧ (∃ s, get "observation_kind" value = JStr s ∧ s ∈ OBSERVATION_KINDS)
  ∧ (∃ s, get "start_identity" (members_of (get "process" value)) = JStr s).
Proof.
  unfold check_shape. intros E. step E x. step E y. step E b. step E z. step E c. step E d.
  step E f. step E g. step E h.
  apply demand_ok in E0. apply check_passed in E1, E3, E5. apply demand_ok in E8.
  subst b c. apply in_set_ok in E2, E4. apply py_eqb_str_inv in E1.
  split; [done|]. split; [done|]. split; [done|]. split; [done|].
  rewrite forallb_forall in E8.
  assert (nonempty_str (get "start_identity" (members_of (get "process" value))) = true) as K.
  { apply E8. simpl. do 7 right. by left. }
  unfold nonempty_str in K. destruct (get "start_identity" _); try done. by eexists.
Qed.

Lemma check_integers_ok value u :
  check_integers value = Ok u →
  (∃ s, get "start_identity" (members_of (get "process" value)) = JStr s) →
  ∃ pid ticks, get "pid" (members_of (get "process" value)) = JInt pid ∧ (0 ≤ pid)%Z
    ∧ get "start_identity" (members_of (get "process" value))
      = JStr ("pid:" +:+ z_str pid +:+ ":start_ticks:" +:+ ticks).
Proof.
  unfold check_integers. intros E [s Hs]. step E x. step E y. clear E.
  apply demand_ok in E0. cbn [forallb] in E0. reflect.
  destruct (get "pid" (members_of (get "process" value))) as [| |pid| | |] eqn:Ep; try done.
  cbn [int_from] in *. reflect. cbn [int_of] in E1. rewrite Hs in E1. cbn [str_of] in E1.
  destruct (strip_prefix _ s) as [ticks|] eqn:Et; [|done]. exists pid, ticks.
  split; [done|]. split; [done|]. apply strip_prefix_inv in Et. rewrite Hs, Et.
  by rewrite <-!str_app_assoc.
Qed.

Lemma check_integers_epoch value u :
  check_integers value = Ok u →
  ∃ n, get "process_epoch" (members_of (get "process" value)) = JInt n ∧ (0 ≤ n)%Z.
Proof.
  unfold check_integers. intros E. step E x. apply demand_ok in E0. cbn [forallb] in E0. reflect.
  destruct (get "process_epoch" _) as [| |n| | |]; try done. cbn [int_from] in *. reflect.
  by exists n.
Qed.

Lemma is_null_ok v : is_null v = true ↔ v = JNull.
Proof. by destruct v. Qed.

Lemma check_binding_ok value u :
  check_binding value = Ok u →
  (get "binding_status" value = JStr "bound"
    ↔ get "plan_id" value ≠ JNull ∧ get "launch_id" value ≠ JNull)
  ∧ (get "plan_id" value = JNull ↔ get "launch_id" value = JNull).
Proof.
  unfold check_binding. intros E. step E x. step E b. step E y. step E z.
  apply demand_ok in E, E3. apply Bool.eqb_prop in E, E3.
  split; [|by rewrite <-!is_null_ok, E3].
  assert (∀ v, v ≠ JNull ↔ is_null v = false) as Hn
    by (intros v; rewrite <-is_null_ok, not_true_iff_false; done).
  rewrite !Hn. split.
  - intros Hb. rewrite Hb, py_eqb_str in E. by reflect.
  - intros [N1 N2]. rewrite N1, N2 in E. by apply py_eqb_str_inv.
Qed.

Lemma check_observation_loader value u :
  check_observation value = Ok u → get "observation_kind" value = JStr "loader_lifecycle" →
  get "controller_instance_id" value = JNull ∧ get "invocation_seq" value = JNull
  ∧ get "dispatch_id" value = JNull.
Proof.
  unfold check_observation. intros E Hk. rewrite Hk in E. cbn [str_of String.eqb Ascii.eqb Bool.eqb] in E.
  apply demand_ok in E. cbn [forallb] in E. reflect. by rewrite <-!is_null_ok.
Qed.

Lemma parse_host_event_ok raw value : parse_host_event raw = Ok value → host_event value.
Proof.
  unfold parse_host_event. intros E. step E v. step E a. step E b. step E c. step E d. step E f.
  step E g. step E h. injection E as ->.
  destruct (check_shape_ok _ _ E1) as (K1 & K2 & K3 & K4 & K5).
  destruct (check_binding_ok _ _ E3) as [K6 K7].
  apply demand_ok in E6, E7. apply py_eqb_str_inv in E6. reflect.
  split; try done.
  - by eapply check_integers_ok.
  - by eapply check_integers_epoch.
  - by rewrite <-!is_null_ok.
  - by eapply check_observation_loader.
Qed.

(** What [parse_host_event] accepts is a well-formed host event: exactly the schema's
    fields, a known event and kind, an identifier that is the digest of the identity-bearing
    items, a start identity that embeds the pid, a binding that is "bound" exactly when plan and
    launch are both given, no invented plugin identity, and no scheduler identity on loader
    events. *)
Theorem host_event_accepted raw value :
  parse_host_event raw = Ok value → host_event value.
Proof. apply parse_host_event_ok. Qed.

(** C34. Formal invocation evidence is bound.  A receipt is only made of an accepted "invoked"
    event that the host, not the environment, assigned to the process, and that names the
    plan, the launch, the process epoch and the entry point asked for; the statement carries
    these, the host, role, ordinal and start identity of the event's process, the obligation, a
    plugin of the plan, and the digest of the very bytes received. *)
Theorem invocation_evidence_bound raw plan launch epoch binding issuer kid nonce issued expires r :
  translate_invocation raw plan launch epoch binding issuer kid nonce issued expires = Ok r →
  let process := members_of (get "process" (hr_event r)) in
  let entry := members_of (get "entry_point" (hr_event r)) in
  let s := hr_statement r in
  host_event (hr_event r) ∧ hr_raw r = raw
  ∧ get "event" (hr_event r) = JStr "invoked"
  ∧ get "binding_status" (hr_event r) = JStr "bound"
  ∧ get "assignment_source" process = JStr "host"
  ∧ get "plan_id" (hr_event r) = JStr (s_plan_id s) ∧ s_plan_id s = plan_id plan
  ∧ get "launch_id" (hr_event r) = JStr (s_launch_id s) ∧ s_launch_id s = launch
  ∧ get "process_epoch" process = JInt (ps_epoch (s_process s)) ∧ ps_epoch (s_process s) = epoch
  ∧ (ps_host (s_process s), ps_role (s_process s), ps_ordinal (s_process s),
     ps_start_identity (s_process s))
    = (get "host" process, get "role" process, get "ordinal" process, get "start_identity" process)
  ∧ s_obligation s = b_obligation binding
  ∧ (get "group" entry, get "name" entry, get "value" entry)
    = (JStr (b_group binding), JStr (b_name binding), JStr (b_value binding))
  ∧ (∃ p, p ∈ plugins plan ∧ plugin_id p = b_plugin_id binding ∧ s_plugin_id s = plugin_id p
       ∧ s_artifact_digest s = "sha256:" +:+ artifact_sha256 p)
  ∧ s_evidence_digest s = "sha256:" +:+ sha256_hexdigest raw.
Proof.
  unfold translate_invocation. intros E. step E ev. step E a. step E b. step E c. step E d.
  step E f. step E g. apply parse_host_event_ok in E0. apply demand_ok, py_eqb_str_inv in E1.
  unfold match_binding in *. apply check_passed in E2, E3, E4, E5, E6. reflect.
  repeat match goal with K : py_eqb _ (JStr _) = true |- _ => apply py_eqb_str_inv in K end.
  destruct (find _ (plugins plan)) as [p|] eqn:Ep; [|done]. injection E as <-. simpl.
  apply find_some in Ep as [Hp Hid]. reflect. split_and!; try done.
  - destruct (he_epoch _ E0) as (n & Hn & _). rewrite Hn in E5.
    apply py_eqb_int_inv in E5 as [[= ->]|(x & [=] & _)]. exact Hn.
  - congruence.
  - exists p. by rewrite list_elem_of_In.
Qed.
End HostEvents.
