(* ===== verification/QuarantineRuns.v ===== *)
(** * QuarantineRuns: concrete runs of quarantine transactions

    A decision procedure for [recoverable], a directory with two worker journals, and the
    witnesses of the theorems on quarantine transactions.  They hold of every digest with 64
    hexadecimal digits; a rolling one, quick to evaluate, stands for it here. *)

From stdpp Require Import relations sorting.
From S2P Require Import Prelude Effects Json JsonText Base64 Sha256 HostEvidence JournalFs HostEventSink Quarantine QuarantineRecovery JournalProofs SinkProofs RecordProofs QuarantineState QuarantineSteps QuarantinePaths QuarantineSettle QuarantineClean QuarantineReconcile QuarantineTheorems QuarantineOperations.

Local Open Scope string_scope.

(** ** Deciding what a directory holds *)

Section Deciding.
Context `{Sha256} `{!Sha256Laws} (eu : Z) (sid qid : ident) (max_bytes : Z).

Definition fitsb (v : json) : bool :=
  match v with
  | JObj _ => keys_unique v
      && (Z.of_nat (String.length (text v)) <=? MAX_TRANSACTION_RECORD_BYTES)%Z
  | _ => false
  end.

Lemma fitsb_ok v : fitsb v = true → fits v.
Proof.
  destruct v as [| | | | |kvs]; try done. unfold fitsb. intros Hv. reflect.
  split; [by eexists|done|done].
Qed.

Definition rec_atb (fs : fsys) (d : ident) (n : string) (o : option json) : bool :=
  match o, entry fs d n with
  | Some v, Some f => bool_decide (f_kind f = Regular) && (f_uid f =? eu)%Z
      && (f_mode f =? MODE_0600)%Z && (f_data f =? text v) && fitsb v
  | None, None => true
  | _, _ => false
  end.

Lemma rec_atb_ok fs d n o : rec_atb fs d n o = true → rec_at eu fs d n o.
Proof.
  unfold rec_atb, rec_at. destruct o as [v|], (entry fs d n) as [f|] eqn:Hf; try done.
  intros Hb. reflect. split; [by exists f|by apply fitsb_ok].
Qed.

Definition journal_fileb (t : tx) (f : file) : bool :=
  bool_decide (f_kind f = Regular) && (f_uid f =? eu)%Z && (f_ino f =? inode (t_snapshot t))%Z.

Definition placeb (fs : fsys) (t : tx) (p : place) : bool :=
  match p, entry fs qid (t_journal t), entry fs sid (t_journal t) with
  | AtSource, None, Some f =>
      journal_fileb t f && String.prefix (raw (t_snapshot t)) (f_data f)
  | Withheld r, Some f, o =>
      journal_fileb t f && (f_data f =? raw (t_snapshot t))
      && Bool.eqb r (match o with Some _ => true | None => false end)
  | _, _, _ => false
  end.

Lemma journal_fileb_ok t f : journal_fileb t f = true → journal_file eu t f.
Proof. unfold journal_fileb. intros Hb. reflect. by split. Qed.

Lemma placeb_ok fs t p : placeb fs t p = true → holds_place eu sid qid fs t p.
Proof.
  unfold placeb, holds_place. destruct p as [|r], (entry fs qid (t_journal t)) as [f|],
    (entry fs sid (t_journal t)) as [g|]; try done; intros Hb; reflect.
  - split; [done|]. exists g. by split; [|split; [apply journal_fileb_ok|]].
  - split; [exists f; by split; [|split; [apply journal_fileb_ok|]]|].
    match goal with K : Bool.eqb _ _ = true |- _ => apply Bool.eqb_prop in K; subst end. by eexists.
  - split; [exists f; by split; [|split; [apply journal_fileb_ok|]]|].
    by match goal with K : Bool.eqb _ _ = true |- _ => apply Bool.eqb_prop in K; subst end.
Qed.

Definition finalized_okb (f : json * json) : bool :=
  _is_digest f.1 && _valid_process_identity f.2 && keys_unique f.2.

(** All of [holds]. *)
Definition holdsb (fs : fsys) (t : tx) (s : state) : bool :=
  rec_atb fs qid (t_record t "intent") (Some (t_intent sid qid t))
  && rec_atb fs qid (t_record t "applied")
       (if s_applied s then Some (t_applied sid qid t) else None)
  && rec_atb fs qid (t_record t "finalized") (t_finalized sid qid t <$> s_finalized s)
  && match s_finalized s with Some f => finalized_okb f | None => true end
  && rec_atb fs qid (t_record t "restored")
       (t_restored sid qid t (s_applied s) <$> s_restored s)
  && match s_restored s with Some r => bool_decide (r ∈ _RESTORE_REASONS) | None => true end
  && rec_atb fs qid (t_record t "blocked")
       (t_blocked sid qid t (s_applied s) (s_finalized s) <$> s_blocked s)
  && match s_blocked s with
     | Some r => bool_decide (r ∈ _BLOCK_REASONS)
         && Bool.eqb (r =? after_finalize) (is_some (s_finalized s))
     | None => true
     end
  && rec_atb fs sid (t_fence_name t) (if s_fence s then Some (t_fence sid qid t) else None)
  && placeb fs t (s_place s).

Lemma holdsb_ok fs t s : holdsb fs t s = true → holds eu sid qid fs t s.
Proof.
  unfold holdsb. intros Hb. repeat (apply andb_true_iff in Hb as [Hb ?K]).
  split; try (by apply rec_atb_ok).
  - by apply (rec_atb_ok _ _ _ (Some _)) in Hb as [? _].
  - intros f Ef. rewrite Ef in K5. unfold finalized_okb in K5. unfold finalized_ok. by reflect.
  - intros r Er. rewrite Er in K3. by reflect.
  - intros r Er. rewrite Er in K1. apply andb_true_iff in K1 as [K1 K2']. reflect.
    split; [done|]. apply Bool.eqb_prop in K2'. destruct (String.eqb_spec r after_finalize) as [->|Hr],
      (s_finalized s); done.
  - by apply placeb_ok.
Qed.

Definition tx_okb (t : tx) : bool :=
  keys_unique (t_binding t) && journal_name_ok (t_journal t) && negb (scratch (t_journal t))
  && (device (t_snapshot t) =? sid.1)%Z && (0 <? sid.1)%Z && (0 <? inode (t_snapshot t))%Z
  && terminated (raw (t_snapshot t)) && fitsb (t_intent sid qid t) && fitsb (t_applied sid qid t)
  && fitsb (t_fence sid qid t)
  && forallb (λ b, forallb (λ r, fitsb (t_restored sid qid t b r)) _RESTORE_REASONS)
       [true; false]
  && (Z.of_nat (String.length (raw (t_snapshot t))) <=? max_bytes)%Z.

Lemma tx_okb_ok t : tx_okb t = true → sized sid qid max_bytes t.
Proof.
  unfold tx_okb. intros Hb. repeat (apply andb_true_iff in Hb as [Hb ?K]). reflect.
  split; [|lia]. split; try assumption; try (apply fitsb_ok; assumption).
  intros b r Hr%list_elem_of_In. apply fitsb_ok. rewrite forallb_forall in K0.
  specialize (K0 b). rewrite forallb_forall in K0. apply K0; [|done]. destruct b; simpl; auto.
Qed.

Definition settleableb (fs : fsys) (t : tx) (s : state) : bool :=
  match s_blocked s, s_place s, entry fs sid (t_journal t) with
  | Some _, _, _ | None, Withheld true, _ => false
  | None, AtSource, Some f =>
      bool_decide (f_kind f = Regular) && (f_uid f =? eu)%Z && terminated (f_data f)
      && (Z.of_nat (String.length (f_data f)) <=? max_bytes)%Z
  | None, AtSource, None => false
  | None, Withheld false, _ => true
  end.

Lemma settleableb_ok fs t s :
  settleableb fs t s = true → settleable eu sid max_bytes fs t s.
Proof.
  unfold settleableb. intros Hb. destruct (s_blocked s) eqn:Eb; [done|].
  destruct (s_place s) as [|[]] eqn:Ep; try done.
  - destruct (entry fs sid (t_journal t)) as [f|] eqn:Ef; [|done]. reflect.
    split; [done|]. split; [congruence|]. intros _. exists f. split; [done|]. by split.
  - split; [done|]. split; congruence.
Qed.

(** All the transactions of a directory, [σ] giving their states. *)
Definition populationb (fs : fsys) (ts : list tx) : bool :=
  bool_decide (NoDup (map t_id ts))
  && forallb (λ t, match entry fs qid (t_record t "intent") with Some _ => true | None => false end) ts
  && forallb (λ n, negb (is_transaction_name n)
       || existsb (λ t, existsb (λ st, n =? t_record t st) stages) ts) (names_of fs qid).

Lemma populationb_ok fs ts : populationb fs ts = true → population qid fs ts.
Proof.
  unfold populationb. intros [[K1 K2]%andb_true_iff K3]%andb_true_iff. reflect.
  rewrite forallb_forall in K2, K3. split; [done|]. split.
  - intros t Ht%list_elem_of_In%K2. by destruct (entry fs qid (t_record t "intent")).
  - intros n Hn He%elem_of_names_of%list_elem_of_In%K3. rewrite Hn in He. cbn [negb orb] in He.
    apply existsb_exists in He as (t & Ht & (st & Hst & He)%existsb_exists). reflect.
    exists t, st. by rewrite !list_elem_of_In.
Qed.

Definition apartb (t t' : tx) : bool :=
  negb (t_id t =? t_id t') && negb (t_journal t =? t_journal t')
  && negb (t_fence_name t =? t_fence_name t').

Definition separateb (ts : list tx) : bool :=
  bool_decide (NoDup (map t_id ts))
  && forallb (λ t, forallb (λ t', (t_id t =? t_id t') || apartb t t') ts) ts.

Lemma separateb_ok ts : separateb ts = true → separate ts.
Proof.
  unfold separateb. intros [K1 K2]%andb_true_iff. reflect. split; [done|].
  intros t t' Ht%list_elem_of_In Ht'%list_elem_of_In Hne. rewrite forallb_forall in K2.
  specialize (K2 t Ht). rewrite forallb_forall in K2. specialize (K2 t' Ht').
  apply orb_true_iff in K2 as [K2|K2]; [by reflect|]. unfold apartb in K2. by reflect.
Qed.

Definition temps_okb (fs : fsys) : bool :=
  forallb (λ d, forallb (λ n, negb (scratch n)
    || match entry fs d n with
       | Some f => bool_decide (f_kind f = Regular) && (f_uid f =? eu)%Z
           && (f_mode f =? MODE_0600)%Z
           && (negb (String.prefix TRANSACTION_TEMP_PREFIX n) || _TRANSACTION_TEMP_PATTERN n)
           && (negb (String.prefix FENCE_TEMP_PREFIX n) || _FENCE_TEMP_PATTERN n)
       | None => true
       end) (names_of fs d)) (map_to_list (fs_dirs fs)).*1.

Lemma temps_okb_ok fs : temps_okb fs = true → temps_ok eu fs.
Proof.
  unfold temps_okb. intros Hb d n f Hn Hf. rewrite forallb_forall in Hb.
  assert (d ∈ (map_to_list (fs_dirs fs)).*1) as Hd.
  { destruct (entry_dir _ _ _ _ Hf) as [dir Hdir]. apply list_elem_of_fmap. exists (d, dir).
    split; [done|]. by apply elem_of_map_to_list. }
  specialize (Hb d (proj1 (list_elem_of_In _ _) Hd)). rewrite forallb_forall in Hb.
  specialize (Hb n). rewrite <-list_elem_of_In, elem_of_names_of, Hf, Hn in Hb.
  specialize (Hb ltac:(by eexists)). simpl in Hb. reflect.
  split; [done|]. split; [done|]. split; [done|]. split; intros Hp; rewrite Hp in *; simpl in *; by reflect.
Qed.
End Deciding.

(** ** A directory with two journals *)

Definition rolling (s : string) : Z :=
  foldl (λ acc c, Z.land (Z.lxor (Z.shiftl acc 1) (acc + Z.of_N (N_of_ascii c))) (Z.ones 48)) 7%Z
    (list_ascii_of_string s).

#[export] Instance rolling_digest : Sha256 := λ s, Fips.hex 64 (rolling s) EmptyString.

#[export] Instance rolling_laws : @Sha256Laws rolling_digest.
Proof.
  constructor; intros data; unfold sha256_hexdigest, rolling_digest.
  - by rewrite (proj1 (Fips.hex_shape _ _ _)).
  - by rewrite (proj2 (Fips.hex_shape _ _ _)).
Qed.

Module QDemo.
#[export] Instance token : Entropy := λ n, Fips.hex 32 (Z.of_nat n) EmptyString.

Definition S : string := "/events".
Definition Q : string := "/quarantine".
Definition sid : ident := (7, 100)%Z.
Definition qid : ident := (7, 101)%Z.
Definition max_bytes : Z := 4096.
Definition eu : Z := 1000.

Definition line (n : Z) : string := "{" +:+ z_str n +:+ "}" +:+ newline.
Definition worker : file := File 5 Regular eu 384 (line 1 +:+ line 2).
Definition peer : file := File 6 Regular eu 384 (line 3).

Definition fs0 : fsys := Fsys ∅ {[S := S; Q := Q]} {[S := sid; Q := qid]}
  {[sid := Directory eu 448 {["worker.jsonl" := worker; "peer.jsonl" := peer]};
    qid := Directory eu 448 ∅]} 10.
Definition w0 : World := mkWorld fs0 ∅ [] eu 42 0.

Definition t1 : tx := mkTx (JObj [("plan_id", JStr "plan-1")])
  (mkJournal "worker.jsonl" (line 1 +:+ line 2) 7 5).
Definition t2 : tx := mkTx (JObj [("plan_id", JStr "plan-2")])
  (mkJournal "peer.jsonl" (line 3) 7 6).

Definition prepare (t : tx) : M World unit :=
  prepare_quarantine_transaction Q qid (t_id t) (t_binding t) sid (t_snapshot t);; mret tt.
Definition run (t : tx) (s : state) (o : operation) : M World unit :=
  run_operation S Q sid qid max_bytes t s o.

Definition fenced : state := with_fence true prepared.
Definition withheld : state := with_place (Withheld false) fenced.
Definition applied : state := with_applied withheld.

Definition receipt : json := JStr (_digest "receipt").
Definition identity : json := JObj [("pid", JInt 9); ("start_ticks", JInt 3);
  ("argv", JArr [JStr "worker"]); ("executable_device", JInt 7); ("executable_inode", JInt 77)].

(** Both prepared, the first applied: the manager died before finalizing. *)
Definition w_applied : World :=
  ((prepare t1;; run t1 prepared OpFence;; run t1 fenced OpWithhold;;
    run t1 withheld OpApply;; prepare t2) w0).2.
Definition w_prepared : World := (prepare t1 w0).2.

(** The 61st call fails. *)
Definition fails : list outcome := (repeat Done 60 ++ [Fail])%list.

Definition ts : list tx := [t1; t2].
Definition states (s1 s2 : state) (t : tx) : state := if t_id t =? t_id t1 then s1 else s2.

Definition w_settled : World :=
  ((prepare t1;; run t1 prepared OpFence;; run t1 fenced OpWithhold;; run t1 withheld OpApply;;
    run t1 applied (OpFinalize (receipt, identity));; prepare t2;;
    run t2 prepared (OpRestored "no-move-observed")) w0).2.

Definition reconcile (lease : option QuarantineTransactionLease)
    : M World ReconciliationResult :=
  reconcile_quarantine_transactions S Q sid qid max_bytes lease.
Definition lease : QuarantineTransactionLease :=
  mkLease S sid (Some (sid, QUARANTINE_LOCK)).
End QDemo.
Import QDemo.

#[export] Instance token_laws : @EntropyLaws QDemo.token.
Proof.
  constructor; intros n; unfold token_hex, QDemo.token.
  - by rewrite (proj1 (Fips.hex_shape _ _ _)).
  - by rewrite (proj2 (Fips.hex_shape _ _ _)).
Qed.

Lemma demo_roots fs : same_layout fs0 fs → roots eu S Q sid qid fs.
Proof.
  intros Hl. eapply roots_layout; [done|].
  split; (split; [done|vm_compute; reflexivity|apply not_elem_of_empty|vm_compute; reflexivity|]);
    eexists; split; try (vm_compute; reflexivity); done.
Qed.

(** What is decided of a world: its transactions and their states. *)
Definition recoverableb (fs : fsys) (l : list tx) (σ : tx → state) : bool :=
  forallb (λ t, tx_okb sid qid max_bytes t && holdsb eu sid qid fs t (σ t)) l
  && separateb l && populationb qid fs l && temps_okb eu fs.

Lemma recoverableb_ok fs l σ :
  same_layout fs0 fs → recoverableb fs l σ = true → (∀ t, t ∈ l → inv (σ t)) →
  recoverable eu S Q sid qid max_bytes fs l σ.
Proof.
  intros Hl Hb Hi. unfold recoverableb in Hb. repeat (apply andb_true_iff in Hb as [Hb ?K]).
  split; [by apply demo_roots|by apply separateb_ok| |by apply populationb_ok|by apply temps_okb_ok].
  intros t Ht. rewrite forallb_forall in Hb. specialize (Hb t (proj1 (list_elem_of_In _ _) Ht)).
  apply andb_true_iff in Hb as [Hb1 Hb2]. split; [by apply tx_okb_ok|].
  split; [by apply holdsb_ok|by apply Hi].
Qed.

Lemma demo_inv : inv prepared ∧ inv fenced ∧ inv withheld ∧ inv applied
  ∧ inv (with_finalized (receipt, identity) applied)
  ∧ inv (with_restored "no-move-observed" prepared).
Proof. by split_and!; split; cbn; intros; simplify_eq; eauto. Qed.

Lemma demo_layout fs :
  fs_links fs = ∅ → fs_real fs = fs_real fs0 → fs_paths fs = fs_paths fs0 →
  (λ dir, (d_uid dir, d_mode dir)) <$> fs_dirs fs
    = (λ dir, (d_uid dir, d_mode dir)) <$> fs_dirs fs0 →
  same_layout fs0 fs.
Proof. intros E1 E2 E3 E4. split; [done..|]. intros d. by rewrite <-!lookup_fmap, E4. Qed.

Lemma demo_recoverable :
  recoverable eu S Q sid qid max_bytes (w_fs w_applied) ts (states applied prepared).
Proof.
  apply recoverableb_ok; [apply demo_layout; vm_compute; reflexivity|vm_compute; reflexivity|].
  intros t _. unfold states. destruct (t_id t =? t_id t1); apply demo_inv.
Qed.

Lemma demo_settleable t :
  t ∈ ts → settleable eu sid max_bytes (w_fs w_applied) t (states applied prepared t).
Proof.
  intros Ht. apply settleableb_ok. revert t Ht. apply Forall_forall.
  repeat constructor; vm_compute; reflexivity.
Qed.

Definition settled_states : tx → state :=
  states (with_finalized (receipt, identity) applied)
    (with_restored "no-move-observed" prepared).

Lemma settled_recoverable :
  recoverable eu S Q sid qid max_bytes (w_fs w_settled) ts settled_states.
Proof.
  apply recoverableb_ok; [apply demo_layout; vm_compute; reflexivity|vm_compute; reflexivity|].
  intros t _. unfold settled_states, states. destruct (t_id t =? t_id t1); apply demo_inv.
Qed.

Lemma settled_settleable t :
  t ∈ ts → done_state (settled_states t)
    ∧ settleable eu sid max_bytes (w_fs w_settled) t (settled_states t).
Proof.
  intros Ht. split.
  - unfold settled_states, states. destruct (t_id t =? t_id t1);
      [right; split; [by eexists|done]|left; by eexists].
  - apply settleableb_ok. revert t Ht. apply Forall_forall.
    repeat constructor; vm_compute; reflexivity.
Qed.

Definition demo_ids : sid ≠ qid ∧ sid.1 = qid.1 ∧ S ≠ Q ∧ (0 < max_bytes)%Z.
Proof. by split_and!. Defined.

(** ** Witnesses *)

Lemma set_script_fs s w : w_fs (set_script s w) = w_fs w.
Proof. done. Qed.

(** One call fails. *)
Lemma reconcile_refines_witness :
  ends (reconcile_quarantine_transactions S Q sid qid max_bytes None (set_script fails w_applied))
    (λ r w', ∃ σ', all_settled Wild eu sid qid max_bytes ts (states applied prepared)
      (w_fs (set_script fails w_applied)) r σ' (w_fs w'))
    (λ e w', ∃ σ', progress Wild eu sid qid max_bytes ts (states applied prepared)
      (w_fs (set_script fails w_applied)) σ' (w_fs w')
      ∧ (fault Wild e ∨ e = busy ∧ @None QuarantineTransactionLease = None
         ∨ ∃ t, t ∈ ts ∧ ¬ settleable eu sid max_bytes (w_fs (set_script fails w_applied)) t
                             (states applied prepared t))).
Proof.
  refine (reconcile_refines eu S Q sid qid max_bytes (proj1 demo_ids) eq_refl
    (proj1 (proj2 (proj2 demo_ids))) eq_refl Wild (set_script fails w_applied) ts (states applied prepared) None _ _ _).
  - split; [vm_compute; reflexivity|]. split; [vm_compute; reflexivity|exact I].
  - rewrite set_script_fs. exact demo_recoverable.
  - exact I.
Defined.

(** Killed at its 30th and, started again, at its 50th system call. *)
Lemma crash_recovery_witness :
  ∃ r w' σ',
    reconcile_quarantine_transactions S Q sid qid max_bytes (Some lease)
      (set_script [Done; Short 3; Short 1] (crashes [(repeat Done 30 ++ [Kill])%list; (repeat Done 50 ++ [Kill])%list]
        (reconcile_quarantine_transactions S Q sid qid max_bytes (Some lease)) w_applied))
      = (Ok r, w')
    ∧ ∀ t, t ∈ ts → holds eu sid qid (w_fs w') t (σ' t) ∧ done_state (σ' t)
        ∧ journal_at sid qid (w_fs w') t = journal_at sid qid (w_fs w_applied) t.
Proof.
  refine (crash_recovery eu S Q sid qid max_bytes (proj1 demo_ids) eq_refl
    (proj1 (proj2 (proj2 demo_ids))) eq_refl w_applied ts (states applied prepared) lease
    [(repeat Done 30 ++ [Kill])%list; (repeat Done 50 ++ [Kill])%list]
    [Done; Short 3; Short 1] _ _ _ _ _ _ _).
  - vm_compute; reflexivity.
  - vm_compute; reflexivity.
  - repeat constructor; done.
  - repeat constructor; done.
  - split_and!; [done|done|by eexists].
  - exact demo_recoverable.
  - exact demo_settleable.
Defined.

(** The first transaction finalized, the second restored: settled. *)
Lemma reconcile_idempotent_witness :
  ends (reconcile_quarantine_transactions S Q sid qid max_bytes None w_settled)
    (λ _ w', unchanged eu sid qid ts settled_states w_settled w')
    (λ e w', unchanged eu sid qid ts settled_states w_settled w'
      ∧ (fault Healthy e ∨ e = busy ∧ @None QuarantineTransactionLease = None)).
Proof.
  refine (reconcile_idempotent eu S Q sid qid max_bytes (proj1 demo_ids) eq_refl
    (proj1 (proj2 (proj2 demo_ids))) eq_refl Healthy w_settled ts settled_states None _ _ _ _).
  - split; [vm_compute; reflexivity|]. split; [vm_compute; reflexivity|].
    unfold mode_ok. assert (w_script w_settled = []) as -> by (vm_compute; reflexivity). constructor.
  - exact settled_recoverable.
  - exact I.
  - exact settled_settleable.
Defined.

(** Fencing a prepared transaction. *)
Lemma operations_refine_witness :
  ends (run_operation S Q sid qid max_bytes t1 prepared OpFence w_prepared)
    (λ _ w', holds eu sid qid (w_fs w') t1 (after prepared OpFence)
       ∧ touched eu sid qid t1 (w_fs w_prepared) (w_fs w')
       ∧ step (wild Calm) prepared (after prepared OpFence))
    (λ e w', ∃ s', steps (wild Calm) prepared s' ∧ holds eu sid qid (w_fs w') t1 s'
       ∧ touched eu sid qid t1 (w_fs w_prepared) (w_fs w')).
Proof.
  refine (proj2 (operations_refine Calm eu S Q sid qid max_bytes (proj1 demo_ids) eq_refl
    (proj1 (proj2 (proj2 demo_ids))) eq_refl w_prepared t1 _ _ _ _) prepared OpFence _ _ _ _ _).
  - vm_compute; reflexivity.
  - vm_compute; reflexivity.
  - unfold mode_ok. assert (w_script w_prepared = []) as -> by (vm_compute; reflexivity). constructor.
  - apply demo_roots, demo_layout; vm_compute; reflexivity.
  - apply tx_okb_ok; vm_compute; reflexivity.
  - apply holdsb_ok; vm_compute; reflexivity.
  - exact inv_prepared.
  - split_and!; reflexivity.
  - reflexivity.
Defined.
