(* ===== verification/JournalRuns.v ===== *)
(** * JournalRuns: concrete runs of the journal layer

    Witnesses for the theorems of JournalTheorems.v and RecordBounds.v, and runs in which the
    code does something its documentation does not promise. *)

From stdpp Require Import relations.
From S2P Require Import Prelude Effects Json JsonText Base64 Sha256 EcpaModel HostEvidence JournalFs HostEventSink Quarantine QuarantineRecovery JournalProofs SinkProofs RecordProofs QuarantineState RecordBounds QuarantineTheorems QuarantineOperations QuarantineLife JournalTheorems QuarantineRuns.

Local Open Scope string_scope.
Import QDemo.

(** ** Records and journals *)

Lemma demo_running md : running eu md w0.
Proof. split; [done|]. split; [done|]. destruct md; constructor. Qed.

Lemma demo_root : root_ok eu fs0 S sid ∧ root_ok eu fs0 Q qid.
Proof. by apply demo_roots. Qed.

Lemma record_roundtrip_witness :
  ends (_write_record Q qid (t_id t1) "intent" (t_intent sid qid t1) w0)
    (λ r w', r_name r = record_name (t_id t1) "intent"
       ∧ r_raw r = canonical_bytes (t_intent sid qid t1) +:+ newline
       ∧ py_eqb (JObj (r_value r)) (t_intent sid qid t1) = true
       ∧ ∀ w2, w_fs w2 = w_fs w' → running eu Healthy w2 →
           ∃ w3, read_quarantine_record Q qid (t_id t1) "intent" true w2 = (Ok (Some r), w3))
    (λ e w', entry (w_fs w') qid (record_name (t_id t1) "intent") = None
       ∨ has_rec eu (w_fs w') qid (record_name (t_id t1) "intent") (t_intent sid qid t1)).
Proof.
  refine (record_roundtrip Wild w0 Q qid (t_id t1) "intent" (t_intent sid qid t1) _ _ _ _ _ _ _).
  - exact (demo_running Wild).
  - exact (proj2 demo_root).
  - apply t_id_ok.
  - apply QuarantineSteps.stage_ok. reflexivity.
  - by eexists.
  - vm_compute. reflexivity.
  - vm_compute. reflexivity.
Defined.

Lemma journal_move_atomic_witness :
  ends (quarantine_journal S Q "worker.jsonl" sid qid max_bytes (Some (t_snapshot t1)) w0)
    (λ j w', ∃ f, entry (w_fs w0) sid "worker.jsonl" = Some f ∧ readable eu max_bytes f
       ∧ j = journal_of sid "worker.jsonl" f ∧ expected (Some (t_snapshot t1)) j
       ∧ w_fs w' = moved sid qid "worker.jsonl" f (w_fs w0))
    (λ x w', (eqv (w_fs w0) (w_fs w') ∨ undo_failed x ∧ ∃ f, entry (w_fs w0) sid "worker.jsonl" = Some f
         ∧ entry (w_fs w0) qid "worker.jsonl" = None
         ∧ w_fs w' = moved sid qid "worker.jsonl" f (w_fs w0))
       ∧ (fault Calm x ∨ ∀ f, journal_name_ok "worker.jsonl" = true → (0 < max_bytes)%Z →
          entry (w_fs w0) sid "worker.jsonl" = Some f → entry (w_fs w0) qid "worker.jsonl" = None →
          readable eu max_bytes f →
          expected (Some (t_snapshot t1)) (journal_of sid "worker.jsonl" f) → False)).
Proof.
  refine (proj1 (journal_move_atomic Calm w0 S Q sid qid "worker.jsonl" max_bytes
    (Some (t_snapshot t1)) _ _ _ _ _ _)).
  - exact (demo_running Calm).
  - exact (proj1 demo_root).
  - exact (proj2 demo_root).
  - exact (proj1 (proj2 (proj2 demo_ids))).
  - exact (proj1 demo_ids).
  - reflexivity.
Defined.

Lemma intent_fits_witness : fits (t_intent sid qid t1).
Proof.
  refine (intent_fits sid qid t1 _ _ _ _ _ _ _ _ _ _); vm_compute; try reflexivity;
    try (split; [|reflexivity]); discriminate.
Defined.

(** ** Host events *)

Module EDemo.
Definition the_plan : EcpaModel.Plan :=
  EcpaModel.mkPlan [EcpaModel.Demo.plugin] EcpaModel.Demo.the_host []
    [EcpaModel.Demo.obligation] (EcpaModel.mkPredecessorSnapshot 0 None []) false.

Definition fields (event_id : string) : list (string * json) :=
  [("schema", JStr HOST_SCHEMA); ("event_id", JStr event_id); ("event", JStr "invoked");
   ("observation_kind", JStr "loader_lifecycle");
   ("entry_point", JObj [("group", JStr "g"); ("name", JStr "n"); ("value", JStr "m:f")]);
   ("process", JObj [("host", JStr "node0"); ("role", JStr "worker"); ("ordinal", JInt 0);
      ("pid", JInt 9); ("start_identity", JStr "pid:9:start_ticks:77");
      ("process_epoch", JInt 4); ("assignment_source", JStr "host")]);
   ("observed_at_ns", JInt 5000000000); ("delivery_attempt", JInt 1);
   ("plan_id", JStr (EcpaModel.plan_id the_plan)); ("launch_id", JStr "launch-1");
   ("binding_status", JStr "bound"); ("occurrence_id", JNull);
   ("controller_instance_id", JNull); ("invocation_seq", JNull); ("dispatch_id", JNull);
   ("plugin_id", JNull); ("artifact_digest", JNull); ("identity_status", JStr "known");
   ("detail", JNull)].

Definition event : list (string * json) :=
  fields (material_digest (event_material_items (fields EmptyString))).
Definition raw : string := ascii_dumps (JObj event).
Definition parsed : list (string * json) :=
  match parse_host_event raw with Ok v => v | Err _ => [] end.
Definition binding : EntryPointBinding :=
  mkBinding "g" "n" "m:f" (EcpaModel.plugin_id EcpaModel.Demo.plugin) "ob-1".
Definition translated : result HostReceipt :=
  translate_invocation raw the_plan "launch-1" 4 binding "issuer" "k1" "nonce" 10 20.
Definition receipt : HostReceipt :=
  match translated with
  | Ok r => r
  | Err _ => mkHostReceipt EmptyString [] (mkStatement EmptyString EmptyString EmptyString
      EmptyString EmptyString EmptyString EmptyString EmptyString EmptyString
      (mkProcessStatement JNull JNull JNull JNull 0) EmptyString EmptyString 0 0 0 EmptyString
      EmptyString [])
  end.
End EDemo.

Lemma host_event_accepted_witness : host_event EDemo.parsed.
Proof. apply (host_event_accepted EDemo.raw). vm_compute. reflexivity. Defined.

Lemma invocation_evidence_bound_witness :
  let r := EDemo.receipt in
  let process := members_of (get "process" (hr_event r)) in
  let entry := members_of (get "entry_point" (hr_event r)) in
  let s := hr_statement r in
  host_event (hr_event r) ∧ hr_raw r = EDemo.raw
  ∧ get "event" (hr_event r) = JStr "invoked"
  ∧ get "binding_status" (hr_event r) = JStr "bound"
  ∧ get "assignment_source" process = JStr "host"
  ∧ get "plan_id" (hr_event r) = JStr (s_plan_id s)
  ∧ s_plan_id s = EcpaModel.plan_id EDemo.the_plan
  ∧ get "launch_id" (hr_event r) = JStr (s_launch_id s) ∧ s_launch_id s = "launch-1"
  ∧ get "process_epoch" process = JInt (ps_epoch (s_process s)) ∧ ps_epoch (s_process s) = 4%Z
  ∧ (ps_host (s_process s), ps_role (s_process s), ps_ordinal (s_process s),
     ps_start_identity (s_process s))
    = (get "host" process, get "role" process, get "ordinal" process, get "start_identity" process)
  ∧ s_obligation s = b_obligation EDemo.binding
  ∧ (get "group" entry, get "name" entry, get "value" entry)
    = (JStr (b_group EDemo.binding), JStr (b_name EDemo.binding), JStr (b_value EDemo.binding))
  ∧ (∃ p, p ∈ EcpaModel.plugins EDemo.the_plan ∧ EcpaModel.plugin_id p = b_plugin_id EDemo.binding
       ∧ s_plugin_id s = EcpaModel.plugin_id p
       ∧ s_artifact_digest s = "sha256:" +:+ EcpaModel.artifact_sha256 p)
  ∧ s_evidence_digest s = "sha256:" +:+ sha256_hexdigest EDemo.raw.
Proof.
  apply (invocation_evidence_bound EDemo.raw EDemo.the_plan "launch-1" 4 EDemo.binding "issuer"
    "k1" "nonce" 10 20 EDemo.receipt).
  vm_compute. reflexivity.
Defined.

(** ** A history *)

Definition environment (name : string) : option string :=
  if (name =? "ECPA_HOST_EVENT_DIR")%string then Some S else None.

(** The applied journal's name is taken by another file, a reconciliation is killed at its 30th
    call, a writer's event is cut short, another process reconciles again and fails. *)
Definition w_taken : World :=
  set_fs (set_entry sid (t_journal t1) (Some peer) (w_fs w_applied)) w_applied.
Definition w_killed : World :=
  (reconcile_quarantine_transactions S Q sid qid max_bytes None
     (set_script (repeat Done 30 ++ [Kill])%list w_taken)).2.
Definition w_event : World :=
  (append_event environment (JObj EDemo.event) (set_script (repeat Done 12 ++ [Short 5; Kill])%list w_killed)).2.
Definition w_other : World := mkWorld (w_fs w_event) ∅ [] (w_euid w_event) 77 0.
Definition w_end : World :=
  (reconcile_quarantine_transactions S Q sid qid max_bytes None (set_script fails w_other)).2.

Lemma demo_history : rtc (acts eu S Q sid qid max_bytes ts) w_applied w_end.
Proof.
  apply (rtc_l _ w_applied w_taken).
  { apply (acts_replace eu S Q sid qid max_bytes ts w_applied t1 peer).
    - left.
    - vm_compute. by eexists.
    - vm_compute. reflexivity. }
  apply (rtc_l _ w_taken w_killed).
  { exact (acts_reconcile eu S Q sid qid max_bytes ts w_taken None _ I). }
  apply (rtc_l _ w_killed w_event).
  { exact (acts_append eu S Q sid qid max_bytes ts w_killed environment _ _ eq_refl). }
  apply (rtc_l _ w_event w_other).
  { exact (acts_process eu S Q sid qid max_bytes ts w_event ∅ 77 0 eq_refl). }
  apply (rtc_l _ w_other w_end).
  { exact (acts_reconcile eu S Q sid qid max_bytes ts w_other None _ I). }
  constructor.
Qed.

Lemma journal_never_lost_witness :
  journal_safe eu sid qid (w_fs w_end) t1 ∧ finalized_safe eu sid qid (w_fs w_end) t1
  ∧ restored_safe sid qid (w_fs w_end) t1
  ∧ ∀ f, journal_at sid qid (w_fs w_applied) t1 = Some f →
      ∃ g, journal_at sid qid (w_fs w_end) t1 = Some g ∧ continues f g.
Proof.
  refine (journal_never_lost eu S Q sid qid max_bytes (proj1 demo_ids) eq_refl
    (proj1 (proj2 (proj2 demo_ids))) eq_refl ts (states applied prepared) w_applied w_end t1
    _ _ _ _ _).
  - vm_compute. reflexivity.
  - vm_compute. reflexivity.
  - exact demo_recoverable.
  - exact demo_history.
  - left.
Defined.

(** ** What the code does besides *)

(** A second transaction on the journal of [t1]. *)
Definition t1_again : tx := mkTx (JObj [("plan_id", JStr "plan-1b")]) (t_snapshot t1).

(** [t1] is restored; later the same journal is withheld again, and finalized. *)
Definition w_reused : result unit * World :=
  (prepare t1;; run t1 prepared OpFence;; run t1 fenced OpUnfence;;
   run t1 prepared (OpRestored "no-move-observed");;
   prepare t1_again;; run t1_again prepared OpFence;; run t1_again fenced OpWithhold;;
   run t1_again withheld OpApply;; run t1_again applied (OpFinalize (QDemo.receipt, identity))) w0.

(** A journal can be quarantined once per directory.  After a transaction was restored, a
    later transaction on the same journal can be prepared, applied and finalized without any
    error; from then on every reconciliation of the directory raises, because the restored
    transaction finds the fence of the later one where its own must be gone. *)
Theorem reused_journal_wedges :
  w_reused.1 = Ok tt
  ∧ (reconcile None w_reused.2).1
    = Err (QuarantineTransactionError "source journal fence is inconsistent").
Proof. split; vm_compute; reflexivity. Qed.

(** The flush of the directory fails. *)
Definition w_leaked : result QuarantineTransactionLease * World :=
  acquire_quarantine_transaction_lease S sid (set_script (repeat Done 7 ++ [Fail])%list w0).

(** A failed directory flush leaks the lock.  If [os.fsync] fails at the end of
    [acquire_quarantine_transaction_lease], no lease is returned but the lock descriptor stays
    open, and the next attempt of the same process finds the lock taken. *)
Theorem lease_leaks_on_flush_failure :
  w_leaked.1 = Err (OSError "system call failed")
  ∧ (acquire_quarantine_transaction_lease S sid w_leaked.2).1
    = Err (QuarantineTransactionError "another quarantine transaction is active").
Proof. split; vm_compute; reflexivity. Qed.

(** A journal torn after the intent was written. *)
Definition w_torn : result unit * World :=
  (prepare t1;; sys_write sid "worker.jsonl" "{";; mret tt) w0.

(** A torn journal escapes the error type.  When a writer was killed in the middle of a
    line, reconciling a prepared transaction raises the [HostEventSinkError] of the snapshot
    instead of a [QuarantineTransactionError]; nothing is recorded, so it will do so again. *)
Theorem torn_journal_escapes :
  w_torn.1 = Ok tt
  ∧ (reconcile None w_torn.2).1 = Err (HostEventSinkError "journal snapshot source is partial")
  ∧ journal_at sid qid (w_fs (reconcile None w_torn.2).2) t1
    = journal_at sid qid (w_fs w_torn.2) t1.
Proof. split_and!; vm_compute; reflexivity. Qed.

(** An event whose kind is a list. *)
Definition unhashable_event : string :=
  ascii_dumps (JObj (dict_set "event" (JArr []) EDemo.event)).

(** A host event with a list or an object where a name belongs raises [TypeError], not the
    [AttestationError] every other malformed event raises: the membership test in a set needs a
    hash. *)
Theorem unhashable_event_raises :
  parse_host_event unhashable_event = Err (TypeError "unhashable type: 'list'").
Proof. vm_compute. reflexivity. Qed.
