(* ===== verification/ManagerController.v ===== *)
(** * ManagerController: launching a target under a plan (manager_controller.py)

    The manager's environment for a managed host, [launch_managed] up to the call of [supervise],
    whose arguments it returns, and [_formal_run_command] of cli.py; [read_plan_artifact] of
    plan_artifact.py.  Directories and paths live in the file system of JournalFs.v, where the
    evidence sink finds them, and are in the normal form of [Path]; opening a file with its
    [fstat] and content is a parameter.  Type tests on typed arguments are left out; a grace
    period is in milliseconds. *)

From S2P Require Import Prelude Effects Json Sha256 JsonText EcpaModel PlanArtifact JournalFs HostEventSink.
From S2P Require Manifest.

Local Open Scope string_scope.
Local Open Scope list_scope.

Definition ACTIVATION_CONTRACT : string := "manager-controlled-activation".
Definition HOST_SINK : string := "vllm_hust_ext.host_event_sink:append_event".
Definition CONTROLLED_ENVIRONMENT : list string :=
  ["VLLM_ECPA_PLAN_ID"; "VLLM_ECPA_LAUNCH_ID"; "VLLM_ECPA_EVIDENCE_SINK"; "VLLM_ECPA_EVIDENCE_STRICT";
   "ECPA_HOST_EVENT_DIR"; "ECPA_HOST_EVENT_FSYNC"; "ECPA_HOST_EVENT_DEVICE"; "ECPA_HOST_EVENT_INODE";
   "ECPA_CONTROLLER_INSTANCE"; "ECPA_ACTIVATION_CONTRACT"].

Definition activation_probe_receipt : string :=
  canonical_bytes (JObj
    [("schema", JStr "ecpa-activation-probe/v1"); ("activation_contract", JStr ACTIVATION_CONTRACT);
     ("accepted_options", JArr (map JStr
        ["--controller-instance"; "--host-event-dir"; "--launch-id"; "--plan";
         "--shutdown-grace-seconds"; "--target-executable-device"; "--target-executable-inode";
         "--target-executable-sha256"; "formal-run"]))]) +:+ newline.

Definition _identity (value name prefix : string) : result string :=
  _ ← check (String.prefix prefix value && negb (value =? prefix)
             && string_forall (λ c, negb (is_space c)) value)
        (ValueError (name +:+ " is not a canonical '" +:+ prefix +:+ "' identity"));
  Ok value.

(** [Path.is_dir()] and [Path.stat()] of a directory. *)
Definition sys_is_dir (path : string) : M World bool :=
  syscall (gets (λ w, bool_decide (is_Some (fs_paths (w_fs w) !! path)))).

Definition sys_stat_dir (path : string) : M World (ident * directory) :=
  syscall (o ← gets (λ w, d ← fs_paths (w_fs w) !! path; dir ← fs_dirs (w_fs w) !! d; Some (d, dir));
    match o with Some r => mret r | None => raise (enoent path) end).

Record ExecutionPlanArtifact := mkArtifact { artifact_path : string; artifact_raw : string;
  artifact_plan : Plan }.

(** An opened file: its [fstat] and its content. *)
Record Opened := mkOpened {
  o_regular : bool; o_uid : Z; o_mode : Z; o_device : Z; o_inode : Z; o_content : string }.

Definition environment : Type := list (string * string).

Section Controller.
Context `{Sha256}.

Definition artifact_plan_id (a : ExecutionPlanArtifact) : string := plan_id (artifact_plan a).

(** The variables that the manager owns. *)
Definition desired (artifact : ExecutionPlanArtifact) (launch_id controller_instance root : string)
    (identity : ident) : environment :=
  [("VLLM_ECPA_PLAN_ID", artifact_plan_id artifact); ("VLLM_ECPA_LAUNCH_ID", launch_id);
   ("VLLM_ECPA_EVIDENCE_SINK", HOST_SINK); ("VLLM_ECPA_EVIDENCE_STRICT", "1");
   ("ECPA_HOST_EVENT_DIR", root); ("ECPA_HOST_EVENT_FSYNC", "1");
   ("ECPA_HOST_EVENT_DEVICE", z_str identity.1); ("ECPA_HOST_EVENT_INODE", z_str identity.2);
   ("ECPA_CONTROLLER_INSTANCE", controller_instance);
   ("ECPA_ACTIVATION_CONTRACT", ACTIVATION_CONTRACT)].

Definition conflicts (base : environment) : list string :=
  List.filter (λ k, bool_decide (k ∈ CONTROLLED_ENVIRONMENT)) (keys base).

Definition update {A} (base added : list (string * A)) : list (string * A) :=
  fold_left (λ d kv, dict_set kv.1 kv.2 d) added base.

Definition managed_host_environment (base : environment) (artifact : ExecutionPlanArtifact)
    (launch_id controller_instance root : string) : M World environment :=
  launch_id ← lift_result (_identity launch_id "launch id" "launch:");
  controller_instance ← lift_result (_identity controller_instance "controller instance" "controller:");
  let unreal := ValueError "host event directory must be an existing canonical path" in
  raise_if (negb (is_absolute root)) unreal;;
  link ← sys_is_symlink root;
  raise_if link unreal;;
  is_dir ← sys_is_dir root;
  raise_if (negb is_dir) unreal;;
  '(identity, metadata) ← sys_stat_dir root;
  let unsafe := ValueError "host event directory must be private and owned" in
  resolved ← sys_resolve root;
  raise_if (negb (resolved =? root)) unsafe;;
  euid ← gets w_euid;
  raise_if (negb (d_uid metadata =? euid)%Z || others_write (d_mode metadata)) unsafe;;
  raise_if (negb (bool_decide (conflicts base = [])))
    (ValueError ("caller environment conflicts with manager-owned values: "
       +:+ String.concat ", " (sort_by id str_leb (conflicts base))));;
  mret (update base (desired artifact launch_id controller_instance root identity)).

(** ** Reading the plan *)

Context (open_nofollow open_file : string → result Opened).

(** [except OSError]. *)
Definition or_artifact_error {A} (r : result A) (msg : string) : result A :=
  match r with
  | Err e => if is_oserror e then artifact_error msg else Err e
  | Ok a => Ok a
  end.

Definition read_plan_artifact (path : string) : M World ExecutionPlanArtifact :=
  let unreal := PlanArtifactError "execution plan path must be absolute and real" in
  raise_if (negb (is_absolute path)) unreal;;
  link ← sys_is_symlink path;
  raise_if link unreal;;
  resolved ← os_error_as (PlanArtifactError "execution plan path is unavailable") (sys_resolve path);
  raise_if (negb (resolved =? path)) (PlanArtifactError "execution plan path must be canonical");;
  file ← lift_result (or_artifact_error (open_nofollow path) "cannot open execution plan artifact");
  euid ← gets w_euid;
  raise_if (negb (o_regular file) || negb (o_uid file =? euid)%Z || others_write (o_mode file))
    (PlanArtifactError "execution plan must be a private owned regular file");;
  plan ← lift_result (parse_plan_artifact (o_content file));
  mret (mkArtifact path (o_content file) plan).

(** ** Launching *)

(** The arguments of [launch_managed] but the environment. *)
Record ManagedArguments := mkManaged {
  m_plan_path : string; m_launch_id : string; m_controller_instance : string;
  m_host_event_dir : string; m_command : list string; m_device : Z; m_inode : Z;
  m_sha256 : string; m_dry_run : bool; m_grace : Z }.

(** What it does in the end: print, or call [supervise] on the opened executable. *)
Variant Managed :=
  | Printed (value : json)
  | Supervised (command : list string) (executable : Opened) (env : environment) (grace : Z).

(** [S_IMODE(mode) & 0o111]. *)
Definition executable_mode (mode : Z) : bool := negb (Z.land mode 73 =? 0)%Z.

(** The fingerprint of the target. *)
Definition is_target (m : ManagedArguments) (file : Opened) : bool :=
  o_regular file && executable_mode (o_mode file) && (o_device file =? m_device m)%Z
  && (o_inode file =? m_inode m)%Z
  && ("sha256:" +:+ sha256_hexdigest (o_content file) =? m_sha256 m).

Definition dry_run_value (m : ManagedArguments) (artifact : ExecutionPlanArtifact)
    (env : environment) (file : Opened) : json :=
  let variable k := JStr (default "" (assoc k env)) in
  JObj [("activation_contract", JStr ACTIVATION_CONTRACT);
        ("command", JArr (JStr <$> m_command m));
        ("controlled_environment",
          JObj (map (λ k, (k, variable k)) (sort_by id str_leb CONTROLLED_ENVIRONMENT)));
        ("controller_instance", variable "ECPA_CONTROLLER_INSTANCE");
        ("plan_id", JStr (artifact_plan_id artifact)); ("schema", JStr "ecpa-managed-launch/v1");
        ("target_executable", JObj [("device", JInt (o_device file)); ("inode", JInt (o_inode file));
                                    ("sha256", JStr (m_sha256 m))])].

Definition launch_managed (m : ManagedArguments) (base : environment) : M World Managed :=
  raise_if (m_grace m <? 0)%Z (ValueError "shutdown grace period must not be negative");;
  raise_if (bool_decide (m_command m = []) || existsb (λ a, a =? "") (m_command m))
    (ValueError "formal-run requires a non-empty target after --");;
  raise_if ((m_device m <? 0)%Z || (m_inode m <=? 0)%Z || negb (String.prefix "sha256:" (m_sha256 m))
            || negb (String.length (m_sha256 m) =? 71)%nat)
    (ValueError "formal-run target executable fingerprint is invalid");;
  artifact ← read_plan_artifact (m_plan_path m);
  let host := plan_host (artifact_plan artifact) in
  raise_if (negb (runtime host =? "vllm-hust") || negb (provider host =? "vllm"))
    (ValueError "formal-run requires a vLLM-HUST execution plan");;
  env ← managed_host_environment base artifact (m_launch_id m) (m_controller_instance m)
          (m_host_event_dir m);
  file ← lift_result (open_file (default "" (head (m_command m))));
  raise_if (negb (is_target m file))
    (ValueError "formal-run target executable differs from its fingerprint");;
  mret (if m_dry_run m then Printed (dry_run_value m artifact env file)
        else Supervised (m_command m) file env (m_grace m)).

(** ** The command line *)

(** The parsed arguments of [formal-run]; an option that was not given is [None]. *)
Record FormalArguments := mkFormal {
  f_probe : bool; f_plan : option string; f_launch_id : option string;
  f_controller_instance : option string; f_host_event_dir : option string;
  f_device : option Z; f_inode : option Z; f_sha256 : option string; f_dry_run : bool;
  f_grace : Z; f_command : list string }.

Definition missing (f : FormalArguments) : list string :=
  let given {A} (o : option A) (name : string) := match o with Some _ => [] | None => [name] end in
  given (f_plan f) "--plan" ++ given (f_launch_id f) "--launch-id"
  ++ given (f_controller_instance f) "--controller-instance"
  ++ given (f_host_event_dir f) "--host-event-dir"
  ++ given (f_device f) "--target-executable-device"
  ++ given (f_inode f) "--target-executable-inode"
  ++ given (f_sha256 f) "--target-executable-sha256".

(** The command behind the separator that argparse leaves in. *)
Definition target_of (command : list string) : list string :=
  match command with
  | a :: rest => if a =? "--" then rest else command
  | [] => []
  end.

(** Without a probe, what [launch_managed] does; the probe prints its receipt. *)
Definition _formal_run_command (f : FormalArguments) (base : environment)
    : M World (string + Managed) :=
  if f_probe f then mret (inl activation_probe_receipt)
  else
    match f_plan f, f_launch_id f, f_controller_instance f, f_host_event_dir f, f_device f,
          f_inode f, f_sha256 f with
    | Some plan, Some launch_id, Some controller, Some dir, Some device, Some inode, Some sha =>
        r ← launch_managed
          (mkManaged plan launch_id controller dir (target_of (f_command f)) device inode sha
             (f_dry_run f) (f_grace f)) base;
        mret (inr r)
    | _, _, _, _, _, _, _ =>
        raise (ValueError ("formal-run requires " +:+ String.concat ", " (missing f)))
    end.
End Controller.
