(* ===== verification/ManagerProofs.v ===== *)
(** * ManagerProofs: what a managed launch promises

    [launch_ready] lists what a launch under a plan asks for; [managed_launch_iff] says that
    nothing else is launched, under any faults, and that whatever is ready is launched when there
    are none. *)

From S2P Require Import Prelude Effects Json Sha256 JsonText JsonFacts EcpaModel PlanArtifact JournalFs HostEventSink JournalProofs ManagerController.

Local Open Scope string_scope.
Local Open Scope list_scope.

(** ** The environment *)

Lemma assoc_update {A} k (added base : list (string * A)) :
  NoDup (keys added) →
  assoc k (update base added) = match assoc k added with Some v => Some v | None => assoc k base end.
Proof.
  unfold update. revert base. induction added as [|[k' v] added IH]; intros base Hn; [done|].
  apply NoDup_cons in Hn as [Hk Hn]. simpl. rewrite IH by done. rewrite assoc_dict_set.
  destruct (String.eqb_spec k' k) as [->|]; [|done].
  by rewrite (proj2 (assoc_none k added)).
Qed.

Section Launch.
Context `{HS : Sha256} (open_nofollow open_file : string → result Opened).
Context (md : mode) (eu : Z).

Abbreviation runs := (runs md eu).
Abbreviation reads := (reads md eu).

Lemma controlled_desired artifact lid cid root id :
  keys (desired artifact lid cid root id) = CONTROLLED_ENVIRONMENT.
Proof. done. Qed.

Lemma controlled_nodup : NoDup CONTROLLED_ENVIRONMENT.
Proof. by apply (bool_decide_unpack (NoDup CONTROLLED_ENVIRONMENT)). Qed.

Lemma assoc_desired base artifact lid cid root id k :
  assoc k (update base (desired artifact lid cid root id))
  = match assoc k (desired artifact lid cid root id) with Some v => Some v | None => assoc k base end.
Proof. apply assoc_update. rewrite controlled_desired. apply controlled_nodup. Qed.

(** An identity: the prefix, something behind it, and no whitespace. *)
Definition canonical_identity (prefix value : string) : Prop :=
  String.prefix prefix value = true ∧ value ≠ prefix
  ∧ string_forall (λ c, negb (is_space c)) value = true.

Lemma identity_iff value name prefix v :
  _identity value name prefix = Ok v ↔ v = value ∧ canonical_identity prefix value.
Proof.
  unfold _identity, canonical_identity.
  destruct (_ && _ && _) eqn:E; simpl.
  - reflect. split; [by intros [= <-]|by intros [-> _]].
  - split; [done|]. intros (_ & H1 & H2 & H3). rewrite H1, H3 in E.
    rewrite andb_true_r in E. simpl in E. by apply negb_false_iff, String.eqb_eq in E.
Qed.

(** The variables of the manager, and their values. *)
Definition manager_variables (artifact : ExecutionPlanArtifact) (lid cid root : string) (id : ident)
    : environment :=
  [("VLLM_ECPA_PLAN_ID", plan_id (artifact_plan artifact)); ("VLLM_ECPA_LAUNCH_ID", lid);
   ("VLLM_ECPA_EVIDENCE_SINK", "vllm_hust_ext.host_event_sink:append_event");
   ("VLLM_ECPA_EVIDENCE_STRICT", "1"); ("ECPA_HOST_EVENT_DIR", root); ("ECPA_HOST_EVENT_FSYNC", "1");
   ("ECPA_HOST_EVENT_DEVICE", z_str id.1); ("ECPA_HOST_EVENT_INODE", z_str id.2);
   ("ECPA_CONTROLLER_INSTANCE", cid); ("ECPA_ACTIVATION_CONTRACT", "manager-controlled-activation")].

Lemma dict_set_new {A} k (v : A) l : k ∉ keys l → dict_set k v l = l ++ [(k, v)].
Proof.
  induction l as [|[k' v'] l IH]; [done|]. cbn. intros [Hne Hl]%not_elem_of_cons.
  rewrite (proj2 (String.eqb_neq k' k)) by done. by rewrite IH.
Qed.

Lemma update_new {A} (base added : list (string * A)) :
  NoDup (keys added) → (∀ k, k ∈ keys added → k ∉ keys base) → update base added = base ++ added.
Proof.
  unfold update. revert base. induction added as [|[k v] added IH]; intros base Hnd Hd.
  - by rewrite app_nil_r.
  - apply NoDup_cons in Hnd as [Hk Hnd]. simpl. rewrite dict_set_new by (apply Hd; left).
    rewrite IH; [by rewrite <-app_assoc|done|]. intros k' Hk'. unfold keys. rewrite map_app.
    intros [Hb|Hb]%elem_of_app; [by apply (Hd k'); [right|]|].
    cbn in Hb. apply list_elem_of_singleton in Hb as ->. done.
Qed.

Lemma update_desired base artifact lid cid root id :
  (∀ k, k ∈ CONTROLLED_ENVIRONMENT → k ∉ keys base) →
  update base (desired artifact lid cid root id) = base ++ manager_variables artifact lid cid root id.
Proof. intros Hd. apply (update_new base); [apply controlled_nodup|exact Hd]. Qed.

(** What the environment of a managed host is made of. *)
Definition custody (fs : fsys) (base : environment) (artifact : ExecutionPlanArtifact)
    (lid cid root : string) (env : environment) : Prop :=
  canonical_identity "launch:" lid ∧ canonical_identity "controller:" cid
  ∧ (∀ k, k ∈ CONTROLLED_ENVIRONMENT → k ∉ keys base)
  ∧ ∃ id, root_ok eu fs root id ∧ env = base ++ manager_variables artifact lid cid root id.

(** The looks at the file system. *)
Lemma reads_look {A} fs (g : fsys → A) : reads fs (syscall (gets (λ w, g (w_fs w)))) (Ok (g fs)).
Proof. apply runs_syscall; [by apply runs_gets_fs|]. eauto with py_db. Qed.

Lemma reads_is_symlink fs path :
  reads fs (sys_is_symlink path) (Ok (bool_decide (path ∈ fs_links fs))).
Proof. exact (reads_look fs (λ fs : fsys, bool_decide (path ∈ fs_links fs))). Qed.

Lemma reads_is_dir fs path :
  reads fs (sys_is_dir path) (Ok (bool_decide (is_Some (fs_paths fs !! path)))).
Proof. exact (reads_look fs (λ fs : fsys, bool_decide (is_Some (fs_paths fs !! path)))). Qed.

Definition or_enoent {A} (path : string) (o : option A) : result A :=
  match o with Some a => Ok a | None => Err (enoent path) end.

Lemma reads_resolve fs path : reads fs (sys_resolve path) (or_enoent path (fs_real fs !! path)).
Proof.
  apply (reads_syscall md eu fs (λ fs : fsys, fs_real fs !! path)).
  destruct (fs_real fs !! path); [apply reads_ret|apply reads_raise].
Qed.

Lemma reads_opendir fs path :
  reads fs (sys_opendir path)
    (match fs_paths fs !! path with Some d => Ok d | None => Err (OSError path) end).
Proof.
  apply (reads_syscall md eu fs (λ fs : fsys, fs_paths fs !! path)).
  destruct (fs_paths fs !! path); [apply reads_ret|apply reads_raise].
Qed.

Lemma reads_dir fs d :
  reads fs (sys_fstat_dir d)
    (match fs_dirs fs !! d with Some dir => Ok dir | None => Err (OSError "stale descriptor") end).
Proof.
  apply (reads_syscall md eu fs (λ fs : fsys, fs_dirs fs !! d)).
  destruct (fs_dirs fs !! d); [apply reads_ret|apply reads_raise].
Qed.

Definition dir_at (fs : fsys) (path : string) : option (ident * directory) :=
  d ← fs_paths fs !! path; dir ← fs_dirs fs !! d; Some (d, dir).

Lemma reads_stat_dir fs path : reads fs (sys_stat_dir path) (or_enoent path (dir_at fs path)).
Proof.
  apply (reads_syscall md eu fs (λ fs : fsys, dir_at fs path)).
  destruct (dir_at fs path); [apply reads_ret|apply reads_raise].
Qed.

(** The part after a look: only what the look saw matters. *)
Lemma runs_then {A B} fs (m : M World A) (f : A → M World B) r Q :
  reads fs m r → (∀ a, r = Ok a → runs fs (f a) Q (λ _ fs', fs' = fs)) →
  runs fs (m ≫= f) Q (λ _ fs', fs' = fs).
Proof. intros Hm Hf. by eapply runs_reads_any. Qed.

Lemma no_conflict (base : environment) :
  conflicts base = []
  ↔ ∀ k, k ∈ CONTROLLED_ENVIRONMENT → k ∉ keys base.
Proof.
  unfold conflicts. split.
  - intros E k Hk Hb. assert (k ∈ ([] : list string)) as K; [|by apply elem_of_nil in K].
    rewrite <- E. apply list_elem_of_In, filter_In. split; [by apply list_elem_of_In|].
    by apply bool_decide_eq_true.
  - intros Hb. destruct (List.filter _ _) as [|k l] eqn:E; [done|].
    assert (In k (k :: l)) as K by by left. rewrite <- E in K. apply filter_In in K as [K1 K2].
    apply bool_decide_eq_true in K2. destruct (Hb k K2). by apply list_elem_of_In.
Qed.

(** Under any faults, an environment that is returned is a custody. *)
Lemma runs_environment fs base artifact lid cid root :
  runs fs (managed_host_environment base artifact lid cid root)
    (λ env fs', fs' = fs ∧ custody fs base artifact lid cid root env) (λ _ fs', fs' = fs).
Proof.
  unfold managed_host_environment.
  eapply runs_then; [apply reads_lift|]. intros ? [-> Hl]%identity_iff.
  eapply runs_then; [apply reads_lift|]. intros ? [-> Hc]%identity_iff.
  apply runs_bind, runs_raise_if; [done|]. intros Ha%negb_false_iff.
  eapply runs_then; [apply reads_is_symlink|]. intros ? [= <-].
  apply runs_bind, runs_raise_if; [done|]. intros Hs%bool_decide_eq_false.
  eapply runs_then; [apply reads_is_dir|]. intros ? [= <-].
  apply runs_bind, runs_raise_if; [done|]. intros _.
  eapply runs_then; [apply reads_stat_dir|]. intros [id dir] Hd.
  eapply runs_then; [apply reads_resolve|]. intros r Hr.
  apply runs_bind, runs_raise_if; [done|]. intros Er%negb_false_iff%String.eqb_eq. subst r.
  apply runs_bind, runs_euid.
  apply runs_bind, runs_raise_if; [done|]. intros [Hu%negb_false_iff%Z.eqb_eq Hm]%orb_false_iff.
  apply runs_bind, runs_raise_if; [done|]. intros Hk%negb_false_iff%bool_decide_eq_true.
  pose proof (proj1 (no_conflict base) Hk) as Hfree.
  apply runs_ret. do 4 (split; [done|]). exists id. split; [|by apply update_desired].
  unfold dir_at in Hd. destruct (fs_paths fs !! root) as [id'|] eqn:E1; [|done]. simpl in Hd.
  destruct (fs_dirs fs !! id') as [dir'|] eqn:E2; [|done]. simpl in Hd. injection Hd as <- <-.
  destruct (fs_real fs !! root) as [r|] eqn:E3; [|done]. injection Hr as ->.
  split; [done..|]. by exists dir'.
Qed.

(** Without faults every custody is returned. *)
Lemma reads_environment fs base artifact lid cid root env :
  custody fs base artifact lid cid root env →
  reads fs (managed_host_environment base artifact lid cid root) (Ok env).
Proof.
  intros (Hl & Hc & Hk & id & [H1 H2 H3 H4 (dir & Hd & Hu & Hm)] & ->).
  rewrite <-update_desired by done. unfold managed_host_environment.
  eapply reads_bind_ok; [rewrite (proj2 (identity_iff _ _ _ _) (conj eq_refl Hl)); apply reads_lift|].
  eapply reads_bind_ok; [rewrite (proj2 (identity_iff _ _ _ _) (conj eq_refl Hc)); apply reads_lift|].
  rewrite H1. eapply reads_bind_ok; [apply reads_ret|].
  eapply reads_bind_ok; [apply reads_is_symlink|].
  rewrite (bool_decide_false (root ∈ _)) by done.
  eapply reads_bind_ok; [apply reads_ret|].
  eapply reads_bind_ok; [apply reads_is_dir|].
  rewrite H4, (bool_decide_true (is_Some _)) by done.
  eapply reads_bind_ok; [apply reads_ret|].
  eapply reads_bind_ok.
  { pose proof (reads_stat_dir fs root) as K. unfold dir_at in K. rewrite H4 in K. simpl in K.
    rewrite Hd in K. exact K. }
  eapply reads_bind_ok.
  { pose proof (reads_resolve fs root) as K. rewrite H2 in K. exact K. }
  rewrite String.eqb_refl. eapply reads_bind_ok; [apply reads_ret|].
  eapply reads_bind_ok; [apply runs_euid; by split|]. rewrite Hu, Z.eqb_refl, Hm.
  eapply reads_bind_ok; [apply reads_ret|].
  rewrite (bool_decide_true (conflicts base = [])) by by apply no_conflict.
  eapply reads_bind_ok; [apply reads_ret|]. apply reads_ret.
Qed.

(** ** The plan and the target *)

(** The file at [path] is a private plan, found without a symbolic link. *)
Record plan_at (fs : fsys) (path : string) (file : Opened) (plan : Plan) : Prop := {
  pa_absolute : is_absolute path = true;
  pa_link : path ∉ fs_links fs;
  pa_real : fs_real fs !! path = Some path;
  pa_open : open_nofollow path = Ok file;
  pa_regular : o_regular file = true;
  pa_owned : o_uid file = eu;
  pa_private : others_write (o_mode file) = false;
  pa_plan : parse_plan_artifact (o_content file) = Ok plan }.

Definition plan_found (fs : fsys) (path : string) (artifact : ExecutionPlanArtifact) : Prop :=
  ∃ file, plan_at fs path file (artifact_plan artifact)
          ∧ artifact = mkArtifact path (o_content file) (artifact_plan artifact).

Lemma runs_read_plan fs path :
  runs fs (read_plan_artifact open_nofollow path) (λ a fs', fs' = fs ∧ plan_found fs path a)
    (λ _ fs', fs' = fs).
Proof.
  unfold read_plan_artifact.
  apply runs_bind, runs_raise_if; [done|]. intros Ha%negb_false_iff.
  eapply runs_then; [apply reads_is_symlink|]. intros ? [= <-].
  apply runs_bind, runs_raise_if; [done|]. intros Hs%bool_decide_eq_false.
  eapply runs_then; [apply reads_os_error_as, reads_resolve|]. intros r Hr.
  apply runs_bind, runs_raise_if; [done|]. intros Er%negb_false_iff%String.eqb_eq. subst r.
  eapply runs_then; [apply reads_lift|]. intros file Ho.
  apply runs_bind, runs_euid.
  apply runs_bind, runs_raise_if; [done|]. intros [[Hg%negb_false_iff Hu]%orb_false_iff Hm]%orb_false_iff.
  apply negb_false_iff, Z.eqb_eq in Hu.
  eapply runs_then; [apply reads_lift|]. intros plan Hp.
  apply runs_ret. split; [done|]. exists file. split; [|done].
  destruct (fs_real fs !! path) as [r|] eqn:E; [|done]. injection Hr as ->.
  split; try done. unfold or_artifact_error in Ho. destruct (open_nofollow path) as [f|e]; [done|].
  by destruct (is_oserror e).
Qed.

Lemma reads_plan fs path artifact :
  plan_found fs path artifact → reads fs (read_plan_artifact open_nofollow path) (Ok artifact).
Proof.
  intros (file & [H1 H2 H3 H4 H5 H6 H7 H8] & E). unfold read_plan_artifact.
  rewrite H1. eapply reads_bind_ok; [apply reads_ret|].
  eapply reads_bind_ok; [apply reads_is_symlink|]. rewrite bool_decide_false by done.
  eapply reads_bind_ok; [apply reads_ret|].
  eapply reads_bind_ok.
  { pose proof (reads_os_error_as md eu fs (PlanArtifactError "execution plan path is unavailable")
      _ _ (reads_resolve fs path)) as K. rewrite H3 in K. exact K. }
  rewrite String.eqb_refl. eapply reads_bind_ok; [apply reads_ret|].
  rewrite H4. eapply reads_bind_ok; [apply reads_lift|].
  eapply reads_bind_ok; [apply runs_euid; by split|]. rewrite H5, H6, H7, Z.eqb_refl.
  eapply reads_bind_ok; [apply reads_ret|]. rewrite H8.
  eapply reads_bind_ok; [apply reads_lift|]. rewrite E. apply reads_ret.
Qed.

(** The arguments by themselves. *)
Definition arguments_ok (m : ManagedArguments) : Prop :=
  (0 ≤ m_grace m)%Z ∧ m_command m ≠ [] ∧ "" ∉ m_command m ∧ (0 ≤ m_device m)%Z
  ∧ (0 < m_inode m)%Z ∧ String.prefix "sha256:" (m_sha256 m) = true
  ∧ String.length (m_sha256 m) = 71%nat.

Lemma is_target_iff m file :
  is_target m file = true ↔
  o_regular file = true ∧ Z.land (o_mode file) 73 ≠ 0%Z ∧ o_device file = m_device m
  ∧ o_inode file = m_inode m ∧ m_sha256 m = "sha256:" +:+ sha256_hexdigest (o_content file).
Proof.
  unfold is_target, executable_mode.
  rewrite !andb_true_iff, negb_true_iff, Z.eqb_neq, !Z.eqb_eq, String.eqb_eq.
  split; intros; destruct_and!; by split_and!.
Qed.

(** Everything that a launch asks for: the arguments, the plan, its host, the custody of the
    evidence, and the executable. *)
Record launch_ready (fs : fsys) (m : ManagedArguments) (base : environment)
    (artifact : ExecutionPlanArtifact) (env : environment) (file : Opened) : Prop := {
  lr_arguments : arguments_ok m;
  lr_plan : plan_found fs (m_plan_path m) artifact;
  lr_runtime : runtime (plan_host (artifact_plan artifact)) = "vllm-hust";
  lr_provider : provider (plan_host (artifact_plan artifact)) = "vllm";
  lr_custody : custody fs base artifact (m_launch_id m) (m_controller_instance m)
                 (m_host_event_dir m) env;
  lr_open : ∃ program rest, m_command m = program :: rest ∧ open_file program = Ok file;
  lr_regular : o_regular file = true;
  lr_executable : Z.land (o_mode file) 73 ≠ 0%Z;
  lr_device : o_device file = m_device m;
  lr_inode : o_inode file = m_inode m;
  lr_digest : m_sha256 m = "sha256:" +:+ sha256_hexdigest (o_content file) }.

Definition launched (m : ManagedArguments) (artifact : ExecutionPlanArtifact) (env : environment)
    (file : Opened) : Managed :=
  if m_dry_run m then Printed (dry_run_value m artifact env file)
  else Supervised (m_command m) file env (m_grace m).

Definition launches (fs : fsys) (m : ManagedArguments) (base : environment) (r : Managed) : Prop :=
  ∃ artifact env file, launch_ready fs m base artifact env file ∧ r = launched m artifact env file.

Lemma runs_launch fs m base :
  runs fs (launch_managed open_nofollow open_file m base)
    (λ r fs', fs' = fs ∧ launches fs m base r) (λ _ fs', fs' = fs).
Proof.
  unfold launch_managed.
  apply runs_bind, runs_raise_if; [done|]. intros Hg%Z.ltb_ge.
  apply runs_bind, runs_raise_if; [done|]. intros [Hc%bool_decide_eq_false He]%orb_false_iff.
  apply runs_bind, runs_raise_if; [done|].
  intros [[[Hd%Z.ltb_ge Hi%Z.leb_gt]%orb_false_iff Hp%negb_false_iff]%orb_false_iff
          Hl%negb_false_iff%Nat.eqb_eq]%orb_false_iff.
  apply runs_bind. eapply runs_mono; [apply runs_read_plan| |done]. intros artifact ? [-> Hplan].
  apply runs_bind, runs_raise_if; [done|].
  intros [Hr%negb_false_iff%String.eqb_eq Hv%negb_false_iff%String.eqb_eq]%orb_false_iff.
  apply runs_bind. eapply runs_mono; [apply runs_environment| |done]. intros env ? [-> Henv].
  eapply runs_then; [apply reads_lift|]. intros file Ho.
  apply runs_bind, runs_raise_if; [done|]. intros Ht%negb_false_iff%is_target_iff.
  apply runs_ret. split; [done|]. exists artifact, env, file. split; [|done].
  destruct Ht as (Ht1 & Ht2 & Ht3 & Ht4 & Ht5).
  split; try done.
  - split; [done|]. split; [done|]. split; [|done]. intros Hin.
    assert (existsb (λ a, a =? "") (m_command m) = true) as K; [|by rewrite He in K].
    apply existsb_exists. exists "". split; [by apply list_elem_of_In|done].
  - destruct (m_command m) as [|program rest]; [done|]. by exists program, rest.
Qed.

Lemma arguments_pass m :
  arguments_ok m →
  (m_grace m <? 0)%Z = false
  ∧ bool_decide (m_command m = []) || existsb (λ a, a =? "") (m_command m) = false
  ∧ (m_device m <? 0)%Z || (m_inode m <=? 0)%Z || negb (String.prefix "sha256:" (m_sha256 m))
    || negb (String.length (m_sha256 m) =? 71)%nat = false.
Proof.
  intros (H1 & H2 & H3 & H4 & H5 & H6 & H7). split; [by apply Z.ltb_ge|]. split.
  - rewrite bool_decide_false by done. simpl. apply not_true_is_false. intros K.
    apply existsb_exists in K as (a & Ha & E%String.eqb_eq). subst. by apply H3, list_elem_of_In.
  - rewrite (proj2 (Z.ltb_ge _ _) H4), (proj2 (Z.leb_gt _ _) H5), H6, H7. done.
Qed.

Lemma reads_launch fs m base r :
  launches fs m base r → reads fs (launch_managed open_nofollow open_file m base) (Ok r).
Proof.
  intros (artifact & env & file & [Ha Hp Hr Hv Hc (program & rest & Em & Ho) Ht1 Ht2 Ht3 Ht4 Ht5] & ->).
  assert (is_target m file = true) as Ht by by apply is_target_iff.
  destruct (arguments_pass m Ha) as (E1 & E2 & E3). unfold launch_managed. rewrite E1, E2, E3.
  do 3 (eapply reads_bind_ok; [apply reads_ret|]).
  eapply reads_bind_ok; [by apply reads_plan|]. rewrite Hr, Hv.
  eapply reads_bind_ok; [apply reads_ret|].
  eapply reads_bind_ok; [by apply reads_environment|].
  eapply reads_bind_ok; [rewrite Em; simpl; rewrite Ho; apply reads_lift|]. rewrite Ht.
  eapply reads_bind_ok; [apply reads_ret|]. apply reads_ret.
Qed.
End Launch.

Section Theorems.
Context `{HS : Sha256} (open_nofollow open_file : string → result Opened).

Abbreviation launches eu := (launches open_nofollow open_file eu).
Abbreviation launch_managed := (launch_managed open_nofollow open_file).

Lemma launch_any m base w :
  (0 < w_pid w)%Z →
  match launch_managed m base w with
  | (Ok r, w') => w_fs w' = w_fs w ∧ launches (w_euid w) (w_fs w) m base r
  | (Err _, w') => w_fs w' = w_fs w
  end.
Proof.
  intros Hp. assert (at_fs Wild (w_euid w) (w_fs w) w) as Hw by done.
  pose proof (runs_elim _ _ _ _ _ _ _ (runs_launch open_nofollow open_file Wild _ _ m base) Hw) as K.
  by destruct (launch_managed m base w) as [[r|e] w'], K as [_ K].
Qed.

(** C40. A managed launch happens exactly when everything it rests on is in place.  Whatever the
    file system calls do, [launch_managed] changes no file, and the launch it hands over is one
    whose arguments are valid, whose plan is a private canonical file that parses to a plan for
    vLLM-HUST, whose environment is the caller's with the manager's variables, none of them the
    caller's, whose evidence directory is private and canonical, and whose executable is the one
    of the fingerprint.  When no call fails, every such launch happens. *)
Theorem managed_launch_iff m base w :
  (0 < w_pid w)%Z →
  (∀ r w', launch_managed m base w = (Ok r, w') →
     w_fs w' = w_fs w ∧ launches (w_euid w) (w_fs w) m base r)
  ∧ (mode_ok Healthy w →
     ∀ r, launches (w_euid w) (w_fs w) m base r ↔ ∃ w', launch_managed m base w = (Ok r, w')).
Proof.
  intros Hp. pose proof (launch_any m base w Hp) as K.
  split; [intros r w' E; by rewrite E in K|]. intros Hm r.
  split; [|intros (w' & E); rewrite E in K; by apply K].
  intros Hr. assert (at_fs Healthy (w_euid w) (w_fs w) w) as Hw by done.
  pose proof (runs_elim _ _ _ _ _ _ _ (reads_launch open_nofollow open_file Healthy _ _ m base r Hr)
    Hw) as K'.
  destruct (launch_managed m base w) as [[r'|e] w'].
  - destruct K' as (_ & _ & [= ->]). by exists w'.
  - by destruct K' as (_ & _ & [?|?]).
Qed.
End Theorems.
