(* ===== verification/SinkCustody.v ===== *)
(** * SinkCustody: where a managed host leaves its evidence

    [sink_custody] follows the environment of a managed launch to the host's sink: the directory
    that the manager checked is the only one in which a launched host writes its evidence.
    [stays] is code that writes in one directory only. *)

From S2P Require Import Prelude Effects Json Sha256 JsonText JsonFacts EcpaModel PlanArtifact JournalFs HostEventSink Quarantine RecordProofs JournalProofs ManagerController ManagerProofs.

Local Open Scope string_scope.
Local Open Scope list_scope.

(** ** A printed number is read back *)

Lemma digit_not_space c : is_digit c = true → is_space c = false.
Proof.
  unfold is_digit, digit_of, is_space. intros Hd.
  destruct ((48 <=? N_of_ascii c)%N && (N_of_ascii c <=? 57)%N) eqn:E; [|done].
  apply andb_true_iff in E as [E1 E2]. apply N.leb_le in E1, E2.
  repeat (rewrite ?orb_false_iff, ?andb_false_iff, ?N.leb_gt, ?N.eqb_neq). lia.
Qed.

Lemma lstrip_digits l : Forall (λ c, is_space c = false) l → lstrip l = l.
Proof. destruct 1 as [|c l Hc]; [done|]. simpl. by rewrite Hc. Qed.

Lemma strip_digits l : Forall (λ c, is_space c = false) l → strip l = l.
Proof.
  intros Hl. unfold strip. rewrite (lstrip_digits l) by done.
  rewrite lstrip_digits by by apply Forall_rev. apply rev_involutive.
Qed.

Lemma digits_read acc s :
  string_forall is_digit s = true →
  digits acc true (String.list_ascii_of_string s) = Some (read_digits acc s).1.
Proof.
  revert acc. induction s as [|c s IH]; intros acc Hs; [done|].
  simpl in Hs. apply andb_true_iff in Hs as [Hc Hs]. simpl. unfold is_digit in Hc.
  unfold digit_of in *. by destruct (_ && _); [apply IH|].
Qed.

Lemma digits_only s :
  string_forall is_digit s = true → Forall (λ c, is_digit c = true) (String.list_ascii_of_string s).
Proof.
  induction s as [|c s IH]; intros Hs; [constructor|].
  simpl in Hs. apply andb_true_iff in Hs as [Hc Hs]. constructor; auto.
Qed.

Lemma digits_whole s :
  string_forall is_digit s = true → s ≠ "" →
  digits 0 false (String.list_ascii_of_string s) = Some (read_digits 0 s).1.
Proof.
  destruct s as [|c s]; intros Hs Hne; [done|]. simpl in Hs. apply andb_true_iff in Hs as [Hc Hs].
  simpl. unfold is_digit, digit_of in *. by destruct (_ && _); [apply digits_read|].
Qed.

(** The digits of a positive number. *)
Lemma digits_of_pos p :
  let s := z_str (Zpos p) in
  Forall (λ c, is_digit c = true) (String.list_ascii_of_string s)
  ∧ digits 0 false (String.list_ascii_of_string s) = Some (Zpos p).
Proof.
  intros s. destruct (z_str_pid (Zpos p) ltac:(lia)) as (Hd & c & t & E & _). fold s in Hd, E.
  split; [by apply digits_only|]. rewrite digits_whole by (first [done|by rewrite E]). f_equal.
  pose proof (read_nat_pretty p "" I) as H. rewrite str_app_nil_r in H.
  change (pretty (Npos p)) with s in H. revert H. rewrite E. unfold read_nat. cbn [read_digits].
  destruct (digit_of c) as [d|]; [|done]. change (10 * 0 + d)%Z with d.
  destruct (Z.eqb_spec d 0); [done|]. by intros [= ->].
Qed.

Lemma int_of_z_str z : int_of_string (z_str z) = Some z.
Proof.
  destruct z as [|p|p]; [done|..]; destruct (digits_of_pos p) as [Hd Hr].
  - unfold int_of_string. rewrite strip_digits.
    2: { eapply Forall_impl; [exact Hd|]. apply digit_not_space. }
    destruct (String.list_ascii_of_string _) as [|c l]; [done|].
    apply Forall_cons in Hd as [Hc _]. rewrite <- Hr. destruct c as [[] [] [] [] [] [] [] []]; done.
  - change (z_str (Zneg p)) with ("-" +:+ z_str (Zpos p)). unfold int_of_string.
    change (String.list_ascii_of_string ("-" +:+ ?s)) with ("-"%char :: String.list_ascii_of_string s).
    rewrite strip_digits; [by rewrite Hr|]. constructor; [done|].
    eapply Forall_impl; [exact Hd|]. apply digit_not_space.
Qed.

(** ** Code that writes in one directory only *)

Section Within.
Context (d : ident).

(** From [w] to [w'] nothing has changed outside the directory [d]. *)
Definition within (w w' : World) : Prop :=
  same_layout (w_fs w) (w_fs w') ∧ w_euid w' = w_euid w
  ∧ ∀ d', d' ≠ d → fs_dirs (w_fs w') !! d' = fs_dirs (w_fs w) !! d'.

#[export] Instance within_preorder : PreOrder within.
Proof.
  split.
  - intros w. by repeat split.
  - intros w1 w2 w3 (H1 & H2 & H3) (H4 & H5 & H6). split; [by etrans|]. split; [congruence|].
    intros d' Hd. by rewrite H6, H3.
Qed.

Definition stays {A} (m : M World A) : Prop := ∀ w, within w (m w).2.

Lemma stays_ret {A} (a : A) : stays (mret a).
Proof. intros w. by simpl. Qed.

Lemma stays_raise {A} e : stays (raise e : M World A).
Proof. intros w. by simpl. Qed.

Lemma stays_gets {A} (f : World → A) : stays (gets f).
Proof. intros w. by simpl. Qed.

Lemma stays_lift {A} (r : result A) : stays (lift_result r : M World A).
Proof. intros w. by simpl. Qed.

Lemma stays_bind {A B} (m : M World A) (f : A → M World B) :
  stays m → (∀ a, stays (f a)) → stays (m ≫= f).
Proof.
  intros Hm Hf w. specialize (Hm w). unfold mbind, M_bind. destruct (m w) as [[a|e] w']; [|done].
  etrans; [exact Hm|]. apply Hf.
Qed.

Lemma stays_catch {A} (m : M World A) h : stays m → (∀ e, stays (h e)) → stays (catch m h).
Proof.
  intros Hm Hh w. specialize (Hm w). unfold catch. destruct (m w) as [[a|e] w']; [done|].
  etrans; [exact Hm|]. apply Hh.
Qed.

Lemma stays_except {A} p (m : M World A) h :
  stays m → (∀ e, stays (h e)) → stays (except p m h).
Proof.
  intros Hm Hh. apply stays_catch; [done|]. intros e. destruct (p e); [apply Hh|apply stays_raise].
Qed.

Lemma stays_os_error_as {A} e (m : M World A) : stays m → stays (os_error_as e m).
Proof. intros Hm. apply stays_except; [done|]. intros ?. apply stays_raise. Qed.

Lemma stays_raise_if b e : stays (raise_if b e).
Proof. destruct b; [apply stays_raise|apply stays_ret]. Qed.

Lemma stays_when b (m : M World unit) : stays m → stays (when b m).
Proof. intros Hm. destruct b; [done|apply stays_ret]. Qed.

Lemma stays_syscall {A} (m : M World A) : stays m → stays (syscall m).
Proof.
  intros Hm w. unfold syscall. destruct (w_script w) as [|[]]; [apply Hm| |done| |done];
    (etrans; [|apply Hm]); by repeat split.
Qed.

Lemma stays_locks f : stays (modify (λ w, set_locks (f w) w)).
Proof. intros w. by repeat split. Qed.

Lemma within_set n name o w :
  within w (set_fs (set_next n (set_entry d name o (w_fs w))) w).
Proof.
  split; [|split; [done|]]; simpl.
  - etrans; [apply same_layout_set|apply same_layout_next].
  - intros d' Hd. by apply lookup_alter_ne.
Qed.

Lemma stays_set name (g : World → option file) (n : World → Z) :
  stays (modify (λ w, set_fs (set_next (n w) (set_entry d name (g w) (w_fs w))) w)).
Proof. intros w. apply within_set. Qed.

Lemma stays_set_entry name (g : World → option file) :
  stays (modify (λ w, set_fs (set_entry d name (g w) (w_fs w)) w)).
Proof.
  intros w. simpl. destruct (w_fs w) as [l r p ds n] eqn:E.
  pose proof (within_set n name (g w) w) as K. by rewrite E in K.
Qed.

End Within.

(** One step towards [stays]. *)
Ltac stays_step :=
  match goal with
  | |- stays _ (mret _) => apply stays_ret
  | |- stays _ (raise _) => apply stays_raise
  | |- stays _ (gets _) => apply stays_gets
  | |- stays _ (lift_result _) => apply stays_lift
  | |- stays _ (_ ≫= _) => apply stays_bind; [|intros ?]
  | |- stays _ (except _ _ _) => apply stays_except; [|intros ?]
  | |- stays _ (catch _ _) => apply stays_catch; [|intros ?]
  | |- stays _ (os_error_as _ _) => apply stays_os_error_as
  | |- stays _ (raise_if _ _) => apply stays_raise_if
  | |- stays _ (when _ _) => apply stays_when
  | |- stays _ (syscall _) => apply stays_syscall
  | |- stays _ (modify (λ w, set_locks _ w)) => apply stays_locks
  | |- stays _ (modify (λ w, set_fs (set_next _ _) w)) => apply stays_set
  | |- stays _ (modify (λ w, set_fs (set_entry _ _ _ _) w)) => apply stays_set_entry
  | |- stays _ (match ?x with _ => _ end) => destruct x
  end.

Section Writers.
Context (d : ident).

Lemma stays_write name view : stays d (sys_write d name view).
Proof. intros w. unfold sys_write. cbv zeta. eapply stays_syscall. repeat stays_step. Qed.

Lemma stays_write_loop fuel name view stalled : stays d (write_loop fuel d name view stalled).
Proof.
  revert view. induction fuel as [|fuel IH]; intros view.
  - destruct view; simpl; stays_step.
  - destruct view as [|c view]; simpl; [stays_step|].
    apply stays_bind; [apply stays_write|intros n].
    apply stays_bind; [stays_step|intros _]. apply IH.
Qed.

Lemma stays_open_create name mode : stays d (sys_open_create d name mode).
Proof. unfold sys_open_create. repeat stays_step. Qed.

Lemma stays_create name mode : stays d (sys_create d name mode).
Proof. unfold sys_create. repeat stays_step. Qed.

Lemma stays_fchmod name mode : stays d (sys_fchmod d name mode).
Proof. unfold sys_fchmod. repeat stays_step. Qed.

Lemma stays_look name :
  stays d (sys_stat d name) ∧ stays d (sys_open d name) ∧ stays d (sys_fstat d name).
Proof.
  unfold sys_stat, sys_open, sys_fstat. do 2 (split; [repeat stays_step|]). repeat stays_step.
Qed.

Lemma stays_fsync : stays d sys_fsync.
Proof. unfold sys_fsync. repeat stays_step. Qed.

Lemma stays_lock exclusive nonblocking :
  stays d (_acquire_quarantine_lock d exclusive nonblocking).
Proof.
  unfold _acquire_quarantine_lock. pose proof stays_open_create. pose proof stays_look as Hl.
  repeat (stays_step || apply Hl || auto).
Qed.

Context `{HS : Sha256}.

Lemma stays_append_line fsync name raw : stays d (append_line d fsync name raw).
Proof.
  unfold append_line, write_all, sink_error. pose proof stays_look as Hl.
  repeat (stays_step || apply Hl || apply stays_fsync || apply stays_create || apply stays_fchmod
          || apply stays_write_loop).
Qed.
End Writers.

Lemma stays_configured d getenv : stays d (_configured_journal_root getenv).
Proof.
  unfold _configured_journal_root, _open_journal_root, sys_is_symlink, sys_resolve, sys_opendir,
    sys_fstat_dir, sink_error.
  repeat stays_step.
Qed.

(** ** The host's sink *)

Section Custody.
Context `{HS : Sha256} (open_nofollow open_file : string → result Opened).

Abbreviation launch_managed := (launch_managed open_nofollow open_file).

Section Sink.
Context (artifact : ExecutionPlanArtifact) (base : environment) (lid cid root : string) (id : ident).

Abbreviation env := (update base (desired artifact lid cid root id)).
Abbreviation getenv := (λ k, assoc k env).

Lemma sink_identity :
  _expected_directory_identity getenv
  = if (id.1 <? 0)%Z || (id.2 <? 0)%Z
    then Err (HostEventSinkError "host event directory identity is invalid") else Ok (Some id).
Proof.
  unfold _expected_directory_identity. rewrite !assoc_desired. unfold desired. cbn [assoc].
  simpl. rewrite !int_of_z_str. by destruct id.
Qed.

Lemma sink_root w :
  is_absolute root = true →
  _configured_journal_root getenv w
  = if (id.1 <? 0)%Z || (id.2 <? 0)%Z
    then (Err (HostEventSinkError "host event directory identity is invalid"), w)
    else _open_journal_root root (Some id) w.
Proof.
  intros Ha. unfold _configured_journal_root. rewrite sink_identity, !assoc_desired.
  unfold desired. simpl. destruct root as [|c r]; [done|]. by destruct (_ || _).
Qed.
End Sink.

(** A root that is opened under an expected identity is that directory. *)
Lemma runs_open_root md eu fs root id :
  runs md eu fs (_open_journal_root root (Some id))
    (λ r fs', fs' = fs ∧ r = (root, id) ∧ root_ok eu fs root id) (λ _ fs', fs' = fs).
Proof.
  unfold _open_journal_root.
  apply runs_bind, runs_raise_if; [done|]. intros Ha%negb_false_iff.
  eapply runs_then; [apply reads_is_symlink|]. intros ? [= <-].
  apply runs_bind, runs_raise_if; [done|]. intros Hs%bool_decide_eq_false.
  eapply runs_then; [apply reads_os_error_as, reads_resolve|]. intros r Hr.
  apply runs_bind, runs_raise_if; [done|]. intros Er%negb_false_iff%String.eqb_eq. subst r.
  eapply runs_then; [apply reads_os_error_as, reads_opendir|]. intros d Hd.
  eapply runs_then; [apply reads_os_error_as, reads_dir|]. intros dir Hdir.
  apply runs_bind, runs_euid.
  apply runs_bind, runs_raise_if; [done|]. intros [Hu%negb_false_iff%Z.eqb_eq Hm]%orb_false_iff.
  apply runs_bind, runs_raise_if; [done|]. intros Ed%negb_false_iff%bool_decide_eq_true. subst d.
  apply runs_ret. split; [done|].
  destruct (fs_real fs !! root) as [r|] eqn:E1; [|done]. injection Hr as ->.
  destruct (fs_paths fs !! root) as [d|] eqn:E2; [|done]. injection Hd as ->.
  destruct (fs_dirs fs !! id) as [dir'|] eqn:E3; [|done]. injection Hdir as ->.
  split; [done|]. split; [done..|]. by exists dir.
Qed.
Lemma sink_root_any artifact base lid cid root id w :
  is_absolute root = true → (0 < w_pid w)%Z →
  let getenv k := assoc k (update base (desired artifact lid cid root id)) in
  match _configured_journal_root getenv w with
  | (Ok r, w') => w_fs w' = w_fs w ∧ r = (root, id) ∧ root_ok (w_euid w) (w_fs w) root id
  | (Err _, w') => w_fs w' = w_fs w
  end.
Proof.
  intros Ha Hp getenv. unfold getenv. rewrite sink_root by done. destruct (_ || _); [done|].
  assert (at_fs Wild (w_euid w) (w_fs w) w) as Hw by done.
  pose proof (runs_elim _ _ _ _ _ _ _ (runs_open_root Wild _ _ root id) Hw) as K.
  by destruct (_open_journal_root root (Some id) w) as [[r|e] w'], K as [_ K].
Qed.

Lemma bind_state {A B} (m : M World A) (f : A → M World B) w :
  (m ≫= f) w = match m w with (Ok a, w') => f a w' | (Err e, w') => (Err e, w') end.
Proof. done. Qed.

(** An event is written into the directory, or nothing is. *)
Lemma append_custody artifact base lid cid root id event w :
  is_absolute root = true → (0 < w_pid w)%Z →
  let getenv k := assoc k (update base (desired artifact lid cid root id)) in
  let w' := (append_event getenv event w).2 in
  w_fs w' = w_fs w ∨ root_ok (w_euid w) (w_fs w) root id ∧ within id w w'.
Proof.
  intros Ha Hp getenv w'. pose proof (sink_root_any artifact base lid cid root id w Ha Hp) as K.
  cbv zeta in K. fold getenv in K. pose proof (stays_configured id getenv w) as Hs.
  unfold w', append_event. destruct (canonical_event event) as [raw|e]; [|by left].
  change (lift_result (Ok raw) ≫= ?f) with (f raw).
  cbv beta. rewrite bind_state.
  destruct (_configured_journal_root getenv w) as [[r|e] w1]; [|by left].
  destruct K as (Ef & -> & Hr). right. split; [done|]. etrans; [exact Hs|]. simpl.
  revert w1 Ef Hs. intros w1 _ _. revert w1.
  change (stays id (_acquire_quarantine_lock id false false;;
    let fsync := default "0" (getenv "ECPA_HOST_EVENT_FSYNC") in
    raise_if (negb (bool_decide (fsync ∈ ["0"; "1"])))
      (HostEventSinkError "ECPA_HOST_EVENT_FSYNC must be 0 or 1");;
    append_line id fsync (_journal_name event) (raw +:+ newline))).
  apply stays_bind; [apply stays_lock|intros _]. cbv zeta.
  apply stays_bind; [stays_step|intros _]. apply stays_append_line.
Qed.

(** Evidence stays in custody.  The environment of a launch names one directory, private,
    canonical and owned when the launch was admitted; wherever and whenever a process with that
    environment reports an event, under any faults, the sink writes into this very directory,
    which must still be private and under its name, or it writes nothing; no other directory is
    touched.  As long as the directory is in place, the sink opens it. *)
Theorem sink_custody m base w command file env grace w' :
  (0 < w_pid w)%Z →
  launch_managed m base w = (Ok (Supervised command file env grace), w') →
  let getenv k := assoc k env in
  let root := m_host_event_dir m in
  ∃ id, root_ok (w_euid w) (w_fs w) root id
    ∧ (∀ event w1, (0 < w_pid w1)%Z →
         let w2 := (append_event getenv event w1).2 in
         w_fs w2 = w_fs w1 ∨ root_ok (w_euid w1) (w_fs w1) root id ∧ within id w1 w2)
    ∧ (∀ w1, (0 < w_pid w1)%Z → mode_ok Healthy w1 → root_ok (w_euid w1) (w_fs w1) root id →
         (0 ≤ id.1)%Z → (0 ≤ id.2)%Z →
         ∃ w2, _configured_journal_root getenv w1 = (Ok (root, id), w2)).
Proof.
  intros Hp E getenv root. pose proof (launch_any open_nofollow open_file m base w Hp) as K.
  rewrite E in K.
  destruct K as (_ & artifact & env' & file' & [_ _ _ _ (_ & _ & Hfree & id & Hr & ->) _ _ _ _ _ _] & El).
  rewrite <-update_desired in El by done.
  unfold launched in El. destruct (m_dry_run m); [done|]. injection El as -> -> -> ->.
  exists id. split; [done|]. split.
  - intros event w1 Hp1. apply append_custody; [apply Hr|done].
  - intros w1 Hp1 Hm Hr1 H1 H2.
    pose proof (sink_root artifact base (m_launch_id m) (m_controller_instance m) root id w1
      (ro_absolute _ _ _ _ Hr)) as Es.
    rewrite (proj2 (Z.ltb_ge _ _) H1), (proj2 (Z.ltb_ge _ _) H2) in Es. cbn [orb] in Es.
    assert (at_fs Healthy (w_euid w1) (w_fs w1) w1) as Hw by done.
    pose proof (runs_elim _ _ _ _ _ _ _ (reads_root Healthy _ _ root id Hr1) Hw) as K.
    destruct (_open_journal_root root (Some id) w1) as [[r|e] w2].
    + destruct K as (_ & _ & [= ->]). exists w2. exact Es.
    + by destruct K as (_ & _ & [?|?]).
Qed.
End Custody.

(** ** A launch *)

Module ManagedDemo.
Definition plan : Plan :=
  mkPlan [mkPluginIdentity "vllm-hust" "ascend" "0.1.0"
            "0000000000000000000000000000000000000000000000000000000000000000"]
    (mkHostCompatibility "vllm-hust" "0.11.0" "vllm" "1")
    [mkResourceClaim "urn:ecpa:resource:attention" "ascend" "exclusive"]
    [mkEvidenceObligation "ob-1" "worker" "patch-applied" [0%Z; 1%Z]]
    (mkPredecessorSnapshot 3 None [("env", JObj [("A", JStr "1")])]) false.
Definition content : string := plan_artifact_bytes plan.
Definition plan_file : Opened := mkOpened true 1000 384 7 20 content.
Definition target : Opened := mkOpened true 0 493 7 30 "target".
Definition open_nofollow (path : string) : result Opened :=
  if path =? "/plan.json" then Ok plan_file else Err (enoent path).
Definition open_file (path : string) : result Opened :=
  if path =? "/usr/bin/vllm" then Ok target else Err (enoent path).

Definition root : string := "/events".
Definition rid : ident := (7, 100)%Z.
Definition fs : fsys := Fsys ∅ {[root := root; "/plan.json" := "/plan.json"]} {[root := rid]}
  {[rid := Directory 1000 448 ∅]} 200.
Definition w : World := mkWorld fs ∅ [] 1000 42 0.

Definition arguments : ManagedArguments :=
  mkManaged "/plan.json" "launch:1" "controller:a" root ["/usr/bin/vllm"; "serve"] 7 30
    ("sha256:" +:+ sha256_hexdigest "target") false 30000.
Definition base : environment := [("PATH", "/usr/bin"); ("HOME", "/root")].
Definition artifact : ExecutionPlanArtifact := mkArtifact "/plan.json" content plan.
Definition env : environment :=
  update base (desired artifact "launch:1" "controller:a" root rid).
Definition supervised : Managed :=
  Supervised ["/usr/bin/vllm"; "serve"] target env 30000.
Definition launch (m : ManagedArguments) (b : environment) (w : World) : result Managed * World :=
  launch_managed open_nofollow open_file m b w.
End ManagedDemo.

(** The command line: the separator is dropped, missing options are named. *)
Example formal_run_launches :
  (_formal_run_command ManagedDemo.open_nofollow ManagedDemo.open_file
     (mkFormal false (Some "/plan.json") (Some "launch:1") (Some "controller:a") (Some "/events")
        (Some 7%Z) (Some 30%Z) (Some (m_sha256 ManagedDemo.arguments)) false 30000
        ["--"; "/usr/bin/vllm"; "serve"]) ManagedDemo.base ManagedDemo.w).1
  = Ok (inr ManagedDemo.supervised).
Proof. vm_compute. reflexivity. Qed.

Example formal_run_names_missing :
  (_formal_run_command ManagedDemo.open_nofollow ManagedDemo.open_file
     (mkFormal false (Some "/plan.json") None (Some "controller:a") None
        (Some 7%Z) (Some 30%Z) None false 30000 []) ManagedDemo.base ManagedDemo.w).1
  = Err (ValueError
           "formal-run requires --launch-id, --host-event-dir, --target-executable-sha256").
Proof. vm_compute. reflexivity. Qed.

(** A variable of the manager in the caller's environment stops the launch. *)
Example launch_keeps_control :
  (ManagedDemo.launch ManagedDemo.arguments
     (("ECPA_HOST_EVENT_DIR", "/tmp") :: ManagedDemo.base) ManagedDemo.w).1
  = Err (ValueError
           "caller environment conflicts with manager-owned values: ECPA_HOST_EVENT_DIR").
Proof. vm_compute. reflexivity. Qed.

Lemma demo_launch :
  launch_managed ManagedDemo.open_nofollow ManagedDemo.open_file ManagedDemo.arguments
    ManagedDemo.base ManagedDemo.w
  = (Ok (Supervised ["/usr/bin/vllm"; "serve"] ManagedDemo.target ManagedDemo.env 30000),
     ManagedDemo.w).
Proof. vm_compute. reflexivity. Qed.

Lemma managed_launch_iff_witness :
  (0 < w_pid ManagedDemo.w)%Z
  ∧ launches ManagedDemo.open_nofollow ManagedDemo.open_file (w_euid ManagedDemo.w)
      (w_fs ManagedDemo.w) ManagedDemo.arguments ManagedDemo.base
      (Supervised ["/usr/bin/vllm"; "serve"] ManagedDemo.target ManagedDemo.env 30000).
Proof.
  split; [reflexivity|].
  destruct (managed_launch_iff ManagedDemo.open_nofollow ManagedDemo.open_file
    ManagedDemo.arguments ManagedDemo.base ManagedDemo.w) as [Hl _]; [reflexivity|].
  destruct (Hl _ _ demo_launch) as [_ Hr]. exact Hr.
Defined.

Lemma sink_custody_witness :
  ∃ id, root_ok (w_euid ManagedDemo.w) (w_fs ManagedDemo.w)
    (m_host_event_dir ManagedDemo.arguments) id.
Proof.
  destruct (sink_custody ManagedDemo.open_nofollow ManagedDemo.open_file ManagedDemo.arguments
    ManagedDemo.base ManagedDemo.w ["/usr/bin/vllm"; "serve"] ManagedDemo.target ManagedDemo.env
    30000%Z ManagedDemo.w) as (id & Hr & _); [reflexivity|exact demo_launch|].
  exists id. exact Hr.
Defined.
